(* ===== verification/_CoqProject ===== *)
-Q . S2P
Prelude.v
CFloat.v
Config.v
CString.v
Strtod.v
Decimal.v
NumText.v
Io.v
Net.v
Ring.v
Fec.v
Bitrate.v
Scorer.v
Selector.v
Commit.v
Wcmd.v
Recovery.v
Csa.v
CsaAgent.v
SdLog.v
Tunables.v
RtpProbe.v
Daemon.v
WfbJson.v
JsonForest.v
JsonText.v
ConfigEnv.v
LcDocs.v
LcStatus.v
Api.v
LcHttp.v
LcClients.v
Inputs.v
Safety.v
LcMain.v
Outcomes.v
GsText.v
KeySeed.v
KeysApi.v
GsNet.v
GsConfig.v
GsLoad.v
GsProc.v
GsState.v
GsStats.v
GsEmit.v
GsRadio.v
GsTunnel.v
GsJson.v
GsApi.v
GsLoop.v
GsRow.v
GsLog.v
GsStore.v
GsPage.v
GsTele.v
GsPages.v
GsTime.v
GsInv.v
GsReports.v
GsLife.v
AirText.v
GsAir.v
