(* ===== verification/Prelude.v ===== *)
(** * Waybeam link control: a verification library

    A long-range video link has two ends.  On the vehicle one daemon, [link_controller]
    ([vehicle/link_controller.c] with [vehicle/csa/csa.c], over the wire formats of
    [shared/wcmd_proto.h] and [shared/wfb_control.h]), sits between the radio transmitter
    [wfb_tx], the video encoder and the ground station, and in one [poll] loop
    - sizes the FEC blocks from the encoder's frame sizes (FEC subsystem),
    - keeps the encoder's bitrate under what the radio can carry (bitrate control),
    - moves the radio's MCS rung by the ground station's reception reports and the
      boundary-probe records (MCS subsystem),
    - executes commands of the ground station (command proxy), of the keyless recovery
      channel and of its own HTTP API,
    - performs announced channel switches (CSA).
    On the ground one supervisor ([ground/gs_supervisor.c] with its files for HTTP, channel
    switch and scan, over [shared/wfb_json.h]) reads a configuration, brings the adapters up,
    keeps one process per tunnel running, collects their statistics, measures the loss of the
    boundary probe, sends the operator's commands, the recovery burst and the switch
    announcements up the link, scans channels, and serves an HTTP API, again in one [poll]
    loop.
    Around the two stand small programs: the stand-alone switch agent ([vehicle/csa/csa_agent.c]),
    the applets of the combined binary that make keys and read the preset of the start script
    ([multicall/wfb_keyseed.c], [multicall/wfb_configenv.c]), and the timing probe of the
    development host ([probes/rtp_timing_probe.c]).
    This library translates these programs into executable definitions and proves what each
    part promises, what the two loops keep, and what the two ends promise each other.

    ** The files

    Shared:
    - [Prelude]: machine integers, record updates, tactics and generic list lemmas.
    - [CFloat]: [float] and [double] as correctly rounded binary32 and binary64 values,
      the conversions of C, and order lemmas.
    - [CString]: C strings as [string]s; [strstr], [strchr], [strtol] and the two JSON
      scrapers [json_get_int], [json_get_int_in] of the vehicle.  [Strtod]: [strtod].
    - [Decimal]: what [%d] prints is what [strtol] reads.  [NumText]: what [%g] prints, and
      how long the texts of numbers get.
    - [Io]: worlds with a request counter and a trace of events; the monad [GIO] over them,
      and the logics that speak about it: [performs] (every event), [ensures] (every event and
      the result), [yields] (result and events together) and [triple] (an assertion before, one
      after).

    The vehicle:
    - [Config]: every [Config] struct, [config_defaults], [cfg_validate_warnings].
    - [Net]: the requests to [wfb_tx] and their bytes, the HTTP client, the child
      processes.  The peers are a class [Env] of functions of the history.
    - [Ring]: circular buffers as bounded queues, shared by the two rings of the daemon.
    - [Fec]: [HeadroomRing], [fec_compute], [controller_update], [FpsEst].
    - [Bitrate]: [RadioState], [phy_mbps], payload tiers, [bitrate_assert],
      [wfb_stats_handle_datagram].
    - [Scorer]: [scorer_update] on the text of a report.
    - [Selector]: [selector_commit], [selector_tick_no_data], [selector_update].
    - [Commit]: [commit_mcs_change], the ordered way of a rung to the radio.
    - [Wcmd], [Recovery]: [wcmd_dispatch] and [recovery_dispatch].
    - [Csa]: the channel-switch machine of [csa.c].  [CsaAgent]: the agent around it.
    - [Tunables]: the registry [TUNABLES], [tunable_write], [apply_query] (the [/set]
      route), [json_escape] and the small parsers.
    - [Daemon]: the local variables of [link_controller_main] as one record [Daemon], its
      start-up, and every timed step of the loop up to the wait.
    - [SdLog]: the log sessions on the SD card: index, pruning, sampling, status.
    - [LcDocs], [LcStatus]: the documents of the HTTP API, [/params], [/schema], [/help] and
      the four status documents, each as the bounded writing of the source and as a tree.
    - [Api]: what reaches the daemon through HTTP requests.  [LcHttp]: every route with its
      reply, and the writing of a reply.  [LcClients]: the table of connections, the
      subscribers of the log and their events.
    - [Inputs]: every datagram handler, in the loop's order; [loop_body] is one turn.
    - [LcMain]: the command line and the start-up of the daemon up to its loop.
    - [Safety], [Outcomes]: theorems about the loop and about its steps.

    The ground station:
    - [WfbJson]: the tokenizer and the walkers of [wfb_json.h].  [JsonForest]: the token
      array as the listing of a forest, and what the walkers reach.  [JsonText]: printed
      documents and what the walkers find in them.
    - [GsText]: query strings, percent-decoding, [tokenize_argv], addresses and the JSON
      scrapers of the statistics.
    - [GsNet]: the events of the supervisor and the class [GsEnv] of what kernel, drivers
      and children answer.
    - [GsConfig]: the records [Tunnel] and [GConfig] ([Config] in the source), [cfg_load],
      the profile, the overlay, [build_argv_rx] and [build_argv_tx].  [GsLoad]: what a loaded
      configuration satisfies.
    - [GsProc]: bounded waits, [run_capture], [run_system_cmd], the adapter cache, the
      readiness wait.
    - [GsState]: the remaining singletons, gathered in the record [Gs].
    - [GsStats]: [stats_drain] and the probe windows.  [GsEmit]: commands, recovery and the
      logging marker.  [GsRadio]: channel switch and scan.  [GsTunnel]: the life of a tunnel,
      bring-up and take-down, the control round trips.
    - [GsJson]: the status documents.  [GsApi]: every route.  [GsLoop]: [supervisor_tick],
      the poll timeout, clients, one turn [loop_turn], start-up and shutting down.
    - [GsRow]: the columns [wfb_logger.c] derives from a datagram.  [GsLog]: its static [L],
      the capture thread turn by turn, the calls of the HTTP thread, and the import of a
      JSONL file; SQLite, clock and socket are the class [LogEnv].  [GsStore]: the two threads
      interleaved, and what the store holds.
    - [GsPage]: the growing buffer, the escapes and the dates of the telemetry pages.  [GsTele]:
      the pages of [gs_supervisor_telemetry.c] with their statements and documents; SQLite is the
      class [TeleEnv], the logger the class [Recorder].  [GsPages]: what they do, and the pages at
      work on the two threads of [GsStore].
    - [GsTime], [GsInv], [GsReports], [GsLife]: waits end, the invariant, the reports of a scan
      and of a switch fit their buffers ([reports_fit], [csa_answer_fits]), and what becomes of a
      stopped or crashed tunnel, a switch and a scan.

    Both ends:
    - [AirText]: what the vehicle's scrapers find in the JSON the ground prints.
    - [GsAir]: commands, recovery, announcements and probe records from the ground's sending
      to the vehicle's taking them.

    Side programs:
    - [KeySeed]: the key file, its derivation and replacement, and the applet [keygen-ensure]; the
      primitives of libsodium are the class [Sodium] with the laws [SodiumLaws].  [KeysApi]: the key
      pages of both HTTP interfaces over it.
    - [ConfigEnv]: the applet [config-env], with a reader for the shell text it prints.
    - [RtpProbe]: the timing probe, with the wire formats of [rtp_sidecar.h].

    Records have the fields of the structs behind a prefix ([cfg.fec.mtu] is
    [fec_mtu (cfg_fec cfg)], [t->restart_count] is [t_restart_count t]); an operation has the
    name of its C function, and a block of a long function has a name of its own
    ([controller_hysteresis], [drain_rx_ant], [route_scan]); the functions compose them
    in the order of the source.  [x <| p := v |>] is the record [x] with field [p] set.

    ** What is shown

    - Parts of the vehicle.  The two rings are queues ([headroom_ring_refines_queue],
      [change_ring_refines_queue]); block sizes stay in their windows whatever the floats
      hold ([fec_compute_in_windows]), and the controller emits exactly on the paths of an
      inductive specification ([controller_emits_iff]); the selector moves by single rungs
      and only for the reasons of the law ([selector_demote_justified],
      [selector_promote_safe]), and reaches its failsafe and stays in it until it hears something
      ([failsafe_reached]); the bitrate
      respects the packet-rate tiers and the up-lock; a drop lowers the bitrate before the
      rate, under a lock against raising it ([commit_down_ordered]).
    - Commands.  One request has at most one effect and one counted outcome, a repeat has
      none, values are clamped into their windows, the keyed and the keyless channels are
      disjoint, the recovery hook respects its cool-down, a channel switch goes to an
      allowed target at its time, goes back only when nothing was heard, and settles
      ([csa_switch_allowed], [csa_settles]).
    - The loop of the vehicle.  [daemon_invariant] holds in every reachable state under any
      input and any answers of the peers; [own_requests_in_range] says what a turn without
      operator may send, field by field; [dry_run_inert]; what becomes of a deferred drop, a decision, an
      operator's write and a range moved in flight ([deferred_drop], [decision_settled],
      [operator_write_adopted], [range_reclaimed]); the diagnostic and recovery sockets
      are isolated; the wait serves every armed timer ([poll_wakes]).
    - The HTTP interface of the vehicle.  Every request gets one well-formed answer
      ([every_request_answered]); the documents are never cut off and are read back by the
      ground's tokenizer ([params_report], [schema_report], [part_reports]), the status as a tree of
      the daemon's variables written out name by name ([status_report]); a [/set] shows the
      configuration it made ([set_answered]) and touches nothing outside the registry
      ([set_confined]); descriptors are neither lost nor closed twice
      ([connections_accounted]); an event carries the logged line ([log_event_sound]).
    - Start-up.  Whatever the command line, the daemon ends or enters its loop in a state of the
      invariant, with its numbers in their windows and the sockets the configuration asks for
      ([every_start_sound]); its options keep the bounds of the registry
      ([command_line_in_registry]).  The switch agent touches its own radio only
      ([agent_confined]).
    - The log sessions of the vehicle.  The index grows over resets of the clock and
      over refused writes ([session_index_grows]), opening one loses only old logs ([open_session_safe]), and a
      session stays under its cap ([samples_capped]).
    - Parts of the ground station.  A printed document is read back ([json_roundtrip]) and
      no walk leaves the tokens ([parsed_walks_in_range]); a query string is the list of its
      fields ([qs_get_first_field]); every loaded configuration is well formed
      ([config_well_formed]), and the command line of a probe receiver, read as [getopt] reads it,
      does not forward to the video decoder unless its extra arguments do ([probe_never_video]);
      argument vectors are the declared ones ([build_argv_refines]); key names are inverse to
      their parser ([key_name_roundtrip]).
    - The loop of the ground station.  [supervisor_invariant] in every reachable state;
      [only_declared_processes]; no wait hangs ([supervisor_never_stuck]); a stop is final, a
      crash is followed by a restart at its time, switches and scans end ([stop_is_final],
      [crash_is_restarted], [switch_completes], [scan_ends]).
    - The telemetry logger.  Every statement it gives to SQLite is in protocol and the status
      counts what was given, in every interleaving of its two threads ([logger_store_protocol]);
      every record with reception is given to its session ([session_keeps_signal]) and its deadlines
      ([logger_turn_deadlines]); stopping returns with everything sealed
      ([logger_stop_returns]); an import fills one session or none ([import_fills_session]).
      A refused statement is not a failure for the source, which only logs it, so a row given is a
      row kept only when SQLite accepts it.
    - The telemetry pages.  They keep the protocol of SQLite and answer every request of theirs
      once, and no text of a request becomes SQL ([pages_in_protocol]); a deletion reports what it
      asked for, and what is left of it follows from the answers to BEGIN and COMMIT
      ([session_delete_outcome]); every document is whole and its strings are read back
      ([replies_whole], [literal_read_back]); the chart shows the session ([series_shows_session]),
      with the packets per rung of [mcs_dist_is_max]; labels are in order and stay where they were
      put ([label_in_order], [label_shown_where_put]); the logger's threads stay in reachable states
      ([pages_drive_logger], [capture_stop_seals]).
    - The two ends together.  A command's burst and a recovery burst take effect once
      ([command_burst_once], [recovery_burst_once]), both ends switch to the same channel at
      the same time ([announcement_agreed]), and the vehicle decides by what the ground
      measured ([probe_window_learned]).
    - Side programs.  To every process a key file is replaced whole or not at all
      ([key_file_whole]; after a power cut it may be empty, [power_cut_empties]), and a
      passphrase given to both ends pairs them ([rekey_pairs]), but for the cases of [seeds_differ],
      [long_seed_is_public] and [signs_pass].  The preset reaches the start script as it was written
      and nothing in it is run ([config_env_refines], [config_env_safe]).  The probe reports a frame
      as it was sent, column by column ([frame_reported]), knows the offset of the clocks to half a round trip
      ([clock_offset_accurate]) and stays subscribed ([subscription_kept]).
    - Flaws.  [wcmd_duplicate_reply], [csa_refresh_inert], [csa_revert_unchecked],
      [mcs_switch_ignored] (with the run [manual_mcs_overwritten]), [fec_switch_ignored],
      [local_write_unadopted] (with the run [local_write_reverted]), [fec_block_wraps],
      [cmd_store_bounds], [active_by_name], [commit_refused] and [label_misplaced] state behaviour that differs from what comments or protocol promise.

    ** Bounds

    Fixed-width integers are [Z] reduced at the operations that can wrap; [long] has the
    width of the target ([CAbi], 32 or 64 bits).  Loops over text take fuel of one more
    than its length and are shown independent of larger fuel ([scan_report_terminates],
    [apply_query_terminates]); the tokenizer's and the walkers' fuel is the length of the text
    and of the token array; the expiry loops take the ring's count.  Conversions of
    floats to integers that C leaves undefined saturate.  A write to an array of the ground's
    statistics outside its bounds leaves an array of no entries ([array_write]), which the invariant
    of the supervisor excludes.

    The supervisor's waits end by the clock.  Their fuel is [turns deadline], so many polls
    per millisecond as the environment's [ge_patience] says; a wait that runs out of it logs
    the event [GStuck].  [time_passes] says that the clock advances by a millisecond in that
    many readings, and under it [supervisor_never_stuck] shows that [GStuck] never happens;
    [calm] is an environment for which it holds.

    ** What is not modelled

    Of the vehicle: the texts of log lines, the embedded web page (a generated blob, a
    parameter), signal set-up, and the desync diagnostic, which only writes log lines.  The sequence
    of options that [getopt_long] returns is an input.  The readiness of the SD card is a mount table
    and a directory tree; a file is its text.  The key pages belong to the combined binary; in the
    stand-alone build they answer 501.  Of the ground station: the SQL texts and the schema of the
    capture thread of [wfb_logger.c]; the web pages; the child's
    side of [fork], of which the argument vector remains; the combined build, in which a tunnel's
    program is the supervisor's own binary.  The supervisor's loop takes the answers of the telemetry
    pages as a parameter, since they work on the logger and not on its state.  Datagram queues,
    completed HTTP requests and the answers of peers, kernel, drivers and SQLite are inputs, so the
    theorems hold for any of them.  The dispatch table of the combined binary, the tool
    [udp_ts_recv.c], the C tests and the archived proofs of concept are not covered. *)

From Stdlib Require Export Ascii String ZArith Lia ZifyBool.
From stdpp Require Export base tactics numbers strings option list.

#[export] Set Default Goal Selector "!".
#[global] Open Scope Z_scope.

(** ** Machine integers

    A C integer of [w] bits is a [Z]; arithmetic that wraps in C (the unsigned
    types) is written with the reduction of its type. *)

Definition wrap (w x : Z) : Z := x mod 2 ^ w.
Definition u8 (x : Z) : Z := wrap 8 x.
Definition u16 (x : Z) : Z := wrap 16 x.
Definition u32 (x : Z) : Z := wrap 32 x.
Definition u64 (x : Z) : Z := wrap 64 x.

(** Two's complement reading of the low [w] bits: the conversion of an integer
    to a signed type of [w] bits. *)
Definition swrap (w x : Z) : Z :=
  let y := wrap w x in if y <? 2 ^ (w - 1) then y else y - 2 ^ w.
Definition i32 (x : Z) : Z := swrap 32 x.
Definition i64 (x : Z) : Z := swrap 64 x.

Definition INT_MAX : Z := 2 ^ 31 - 1.
Definition INT_MIN : Z := - 2 ^ 31.

(** The width of [long] differs between the targets the daemons are built for:
    32 bits on the armv7l vehicle, 64 bits on aarch64 and x86-64. *)
Class CAbi := { long_bits : Z; long_bits_ok : long_bits = 32 \/ long_bits = 64 }.

Definition abi_armv7 : CAbi := {| long_bits := 32; long_bits_ok := or_introl eq_refl |}.
Definition abi_lp64 : CAbi := {| long_bits := 64; long_bits_ok := or_intror eq_refl |}.

Section Long.
Context `{!CAbi}.
Definition LONG_MAX : Z := 2 ^ (long_bits - 1) - 1.
Definition LONG_MIN : Z := - 2 ^ (long_bits - 1).
Definition long_cast (x : Z) : Z := swrap long_bits x.
(** The conversion to [unsigned long]. *)
Definition ulong (x : Z) : Z := wrap long_bits x.

Lemma LONG_MAX_ge : INT_MAX <= LONG_MAX.
Proof. unfold LONG_MAX, INT_MAX. destruct long_bits_ok as [-> | ->]; lia. Qed.

Lemma LONG_MIN_le : LONG_MIN <= INT_MIN.
Proof. unfold LONG_MIN, INT_MIN. destruct long_bits_ok as [-> | ->]; lia. Qed.
End Long.

Lemma wrap_bound w x : 0 <= w -> 0 <= wrap w x < 2 ^ w.
Proof. intros. unfold wrap. apply Z.mod_pos_bound. lia. Qed.

Lemma wrap_small w x : 0 <= x < 2 ^ w -> wrap w x = x.
Proof. intros. unfold wrap. apply Z.mod_small. lia. Qed.

Lemma wrap_wrap w x : wrap w (wrap w x) = wrap w x.
Proof. unfold wrap. apply Zmod_mod. Qed.

Lemma u64_bound x : 0 <= u64 x < 2 ^ 64.
Proof. apply wrap_bound. lia. Qed.

Lemma u64_small x : 0 <= x < 2 ^ 64 -> u64 x = x.
Proof. apply wrap_small. Qed.

Lemma u32_small x : 0 <= x < 2 ^ 32 -> u32 x = x.
Proof. apply wrap_small. Qed.

Lemma u16_small x : 0 <= x < 2 ^ 16 -> u16 x = x.
Proof. apply wrap_small. Qed.

Lemma u8_small x : 0 <= x < 2 ^ 8 -> u8 x = x.
Proof. apply wrap_small. Qed.

Lemma swrap_small w x : 0 < w -> - 2 ^ (w - 1) <= x < 2 ^ (w - 1) -> swrap w x = x.
Proof.
  intros Hw Hx. unfold swrap, wrap.
  assert (2 ^ w = 2 * 2 ^ (w - 1)) as E.
  { rewrite <- Z.pow_succ_r by lia. f_equal. lia. }
  destruct (Z_lt_le_dec x 0) as [Hn | Hp].
  - rewrite <- (Z.mod_unique_pos x (2 ^ w) (-1) (x + 2 ^ w)) by lia.
    destruct (Z.ltb_spec (x + 2 ^ w) (2 ^ (w - 1))); lia.
  - rewrite Z.mod_small by lia. destruct (Z.ltb_spec x (2 ^ (w - 1))); lia.
Qed.

Lemma i32_small x : INT_MIN <= x <= INT_MAX -> i32 x = x.
Proof. unfold INT_MIN, INT_MAX. intros. apply swrap_small; lia. Qed.

Lemma i32_range x : INT_MIN <= i32 x <= INT_MAX.
Proof.
  unfold i32, swrap, wrap, INT_MIN, INT_MAX. pose proof (Z.mod_pos_bound x (2 ^ 32)) as H.
  destruct (Z.ltb_spec (x mod 2 ^ 32) (2 ^ (32 - 1))); lia.
Qed.

Lemma i32_u32 x : i32 (u32 x) = i32 x.
Proof. unfold i32, u32, swrap. by rewrite wrap_wrap. Qed.

Create Rewrite HintDb cint.
#[export] Hint Rewrite u64_small u32_small u16_small u8_small i32_small using lia : cint.

(** ** Arrays

    A write outside an array is undefined in C.  The model then gives the whole array up
    ([[]]), so an invariant that keeps the length of an array says that every write was inside. *)

Definition inside {A} (i : Z) (l : list A) : bool := (0 <=? i) && (i <? Z.of_nat (length l)).

Definition array_write {A} (f : A -> A) (i : Z) (l : list A) : list A :=
  if inside i l then alter f (Z.to_nat i) l else [].

Lemma length_array_write {A} (f : A -> A) i (l : list A) : 0 <= i < Z.of_nat (length l) ->
  length (array_write f i l) = length l.
Proof.
  intros H. unfold array_write, inside. replace ((0 <=? i) && _) with true by lia.
  apply length_alter.
Qed.

Lemma Forall_array_write {A} (P : A -> Prop) f i (l : list A) : (forall x, P x -> P (f x)) ->
  Forall P l -> Forall P (array_write f i l).
Proof.
  intros Hf Hl. unfold array_write. destruct (inside i l); [|constructor].
  apply Forall_alter; [done|]. intros x _. apply Hf.
Qed.

(** ** Functional update of records

    [r <| f := v |>] is [r] with field [f] replaced, the C assignment [r.f = v].
    A record type provides its eta expansion once, and the setter of a field is
    obtained by abstracting its projection in that expansion. *)

Class Eta (R : Type) := eta : R -> R.
Class Setter {R T : Type} (p : R -> T) := { set_field : T -> R -> R }.
Arguments set_field {R T} p {_} _ _.

Ltac head_of t :=
  lazymatch t with
  | ?f _ => head_of f
  | _ => t
  end.

Ltac solve_setter :=
  lazymatch goal with
  | |- @Setter ?R ?T ?p =>
      let e := constr:(@eta R _) in
      let i := lazymatch e with @eta _ ?i => i end in
      let h := head_of i in
      let e := eval cbv beta delta [h] in i in
      lazymatch eval pattern p in e with
      | ?g _ =>
          let t := eval cbv beta in (fun (v : T) (r : R) => g (fun _ : R => v) r) in
          exact (Build_Setter R T p t)
      end
  end.

#[export] Hint Extern 1 (Setter _) => solve_setter : typeclass_instances.

Notation "r <| p := v |>" := (set_field p v r)
  (at level 12, left associativity, p at level 11, v at level 200,
   format "r  <| p  :=  v |>").

(** ** Automation *)

(** Split every boolean test of the goal, keeping the equations, and close the
    arithmetic leaves. *)
Ltac case_bool :=
  match goal with
  | |- context [if ?b then _ else _] =>
      lazymatch b with
      | context [if _ then _ else _] => fail
      | _ => destruct b eqn:?
      end
  end.

Ltac case_bool_in H :=
  match type of H with
  | context [if ?b then _ else _] =>
      lazymatch b with
      | context [if _ then _ else _] => fail
      | _ => destruct b eqn:?
      end
  end.

(** Break conjunctions of booleans in the hypotheses. *)
Ltac bool_hyps :=
  repeat match goal with
  | H : (_ && _)%bool = true |- _ => apply andb_true_iff in H; destruct H
  | H : (_ || _)%bool = false |- _ => apply orb_false_iff in H; destruct H
  | H : negb _ = true |- _ => apply negb_true_iff in H
  | H : negb _ = false |- _ => apply negb_false_iff in H
  end.
