(* ===== verification/CFloat.v ===== *)
(** * C floating point

    [float] and [double] of the source, as IEEE 754 binary32 and binary64 values
    of the Standard Library's executable specification ([SpecFloat]): every
    operation is the correctly rounded one (round to nearest, ties to even), with
    infinities and NaN, so the model computes the bits the compiled program
    computes.  A compiler may contract a multiplication and an addition into one rounding
    where the target has such an instruction; the build files select no such target and
    the model does not contract. *)

From S2P Require Import Prelude.
From Stdlib Require Export SpecFloat.

(** A [float] or a [double] value. *)
Abbreviation fp := spec_float.

#[export] Instance fp_eq_dec : EqDecision fp.
Proof. solve_decision. Defined.

(** ** Operations, by format *)

Module F32.
Definition prec : Z := 24.
Definition emax : Z := 128.
Definition add (x y : fp) : fp := SFadd prec emax x y.
Definition sub (x y : fp) : fp := SFsub prec emax x y.
Definition mul (x y : fp) : fp := SFmul prec emax x y.
Definition div (x y : fp) : fp := SFdiv prec emax x y.
(** Conversion of an integer, [(float)z]. *)
Definition of_Z (z : Z) : fp := binary_normalize prec emax z 0 false.
(** A decimal literal [n/d] with [n] and [d] exactly representable, such as
    [0.33f = lit 33 100]: one division, rounded once, as the compiler rounds it. *)
Definition lit (n d : Z) : fp := div (of_Z n) (of_Z d).
End F32.

Module F64.
Definition prec : Z := 53.
Definition emax : Z := 1024.
Definition add (x y : fp) : fp := SFadd prec emax x y.
Definition sub (x y : fp) : fp := SFsub prec emax x y.
Definition mul (x y : fp) : fp := SFmul prec emax x y.
Definition div (x y : fp) : fp := SFdiv prec emax x y.
Definition of_Z (z : Z) : fp := binary_normalize prec emax z 0 false.
Definition lit (n d : Z) : fp := div (of_Z n) (of_Z d).
End F64.

(** Change of format: [(float)d] rounds, [(double)f] is exact. *)
Definition fp_convert (prec emax : Z) (x : fp) : fp :=
  match x with
  | S754_finite s m e => binary_normalize prec emax (cond_Zopp s (Zpos m)) e s
  | _ => x
  end.
Definition to_f32 (x : fp) : fp := fp_convert F32.prec F32.emax x.
Definition to_f64 (x : fp) : fp := fp_convert F64.prec F64.emax x.

Definition fopp (x : fp) : fp := SFopp x.
Definition fabs (x : fp) : fp := SFabs x.
Definition flt (x y : fp) : bool := SFltb x y.
Definition fle (x y : fp) : bool := SFleb x y.
Definition f0 : fp := S754_zero false.

#[export] Instance fp_inhabited : Inhabited fp := populate f0.

(** [isfinite]. *)
Definition is_finite (x : fp) : bool :=
  match x with S754_zero _ | S754_finite _ _ _ => true | _ => false end.
Definition is_nan (x : fp) : bool := match x with S754_nan => true | _ => false end.

(** ** Conversion to integers

    A conversion truncates towards zero.  When the truncated value does not fit the
    integer type the C standard leaves the result open; the model takes the one of the
    vehicle's VFP unit, which saturates and maps NaN to 0. *)

Definition ftrunc (s : bool) (m : positive) (e : Z) : Z :=
  cond_Zopp s (Z.shiftl (Zpos m) e).

Definition fp_to_Z (lo hi : Z) (x : fp) : Z :=
  match x with
  | S754_nan => 0
  | S754_zero _ => 0
  | S754_infinity s => if s then lo else hi
  | S754_finite s m e => Z.max lo (Z.min hi (ftrunc s m e))
  end.

Definition f_to_u64 (x : fp) : Z := fp_to_Z 0 (2 ^ 64 - 1) x.
Definition f_to_int (x : fp) : Z := fp_to_Z INT_MIN INT_MAX x.
Definition f_to_long `{!CAbi} (x : fp) : Z := fp_to_Z LONG_MIN LONG_MAX x.

(** [ceilf], for a value whose result is converted to [int] at once: the least
    integer not below it, as a value of the same format. *)
Definition fceil_Z (s : bool) (m : positive) (e : Z) : Z :=
  - Z.shiftl (- cond_Zopp s (Zpos m)) e.

Definition fceil (x : fp) : fp :=
  match x with
  | S754_finite s m e =>
      if 0 <=? e then x
      else match fceil_Z s m e with
           | 0 => S754_zero s
           | z => F32.of_Z z
           end
  | _ => x
  end.

Declare Scope f32_scope.
Delimit Scope f32_scope with f32.
Infix "+" := F32.add : f32_scope.
Infix "-" := F32.sub : f32_scope.
Infix "*" := F32.mul : f32_scope.
Infix "/" := F32.div : f32_scope.
Infix "<?" := flt : f32_scope.
Infix "<=?" := fle : f32_scope.
Notation "x >? y" := (flt y x) (only parsing) : f32_scope.
Notation "x >=? y" := (fle y x) (only parsing) : f32_scope.

Declare Scope f64_scope.
Delimit Scope f64_scope with f64.
Infix "+" := F64.add : f64_scope.
Infix "-" := F64.sub : f64_scope.
Infix "*" := F64.mul : f64_scope.
Infix "/" := F64.div : f64_scope.
Infix "<?" := flt : f64_scope.
Infix "<=?" := fle : f64_scope.

(** ** Order lemmas

    The comparisons are those of IEEE 754: false as soon as one side is NaN. *)

Lemma Zpos_compare_cont m1 m2 : Pos.compare_cont Eq m1 m2 = (m1 ?= m2)%positive.
Proof. reflexivity. Qed.

Lemma SFcompare_swap x y :
  SFcompare y x = option_map CompOpp (SFcompare x y).
Proof.
  destruct x as [[]|[]| |[] m1 e1], y as [[]|[]| |[] m2 e2]; cbn; try reflexivity;
    rewrite (Z.compare_antisym e1 e2); destruct (Z.compare e1 e2); cbn; try reflexivity;
    rewrite !Zpos_compare_cont, (Pos.compare_antisym m1 m2); reflexivity.
Qed.

Lemma flt_not_fle x y : flt x y = true -> fle y x = false.
Proof.
  unfold flt, fle, SFltb, SFleb. rewrite (SFcompare_swap x y).
  by destruct (SFcompare x y) as [[]|].
Qed.

Lemma flt_fle x y : flt x y = true -> fle x y = true.
Proof. unfold flt, fle, SFltb, SFleb. by destruct (SFcompare x y) as [[]|]. Qed.

Lemma flt_irrefl x : flt x x = false.
Proof.
  unfold flt, SFltb. destruct x as [[]|[]| |[] m e]; cbn; try reflexivity;
    rewrite Z.compare_refl, Zpos_compare_cont, Pos.compare_refl; reflexivity.
Qed.

Lemma fle_refl x : is_nan x = false -> fle x x = true.
Proof.
  unfold fle, SFleb. destruct x as [[]|[]| |[] m e]; cbn; try done; intros _;
    rewrite Z.compare_refl, Zpos_compare_cont, Pos.compare_refl; reflexivity.
Qed.

(** Away from NaN the order is total. *)
Lemma flt_false_fle x y :
  is_nan x = false -> is_nan y = false -> flt x y = false -> fle y x = true.
Proof.
  unfold flt, fle, SFltb, SFleb. intros Hx Hy. rewrite (SFcompare_swap x y).
  destruct (SFcompare x y) as [[]|] eqn:E; cbn; try done.
  destruct x as [[]|[]| |[] m1 e1], y as [[]|[]| |[] m2 e2]; cbn in *; discriminate.
Qed.

Lemma fle_not_nan x y : fle x y = true -> is_nan x = false /\ is_nan y = false.
Proof. unfold fle, SFleb. destruct x, y; cbn; try done. Qed.

Lemma flt_not_nan x y : flt x y = true -> is_nan x = false /\ is_nan y = false.
Proof. intros ?%flt_fle. by apply fle_not_nan. Qed.

(** The two-sided clamp the source writes as a pair of [if]s. *)
Definition fclamp (lo hi x : fp) : fp :=
  let x := if flt x lo then lo else x in if flt hi x then hi else x.

Lemma fclamp_le_hi lo hi x :
  is_nan lo = false -> is_nan hi = false -> is_nan x = false ->
  fle (fclamp lo hi x) hi = true.
Proof.
  intros Hlo Hhi Hx. unfold fclamp.
  destruct (flt hi (if flt x lo then lo else x)) eqn:E; [by apply fle_refl|].
  apply flt_false_fle in E; try done. by destruct (flt x lo).
Qed.

Lemma fclamp_ge_lo lo hi x :
  is_nan x = false -> fle lo hi = true ->
  fle lo (fclamp lo hi x) = true.
Proof.
  intros Hx Hlh. destruct (fle_not_nan _ _ Hlh) as [Hlo Hhi]. unfold fclamp.
  destruct (flt hi (if flt x lo then lo else x)) eqn:E; [done|].
  destruct (flt x lo) eqn:E'; [by apply fle_refl|].
  by apply flt_false_fle.
Qed.

(** ** Conversions stay in range *)

Lemma fp_to_Z_bounds lo hi x : lo <= 0 <= hi -> lo <= fp_to_Z lo hi x <= hi.
Proof. intros. destruct x as [s|s| |s m e]; cbn; try lia. by destruct s; lia. Qed.

Lemma f_to_u64_bounds x : 0 <= f_to_u64 x < 2 ^ 64.
Proof. unfold f_to_u64. pose proof (fp_to_Z_bounds 0 (2 ^ 64 - 1) x). lia. Qed.

Lemma f_to_int_bounds x : INT_MIN <= f_to_int x <= INT_MAX.
Proof. apply fp_to_Z_bounds. unfold INT_MIN, INT_MAX. lia. Qed.

Lemma f_to_long_bounds `{!CAbi} x : LONG_MIN <= f_to_long x <= LONG_MAX.
Proof.
  apply fp_to_Z_bounds. pose proof LONG_MAX_ge. pose proof LONG_MIN_le.
  unfold INT_MIN, INT_MAX in *. lia.
Qed.

(** ** NaN and overflow

    When the operations of the source cannot produce NaN, and when the conversion of an
    integer stays finite: the facts the clamps above need. *)

Section Rounding.
Variables prec emax : Z.

Lemma shr_1_bounds r : 0 <= shr_m r -> 0 <= shr_m (shr_1 r) <= shr_m r.
Proof. destruct r as [[|[p|p|]|[p|p|]] x y]; cbn; lia. Qed.

Lemma iter_pos_bounds n r :
  0 <= shr_m r -> 0 <= shr_m (iter_pos shr_1 n r) <= shr_m r.
Proof.
  revert r. induction n as [n IH|n IH|]; intros r Hr; cbn [iter_pos].
  - pose proof (shr_1_bounds r Hr) as H1.
    pose proof (IH _ (proj1 H1)) as H2. pose proof (IH _ (proj1 H2)). lia.
  - pose proof (IH r Hr) as H1. pose proof (IH _ (proj1 H1)). lia.
  - by apply shr_1_bounds.
Qed.

Lemma shr_bounds r e n :
  0 <= shr_m r -> 0 <= shr_m (fst (shr r e n)) <= shr_m r.
Proof. destruct n as [|n|n]; cbn; [lia|apply iter_pos_bounds|lia]. Qed.

Lemma shr_exp r e n : snd (shr r e n) = Z.max e (e + n).
Proof. destruct n; cbn; lia. Qed.

Lemma shr_record_of_loc_m m l : shr_m (shr_record_of_loc m l) = m.
Proof. by destruct l as [|[]]. Qed.

Lemma shr_fexp_bounds m e l :
  0 <= m -> 0 <= shr_m (fst (shr_fexp prec emax m e l)) <= m.
Proof.
  intros Hm. unfold shr_fexp.
  pose proof (shr_bounds (shr_record_of_loc m l) e
                (fexp prec emax (Zdigits2 m + e) - e)) as H.
  rewrite shr_record_of_loc_m in H. by apply H.
Qed.

Lemma shr_fexp_exp m e l :
  snd (shr_fexp prec emax m e l) = Z.max e (fexp prec emax (Zdigits2 m + e)).
Proof. unfold shr_fexp. rewrite shr_exp. lia. Qed.

Lemma round_nearest_even_bounds m l : m <= round_nearest_even m l <= m + 1.
Proof. destruct l as [|[]]; cbn; try lia. destruct (Z.even m); lia. Qed.

Lemma binary_round_aux_not_nan s m e l :
  0 <= m -> is_nan (binary_round_aux prec emax s m e l) = false.
Proof.
  intros Hm. unfold binary_round_aux.
  pose proof (shr_fexp_bounds m e l Hm) as H1.
  destruct (shr_fexp prec emax m e l) as [r1 e1]. cbn [fst] in H1.
  pose proof (round_nearest_even_bounds (shr_m r1) (loc_of_shr_record r1)) as H2.
  set (m2 := round_nearest_even _ _) in *.
  assert (0 <= m2) as H3 by lia.
  pose proof (shr_fexp_bounds m2 e1 loc_Exact H3) as H4.
  destruct (shr_fexp prec emax m2 e1 loc_Exact) as [r2 e2]. cbn [fst] in H4.
  destruct (shr_m r2) as [|p|p]; [done| |lia]. by destruct (_ <=? _).
Qed.

Lemma binary_normalize_not_nan m e s :
  is_nan (binary_normalize prec emax m e s) = false.
Proof.
  destruct m as [|p|p]; cbn; [done| |]; unfold binary_round;
    destruct (shl_align _ _ _); apply binary_round_aux_not_nan; lia.
Qed.
End Rounding.

Lemma of_Z_not_nan z : is_nan (F32.of_Z z) = false.
Proof. apply binary_normalize_not_nan. Qed.

Lemma to_f64_not_nan x : is_nan (to_f64 x) = is_nan x.
Proof. destruct x; try done. apply binary_normalize_not_nan. Qed.

Lemma mul_finite_not_nan x y :
  is_finite x = true -> is_nan y = false -> x <> S754_zero false -> x <> S754_zero true ->
  is_nan (F32.mul x y) = false.
Proof.
  destruct x as [[]|s| |s m e], y as [s'|s'| |s' m' e']; try done; intros; cbn.
  by apply binary_round_aux_not_nan.
Qed.

Lemma mul_two_finite_not_nan x y :
  is_finite x = true -> is_finite y = true -> is_nan (F32.mul x y) = false.
Proof.
  destruct x as [s|s| |s m e], y as [s'|s'| |s' m' e']; try done; intros; cbn.
  by apply binary_round_aux_not_nan.
Qed.

Lemma SFdiv_core_nonneg p emx m1 e1 m2 e2 :
  0 < m1 -> 0 < m2 ->
  0 <= fst (fst (SFdiv_core_binary p emx m1 e1 m2 e2)).
Proof.
  intros H1 H2. unfold SFdiv_core_binary.
  match goal with |- context [Z.div_eucl ?a m2] => set (m' := a) end.
  assert (0 <= m') as Hm'.
  { subst m'. destruct (_ - _ - _) as [|q|q]; try lia. apply Z.shiftl_nonneg. lia. }
  pose proof (Z.div_pos m' m2 Hm' H2) as Hq. unfold Z.div in Hq.
  destruct (Z.div_eucl m' m2) as [q r]. exact Hq.
Qed.

(** A finite dividend and a divisor that is not zero. *)
Lemma div_not_nan x y :
  is_finite x = true -> is_nan y = false -> flt f0 y = true ->
  is_nan (F32.div x y) = false.
Proof.
  destruct x as [s|s| |s m e], y as [s'|s'| |s' m' e']; try done; intros; cbn.
  pose proof (SFdiv_core_nonneg F32.prec F32.emax (Zpos m) e (Zpos m') e') as H2.
  destruct (SFdiv_core_binary _ _ _ _ _ _) as [[q eq] l]. cbn in H2.
  apply binary_round_aux_not_nan. lia.
Qed.

(** *** Integers below 2^64 convert to finite floats *)

Lemma digits2_pos_log2 p : Zpos (digits2_pos p) = Z.log2 (Zpos p) + 1.
Proof.
  induction p as [p IH|p IH|]; cbn [digits2_pos]; [| |done];
    rewrite Pos2Z.inj_succ, IH.
  - rewrite (Pos2Z.inj_xI p), Z.log2_succ_double by lia. lia.
  - rewrite (Pos2Z.inj_xO p), Z.log2_double by lia. lia.
Qed.

Lemma Zdigits2_le m n : 0 <= m < 2 ^ n -> 0 <= n -> Zdigits2 m <= n.
Proof.
  intros [H0 Hm] Hn. destruct m as [|p|p]; cbn; [lia| |lia].
  rewrite digits2_pos_log2. apply Z.log2_lt_pow2 in Hm; lia.
Qed.

Lemma binary_round_aux_finite s m e l :
  0 <= m < 2 ^ 64 -> e <= 0 ->
  is_finite (binary_round_aux 24 128 s m e l) = true.
Proof.
  intros Hm He. unfold binary_round_aux.
  pose proof (shr_fexp_bounds 24 128 m e l (proj1 Hm)) as H1.
  pose proof (shr_fexp_exp 24 128 m e l) as E1.
  destruct (shr_fexp 24 128 m e l) as [r1 e1]. cbn [fst snd] in *.
  pose proof (round_nearest_even_bounds (shr_m r1) (loc_of_shr_record r1)) as H2.
  set (m2 := round_nearest_even _ _) in *.
  assert (0 <= m2 < 2 ^ 65) as Hm2 by lia.
  pose proof (shr_fexp_bounds 24 128 m2 e1 loc_Exact (proj1 Hm2)) as H4.
  pose proof (shr_fexp_exp 24 128 m2 e1 loc_Exact) as E2.
  destruct (shr_fexp 24 128 m2 e1 loc_Exact) as [r2 e2]. cbn [fst snd] in *.
  destruct (shr_m r2) as [|p|p]; [done| |lia].
  pose proof (Zdigits2_le m 64 Hm ltac:(lia)).
  pose proof (Zdigits2_le m2 65 Hm2 ltac:(lia)).
  unfold fexp, emin in *. destruct (Z.leb_spec e2 (128 - 24)); [done|lia].
Qed.

Lemma iter_xO p n : Zpos (Pos.iter xO p n) = Zpos p * 2 ^ Zpos n.
Proof.
  induction n as [|n IH] using Pos.peano_ind; [cbn; lia|].
  rewrite Pos.iter_succ, Pos2Z.inj_succ, Z.pow_succ_r by lia. lia.
Qed.

Lemma binary_round_Z_aux s p :
  Zpos p < 2 ^ 62 ->
  exists m e, binary_round 24 128 s p 0 = binary_round_aux 24 128 s (Zpos m) e loc_Exact /\
    Zpos m < 2 ^ 64 /\ -23 <= e <= 0.
Proof.
  intros Hp. unfold binary_round.
  assert (Zpos (digits2_pos p) <= 62) as Hd by (apply (Zdigits2_le (Zpos p)); lia).
  unfold shl_align, fexp, emin. rewrite Z.sub_0_r, Z.add_0_r.
  destruct (Z.max _ _) as [|q|q] eqn:Em.
  - exists p, 0. split; [done|lia].
  - exists p, 0. split; [done|lia].
  - exists (Pos.iter xO p q), (Zneg q). split; [done|].
    assert (Zpos q <= 23 /\ Zpos p < 2 ^ 24) as [Hq Hp24].
    { pose proof (digits2_pos_log2 p). rewrite <- Pos2Z.opp_pos in Em.
      split; [lia|]. apply Z.log2_lt_pow2; lia. }
    rewrite iter_xO.
    assert (2 ^ Zpos q <= 2 ^ 23) by (apply Z.pow_le_mono_r; lia). nia.
Qed.

Lemma of_Z_finite z : - 2 ^ 62 < z < 2 ^ 62 -> is_finite (F32.of_Z z) = true.
Proof.
  intros Hz. unfold F32.of_Z, F32.prec, F32.emax, binary_normalize.
  destruct z as [|p|p]; [done| |];
    match goal with |- context [binary_round _ _ ?s p 0] =>
      destruct (binary_round_Z_aux s p) as (m & e & -> & ? & ?); [lia|] end;
    apply binary_round_aux_finite; lia.
Qed.

(** *** Positive integers convert to positive floats *)

Lemma shr_1_div r : 0 <= shr_m r -> shr_m (shr_1 r) = shr_m r / 2.
Proof.
  destruct r as [[|[p|p|]|[p|p|]] x y]; cbn [shr_1 shr_m]; intros; try lia; try done;
    rewrite ?(Pos2Z.inj_xI p), ?(Pos2Z.inj_xO p);
    (apply (Z.div_unique_pos _ _ _ 1); lia) || (apply (Z.div_unique_pos _ _ _ 0); lia).
Qed.

Lemma iter_pos_div n r :
  0 <= shr_m r -> shr_m (iter_pos shr_1 n r) = shr_m r / 2 ^ Zpos n.
Proof.
  revert r. induction n as [n IH|n IH|]; intros r Hr; cbn [iter_pos].
  - pose proof (shr_1_bounds r Hr) as H1. pose proof (iter_pos_bounds n _ (proj1 H1)) as H2.
    rewrite (IH _ (proj1 H2)), (IH _ (proj1 H1)), shr_1_div by done.
    replace (Zpos n~1) with (1 + Zpos n + Zpos n) by lia.
    rewrite !Z.pow_add_r, Z.pow_1_r by lia.
    assert (0 < 2 ^ Zpos n) by lia. rewrite !Z.div_div by lia. by rewrite Z.mul_assoc.
  - pose proof (iter_pos_bounds n r Hr) as H1.
    rewrite (IH _ (proj1 H1)), (IH r Hr).
    replace (Zpos n~0) with (Zpos n + Zpos n) by lia. rewrite Z.pow_add_r by lia.
    assert (0 < 2 ^ Zpos n) by lia. by rewrite !Z.div_div by lia.
  - by apply shr_1_div.
Qed.

(** Shifting a positive mantissa to at most 24 digits leaves it positive. *)
Lemma shr_fexp_pos m e l :
  0 < m -> -125 <= e -> 0 < shr_m (fst (shr_fexp 24 128 m e l)).
Proof.
  intros Hm He. unfold shr_fexp.
  destruct m as [|p|p]; [lia| |lia]. cbn [Zdigits2].
  pose proof (digits2_pos_log2 p) as Hd. pose proof (Z.log2_spec (Zpos p) eq_refl) as Hlog.
  unfold fexp, emin. set (n := _ - e).
  destruct n as [|q|q] eqn:En; cbn [shr fst];
    [by rewrite shr_record_of_loc_m| |by rewrite shr_record_of_loc_m].
  rewrite iter_pos_div; rewrite shr_record_of_loc_m; [|lia].
  apply Z.div_str_pos. split; [lia|].
  pose proof (Z.log2_nonneg (Zpos p)).
  subst n. assert (Zpos q <= Z.log2 (Zpos p)) as Hq by lia.
  pose proof (Z.pow_le_mono_r 2 (Zpos q) (Z.log2 (Zpos p)) eq_refl Hq). lia.
Qed.

Lemma of_Z_pos z : 0 < z < 2 ^ 62 -> flt f0 (F32.of_Z z) = true.
Proof.
  intros Hz. destruct z as [|p|p]; [lia| |lia].
  unfold F32.of_Z, F32.prec, F32.emax, binary_normalize.
  destruct (binary_round_Z_aux false p) as (m & e & -> & Hm & He); [lia|].
  unfold binary_round_aux.
  pose proof (shr_fexp_pos (Zpos m) e loc_Exact eq_refl ltac:(lia)) as H1.
  pose proof (shr_fexp_exp 24 128 (Zpos m) e loc_Exact) as E1.
  destruct (shr_fexp 24 128 (Zpos m) e loc_Exact) as [r1 e1]. cbn [fst snd] in *.
  pose proof (round_nearest_even_bounds (shr_m r1) (loc_of_shr_record r1)) as H2.
  set (m2 := round_nearest_even _ _) in *.
  pose proof (shr_fexp_pos m2 e1 loc_Exact ltac:(lia) ltac:(lia)) as H3.
  destruct (shr_fexp 24 128 m2 e1 loc_Exact) as [r2 e2]. cbn [fst] in H3.
  destruct (shr_m r2) as [|q|q]; [lia| |lia]. by destruct (_ <=? _).
Qed.

Lemma mul_not_nan_r x y :
  is_nan x = false -> is_finite y = true -> flt f0 y = true ->
  is_nan (F32.mul x y) = false.
Proof.
  destruct x as [s|s| |s m e], y as [s'|s'| |s' m' e']; try done; intros; cbn.
  by apply binary_round_aux_not_nan.
Qed.
