(* ===== verification/Config.v ===== *)
(** * Configuration

    [Config] of [vehicle/link_controller.c]: one record per nested struct, the fields in
    the source's order and with the source's names behind the struct's prefix
    ([cfg.fec.mtu] is [fec_mtu (cfg_fec cfg)]).  [int], [long], [uint16_t] and
    [long long] fields are [Z], [float] fields are binary32 values, character arrays
    are strings.  [config_defaults] gives every field its start value;
    [cfg_validate_warnings] is the cross-field check run at startup and after [/set]. *)

From S2P Require Import Prelude CFloat.

(** [Config.fec]: FEC sizing, gating, link budget and payload. *)
Record FecCfg := Build_FecCfg {
  fec_sidecar_host : string;
  fec_sidecar_port : Z;
  fec_venc_host : string;
  fec_venc_port : Z;
  fec_mtu : Z;
  fec_min_k : Z;
  fec_max_k : Z;
  fec_min_n : Z;
  fec_max_n : Z;
  fec_ewma_alpha : fp;
  fec_headroom_min : fp;
  fec_headroom_max : fp;
  fec_headroom_margin : fp;
  fec_headroom_window_s : fp;
  fec_ppf_deadband_frac : fp;
  fec_k_hyst_up : Z;
  fec_cooldown_up_s : fp;
  fec_k_down_dwell_s : fp;
  fec_k_up_dwell_s : fp;
  fec_startup_grace_s : fp;
  fec_safety_margin : fp;
  fec_bitrate_min_kbps : Z;
  fec_bitrate_max_kbps : Z;
  fec_bitrate_tolerance : fp;
  fec_bitrate_grace_s : fp;
  fec_mcs_settle_s : fp;
  fec_bitrate_lead_s : fp;
  fec_mcs_up_grace_s : fp;
  fec_subscribe_s : fp;
  fec_radio_poll_s : fp;
  fec_wfb_stats_port : Z;
  fec_enabled : bool;
  fec_payload_max : Z;
  fec_payload_min : Z;
  fec_airtime_max_pct : Z;
  fec_airtime_preamble_us : Z;
  fec_safe_startup_enabled : bool;
  fec_safe_startup_bitrate_kbps : Z;
  fec_safe_startup_payload : Z;
  fec_skip_on_backpressure : bool;
  fec_backpressure_fill_pct : Z;
  fec_desync_probe : bool;
  fec_blocksize_feedforward : bool;
  fec_ff_cooldown_s : fp;
  fec_backpressure_recover_s : fp
}.

#[export] Instance eta_FecCfg : Eta FecCfg := fun c => Build_FecCfg
  (fec_sidecar_host c) (fec_sidecar_port c) (fec_venc_host c) (fec_venc_port c)
  (fec_mtu c) (fec_min_k c) (fec_max_k c) (fec_min_n c) (fec_max_n c)
  (fec_ewma_alpha c) (fec_headroom_min c) (fec_headroom_max c) (fec_headroom_margin c)
  (fec_headroom_window_s c) (fec_ppf_deadband_frac c) (fec_k_hyst_up c)
  (fec_cooldown_up_s c) (fec_k_down_dwell_s c) (fec_k_up_dwell_s c)
  (fec_startup_grace_s c) (fec_safety_margin c) (fec_bitrate_min_kbps c)
  (fec_bitrate_max_kbps c) (fec_bitrate_tolerance c) (fec_bitrate_grace_s c)
  (fec_mcs_settle_s c) (fec_bitrate_lead_s c) (fec_mcs_up_grace_s c)
  (fec_subscribe_s c) (fec_radio_poll_s c) (fec_wfb_stats_port c) (fec_enabled c)
  (fec_payload_max c) (fec_payload_min c) (fec_airtime_max_pct c)
  (fec_airtime_preamble_us c) (fec_safe_startup_enabled c)
  (fec_safe_startup_bitrate_kbps c) (fec_safe_startup_payload c)
  (fec_skip_on_backpressure c) (fec_backpressure_fill_pct c) (fec_desync_probe c)
  (fec_blocksize_feedforward c) (fec_ff_cooldown_s c) (fec_backpressure_recover_s c).

(** [Config.mcs]: the rate law's smoothing, rules and guards. *)
Record McsCfg := Build_McsCfg {
  mcs_stats_host : string;
  mcs_stats_port : Z;
  mcs_rssi_ewma_alpha : fp;
  mcs_loss_ewma_alpha : fp;
  mcs_rssi_aggregator : Z;
  mcs_down_cooldown_s : fp;
  mcs_failsafe_timeout_s : fp;
  mcs_oscillation_window_s : fp;
  mcs_min : Z;
  mcs_max : Z;
  mcs_enabled : bool;
  mcs_probe_clean_milli : Z;
  mcs_probe_fail_milli : Z;
  mcs_demote_per_milli : Z;
  mcs_promote_dwell_s : fp;
  mcs_probe_window_s : fp;
  mcs_probe_stale_age_s : fp;
  mcs_rssi_floor_dbm : fp;
  mcs_rssi_fade_db_per_s : fp;
  mcs_rssi_fade_arm_dbm : fp;
  mcs_rssi_floor_hyst_db : fp;
  mcs_pressure_demote_block : bool;
  mcs_pressure_escape_s : fp;
  mcs_reentry_backoff_s : fp;
  mcs_reentry_dwell_s : fp;
  mcs_flap_freeze_count : Z;
  mcs_flap_freeze_window_s : fp;
  mcs_flap_freeze_s : fp;
  mcs_probe_feed_pps : Z;
  mcs_probe_feed_bytes : Z
}.

#[export] Instance eta_McsCfg : Eta McsCfg := fun c => Build_McsCfg
  (mcs_stats_host c) (mcs_stats_port c) (mcs_rssi_ewma_alpha c) (mcs_loss_ewma_alpha c)
  (mcs_rssi_aggregator c) (mcs_down_cooldown_s c) (mcs_failsafe_timeout_s c)
  (mcs_oscillation_window_s c) (mcs_min c) (mcs_max c) (mcs_enabled c)
  (mcs_probe_clean_milli c) (mcs_probe_fail_milli c) (mcs_demote_per_milli c)
  (mcs_promote_dwell_s c) (mcs_probe_window_s c) (mcs_probe_stale_age_s c)
  (mcs_rssi_floor_dbm c) (mcs_rssi_fade_db_per_s c) (mcs_rssi_fade_arm_dbm c)
  (mcs_rssi_floor_hyst_db c) (mcs_pressure_demote_block c) (mcs_pressure_escape_s c)
  (mcs_reentry_backoff_s c) (mcs_reentry_dwell_s c) (mcs_flap_freeze_count c)
  (mcs_flap_freeze_window_s c) (mcs_flap_freeze_s c) (mcs_probe_feed_pps c)
  (mcs_probe_feed_bytes c).

(** [Config.csa]: the channel-switch receiver, off unless an interface is set. *)
Record CsaSect := Build_CsaSect {
  csa_enabled : bool;
  csa_iface : string;
  csa_allow_chan : string;
  csa_allow_bw : string;
  csa_cooldown_ms : Z;
  csa_no_revert : bool
}.

#[export] Instance eta_CsaSect : Eta CsaSect := fun c => Build_CsaSect
  (csa_enabled c) (csa_iface c) (csa_allow_chan c) (csa_allow_bw c) (csa_cooldown_ms c)
  (csa_no_revert c).

(** [Config.cmd]: the command proxy's gates and value windows. *)
Record CmdCfg := Build_CmdCfg {
  cmd_enabled : bool;
  cmd_loopback_only : bool;
  cmd_rate_limit_ms : Z;
  cmd_allow_keys_mask : Z;
  cmd_bitrate_min_kbps : Z;
  cmd_bitrate_max_kbps : Z;
  cmd_fps_min : Z;
  cmd_fps_max : Z;
  cmd_payload_min : Z;
  cmd_payload_max : Z;
  cmd_wfb_fec_k_min : Z;
  cmd_wfb_fec_k_max : Z;
  cmd_wfb_fec_n_min : Z;
  cmd_wfb_fec_n_max : Z;
  cmd_wfb_mcs_min : Z;
  cmd_wfb_mcs_max : Z;
  cmd_wfb_bandwidth_min : Z;
  cmd_wfb_bandwidth_max : Z;
  cmd_wfb_txpower_min : Z;
  cmd_wfb_txpower_max : Z;
  cmd_wfb_iface : string;
  cmd_tx_pwr_by_rate : bool
}.

#[export] Instance eta_CmdCfg : Eta CmdCfg := fun c => Build_CmdCfg
  (cmd_enabled c) (cmd_loopback_only c) (cmd_rate_limit_ms c) (cmd_allow_keys_mask c)
  (cmd_bitrate_min_kbps c) (cmd_bitrate_max_kbps c) (cmd_fps_min c) (cmd_fps_max c)
  (cmd_payload_min c) (cmd_payload_max c) (cmd_wfb_fec_k_min c) (cmd_wfb_fec_k_max c)
  (cmd_wfb_fec_n_min c) (cmd_wfb_fec_n_max c) (cmd_wfb_mcs_min c) (cmd_wfb_mcs_max c)
  (cmd_wfb_bandwidth_min c) (cmd_wfb_bandwidth_max c) (cmd_wfb_txpower_min c)
  (cmd_wfb_txpower_max c) (cmd_wfb_iface c) (cmd_tx_pwr_by_rate c).

(** [Config.recovery]: the keyless recovery channel. *)
Record RecoveryCfg := Build_RecoveryCfg {
  recovery_enabled : bool;
  recovery_listen_port : Z;
  recovery_arm_count : Z;
  recovery_arm_window_ms : Z;
  recovery_cooldown_ms : Z;
  recovery_apfpv_cmd : string
}.

#[export] Instance eta_RecoveryCfg : Eta RecoveryCfg := fun c => Build_RecoveryCfg
  (recovery_enabled c) (recovery_listen_port c) (recovery_arm_count c)
  (recovery_arm_window_ms c) (recovery_cooldown_ms c) (recovery_apfpv_cmd c).

(** The whole configuration. *)
Record Config := Build_Config {
  cfg_fec : FecCfg;
  cfg_mcs : McsCfg;
  cfg_csa : CsaSect;
  cfg_cmd : CmdCfg;
  cfg_recovery : RecoveryCfg;
  wfb_host : string;
  wfb_port : Z;
  probe_host : string;
  probe_port : Z;
  probe_feed_host : string;
  probe_feed_port : Z;
  uplink_stats_port : Z;
  api_port : Z;
  iface_mtu : Z;
  dry_run : bool;
  verbose : Z;
  key_file : string
}.

#[export] Instance eta_Config : Eta Config := fun c => Build_Config
  (cfg_fec c) (cfg_mcs c) (cfg_csa c) (cfg_cmd c) (cfg_recovery c) (wfb_host c)
  (wfb_port c) (probe_host c) (probe_port c) (probe_feed_host c) (probe_feed_port c)
  (uplink_stats_port c) (api_port c) (iface_mtu c) (dry_run c) (verbose c) (key_file c).


(** ** Start values ([config_defaults]) *)

Section Defaults.
Let q := F32.lit.
Let z (n : Z) : fp := F32.of_Z n.

Definition fec_defaults : FecCfg := {|
  fec_sidecar_host := "127.0.0.1"; fec_sidecar_port := 5602;
  fec_venc_host := "127.0.0.1"; fec_venc_port := 80;
  fec_mtu := 1446; fec_min_k := 4; fec_max_k := 48; fec_min_n := 6; fec_max_n := 72;
  fec_ewma_alpha := q 5 100;
  fec_headroom_min := q 105 100; fec_headroom_max := q 140 100;
  fec_headroom_margin := q 105 100; fec_headroom_window_s := q 25 10;
  fec_ppf_deadband_frac := q 15 100;
  fec_k_hyst_up := 2; fec_cooldown_up_s := z 1; fec_k_down_dwell_s := z 8;
  fec_k_up_dwell_s := z 2; fec_startup_grace_s := z 2;
  fec_safety_margin := q 5 10;
  fec_bitrate_min_kbps := 2200; fec_bitrate_max_kbps := 0;
  fec_bitrate_tolerance := q 15 100; fec_bitrate_grace_s := z 2;
  fec_mcs_settle_s := z 5; fec_bitrate_lead_s := q 5 10; fec_mcs_up_grace_s := q 25 100;
  fec_subscribe_s := z 2; fec_radio_poll_s := z 1; fec_wfb_stats_port := 0;
  fec_enabled := true; fec_payload_max := 0; fec_payload_min := 576;
  fec_airtime_max_pct := 80; fec_airtime_preamble_us := 40;
  fec_safe_startup_enabled := true; fec_safe_startup_bitrate_kbps := 1500;
  fec_safe_startup_payload := 1400;
  fec_skip_on_backpressure := true; fec_backpressure_fill_pct := 80;
  fec_desync_probe := false; fec_blocksize_feedforward := true;
  fec_ff_cooldown_s := q 15 100; fec_backpressure_recover_s := z 3
|}.

Definition AGG_BEST_AVG : Z := 0.
Definition AGG_BEST_MAX : Z := 1.
Definition AGG_MEAN_AVG : Z := 2.

Definition mcs_defaults : McsCfg := {|
  mcs_stats_host := "127.0.0.1"; mcs_stats_port := 5801;
  mcs_rssi_ewma_alpha := q 3 10; mcs_loss_ewma_alpha := q 3 10;
  mcs_rssi_aggregator := AGG_BEST_AVG;
  mcs_down_cooldown_s := q 2 10; mcs_failsafe_timeout_s := q 5 10;
  mcs_oscillation_window_s := z 5; mcs_min := 0; mcs_max := 5; mcs_enabled := true;
  mcs_probe_clean_milli := 20; mcs_probe_fail_milli := 200; mcs_demote_per_milli := 80;
  mcs_promote_dwell_s := q 5 10; mcs_probe_window_s := q 5 10;
  mcs_probe_stale_age_s := z 1;
  mcs_rssi_floor_dbm := z (-85); mcs_rssi_fade_db_per_s := z 10;
  mcs_rssi_fade_arm_dbm := z (-65); mcs_rssi_floor_hyst_db := z 6;
  mcs_pressure_demote_block := true; mcs_pressure_escape_s := z 2;
  mcs_reentry_backoff_s := z 5; mcs_reentry_dwell_s := z 2;
  mcs_flap_freeze_count := 3; mcs_flap_freeze_window_s := z 10;
  mcs_flap_freeze_s := z 10; mcs_probe_feed_pps := 40; mcs_probe_feed_bytes := 1400
|}.

Definition csa_defaults : CsaSect := {|
  csa_enabled := false; csa_iface := ""; csa_allow_chan := ""; csa_allow_bw := "";
  csa_cooldown_ms := 2000; csa_no_revert := false
|}.

Definition cmd_defaults : CmdCfg := {|
  cmd_enabled := true; cmd_loopback_only := false; cmd_rate_limit_ms := 100;
  cmd_allow_keys_mask := 0x8FFFF;
  cmd_bitrate_min_kbps := 100; cmd_bitrate_max_kbps := 25000;
  cmd_fps_min := 1; cmd_fps_max := 240;
  cmd_payload_min := 576; cmd_payload_max := 1474;
  cmd_wfb_fec_k_min := 1; cmd_wfb_fec_k_max := 64;
  cmd_wfb_fec_n_min := 1; cmd_wfb_fec_n_max := 96;
  cmd_wfb_mcs_min := 0; cmd_wfb_mcs_max := 11;
  cmd_wfb_bandwidth_min := 5; cmd_wfb_bandwidth_max := 80;
  cmd_wfb_txpower_min := 50; cmd_wfb_txpower_max := 3000;
  cmd_wfb_iface := ""; cmd_tx_pwr_by_rate := false
|}.

Definition recovery_defaults : RecoveryCfg := {|
  recovery_enabled := true; recovery_listen_port := 5802; recovery_arm_count := 1;
  recovery_arm_window_ms := 2000; recovery_cooldown_ms := 10000;
  recovery_apfpv_cmd := "/etc/wfb/recovery-apfpv.sh"
|}.

Definition config_defaults : Config := {|
  cfg_fec := fec_defaults; cfg_mcs := mcs_defaults; cfg_csa := csa_defaults;
  cfg_cmd := cmd_defaults; cfg_recovery := recovery_defaults;
  wfb_host := "127.0.0.1"; wfb_port := 8000;
  probe_host := "127.0.0.1"; probe_port := 0;
  probe_feed_host := "127.0.0.1"; probe_feed_port := 0;
  uplink_stats_port := 0; api_port := 8765; iface_mtu := 0;
  dry_run := false; verbose := 0; key_file := "/etc/drone.key"
|}.
End Defaults.

(** ** Cross-field consistency ([cfg_validate_warnings])

    One boolean per warning, in the source's order; the function returns how many
    were emitted. *)

Definition cfg_warning_list (c : Config) : list bool :=
  let f := cfg_fec c in
  let m := cfg_mcs c in
  let zero := f0 in
  [ mcs_enabled m && fle (mcs_rssi_fade_arm_dbm m) (mcs_rssi_floor_dbm m);
    mcs_enabled m && (mcs_min m >? mcs_max m);
    mcs_enabled m && (mcs_probe_clean_milli m >=? mcs_probe_fail_milli m);
    mcs_enabled m && (mcs_probe_fail_milli m <=? mcs_demote_per_milli m);
    mcs_enabled m && flt zero (mcs_reentry_backoff_s m) &&
      fle (mcs_reentry_dwell_s m) (mcs_promote_dwell_s m);
    fec_enabled f && (fec_min_k f >? fec_max_k f);
    fec_enabled f && (fec_min_n f >? fec_max_n f);
    fec_enabled f && (fec_min_n f <=? fec_min_k f);
    fec_enabled f && flt (fec_headroom_max f) (fec_headroom_min f);
    fec_enabled f && (fec_bitrate_max_kbps f >? 0) &&
      (fec_bitrate_max_kbps f <? fec_bitrate_min_kbps f) ]%Z.

Definition cfg_validate_warnings (c : Config) : Z :=
  foldr (fun (w : bool) n => if w then n + 1 else n) 0 (cfg_warning_list c).

Lemma warnings_count_nonneg (ws : list bool) :
  0 <= foldr (fun (w : bool) n => if w then n + 1 else n) 0 ws.
Proof. induction ws as [|[] ws IH]; cbn; lia. Qed.

Lemma warnings_count_zero (ws : list bool) :
  foldr (fun (w : bool) n => if w then n + 1 else n) 0 ws = 0 <-> Forall (eq false) ws.
Proof.
  induction ws as [|w ws IH]; cbn; [split; [by constructor|done]|].
  pose proof (warnings_count_nonneg ws). rewrite Forall_cons, <- IH.
  destruct w; (split; [intros|intros [? ?]]); try done; lia.
Qed.

(** A configuration without warnings has ordered clamp windows. *)
Lemma validated_windows c :
  cfg_validate_warnings c = 0 ->
  (mcs_enabled (cfg_mcs c) = true -> mcs_min (cfg_mcs c) <= mcs_max (cfg_mcs c)) /\
  (fec_enabled (cfg_fec c) = true ->
     fec_min_k (cfg_fec c) <= fec_max_k (cfg_fec c) /\
     fec_min_n (cfg_fec c) <= fec_max_n (cfg_fec c) /\
     fec_min_k (cfg_fec c) < fec_min_n (cfg_fec c)).
Proof.
  unfold cfg_validate_warnings, cfg_warning_list. rewrite warnings_count_zero.
  intros H. split; intros E; rewrite E in H; cbn in H;
    repeat match goal with
    | H : Forall _ (_ :: _) |- _ => apply Forall_cons in H as [? H]
    end; lia.
Qed.
