(* ===== verification/CString.v ===== *)
(** * C strings and the JSON scrapers

    A NUL-terminated buffer is a [string]; a pointer into it is the suffix it points
    at.  The C library functions the source calls ([strchr], [strstr], [strncmp],
    [strtol]) are defined here with their documented behaviour, then the two scrapers of
    [vehicle/link_controller.c] that read integers out of JSON text. *)

From S2P Require Import Prelude.
From stdpp Require Export pretty.

#[global] Open Scope string_scope.
#[global] Open Scope Z_scope.

(** ** Characters *)

Definition ch (n : Z) : ascii := Ascii.ascii_of_nat (Z.to_nat n).
Definition code (a : ascii) : Z := Z.of_nat (Ascii.nat_of_ascii a).
Definition str1 (a : ascii) : string := String a EmptyString.

Definition DQ : ascii := ch 34.
Definition CR : ascii := ch 13.
Definition LF : ascii := ch 10.
Definition TAB : ascii := ch 9.
Definition SP : ascii := ch 32.
Definition COLON : ascii := ch 58.
Definition COMMA : ascii := ch 44.
Definition AMP : ascii := ch 38.
Definition CRLF : string := String CR (str1 LF).

(** A name in double quotes. *)
Definition quoted (s : string) : string := str1 DQ ++ s ++ str1 DQ.

Definition aeq (a b : ascii) : bool := Ascii.eqb a b.
Arguments aeq : simpl never.

(** Single quotes read as double ones, to write samples of JSON. *)
Fixpoint with_quotes (s : string) : string :=
  match s with
  | EmptyString => EmptyString
  | String c s => String (if aeq c (ch 39) then DQ else c) (with_quotes s)
  end.

(** Decide the comparisons of two known characters. *)
Ltac aeq_consts :=
  repeat match goal with
  | |- context [aeq ?a ?b] =>
      let r := eval vm_compute in (aeq a b) in
      lazymatch r with
      | true => change (aeq a b) with true
      | false => change (aeq a b) with false
      end
  end; cbn [orb andb negb].

(** [isspace] of the C locale. *)
Definition isspace (a : ascii) : bool :=
  (aeq a SP || (9 <=? code a) && (code a <=? 13))%bool.

Definition isdigit (a : ascii) : bool := ((48 <=? code a) && (code a <=? 57))%bool.
Definition digit_val (a : ascii) : Z := code a - 48.

(** ** Library functions *)

Fixpoint strlen (s : string) : Z :=
  match s with EmptyString => 0 | String _ s => 1 + strlen s end.

Fixpoint starts_with (p s : string) : bool :=
  match p, s with
  | EmptyString, _ => true
  | String a p, String b s => aeq a b && starts_with p s
  | String _ _, EmptyString => false
  end.

Fixpoint drop_chars (n : nat) (s : string) : string :=
  match n, s with
  | S n, String _ s => drop_chars n s
  | _, _ => s
  end.

Fixpoint take_chars (n : nat) (s : string) : string :=
  match n, s with
  | S n, String a s => String a (take_chars n s)
  | _, _ => EmptyString
  end.

(** [strstr(s, p)]: the suffix of [s] at the first occurrence of [p]. *)
Fixpoint strstr (s p : string) : option string :=
  if starts_with p s then Some s
  else match s with
       | EmptyString => None
       | String _ s => strstr s p
       end.

(** [strchr(s, a)] for a character other than NUL. *)
Fixpoint strchr (s : string) (a : ascii) : option string :=
  match s with
  | EmptyString => None
  | String b s' => if aeq a b then Some s else strchr s' a
  end.

Definition contains (s p : string) : bool :=
  match strstr s p with Some _ => true | None => false end.

Fixpoint skip_while (f : ascii -> bool) (s : string) : string :=
  match s with
  | String a s' => if f a then skip_while f s' else s
  | EmptyString => s
  end.

(** The text before the first character satisfying [f], and the rest. *)
Fixpoint span_until (f : ascii -> bool) (s : string) : string * string :=
  match s with
  | String a s' =>
      if f a then (EmptyString, s)
      else let '(x, y) := span_until f s' in (String a x, y)
  | EmptyString => (EmptyString, EmptyString)
  end.

(** [strrchr(s, a)] as the text before the last [a] and the text after it. *)
Fixpoint split_last (a : ascii) (s : string) : option (string * string) :=
  match s with
  | EmptyString => None
  | String b s' =>
      match split_last a s' with
      | Some (x, y) => Some (String b x, y)
      | None => if aeq b a then Some (EmptyString, s') else None
      end
  end.

(** The digits at the head of [s], read in base 10 onto [acc]. *)
Fixpoint read_digits (s : string) (acc : Z) : Z * string :=
  match s with
  | String a s' => if isdigit a then read_digits s' (10 * acc + digit_val a) else (acc, s)
  | EmptyString => (acc, s)
  end.

(** [strtol(s, &end, 10)] before its range check: [None] when no digit is found (then
    [end == s]). *)
Definition strtoZ (s : string) : option (Z * string) :=
  let s := skip_while isspace s in
  let '(neg, s) :=
    match s with
    | String a s' => if aeq a (ch 45) then (true, s') else if aeq a (ch 43) then (false, s') else (false, s)
    | EmptyString => (false, s)
    end in
  match s with
  | String a _ =>
      if isdigit a then
        let '(v, e) := read_digits s 0 in Some (if neg then - v else v, e)
      else None
  | EmptyString => None
  end.

Definition clampZ (lo hi z : Z) : Z := Z.max lo (Z.min hi z).

Section Scrapers.
Context `{!CAbi}.

(** [strtol] saturates at the bounds of [long]; [strtoll] has 64 bits on every target. *)
Definition strtol (s : string) : option (Z * string) :=
  '(v, e) ← strtoZ s; Some (clampZ LONG_MIN LONG_MAX v, e).
Definition strtoll (s : string) : option (Z * string) :=
  '(v, e) ← strtoZ s; Some (clampZ (- 2 ^ 63) (2 ^ 63 - 1) v, e).

(** [json_get_int]: the integer after the first quoted occurrence of [key].  The
    pattern buffer holds 64 characters. *)
Definition json_get_int (s key : string) : option Z :=
  let pat := quoted key in
  if (strlen pat >=? 64)%Z then None
  else
    p ← strstr s pat;
    let p := drop_chars (String.length pat) p in
    let p := skip_while (fun a => aeq a SP || aeq a TAB || aeq a COLON)%bool p in
    fst <$> strtol p.

(** [json_get_int_in]: the same inside the next [{...}] block, through a window of 512
    characters. *)
Definition json_get_int_in (block inner : string) : option Z :=
  brace ← strchr block (ch 123);
  let '(body, fin) := span_until (fun a => aeq a (ch 125)) brace in
  match fin with
  | EmptyString => None
  | String close _ =>
      let window := take_chars 511 (body ++ str1 close) in
      json_get_int window inner
  end.

(** The idiom [long x = d; (void)json_get_int(s, key, &x);]. *)
Definition get_int_or (d : Z) (s key : string) : Z :=
  default d (json_get_int s key).
Definition get_int_in_or (d : Z) (s key : string) : Z :=
  default d (json_get_int_in s key).
End Scrapers.

(** ** Facts *)

#[local] Arguments String.append !_ _ /.

Lemma aeq_eq a b : aeq a b = true <-> a = b.
Proof. apply Ascii.eqb_eq. Qed.

Lemma aeq_refl a : aeq a a = true.
Proof. by apply aeq_eq. Qed.

Lemma starts_with_app p s : starts_with p (p ++ s) = true.
Proof. induction p as [|a p IH]; [done|]. cbn. by rewrite aeq_refl. Qed.

Lemma starts_with_split p s : starts_with p s = true -> exists t, s = p ++ t.
Proof.
  revert s. induction p as [|a p IH]; intros s H; [by exists s|].
  destruct s as [|b s]; [done|]. cbn in H. apply andb_true_iff in H as [->%aeq_eq H].
  destruct (IH s H) as [t ->]. by exists t.
Qed.

Lemma strlen_length s : strlen s = Z.of_nat (String.length s).
Proof. induction s; cbn [strlen String.length]; lia. Qed.

Lemma strlen_app s t : strlen (s ++ t) = strlen s + strlen t.
Proof. induction s as [|a s IH]; cbn [strlen String.append]; [done|]. rewrite IH. lia. Qed.

Lemma sapp_assoc s t u : ((s ++ t) ++ u = s ++ (t ++ u))%string.
Proof. induction s as [|a s IH]; [done|]. cbn [String.append]. by rewrite IH. Qed.

Lemma sapp_nil_r s : (s ++ EmptyString = s)%string.
Proof. induction s as [|a s IH]; [done|]. cbn [String.append]. by rewrite IH. Qed.

Lemma take_chars_all n s : (String.length s <= n)%nat -> take_chars n s = s.
Proof.
  revert s. induction n as [|n IH]; intros [|a s] H; cbn in *; try lia; [done..|].
  f_equal. apply IH. lia.
Qed.

Lemma take_chars_app s t : take_chars (String.length s) (s ++ t) = s.
Proof. induction s as [|a s IH]; [done|]. cbn [String.length String.append take_chars]. by rewrite IH. Qed.

Lemma length_append s t : String.length (s ++ t) = (String.length s + String.length t)%nat.
Proof. induction s as [|a s IH]; cbn [String.length String.append]; lia. Qed.

Lemma strlen_nonneg s : 0 <= strlen s.
Proof. rewrite strlen_length. lia. Qed.

Lemma drop_chars_app p s : drop_chars (String.length p) (p ++ s) = s.
Proof. induction p; cbn; auto. Qed.

(** [strstr] finds an occurrence: its result is a suffix that begins with the pattern. *)
Lemma strstr_sound s p t :
  strstr s p = Some t -> exists pre rest, s = pre ++ t /\ t = p ++ rest.
Proof.
  revert t. induction s as [|a s IH]; intros t; cbn.
  - destruct (starts_with p EmptyString) eqn:E; [|done]. intros [= <-].
    apply starts_with_split in E as [r Hr]. exists EmptyString, r. split; [done|exact Hr].
  - destruct (starts_with p (String a s)) eqn:E.
    + intros [= <-]. apply starts_with_split in E as [r Hr]. exists EmptyString, r. split; [done|exact Hr].
    + intros (pre & r & -> & ->)%IH. by exists (String a pre), r.
Qed.

Lemma json_get_int_bounds `{!CAbi} s key v :
  json_get_int s key = Some v -> LONG_MIN <= v <= LONG_MAX.
Proof.
  unfold json_get_int, strtol. destruct (_ >=? _); [done|].
  destruct (strstr s (quoted key)); [|done]. cbn.
  destruct (strtoZ _) as [[z e]|]; [|done]. cbn. intros [= <-].
  pose proof LONG_MAX_ge. pose proof LONG_MIN_le.
  unfold clampZ, INT_MIN, INT_MAX in *. lia.
Qed.

Lemma json_get_int_in_bounds `{!CAbi} s key v :
  json_get_int_in s key = Some v -> LONG_MIN <= v <= LONG_MAX.
Proof.
  unfold json_get_int_in. destruct (strchr s _); [|done]. cbn.
  destruct (span_until _ _) as [b [|c e]]; [done|]. apply json_get_int_bounds.
Qed.

(** ** Addresses *)

(** One octet of [inet_pton]: one to three digits, at most 255, no leading zero. *)
Definition octet (s : string) : option (Z * string) :=
  let '(d, rest) := span_until (fun c => negb (isdigit c)) s in
  let v := (read_digits d 0).1 in
  if (strlen d =? 0) || (strlen d >? 3) || (v >? 255) then None
  else if (strlen d >? 1) && starts_with "0" d then None
  else Some (v, rest).

Definition dot_octet (s : string) : option (Z * string) :=
  match s with String c s => if aeq c (ch 46) then octet s else None | EmptyString => None end.

(** [inet_pton(AF_INET, s, ...)]. *)
Definition inet_pton4 (s : string) : option Z :=
  '(a, s) ← octet s; '(b, s) ← dot_octet s; '(c, s) ← dot_octet s; '(d, s) ← dot_octet s;
  match s with
  | EmptyString => Some (Z.lor (Z.shiftl a 24) (Z.lor (Z.shiftl b 16) (Z.lor (Z.shiftl c 8) d)))
  | _ => None
  end.

(** ** Progress of scans *)

Lemma length_drop_chars n s : (String.length (drop_chars n s) <= String.length s)%nat.
Proof. revert s. induction n as [|n IH]; intros [|a s]; cbn; [lia..|]. specialize (IH s). lia. Qed.

Lemma drop_chars_length k s : String.length (drop_chars k s) = (String.length s - k)%nat.
Proof. revert s. induction k as [|k IH]; intros [|a s]; cbn; auto. Qed.

Lemma strstr_length s p t : strstr s p = Some t -> (String.length t <= String.length s)%nat.
Proof.
  revert t. induction s as [|a s IH]; intros t; cbn.
  - destruct (starts_with p EmptyString); [|done]. by intros [= <-].
  - destruct (starts_with p (String a s)); [by intros [= <-]|]. intros H%IH. lia.
Qed.

Lemma strchr_length s a t : strchr s a = Some t ->
  (String.length (drop_chars 1 t) < String.length t <= String.length s)%nat.
Proof.
  revert t. induction s as [|b s IH]; intros t; cbn [strchr String.length]; [done|].
  destruct (aeq a b); [intros [= <-]|intros H%IH; lia].
  change (drop_chars 1 (String b s)) with s. cbn [String.length]. lia.
Qed.

Lemma span_until_length f s :
  (String.length (span_until f s).2 <= String.length s)%nat.
Proof.
  induction s as [|a s IH]; cbn; [lia|]. destruct (f a); [cbn; lia|].
  destruct (span_until f s) as [x y]. cbn in *. lia.
Qed.

Lemma span_until_app f s : s = ((span_until f s).1 ++ (span_until f s).2)%string.
Proof.
  induction s as [|a s IH]; cbn; [done|]. destruct (f a); [done|].
  destruct (span_until f s) as [x y]. cbn in *. by rewrite IH at 1.
Qed.
