(* ===== verification/Strtod.v ===== *)
(** * Decimal text of floating-point numbers

    The C library's [strtod], and the conversion [%.nf] of [printf]. *)

From S2P Require Import Prelude CFloat CString.

(** ** [strtod]

    The C library function, in the C locale: decimal and hexadecimal numbers, infinities
    and NaN, rounded to the nearest [double]. *)

(** [n * 2^e / d], correctly rounded. *)
Definition round_ratio (neg : bool) (n d : positive) (e : Z) : fp :=
  let '(m, e', l) := SFdiv_core_binary F64.prec F64.emax (Zpos n) e (Zpos d) 0 in
  binary_round_aux F64.prec F64.emax neg m e' l.

Definition lower (a : ascii) : ascii :=
  if (65 <=? code a) && (code a <=? 90) then ch (code a + 32) else a.

Fixpoint starts_with_nocase (p s : string) : bool :=
  match p, s with
  | EmptyString, _ => true
  | String a p, String b s => aeq (lower a) (lower b) && starts_with_nocase p s
  | String _ _, EmptyString => false
  end.

Definition hex_val (a : ascii) : option Z :=
  let c := code (lower a) in
  if isdigit a then Some (c - 48)
  else if (97 <=? c) && (c <=? 102) then Some (c - 87) else None.
Definition dec_val (a : ascii) : option Z := if isdigit a then Some (digit_val a) else None.

(** The digits of a number in the given base, their count, and the rest. *)
Fixpoint digits (val : ascii -> option Z) (base : Z) (s : string) (acc n : Z) : Z * Z * string :=
  match s with
  | String a s' =>
      match val a with
      | Some d => digits val base s' (base * acc + d) (n + 1)
      | None => (acc, n, s)
      end
  | EmptyString => (acc, n, s)
  end.

(** Digits with an optional point: the digits as one integer, how many there are in all
    and after the point. *)
Definition mantissa (val : ascii -> option Z) (base : Z) (s : string)
    : option (Z * Z * Z * string) :=
  let '(m, n, s1) := digits val base s 0 0 in
  let '(m, total, frac, s2) :=
    match s1 with
    | String a s1' =>
        if aeq a (ch 46) then
          let '(m', n', s2) := digits val base s1' m 0 in (m', n + n', n', s2)
        else (m, n, 0, s1)
    | EmptyString => (m, n, 0, s1)
    end in
  if total =? 0 then None else Some (m, total, frac, s2).

(** An exponent with at least one digit; otherwise nothing is consumed. *)
Definition exponent (mark : Z) (s : string) : Z * string :=
  match s with
  | String a s' =>
      if aeq (lower a) (ch mark) then
        match strtoZ s' with
        | Some (e, rest) =>
            match s' with
            | String b _ => if isspace b then (0, s) else (e, rest)
            | EmptyString => (0, s)
            end
        | None => (0, s)
        end
      else (0, s)
  | EmptyString => (0, s)
  end.

(** Exponents beyond [limit] decide the result (infinity or zero) whatever their value. *)
Definition decimal_value (neg : bool) (m total e10 : Z) : fp :=
  match m with
  | Zpos p =>
      let e := clampZ (- (400 + total)) 400 e10 in
      if 0 <=? e then round_ratio neg (p * Z.to_pos (10 ^ e)) 1 0
      else round_ratio neg p (Z.to_pos (10 ^ (- e))) 0
  | _ => S754_zero neg
  end.

Definition hex_value (neg : bool) (m total e2 : Z) : fp :=
  match m with
  | Zpos p => round_ratio neg p 1 (clampZ (- (1200 + 4 * total)) 1200 e2)
  | _ => S754_zero neg
  end.

(** The rest after the optional [(...)] of a NaN. *)
Definition nan_tail (s : string) : string :=
  match s with
  | String a s' =>
      if aeq a (ch 40) then
        let '(body, fin) := span_until (fun c => negb (isdigit c || aeq c (ch 95) ||
          (97 <=? code (lower c)) && (code (lower c) <=? 122))) s' in
        match fin with
        | String c rest => if aeq c (ch 41) then rest else s
        | EmptyString => s
        end
      else s
  | EmptyString => s
  end.

Definition strtod (s : string) : option (fp * string) :=
  let s := skip_while isspace s in
  let '(neg, s) :=
    match s with
    | String a s' => if aeq a (ch 45) then (true, s') else if aeq a (ch 43) then (false, s') else (false, s)
    | EmptyString => (false, s)
    end in
  if starts_with_nocase "infinity" s then Some (S754_infinity neg, drop_chars 8 s)
  else if starts_with_nocase "inf" s then Some (S754_infinity neg, drop_chars 3 s)
  else if starts_with_nocase "nan" s then Some (S754_nan, nan_tail (drop_chars 3 s))
  else
    let decimal :=
      '(m, total, frac, rest) ← mantissa dec_val 10 s;
      let '(e, rest) := exponent 101 rest in
      Some (decimal_value neg m total (e - frac), rest) in
    if starts_with_nocase "0x" s then
      match mantissa hex_val 16 (drop_chars 2 s) with
      | Some (m, total, frac, rest) =>
          let '(e, rest) := exponent 112 rest in
          Some (hex_value neg m total (e - 4 * frac), rest)
      | None => decimal
      end
    else decimal.

(** ** [%.nf]

    The exact value of a [double], rounded to [n] decimals, ties to even. *)

(** [n / d] rounded to the nearest integer, ties to even. *)
Definition round_half_even (n d : Z) : Z :=
  let q := n / d in
  let r := 2 * (n mod d) in
  if r <? d then q else if d <? r then q + 1 else if Z.even q then q else q + 1.

(** [q / 10^n] with its [n] decimals: zeros pad on the left. *)
Fixpoint pad_zeros (n : nat) (s : string) : string :=
  match n with O => s | S n => String (ch 48) (pad_zeros n s) end.

Definition fixed_text (n : nat) (q : Z) : string :=
  let p := 10 ^ Z.of_nat n in
  let frac := pretty (q mod p) in
  match n with
  | O => pretty q
  | _ => (pretty (q / p) ++ "." ++ pad_zeros (n - String.length frac) frac)%string
  end.

Definition printf_f (n : nat) (x : fp) : string :=
  match x with
  | S754_zero s => ((if s then "-" else "") ++ fixed_text n 0)%string
  | S754_infinity s => if s then "-inf" else "inf"
  | S754_nan => "nan"
  | S754_finite s m e =>
      let p := Zpos m * 10 ^ Z.of_nat n in
      let q := if 0 <=? e then p * 2 ^ e else round_half_even p (2 ^ (- e)) in
      ((if s then "-" else "") ++ fixed_text n q)%string
  end.

Example printf_f_samples :
  (printf_f 4 (F64.lit 1 3), printf_f 3 (F64.lit 1 8), printf_f 4 (F64.lit 200 200),
   printf_f 4 f0, printf_f 3 (F64.lit 1234567 1000000), printf_f 2 (F64.lit 1 8),
   printf_f 0 (F64.of_Z (-1)))
  = ("0.3333", "0.125", "1.0000", "0.0000", "1.235", "0.12", "-1")%string.
Proof. vm_compute. reflexivity. Qed.
