(* ===== verification/Decimal.v ===== *)
(** * Printed integers

    [%d] and its variants print an integer as [pretty] does; [strtol] and [strtoll] read it
    back.  The messages of the two sides of the link are JSON texts with such numbers, so
    their round trips rest on the lemmas of this file. *)

From S2P Require Import Prelude CString.

#[local] Arguments String.append !_ _ /.

(** Every character of [s] satisfies [f]. *)
Fixpoint all_chars (f : ascii -> bool) (s : string) : bool :=
  match s with EmptyString => true | String a s => f a && all_chars f s end.

(** No [a] in the text. *)
Definition lacks (a : ascii) (s : string) : bool := all_chars (fun c => negb (aeq c a)) s.

Lemma all_chars_app f s t : all_chars f (s ++ t) = all_chars f s && all_chars f t.
Proof. induction s as [|a s IH]; [done|]. cbn. by rewrite IH, andb_assoc. Qed.

Lemma all_chars_impl (f g : ascii -> bool) s :
  (forall a, f a = true -> g a = true) -> all_chars f s = true -> all_chars g s = true.
Proof.
  intros H. induction s as [|a s IH]; [done|]. cbn. rewrite !andb_true_iff.
  intros [? ?]. auto.
Qed.

(** A scan that stops at characters [s] does not have stops where [s] ends. *)
Lemma span_until_all f s t :
  all_chars (fun a => negb (f a)) s = true ->
  (match t with EmptyString => true | String a _ => f a end) = true ->
  span_until f (s ++ t) = (s, t).
Proof.
  intros Hs Ht. induction s as [|a s IH]; cbn in *.
  - destruct t as [|b t]; [done|]. cbn. by rewrite Ht.
  - apply andb_true_iff in Hs as [Ha Hs]. apply negb_true_iff in Ha. by rewrite Ha, IH.
Qed.

Lemma pretty_N_char_digit x : (x < 10)%N ->
  isdigit (pretty_N_char x) = true /\ digit_val (pretty_N_char x) = Z.of_N x.
Proof.
  intros H. assert (exists n, (n < 10)%nat /\ x = N.of_nat n) as (n & Hn & ->).
  { exists (N.to_nat x). split; lia. }
  do 10 (destruct n as [|n]; [by vm_compute|]). lia.
Qed.

(** The digits [pretty_N_go] puts before [s]. *)
Lemma pretty_N_go_digits x : forall s, exists d,
  pretty_N_go x s = (d ++ s)%string /\ all_chars isdigit d = true /\
  (forall t acc, read_digits (d ++ t) acc =
     read_digits t (acc * 10 ^ strlen d + Z.of_N x)) /\
  ((0 < x)%N -> d <> EmptyString /\ 10 ^ (strlen d - 1) <= Z.of_N x).
Proof.
  induction (N.lt_wf_0 x) as [x _ IH]. intros s.
  destruct (N.eq_dec x 0%N) as [->|Hx].
  { exists EmptyString. rewrite pretty_N_go_0. split_and!; try done.
    intros t acc. cbn. f_equal. lia. }
  rewrite pretty_N_go_step by lia.
  destruct (IH (x / 10)%N) with (s := String (pretty_N_char (x mod 10)%N) s)
    as (d & Hd & Hdig & Hread & Hpos); [apply N.div_lt; lia|].
  pose proof (pretty_N_char_digit (x mod 10)%N) as [Hc Hv]; [by apply N.mod_lt|].
  set (c := pretty_N_char (x mod 10)%N) in *.
  assert (Z.of_N x = 10 * Z.of_N (x / 10)%N + Z.of_N (x mod 10)%N) as Hx10.
  { rewrite (N.div_mod x 10%N) at 1 by done. lia. }
  assert (strlen (d ++ str1 c) = strlen d + 1) as Hlen by (by rewrite strlen_app).
  pose proof (strlen_nonneg d).
  exists (d ++ str1 c)%string. rewrite Hd. split_and!.
  - unfold str1. clear. induction d as [|a d IHd]; [done|]. cbn. by rewrite IHd.
  - rewrite all_chars_app, Hdig. cbn. by rewrite Hc.
  - intros t acc. rewrite Hlen.
    assert (((d ++ str1 c) ++ t)%string = (d ++ String c t)%string) as ->.
    { clear. induction d as [|a d IHd]; [done|]. cbn in *. by rewrite IHd. }
    rewrite Hread. cbn [read_digits]. rewrite Hc, Hv. f_equal.
    rewrite Z.pow_add_r, Hx10 by lia. change (10 ^ 1) with 10. ring.
  - intros _. rewrite Hlen. split; [by destruct d|].
    replace (strlen d + 1 - 1) with (strlen d) by lia.
    destruct (N.eq_dec (x / 10)%N 0%N) as [E|E].
    + assert (d = EmptyString) as ->; [|cbn; lia]. rewrite E in Hd.
      rewrite pretty_N_go_0 in Hd. destruct d as [|a d]; [done|].
      exfalso. apply (f_equal strlen) in Hd. rewrite strlen_app in Hd.
      cbn [strlen] in Hd. pose proof (strlen_nonneg d). lia.
    + destruct Hpos as [Hne Hp]; [by apply N.neq_0_lt_0|].
      assert (1 <= strlen d) as Hl.
      { destruct d as [|a d]; [done|]. cbn [strlen]. pose proof (strlen_nonneg d). lia. }
      rewrite <- (Z.sub_add 1 (strlen d)), Z.pow_add_r by lia.
      change (10 ^ 1) with 10. rewrite Hx10. pose proof (N2Z.is_nonneg (x mod 10)%N).
      revert Hp. generalize (10 ^ (strlen d - 1)), (Z.of_N (x / 10)%N). intros. lia.
Qed.

Lemma read_digits_stop t acc :
  (match t with String a _ => isdigit a | EmptyString => false end) = false ->
  read_digits t acc = (acc, t).
Proof. destruct t as [|a t]; [done|]. cbn. by intros ->. Qed.

(** Digits of a non-negative number. *)
Lemma pretty_N_digits (x : N) : exists d,
  pretty x = d /\ d <> EmptyString /\ all_chars isdigit d = true /\
  (forall t, read_digits (d ++ t) 0 = read_digits t (Z.of_N x)) /\
  (strlen d = 1 \/ 10 ^ (strlen d - 1) <= Z.of_N x).
Proof.
  unfold pretty, pretty_N. destruct (decide (x = 0%N)) as [->|Hx].
  { exists "0". split_and!; try done. by left. }
  destruct (pretty_N_go_digits x EmptyString) as (d & Hd & Hdig & Hread & Hpos).
  destruct Hpos as [Hne Hp]; [lia|].
  assert ((d +:+ "")%string = d) as E.
  { clear. induction d as [|a d IH]; [done|]. cbn. by rewrite IH. }
  exists d. rewrite Hd, E. split_and!; try done. by right.
Qed.

Definition MINUS : ascii := ch 45.
Definition int_char (a : ascii) : bool := isdigit a || aeq a MINUS.

Lemma pretty_Z_shape (z : Z) : exists d,
  pretty z = (if z <? 0 then String MINUS d else d) /\
  d <> EmptyString /\ all_chars isdigit d = true /\
  (forall t, read_digits (d ++ t) 0 = read_digits t (Z.abs z)) /\
  (strlen d = 1 \/ 10 ^ (strlen d - 1) <= Z.abs z).
Proof.
  destruct z as [|p|p]; unfold pretty, pretty_Z.
  - exists "0". split_and!; try done. by left.
  - destruct (pretty_N_digits (Npos p)) as (d & Hd & H). exists d. by split.
  - destruct (pretty_N_digits (Npos p)) as (d & Hd & H). exists d. split; [|done].
    cbn [Z.ltb Z.compare]. rewrite <- Hd. done.
Qed.

Lemma pretty_int_chars (z : Z) : all_chars int_char (pretty z) = true.
Proof.
  destruct (pretty_Z_shape z) as (d & -> & _ & Hd & _).
  assert (all_chars int_char d = true).
  { eapply all_chars_impl; [|exact Hd]. intros a Ha. unfold int_char. by rewrite Ha. }
  destruct (z <? 0); [|done]. cbn [all_chars]. by replace (int_char MINUS) with true by reflexivity.
Qed.

Lemma pretty_nonempty (z : Z) : exists a s, pretty z = String a s /\ int_char a = true.
Proof.
  pose proof (pretty_int_chars z) as Hc. destruct (pretty_Z_shape z) as (d & E & Hne & _).
  destruct (pretty z) as [|a s] eqn:Ep.
  - destruct (z <? 0); [done|]. by subst d.
  - exists a, s. split; [done|]. cbn in Hc. by apply andb_true_iff in Hc as [-> _].
Qed.

Lemma digit_not_space a : isdigit a = true -> isspace a = false.
Proof.
  unfold isdigit, isspace, code, aeq. intros H. apply andb_true_iff in H as [H1 H2].
  apply orb_false_iff. split; [|lia]. apply Ascii.eqb_neq. intros ->. by vm_compute in H1.
Qed.

Lemma digit_not_sign a : isdigit a = true -> aeq a (ch 45) = false /\ aeq a (ch 43) = false.
Proof.
  intros H. split; apply Ascii.eqb_neq; intros ->; by vm_compute in H.
Qed.

(** [strtol] and [strtoll] read back what [%d] printed. *)
Lemma strtoZ_pretty (z : Z) t :
  (match t with String a _ => isdigit a | EmptyString => false end) = false ->
  strtoZ (pretty z ++ t) = Some (z, t).
Proof.
  intros Ht. destruct (pretty_Z_shape z) as (d & -> & Hne & Hd & Hread & _).
  destruct d as [|a d]; [done|]. cbn [all_chars] in Hd. apply andb_true_iff in Hd as [Ha Hd].
  specialize (Hread t). rewrite (read_digits_stop t) in Hread by done.
  destruct (digit_not_sign a Ha) as [H1 H2]. unfold strtoZ.
  destruct (Z.ltb_spec z 0) as [Hz|Hz].
  - cbn [String.append skip_while].
    assert (isspace MINUS = false) as -> by reflexivity.
    assert (aeq MINUS (ch 45) = true) as -> by reflexivity.
    rewrite Ha. cbn [String.append] in Hread. rewrite Hread. do 2 f_equal. lia.
  - cbn [String.append skip_while]. rewrite (digit_not_space a Ha), H1, H2, Ha.
    cbn [String.append] in Hread. rewrite Hread. do 2 f_equal. lia.
Qed.

Section Widths.
Context `{!CAbi}.
Lemma strtol_pretty (z : Z) t :
  (match t with String a _ => isdigit a | EmptyString => false end) = false ->
  LONG_MIN <= z <= LONG_MAX -> strtol (pretty z ++ t) = Some (z, t).
Proof.
  intros Ht Hz. unfold strtol. rewrite strtoZ_pretty by done. cbn. do 2 f_equal.
  unfold clampZ. lia.
Qed.
End Widths.

Lemma strtoll_pretty (z : Z) t :
  (match t with String a _ => isdigit a | EmptyString => false end) = false ->
  - 2 ^ 63 <= z < 2 ^ 63 -> strtoll (pretty z ++ t) = Some (z, t).
Proof.
  intros Ht Hz. unfold strtoll. rewrite strtoZ_pretty by done. cbn -[Z.pow].
  do 2 f_equal. unfold clampZ. lia.
Qed.

(** A bound on the printed length. *)
Lemma pretty_length (z n : Z) : 0 < n -> Z.abs z < 10 ^ n -> strlen (pretty z) <= n + 1.
Proof.
  intros Hn Hz. destruct (pretty_Z_shape z) as (d & -> & _ & _ & _ & Hd).
  assert (strlen d <= n) as Hl.
  { destruct Hd as [Hd|Hd]; [lia|]. destruct (Z_le_gt_dec (strlen d) n) as [|H]; [done|].
    assert (10 ^ n <= 10 ^ (strlen d - 1)) by (apply Z.pow_le_mono_r; lia). lia. }
  destruct (z <? 0); cbn [strlen]; lia.
Qed.
