(* ===== verification/NumText.v ===== *)
(** * Printed floating-point numbers

    [%g] with its default precision; bounds on the length of what [%.nf] and [%g] print, from
    the size of the number; the characters they use; and the integers that a [double] carries
    without a loss. *)

From S2P Require Import Prelude CFloat CString Strtod Decimal.

Local Open Scope list_scope.
#[local] Arguments String.append !_ _ /.

(** ** [%g] *)

(** The least [k] with [d <= n * 10^k], counting from [k]. *)
Fixpoint small_exp (fuel : nat) (n d k : Z) : Z :=
  match fuel with
  | O => k
  | S fuel => if d <=? n * 10 then k else small_exp fuel (n * 10) d (k + 1)
  end.

(** The decimal exponent of [n / d]. *)
Definition log10_floor (n d : Z) : Z :=
  if d <=? n then strlen (pretty (n / d)) - 1 else - small_exp 400 n d 1.

(** The exponent and the six significant digits of [n / d]. *)
Definition significant (n d : Z) : Z * Z :=
  let x := log10_floor n d in
  let q := (if x <=? 5 then round_half_even (n * 10 ^ (5 - x)) d
            else round_half_even n (d * 10 ^ (x - 5))) in
  if 1000000 <=? q then (x + 1, 100000) else (x, q).

(** Trailing zeros removed. *)
Fixpoint strip_zeros (s : string) : string :=
  match s with
  | EmptyString => EmptyString
  | String a s =>
      match strip_zeros s with
      | EmptyString => if aeq a (ch 48) then EmptyString else str1 a
      | r => String a r
      end
  end.

(** [q / 10^n] without trailing zeros. *)
Definition short_text (n : nat) (q : Z) : string :=
  let p := 10 ^ Z.of_nat n in
  let frac := pretty (q mod p) in
  match n with
  | O => pretty q
  | _ =>
      match strip_zeros (pad_zeros (n - String.length frac) frac) with
      | EmptyString => pretty (q / p)
      | f => (pretty (q / p) ++ "." ++ f)%string
      end
  end.

Definition exponent_text (x : Z) : string :=
  let e := pretty (Z.abs x) in
  ("e" ++ (if (x <? 0)%Z then "-" else "+") ++ pad_zeros (2 - String.length e) e)%string.

Definition printf_g (x : fp) : string :=
  match x with
  | S754_zero s => if s then "-0" else "0"
  | S754_infinity s => if s then "-inf" else "inf"
  | S754_nan => "nan"
  | S754_finite s m e =>
      let '(x, q) := (if 0 <=? e then significant (Zpos m * 2 ^ e) 1
                      else significant (Zpos m) (2 ^ (- e))) in
      ((if s then "-" else "") ++
       (if ((-4 <=? x) && (x <? 6))%Z then short_text (Z.to_nat (5 - x)) q
        else short_text 5 q ++ exponent_text x))%string
  end.

Example printf_g_samples :
  map printf_g [F64.of_Z 0; F64.of_Z 1; F64.lit 1 10; F64.lit 5 100; F64.lit 1 1000; F64.of_Z 65535;
                F64.of_Z 999999; F64.of_Z 1048575; F64.of_Z 200000; F64.of_Z (-120); F64.lit 1 3;
                F64.lit 9999995 10; F64.lit 1 20000; F64.lit 1 10000; F64.of_Z (10 ^ 100);
                F64.lit 2 3000000; to_f64 (F32.lit 1 10); F64.lit 123456789 1000]
  = ["0"; "1"; "0.1"; "0.05"; "0.001"; "65535"; "999999"; "1.04858e+06"; "200000"; "-120";
     "0.333333"; "1e+06"; "5e-05"; "0.0001"; "1e+100"; "6.66667e-07"; "0.1"; "123457"]%string.
Proof. vm_compute. reflexivity. Qed.

(** ** The size of a number

    [fsize k x]: the magnitude of [x] is below [2^k], read off its mantissa and exponent. *)

Definition fsize (k : Z) (x : fp) : Prop :=
  match x with S754_finite _ m e => Zdigits2 (Zpos m) + e <= k | _ => True end.

Lemma fsize_weaken k k' x : k <= k' -> fsize k x -> fsize k' x.
Proof. destruct x; cbn; lia. Qed.

Lemma digits2_spec m : 0 <= m -> m < 2 ^ Zdigits2 m /\ 0 <= Zdigits2 m.
Proof.
  intros H. destruct m as [|p|p]; cbn [Zdigits2]; [lia| |lia]. rewrite digits2_pos_log2.
  pose proof (Z.log2_spec (Zpos p) eq_refl). pose proof (Z.log2_nonneg (Zpos p)). lia.
Qed.

Lemma digits2_pos_spec m : 0 < m -> 2 ^ (Zdigits2 m - 1) <= m.
Proof.
  intros H. destruct m as [|p|p]; cbn [Zdigits2]; [lia| |lia]. rewrite digits2_pos_log2.
  pose proof (Z.log2_spec (Zpos p) eq_refl).
  replace (Z.log2 (Zpos p) + 1 - 1) with (Z.log2 (Zpos p)) by lia. lia.
Qed.

Section Size.
Variables prec emax : Z.
Hypothesis Hprec : 0 < prec.

Lemma shr_fexp_div m e l : 0 <= m ->
  shr_m (shr_fexp prec emax m e l).1 = m / 2 ^ Z.max 0 (fexp prec emax (Zdigits2 m + e) - e).
Proof.
  intros Hm. unfold shr_fexp. destruct (_ - e) as [|q|q]; cbn [shr fst].
  - by rewrite shr_record_of_loc_m, Z.div_1_r.
  - by rewrite iter_pos_div; rewrite shr_record_of_loc_m; [|lia].
  - by rewrite shr_record_of_loc_m, Z.div_1_r.
Qed.

Lemma div_pow2_digits m n : 0 <= m -> 0 <= n -> Zdigits2 (m / 2 ^ n) <= Z.max 0 (Zdigits2 m - n).
Proof.
  intros Hm Hn. destruct (digits2_spec m Hm) as [H1 H2].
  apply Zdigits2_le; [|lia]. split; [apply Z.div_pos; lia|].
  apply Z.div_lt_upper_bound; [lia|]. rewrite <- Z.pow_add_r by lia.
  eapply Z.lt_le_trans; [exact H1|]. apply Z.pow_le_mono_r; lia.
Qed.

(** One shift: the digits fit the precision, and the size does not grow. *)
Lemma shr_fexp_size k m e l : 0 <= m -> Zdigits2 m + e <= k -> emin prec emax <= k ->
  let r := shr_fexp prec emax m e l in
  0 <= shr_m r.1 /\ Zdigits2 (shr_m r.1) <= prec /\ Zdigits2 (shr_m r.1) + r.2 <= k.
Proof.
  intros Hm Hk He r. subst r. rewrite shr_fexp_div, shr_fexp_exp by done.
  pose proof (digits2_spec m Hm) as [_ H2].
  set (n := Z.max 0 _) in *. pose proof (div_pow2_digits m n Hm ltac:(lia)) as Hd.
  split; [apply Z.div_pos; lia|]. subst n. unfold fexp in *. lia.
Qed.

Lemma digits2_succ m m' : 0 <= m -> m <= m' <= m + 1 -> Zdigits2 m' <= Zdigits2 m + 1.
Proof.
  intros Hm H. destruct (digits2_spec m Hm) as [H1 H2]. apply Zdigits2_le; [|lia].
  rewrite Z.pow_add_r by lia. lia.
Qed.

Lemma round_aux_size k s m e l : 0 <= m -> Zdigits2 m + e <= k -> emin prec emax <= k ->
  fsize (k + 1) (binary_round_aux prec emax s m e l) /\
  fsize emax (binary_round_aux prec emax s m e l).
Proof.
  intros Hm Hk He. unfold binary_round_aux.
  pose proof (shr_fexp_size k m e l Hm Hk He) as (A1 & A2 & A3).
  destruct (shr_fexp prec emax m e l) as [r1 e1]. cbn [fst snd] in *.
  pose proof (round_nearest_even_bounds (shr_m r1) (loc_of_shr_record r1)) as B.
  set (m2 := round_nearest_even _ _) in *.
  pose proof (digits2_succ _ _ A1 B) as Hd.
  pose proof (shr_fexp_size (k + 1) m2 e1 loc_Exact ltac:(lia) ltac:(lia) ltac:(lia))
    as (C1 & C2 & C3).
  destruct (shr_fexp prec emax m2 e1 loc_Exact) as [r2 e2]. cbn [fst snd] in *.
  destruct (shr_m r2) as [|p|p]; [done| |lia].
  destruct (Z.leb_spec e2 (emax - prec)); cbn [fsize Zdigits2] in *; lia.
Qed.

Lemma normalize_size k m e s : Zdigits2 (Z.abs m) + e <= k -> emin prec emax <= k ->
  fsize (k + 1) (binary_normalize prec emax m e s) /\
  fsize emax (binary_normalize prec emax m e s).
Proof.
  intros Hk He.
  assert (forall s p, Zpos (digits2_pos p) + e <= k ->
    fsize (k + 1) (binary_round prec emax s p e) /\ fsize emax (binary_round prec emax s p e)) as H.
  { clear s Hk. intros s p Hk. unfold binary_round, shl_align.
    destruct (_ - e) as [|q|q] eqn:Eq; [by apply round_aux_size|by apply round_aux_size|].
    apply round_aux_size; [lia| |done]. cbn [Zdigits2]. rewrite digits2_pos_log2, iter_xO in *.
    rewrite Z.log2_mul_pow2 by lia. rewrite digits2_pos_log2. lia. }
  destruct m as [|p|p]; [done|by apply H|by apply H].
Qed.

Lemma div_core_size k m1 e1 m2 e2 : 0 < m1 -> 0 < m2 ->
  Zdigits2 m1 + e1 - (Zdigits2 m2 + e2) + 1 <= k -> emin prec emax <= k ->
  let r := SFdiv_core_binary prec emax m1 e1 m2 e2 in
  0 <= r.1.1 /\ Zdigits2 r.1.1 + r.1.2 <= k.
Proof.
  intros H1 H2 Hk He r. split; [by apply SFdiv_core_nonneg|]. subst r. unfold SFdiv_core_binary.
  set (e' := Z.min _ _). set (sh := e1 - e2 - e').
  assert (0 <= sh) by (subst sh e'; lia).
  assert ((match sh with Z0 => m1 | Zpos _ => Z.shiftl m1 sh | Zneg _ => 0 end) = m1 * 2 ^ sh)
    as ->.
  { destruct sh as [|q|q]; [lia| |lia]. by rewrite Z.shiftl_mul_pow2 by lia. }
  pose proof (Z_div_mod (m1 * 2 ^ sh) m2 ltac:(lia)) as Hq.
  destruct (Z.div_eucl _ m2) as [q r]. cbn [fst snd]. destruct Hq as [Hq Hr].
  pose proof (digits2_spec m1 ltac:(lia)) as [A1 A2]. pose proof (digits2_pos_spec m2 H2) as B1.
  pose proof (digits2_spec m2 ltac:(lia)) as [_ B2].
  assert (1 <= Zdigits2 m2) as B3. { destruct m2; cbn in *; lia. }
  destruct (Z.le_gt_cases q 0) as [Hq0|Hq0].
  { assert (Zdigits2 q = 0) as ->.
    { destruct q as [|p|p]; [done|lia|]. exfalso.
      assert (0 <= m1 * 2 ^ sh) by (apply Z.mul_nonneg_nonneg; lia). nia. }
    subst e'. unfold fexp. lia. }
  assert (0 <= Zdigits2 m1 + sh - Zdigits2 m2 + 1) as Hn.
  { destruct (Z.le_gt_cases 0 (Zdigits2 m1 + sh - Zdigits2 m2 + 1)) as [|Hneg]; [done|].
    exfalso. assert (m1 * 2 ^ sh < 2 ^ (Zdigits2 m2 - 1)).
    { eapply Z.lt_le_trans with (2 ^ (Zdigits2 m1 + sh)).
      - rewrite Z.pow_add_r by lia. apply Z.mul_lt_mono_pos_r; lia.
      - apply Z.pow_le_mono_r; lia. }
    nia. }
  assert (Zdigits2 q <= Zdigits2 m1 + sh - Zdigits2 m2 + 1); [|subst sh; lia].
  apply Zdigits2_le; [|done]. split; [lia|].
  assert (q * 2 ^ (Zdigits2 m2 - 1) < 2 ^ (Zdigits2 m1 + sh)) as Hlt.
  { eapply Z.le_lt_trans with (m1 * 2 ^ sh); [nia|].
    rewrite Z.pow_add_r by lia. apply Z.mul_lt_mono_pos_r; lia. }
  apply (Z.mul_lt_mono_pos_r (2 ^ (Zdigits2 m2 - 1))); [lia|].
  rewrite <- Z.pow_add_r by lia. eapply Z.lt_le_trans; [exact Hlt|].
  apply Z.pow_le_mono_r; lia.
Qed.
End Size.

Lemma to_f64_size k x : -1074 <= k -> fsize k x -> fsize (k + 1) (to_f64 x) /\ fsize 1024 (to_f64 x).
Proof.
  intros Hk Hx. destruct x as [s|s| |s m e]; try done. cbn [fsize] in Hx.
  apply normalize_size; [done| |done]. by destruct s.
Qed.

Lemma to_f64_max x : fsize 1024 (to_f64 x).
Proof.
  destruct x as [s|s| |s m e]; try done.
  apply (to_f64_size (Z.max (-1074) (Zdigits2 (Zpos m) + e))); cbn [fsize]; lia.
Qed.

Lemma of_Z_size z n : 0 <= n -> Z.abs z < 2 ^ n -> fsize (n + 1) (F64.of_Z z).
Proof.
  intros Hn Hz. apply normalize_size; [done| |]; unfold emin, F64.prec, F64.emax; [|lia].
  pose proof (Zdigits2_le (Z.abs z) n ltac:(lia) Hn). lia.
Qed.

(** A quotient of a 64-bit number by a constant of [k] binary digits. *)
Lemma of_Z_div_size z c k : Z.abs z < 2 ^ 64 -> 0 <= k <= 64 ->
  (exists m e, F64.of_Z c = S754_finite false m e /\ Zdigits2 (Zpos m) + e = k) ->
  fsize (67 - k) (F64.div (F64.of_Z z) (F64.of_Z c)).
Proof.
  intros Hu Hk (m & e & -> & He). pose proof (of_Z_size z 64 ltac:(lia) ltac:(lia)) as H.
  unfold F64.div. destruct (F64.of_Z z) as [s|s| |s m1 e1]; try done. cbn [fsize] in H.
  cbn [SFdiv].
  pose proof (div_core_size F64.prec F64.emax eq_refl (66 - k) (Zpos m1) e1 (Zpos m) e eq_refl eq_refl
    ltac:(lia) ltac:(unfold emin, F64.prec, F64.emax; lia)) as [Hq Hs].
  destruct (SFdiv_core_binary _ _ _ _ _ _) as [[q e'] l]. cbn [fst snd] in *.
  replace (67 - k) with (66 - k + 1) by lia.
  apply (round_aux_size F64.prec F64.emax eq_refl (66 - k)); [lia|lia|].
  unfold emin, F64.prec, F64.emax. lia.
Qed.

(** A time in microseconds, in seconds and in milliseconds. *)
Lemma seconds_size u : 0 <= u < 2 ^ 64 -> fsize 47 (F64.div (F64.of_Z u) (F64.of_Z 1000000)).
Proof.
  intros Hu. apply (of_Z_div_size u 1000000 20); [lia|lia|].
  eexists _, _. split; vm_compute; reflexivity.
Qed.

Lemma millis_size z : Z.abs z < 2 ^ 64 -> fsize 57 (F64.div (F64.of_Z z) (F64.of_Z 1000)).
Proof.
  intros Hz. apply (of_Z_div_size z 1000 10); [done|lia|].
  eexists _, _. split; vm_compute; reflexivity.
Qed.

(** ** Length of a printed number *)

Lemma pretty_length_nonneg (z n : Z) : 0 < n -> 0 <= z < 10 ^ n -> strlen (pretty z) <= n.
Proof.
  intros Hn Hz. destruct (pretty_Z_shape z) as (d & -> & _ & _ & _ & Hd).
  rewrite (proj2 (Z.ltb_ge z 0)) by lia.
  destruct Hd as [Hd|Hd]; [lia|]. destruct (Z_le_gt_dec (strlen d) n) as [|H]; [done|].
  assert (10 ^ n <= 10 ^ (strlen d - 1)) by (apply Z.pow_le_mono_r; lia). lia.
Qed.

Lemma pad_zeros_length n s : strlen (pad_zeros n s) = Z.of_nat n + strlen s.
Proof. induction n as [|n IH]; [done|]. cbn [pad_zeros strlen]. lia. Qed.

(** The decimals of [q], padded to [n] places. *)
Lemma frac_length n q : (0 < n)%nat ->
  let frac := pretty (q mod 10 ^ Z.of_nat n) in
  strlen (pad_zeros (n - String.length frac) frac) = Z.of_nat n.
Proof.
  intros Hn frac. rewrite pad_zeros_length.
  pose proof (pretty_length_nonneg (q mod 10 ^ Z.of_nat n) (Z.of_nat n) ltac:(lia)) as H.
  fold frac in H. pose proof (strlen_length frac).
  pose proof (Z.mod_pos_bound q (10 ^ Z.of_nat n) ltac:(lia)). lia.
Qed.

Lemma fixed_text_length n q j : 0 < j -> 0 <= q < 10 ^ (j + Z.of_nat n) ->
  strlen (fixed_text n q) <= j + 1 + Z.of_nat n.
Proof.
  intros Hj Hq. unfold fixed_text. destruct n as [|n].
  - pose proof (pretty_length_nonneg q j Hj). rewrite Z.add_0_r in *. lia.
  - set (n1 := S n) in *. rewrite !strlen_app, frac_length by (subst n1; lia).
    assert (strlen (pretty (q / 10 ^ Z.of_nat n1)) <= j); [|cbn [strlen]; lia].
    apply pretty_length_nonneg; [done|]. split; [apply Z.div_pos; lia|].
    apply Z.div_lt_upper_bound; [lia|]. rewrite <- Z.pow_add_r by lia.
    rewrite Z.add_comm. lia.
Qed.

Lemma round_half_even_bounds n d : 0 < d -> n / d <= round_half_even n d <= n / d + 1.
Proof. intros Hd. unfold round_half_even. repeat case_bool; lia. Qed.

Lemma printf_f_length n x k j : 0 <= k -> 1 < j -> 2 ^ k < 10 ^ j -> fsize k x ->
  strlen (printf_f n x) <= j + 2 + Z.of_nat n.
Proof.
  intros Hk Hj Hkj Hx.
  assert (forall (s : bool) q, 0 <= q < 10 ^ (j + Z.of_nat n) ->
    strlen ((if s then "-" else "") ++ fixed_text n q)%string <= j + 2 + Z.of_nat n) as Hs.
  { intros s q Hq. pose proof (fixed_text_length n q j ltac:(lia) Hq).
    rewrite strlen_app. destruct s; cbn [strlen]; lia. }
  assert (0 < 10 ^ (j + Z.of_nat n)) by lia.
  destruct x as [s|s| |s m e]; cbn [printf_f]; [by apply Hs|destruct s; cbn; lia|cbn; lia|].
  apply Hs. cbn [fsize] in Hx. pose proof (digits2_spec (Zpos m) ltac:(lia)) as [Hm _].
  rewrite Z.pow_add_r by lia. set (t := 10 ^ Z.of_nat n) in *. assert (0 < t) by lia.
  destruct (Z.leb_spec 0 e) as [He|He].
  - assert (Zpos m * 2 ^ e < 2 ^ k); [|nia].
    eapply Z.lt_le_trans with (2 ^ (Zdigits2 (Zpos m) + e)); [|apply Z.pow_le_mono_r; lia].
    destruct (digits2_spec (Zpos m)); [lia|].
    rewrite Z.pow_add_r by lia. apply Z.mul_lt_mono_pos_r; lia.
  - pose proof (round_half_even_bounds (Zpos m * t) (2 ^ (- e)) ltac:(lia)) as Hr.
    assert (Zpos m * t / 2 ^ (- e) < 2 ^ k * t) as Hd.
    { apply Z.div_lt_upper_bound; [lia|]. rewrite Z.mul_assoc.
      apply Z.mul_lt_mono_pos_r; [lia|]. rewrite <- Z.pow_add_r by lia.
      eapply Z.lt_le_trans; [exact Hm|]. apply Z.pow_le_mono_r; lia. }
    assert (0 <= Zpos m * t / 2 ^ (- e)) by (apply Z.div_pos; lia). nia.
Qed.

Lemma strip_zeros_length s : strlen (strip_zeros s) <= strlen s.
Proof.
  induction s as [|a s IH]; [done|]. cbn [strip_zeros strlen].
  pose proof (strlen_nonneg s).
  destruct (strip_zeros s); [destruct (aeq a _)|]; unfold str1; cbn [strlen] in *; lia.
Qed.

(** At most nine decimals of a number below a million. *)
Lemma short_text_length n q : (n <= 9)%nat -> 0 <= q < 1000000 -> strlen (short_text n q) <= 16.
Proof.
  intros Hn Hq. unfold short_text. destruct n as [|n].
  - pose proof (pretty_length_nonneg q 6). lia.
  - set (n1 := S n) in *. pose proof (frac_length n1 q ltac:(lia)) as Hf. cbv zeta in Hf.
    pose proof (strip_zeros_length
      (pad_zeros (n1 - String.length (pretty (q mod 10 ^ Z.of_nat n1)))
        (pretty (q mod 10 ^ Z.of_nat n1)))) as Hs.
    assert (strlen (pretty (q / 10 ^ Z.of_nat n1)) <= 6) as Hi.
    { apply pretty_length_nonneg; [done|]. assert (0 < 10 ^ Z.of_nat n1) by lia.
      split; [apply Z.div_pos; lia|]. apply Z.div_lt_upper_bound; [lia|]. nia. }
    destruct (strip_zeros _) eqn:E; [lia|]. rewrite <- E in *. rewrite !strlen_app.
    cbn [strlen] in *. lia.
Qed.

Lemma small_exp_bounds fuel n d k : k <= small_exp fuel n d k <= k + Z.of_nat fuel.
Proof.
  revert n k. induction fuel as [|fuel IH]; intros n k; cbn [small_exp]; [lia|].
  case_bool; [lia|]. specialize (IH (n * 10) (k + 1)). lia.
Qed.

Lemma log10_floor_bounds n d : 0 < d -> 0 < n < 2 ^ 1024 * d -> -401 <= log10_floor n d <= 309.
Proof.
  intros Hd Hn. unfold log10_floor. destruct (Z.leb_spec d n) as [H|H].
  - pose proof (pretty_length_nonneg (n / d) 309 ltac:(lia)) as Hl.
    pose proof (strlen_nonneg (pretty (n / d))). assert (n / d < 10 ^ 309).
    { eapply Z.lt_le_trans with (2 ^ 1024); [|by apply Z.leb_le].
      apply Z.div_lt_upper_bound; lia. }
    pose proof (Z.div_pos n d). lia.
  - pose proof (small_exp_bounds 400 n d 1). lia.
Qed.

Lemma significant_bounds n d : 0 < d -> 0 < n < 2 ^ 1024 * d ->
  let r := significant n d in -401 <= r.1 <= 310 /\ 0 <= r.2 < 1000000.
Proof.
  intros Hd Hn r. subst r. unfold significant.
  pose proof (log10_floor_bounds n d Hd Hn) as Hx. set (x := log10_floor n d) in *.
  match goal with |- context [1000000 <=? ?a] => set (q := a) end.
  assert (0 <= q) as Hq.
  { subst q. destruct (Z.leb_spec x 5).
    - pose proof (round_half_even_bounds (n * 10 ^ (5 - x)) d Hd).
      assert (0 <= n * 10 ^ (5 - x) / d); [|lia].
      apply Z.div_pos; [|lia]. apply Z.mul_nonneg_nonneg; lia.
    - assert (0 < d * 10 ^ (x - 5)) by (apply Z.mul_pos_pos; lia).
      pose proof (round_half_even_bounds n (d * 10 ^ (x - 5))).
      assert (0 <= n / (d * 10 ^ (x - 5))); [apply Z.div_pos; lia|lia]. }
  destruct (Z.leb_spec 1000000 q); cbn [fst snd]; lia.
Qed.

Lemma exponent_text_length x : -401 <= x <= 310 -> strlen (exponent_text x) <= 6.
Proof.
  intros Hx. unfold exponent_text. rewrite !strlen_app, pad_zeros_length.
  pose proof (pretty_length_nonneg (Z.abs x) 3 ltac:(lia) ltac:(lia)) as H.
  pose proof (strlen_length (pretty (Z.abs x))).
  destruct (pretty_nonempty (Z.abs x)) as (a & s & E & _). rewrite E in *.
  cbn [strlen String.length] in *. pose proof (strlen_nonneg s).
  destruct (x <? 0)%Z; cbn [strlen]; lia.
Qed.

Lemma printf_g_length x : fsize 1024 x -> strlen (printf_g x) <= 23.
Proof.
  intros Hx. destruct x as [s|s| |s m e]; cbn [printf_g];
    [by destruct s|by destruct s|done|]. cbn [fsize] in Hx.
  destruct (digits2_spec (Zpos m) ltac:(lia)) as [Hm Hd].
  assert (forall x q, -401 <= x <= 310 -> 0 <= q < 1000000 ->
    strlen ((if s then "-" else "") ++ (if ((-4 <=? x) && (x <? 6))%Z
      then short_text (Z.to_nat (5 - x)) q else short_text 5 q ++ exponent_text x))%string <= 23)
    as H.
  { clear. intros x q Hx Hq. rewrite strlen_app.
    pose proof (short_text_length 5 q ltac:(lia) Hq). pose proof (exponent_text_length x Hx).
    assert (strlen (if s then "-" else "")%string <= 1) by (destruct s; done).
    destruct (_ && _)%bool eqn:E; [|rewrite strlen_app; lia].
    apply andb_true_iff in E as [E1%Z.leb_le E2%Z.ltb_lt].
    pose proof (short_text_length (Z.to_nat (5 - x)) q ltac:(lia) Hq). lia. }
  destruct (Z.leb_spec 0 e) as [He|He].
  - pose proof (significant_bounds (Zpos m * 2 ^ e) 1 eq_refl) as Hs. cbv zeta in Hs.
    destruct (significant _ _) as [y q]. apply H; apply Hs.
    all: split; [lia|]; rewrite Z.mul_1_r.
    all: eapply Z.lt_le_trans with (2 ^ (Zdigits2 (Zpos m) + e)); [|apply Z.pow_le_mono_r; lia].
    all: rewrite Z.pow_add_r by lia; apply Z.mul_lt_mono_pos_r; lia.
  - pose proof (significant_bounds (Zpos m) (2 ^ (- e)) ltac:(lia)) as Hs. cbv zeta in Hs.
    destruct (significant _ _) as [y q]. apply H; apply Hs.
    all: split; [lia|]; rewrite <- Z.pow_add_r by lia.
    all: eapply Z.lt_le_trans; [exact Hm|]; apply Z.pow_le_mono_r; lia.
Qed.

(** ** Integers that a [double] holds exactly *)

(** Rounding leaves a mantissa of full width alone. *)
Lemma round_aux_full s m e : Zdigits2 (Zpos m) = 53 -> -1074 <= e <= 971 ->
  binary_round_aux 53 1024 s (Zpos m) e loc_Exact = S754_finite s m e.
Proof.
  intros Hm He. unfold binary_round_aux, shr_fexp.
  assert (fexp 53 1024 (Zdigits2 (Zpos m) + e) - e = 0) as Hs
    by (rewrite Hm; unfold fexp, emin; lia).
  rewrite Hs. cbn [shr shr_record_of_loc shr_m loc_of_shr_record round_nearest_even].
  rewrite Hs. cbn [shr shr_record_of_loc shr_m].
  destruct (Z.leb_spec e (1024 - 53)); [done|lia].
Qed.

Lemma binary_round_full s p : Zpos p < 2 ^ 53 -> exists m k,
  binary_round 53 1024 s p 0 = S754_finite s m (- k) /\ 0 <= k /\
  Zpos m = Zpos p * 2 ^ k /\ 2 ^ 52 <= Zpos m < 2 ^ 53.
Proof.
  intros Hp. unfold binary_round, shl_align.
  pose proof (digits2_spec (Zpos p) ltac:(lia)) as [H1 H0].
  pose proof (Zdigits2_le (Zpos p) 53 ltac:(lia) ltac:(lia)) as Hd. cbn [Zdigits2] in *.
  unfold fexp, emin. set (d := Zpos (digits2_pos p)) in *.
  assert (forall m, Zdigits2 (Zpos m) = 53 -> 2 ^ 52 <= Zpos m < 2 ^ 53) as Hw.
  { intros m Hm. cbn [Zdigits2] in Hm. rewrite digits2_pos_log2 in Hm.
    pose proof (Z.log2_spec (Zpos m) eq_refl) as H. replace (Z.log2 (Zpos m)) with 52 in H by lia.
    exact H. }
  destruct (Z.max _ _ - 0) as [|q|q] eqn:Eq; [|lia|].
  - assert (Zdigits2 (Zpos p) = 53) as Hp53 by (cbn [Zdigits2]; lia).
    exists p, 0. split; [by apply (round_aux_full s p 0)|]. split; [done|]. split; [lia|by apply Hw].
  - assert (Zpos q = 53 - d) as Hq by lia.
    assert (Z.max (d + 0 - 53) (3 - 1024 - 53) = Zneg q) as -> by lia.
    assert (Zdigits2 (Zpos (Pos.iter xO p q)) = 53) as Hp53.
    { cbn [Zdigits2]. subst d. rewrite digits2_pos_log2, iter_xO in *.
      rewrite Z.log2_mul_pow2 by lia. lia. }
    exists (Pos.iter xO p q), (Zpos q). split; [by apply (round_aux_full s _ (Zneg q)); [|lia]|].
    split; [lia|]. split; [by rewrite iter_xO|by apply Hw].
Qed.

Lemma binary_round_exact s p : Zpos p < 2 ^ 53 -> exists m e,
  binary_round 53 1024 s p 0 = S754_finite s m e /\ Z.shiftl (Zpos m) e = Zpos p.
Proof.
  intros Hp. destruct (binary_round_full s p Hp) as (m & k & E & Hk & Hm & _).
  exists m, (- k). split; [done|]. rewrite Z.shiftl_div_pow2 by lia.
  rewrite Z.opp_involutive, Hm. by rewrite Z.div_mul by lia.
Qed.

(** Small numbers keep their order. *)
Lemma flt_of_Z a b : 0 <= a < 2 ^ 53 -> 0 <= b < 2 ^ 53 ->
  flt (F64.of_Z a) (F64.of_Z b) = (a <? b).
Proof.
  intros Ha Hb. unfold F64.of_Z, F64.prec, F64.emax, binary_normalize.
  destruct a as [|p|p]; [| |lia]; (destruct b as [|q|q]; [| |lia]); cbn [cond_Zopp]; try done.
  - destruct (binary_round_full false q ltac:(lia)) as (m & k & -> & _). done.
  - destruct (binary_round_full false p ltac:(lia)) as (m & k & -> & _). done.
  - destruct (binary_round_full false p ltac:(lia)) as (m & k & -> & Hk & Hm & Hw).
    destruct (binary_round_full false q ltac:(lia)) as (n & l & -> & Hl & Hn & Hv).
    unfold flt, SFltb, SFcompare. destruct (Z.compare_spec (- k) (- l)) as [E|E|E].
    + assert (k = l) as -> by lia. change (PosDef.Pos.compare_cont Eq m n) with (Zpos m ?= Zpos n).
      rewrite Hm, Hn, <- Zmult_compare_compat_r by lia. reflexivity.
    + assert (2 ^ l * 2 <= 2 ^ k) by (rewrite Z.mul_comm, <- Z.pow_succ_r by lia; apply Z.pow_le_mono_r; lia).
      assert (0 < 2 ^ l) by (apply Z.pow_pos_nonneg; lia). symmetry. apply Z.ltb_lt. nia.
    + assert (2 ^ k * 2 <= 2 ^ l) by (rewrite Z.mul_comm, <- Z.pow_succ_r by lia; apply Z.pow_le_mono_r; lia).
      assert (0 < 2 ^ k) by (apply Z.pow_pos_nonneg; lia). symmetry. apply Z.ltb_ge. nia.
Qed.

Lemma of_Z_exact lo hi z : lo <= 0 <= hi -> Z.abs z < 2 ^ 53 ->
  fp_to_Z lo hi (F64.of_Z z) = Z.max lo (Z.min hi z).
Proof.
  intros Hl Hz. unfold F64.of_Z, F64.prec, F64.emax, binary_normalize.
  destruct z as [|p|p]; [cbn; lia| |]; cbn [cond_Zopp];
    match goal with |- context [binary_round _ _ ?s ?p 0] =>
      destruct (binary_round_exact s p ltac:(lia)) as (m & e & -> & H) end;
    cbn [fp_to_Z]; unfold ftrunc; rewrite H; done.
Qed.

(** ** Characters of a printed number *)

Definition num_char (a : ascii) : bool :=
  int_char a || aeq a (ch 46) || aeq a (ch 43) || aeq a (ch 101) || aeq a (ch 105) ||
  aeq a (ch 110) || aeq a (ch 102) || aeq a (ch 97).

Lemma num_chars_int (z : Z) : all_chars num_char (pretty z) = true.
Proof.
  eapply all_chars_impl; [|apply pretty_int_chars]. intros a Ha. unfold num_char. by rewrite Ha.
Qed.

Lemma num_chars_pad n s : all_chars num_char s = true -> all_chars num_char (pad_zeros n s) = true.
Proof. intros H. induction n as [|n IH]; [done|exact IH]. Qed.

Lemma num_chars_strip s : all_chars num_char s = true -> all_chars num_char (strip_zeros s) = true.
Proof.
  induction s as [|a s IH]; [done|]. cbn [all_chars strip_zeros].
  intros [Ha Hs]%andb_true_iff. specialize (IH Hs).
  destruct (strip_zeros s); [|cbn [all_chars] in *; by rewrite Ha].
  destruct (aeq a _); [done|]. unfold str1. cbn [all_chars]. by rewrite Ha.
Qed.

Create HintDb numtext.
#[local] Hint Resolve num_chars_int num_chars_pad num_chars_strip : numtext.

Lemma num_chars_fixed n q : all_chars num_char (fixed_text n q) = true.
Proof.
  unfold fixed_text. destruct n as [|n]; [auto with numtext|].
  rewrite !all_chars_app, !andb_true_iff. auto with numtext.
Qed.

Lemma num_chars_short n q : all_chars num_char (short_text n q) = true.
Proof.
  unfold short_text. destruct n as [|n]; [auto with numtext|].
  match goal with |- context [strip_zeros ?t] => assert (all_chars num_char (strip_zeros t) = true)
    as H by auto with numtext; destruct (strip_zeros t); [auto with numtext|] end.
  rewrite !all_chars_app, !andb_true_iff. auto with numtext.
Qed.

Lemma num_chars_exponent x : all_chars num_char (exponent_text x) = true.
Proof.
  unfold exponent_text. rewrite !all_chars_app, !andb_true_iff.
  split; [done|]. split; [by destruct (x <? 0)%Z|auto with numtext].
Qed.

Lemma printf_f_chars n x : all_chars num_char (printf_f n x) = true.
Proof.
  destruct x as [s|s| |s m e]; cbn [printf_f]; [|by destruct s|done|];
    rewrite all_chars_app, num_chars_fixed, andb_true_r; by destruct s.
Qed.

Lemma printf_g_chars x : all_chars num_char (printf_g x) = true.
Proof.
  destruct x as [s|s| |s m e]; cbn [printf_g]; [by destruct s|by destruct s|done|].
  destruct (if 0 <=? e then _ else _) as [y q]. rewrite all_chars_app, andb_true_iff.
  split; [by destruct s|]. destruct (_ && _); [apply num_chars_short|].
  by rewrite all_chars_app, num_chars_short, num_chars_exponent.
Qed.

Lemma app_nonempty_r s t : t <> EmptyString -> (s ++ t)%string <> EmptyString.
Proof. by destruct s. Qed.

Lemma app_nonempty_l s t : s <> EmptyString -> (s ++ t)%string <> EmptyString.
Proof. by destruct s. Qed.

Lemma pretty_not_empty (z : Z) : pretty z <> EmptyString.
Proof. destruct (pretty_nonempty z) as (a & s & -> & _). done. Qed.

#[local] Hint Resolve app_nonempty_l app_nonempty_r pretty_not_empty : numtext.

Lemma printf_f_nonempty n x : printf_f n x <> EmptyString.
Proof.
  destruct x as [s|s| |s m e]; cbn [printf_f]; [|by destruct s|done|];
    apply app_nonempty_r; unfold fixed_text; destruct n; auto with numtext.
Qed.

Lemma short_text_nonempty n q : short_text n q <> EmptyString.
Proof.
  unfold short_text. destruct n; [auto with numtext|]. destruct (strip_zeros _); auto with numtext.
Qed.

Lemma printf_g_nonempty x : printf_g x <> EmptyString.
Proof.
  destruct x as [s|s| |s m e]; cbn [printf_g]; [by destruct s|by destruct s|done|].
  destruct (if 0 <=? e then _ else _) as [y q]. apply app_nonempty_r.
  destruct (_ && _); [|apply app_nonempty_l]; apply short_text_nonempty.
Qed.
