(* ===== verification/Io.v ===== *)
(** * Programs that talk to the outside

    The source calls the kernel, other processes and the network; what they answer is not
    part of it.  A computation over events of a type [E] is a function of the world so far:
    the counter of request ids and the trace of what was done, latest first.  The answers are
    functions of the trace, given by a class for each program ([Net.Env] for the vehicle,
    [GsNet.GsEnv] for the ground station).

    Four logics speak about a computation: [performs] (every event), [ensures] (every event
    and the result), [yields] (result and events together) and [triple] (an assertion on the
    trace before, one on result and trace after). *)

From S2P Require Import Prelude.

Local Open Scope list_scope.

Record GWorld (E : Type) := Build_World { w_req_id : Z; w_trace : list E }.
Arguments Build_World {E} _ _.
Arguments w_req_id {E} _.
Arguments w_trace {E} _.

#[export] Instance eta_World {E} : Eta (GWorld E) :=
  fun w => Build_World (w_req_id w) (w_trace w).

(** ** State-passing computations *)

Definition GIO (E A : Type) : Type := GWorld E -> A * GWorld E.

Definition io_ret {E A} (x : A) : GIO E A := fun w => (x, w).
Definition io_bind {E A B} (m : GIO E A) (f : A -> GIO E B) : GIO E B :=
  fun w => let '(x, w) := m w in f x w.
Definition io_log {E} (e : E) : GIO E unit :=
  fun w => (tt, w <| w_trace := e :: w_trace w |>).

(** A request with its answer. *)
Definition ask {E A} (e : E) (answer : list E -> A) : GIO E A := fun w =>
  let w := w <| w_trace := e :: w_trace w |> in (answer (w_trace w), w).

Declare Scope io_scope.
Delimit Scope io_scope with io.
Notation "'let!' x ':=' m 'in' k" := (io_bind m (fun x => k))
  (at level 10, x pattern, m at level 100, k at level 200) : io_scope.
Open Scope io_scope.

(** ** What a computation does

    [performs P m]: every event [m] adds to the history satisfies [P].  The rules follow
    the structure of a computation; the hints below apply them, so that "this handler
    only ever does ..." is proved by [eauto with performs] and case analysis. *)

Definition performs {E A} (P : E -> Prop) (m : GIO E A) : Prop :=
  forall w, exists es, w_trace (m w).2 = es ++ w_trace w /\ Forall P es.

(** The computation leaves the world alone. *)
Definition silent {E A} (m : GIO E A) : Prop := forall w, (m w).2 = w.

Section Performs.
Context {Ev : Type}.
Implicit Types P Q : Ev -> Prop.

Lemma extends_none P w1 w : w_trace w1 = w_trace w ->
  exists es, w_trace w1 = es ++ w_trace w /\ Forall P es.
Proof. intros ->. exists []. by split. Qed.

Lemma extends_one P w1 w e : w_trace w1 = e :: w_trace w -> P e ->
  exists es, w_trace w1 = es ++ w_trace w /\ Forall P es.
Proof. intros -> He. exists [e]. split; [done|]. by repeat constructor. Qed.

Lemma performs_ret {A} P (x : A) : performs P (io_ret x).
Proof. intros w. by apply extends_none. Qed.

Lemma performs_bind {A B} P (m : GIO Ev A) (f : A -> GIO Ev B) :
  performs P m -> (forall x, performs P (f x)) -> performs P (io_bind m f).
Proof.
  intros Hm Hf w. unfold io_bind. destruct (Hm w) as (es & E & H).
  destruct (m w) as [x w1]. destruct (Hf x w1) as (fs & F & K). cbn in E.
  exists (fs ++ es). rewrite F, E. split; [by rewrite app_assoc|]. by apply Forall_app.
Qed.

Lemma performs_weaken {A} P Q (m : GIO Ev A) :
  performs P m -> (forall e, P e -> Q e) -> performs Q m.
Proof.
  intros Hm H w. destruct (Hm w) as (es & E & K). exists es. split; [done|].
  eapply Forall_impl; eauto.
Qed.

Lemma performs_log P e : P e -> performs P (io_log e).
Proof. intros He w. by apply (extends_one P _ w e). Qed.

Lemma performs_ask {A} P e (f : list Ev -> A) : P e -> performs P (ask e f).
Proof. intros He w. by apply (extends_one P _ w e). Qed.

Lemma performs_silent {A} P (m : GIO Ev A) : silent m -> performs P m.
Proof. intros H w. apply extends_none. by rewrite H. Qed.
End Performs.

Create HintDb performs.
#[export] Hint Resolve performs_ret performs_log performs_silent : performs.
#[export] Hint Extern 2 (performs _ (io_bind _ _)) => apply performs_bind : performs.

(** *** Events and result

    [ensures P Q m]: besides, the result satisfies [Q]. *)

Definition ensures {E A} (P : E -> Prop) (Q : A -> Prop) (m : GIO E A) : Prop :=
  performs P m /\ forall w, Q (m w).1.

Section Ensures.
Context {Ev : Type}.
Implicit Types P : Ev -> Prop.

Lemma ensures_ret {A} P (Q : A -> Prop) x : Q x -> ensures P Q (io_ret x).
Proof. intros H. split; [apply performs_ret|by intros w]. Qed.

Lemma ensures_bind {A B} P (Q : A -> Prop) (R : B -> Prop) (m : GIO Ev A) (f : A -> GIO Ev B) :
  ensures P Q m -> (forall x, Q x -> ensures P R (f x)) -> ensures P R (io_bind m f).
Proof.
  intros [Hm Hq] Hf. split.
  - intros w. destruct (Hm w) as (es & E & H). unfold io_bind. specialize (Hq w).
    destruct (m w) as [x w1]. destruct (Hf x Hq) as [Hp _].
    destruct (Hp w1) as (fs & F & K). cbn in E. exists (fs ++ es).
    rewrite F, E. split; [by rewrite app_assoc|]. by apply Forall_app.
  - intros w. specialize (Hq w). unfold io_bind. destruct (m w) as [x w1]. by apply Hf.
Qed.

Lemma ensures_weaken {A} P P' (Q Q' : A -> Prop) (m : GIO Ev A) :
  ensures P Q m -> (forall e, P e -> P' e) -> (forall x, Q x -> Q' x) -> ensures P' Q' m.
Proof. intros [H1 H2] H H'. split; [by eapply performs_weaken|]. intros w. apply H', H2. Qed.

(** Nothing is asked of the result. *)
Lemma ensures_performs {A} P (m : GIO Ev A) : performs P m -> ensures P (fun _ => True) m.
Proof. by split. Qed.

Lemma ensures_read {A B} P (R : B -> Prop) (m : GIO Ev A) (f : A -> GIO Ev B) :
  performs P m -> (forall x, ensures P R (f x)) -> ensures P R (io_bind m f).
Proof. intros Hm Hf. eapply ensures_bind; [by apply ensures_performs|auto]. Qed.
End Ensures.

(** ** Results and events together

    [yields m Q]: from any history, [m] adds events [es] and returns [x] with [Q x es].
    The rules run a computation symbolically, one request at a time. *)

Definition yields {E A} (m : GIO E A) (Q : A -> list E -> Prop) : Prop :=
  forall w, exists es, w_trace (m w).2 = es ++ w_trace w /\ Q (m w).1 es.

(** Nothing, or the one event. *)
Definition at_most {E} (e : E) (es : list E) : Prop := es = [] \/ es = [e].

Section Yields.
Context {Ev : Type}.

Lemma yields_ret {A} (x : A) (Q : A -> list Ev -> Prop) : Q x [] -> yields (io_ret x) Q.
Proof. intros H w. by exists []. Qed.

Lemma yields_bind {A B} (m : GIO Ev A) (f : A -> GIO Ev B) Q1 Q :
  yields m Q1 ->
  (forall x es, Q1 x es -> yields (f x) (fun y es' => Q y (es' ++ es))) ->
  yields (io_bind m f) Q.
Proof.
  intros Hm Hf w. unfold io_bind. destruct (Hm w) as (es & E & H).
  destruct (m w) as [x w1]. cbn in E, H. destruct (Hf x es H w1) as (fs & F & K).
  exists (fs ++ es). rewrite F, E. split; [by rewrite app_assoc|done].
Qed.

Lemma yields_weaken {A} (m : GIO Ev A) (Q1 Q : A -> list Ev -> Prop) :
  yields m Q1 -> (forall x es, Q1 x es -> Q x es) -> yields m Q.
Proof. intros H K w. destruct (H w) as (es & ? & ?). exists es. auto. Qed.

(** A computation whose events are known yields any result with such events. *)
Lemma yields_trace {A} (m : GIO Ev A) (Q : list Ev -> Prop) :
  (forall w, exists es, w_trace (m w).2 = es ++ w_trace w /\ Q es) ->
  yields m (fun _ es => Q es).
Proof. intros H w. apply H. Qed.

Lemma at_most_none (e : Ev) w1 w : w_trace w1 = w_trace w ->
  exists es, w_trace w1 = es ++ w_trace w /\ at_most e es.
Proof. intros ->. exists []. split; [done|by left]. Qed.

Lemma at_most_one (e : Ev) w1 w : w_trace w1 = e :: w_trace w ->
  exists es, w_trace w1 = es ++ w_trace w /\ at_most e es.
Proof. intros ->. exists [e]. split; [done|by right]. Qed.

Lemma yields_log (e : Ev) : yields (io_log e) (fun _ es => at_most e es).
Proof. intros w. by apply at_most_one. Qed.

(** The helpers built on a round trip add a pure reading of the reply. *)
Lemma yields_map {A B} (m : GIO Ev A) (f : A -> B) (Q : list Ev -> Prop) :
  yields m (fun _ es => Q es) -> yields (let! x := m in io_ret (f x)) (fun _ es => Q es).
Proof.
  intros H. eapply yields_bind; [exact H|]. intros x es Hq. by apply yields_ret.
Qed.
End Yields.

(** ** Assertions on the trace

    [triple P m Q]: from any trace with [P], [m] returns an [x] and leaves a trace with
    [Q x]. *)

Section Triple.
Context {Ev : Type}.

Definition triple {A} (P : list Ev -> Prop) (m : GIO Ev A) (Q : A -> list Ev -> Prop) : Prop :=
  forall w, P (w_trace w) -> Q (m w).1 (w_trace (m w).2).

Lemma triple_ret {A} (P : list Ev -> Prop) (x : A) (Q : A -> list Ev -> Prop) :
  (forall tr, P tr -> Q x tr) -> triple P (io_ret x) Q.
Proof. intros H w. apply H. Qed.

Lemma triple_bind {A B} P (m : GIO Ev A) (f : A -> GIO Ev B) R Q :
  triple P m R -> (forall x, triple (R x) (f x) Q) -> triple P (io_bind m f) Q.
Proof.
  intros Hm Hf w Hw. unfold io_bind. specialize (Hm w Hw). destruct (m w) as [x w'].
  by apply Hf.
Qed.

Lemma bind_run {A B} (m : GIO Ev A) (f : A -> GIO Ev B) w x w' :
  m w = (x, w') -> io_bind m f w = f x w'.
Proof. unfold io_bind. by intros ->. Qed.

Lemma triple_log P e Q :
  (forall tr, P tr -> Q tt (e :: tr)) -> triple P (io_log e) Q.
Proof. intros H w. apply H. Qed.

Lemma triple_ask {A} P e (f : list Ev -> A) Q :
  (forall tr, P tr -> Q (f (e :: tr)) (e :: tr)) -> triple P (ask e f) Q.
Proof. intros H w. apply H. Qed.

Lemma triple_cons {A} (P P' : list Ev -> Prop) (m : GIO Ev A) Q Q' :
  triple P' m Q' -> (forall tr, P tr -> P' tr) -> (forall x tr, Q' x tr -> Q x tr) ->
  triple P m Q.
Proof. intros Hm HP HQ w Hw. apply HQ, Hm, HP, Hw. Qed.

Lemma triple_weaken {A} P (m : GIO Ev A) (Q Q' : A -> list Ev -> Prop) :
  triple P m Q' -> (forall x tr, Q' x tr -> Q x tr) -> triple P m Q.
Proof. intros Hm HQ. by eapply triple_cons. Qed.

Lemma ask_run {A} (e : Ev) (f : list Ev -> A) w x w' :
  ask e f w = (x, w') -> w_trace w' = e :: w_trace w /\ x = f (w_trace w').
Proof. unfold ask. by intros [= <- <-]. Qed.
End Triple.

Create HintDb yields.
#[export] Hint Resolve yields_log : yields.

(** Run the next request of a computation, or finish it. *)
Ltac yields_step :=
  lazymatch goal with
  | |- yields (io_ret _) _ => apply yields_ret; cbv beta
  | |- yields (io_bind _ _) _ => eapply yields_bind; [solve [eauto with yields] | intros; cbv beta in * ]
  | |- yields (if ?b then _ else _) _ => destruct b eqn:?
  | |- yields (match ?x with _ => _ end) _ => destruct x eqn:?
  end.
