(* ===== verification/Net.v ===== *)
(** * The peers of the link controller

    What the daemon exchanges with the processes around it: the control socket of
    [wfb_tx] ([shared/wfb_control.h] and the [wfb_*] helpers of
    [vehicle/link_controller.c]), the encoder's HTTP interface ([http_get],
    [venc_apply]) and the child processes it runs.

    The peers themselves are not part of the source: [Env] is what they answer, a
    parameter of every definition that talks to them.  An answer may depend on
    everything that happened before, the list of events of the [World].  The daemon's
    own code is a state-passing computation on the world ([IO]) that records each
    action it takes. *)

From S2P Require Import Prelude CFloat CString Io.

(** ** Data of the control protocol *)

(** [RadioBody]: the seven bytes of SET_RADIO and of the GET_RADIO answer. *)
Record RadioBody := Build_RadioBody {
  rb_stbc : Z; rb_ldpc : Z; rb_short_gi : Z; rb_bandwidth : Z;
  rb_mcs_index : Z; rb_vht_mode : Z; rb_vht_nss : Z
}.

#[export] Instance eta_RadioBody : Eta RadioBody := fun r => Build_RadioBody
  (rb_stbc r) (rb_ldpc r) (rb_short_gi r) (rb_bandwidth r) (rb_mcs_index r)
  (rb_vht_mode r) (rb_vht_nss r).

#[export] Instance RadioBody_eq_dec : EqDecision RadioBody.
Proof. solve_decision. Defined.

Definition radio_zero : RadioBody := Build_RadioBody 0 0 0 0 0 0 0.

(** The request union of [CmdReq]. *)
Inductive Ctl :=
  | CtlSetFec (k n fec_timeout_ms : Z)
  | CtlSetRadio (b : RadioBody)
  | CtlGetFec
  | CtlGetRadio
  | CtlSetPeek (enabled : Z)
  | CtlGetPeek.

#[export] Instance Ctl_eq_dec : EqDecision Ctl.
Proof. solve_decision. Defined.

Definition WFB_CMD_SET_FEC : Z := 1.
Definition WFB_CMD_SET_RADIO : Z := 2.
Definition WFB_CMD_GET_FEC : Z := 3.
Definition WFB_CMD_GET_RADIO : Z := 4.
Definition WFB_CMD_SET_PEEK : Z := 5.
Definition WFB_CMD_GET_PEEK : Z := 6.
Definition WFB_FEC_TIMEOUT_KEEP : Z := 0xFFFF.

(** Network byte order. *)
Definition be16_bytes (x : Z) : list Z := [u8 (Z.shiftr x 8); u8 x].
Definition be32_bytes (x : Z) : list Z :=
  [u8 (Z.shiftr x 24); u8 (Z.shiftr x 16); u8 (Z.shiftr x 8); u8 x].
Definition byte_at (bs : list Z) (i : nat) : Z := nth i bs 0.
Definition be16_at (bs : list Z) (i : nat) : Z :=
  Z.lor (Z.shiftl (byte_at bs i) 8) (byte_at bs (S i)).
Definition be32_at (bs : list Z) (i : nat) : Z :=
  Z.lor (Z.shiftl (byte_at bs i) 24)
    (Z.lor (Z.shiftl (byte_at bs (i + 1)) 16)
       (Z.lor (Z.shiftl (byte_at bs (i + 2)) 8) (byte_at bs (i + 3)))).

Definition be64_at (bs : list Z) (i : nat) : Z :=
  Z.lor (Z.shiftl (be32_at bs i) 32) (be32_at bs (i + 4)).

Definition radio_bytes (r : RadioBody) : list Z :=
  [rb_stbc r; rb_ldpc r; rb_short_gi r; rb_bandwidth r; rb_mcs_index r;
   rb_vht_mode r; rb_vht_nss r].
Definition radio_of_bytes (bs : list Z) : RadioBody :=
  Build_RadioBody (byte_at bs 0) (byte_at bs 1) (byte_at bs 2) (byte_at bs 3)
    (byte_at bs 4) (byte_at bs 5) (byte_at bs 6).

(** The datagram of a request: [req_id], [cmd_id] and the body's fixed length. *)
Definition ctl_cmd_id (c : Ctl) : Z :=
  match c with
  | CtlSetFec _ _ _ => WFB_CMD_SET_FEC
  | CtlSetRadio _ => WFB_CMD_SET_RADIO
  | CtlGetFec => WFB_CMD_GET_FEC
  | CtlGetRadio => WFB_CMD_GET_RADIO
  | CtlSetPeek _ => WFB_CMD_SET_PEEK
  | CtlGetPeek => WFB_CMD_GET_PEEK
  end.

Definition ctl_body (c : Ctl) : list Z :=
  match c with
  | CtlSetFec k n t => u8 k :: u8 n :: be16_bytes t
  | CtlSetRadio b => radio_bytes b
  | CtlSetPeek e => [u8 e]
  | _ => []
  end.

Definition ctl_request (req_id : Z) (c : Ctl) : list Z :=
  be32_bytes req_id ++ ctl_cmd_id c :: ctl_body c.

(** *** Bytes and back *)

Lemma split_bits x n : 0 <= n -> Z.lor (Z.shiftl (Z.shiftr x n) n) (wrap n x) = x.
Proof.
  intros Hn. unfold wrap. apply Z.bits_inj'. intros i Hi.
  rewrite Z.lor_spec. destruct (Z_lt_le_dec i n) as [H|H].
  - rewrite Z.shiftl_spec_low, Z.mod_pow2_bits_low by lia. done.
  - rewrite Z.shiftl_spec, Z.shiftr_spec, Z.mod_pow2_bits_high by lia.
    rewrite orb_false_r. f_equal. lia.
Qed.

Lemma shiftl_u8 x n : 0 <= n -> wrap (n + 8) (Z.shiftl x n) = Z.shiftl (u8 x) n.
Proof.
  intros Hn. unfold wrap, u8. apply Z.bits_inj'. intros i Hi.
  destruct (Z_lt_le_dec i (n + 8)) as [H|H].
  - rewrite Z.mod_pow2_bits_low by lia. destruct (Z_lt_le_dec i n).
    + by rewrite !Z.shiftl_spec_low by lia.
    + rewrite !Z.shiftl_spec by lia. unfold wrap. by rewrite Z.mod_pow2_bits_low by lia.
  - rewrite Z.mod_pow2_bits_high, Z.shiftl_spec by lia. unfold wrap.
    by rewrite Z.mod_pow2_bits_high by lia.
Qed.

(** The low [n + 8] bits are the byte above [n] and the low [n] bits. *)
Lemma wrap_split x n : 0 <= n ->
  wrap (n + 8) x = Z.lor (Z.shiftl (u8 (Z.shiftr x n)) n) (wrap n x).
Proof.
  intros Hn. rewrite <- shiftl_u8 by done. unfold wrap. apply Z.bits_inj'. intros i Hi.
  rewrite Z.lor_spec. destruct (Z_lt_le_dec i n) as [H|H].
  - rewrite !Z.mod_pow2_bits_low, Z.shiftl_spec_low by lia. done.
  - rewrite (Z.mod_pow2_bits_high x n i) by lia. rewrite orb_false_r.
    destruct (Z_lt_le_dec i (n + 8)).
    + rewrite !Z.mod_pow2_bits_low, Z.shiftl_spec, Z.shiftr_spec by lia. f_equal. lia.
    + by rewrite !Z.mod_pow2_bits_high by lia.
Qed.

Lemma be16_roundtrip x : 0 <= x < 2 ^ 16 -> Z.lor (Z.shiftl (u8 (Z.shiftr x 8)) 8) (u8 x) = x.
Proof.
  intros H. change (u8 x) with (wrap 8 x). rewrite <- (wrap_split x 8) by lia.
  by apply wrap_small.
Qed.

Lemma be32_wrap x :
  Z.lor (Z.shiftl (u8 (Z.shiftr x 24)) 24)
    (Z.lor (Z.shiftl (u8 (Z.shiftr x 16)) 16)
       (Z.lor (Z.shiftl (u8 (Z.shiftr x 8)) 8) (u8 x))) = u32 x.
Proof.
  change (u8 x) with (wrap 8 x).
  rewrite <- (wrap_split x 8) by lia. change (8 + 8) with 16.
  rewrite <- (wrap_split x 16) by lia. change (16 + 8) with 24.
  by rewrite <- (wrap_split x 24) by lia.
Qed.

Lemma be32_roundtrip x : 0 <= x < 2 ^ 32 ->
  Z.lor (Z.shiftl (u8 (Z.shiftr x 24)) 24)
    (Z.lor (Z.shiftl (u8 (Z.shiftr x 16)) 16)
       (Z.lor (Z.shiftl (u8 (Z.shiftr x 8)) 8) (u8 x))) = x.
Proof. intros H. rewrite be32_wrap. by apply u32_small. Qed.

(** ** Events, the world and what the peers answer *)

Inductive Event :=
  | EvNow (t : Z)                                     (** a reading of the clock *)
  | EvCtl (host : string) (port : Z) (req_id : Z) (c : Ctl)
  | EvHttp (host : string) (port : Z) (path : string)
  | EvIwTxpower (iface : string) (mbm : Z)
  | EvIwChannel (iface : string) (chan : Z) (ht : string)
  | EvIpMtu (iface : string) (mtu : Z)
  | EvRecoveryCmd (cmd : string)
  | EvLogger (start : bool)
  | EvSubscribe                                       (** sidecar keepalive *)
  | EvProbeFeed (seq len : Z)                         (** one paced probe packet *)
  | EvReply (bs : list Z).                            (** a WCMD reply *)

Abbreviation World := (GWorld Event).
Abbreviation IO := (GIO Event).

(** [g_req_id] starts at 1. *)
Definition world_init : World := {| w_req_id := 1; w_trace := [] |}.

(** What the peers answer, given the history (latest event first). *)
Class Env := {
  env_now : list Event -> Z;
      (** [CLOCK_MONOTONIC_RAW] in microseconds *)
  env_open : list Event -> string -> bool;
      (** the address parses and a socket is created *)
  env_ctl_sent : list Event -> list Z -> bool;
      (** [sendto] accepted the whole request *)
  env_ctl_reply : list Event -> list Z -> option (list Z);
      (** the datagram received within the poll timeout *)
  env_tcp : list Event -> string -> option string;
      (** the reply to an HTTP request, [None] when nothing was received *)
  env_iw_txpower : list Event -> string -> Z -> Z;
  env_iw_channel : list Event -> string -> Z -> string -> Z;
  env_ip_mtu : list Event -> string -> Z -> Z;
  env_recovery_cmd : list Event -> string -> Z
      (** exit status of the child process, -1 when it did not exit *)
}.

Section Peers.
Context `{!Env}.

Definition now_us : IO Z := fun w =>
  let t := env_now (w_trace w) in (t, w <| w_trace := EvNow t :: w_trace w |>).

(** *** [wfb_tx] control socket *)

(** The steps the [wfb_get_*] and [wfb_set_*] helpers share: open a socket, take the
    next request id, send, wait for one datagram of at most [sizeof(CmdResp)] bytes
    and accept it when it is long enough, carries the id and reports success.  The
    result is the response body, zero where the datagram was shorter. *)
Definition CmdResp_size : nat := 15.

Definition accept_reply (req_id : Z) (min_len : Z) (dgram : list Z) : option (list Z) :=
  let resp := take CmdResp_size dgram in
  if Z.of_nat (length resp) <? min_len then None
  else if negb (be32_at resp 0 =? req_id) then None
  else if negb (be32_at resp 4 =? 0) then None
  else Some (drop 8 resp).

Definition ctl_round_trip (host : string) (port : Z) (c : Ctl) (min_len : Z)
  : IO (option (list Z)) := fun w =>
  if negb (env_open (w_trace w) host) then (None, w)
  else
    let req_id := w_req_id w in
    let w1 := Build_World (u32 (req_id + 1)) (EvCtl host port req_id c :: w_trace w) in
    if negb (env_ctl_sent (w_trace w) (ctl_request req_id c)) then (None, w1)
    else match env_ctl_reply (w_trace w) (ctl_request req_id c) with
         | None => (None, w1)
         | Some dgram => (accept_reply req_id min_len dgram, w1)
         end.

(** [wfb_send_set_fec]: sent without waiting for the answer. *)
Definition wfb_send_set_fec (host : string) (port k n : Z) : IO Z := fun w =>
  if negb (env_open (w_trace w) host) then (-1, w)
  else
    let req_id := w_req_id w in
    let c := CtlSetFec (u8 k) (u8 n) WFB_FEC_TIMEOUT_KEEP in
    let w1 := Build_World (u32 (req_id + 1)) (EvCtl host port req_id c :: w_trace w) in
    (if env_ctl_sent (w_trace w) (ctl_request req_id c) then 0 else -1, w1).

(** [wfb_get_fec]: the answer's k, n and timeout. *)
Definition wfb_get_fec (host : string) (port : Z) : IO (option (Z * Z * Z)) :=
  let! r := ctl_round_trip host port CtlGetFec 12 in
  io_ret (match r with
          | Some b => Some (byte_at b 0, byte_at b 1, be16_at b 2)
          | None => None
          end).

Definition wfb_get_radio (host : string) (port : Z) : IO (option RadioBody) :=
  let! r := ctl_round_trip host port CtlGetRadio 15 in
  io_ret (radio_of_bytes <$> r).

(** [wfb_set_radio_at]: the flags are normalised to 0/1 before they are sent. *)
Definition norm_flag (x : Z) : Z := if x =? 0 then 0 else 1.
Definition norm_radio (r : RadioBody) : RadioBody :=
  r <| rb_ldpc := norm_flag (rb_ldpc r) |>
    <| rb_short_gi := norm_flag (rb_short_gi r) |>
    <| rb_vht_mode := norm_flag (rb_vht_mode r) |>.

Definition wfb_set_radio_at (host : string) (port : Z) (params : RadioBody) : IO Z :=
  let! r := ctl_round_trip host port (CtlSetRadio (norm_radio params)) 8 in
  io_ret (match r with Some _ => 0 | None => -1 end).

Definition wfb_set_radio (host : string) (port : Z) (params : RadioBody) : IO Z :=
  wfb_set_radio_at host port params.

Definition wfb_set_peek (host : string) (port enabled : Z) : IO Z :=
  let! r := ctl_round_trip host port (CtlSetPeek (u8 enabled)) 8 in
  io_ret (match r with Some _ => 0 | None => -1 end).

Definition wfb_get_peek (host : string) (port : Z) : IO (option Z) :=
  let! r := ctl_round_trip host port CtlGetPeek 9 in
  io_ret ((fun b => byte_at b 0) <$> r).

(** *** HTTP client ([http_get]) *)

Definition http_request (host : string) (port : Z) (path : string) : string :=
  "GET " ++ path ++ " HTTP/1.0" ++ CRLF ++
  "Host: " ++ host ++ ":" ++ pretty port ++ CRLF ++
  "User-Agent: link_controller/0.1" ++ CRLF ++
  "Connection: close" ++ CRLF ++ CRLF.

(** [sscanf(buf, "HTTP/%*d.%*d %d", &code) == 1 && code > 0]. *)
Definition http_status_of (buf : string) : Z :=
  default 0 (
    s ← (if starts_with "HTTP/" buf then Some (drop_chars 5 buf) else None);
    '(_, s) ← strtoZ s;
    s ← (match s with
         | String a s => if aeq a (ch 46) then Some s else None
         | EmptyString => None
         end);
    '(_, s) ← strtoZ s;
    '(code, _) ← strtoZ s;
    (if 0 <? i32 code then Some (i32 code) else None)).

(** The result is the body (cut to the caller's buffer), [None] for the return value
    -1, and the status code, 0 when none was parsed. *)
Definition http_get (host : string) (port : Z) (path : string) (out_sz : nat)
  : IO (option string * Z) := fun w =>
  if negb (env_open (w_trace w) host) then ((None, 0), w)
  else
    let req := http_request host port path in
    if strlen req >=? 512 then ((None, 0), w)
    else
      let w1 := w <| w_trace := EvHttp host port path :: w_trace w |> in
      match env_tcp (w_trace w) req with
      | None => ((None, 0), w1)
      | Some reply =>
          let buf := take_chars 2047 reply in
          match buf with
          | EmptyString => ((None, 0), w1)
          | _ =>
              let status := http_status_of buf in
              match strstr buf (CRLF ++ CRLF) with
              | None => ((None, status), w1)
              | Some p => ((Some (take_chars (out_sz - 1) (drop_chars 4 p)), status), w1)
              end
          end
      end.

(** [venc_apply]: bitrate and payload travel in one request. *)
Definition venc_path (bitrate_kbps payload_bytes : Z) : option string :=
  let br := if bitrate_kbps >? 200000 then 200000 else bitrate_kbps in
  if (bitrate_kbps >? 0) && (payload_bytes >? 0) then
    Some ("/api/v1/set?video0.bitrate=" ++ pretty br ++
          "&outgoing.maxPayloadSize=" ++ pretty payload_bytes)
  else if bitrate_kbps >? 0 then Some ("/api/v1/set?video0.bitrate=" ++ pretty br)
  else if payload_bytes >? 0 then
    Some ("/api/v1/set?outgoing.maxPayloadSize=" ++ pretty payload_bytes)
  else None.

Definition body_ok (body : string) : bool :=
  (contains body (quoted "ok" ++ ":true") || contains body (quoted "ok" ++ ": true")).

Definition venc_apply (host : string) (port bitrate_kbps payload_bytes : Z) : IO Z :=
  match venc_path bitrate_kbps payload_bytes with
  | None => io_ret (-1)
  | Some path =>
      if strlen path >=? 160 then io_ret (-1)
      else
        let! r := http_get host port path 1024 in
        io_ret (match fst r with
                | Some (String _ _ as body) => if body_ok body then 0 else -1
                | _ => -1
                end)
  end.

(** *** Child processes *)

Definition wfb_run_iw_txpower (iface : string) (mbm : Z) : IO Z := fun w =>
  match iface with
  | EmptyString => (-1, w)
  | _ => (env_iw_txpower (w_trace w) iface mbm,
          w <| w_trace := EvIwTxpower iface mbm :: w_trace w |>)
  end.

Definition wfb_run_ip_link_mtu (iface : string) (mtu : Z) : IO Z := fun w =>
  if String.eqb iface "" || (mtu <=? 0) then (-1, w)
  else (env_ip_mtu (w_trace w) iface mtu, w <| w_trace := EvIpMtu iface mtu :: w_trace w |>).

Definition wfb_run_recovery_cmd (cmd : string) : IO Z := fun w =>
  match cmd with
  | EmptyString => (-1, w)
  | _ => (env_recovery_cmd (w_trace w) cmd,
          w <| w_trace := EvRecoveryCmd cmd :: w_trace w |>)
  end.

Definition csa_run_iw (iface : string) (chan : Z) (ht : string) : IO Z := fun w =>
  (env_iw_channel (w_trace w) iface chan ht,
   w <| w_trace := EvIwChannel iface chan ht :: w_trace w |>).
End Peers.

(** ** What the helpers do to the peers *)

Local Open Scope list_scope.

Section Performs.
Context {EV : Env}.
Implicit Types P Q : Event -> Prop.

(** A computation that adds nothing, or one event. *)
Local Ltac solve_extends :=
  repeat (case_match || case_bool); first
  [ by apply extends_none
  | eapply extends_one; [reflexivity|by auto] ].

Lemma performs_now P : (forall t, P (EvNow t)) -> performs P now_us.
Proof. intros H w. by eapply extends_one. Qed.

Lemma performs_ctl P host port c min_len :
  (forall id, P (EvCtl host port id c)) -> performs P (ctl_round_trip host port c min_len).
Proof.
  intros H w. unfold ctl_round_trip.
  solve_extends.
Qed.

Lemma performs_set_fec P host port k n :
  (forall id, P (EvCtl host port id (CtlSetFec (u8 k) (u8 n) WFB_FEC_TIMEOUT_KEEP))) ->
  performs P (wfb_send_set_fec host port k n).
Proof.
  intros H w. unfold wfb_send_set_fec.
  solve_extends.
Qed.

Lemma performs_http P host port path n :
  P (EvHttp host port path) -> performs P (http_get host port path n).
Proof.
  intros H w. unfold http_get. solve_extends.
Qed.

Lemma performs_iw_txpower P iface mbm :
  P (EvIwTxpower iface mbm) -> performs P (wfb_run_iw_txpower iface mbm).
Proof.
  intros H w. unfold wfb_run_iw_txpower.
  solve_extends.
Qed.

Lemma performs_ip_mtu P iface mtu :
  P (EvIpMtu iface mtu) -> performs P (wfb_run_ip_link_mtu iface mtu).
Proof.
  intros H w. unfold wfb_run_ip_link_mtu.
  solve_extends.
Qed.

Lemma performs_recovery_cmd P cmd :
  P (EvRecoveryCmd cmd) -> performs P (wfb_run_recovery_cmd cmd).
Proof.
  intros H w. unfold wfb_run_recovery_cmd.
  solve_extends.
Qed.

Lemma performs_run_iw P iface chan ht :
  P (EvIwChannel iface chan ht) -> performs P (csa_run_iw iface chan ht).
Proof. intros H w. by eapply extends_one. Qed.

(** [venc_apply] sends at most the one request its arguments describe. *)
Lemma performs_venc P host port kbps payload :
  (forall path, venc_path kbps payload = Some path -> P (EvHttp host port path)) ->
  performs P (venc_apply host port kbps payload).
Proof.
  intros H. unfold venc_apply. destruct (venc_path kbps payload) as [path|] eqn:E;
    [|apply performs_ret].
  case_bool; [apply performs_ret|].
  apply performs_bind; [by apply performs_http, H|]. intros. apply performs_ret.
Qed.
End Performs.

#[export] Hint Resolve performs_now performs_ctl performs_set_fec performs_http
  performs_iw_txpower performs_recovery_cmd performs_run_iw performs_venc : performs.

Section Yields.
Context {EV : Env}.

Local Ltac solve_at_most :=
  repeat (case_match || case_bool);
  first [by apply at_most_none | by apply at_most_one].

Lemma yields_now : yields now_us (fun t es => es = [EvNow t]).
Proof. intros w. by exists [EvNow (env_now (w_trace w))]. Qed.

Lemma yields_iw_txpower iface mbm :
  yields (wfb_run_iw_txpower iface mbm) (fun _ es => at_most (EvIwTxpower iface mbm) es).
Proof. intros w. unfold wfb_run_iw_txpower. solve_at_most. Qed.

Lemma yields_recovery_cmd cmd :
  yields (wfb_run_recovery_cmd cmd) (fun _ es => at_most (EvRecoveryCmd cmd) es).
Proof. intros w. unfold wfb_run_recovery_cmd. solve_at_most. Qed.

Lemma yields_run_iw iface chan ht :
  yields (csa_run_iw iface chan ht) (fun _ es => es = [EvIwChannel iface chan ht]).
Proof. intros w. by exists [EvIwChannel iface chan ht]. Qed.

Lemma yields_http host port path n :
  yields (http_get host port path n) (fun _ es => at_most (EvHttp host port path) es).
Proof. intros w. unfold http_get. solve_at_most. Qed.

Lemma yields_ctl host port c min_len :
  yields (ctl_round_trip host port c min_len)
    (fun _ es => exists id, at_most (EvCtl host port id c) es).
Proof.
  intros w. assert (exists es, w_trace (ctl_round_trip host port c min_len w).2 = es ++ w_trace w
    /\ at_most (EvCtl host port (w_req_id w) c) es) as (es & ? & ?).
  { unfold ctl_round_trip. solve_at_most. }
  by exists es; eauto.
Qed.

Lemma yields_get_fec host port :
  yields (wfb_get_fec host port) (fun _ es => exists id, at_most (EvCtl host port id CtlGetFec) es).
Proof. apply yields_map, yields_ctl. Qed.

Lemma yields_get_radio host port :
  yields (wfb_get_radio host port)
    (fun _ es => exists id, at_most (EvCtl host port id CtlGetRadio) es).
Proof. apply yields_map, yields_ctl. Qed.

Lemma yields_get_peek host port :
  yields (wfb_get_peek host port)
    (fun _ es => exists id, at_most (EvCtl host port id CtlGetPeek) es).
Proof. apply yields_map, yields_ctl. Qed.

Lemma yields_set_peek host port e :
  yields (wfb_set_peek host port e)
    (fun _ es => exists id, at_most (EvCtl host port id (CtlSetPeek (u8 e))) es).
Proof. apply yields_map, yields_ctl. Qed.

Lemma yields_set_radio host port body :
  yields (wfb_set_radio host port body)
    (fun _ es => exists id, at_most (EvCtl host port id (CtlSetRadio (norm_radio body))) es).
Proof. apply yields_map, yields_ctl. Qed.

Lemma yields_set_fec host port k n :
  yields (wfb_send_set_fec host port k n) (fun _ es => exists id,
    at_most (EvCtl host port id (CtlSetFec (u8 k) (u8 n) WFB_FEC_TIMEOUT_KEEP)) es).
Proof.
  intros w. assert (exists es, w_trace (wfb_send_set_fec host port k n w).2 = es ++ w_trace w
    /\ at_most (EvCtl host port (w_req_id w) (CtlSetFec (u8 k) (u8 n) WFB_FEC_TIMEOUT_KEEP)) es)
    as (es & ? & ?).
  { unfold wfb_send_set_fec. solve_at_most. }
  by exists es; eauto.
Qed.
End Yields.

#[export] Hint Resolve yields_now yields_iw_txpower yields_recovery_cmd yields_run_iw
  yields_http yields_ctl yields_get_fec yields_get_radio yields_get_peek yields_set_peek
  yields_set_radio yields_set_fec : yields.

(** Requests that change something outside, as opposed to readings. *)
Definition mutates (e : Event) : bool :=
  match e with
  | EvNow _ | EvSubscribe | EvProbeFeed _ _ | EvReply _ => false
  | EvCtl _ _ _ (CtlGetFec | CtlGetRadio | CtlGetPeek) => false
  | _ => true
  end.

Definition mutations (es : list Event) : nat := length (List.filter mutates es).

Lemma mutations_app es fs : mutations (es ++ fs) = (mutations es + mutations fs)%nat.
Proof. unfold mutations. rewrite List.filter_app. apply length_app. Qed.

Lemma mutations_at_most e es : at_most e es -> (mutations es <= 1)%nat.
Proof. intros [-> | ->]; cbn; [lia|]. unfold mutations. cbn. destruct (mutates e); cbn; lia. Qed.

Lemma mutations_read e es : at_most e es -> mutates e = false -> mutations es = 0%nat.
Proof. intros [-> | ->] H; [done|]. unfold mutations. cbn. by rewrite H. Qed.

(** ** A concrete peer

    Peers that accept everything: [wfb_tx] echoes the request id with status 0, the
    encoder answers a GET with the body ["{"ok":true}"], children exit with 0, and the
    clock stands at zero.  Used to instantiate theorems at concrete inputs. *)

Definition peer_reply : string :=
  "HTTP/1.0 200 OK" +:+ CRLF +:+ CRLF +:+ "{" +:+ quoted "ok" +:+ ":true}".

Definition peer_ok : Env := {|
  env_now := fun _ => 0;
  env_open := fun _ _ => true;
  env_ctl_sent := fun _ _ => true;
  env_ctl_reply := fun _ req => Some (take 4 req ++ [0; 0; 0; 0] ++ replicate 7 1);
  env_tcp := fun _ _ => Some peer_reply;
  env_iw_txpower := fun _ _ _ => 0;
  env_iw_channel := fun _ _ _ _ => 0;
  env_ip_mtu := fun _ _ _ => 0;
  env_recovery_cmd := fun _ _ => 0
|}.

Example peer_venc_ok :
  (@venc_apply peer_ok "127.0.0.1" 80 8000 1400 world_init).1 = 0.
Proof. vm_compute. reflexivity. Qed.
