(* ===== verification/Ring.v ===== *)
(** * Circular buffers

    The source keeps rolling windows in fixed arrays with a [head] (next slot to
    write) and a [count] of live entries: [HeadroomRing] (frame sizes), the selector's
    [changes_us] ring.  This file gives their common index arithmetic: the view of such a
    buffer as the list of its live entries, oldest first, and what a push and the
    removal of the oldest entry do to the view. *)

From S2P Require Import Prelude.

(** C's [%]. *)
Definition cmod (x y : Z) : Z := Z.rem x y.

Lemma cmod_mod x y : 0 <= x -> 0 < y -> cmod x y = x mod y.
Proof. intros. apply Z.rem_mod_nonneg; lia. Qed.

(** Entries at or after the first that satisfies [f]. *)
Fixpoint drop_until {A} (f : A -> bool) (l : list A) : list A :=
  match l with
  | [] => []
  | x :: l' => if f x then l else drop_until f l'
  end.

(** Nonempty queue bounded by [n]: append and, when full, forget the oldest. *)
Definition bounded_push {A} (n : nat) (l : list A) (x : A) : list A :=
  (if (length l <? n)%nat then l else tail l) ++ [x].

Lemma bounded_push_length {A} (n : nat) (l : list A) (x : A) :
  (0 < n)%nat -> (length l <= n)%nat -> (length (bounded_push n l x) <= n)%nat.
Proof.
  intros Hn Hl. unfold bounded_push. rewrite length_app. cbn [length].
  destruct (Nat.ltb_spec (length l) n) as [H | H]; [lia|].
  destruct l as [|y l]; cbn [length tail] in *; lia.
Qed.

Lemma drop_until_suffix {A} (f : A -> bool) l : drop_until f l `suffix_of` l.
Proof.
  induction l as [|x l IH]; cbn; [done|].
  destruct (f x); [done|]. by apply suffix_cons_r.
Qed.

Lemma drop_until_head {A} (f : A -> bool) l x l' :
  drop_until f l = x :: l' -> f x = true.
Proof.
  induction l as [|y l IH]; cbn; [done|]. destruct (f y) eqn:E; [|done].
  by intros [= <- _].
Qed.

Section Ring.
Variable N : Z.
Hypothesis N_pos : 0 < N.

(** Live slots, oldest first. *)
Definition ring_slot (head count i : Z) : Z := (head - count + i) mod N.
Definition ring_view {A} `{!Inhabited A} (arr : list A) (head count : Z) : list A :=
  map (fun i => arr !!! Z.to_nat (ring_slot head count (Z.of_nat i)))
      (seq 0 (Z.to_nat count)).

(** Shape every operation maintains. *)
Definition ring_ok {A} (arr : list A) (head count : Z) : Prop :=
  length arr = Z.to_nat N /\ 0 <= head < N /\ 0 <= count <= N.

Definition next_count (count : Z) : Z := if count <? N then count + 1 else count.
Definition next_head (head : Z) : Z := cmod (head + 1) N.

Lemma ring_view_length {A} `{!Inhabited A} (arr : list A) head count :
  length (ring_view arr head count) = Z.to_nat count.
Proof. unfold ring_view. by rewrite length_map, length_seq. Qed.

Lemma ring_ok_push {A} (arr : list A) head count x :
  ring_ok arr head count ->
  ring_ok (<[Z.to_nat head := x]> arr) (next_head head) (next_count count).
Proof.
  intros (Hl & Hh & Hc). unfold ring_ok, next_head, next_count.
  rewrite length_insert, cmod_mod by lia. split; [done|].
  split; [apply Z.mod_pos_bound; lia|]. destruct (Z.ltb_spec count N); lia.
Qed.

Lemma ring_ok_drop {A} (arr : list A) head count :
  ring_ok arr head count -> 0 < count -> ring_ok arr head (count - 1).
Proof. intros (? & ? & ?) ?. unfold ring_ok. split_and!; try done; lia. Qed.

(** The slot of the oldest entry as the source computes it. *)
Lemma oldest_slot head count :
  0 <= head < N -> 0 <= count <= N ->
  cmod (head - count + N) N = ring_slot head count 0.
Proof.
  intros. unfold ring_slot. rewrite cmod_mod by lia.
  replace (head - count + N) with (head - count + 0 + 1 * N) by lia.
  apply Z_mod_plus_full.
Qed.

Lemma ring_view_drop {A} `{!Inhabited A} (arr : list A) head count :
  0 < count ->
  ring_view arr head count =
    arr !!! Z.to_nat (ring_slot head count 0) :: ring_view arr head (count - 1).
Proof.
  intros Hc. unfold ring_view.
  replace (Z.to_nat count) with (S (Z.to_nat (count - 1))) by lia.
  cbn [seq map]. f_equal. rewrite <- seq_shift, map_map.
  apply map_ext. intros i. unfold ring_slot. f_equal. f_equal. f_equal. lia.
Qed.

Lemma ring_slot_inj head count i j :
  0 <= i < N -> 0 <= j < N -> ring_slot head count i = ring_slot head count j -> i = j.
Proof.
  unfold ring_slot. intros Hi Hj E.
  assert ((i - j) mod N = 0) as E0.
  { replace (i - j) with ((head - count + i) - (head - count + j)) by lia.
    rewrite Zminus_mod, E, Z.sub_diag. apply Z.mod_0_l. lia. }
  apply Z.mod_divide in E0 as [q Hq]; [|lia].
  assert (q = 0) by nia. lia.
Qed.

(** Writing at [head] touches no live slot unless the buffer is full. *)
Lemma ring_view_insert {A} `{!Inhabited A} (arr : list A) head count x :
  ring_ok arr head count -> count < N ->
  ring_view (<[Z.to_nat head := x]> arr) head count = ring_view arr head count.
Proof.
  intros (Hl & Hh & Hc) Hlt. unfold ring_view. apply map_ext_in.
  intros i Hi%in_seq. apply list_lookup_total_insert_ne. intros E.
  assert (head = ring_slot head count (Z.of_nat i)) as E'.
  { unfold ring_slot in *.
    pose proof (Z.mod_pos_bound (head - count + Z.of_nat i) N N_pos). lia. }
  assert (ring_slot head count count = head) as Eh.
  { unfold ring_slot. replace (head - count + count) with head by lia.
    apply Z.mod_small. lia. }
  rewrite E' in Eh at 2. apply ring_slot_inj in Eh; lia.
Qed.

Lemma ring_view_shift {A} `{!Inhabited A} (arr : list A) head count :
  0 <= head < N ->
  ring_view arr (next_head head) (count + 1) = ring_view arr (head + 1) (count + 1).
Proof.
  intros. unfold ring_view, next_head. rewrite cmod_mod by lia.
  apply map_ext. intros i. unfold ring_slot. f_equal. f_equal.
  replace ((head + 1) mod N - (count + 1) + Z.of_nat i)
    with ((head + 1) mod N + (Z.of_nat i - (count + 1))) by lia.
  replace (head + 1 - (count + 1) + Z.of_nat i)
    with ((head + 1) + (Z.of_nat i - (count + 1))) by lia.
  apply Zplus_mod_idemp_l.
Qed.

(** One more entry: the view grows at its newest end. *)
Lemma ring_view_snoc {A} `{!Inhabited A} (arr : list A) head count x :
  ring_ok arr head count -> count < N ->
  ring_view (<[Z.to_nat head := x]> arr) (next_head head) (count + 1)
    = ring_view arr head count ++ [x].
Proof.
  intros Hok Hlt. pose proof Hok as (Hl & Hh & Hc).
  rewrite ring_view_shift by done.
  rewrite <- (ring_view_insert arr head count x) by done.
  unfold ring_view. replace (Z.to_nat (count + 1)) with (Z.to_nat count + 1)%nat by lia.
  rewrite seq_app, map_app. f_equal.
  - apply map_ext. intros i. unfold ring_slot. do 3 f_equal. lia.
  - cbn. f_equal. unfold ring_slot.
    replace (head + 1 - (count + 1) + Z.of_nat (Z.to_nat count)) with head by lia.
    rewrite Z.mod_small by lia. apply list_lookup_total_insert_eq. lia.
Qed.

(** Writing into a full buffer first forgets the oldest entry. *)
Lemma ring_view_full {A} `{!Inhabited A} (arr : list A) head x :
  ring_ok arr head N ->
  ring_view (<[Z.to_nat head := x]> arr) (next_head head) N
    = tail (ring_view arr head N) ++ [x].
Proof.
  intros Hok. pose proof Hok as (Hl & Hh & _).
  rewrite (ring_view_drop arr head N) by lia. cbn [tail].
  replace N with ((N - 1) + 1) at 1 by lia.
  rewrite ring_view_snoc; [done| |lia]. unfold ring_ok. split_and!; try done; lia.
Qed.

(** A push is the bounded queue's push. *)
Lemma ring_view_push {A} `{!Inhabited A} (arr : list A) head count x :
  ring_ok arr head count ->
  ring_view (<[Z.to_nat head := x]> arr) (next_head head) (next_count count)
    = bounded_push (Z.to_nat N) (ring_view arr head count) x.
Proof.
  intros Hok. pose proof Hok as (Hl & Hh & Hc).
  unfold bounded_push, next_count. rewrite ring_view_length.
  destruct (Z.ltb_spec count N) as [Hlt | Hge].
  - destruct (Nat.ltb_spec (Z.to_nat count) (Z.to_nat N)); [|lia].
    by apply ring_view_snoc.
  - destruct (Nat.ltb_spec (Z.to_nat count) (Z.to_nat N)); [lia|].
    assert (count = N) as -> by lia. by apply ring_view_full.
Qed.
End Ring.
