(* ===== verification/Fec.v ===== *)
(** * FEC block sizing

    The FEC subsystem of [vehicle/link_controller.c]: the redundancy curve, the ring
    of recent frame sizes and the headroom learned from it, the choice of [k] and [n]
    ([fec_compute]) and the controller that decides when a new pair is sent
    ([controller_update]). *)

From S2P Require Import Prelude CFloat Config Ring.

(** ** Redundancy curve *)

Definition REDUNDANCY_CURVE : list (Z * fp) :=
  [ (1, F32.lit 50 100); (4, F32.lit 33 100); (8, F32.lit 33 100);
    (16, F32.lit 30 100); (32, F32.lit 27 100); (48, F32.lit 25 100) ].

Fixpoint interp_segments (pts : list (Z * fp)) (k : Z) : fp :=
  match pts with
  | (k0, r0) :: (((k1, r1) :: _) as rest) =>
      if (k0 <=? k) && (k <=? k1) then
        let t := (F32.of_Z (k - k0) / F32.of_Z (k1 - k0))%f32 in
        (r0 + t * (r1 - r0))%f32
      else interp_segments rest k
  | [(_, r)] => r
  | [] => f0
  end.

Definition interpolate_redundancy (k : Z) : fp :=
  if k <=? 1 then F32.lit 50 100
  else if k >=? 48 then F32.lit 25 100
  else interp_segments REDUNDANCY_CURVE k.

(** ** Headroom ring *)

Definition RING_MAX : Z := 512.

Record HeadroomRing := Build_HeadroomRing {
  ring_ts_us : list Z; ring_size : list Z; ring_head : Z; ring_count : Z
}.

#[export] Instance eta_HeadroomRing : Eta HeadroomRing := fun r => Build_HeadroomRing
  (ring_ts_us r) (ring_size r) (ring_head r) (ring_count r).

Definition ring_zero : HeadroomRing := {|
  ring_ts_us := replicate 512 0; ring_size := replicate 512 0;
  ring_head := 0; ring_count := 0 |}.

Definition ring_push (r : HeadroomRing) (ts sz : Z) : HeadroomRing := {|
  ring_ts_us := <[Z.to_nat (ring_head r) := ts]> (ring_ts_us r);
  ring_size := <[Z.to_nat (ring_head r) := sz]> (ring_size r);
  ring_head := cmod (ring_head r + 1) RING_MAX;
  ring_count := if ring_count r <? RING_MAX then ring_count r + 1 else ring_count r |}.

Fixpoint ring_expire_loop (fuel : nat) (r : HeadroomRing) (cutoff_us : Z) : HeadroomRing :=
  match fuel with
  | O => r
  | S fuel =>
      if ring_count r >? 0 then
        let oldest := cmod (ring_head r - ring_count r + RING_MAX) RING_MAX in
        if ring_ts_us r !!! Z.to_nat oldest >=? cutoff_us then r
        else ring_expire_loop fuel (r <| ring_count := ring_count r - 1 |>) cutoff_us
      else r
  end.

(** The loop removes one entry per turn: [ring_count] turns are enough. *)
Definition ring_expire (r : HeadroomRing) (cutoff_us : Z) : HeadroomRing :=
  ring_expire_loop (Z.to_nat (ring_count r)) r cutoff_us.

(** The sizes the headroom loop reads, newest first. *)
Definition ring_recent (r : HeadroomRing) : list Z :=
  map (fun i => ring_size r !!! Z.to_nat
                  (cmod (ring_head r - 1 - Z.of_nat i + RING_MAX) RING_MAX))
      (seq 0 (Z.to_nat (ring_count r))).

Definition compute_headroom (r : HeadroomRing) (margin lo hi : fp) : fp :=
  if ring_count r <? 2 then lo
  else
    let '(sum, mx) :=
      foldl (fun '(s, m) v => (u64 (s + v), if v >? m then v else m)) (0, 0) (ring_recent r) in
    let avg := (F32.of_Z sum / F32.of_Z (ring_count r))%f32 in
    if fle avg f0 then lo
    else
      let ratio := (F32.of_Z mx / avg * margin)%f32 in
      let ratio := if flt ratio lo then lo else ratio in
      if flt hi ratio then hi else ratio.

(** ** Sizing *)

Record FecParams := Build_FecParams {
  fp_k : Z; fp_n : Z; fp_redundancy : fp; fp_packets_per_frame : Z;
  fp_avg_frame_size : fp; fp_headroom : fp
}.

Definition fec_params_zero : FecParams := Build_FecParams 0 0 f0 0 f0 f0.

(** Packets per frame before and after the dead band around the current value. *)
Definition raw_ppf (target : fp) (mtu : Z) : Z :=
  let ppf := f_to_int (fceil (target / F32.of_Z mtu)%f32) in
  if ppf <? 1 then 1 else ppf.

Definition deadband_ppf (cfg : Config) (target : fp) (ppf current_ppf : Z) : Z :=
  let f := cfg_fec cfg in
  let mtu := F32.of_Z (fec_mtu f) in
  if (current_ppf >? 0) && flt f0 (fec_ppf_deadband_frac f) then
    let slack := (mtu * fec_ppf_deadband_frac f)%f32 in
    let up_edge := (F32.of_Z (current_ppf + 1) * mtu + slack)%f32 in
    let down_edge := (F32.of_Z (current_ppf - 1) * mtu - slack)%f32 in
    if (ppf >? current_ppf) && flt target up_edge then current_ppf
    else if (ppf <? current_ppf) && flt down_edge target then current_ppf
    else ppf
  else ppf.

Definition clamp_k (cfg : Config) (ppf : Z) : Z :=
  let f := cfg_fec cfg in
  let k := ppf in
  let k := if k <? fec_min_k f then fec_min_k f else k in
  let k := if k >? fec_max_k f then fec_max_k f else k in
  if (fec_max_n f >? fec_min_k f) && (k >=? fec_max_n f) then fec_max_n f - 1 else k.

Definition curve_r (k : Z) : fp :=
  let r := interpolate_redundancy k in
  if flt (F32.lit 99 100) r then F32.lit 99 100 else r.

Definition raw_n (k : Z) : Z :=
  f_to_int (fceil (F32.of_Z k / (F32.of_Z 1 - curve_r k))%f32).

Definition clamp_n (cfg : Config) (k : Z) : Z :=
  let f := cfg_fec cfg in
  let n := raw_n k in
  let n := if n <? fec_min_n f then fec_min_n f else n in
  let n := if n >? fec_max_n f then fec_max_n f else n in
  if n <=? k then k + 1 else n.

Definition fec_compute (avg_size headroom : fp) (cfg : Config) (current_ppf : Z) : FecParams :=
  let target := (avg_size * headroom)%f32 in
  let ppf := deadband_ppf cfg target (raw_ppf target (fec_mtu (cfg_fec cfg))) current_ppf in
  let k := clamp_k cfg ppf in
  {| fp_k := k; fp_n := clamp_n cfg k; fp_redundancy := curve_r k;
     fp_packets_per_frame := ppf; fp_avg_frame_size := avg_size; fp_headroom := headroom |}.

(** ** The controller *)

Record Controller := Build_Controller {
  avg_frame_size : fp;
  current : FecParams;
  have_current : bool;
  last_update_us : Z;
  start_us : Z;
  update_count : Z;
  bitrate_grace_until_us : Z;
  was_in_grace : bool;
  k_down_pending_since_us : Z;
  k_down_pending_target : Z;
  k_up_pending_since_us : Z;
  k_up_pending_target : Z;
  bitrate_up_lock_until_us : Z;
  ff_last_commit_us : Z;
  last_committed_kbps : Z
}.

#[export] Instance eta_Controller : Eta Controller := fun c => Build_Controller
  (avg_frame_size c) (current c) (have_current c) (last_update_us c) (start_us c)
  (update_count c) (bitrate_grace_until_us c) (was_in_grace c)
  (k_down_pending_since_us c) (k_down_pending_target c) (k_up_pending_since_us c)
  (k_up_pending_target c) (bitrate_up_lock_until_us c) (ff_last_commit_us c)
  (last_committed_kbps c).

Definition controller_zero : Controller :=
  Build_Controller f0 fec_params_zero false 0 0 0 0 false 0 0 0 0 0 0 0.

(** [(uint64_t)(secs * 1e6f)] and [(float)us / 1e6f]. *)
Definition secs_to_us (secs : fp) : Z := f_to_u64 (secs * F32.of_Z 1000000)%f32.
Definition us_to_secs (us : Z) : fp := (F32.of_Z us / F32.of_Z 1000000)%f32.

Definition controller_arm_settle (c : Controller) (now : Z) (secs : fp) : Controller :=
  let new_end := u64 (now + secs_to_us secs) in
  if new_end >? bitrate_grace_until_us c
  then c <| bitrate_grace_until_us := new_end |> else c.

Definition clear_pending (c : Controller) : Controller :=
  c <| k_down_pending_since_us := 0 |> <| k_down_pending_target := 0 |>
    <| k_up_pending_since_us := 0 |> <| k_up_pending_target := 0 |>.

Definition controller_commit (c : Controller) (cand : FecParams) (now : Z) : Controller :=
  clear_pending (c <| current := cand |> <| last_update_us := now |>
                   <| update_count := u32 (update_count c + 1) |>).

(** The measurements of one frame: start time, ring, size average. *)
Definition controller_measure (c : Controller) (cfg : Config) (frame_size : Z)
    (ring : HeadroomRing) (now : Z) : Controller * HeadroomRing :=
  let f := cfg_fec cfg in
  let c := if start_us c =? 0 then c <| start_us := now |> else c in
  let ring := ring_push ring now frame_size in
  let cutoff :=
    u64 (now - f_to_u64 (to_f64 (fec_headroom_window_s f) * F64.of_Z 1000000)%f64) in
  let ring := ring_expire ring cutoff in
  let fs := F32.of_Z frame_size in
  let avg :=
    if fle (avg_frame_size c) f0 then fs
    else (fec_ewma_alpha f * fs + (F32.of_Z 1 - fec_ewma_alpha f) * avg_frame_size c)%f32 in
  (c <| avg_frame_size := avg |>, ring).

(** The candidate pair, and whether the committed bitrate sized it (feed-forward). *)
Definition controller_candidate (c : Controller) (cfg : Config) (ring : HeadroomRing)
    (fps : fp) (committed_kbps : Z) : FecParams * bool :=
  let f := cfg_fec cfg in
  let headroom := compute_headroom ring (fec_headroom_margin f)
                    (fec_headroom_min f) (fec_headroom_max f) in
  let cur_ppf := if have_current c then fp_packets_per_frame (current c) else 0 in
  let ff_bytes := (F32.of_Z committed_kbps * F32.of_Z 1000 / F32.of_Z 8 / fps)%f32 in
  let ff_active := fec_blocksize_feedforward f && (committed_kbps >? 0) &&
                   flt (F32.lit 1 10) fps && flt f0 ff_bytes in
  let size_basis := if ff_active then ff_bytes else avg_frame_size c in
  (fec_compute size_basis headroom cfg cur_ppf, ff_active).

Definition in_startup_grace (c : Controller) (cfg : Config) (now : Z) : bool :=
  u64 (now - start_us c) <? secs_to_us (fec_startup_grace_s (cfg_fec cfg)).
Definition in_settle_grace (c : Controller) (now : Z) : bool :=
  negb (bitrate_grace_until_us c =? 0) && (now <? bitrate_grace_until_us c).

Definition op_point_moved (c : Controller) (cfg : Config) (committed_kbps : Z) : bool :=
  (last_committed_kbps c <=? 0) ||
  flt (fec_bitrate_tolerance (cfg_fec cfg) * F32.of_Z committed_kbps)%f32
      (fabs (F32.of_Z (committed_kbps - last_committed_kbps c))).

(** The hysteresis path: dwell timers for a smaller and a larger block. *)
Definition controller_hysteresis (c : Controller) (cfg : Config) (cand : FecParams) (now : Z)
    : Controller * option FecParams :=
  let f := cfg_fec cfg in
  let commit c := (controller_commit c cand now, Some cand) in
  let k_delta := fp_k cand - fp_k (current c) in
  if k_delta <? 0 then
    let c := c <| k_up_pending_since_us := 0 |> <| k_up_pending_target := 0 |> in
    let c := if k_down_pending_since_us c =? 0 then c <| k_down_pending_since_us := now |> else c in
    let c := c <| k_down_pending_target := fp_k cand |> in
    let held_s := us_to_secs (u64 (now - k_down_pending_since_us c)) in
    if flt held_s (fec_k_down_dwell_s f) then (c, None) else commit c
  else
    let c := c <| k_down_pending_since_us := 0 |> <| k_down_pending_target := 0 |> in
    if k_delta =? 0 then
      let c := c <| k_up_pending_since_us := 0 |> <| k_up_pending_target := 0 |> in
      if negb (fp_n cand =? fp_n (current c)) then commit c else (c, None)
    else
      let c := if k_up_pending_since_us c =? 0 then c <| k_up_pending_since_us := now |> else c in
      let c := c <| k_up_pending_target := fp_k cand |> in
      let up_held_s := us_to_secs (u64 (now - k_up_pending_since_us c)) in
      if flt up_held_s (fec_k_up_dwell_s f) then (c, None)
      else if k_delta <? fec_k_hyst_up f then (c, None)
      else
        let elapsed := us_to_secs (u64 (now - last_update_us c)) in
        if flt elapsed (fec_cooldown_up_s f) then (c, None) else commit c.

(** The decision, given the candidate. *)
Definition controller_decide (c : Controller) (cfg : Config) (cand : FecParams)
    (ff_active : bool) (now committed_kbps : Z) : Controller * option FecParams :=
  let f := cfg_fec cfg in
  let commit c := (controller_commit c cand now, Some cand) in
  let startup := in_startup_grace c cfg now in
  let settle := in_settle_grace c now in
  let in_grace := startup || settle in
  let settle_just_ended := was_in_grace c && negb settle in
  let c := c <| was_in_grace := settle |> in
  if negb (have_current c) then
    if in_grace then (c, None) else commit (c <| have_current := true |>)
  else
    let moved := op_point_moved c cfg committed_kbps in
    let c := if committed_kbps >? 0 then c <| last_committed_kbps := committed_kbps |> else c in
    if ff_active && negb startup && negb (fp_k cand =? fp_k (current c)) && moved then
      let ff_cd := secs_to_us (fec_ff_cooldown_s f) in
      if (ff_last_commit_us c =? 0) || (ff_cd =? 0) || (u64 (now - ff_last_commit_us c) >=? ff_cd)
      then commit (c <| ff_last_commit_us := now |>)
      else (c, None)
    else if in_grace then (c, None)
    else if settle_just_ended then
      if (fp_k cand =? fp_k (current c)) && (fp_n cand =? fp_n (current c)) then (c, None)
      else commit c
    else controller_hysteresis c cfg cand now.

Definition controller_update (c : Controller) (cfg : Config) (frame_size : Z)
    (ring : HeadroomRing) (now : Z) (fps : fp) (committed_kbps : Z)
    : Controller * HeadroomRing * option FecParams :=
  let '(c, ring) := controller_measure c cfg frame_size ring now in
  let '(cand, ff_active) := controller_candidate c cfg ring fps committed_kbps in
  let '(c, out) := controller_decide c cfg cand ff_active now committed_kbps in
  (c, ring, out).

(** ** Frame-rate estimate *)

Record FpsEst := Build_FpsEst { prev_ready_us : Z; ewma_period_us : fp; have_prev : bool }.

#[export] Instance eta_FpsEst : Eta FpsEst := fun f =>
  Build_FpsEst (prev_ready_us f) (ewma_period_us f) (have_prev f).

Definition fps_zero : FpsEst := Build_FpsEst 0 f0 false.

Definition fps_feed (f : FpsEst) (ready_us : Z) : FpsEst :=
  if negb (have_prev f) then f <| prev_ready_us := ready_us |> <| have_prev := true |>
  else
    let dt := u64 (ready_us - prev_ready_us f) in
    if (dt =? 0) || (dt >? 1000000) then f <| prev_ready_us := ready_us |>
    else
      let period :=
        if fle (ewma_period_us f) f0 then F32.of_Z dt
        else (F32.lit 1 10 * F32.of_Z dt + F32.lit 9 10 * ewma_period_us f)%f32 in
      f <| ewma_period_us := period |> <| prev_ready_us := ready_us |>.

Definition fps_get (f : FpsEst) : fp :=
  if fle (ewma_period_us f) f0 then f0 else (F32.of_Z 1000000 / ewma_period_us f)%f32.

(** ** The ring as a queue

    [ring_ok] is the shape every operation keeps; [ring_entries] is what the ring means:
    the live (timestamp, size) pairs, oldest first. *)

Lemma RING_MAX_pos : 0 < RING_MAX.
Proof. reflexivity. Qed.

Definition headroom_ring_ok (r : HeadroomRing) : Prop :=
  ring_ok RING_MAX (ring_ts_us r) (ring_head r) (ring_count r) /\
  ring_ok RING_MAX (ring_size r) (ring_head r) (ring_count r).

Definition ring_stamps (r : HeadroomRing) : list Z :=
  ring_view RING_MAX (ring_ts_us r) (ring_head r) (ring_count r).
Definition ring_sizes (r : HeadroomRing) : list Z :=
  ring_view RING_MAX (ring_size r) (ring_head r) (ring_count r).
Definition ring_entries (r : HeadroomRing) : list (Z * Z) :=
  zip (ring_stamps r) (ring_sizes r).

Lemma headroom_ring_zero_ok : headroom_ring_ok ring_zero.
Proof. vm_compute. intuition discriminate. Qed.

Lemma ring_push_ok r ts sz : headroom_ring_ok r -> headroom_ring_ok (ring_push r ts sz).
Proof.
  intros [H1 H2]. split; cbn; eapply (ring_ok_push RING_MAX RING_MAX_pos); eassumption.
Qed.

Lemma ring_entries_length r :
  headroom_ring_ok r -> length (ring_entries r) = Z.to_nat (ring_count r).
Proof.
  intros _. unfold ring_entries. rewrite length_zip.
  unfold ring_stamps, ring_sizes. rewrite !ring_view_length. lia.
Qed.

Lemma zip_bounded_push {A B} (n : nat) (l : list A) (k : list B) x y :
  length l = length k ->
  zip (bounded_push n l x) (bounded_push n k y) = bounded_push n (zip l k) (x, y).
Proof.
  intros E. unfold bounded_push. rewrite length_zip, E, Nat.min_id.
  destruct (length k <? n)%nat.
  - by rewrite zip_with_app by done.
  - rewrite zip_with_app.
    + f_equal. by destruct l, k.
    + destruct l, k; cbn in *; congruence.
Qed.

Lemma ring_push_entries r ts sz :
  headroom_ring_ok r ->
  ring_entries (ring_push r ts sz) = bounded_push 512 (ring_entries r) (ts, sz).
Proof.
  intros [H1 H2]. unfold ring_entries, ring_stamps, ring_sizes. cbn [ring_push
    ring_ts_us ring_size ring_head ring_count].
  change (cmod (ring_head r + 1) RING_MAX) with (next_head RING_MAX (ring_head r)).
  change (if ring_count r <? RING_MAX then ring_count r + 1 else ring_count r)
    with (next_count RING_MAX (ring_count r)).
  rewrite !(ring_view_push RING_MAX RING_MAX_pos) by done.
  apply zip_bounded_push. by rewrite !ring_view_length.
Qed.

Lemma ring_entries_uncons r :
  headroom_ring_ok r -> 0 < ring_count r ->
  ring_entries r =
    (ring_ts_us r !!! Z.to_nat (cmod (ring_head r - ring_count r + RING_MAX) RING_MAX),
     ring_size r !!! Z.to_nat (cmod (ring_head r - ring_count r + RING_MAX) RING_MAX))
    :: ring_entries (r <| ring_count := ring_count r - 1 |>).
Proof.
  intros [(? & ? & ?) _] Hc. unfold ring_entries, ring_stamps, ring_sizes. cbn.
  rewrite !(ring_view_drop RING_MAX _ _ (ring_count r)) by done.
  by rewrite oldest_slot by (done || apply RING_MAX_pos).
Qed.

Lemma ring_drop_ok r :
  headroom_ring_ok r -> 0 < ring_count r ->
  headroom_ring_ok (r <| ring_count := ring_count r - 1 |>).
Proof. intros [H1 H2] ?. split; cbn; by apply ring_ok_drop. Qed.

(** With one turn per entry the loop reaches its exit condition. *)
Lemma ring_expire_loop_spec fuel r cutoff :
  headroom_ring_ok r -> ring_count r <= Z.of_nat fuel ->
  headroom_ring_ok (ring_expire_loop fuel r cutoff) /\
  ring_entries (ring_expire_loop fuel r cutoff)
    = drop_until (fun e => fst e >=? cutoff) (ring_entries r).
Proof.
  revert r. induction fuel as [|fuel IH]; intros r Hok Hf; cbn [ring_expire_loop].
  - split; [done|]. pose proof (ring_entries_length r Hok) as E.
    destruct Hok as [(_ & _ & ?) _]. replace (Z.to_nat (ring_count r)) with O in E by lia.
    by apply nil_length_inv in E as ->.
  - rewrite Z.gtb_ltb. destruct (Z.ltb_spec 0 (ring_count r)) as [Hc | Hc].
    + rewrite (ring_entries_uncons r) by done. cbn [drop_until fst].
      destruct (_ >=? cutoff); [by rewrite <- ring_entries_uncons|].
      apply IH; [by apply ring_drop_ok|cbn; lia].
    + split; [done|]. pose proof (ring_entries_length r Hok) as E.
      replace (Z.to_nat (ring_count r)) with O in E by lia.
      by apply nil_length_inv in E as ->.
Qed.

(** The circular buffer of frame sizes is a queue of at most 512 entries: a push
    appends (forgetting the oldest entry when full) and expiry removes exactly the
    entries before the first one that is recent enough; both keep the buffer's shape. *)
Theorem headroom_ring_refines_queue r ts sz cutoff :
  headroom_ring_ok r ->
  let r' := ring_expire (ring_push r ts sz) cutoff in
  headroom_ring_ok r' /\
  ring_entries r' =
    drop_until (fun e => fst e >=? cutoff) (bounded_push 512 (ring_entries r) (ts, sz)).
Proof.
  intros Hok. pose proof (ring_push_ok r ts sz Hok) as Hp.
  rewrite <- ring_push_entries by done. apply ring_expire_loop_spec; [done|].
  destruct Hp as [(_ & _ & ?) _]. lia.
Qed.

(** The headroom loop reads the queue from its newest end. *)
Lemma ring_recent_sizes r : headroom_ring_ok r -> ring_recent r = reverse (ring_sizes r).
Proof.
  intros [_ (Hl & Hh & Hc)]. unfold ring_recent, ring_sizes, ring_view.
  rewrite <- fmap_reverse. set (n := Z.to_nat (ring_count r)).
  apply list_eq. intros i. rewrite !list_lookup_fmap.
  destruct (decide (i < n)%nat) as [Hi | Hi].
  - rewrite reverse_lookup by (rewrite length_seq; lia).
    rewrite length_seq, !lookup_seq_lt by lia. cbn. do 3 f_equal.
    rewrite cmod_mod by (unfold RING_MAX in *; lia). unfold ring_slot.
    replace (ring_head r - 1 - Z.of_nat i + RING_MAX)
      with (ring_head r - ring_count r + Z.of_nat (0 + (n - S i)) + 1 * RING_MAX) by lia.
    apply Z_mod_plus_full.
  - rewrite !lookup_ge_None_2; [done| |]; rewrite ?length_reverse, length_seq; lia.
Qed.

(** ** Headroom *)

Definition sizes_u32 (r : HeadroomRing) : Prop :=
  Forall (fun v => 0 <= v < 2 ^ 32) (ring_sizes r).

Lemma headroom_fold_bounds l s m :
  Forall (fun v => 0 <= v < 2 ^ 32) l ->
  0 <= s -> s + Z.of_nat (length l) * 2 ^ 32 < 2 ^ 62 -> 0 <= m < 2 ^ 32 ->
  let '(s', m') :=
    foldl (fun '(s, m) v => (u64 (s + v), if v >? m then v else m)) (s, m) l in
  0 <= s' < 2 ^ 62 /\ 0 <= m' < 2 ^ 32.
Proof.
  intros Hl. revert s m. induction Hl as [|v l Hv Hl IH]; intros s m Hs Hsum Hm.
  - cbn in *. lia.
  - cbn [foldl length] in *. rewrite u64_small by lia.
    apply IH; [lia|lia|]. destruct (v >? m); lia.
Qed.

(** The ratio of the largest recent frame to the average one, times the margin, is a
    number: no division by zero, no 0 * infinity. *)
Lemma headroom_ratio_not_nan sum mx n margin :
  0 <= sum < 2 ^ 62 -> 0 <= mx < 2 ^ 32 -> 0 < n < 2 ^ 62 ->
  is_finite margin = true -> flt f0 margin = true ->
  fle (F32.of_Z sum / F32.of_Z n)%f32 f0 = false ->
  is_nan (F32.of_Z mx / (F32.of_Z sum / F32.of_Z n) * margin)%f32 = false.
Proof.
  intros Hs Hm Hn Hmf Hmp Havg.
  assert (is_nan (F32.of_Z sum / F32.of_Z n)%f32 = false) as Hnn.
  { apply div_not_nan; [apply of_Z_finite; lia|apply of_Z_not_nan|apply of_Z_pos; lia]. }
  apply mul_not_nan_r; [|done|done]. apply div_not_nan; [apply of_Z_finite; lia|done|].
  destruct (flt f0 (F32.of_Z sum / F32.of_Z n)%f32) eqn:E; [done|].
  rewrite (flt_false_fle f0 _ eq_refl Hnn E) in Havg. discriminate.
Qed.

(** The headroom multiplier stays in its configured window whatever the frame
    sizes were, including an empty history and frames of size zero. *)
Theorem compute_headroom_bounds r margin lo hi :
  headroom_ring_ok r -> sizes_u32 r ->
  fle lo hi = true -> is_finite margin = true -> flt f0 margin = true ->
  fle lo (compute_headroom r margin lo hi) = true /\
  fle (compute_headroom r margin lo hi) hi = true.
Proof.
  intros Hok Hsz Hlh Hmf Hmp. destruct (fle_not_nan _ _ Hlh) as [Hlo Hhi].
  assert (fle lo lo = true /\ fle lo hi = true) as Hbase by (split; [by apply fle_refl|done]).
  unfold compute_headroom. destruct (Z.ltb_spec (ring_count r) 2) as [|Hc]; [done|].
  rewrite ring_recent_sizes by done.
  pose proof (headroom_fold_bounds (reverse (ring_sizes r)) 0 0) as Hf.
  rewrite length_reverse in Hf. unfold ring_sizes in Hf at 2.
  rewrite ring_view_length in Hf.
  destruct Hok as [(_ & _ & Hcnt) _]. unfold RING_MAX in Hcnt.
  destruct (foldl _ _ _) as [sum mx].
  destruct Hf as [Hsum Hmx]; [by apply Forall_reverse|lia|lia|lia|].
  destruct (fle _ f0) eqn:Havg; [done|].
  assert (is_nan (F32.of_Z mx / (F32.of_Z sum / F32.of_Z (ring_count r)) * margin)%f32 = false)
    as Hr by (apply headroom_ratio_not_nan; try done; lia).
  split; [by apply (fclamp_ge_lo lo hi)|by apply (fclamp_le_hi lo hi)].
Qed.

(** ** Sizing *)

(** The configured windows are ordered and leave room for parity. *)
Definition fec_windows_ok (cfg : Config) : Prop :=
  let f := cfg_fec cfg in
  1 <= fec_min_k f <= fec_max_k f /\ fec_min_k f < fec_max_n f /\
  fec_min_n f <= fec_max_n f.

Definition fec_pair_ok (cfg : Config) (p : FecParams) : Prop :=
  let f := cfg_fec cfg in
  fec_min_k f <= fp_k p <= fec_max_k f /\ fp_k p < fp_n p <= fec_max_n f /\
  fec_min_n f <= fp_n p.

Lemma fec_pair_in_windows avg headroom cfg ppf :
  fec_windows_ok cfg -> fec_pair_ok cfg (fec_compute avg headroom cfg ppf).
Proof.
  unfold fec_windows_ok, fec_pair_ok, fec_compute, clamp_n, clamp_k.
  cbn [fp_k fp_n]. generalize (deadband_ppf cfg (avg * headroom)%f32
    (raw_ppf (avg * headroom)%f32 (fec_mtu (cfg_fec cfg))) ppf) as p.
  intros p H.
  destruct (p <? _) eqn:E1; repeat (case_bool; bool_hyps); lia.
Qed.

(** Whatever frame size and headroom the floats hold (NaN and infinities included),
    the chosen pair respects the configured windows and has at least one parity
    packet. *)
Theorem fec_compute_in_windows avg headroom cfg ppf :
  fec_windows_ok cfg -> fec_pair_ok cfg (fec_compute avg headroom cfg ppf).
Proof. apply fec_pair_in_windows. Qed.

(** ** The controller's decisions *)

(** What every step of the controller guarantees about the pair in use: an emitted pair
    becomes the current one, with its time stamped; a silent step leaves it alone. *)
Definition emits_current (c c' : Controller) (out : option FecParams) (now : Z) : Prop :=
  match out with
  | Some p => current c' = p /\ have_current c' = true /\ last_update_us c' = now /\
              update_count c' = u32 (update_count c + 1) /\
              k_down_pending_since_us c' = 0 /\ k_up_pending_since_us c' = 0
  | None => current c' = current c /\ have_current c' = have_current c /\
            last_update_us c' = last_update_us c /\ update_count c' = update_count c
  end.

Local Ltac solve_emits := repeat case_bool; cbn; repeat split; congruence.

Lemma hysteresis_emits c cfg cand now :
  have_current c = true ->
  emits_current c (controller_hysteresis c cfg cand now).1
    (controller_hysteresis c cfg cand now).2 now.
Proof.
  intros H. unfold controller_hysteresis.
  solve_emits.
Qed.

Lemma decide_emits c cfg cand ff now kbps :
  emits_current c (controller_decide c cfg cand ff now kbps).1
    (controller_decide c cfg cand ff now kbps).2 now.
Proof.
  unfold controller_decide. set (c1 := c <| was_in_grace := _ |>).
  destruct (have_current c1) eqn:H; cbn [negb]; [|subst c1; solve_emits].
  set (c2 := if kbps >? 0 then c1 <| last_committed_kbps := kbps |> else c1).
  assert (current c2 = current c /\ have_current c2 = have_current c /\
    last_update_us c2 = last_update_us c /\ update_count c2 = update_count c) as (E1 & E2 & E3 & E4)
    by (subst c2 c1; case_bool; done).
  change (have_current c1) with (have_current c) in H.
  pose proof (hysteresis_emits c2 cfg cand now ltac:(congruence)) as Hh.
  destruct (controller_hysteresis c2 cfg cand now) as [c3 [p|]]; cbn in Hh.
  all: rewrite ?E1, ?E2, ?E3, ?E4 in Hh.
  all: clearbody c2; repeat case_bool; try exact Hh; cbn; repeat split; congruence.
Qed.

Lemma hysteresis_emits_candidate c cfg cand now p :
  (controller_hysteresis c cfg cand now).2 = Some p -> p = cand.
Proof. unfold controller_hysteresis. repeat case_bool; cbn; congruence. Qed.

Lemma decide_emits_candidate c cfg cand ff now kbps p :
  (controller_decide c cfg cand ff now kbps).2 = Some p -> p = cand.
Proof.
  unfold controller_decide.
  repeat case_bool; try apply hysteresis_emits_candidate; cbn; congruence.
Qed.

Lemma measure_emits c cfg frame_size ring now c1 r1 c2 out :
  controller_measure c cfg frame_size ring now = (c1, r1) ->
  emits_current c1 c2 out now -> emits_current c c2 out now.
Proof.
  unfold controller_measure. intros E. injection E as <- _.
  destruct out; cbn; by case_bool.
Qed.

Lemma measure_ring_ok c cfg frame_size ring now c1 r1 :
  controller_measure c cfg frame_size ring now = (c1, r1) ->
  headroom_ring_ok ring -> headroom_ring_ok r1.
Proof.
  unfold controller_measure. intros E Hr. injection E as _ <-.
  apply ring_expire_loop_spec; [by apply ring_push_ok|lia].
Qed.

(** A feed-forward change is wanted: the committed bitrate moved and the block with it. *)
Definition feedforward_due (c : Controller) (cfg : Config) (cand : FecParams) (ff : bool)
    (now kbps : Z) : bool :=
  ff && negb (in_startup_grace c cfg now) && negb (fp_k cand =? fp_k (current c)) &&
  op_point_moved c cfg kbps.

(** The hysteresis path is satisfied: the shift of the block has been wanted for its
    dwell time (and, upwards, is large enough and clear of the last update), or only the
    parity changes. *)
Definition dwelt (c : Controller) (cfg : Config) (cand : FecParams) (now : Z) : Prop :=
  let f := cfg_fec cfg in
  let held t := us_to_secs (u64 (now - (if t =? 0 then now else t))) in
  (fp_k cand < fp_k (current c) /\
     flt (held (k_down_pending_since_us c)) (fec_k_down_dwell_s f) = false) \/
  (fp_k cand = fp_k (current c) /\ fp_n cand <> fp_n (current c)) \/
  (fp_k (current c) < fp_k cand /\ fec_k_hyst_up f <= fp_k cand - fp_k (current c) /\
     flt (held (k_up_pending_since_us c)) (fec_k_up_dwell_s f) = false /\
     flt (us_to_secs (u64 (now - last_update_us c))) (fec_cooldown_up_s f) = false).

(** (C12) One frame through the controller: the emitted pair is in the configured windows
    and becomes the current pair; without an emission the current pair, its time and the
    update count are untouched. The frame-size ring keeps its shape. *)
Theorem controller_update_contract c cfg frame_size ring now fps kbps :
  fec_windows_ok cfg -> headroom_ring_ok ring ->
  let '(c', ring', out) := controller_update c cfg frame_size ring now fps kbps in
  emits_current c c' out now /\ headroom_ring_ok ring' /\
  match out with Some p => fec_pair_ok cfg p | None => True end.
Proof.
  intros Hw Hr. unfold controller_update.
  destruct (controller_measure c cfg frame_size ring now) as [c1 r1] eqn:Em.
  destruct (controller_candidate c1 cfg r1 fps kbps) as [cand ff] eqn:Ec.
  destruct (controller_decide c1 cfg cand ff now kbps) as [c2 out] eqn:Ed.
  pose proof (decide_emits c1 cfg cand ff now kbps) as He. rewrite Ed in He. cbn in He.
  pose proof (decide_emits_candidate c1 cfg cand ff now kbps) as Hc. rewrite Ed in Hc.
  split; [|split].
  - eapply measure_emits; eassumption.
  - eapply measure_ring_ok; eassumption.
  - destruct out as [p|]; [|done]. rewrite (Hc p eq_refl).
    unfold controller_candidate in Ec. injection Ec as <- <-. by apply fec_pair_in_windows.
Qed.

(** ** When the controller emits

    The paths of [controller_update] as a specification: what has to hold of the state
    for the candidate to be sent. *)
Inductive emits (c : Controller) (cfg : Config) (cand : FecParams) (ff : bool)
    (now kbps : Z) : Prop :=
| emits_first :
    have_current c = false ->
    in_startup_grace c cfg now = false -> in_settle_grace c now = false ->
    emits c cfg cand ff now kbps
| emits_feedforward :
    have_current c = true -> ff = true -> in_startup_grace c cfg now = false ->
    fp_k cand <> fp_k (current c) -> op_point_moved c cfg kbps = true ->
    ff_last_commit_us c = 0 \/
    secs_to_us (fec_ff_cooldown_s (cfg_fec cfg)) <= u64 (now - ff_last_commit_us c) ->
    emits c cfg cand ff now kbps
| emits_realign :
    have_current c = true -> feedforward_due c cfg cand ff now kbps = false ->
    in_startup_grace c cfg now = false -> in_settle_grace c now = false ->
    was_in_grace c = true ->
    fp_k cand <> fp_k (current c) \/ fp_n cand <> fp_n (current c) ->
    emits c cfg cand ff now kbps
| emits_hysteresis :
    have_current c = true -> feedforward_due c cfg cand ff now kbps = false ->
    in_startup_grace c cfg now = false -> in_settle_grace c now = false ->
    was_in_grace c = false ->
    dwelt c cfg cand now -> emits c cfg cand ff now kbps.

Lemma hysteresis_emits_iff c cfg cand now :
  (controller_hysteresis c cfg cand now).2 = Some cand <-> dwelt c cfg cand now.
Proof.
  unfold controller_hysteresis, dwelt. cbn -[Z.sub Z.eqb us_to_secs].
  destruct (k_down_pending_since_us c =? 0), (k_up_pending_since_us c =? 0);
    cbn -[Z.sub Z.eqb us_to_secs].
  all: repeat case_bool; cbn; bool_hyps; split; intros Hd; try discriminate Hd;
    first
    [ destruct Hd as [[? ?]|[[? ?]|(? & ? & ? & ?)]]; lia || congruence
    | left; split; [lia|reflexivity || assumption]
    | right; left; split; lia
    | right; right; repeat split; reflexivity || assumption || lia ].
Qed.

(** The controller sends the candidate exactly when one of the four paths of the
    specification is open. *)
Theorem controller_emits_iff c cfg cand ff now kbps :
  (controller_decide c cfg cand ff now kbps).2 = Some cand <-> emits c cfg cand ff now kbps.
Proof.
  unfold controller_decide.
  set (c1 := c <| was_in_grace := _ |>).
  set (c2 := if kbps >? 0 then c1 <| last_committed_kbps := kbps |> else c1).
  change (have_current c1) with (have_current c).
  change (current c1) with (current c).
  change (op_point_moved c1 cfg kbps) with (op_point_moved c cfg kbps).
  assert (current c2 = current c /\ ff_last_commit_us c2 = ff_last_commit_us c) as [E1 E2]
    by (subst c2; by case_bool).
  assert (dwelt c2 cfg cand now <-> dwelt c cfg cand now) as Hdw
    by (subst c2; by case_bool).
  rewrite <- hysteresis_emits_iff in Hdw. rewrite E1, E2. clearbody c2.
  destruct (have_current c) eqn:Hh; cbn [negb].
  2:{ destruct (in_startup_grace c cfg now) eqn:Hs, (in_settle_grace c now) eqn:Hg; cbn;
      (split; [intros|intros []; congruence]); (congruence || by apply emits_first). }
  destruct (feedforward_due c cfg cand ff now kbps) eqn:Hff;
    pose proof Hff as Hff'; unfold feedforward_due in Hff'; rewrite Hff'.
  - bool_hyps. case_bool; cbn; (split; [intros Hs | intros []; try congruence]).
    + pose proof (u64_bound (now - ff_last_commit_us c)).
      apply emits_feedforward; try done; lia.
    + discriminate.
    + pose proof (u64_bound (now - ff_last_commit_us c)). lia.
  - pose proof (emits_hysteresis c cfg cand ff now kbps Hh Hff) as Hy.
    pose proof (emits_realign c cfg cand ff now kbps Hh Hff) as Hr.
    assert (emits c cfg cand ff now kbps -> in_startup_grace c cfg now = false /\
      in_settle_grace c now = false /\ (was_in_grace c = true /\
      (fp_k cand <> fp_k (current c) \/ fp_n cand <> fp_n (current c)) \/
      was_in_grace c = false /\ dwelt c cfg cand now)) as Hi.
    { intros []; try congruence; try by auto.
      unfold feedforward_due in Hff. rewrite H0, H1, H3 in Hff. lia. }
    destruct (in_startup_grace c cfg now), (in_settle_grace c now); cbn;
      try (split; [done|intros (? & ? & _)%Hi; done]).
    destruct (was_in_grace c); cbn.
    + case_bool; (split; [try done; intros _; apply Hr; auto; lia
                         |intros (_ & _ & [[_ ?]|[? _]])%Hi; done || lia]).
    + rewrite Hdw. split; [by auto|]. intros (_ & _ & [[? _]|[_ ?]])%Hi; done.
Qed.

(** ** The curve *)

Definition k_range : list Z := map Z.of_nat (seq 1 255).

Lemma k_range_spec k : 1 <= k <= 255 -> k ∈ k_range.
Proof.
  intros Hk. unfold k_range. apply list_elem_of_fmap.
  exists (Z.to_nat k). split; [lia|]. apply elem_of_seq. lia.
Qed.

Definition curve_ok (k : Z) : bool :=
  (k <? raw_n k) && (raw_n k <=? 2 * k) &&
  fle (F32.lit 25 100) (curve_r k) && fle (curve_r k) (F32.lit 50 100).

Lemma curve_ok_all : forallb curve_ok k_range = true.
Proof. vm_compute. reflexivity. Qed.

(** On every block size the wire format can carry, the curve asks for between a
    quarter and a half of the packets as parity: at least one, and never more than [k]. *)
Theorem redundancy_curve_bounds k :
  1 <= k <= 255 ->
  k < raw_n k <= 2 * k /\
  fle (F32.lit 25 100) (curve_r k) = true /\ fle (curve_r k) (F32.lit 50 100) = true.
Proof.
  intros Hk%k_range_spec. pose proof curve_ok_all as H.
  rewrite forallb_forall in H. apply list_elem_of_In in Hk.
  specialize (H k Hk). unfold curve_ok in H. bool_hyps. repeat split; try done; lia.
Qed.

(** ** Witnesses *)

Definition ring_sample : HeadroomRing :=
  ring_push (ring_push (ring_push ring_zero 1000 5000) 2000 6000) 3000 9000.

Lemma ring_sample_ok : headroom_ring_ok ring_sample.
Proof. repeat apply ring_push_ok. apply headroom_ring_zero_ok. Qed.

Lemma headroom_ring_refines_queue_witness :
  ring_entries (ring_expire (ring_push ring_sample 4000 7000) 2500) =
    [(3000, 9000); (4000, 7000)].
Proof.
  pose proof (headroom_ring_refines_queue ring_sample 4000 7000 2500 ring_sample_ok) as [_ ->].
  vm_compute. reflexivity.
Defined.

Lemma ring_sample_sizes : sizes_u32 ring_sample.
Proof.
  unfold sizes_u32. replace (ring_sizes ring_sample) with [5000; 6000; 9000]
    by (vm_compute; reflexivity).
  repeat constructor; lia.
Qed.

Lemma compute_headroom_bounds_witness :
  let h := compute_headroom ring_sample (F32.lit 11 10) (F32.lit 12 10) (F32.of_Z 2) in
  fle (F32.lit 12 10) h = true /\ fle h (F32.of_Z 2) = true.
Proof.
  exact (compute_headroom_bounds ring_sample (F32.lit 11 10) (F32.lit 12 10) (F32.of_Z 2)
    ring_sample_ok ring_sample_sizes eq_refl eq_refl eq_refl).
Defined.

Lemma fec_compute_in_windows_witness :
  fec_pair_ok config_defaults (fec_compute (F32.of_Z 12000) (F32.lit 13 10) config_defaults 0).
Proof. apply fec_compute_in_windows. vm_compute. intuition discriminate. Defined.

Definition controller_sample : Controller := controller_zero <| start_us := 1 |>.

Lemma config_defaults_windows : fec_windows_ok config_defaults.
Proof. vm_compute. intuition discriminate. Qed.

Lemma controller_update_contract_witness :
  let '(c', ring', out) :=
    controller_update controller_sample config_defaults 9000 ring_sample 30000000
      (F32.of_Z 60) 8000 in
  emits_current controller_sample c' out 30000000 /\
  headroom_ring_ok ring' /\
  match out with Some p => fec_pair_ok config_defaults p | None => True end.
Proof.
  exact (controller_update_contract controller_sample config_defaults 9000 ring_sample
    30000000 (F32.of_Z 60) 8000 config_defaults_windows ring_sample_ok).
Defined.

Lemma redundancy_curve_bounds_witness : 8 < raw_n 8 <= 16.
Proof. apply redundancy_curve_bounds. lia. Defined.
