(* ===== verification/Bitrate.v ===== *)
(** * Radio state and bitrate

    The shared [RadioState] of [vehicle/link_controller.c] and what is derived from it:
    the PHY rate, the payload tiers, the airtime ceiling, the encoder bitrate
    ([bitrate_assert]) and the statistics datagrams of [wfb_tx]
    ([wfb_stats_handle_datagram]) that feed them. *)

From S2P Require Import Prelude CFloat Config CString Io Net Fec.

(** ** Radio state *)

Record RadioState := Build_RadioState {
  radio_valid : bool;
  radio_short_gi : Z; radio_bandwidth : Z; radio_mcs : Z; radio_vht_mode : Z;
  radio_vht_nss : Z; radio_stbc : Z; radio_ldpc : Z;
  radio_phy_mbps : fp
}.

#[export] Instance eta_RadioState : Eta RadioState := fun r => Build_RadioState
  (radio_valid r) (radio_short_gi r) (radio_bandwidth r) (radio_mcs r)
  (radio_vht_mode r) (radio_vht_nss r) (radio_stbc r) (radio_ldpc r) (radio_phy_mbps r).

Definition radio_state_zero : RadioState := Build_RadioState false 0 0 0 0 0 0 0 f0.

Definition HT_20L : list fp :=
  [F32.lit 65 10; F32.lit 130 10; F32.lit 195 10; F32.lit 260 10; F32.lit 390 10;
   F32.lit 520 10; F32.lit 585 10; F32.lit 650 10].
Definition VHT_20L_EXT : list fp :=
  HT_20L ++ [F32.lit 780 10; F32.lit 867 10].

Definition bw_scale (bw_mhz : Z) : fp :=
  if bw_mhz =? 40 then F32.lit 21 10
  else if bw_mhz =? 80 then F32.lit 45 10
  else if bw_mhz =? 160 then F32.of_Z 9
  else F32.of_Z 1.

Definition phy_mbps (mcs bw_mhz short_gi vht_mode vht_nss : Z) : fp :=
  let idx_max := if vht_mode =? 0 then 7 else 9 in
  let mcs := if mcs <? 0 then 0 else mcs in
  let mcs := if mcs >? idx_max then idx_max else mcs in
  let base := nth (Z.to_nat mcs) (if vht_mode =? 0 then HT_20L else VHT_20L_EXT) f0 in
  let gi_scale := if short_gi =? 0 then F32.of_Z 1 else F32.lit 10 9 in
  let nss := if negb (vht_mode =? 0) && (vht_nss >? 0) then vht_nss else 1 in
  (base * bw_scale bw_mhz * gi_scale * F32.of_Z nss)%f32.

(** ** Payload tiers *)

Section Tiers.
Context `{!CAbi}.

(** [PayloadTier]: the tier applies below its bitrate. *)
Definition PAYLOAD_TABLE : list (Z * Z) :=
  [(2000, 800); (4000, 1000); (8000, 1200); (12000, 1400); (18000, 2000);
   (25000, 2800); (LONG_MAX, 3200)].

Fixpoint tier_lookup (tiers : list (Z * Z)) (bitrate_kbps last : Z) : Z :=
  match tiers with
  | (lt, payload) :: tiers =>
      if bitrate_kbps <? lt then payload else tier_lookup tiers bitrate_kbps last
  | [] => last
  end.
Definition payload_table_lookup (bitrate_kbps : Z) : Z :=
  tier_lookup PAYLOAD_TABLE bitrate_kbps 3200.

Definition payload_safe_bitrate_kbps (payload_bytes : Z) : Z :=
  let best := foldl (fun best '(lt, p) =>
                       if (p <=? payload_bytes) && (lt >? best) then lt else best)
                    (-1) PAYLOAD_TABLE in
  if best <? 0 then 2000 else best.

Definition payload_select (cfg : Config) (target_bitrate_kbps : Z) : Z * bool :=
  let f := cfg_fec cfg in
  if fec_payload_max f <=? 0 then (0, false)
  else if target_bitrate_kbps <=? 0 then (0, false)
  else
    let max_p := fec_payload_max f in
    let max_p := if max_p >? 4000 then 4000 else max_p in
    let max_p := if max_p <? 576 then 576 else max_p in
    let min_p := fec_payload_min f in
    let min_p := if min_p <? 576 then 576 else min_p in
    let min_p := if min_p >? 4000 then 4000 else min_p in
    let min_p := if min_p >? max_p then max_p else min_p in
    let table_pick := payload_table_lookup target_bitrate_kbps in
    let '(result, clipped) :=
      if table_pick >? max_p then (max_p, true) else (table_pick, false) in
    (if result <? min_p then min_p else result, clipped).

(** ** Airtime *)

Definition airtime_safe_bitrate_kbps (phy : fp) (payload k n airtime_max_pct preamble_us : Z)
  : Z :=
  if airtime_max_pct <=? 0 then -1
  else if fle phy f0 || (k <=? 0) || (n <=? 0) then -1
  else
    let payload := if payload <? 1 then 1400 else payload in
    let z := F64.of_Z in
    let A := (z airtime_max_pct / z 100)%f64 in
    let r := (z n / z k)%f64 in
    let phy_bps := (to_f64 phy * z 1000000)%f64 in
    let t_pre := (z preamble_us * F64.lit 1 1000000)%f64 in
    let cost := (r * (z 1 / phy_bps + t_pre / (z 8 * z payload)))%f64 in
    if fle cost f0 then -1
    else
      let kbps := f_to_long (A / cost / z 1000)%f64 in
      if kbps >? 0 then kbps else 1.

(** ** Observations *)

(** [radio_apply_observation]; [from_self] only selects a log line. *)
Definition radio_apply_observation (radio : RadioState) (ctrl : Controller) (cfg : Config)
    (new_mcs new_bw new_gi new_stbc new_ldpc new_vht_mode new_vht_nss now : Z)
    : RadioState * Controller :=
  let radio' := Build_RadioState true new_gi new_bw new_mcs new_vht_mode new_vht_nss
    new_stbc new_ldpc (phy_mbps new_mcs new_bw new_gi new_vht_mode new_vht_nss) in
  let any_changed :=
    negb (radio_mcs radio' =? radio_mcs radio) ||
    negb (radio_bandwidth radio' =? radio_bandwidth radio) ||
    negb (radio_short_gi radio' =? radio_short_gi radio) ||
    negb (radio_vht_mode radio' =? radio_vht_mode radio) ||
    negb (radio_vht_nss radio' =? radio_vht_nss radio) in
  let ctrl :=
    if radio_valid radio && any_changed && fec_enabled (cfg_fec cfg)
    then controller_arm_settle ctrl now (fec_mcs_settle_s (cfg_fec cfg)) else ctrl in
  (radio', ctrl).

(** The values the main loop remembers having sent; -1 for never. *)
Record LastWritten := Build_LastWritten {
  lw_fec_k : Z; lw_fec_n : Z; lw_kbps : Z; lw_payload : Z
}.

#[export] Instance eta_LastWritten : Eta LastWritten := fun l =>
  Build_LastWritten (lw_fec_k l) (lw_fec_n l) (lw_kbps l) (lw_payload l).

Definition lw_init : LastWritten := Build_LastWritten (-1) (-1) (-1) (-1).

Definition radio_track_external_fec (obs_k obs_n : Z) (lw : LastWritten) : LastWritten :=
  if (obs_k <=? 0) || (obs_n <=? 0) then lw
  else lw <| lw_fec_k := obs_k |> <| lw_fec_n := obs_n |>.
End Tiers.

(** ** The encoder bitrate *)

Section Assert.
Context `{!CAbi}.

(** What [bitrate_assert] asks the encoder for, with the caps it applied (-1: none). *)
Record Target := Build_Target {
  tg_kbps : Z; tg_payload : Z; tg_table_clipped : bool;
  tg_pps_cap : Z; tg_airtime_cap : Z
}.

Definition safe_kbps (radio : RadioState) (ctrl : Controller) (cfg : Config) : Z :=
  let k := F32.of_Z (fp_k (current ctrl)) in
  let n := F32.of_Z (fp_n (current ctrl)) in
  f_to_long (radio_phy_mbps radio * F32.of_Z 1000 * (k / n)
             * fec_safety_margin (cfg_fec cfg))%f32.

Definition clamp_target (cfg : Config) (target : Z) : Z :=
  let f := cfg_fec cfg in
  let target :=
    if (fec_bitrate_max_kbps f >? 0) && (target >? fec_bitrate_max_kbps f)
    then fec_bitrate_max_kbps f else target in
  if target <? fec_bitrate_min_kbps f then fec_bitrate_min_kbps f else target.

(** The cap a pinned payload puts on the packet rate. *)
Definition pps_target (cfg : Config) (target : Z) : Target :=
  let f := cfg_fec cfg in
  if fec_payload_max f >? 0 then
    let '(target_payload, table_clipped) := payload_select cfg target in
    if table_clipped && (target_payload >? 0) then
      let safe_for_payload := payload_safe_bitrate_kbps target_payload in
      if (safe_for_payload >? 0) && (target >? safe_for_payload) then
        let target := safe_for_payload in
        let target :=
          if target <? fec_bitrate_min_kbps f then fec_bitrate_min_kbps f else target in
        Build_Target target target_payload table_clipped safe_for_payload (-1)
      else Build_Target target target_payload table_clipped (-1) (-1)
    else Build_Target target target_payload table_clipped (-1) (-1)
  else Build_Target target 0 false (-1) (-1).

Definition airtime_target (radio : RadioState) (ctrl : Controller) (cfg : Config)
    (t : Target) : Target :=
  let f := cfg_fec cfg in
  if fec_airtime_max_pct f >? 0 then
    let ac := airtime_safe_bitrate_kbps (radio_phy_mbps radio) (tg_payload t)
                (fp_k (current ctrl)) (fp_n (current ctrl))
                (fec_airtime_max_pct f) (fec_airtime_preamble_us f) in
    if (ac >? 0) && (tg_kbps t >? ac)
    then Build_Target ac (tg_payload t) (tg_table_clipped t) (tg_pps_cap t) ac
    else t
  else t.

Definition bitrate_target (radio : RadioState) (ctrl : Controller) (cfg : Config) : Target :=
  airtime_target radio ctrl cfg
    (pps_target cfg (clamp_target cfg (safe_kbps radio ctrl cfg))).

Definition tolerance_kbps (cfg : Config) (target : Z) : Z :=
  let tol := f_to_long (F64.of_Z target * to_f64 (fec_bitrate_tolerance (cfg_fec cfg)))%f64 in
  if tol <? 1 then 1 else tol.

(** Whether a write is due, after the tolerance band and the up-lock. *)
Definition bitrate_changed (ctrl : Controller) (cfg : Config) (last_written_kbps target now : Z)
    : bool :=
  let ref := if last_written_kbps >? 0 then last_written_kbps else 0 in
  let dev := ref - target in
  let adev := if dev <? 0 then - dev else dev in
  let changed := (last_written_kbps <? 0) || (adev >? tolerance_kbps cfg target) in
  let would_increase := (last_written_kbps >? 0) && (target >? last_written_kbps) in
  let up_locked := negb (bitrate_up_lock_until_us ctrl =? 0) &&
                   (now <? bitrate_up_lock_until_us ctrl) in
  if changed && would_increase && up_locked then false else changed.

Context `{!Env}.

Definition venc_apply_cfg (cfg : Config) (kbps payload : Z) : IO Z :=
  venc_apply (fec_venc_host (cfg_fec cfg)) (fec_venc_port (cfg_fec cfg)) kbps payload.

Definition bitrate_assert (radio : RadioState) (ctrl : Controller) (cfg : Config)
    (lw : LastWritten) (now : Z) : IO (Controller * LastWritten) :=
  let f := cfg_fec cfg in
  if negb (fec_enabled f) then io_ret (ctrl, lw)
  else if negb (radio_valid radio) || negb (have_current ctrl) then io_ret (ctrl, lw)
  else
    let t := bitrate_target radio ctrl cfg in
    let payload_changed := (tg_payload t >? 0) && negb (tg_payload t =? lw_payload lw) in
    if bitrate_changed ctrl cfg (lw_kbps lw) (tg_kbps t) now then
      let written := lw <| lw_kbps := tg_kbps t |> in
      let written :=
        if payload_changed then written <| lw_payload := tg_payload t |> else written in
      let! lw :=
        (if negb (dry_run cfg) then
           let payload_arg := if payload_changed then tg_payload t else -1 in
           let! rc := venc_apply_cfg cfg (tg_kbps t) payload_arg in
           io_ret (if negb (rc =? 0) then lw else written)
         else io_ret written) in
      let ctrl :=
        if flt f0 (fec_bitrate_grace_s f)
        then controller_arm_settle ctrl now (fec_bitrate_grace_s f) else ctrl in
      io_ret (ctrl, lw)
    else io_ret (ctrl, lw).

(** ** Statistics datagrams *)

(** The daemon's state a datagram updates. *)
Record StatsState := Build_StatsState {
  ss_radio : RadioState; ss_ctrl : Controller; ss_lw : LastWritten; ss_last_seq : Z
}.

Definition tx_stats_radio (body : string) : option RadioBody :=
  mcs ← json_get_int body "mcs";
  bw ← json_get_int body "bw";
  gi ← json_get_int body "short_gi";
  stbc ← json_get_int body "stbc";
  ldpc ← json_get_int body "ldpc";
  vht_mode ← json_get_int body "vht_mode";
  vht_nss ← json_get_int body "vht_nss";
  Some (Build_RadioBody (i32 stbc) (i32 ldpc) (i32 gi) (i32 bw) (i32 mcs) (i32 vht_mode)
          (i32 vht_nss)).

Definition next_seq (last_seq : Z) (body : string) : Z :=
  match json_get_int body "seq" with
  | Some seq => if seq >=? 0 then seq else last_seq
  | None => last_seq
  end.

Definition wfb_stats_handle_datagram (body : string) (cfg : Config) (s : StatsState)
    (now : Z) : IO (Z * StatsState) :=
  if negb (contains body (quoted "tx_stats")) then io_ret (-1, s)
  else match tx_stats_radio body with
  | None => io_ret (-1, s)
  | Some rb =>
      let fec_k := get_int_or (-1) body "fec_k" in
      let fec_n := get_int_or (-1) body "fec_n" in
      let '(radio, ctrl) :=
        radio_apply_observation (ss_radio s) (ss_ctrl s) cfg (rb_mcs_index rb)
          (rb_bandwidth rb) (rb_short_gi rb) (rb_stbc rb) (rb_ldpc rb) (rb_vht_mode rb)
          (rb_vht_nss rb) now in
      let lw := radio_track_external_fec (i32 fec_k) (i32 fec_n) (ss_lw s) in
      let! (ctrl, lw) := bitrate_assert radio ctrl cfg lw now in
      io_ret (0, Build_StatsState radio ctrl lw (next_seq (ss_last_seq s) body))
  end.
End Assert.

(** ** Tiers *)

Section TierFacts.
Context `{!CAbi}.

Lemma LONG_MAX_big : 2 ^ 31 - 1 <= LONG_MAX.
Proof. exact LONG_MAX_ge. Qed.

(** The two lookups in closed form. *)
Lemma payload_safe_eq p :
  payload_safe_bitrate_kbps p =
    if p <? 1000 then 2000 else if p <? 1200 then 4000 else if p <? 1400 then 8000
    else if p <? 2000 then 12000 else if p <? 2800 then 18000
    else if p <? 3200 then 25000 else LONG_MAX.
Proof.
  pose proof LONG_MAX_big. unfold payload_safe_bitrate_kbps. cbn [foldl PAYLOAD_TABLE].
  repeat match goal with
  | |- _ = if ?b then _ else _ => destruct b eqn:?
  end.
  all: destruct (Z.leb_spec 800 p); try lia.
  all: repeat match goal with
    | |- context [?a <=? ?x] =>
        first [rewrite (proj2 (Z.leb_le a x)) by lia | rewrite (proj2 (Z.leb_gt a x)) by lia]
    end.
  all: cbn; try done.
  rewrite (proj2 (Z.gtb_gt LONG_MAX 25000)) by lia. case_bool; [lia|done].
Qed.

Lemma payload_lookup_eq b :
  b <= LONG_MAX ->
  payload_table_lookup b =
    if b <? 2000 then 800 else if b <? 4000 then 1000 else if b <? 8000 then 1200
    else if b <? 12000 then 1400 else if b <? 18000 then 2000
    else if b <? 25000 then 2800 else 3200.
Proof.
  intros Hb. unfold payload_table_lookup, PAYLOAD_TABLE, tier_lookup.
  by repeat case_bool.
Qed.

Lemma payload_safe_bounds p : 2000 <= payload_safe_bitrate_kbps p <= LONG_MAX.
Proof.
  pose proof LONG_MAX_big. rewrite payload_safe_eq.
  repeat (case_bool; [lia|]). lia.
Qed.

Lemma tier_covers b p :
  b <= LONG_MAX -> payload_table_lookup b <= p -> b <= payload_safe_bitrate_kbps p.
Proof.
  intros Hb. rewrite payload_lookup_eq, payload_safe_eq by done.
  pose proof LONG_MAX_big. intros Hl.
  repeat (case_bool_in Hl; [repeat (case_bool; [lia|]); lia|]).
  repeat (case_bool; [lia|]). lia.
Qed.

(** The two table lookups are adjoint: a payload a tier offers is large enough for a
    bitrate exactly when the bitrate is under the safe bitrate of the payload. *)
Theorem payload_tiers_adjoint b p :
  800 <= p < 3200 -> b <= LONG_MAX ->
  (payload_table_lookup b <= p <-> b < payload_safe_bitrate_kbps p).
Proof.
  intros Hp Hb. rewrite payload_lookup_eq, payload_safe_eq by done. pose proof LONG_MAX_big.
  split; intros Hl.
  - repeat (case_bool_in Hl; [repeat (case_bool; [lia|]); lia|]). lia.
  - repeat (case_bool_in Hl; [repeat (case_bool; [lia|]); lia|]). lia.
Qed.

(** ** Payload choice *)

Lemma payload_select_spec cfg target :
  let '(p, clipped) := payload_select cfg target in
  let top := Z.max 576 (Z.min 4000 (fec_payload_max (cfg_fec cfg))) in
  (fec_payload_max (cfg_fec cfg) <= 0 \/ target <= 0) /\ p = 0 /\ clipped = false \/
  576 <= p <= top /\ 0 < target /\
  (if clipped then p = top /\ top < payload_table_lookup target
   else payload_table_lookup target <= p).
Proof.
  unfold payload_select.
  destruct (Z.leb_spec (fec_payload_max (cfg_fec cfg)) 0); [cbn; left; auto|].
  destruct (Z.leb_spec target 0); [cbn; left; auto|].
  assert (800 <= payload_table_lookup target) as Ht.
  { unfold payload_table_lookup, PAYLOAD_TABLE, tier_lookup.
    repeat (case_bool; [lia|]). lia. }
  set (pick := payload_table_lookup target) in *. clearbody pick.
  set (mx := fec_payload_max (cfg_fec cfg)) in *. clearbody mx.
  set (mn := fec_payload_min (cfg_fec cfg)). clearbody mn.
  replace (if (if mx >? 4000 then 4000 else mx) <? 576 then 576 else
    (if mx >? 4000 then 4000 else mx)) with (Z.max 576 (Z.min 4000 mx))
    by (repeat case_bool; lia).
  set (top := Z.max 576 (Z.min 4000 mx)). assert (576 <= top <= 4000) by lia. clearbody top.
  set (lo := if _ >? top then top else _). assert (576 <= lo <= top) by
    (subst lo; repeat case_bool; lia). clearbody lo.
  destruct (pick >? top) eqn:?; case_bool; right; lia.
Qed.
End TierFacts.

(** ** The target *)

Definition bitrate_cfg_ok `{!CAbi} (cfg : Config) : Prop :=
  let f := cfg_fec cfg in
  fec_bitrate_min_kbps f <= LONG_MAX /\ fec_bitrate_max_kbps f <= LONG_MAX.

Section TargetFacts.
Context `{!CAbi}.

Lemma clamp_target_le cfg t :
  clamp_target cfg t <= Z.max (fec_bitrate_min_kbps (cfg_fec cfg)) t.
Proof. unfold clamp_target. repeat case_bool; bool_hyps; lia. Qed.

Lemma safe_kbps_le radio ctrl cfg : safe_kbps radio ctrl cfg <= LONG_MAX.
Proof. unfold safe_kbps. apply f_to_long_bounds. Qed.

(** What [pps_target] does to a target. *)
Lemma pps_target_spec cfg t0 :
  let t := pps_target cfg t0 in
  let lo := fec_bitrate_min_kbps (cfg_fec cfg) in
  tg_kbps t <= Z.max lo t0 /\
  (t0 <= LONG_MAX -> 0 < fec_payload_max (cfg_fec cfg) ->
   tg_kbps t <= Z.max lo (payload_safe_bitrate_kbps (tg_payload t))).
Proof.
  unfold pps_target. pose proof (payload_select_spec cfg t0) as Hs.
  destruct (payload_select cfg t0) as [p clipped]. cbn zeta in Hs.
  destruct (Z.gtb_spec (fec_payload_max (cfg_fec cfg)) 0); [|cbn; lia].
  pose proof (payload_safe_bounds p). destruct Hs as [(? & -> & ->)|(Hp & Ht & Hc)].
  - cbn. lia.
  - destruct clipped; cbn [andb].
    + rewrite (proj2 (Z.gtb_gt p 0)) by lia. repeat case_bool; bool_hyps; cbn; lia.
    + cbn. split; [lia|]. intros Hl _. pose proof (tier_covers t0 p Hl Hc). lia.
Qed.

Lemma airtime_target_spec radio ctrl cfg t :
  let t' := airtime_target radio ctrl cfg t in
  tg_kbps t' <= tg_kbps t /\ tg_payload t' = tg_payload t.
Proof. unfold airtime_target. repeat case_bool; bool_hyps; cbn; lia. Qed.

(** (C13) When payload sizing is on, the bitrate asked for never exceeds what the tier
    table allows for the payload asked for, except up to the operator's floor. *)
Theorem bitrate_target_pps_safe radio ctrl cfg :
  bitrate_cfg_ok cfg -> 0 < fec_payload_max (cfg_fec cfg) ->
  let t := bitrate_target radio ctrl cfg in
  tg_kbps t <= Z.max (fec_bitrate_min_kbps (cfg_fec cfg))
                     (payload_safe_bitrate_kbps (tg_payload t)).
Proof.
  intros [Hlo Hhi] Hp. unfold bitrate_target.
  set (t0 := clamp_target cfg _).
  assert (t0 <= LONG_MAX) as H0.
  { subst t0. etrans; [apply clamp_target_le|]. pose proof (safe_kbps_le radio ctrl cfg). lia. }
  destruct (pps_target_spec cfg t0) as [_ Hs].
  destruct (airtime_target_spec radio ctrl cfg (pps_target cfg t0)) as [Ha ->].
  specialize (Hs H0 Hp). lia.
Qed.

(** The bitrate asked for respects the operator's ceiling, and the airtime ceiling of
    the live PHY rate even where that is below the operator's floor. *)
Theorem bitrate_target_ceilings radio ctrl cfg :
  let f := cfg_fec cfg in
  let t := bitrate_target radio ctrl cfg in
  let ac := airtime_safe_bitrate_kbps (radio_phy_mbps radio) (tg_payload t)
              (fp_k (current ctrl)) (fp_n (current ctrl))
              (fec_airtime_max_pct f) (fec_airtime_preamble_us f) in
  (0 < fec_bitrate_max_kbps f -> fec_bitrate_min_kbps f <= fec_bitrate_max_kbps f ->
   tg_kbps t <= fec_bitrate_max_kbps f) /\
  (0 < ac -> tg_kbps t <= ac).
Proof.
  cbn zeta. unfold bitrate_target. set (t0 := clamp_target cfg _).
  pose proof (pps_target_spec cfg t0) as Hp. cbn zeta in Hp. destruct Hp as [Hp _].
  set (t1 := pps_target cfg t0) in *.
  pose proof (airtime_target_spec radio ctrl cfg t1) as Ha. cbn zeta in Ha.
  destruct Ha as [Ha Hpay]. split.
  - intros Hmax Hmin. assert (t0 <= fec_bitrate_max_kbps (cfg_fec cfg)); [|lia].
    subst t0. unfold clamp_target. repeat case_bool; bool_hyps; lia.
  - rewrite Hpay. unfold airtime_target. intros Hac. destruct (Z.gtb_spec (fec_airtime_max_pct (cfg_fec cfg)) 0) as [Hg|Hg].
    + case_bool; bool_hyps; cbn; lia.
    + unfold airtime_safe_bitrate_kbps in Hac.
      rewrite (proj2 (Z.leb_le _ _)) in Hac by lia. lia.
Qed.
End TargetFacts.

(** ** Writes *)

Section AssertFacts.
Context {ABI : CAbi} {EV : Env}.

(** The request that writes [t], with the payload when [pay] says it changed. *)
Definition is_bitrate_write (cfg : Config) (kbps : Z) (e : Event) : Prop :=
  exists payload path, e = EvHttp (fec_venc_host (cfg_fec cfg)) (fec_venc_port (cfg_fec cfg)) path /\
    venc_path kbps payload = Some path.

Lemma performs_venc_cfg cfg kbps payload :
  performs (is_bitrate_write cfg kbps) (venc_apply_cfg cfg kbps payload).
Proof. apply performs_venc. intros path ?. by exists payload, path. Qed.

(** Either nothing happens, or one write of the target is attempted. *)
Lemma bitrate_assert_cases radio ctrl cfg lw now w :
  let t := bitrate_target radio ctrl cfg in
  let '((ctrl', lw'), w') := bitrate_assert radio ctrl cfg lw now w in
  (ctrl' = ctrl /\ lw' = lw /\ w' = w) \/
  (bitrate_changed ctrl cfg (lw_kbps lw) (tg_kbps t) now = true /\
   fec_enabled (cfg_fec cfg) = true /\ radio_valid radio = true /\ have_current ctrl = true /\
   (lw' = lw \/ lw_kbps lw' = tg_kbps t) /\
   lw_fec_k lw' = lw_fec_k lw /\ lw_fec_n lw' = lw_fec_n lw /\
   bitrate_grace_until_us ctrl <= bitrate_grace_until_us ctrl' /\
   ctrl' = (ctrl <| bitrate_grace_until_us := bitrate_grace_until_us ctrl' |>) /\
   (dry_run cfg = true -> w' = w /\ lw_kbps lw' = tg_kbps t) /\
   exists es, w_trace w' = (es ++ w_trace w)%list /\
     Forall (is_bitrate_write cfg (tg_kbps t)) es).
Proof.
  cbn zeta. unfold bitrate_assert.
  destruct (fec_enabled (cfg_fec cfg)) eqn:He; cbn [negb]; [|cbn; auto].
  destruct (radio_valid radio) eqn:Hv; cbn [negb orb]; [|cbn; auto].
  destruct (have_current ctrl) eqn:Hc; cbn [negb]; [|cbn; auto].
  set (t := bitrate_target radio ctrl cfg). clearbody t.
  destruct (bitrate_changed _ _ _ _ _) eqn:Hb; [|cbn; auto].
  set (ctrl1 := if flt f0 _ then _ else _).
  assert (bitrate_grace_until_us ctrl <= bitrate_grace_until_us ctrl1 /\
    ctrl1 = (ctrl <| bitrate_grace_until_us := bitrate_grace_until_us ctrl1 |>)) as [Hg1 Hg2].
  { subst ctrl1. unfold controller_arm_settle. destruct ctrl.
    repeat case_bool; cbn in *; split; try done; lia. }
  clearbody ctrl1.
  set (pc := (tg_payload t >? 0) && _).
  set (written := if pc then lw <| lw_kbps := _ |> <| lw_payload := _ |> else _).
  assert (lw_kbps written = tg_kbps t /\ lw_fec_k written = lw_fec_k lw /\
    lw_fec_n written = lw_fec_n lw) as (W1 & W2 & W3) by (subst written; by case_bool).
  clearbody written. unfold io_bind. destruct (dry_run cfg); cbn [negb].
  - cbn. right. repeat split; auto. exists []. auto.
  - set (pay := if pc then tg_payload t else -1). clearbody pay.
    destruct (performs_venc_cfg cfg (tg_kbps t) pay w) as (es & Hes & HP).
    destruct (venc_apply_cfg cfg (tg_kbps t) pay w) as [rc w1]. cbn in Hes. cbn.
    right. split_and!; try done; try (by case_bool; auto); by exists es.
Qed.

Lemma up_lock_blocks ctrl cfg last target now :
  bitrate_changed ctrl cfg last target now = true ->
  0 < last -> bitrate_up_lock_until_us ctrl <> 0 -> now < bitrate_up_lock_until_us ctrl ->
  target <= last.
Proof.
  unfold bitrate_changed. set (changed := _ || _). clearbody changed.
  intros Hb ???. destruct (changed && _ && _) eqn:E in Hb; [done|subst changed]. lia.
Qed.

Lemma tolerance_blocks ctrl cfg last target now :
  bitrate_changed ctrl cfg last target now = true -> 0 <= last ->
  tolerance_kbps cfg target < Z.abs (last - target).
Proof.
  unfold bitrate_changed. set (tol := tolerance_kbps cfg target). clearbody tol.
  intros Hb ?. destruct (_ && _ && _) in Hb; [done|]. repeat case_bool_in Hb; lia.
Qed.

(** While the up-lock of an MCS drop runs, no write above the last bitrate is sent
    and the remembered bitrate never grows. *)
Theorem bitrate_up_lock radio ctrl cfg lw now w :
  0 < lw_kbps lw ->
  bitrate_up_lock_until_us ctrl <> 0 -> now < bitrate_up_lock_until_us ctrl ->
  let '((_, lw'), w') := bitrate_assert radio ctrl cfg lw now w in
  lw_kbps lw' <= lw_kbps lw /\
  exists es, w_trace w' = (es ++ w_trace w)%list /\
    Forall (fun e => exists kbps, kbps <= lw_kbps lw /\ is_bitrate_write cfg kbps e) es.
Proof.
  intros Hl Hu Hn. pose proof (bitrate_assert_cases radio ctrl cfg lw now w) as H.
  cbn zeta in H. destruct (bitrate_assert _ _ _ _ _ _) as [[ctrl' lw'] w'].
  destruct H as [(-> & -> & ->)|(Hb & _ & _ & _ & Hlw & _ & _ & _ & _ & _ & es & E & HF)].
  { split; [lia|]. exists []. auto. }
  pose proof (up_lock_blocks _ _ _ _ _ Hb Hl Hu Hn) as Ht.
  split; [destruct Hlw as [-> | ->]; lia|]. exists es. split; [done|].
  eapply Forall_impl; [exact HF|]. cbn. eauto.
Qed.

(** A dry run never talks to the encoder, and inside the tolerance band nobody does:
    a bitrate that is already in place is not written again. *)
Theorem bitrate_assert_quiet radio ctrl cfg lw now w :
  dry_run cfg = true \/
  (0 <= lw_kbps lw /\
   Z.abs (lw_kbps lw - tg_kbps (bitrate_target radio ctrl cfg)) <=
     tolerance_kbps cfg (tg_kbps (bitrate_target radio ctrl cfg))) ->
  (bitrate_assert radio ctrl cfg lw now w).2 = w.
Proof.
  intros Hq. pose proof (bitrate_assert_cases radio ctrl cfg lw now w) as H.
  cbn zeta in H. destruct (bitrate_assert _ _ _ _ _ _) as [[ctrl' lw'] w'].
  destruct H as [(-> & -> & ->)|(Hb & _ & _ & _ & _ & _ & _ & _ & _ & Hd & _)]; [done|].
  destruct Hq as [Hdry|[Hl Ht]]; [by apply Hd|]. exfalso.
  pose proof (tolerance_blocks _ _ _ _ _ Hb Hl). lia.
Qed.
End AssertFacts.

(** ** PHY rates *)

Definition bw_class (bw : Z) : Z :=
  if bw =? 40 then 40 else if bw =? 80 then 80 else if bw =? 160 then 160 else 20.
Definition flag (x : Z) : Z := if x =? 0 then 0 else 1.

Lemma phy_mbps_class mcs bw gi vht nss :
  phy_mbps mcs bw gi vht nss = phy_mbps mcs (bw_class bw) (flag gi) (flag vht) nss.
Proof.
  assert (bw_scale (bw_class bw) = bw_scale bw) as E.
  { unfold bw_class, bw_scale.
    destruct (bw =? 40); [done|]. destruct (bw =? 80); [done|]. by destruct (bw =? 160). }
  assert (forall x, (flag x =? 0) = (x =? 0)) as F by (intros; unfold flag; by case_bool).
  unfold phy_mbps. by rewrite E, !F.
Qed.

Definition mcs_top (vht : Z) : Z := if vht =? 0 then 7 else 9.

Definition phy_grows (bw gi vht nss m : Z) : bool :=
  (mcs_top vht <=? m) ||
  (flt f0 (phy_mbps 0 bw gi vht nss) &&
   flt (phy_mbps m bw gi vht nss) (phy_mbps (m + 1) bw gi vht nss) &&
   is_finite (phy_mbps (m + 1) bw gi vht nss)).

Lemma phy_grows_all :
  forallb (fun bw => forallb (fun gi => forallb (fun vht => forallb (fun nss =>
    forallb (phy_grows bw gi vht nss) [0; 1; 2; 3; 4; 5; 6; 7; 8]) [1; 2; 3; 4]) [0; 1])
    [0; 1]) [20; 40; 80; 160] = true.
Proof. vm_compute. reflexivity. Qed.

Lemma forallb_in {A} (f : A -> bool) l x : forallb f l = true -> In x l -> f x = true.
Proof. rewrite forallb_forall. auto. Qed.

(** Each rung is strictly faster than the one below it, at every width, guard interval
    and stream count, and the rates are positive and finite. *)
Theorem phy_mbps_increasing bw gi vht nss m :
  1 <= nss <= 4 -> 0 <= m < mcs_top vht ->
  flt f0 (phy_mbps 0 bw gi vht nss) = true /\
  flt (phy_mbps m bw gi vht nss) (phy_mbps (m + 1) bw gi vht nss) = true /\
  is_finite (phy_mbps (m + 1) bw gi vht nss) = true.
Proof.
  intros Hn Hm. rewrite !(phy_mbps_class _ bw).
  assert (mcs_top vht = mcs_top (flag vht)) as Et
    by (unfold mcs_top, flag; by destruct (vht =? 0)).
  assert (phy_grows (bw_class bw) (flag gi) (flag vht) nss m = true) as H.
  { pose proof phy_grows_all as H.
    eapply forallb_in in H; [eapply forallb_in in H; [eapply forallb_in in H;
      [eapply forallb_in in H; [eapply forallb_in in H; [exact H|]|]|]|]|]; cbn.
    - unfold mcs_top in Hm. destruct (vht =? 0); lia.
    - lia.
    - unfold flag. case_bool; lia.
    - unfold flag. case_bool; lia.
    - unfold bw_class. repeat case_bool; lia. }
  unfold phy_grows in H. destruct (Z.leb_spec (mcs_top (flag vht)) m); [lia|].
  cbn [orb] in H. bool_hyps. done.
Qed.

(** ** Statistics datagrams *)

Section StatsFacts.
Context {ABI : CAbi} {EV : Env}.

(** A datagram that is not a complete [tx_stats] report is refused and changes
    nothing; a complete one makes the radio state the reported one. *)
Theorem wfb_stats_outcome body cfg s now w :
  let '((rc, s'), w') := wfb_stats_handle_datagram body cfg s now w in
  match tx_stats_radio body with
  | Some rb =>
      if contains body (quoted "tx_stats") then
        rc = 0 /\ radio_valid (ss_radio s') = true /\
        radio_mcs (ss_radio s') = rb_mcs_index rb /\
        radio_bandwidth (ss_radio s') = rb_bandwidth rb /\
        radio_phy_mbps (ss_radio s') =
          phy_mbps (rb_mcs_index rb) (rb_bandwidth rb) (rb_short_gi rb) (rb_vht_mode rb)
            (rb_vht_nss rb) /\
        current (ss_ctrl s') = current (ss_ctrl s)
      else rc = -1 /\ s' = s /\ w' = w
  | None => rc = -1 /\ s' = s /\ w' = w
  end.
Proof.
  unfold wfb_stats_handle_datagram.
  destruct (contains body (quoted "tx_stats")); cbn [negb];
    [|by destruct (tx_stats_radio body)].
  destruct (tx_stats_radio body) as [rb|]; [|done].
  destruct (radio_apply_observation _ _ _ _ _ _ _ _ _ _ _) as [radio ctrl] eqn:Eo.
  unfold radio_apply_observation in Eo. injection Eo as <- Hc.
  assert (current ctrl = current (ss_ctrl s)) as Ecur.
  { rewrite <- Hc. unfold controller_arm_settle. by repeat case_bool. }
  clear Hc. set (radio := Build_RadioState _ _ _ _ _ _ _ _ _).
  set (lw := radio_track_external_fec _ _ _). unfold io_bind.
  pose proof (bitrate_assert_cases radio ctrl cfg lw now w) as H. cbn zeta in H.
  destruct (bitrate_assert _ _ _ _ _ _) as [[ctrl' lw'] w']. cbn.
  repeat split. rewrite <- Ecur.
  destruct H as [(-> & _)|(_ & _ & _ & _ & _ & _ & _ & _ & -> & _)]; reflexivity.
Qed.
End StatsFacts.

(** ** Witnesses *)

Section Witnesses.
#[local] Existing Instance abi_lp64.
#[local] Existing Instance peer_ok.

Definition radio_sample : RadioState :=
  (radio_apply_observation radio_state_zero controller_zero config_defaults
     3 20 0 1 1 0 1 0).1.

Definition ctrl_sample : Controller :=
  controller_zero <| current := Build_FecParams 8 12 (F32.lit 33 100) 8 f0 f0 |>
    <| have_current := true |> <| bitrate_up_lock_until_us := 5000 |>.

(** A controller with payload sizing on. *)
Definition cfg_sizing : Config :=
  config_defaults <| cfg_fec := (fec_defaults <| fec_payload_max := 1000 |>) |>.

Lemma payload_tiers_adjoint_witness :
  payload_table_lookup 9000 <= 1400 <-> 9000 < payload_safe_bitrate_kbps 1400.
Proof. apply payload_tiers_adjoint; [lia|vm_compute; discriminate]. Defined.

Lemma bitrate_target_pps_safe_witness :
  let t := bitrate_target radio_sample ctrl_sample cfg_sizing in
  tg_kbps t <= Z.max (fec_bitrate_min_kbps (cfg_fec cfg_sizing))
                     (payload_safe_bitrate_kbps (tg_payload t)).
Proof.
  exact (bitrate_target_pps_safe radio_sample ctrl_sample cfg_sizing
    ltac:(vm_compute; split; discriminate) ltac:(vm_compute; reflexivity)).
Defined.

Definition lw_sample : LastWritten := lw_init <| lw_kbps := 3000 |>.

Lemma bitrate_up_lock_witness :
  lw_kbps (bitrate_assert radio_sample ctrl_sample config_defaults lw_sample 100
    world_init).1.2 <= 3000.
Proof.
  pose proof (bitrate_up_lock radio_sample ctrl_sample config_defaults lw_sample 100 world_init
    eq_refl ltac:(discriminate) eq_refl) as H.
  destruct (bitrate_assert _ _ _ _ _ _) as [[? ?] ?]. apply H.
Defined.

Lemma bitrate_assert_quiet_witness :
  (bitrate_assert radio_sample ctrl_sample (config_defaults <| dry_run := true |>)
     lw_init 100 world_init).2 = world_init.
Proof. apply bitrate_assert_quiet. left. reflexivity. Defined.

Lemma phy_mbps_increasing_witness :
  flt (phy_mbps 6 20 0 0 1) (phy_mbps 7 20 0 0 1) = true.
Proof. apply (phy_mbps_increasing 20 0 0 1 6); [lia|]. split; [lia|reflexivity]. Defined.
End Witnesses.
