(* ===== verification/Scorer.v ===== *)
(** * Link quality

    The [Scorer] of [vehicle/link_controller.c]: one [rx_ant] report of the ground
    station (a JSON text with one object per antenna) folded into smoothed RSSI, its
    slope and the loss, recovery and diversity ratios the MCS law reads. *)

From stdpp Require Import sets.
From S2P Require Import Prelude CFloat Config CString Fec.

Definition ANT_MAX : Z := 8.

Record Scorer := Build_Scorer {
  sc_smoothed_rssi : fp; sc_smoothed_lost : fp; sc_smoothed_recov : fp;
  sc_smoothed_diversity : fp; sc_have_rssi : bool; sc_have_loss : bool;
  sc_slope_db_s : fp; sc_slope_prev_rssi : fp; sc_slope_prev_us : Z
}.

#[export] Instance eta_Scorer : Eta Scorer := fun s => Build_Scorer
  (sc_smoothed_rssi s) (sc_smoothed_lost s) (sc_smoothed_recov s) (sc_smoothed_diversity s)
  (sc_have_rssi s) (sc_have_loss s) (sc_slope_db_s s) (sc_slope_prev_rssi s)
  (sc_slope_prev_us s).

Definition SLOPE_EWMA_ALPHA : fp := F32.lit 3 10.

Record Score := Build_Score {
  raw_rssi : fp; smoothed_rssi : fp; lost_ratio : fp; smoothed_lost_ratio : fp;
  recov_ratio : fp; smoothed_recov_ratio : fp; diversity_ratio : fp;
  smoothed_diversity_ratio : fp; adapter_count : Z; rssi_slope_db_s : fp;
  ant_count : Z; ant_avg : list fp
}.

#[export] Instance eta_Score : Eta Score := fun s => Build_Score
  (raw_rssi s) (smoothed_rssi s) (lost_ratio s) (smoothed_lost_ratio s) (recov_ratio s)
  (smoothed_recov_ratio s) (diversity_ratio s) (smoothed_diversity_ratio s)
  (adapter_count s) (rssi_slope_db_s s) (ant_count s) (ant_avg s).

Definition scorer_reset : Scorer := Build_Scorer f0 f0 f0 f0 false false f0 f0 0.

(** ** The antenna list *)

Definition RSSI_UNSET : fp := F32.of_Z (-200).

(** What the scan of the report accumulates. *)
Record AntScan := Build_AntScan {
  as_best : fp; as_sum : fp; as_count : Z; as_saw_any : bool;
  as_seen_id : list string; as_ant_count : Z; as_ant_avg : list fp
}.

#[export] Instance eta_AntScan : Eta AntScan := fun a => Build_AntScan
  (as_best a) (as_sum a) (as_count a) (as_saw_any a) (as_seen_id a) (as_ant_count a)
  (as_ant_avg a).

Definition scan_init : AntScan :=
  Build_AntScan RSSI_UNSET f0 0 false [] 0 (replicate 8 RSSI_UNSET).

(** The antenna id between [p] and [r], at most 23 characters. *)
Definition scan_id (p r : string) : string :=
  match strstr p (quoted "id" +:+ ":") with
  | Some idp =>
      if (String.length r <? String.length idp)%nat then
        let idp := skip_while (fun a => aeq a SP || aeq a DQ) (drop_chars 5 idp) in
        take_chars 23
          (span_until (fun a => aeq a DQ || aeq a COMMA || aeq a (ch 125)) idp).1
      else EmptyString
  | None => EmptyString
  end.

(** The slot already given to an id; the empty id never has one. *)
Fixpoint find_slot (seen : list string) (id : string) (k : Z) : option Z :=
  match seen with
  | s :: seen => if String.eqb s id then Some k else find_slot seen id (k + 1)
  | [] => None
  end.

Definition scan_slot (a : AntScan) (id : string) (avg : Z) : AntScan :=
  let slot := match id with EmptyString => None | _ => find_slot (as_seen_id a) id 0 end in
  match slot with
  | Some k =>
      if flt (as_ant_avg a !!! Z.to_nat k) (F32.of_Z avg)
      then a <| as_ant_avg := <[Z.to_nat k := F32.of_Z avg]> (as_ant_avg a) |> else a
  | None =>
      if as_ant_count a <? ANT_MAX then
        a <| as_ant_count := as_ant_count a + 1 |>
          <| as_seen_id := (as_seen_id a ++ [id])%list |>
          <| as_ant_avg := <[Z.to_nat (as_ant_count a) := F32.of_Z avg]> (as_ant_avg a) |>
      else a
  end.

Section Scan.
Context `{!CAbi}.

(** One antenna entry: its reading enters the aggregate and its slot. *)
Definition scan_entry (cfg : Config) (a : AntScan) (avg mx : Z) (id : string) : AntScan :=
  let aggregator := mcs_rssi_aggregator (cfg_mcs cfg) in
  let val := F32.of_Z (if aggregator =? AGG_BEST_MAX then mx else avg) in
  let a :=
    if aggregator =? AGG_MEAN_AVG then a <| as_sum := (as_sum a + F32.of_Z avg)%f32 |>
    else if negb (as_saw_any a) || flt (as_best a) val then a <| as_best := val |> else a in
  let a := scan_slot a id avg in
  a <| as_count := as_count a + 1 |> <| as_saw_any := true |>.

Fixpoint scan_antennas (fuel : nat) (cfg : Config) (p : string) (a : AntScan) : AntScan :=
  match fuel with
  | O => a
  | S fuel =>
      match strstr p (quoted "rssi" +:+ ":") with
      | None => a
      | Some r =>
          match json_get_int_in r "avg" with
          | None => a
          | Some avg =>
              let mx := get_int_in_or avg r "max" in
              let a := scan_entry cfg a avg mx (scan_id p r) in
              match strchr r (ch 125) with
              | None => a
              | Some brace_close => scan_antennas fuel cfg (drop_chars 1 brace_close) a
              end
          end
      end
  end.

(** Every turn consumes at least the closing brace it found. *)
Definition scan_report (cfg : Config) (body : string) : AntScan :=
  scan_antennas (S (String.length body)) cfg body scan_init.

(** ** Smoothing *)

Definition ewma (a x prev : fp) : fp := (a * x + (F32.of_Z 1 - a) * prev)%f32.

Definition scorer_rssi (s : Scorer) (cfg : Config) (raw : fp) : Scorer :=
  if negb (sc_have_rssi s)
  then s <| sc_smoothed_rssi := raw |> <| sc_have_rssi := true |>
  else s <| sc_smoothed_rssi :=
            ewma (mcs_rssi_ewma_alpha (cfg_mcs cfg)) raw (sc_smoothed_rssi s) |>.

Definition scorer_slope (s : Scorer) (now : Z) : Scorer :=
  let baseline s :=
    s <| sc_slope_prev_rssi := sc_smoothed_rssi s |> <| sc_slope_prev_us := now |> in
  if negb (sc_slope_prev_us s =? 0) && (now >? sc_slope_prev_us s) then
    let dt := us_to_secs (u64 (now - sc_slope_prev_us s)) in
    if flt dt (F32.lit 1 100) then s
    else if fle dt (F32.of_Z 2) then
      let inst := ((sc_smoothed_rssi s - sc_slope_prev_rssi s) / dt)%f32 in
      baseline (s <| sc_slope_db_s := ewma SLOPE_EWMA_ALPHA inst (sc_slope_db_s s) |>)
    else baseline (s <| sc_slope_db_s := f0 |>)
  else baseline s.

Definition loss_ratio (num denom : Z) : fp :=
  if num >? 0 then (F32.of_Z num / F32.of_Z denom)%f32 else f0.
Definition cap1 (x : fp) : fp := if flt (F32.of_Z 1) x then F32.of_Z 1 else x.

Definition scorer_loss (s : Scorer) (cfg : Config) (lost_r recov_r div_r : fp) : Scorer :=
  if negb (sc_have_loss s) then
    s <| sc_smoothed_lost := lost_r |> <| sc_smoothed_recov := recov_r |>
      <| sc_smoothed_diversity := div_r |> <| sc_have_loss := true |>
  else
    let a := mcs_loss_ewma_alpha (cfg_mcs cfg) in
    s <| sc_smoothed_lost := ewma a lost_r (sc_smoothed_lost s) |>
      <| sc_smoothed_recov := ewma a recov_r (sc_smoothed_recov s) |>
      <| sc_smoothed_diversity := ewma a div_r (sc_smoothed_diversity s) |>.

(** [scorer_update]: [None] when the report lists no antenna. *)
Definition scorer_update (s : Scorer) (cfg : Config) (body : string)
    (pkt_uniq pkt_lost pkt_fec_recovered pkt_diversity adapters_seen now : Z)
    : Scorer * option Score :=
  let a := scan_report cfg body in
  if negb (as_saw_any a) then (s, None)
  else
    let raw :=
      if mcs_rssi_aggregator (cfg_mcs cfg) =? AGG_MEAN_AVG
      then (as_sum a / F32.of_Z (as_count a))%f32 else as_best a in
    let s := scorer_slope (scorer_rssi s cfg raw) now in
    let denom := if pkt_uniq >? 0 then pkt_uniq else 1 in
    let lost_r := cap1 (loss_ratio pkt_lost denom) in
    let recov_r := cap1 (loss_ratio pkt_fec_recovered denom) in
    let div_r := loss_ratio pkt_diversity denom in
    let s := scorer_loss s cfg lost_r recov_r div_r in
    (s, Some (Build_Score raw (sc_smoothed_rssi s) lost_r (sc_smoothed_lost s)
                recov_r (sc_smoothed_recov s) div_r (sc_smoothed_diversity s)
                adapters_seen (sc_slope_db_s s) (as_ant_count a) (as_ant_avg a))).
End Scan.

(** ** The scan stops by itself *)

Section ScanFacts.
Context {ABI : CAbi}.

Lemma scan_antennas_fuel cfg fuel1 fuel2 p a :
  (String.length p < fuel1)%nat -> (String.length p < fuel2)%nat ->
  scan_antennas fuel1 cfg p a = scan_antennas fuel2 cfg p a.
Proof.
  revert fuel2 p a. induction fuel1 as [|f1 IH]; intros [|f2] p a H1 H2; try lia.
  cbn [scan_antennas]. destruct (strstr p _) as [r|] eqn:Er; [|done].
  destruct (json_get_int_in r "avg") as [avg|]; [|done].
  destruct (strchr r _) as [q|] eqn:Eq; [|done].
  apply strstr_length in Er. apply strchr_length in Eq. apply IH; lia.
Qed.

(** Scanning a report terminates: with one turn more than it has characters the loop
    has reached its own exit, so any larger bound gives the same antenna list. *)
Theorem scan_report_terminates cfg body fuel :
  (String.length body < fuel)%nat ->
  scan_antennas fuel cfg body scan_init = scan_report cfg body.
Proof. intros H. apply scan_antennas_fuel; lia. Qed.

(** ** Antenna slots *)

(** Each slot has its id, no named antenna has two, and there are at most eight. *)
Definition slots_ok (a : AntScan) : Prop :=
  0 <= as_ant_count a <= ANT_MAX /\
  Z.of_nat (length (as_seen_id a)) = as_ant_count a /\
  length (as_ant_avg a) = 8%nat /\
  NoDup (filter (fun id => id <> EmptyString) (as_seen_id a)).

Lemma find_slot_none seen id k : find_slot seen id k = None -> id ∉ seen.
Proof.
  revert k. induction seen as [|s seen IH]; intros k; cbn; [set_solver|].
  destruct (String.eqb_spec s id); [done|]. intros Hn%IH [->|?]%elem_of_cons; done.
Qed.

Lemma scan_slot_ok a id avg : slots_ok a -> slots_ok (scan_slot a id avg).
Proof.
  intros (Hc & Hl & Ha & Hn). unfold scan_slot.
  destruct (match id with EmptyString => None | _ => _ end) as [k|] eqn:E.
  - case_bool; [|done]. repeat split; cbn; try done; try lia. by rewrite length_insert.
  - destruct (Z.ltb_spec (as_ant_count a) ANT_MAX) as [Hlt|]; [|done].
    repeat split; cbn; try lia.
    + rewrite length_app. cbn. lia.
    + by rewrite length_insert.
    + rewrite filter_app. apply NoDup_app. split; [done|].
      destruct id as [|c id].
      * rewrite filter_cons_False by (by intros []). rewrite filter_nil. split; [set_solver|constructor].
      * apply find_slot_none in E. rewrite filter_cons_True, filter_nil by done. split.
        -- intros x [_ Hx]%list_elem_of_filter. rewrite list_elem_of_singleton. by intros ->.
        -- apply NoDup_singleton.
Qed.

Lemma scan_entry_ok cfg a avg mx id : slots_ok a -> slots_ok (scan_entry cfg a avg mx id).
Proof.
  intros H. unfold scan_entry.
  set (a1 := if mcs_rssi_aggregator _ =? AGG_MEAN_AVG then _ else _).
  assert (slots_ok a1) as H1 by (subst a1; by repeat case_bool).
  apply (scan_slot_ok a1 id avg) in H1. clearbody a1. exact H1.
Qed.

Lemma scan_antennas_ok cfg fuel p a : slots_ok a -> slots_ok (scan_antennas fuel cfg p a).
Proof.
  revert p a. induction fuel as [|f IH]; intros p a H; cbn [scan_antennas]; [done|].
  destruct (strstr p _) as [r|]; [|done].
  destruct (json_get_int_in r "avg") as [avg|]; [|done].
  destruct (strchr r _) as [q|]; [by apply IH, scan_entry_ok|by apply scan_entry_ok].
Qed.

(** However the report is laid out, the antenna list has at most eight entries, never
    overruns its array, and lists a named antenna once. *)
Theorem scan_report_slots cfg body : slots_ok (scan_report cfg body).
Proof.
  apply scan_antennas_ok. split_and!; cbn; [lia|unfold ANT_MAX; lia|done|done|constructor].
Qed.

(** ** Loss *)

Lemma cap1_le x : is_nan x = false -> fle (cap1 x) (F32.of_Z 1) = true.
Proof.
  intros Hx. unfold cap1. destruct (flt (F32.of_Z 1) x) eqn:E; [reflexivity|].
  by apply flt_false_fle in E.
Qed.
Lemma loss_ratio_not_nan num denom :
  num < 2 ^ 62 -> 0 < denom < 2 ^ 62 -> is_nan (loss_ratio num denom) = false.
Proof.
  intros Hn Hd. unfold loss_ratio. destruct (Z.gtb_spec num 0); [|done].
  apply div_not_nan; [apply of_Z_finite; lia|apply of_Z_not_nan|apply of_Z_pos; lia].
Qed.

(** The loss and recovery ratios of a report never exceed 1 and are numbers, also when
    no packet was counted. *)
Theorem scorer_ratios_capped s cfg body uniq lost recov div adapters now s' sc :
  uniq < 2 ^ 62 -> lost < 2 ^ 62 -> recov < 2 ^ 62 ->
  scorer_update s cfg body uniq lost recov div adapters now = (s', Some sc) ->
  fle (lost_ratio sc) (F32.of_Z 1) = true /\ fle (recov_ratio sc) (F32.of_Z 1) = true.
Proof.
  intros Hu Hl Hr. unfold scorer_update. case_bool; [done|]. intros E.
  injection E as _ <-. cbn [lost_ratio recov_ratio].
  assert (0 < (if uniq >? 0 then uniq else 1) < 2 ^ 62) by (case_bool; lia).
  split; by apply cap1_le, loss_ratio_not_nan.
Qed.
End ScanFacts.

(** ** Witnesses *)

Definition report_sample : string :=
  "[{" +:+ quoted "id" +:+ ":1," +:+ quoted "rssi" +:+ ":{" +:+ quoted "avg" +:+ ":-61,"
  +:+ quoted "max" +:+ ":-58}},{" +:+ quoted "id" +:+ ":1," +:+ quoted "rssi" +:+ ":{"
  +:+ quoted "avg" +:+ ":-64}},{" +:+ quoted "id" +:+ ":2," +:+ quoted "rssi" +:+ ":{"
  +:+ quoted "avg" +:+ ":-70}}]".

(** Two reports of antenna 1 share a slot. *)
Example report_sample_scan :
  let a := @scan_report abi_lp64 config_defaults report_sample in
  as_seen_id a = ["1"; "2"] /\ as_count a = 3 /\
  take 2 (as_ant_avg a) = [F32.of_Z (-61); F32.of_Z (-70)].
Proof. vm_compute. auto. Qed.

Lemma scan_report_terminates_witness :
  @scan_antennas abi_lp64 300 config_defaults report_sample scan_init =
  @scan_report abi_lp64 config_defaults report_sample.
Proof. apply scan_report_terminates. vm_compute. lia. Defined.

Lemma scorer_ratios_capped_witness :
  exists s' sc,
    @scorer_update abi_lp64 scorer_reset config_defaults report_sample 100 250 10 0 2 1000
      = (s', Some sc) /\ fle (lost_ratio sc) (F32.of_Z 1) = true.
Proof.
  eexists _, _. split; [vm_compute; reflexivity|].
  eapply (@scorer_ratios_capped abi_lp64 scorer_reset config_defaults report_sample
    100 250 10 0 2 1000); [lia..|vm_compute; reflexivity].
Defined.
