(* ===== verification/Selector.v ===== *)
(** * The MCS control law

    The [Selector] of [vehicle/link_controller.c]: boundary-probe records, the ring of
    recent rung changes, [selector_commit], the data-loss watchdog
    [selector_tick_no_data] and the per-datagram law [selector_update]. *)

From S2P Require Import Prelude CFloat Config Ring Fec Scorer.

Definition OSC_RING : Z := 16.
Definition PROBE_MCS_MAX : Z := 16.
Definition FADE_PERSIST_SAMPLES : Z := 3.

(** ** Data *)

Record ProbeRung := Build_ProbeRung {
  pr_accounted : Z; pr_lost : Z; pr_per_milli : Z; pr_last_us : Z; pr_ts_ms : Z;
  pr_records : Z; pr_valid : bool
}.

#[export] Instance eta_ProbeRung : Eta ProbeRung := fun p => Build_ProbeRung
  (pr_accounted p) (pr_lost p) (pr_per_milli p) (pr_last_us p) (pr_ts_ms p)
  (pr_records p) (pr_valid p).

Definition probe_rung_zero : ProbeRung := Build_ProbeRung 0 0 0 0 0 0 false.
#[export] Instance probe_rung_inhabited : Inhabited ProbeRung := populate probe_rung_zero.

Record ProbeState := Build_ProbeState {
  ps_rung : list ProbeRung; ps_last_any_us : Z; ps_total_records : Z;
  ps_parse_errors : Z; ps_gate_us : Z
}.

#[export] Instance eta_ProbeState : Eta ProbeState := fun p => Build_ProbeState
  (ps_rung p) (ps_last_any_us p) (ps_total_records p) (ps_parse_errors p) (ps_gate_us p).

Definition probe_state_init : ProbeState :=
  Build_ProbeState (replicate 16 probe_rung_zero) 0 0 0 0.

Inductive SelectDecision := SD_NONE | SD_INIT | SD_DOWN | SD_UP | SD_FAILSAFE.

#[export] Instance SelectDecision_eq_dec : EqDecision SelectDecision.
Proof. solve_decision. Defined.

Record Selector := Build_Selector {
  current_mcs : Z; last_change_us : Z; last_datagram_us : Z; in_failsafe : bool;
  changes_us : list Z; changes_count : Z; changes_head : Z; commit_count : Z;
  rssi_floor_active : bool; rssi_fade_active : bool; fade_streak : Z;
  flap_guard_mcs : Z; flap_guard_us : Z;
  flap_demote_streak : Z; flap_last_demote_us : Z; flap_freeze_mcs : Z;
  flap_freeze_until_us : Z; pressure_since_us : Z; pressure_escape_count : Z
}.

#[export] Instance eta_Selector : Eta Selector := fun s => Build_Selector
  (current_mcs s) (last_change_us s) (last_datagram_us s) (in_failsafe s)
  (changes_us s) (changes_count s) (changes_head s) (commit_count s)
  (rssi_floor_active s) (rssi_fade_active s) (fade_streak s)
  (flap_guard_mcs s) (flap_guard_us s) (flap_demote_streak s) (flap_last_demote_us s)
  (flap_freeze_mcs s) (flap_freeze_until_us s) (pressure_since_us s)
  (pressure_escape_count s).

Definition selector_init : Selector := {|
  current_mcs := -1; last_change_us := 0; last_datagram_us := 0; in_failsafe := false;
  changes_us := replicate 16 0; changes_count := 0; changes_head := 0; commit_count := 0;
  rssi_floor_active := false; rssi_fade_active := false; fade_streak := 0;
  flap_guard_mcs := -1; flap_guard_us := 0; flap_demote_streak := 0;
  flap_last_demote_us := 0; flap_freeze_mcs := -1; flap_freeze_until_us := 0;
  pressure_since_us := 0; pressure_escape_count := 0 |}.

(** ** The change ring *)

Fixpoint expire_loop (fuel : nat) (s : Selector) (cutoff : Z) : Selector :=
  match fuel with
  | O => s
  | S fuel =>
      if changes_count s >? 0 then
        let oldest := cmod (changes_head s - changes_count s + OSC_RING) OSC_RING in
        if changes_us s !!! Z.to_nat oldest >=? cutoff then s
        else expire_loop fuel (s <| changes_count := changes_count s - 1 |>) cutoff
      else s
  end.

Definition selector_expire_changes (s : Selector) (cfg : Config) (now : Z) : Selector :=
  let window_us := secs_to_us (mcs_oscillation_window_s (cfg_mcs cfg)) in
  if window_us =? 0 then s <| changes_count := 0 |>
  else if now <? window_us then s
  else expire_loop (Z.to_nat (changes_count s)) s (now - window_us).

Definition selector_record_change (s : Selector) (cfg : Config) (now : Z) : Selector :=
  let s := s <| changes_us := <[Z.to_nat (changes_head s) := now]> (changes_us s) |>
             <| changes_head := cmod (changes_head s + 1) OSC_RING |>
             <| changes_count := if changes_count s <? OSC_RING then changes_count s + 1
                                 else changes_count s |> in
  selector_expire_changes s cfg now.

(** ** Committing a rung *)

(** Hard flap-freeze detection at a demote from [prev]. *)
Definition flap_detect (s : Selector) (cfg : Config) (prev old_guard now : Z) : Selector :=
  let m := cfg_mcs cfg in
  if mcs_flap_freeze_count m >? 0 then
    let win_us := secs_to_us (mcs_flap_freeze_window_s m) in
    let same_rung_fast :=
      (prev =? old_guard) && negb (flap_last_demote_us s =? 0) &&
      (u64 (now - flap_last_demote_us s) <=? win_us) in
    let s := s <| flap_demote_streak := if same_rung_fast then flap_demote_streak s + 1 else 1 |>
               <| flap_last_demote_us := now |> in
    if flap_demote_streak s >=? mcs_flap_freeze_count m then
      s <| flap_freeze_mcs := prev |>
        <| flap_freeze_until_us := u64 (now + secs_to_us (mcs_flap_freeze_s m)) |>
    else s
  else s.

(** Flap guard: the highest rung demoted from in the current episode. *)
Definition flap_guard (s : Selector) (cfg : Config) (prev now : Z) : Selector :=
  let backoff_us := secs_to_us (mcs_reentry_backoff_s (cfg_mcs cfg)) in
  let old_guard := flap_guard_mcs s in
  let s := if (flap_guard_mcs s <? prev) || (u64 (now - flap_guard_us s) >? backoff_us)
           then s <| flap_guard_mcs := prev |> else s in
  let s := s <| flap_guard_us := now |> in
  flap_detect s cfg prev old_guard now.

Definition clamp_mcs (cfg : Config) (target_mcs : Z) : Z :=
  let m := cfg_mcs cfg in
  let t := if target_mcs <? mcs_min m then mcs_min m else target_mcs in
  if t >? mcs_max m then mcs_max m else t.

Definition selector_commit (s : Selector) (cfg : Config) (target_mcs now : Z)
    (reason : SelectDecision) : Selector * SelectDecision * option Z :=
  let prev := current_mcs s in
  let s := s <| current_mcs := clamp_mcs cfg target_mcs |> in
  let s :=
    if negb (prev =? current_mcs s) then
      let s := s <| last_change_us := now |> in
      let s := selector_record_change s cfg now in
      let s := s <| commit_count := u32 (commit_count s + 1) |> in
      if (prev >=? 0) && (current_mcs s <? prev) then flap_guard s cfg prev now else s
    else s in
  (s, reason, Some (current_mcs s)).

(** ** Data-loss watchdog *)

Definition selector_tick_no_data (s : Selector) (cfg : Config) (now : Z)
    : Selector * SelectDecision * option Z :=
  let s := selector_expire_changes s cfg now in
  if last_datagram_us s =? 0 then (s, SD_NONE, None)
  else
    let gap := u64 (now - last_datagram_us s) in
    if gap <? secs_to_us (mcs_failsafe_timeout_s (cfg_mcs cfg)) then (s, SD_NONE, None)
    else if in_failsafe s && (current_mcs s =? mcs_min (cfg_mcs cfg)) then (s, SD_NONE, None)
    else
      let s := s <| in_failsafe := true |> <| rssi_floor_active := false |>
                 <| rssi_fade_active := false |> in
      selector_commit s cfg (mcs_min (cfg_mcs cfg)) now SD_FAILSAFE.

(** ** The law *)

(** What every datagram updates before a rule is tried. *)
Definition selector_note (s : Selector) (in_pressure : bool) (now : Z) : Selector :=
  let s := s <| last_datagram_us := now |> in
  let s := s <| in_failsafe := false |> in
  let s := if (flap_freeze_mcs s >=? 0) && (now >=? flap_freeze_until_us s)
           then s <| flap_freeze_mcs := -1 |> <| flap_demote_streak := 0 |> else s in
  if in_pressure then
    if pressure_since_us s =? 0 then s <| pressure_since_us := now |> else s
  else s <| pressure_since_us := 0 |>.

Definition pressure_block (cfg : Config) (in_pressure : bool) : bool :=
  in_pressure && mcs_pressure_demote_block (cfg_mcs cfg).

Definition elapsed_s (s : Selector) (now : Z) : fp := us_to_secs (u64 (now - last_change_us s)).

Definition can_demote (s : Selector) (cfg : Config) (now : Z) : bool :=
  (current_mcs s >? mcs_min (cfg_mcs cfg)) &&
  fle (mcs_down_cooldown_s (cfg_mcs cfg)) (elapsed_s s now).

Definition floor_hit (cfg : Config) (score : Score) : bool :=
  fle (smoothed_rssi score) (mcs_rssi_floor_dbm (cfg_mcs cfg)).
Definition fade_sample (cfg : Config) (score : Score) : bool :=
  let m := cfg_mcs cfg in
  flt f0 (mcs_rssi_fade_db_per_s m) && fle (smoothed_rssi score) (mcs_rssi_fade_arm_dbm m) &&
  fle (rssi_slope_db_s score) (fopp (mcs_rssi_fade_db_per_s m)).

(** The guard-rail bookkeeping: the fade streak and the flags shown by the status page. *)
Definition selector_guards (s : Selector) (cfg : Config) (score : Score) : Selector :=
  let streak := if fade_sample cfg score then fade_streak s + 1 else 0 in
  s <| fade_streak := streak |> <| rssi_floor_active := floor_hit cfg score |>
    <| rssi_fade_active := streak >=? FADE_PERSIST_SAMPLES |>.

Definition per_spike (cfg : Config) (score : Score) : bool :=
  fle (F32.of_Z (mcs_demote_per_milli (cfg_mcs cfg)))
      (smoothed_lost_ratio score * F32.of_Z 1000)%f32.

Definition freeze_blocks (s : Selector) (now : Z) : bool :=
  (flap_freeze_mcs s >=? 0) && (now <? flap_freeze_until_us s) &&
  (current_mcs s + 1 >=? flap_freeze_mcs s).

(** Rule 3.5: sustained back pressure with clean RF. *)
Definition escape_due (s : Selector) (cfg : Config) (score : Score) (in_pressure : bool)
    (now : Z) : bool :=
  let m := cfg_mcs cfg in
  in_pressure && flt f0 (mcs_pressure_escape_s m) && negb (pressure_since_us s =? 0) &&
  (current_mcs s <? mcs_max m) &&
  (let rf_clean :=
     negb (floor_hit cfg score) && negb (fade_sample cfg score) &&
     flt (mcs_rssi_floor_dbm m + mcs_rssi_floor_hyst_db m)%f32 (smoothed_rssi score) &&
     flt (mcs_rssi_fade_arm_dbm m) (smoothed_rssi score) in
   rf_clean && negb (freeze_blocks s now) &&
   fle (mcs_pressure_escape_s m) (us_to_secs (u64 (now - pressure_since_us s))) &&
   fle (mcs_down_cooldown_s m) (elapsed_s s now)).

(** A probe record of the rung two above is there, fresh and newer than the gate. *)
Definition probe_v2 (s : Selector) (cfg : Config) (probe : ProbeState) (now : Z)
    : option ProbeRung :=
  let v2 := current_mcs s + 2 in
  if (v2 >=? 0) && (v2 <? PROBE_MCS_MAX) then
    let pr := ps_rung probe !!! Z.to_nat v2 in
    let age := if pr_valid pr then us_to_secs (u64 (now - pr_last_us pr))
               else F32.of_Z 1000000000 in
    if pr_valid pr && (pr_per_milli pr >=? 0) && (pr_last_us pr >=? ps_gate_us probe) &&
       fle age (mcs_probe_stale_age_s (cfg_mcs cfg))
    then Some pr else None
  else None.

Definition promote_guard (s : Selector) (cfg : Config) (score : Score) (now : Z) : bool :=
  let m := cfg_mcs cfg in
  fade_sample cfg score ||
  fle (smoothed_rssi score) (mcs_rssi_floor_dbm m + mcs_rssi_floor_hyst_db m)%f32 ||
  freeze_blocks s now.

Definition need_dwell (s : Selector) (cfg : Config) (now : Z) : fp :=
  let m := cfg_mcs cfg in
  if (flap_guard_mcs s >=? 0) && (current_mcs s + 1 >=? flap_guard_mcs s) &&
     flt (us_to_secs (u64 (now - flap_guard_us s))) (mcs_reentry_backoff_s m) &&
     flt (mcs_promote_dwell_s m) (mcs_reentry_dwell_s m)
  then mcs_reentry_dwell_s m else mcs_promote_dwell_s m.

(** Rule 4. *)
Definition selector_probe (s : Selector) (cfg : Config) (score : Score) (probe : ProbeState)
    (in_pressure : bool) (now : Z) : Selector * SelectDecision * option Z :=
  let m := cfg_mcs cfg in
  match probe_v2 s cfg probe now with
  | None => (s, SD_NONE, None)
  | Some pr =>
      if (pr_per_milli pr >=? mcs_probe_fail_milli m) && (current_mcs s + 2 <=? mcs_max m) then
        if negb (pressure_block cfg in_pressure) && can_demote s cfg now
        then selector_commit s cfg (current_mcs s - 1) now SD_DOWN
        else (s, SD_NONE, None)
      else if pr_per_milli pr <=? mcs_probe_clean_milli m then
        if negb (promote_guard s cfg score now) && (current_mcs s <? mcs_max m) &&
           fle (need_dwell s cfg now) (elapsed_s s now)
        then selector_commit s cfg (current_mcs s + 1) now SD_UP
        else (s, SD_NONE, None)
      else (s, SD_NONE, None)
  end.

Definition selector_update (s : Selector) (cfg : Config) (score : Score) (probe : ProbeState)
    (in_pressure : bool) (now : Z) : Selector * SelectDecision * option Z :=
  let s := selector_note s in_pressure now in
  if current_mcs s <? 0 then selector_commit s cfg (mcs_min (cfg_mcs cfg)) now SD_INIT
  else
    let s := selector_guards s cfg score in
    if negb (pressure_block cfg in_pressure) && per_spike cfg score then
      if can_demote s cfg now then selector_commit s cfg (current_mcs s - 1) now SD_DOWN
      else (s, SD_NONE, None)
    else if (floor_hit cfg score || rssi_fade_active s) && can_demote s cfg now then
      selector_commit s cfg (current_mcs s - 1) now SD_DOWN
    else if escape_due s cfg score in_pressure now then
      let s := s <| pressure_escape_count := u32 (pressure_escape_count s + 1) |> in
      selector_commit s cfg (current_mcs s + 1) now SD_UP
    else selector_probe s cfg score probe in_pressure now.

(** ** The change ring as a queue *)

Lemma OSC_RING_pos : 0 < OSC_RING.
Proof. reflexivity. Qed.

Definition changes_ok (s : Selector) : Prop :=
  ring_ok OSC_RING (changes_us s) (changes_head s) (changes_count s).
Definition changes (s : Selector) : list Z :=
  ring_view OSC_RING (changes_us s) (changes_head s) (changes_count s).

Lemma expire_loop_spec fuel s cutoff :
  changes_ok s -> changes_count s <= Z.of_nat fuel ->
  exists c, expire_loop fuel s cutoff = (s <| changes_count := c |>) /\
    changes_ok (s <| changes_count := c |>) /\
    changes (s <| changes_count := c |>) = drop_until (fun t => t >=? cutoff) (changes s).
Proof.
  assert (forall s, s = s <| changes_count := changes_count s |>) as Eta by (by intros []).
  revert s. induction fuel as [|fuel IH]; intros s Hok Hf; cbn [expire_loop].
  - exists (changes_count s). rewrite <- Eta. split; [done|]. split; [done|].
    destruct Hok as (_ & _ & ?). unfold changes. replace (changes_count s) with 0 by lia. done.
  - rewrite Z.gtb_ltb. destruct (Z.ltb_spec 0 (changes_count s)) as [Hc|Hc].
    + assert (changes s = changes_us s !!! Z.to_nat
        (cmod (changes_head s - changes_count s + OSC_RING) OSC_RING) ::
        changes (s <| changes_count := changes_count s - 1 |>)) as E.
      { unfold changes. rewrite (ring_view_drop OSC_RING _ _ (changes_count s)) by done.
        destruct Hok as (? & ? & ?).
        by rewrite oldest_slot by (done || apply OSC_RING_pos). }
      rewrite E. cbn [drop_until]. destruct (_ >=? cutoff).
      * exists (changes_count s). rewrite <- Eta, E. done.
      * destruct (IH (s <| changes_count := changes_count s - 1 |>)) as (c & H1 & H2 & H3).
        -- by apply ring_ok_drop.
        -- cbn. lia.
        -- exists c. rewrite H1. done.
    + exists (changes_count s). rewrite <- Eta. split; [done|]. split; [done|].
      destruct Hok as (_ & _ & ?). unfold changes. replace (changes_count s) with 0 by lia. done.
Qed.

(** What [selector_expire_changes] keeps. *)
Definition expired_changes (cfg : Config) (now : Z) (l : list Z) : list Z :=
  let w := secs_to_us (mcs_oscillation_window_s (cfg_mcs cfg)) in
  if w =? 0 then [] else if now <? w then l else drop_until (fun t => t >=? now - w) l.

Lemma expire_changes_spec s cfg now :
  changes_ok s ->
  exists c, selector_expire_changes s cfg now = (s <| changes_count := c |>) /\
    changes_ok (s <| changes_count := c |>) /\
    changes (s <| changes_count := c |>) = expired_changes cfg now (changes s).
Proof.
  intros Hok. unfold selector_expire_changes, expired_changes.
  destruct (_ =? 0).
  { exists 0. split; [done|]. split; [|done].
    destruct Hok as (? & ? & ?). repeat split; cbn; try done; lia. }
  destruct (now <? _).
  { exists (changes_count s). destruct s; done. }
  apply expire_loop_spec; [done|]. destruct Hok as (? & ? & ?). lia.
Qed.

Lemma record_change_spec s cfg now :
  changes_ok s ->
  let s' := selector_record_change s cfg now in
  changes_ok s' /\
  changes s' = expired_changes cfg now (bounded_push 16 (changes s) now) /\
  exists us c h, s' = s <| changes_us := us |> <| changes_count := c |> <| changes_head := h |>.
Proof.
  intros Hok. cbn zeta. unfold selector_record_change.
  set (s1 := s <| changes_us := _ |> <| changes_head := _ |> <| changes_count := _ |>).
  assert (changes_ok s1) as H1.
  { eapply (ring_ok_push OSC_RING OSC_RING_pos). exact Hok. }
  assert (changes s1 = bounded_push 16 (changes s) now) as E.
  { unfold changes at 1, s1. cbn.
    change (cmod (changes_head s + 1) OSC_RING) with (next_head OSC_RING (changes_head s)).
    change (if changes_count s <? OSC_RING then changes_count s + 1 else changes_count s)
      with (next_count OSC_RING (changes_count s)).
    by apply (ring_view_push OSC_RING OSC_RING_pos). }
  destruct (expire_changes_spec s1 cfg now H1) as (c & -> & Hok' & Ev).
  split; [done|]. split; [by rewrite Ev, E|]. by eexists _, _, _.
Qed.

(** The change ring is a queue of the last 16 rung changes: recording one appends it,
    forgets the oldest when full, and drops what has left the oscillation window. *)
Theorem change_ring_refines_queue s cfg now :
  changes_ok s ->
  changes_ok (selector_record_change s cfg now) /\
  changes (selector_record_change s cfg now) =
    expired_changes cfg now (bounded_push 16 (changes s) now).
Proof. intros H. destruct (record_change_spec s cfg now H) as (? & ? & _). auto. Qed.

(** ** The invariant of the law *)

Definition mcs_cfg_ok (cfg : Config) : Prop :=
  0 <= mcs_min (cfg_mcs cfg) <= mcs_max (cfg_mcs cfg).

(** The rung is unset (cold) or within the configured range; the ring has its shape; a
    frozen rung lies above the floor. *)
Record selector_ok (cfg : Config) (s : Selector) : Prop := {
  so_rung : current_mcs s = -1 \/
            mcs_min (cfg_mcs cfg) <= current_mcs s <= mcs_max (cfg_mcs cfg);
  so_changes : changes_ok s;
  so_freeze : flap_freeze_mcs s = -1 \/ mcs_min (cfg_mcs cfg) < flap_freeze_mcs s
}.

(** What a commit does to the fields the rules read. *)
Record commit_effect (cfg : Config) (s s' : Selector) (rung now : Z) : Prop := {
  ce_rung : current_mcs s' = rung;
  ce_datagram : last_datagram_us s' = last_datagram_us s;
  ce_failsafe : in_failsafe s' = in_failsafe s;
  ce_pressure : pressure_since_us s' = pressure_since_us s;
  ce_freeze :
    (flap_freeze_mcs s' = flap_freeze_mcs s /\
     flap_freeze_until_us s' = flap_freeze_until_us s) \/
    (rung < current_mcs s /\ 0 <= current_mcs s /\ flap_freeze_mcs s' = current_mcs s /\
     flap_freeze_until_us s' = u64 (now + secs_to_us (mcs_flap_freeze_s (cfg_mcs cfg))));
  ce_changes : changes_ok s -> changes_ok s';
  ce_same : rung = current_mcs s -> s' = s;
  ce_moved : rung <> current_mcs s -> last_change_us s' = now
}.

Lemma flap_guard_fields s cfg prev now :
  exists guard streak last freeze until,
    flap_guard s cfg prev now =
      s <| flap_guard_mcs := guard |> <| flap_guard_us := now |>
        <| flap_demote_streak := streak |> <| flap_last_demote_us := last |>
        <| flap_freeze_mcs := freeze |> <| flap_freeze_until_us := until |> /\
    ((freeze = flap_freeze_mcs s /\ until = flap_freeze_until_us s) \/
     (freeze = prev /\ until = u64 (now + secs_to_us (mcs_flap_freeze_s (cfg_mcs cfg))))).
Proof.
  unfold flap_guard, flap_detect. destruct s. repeat case_bool; cbn in *;
    do 5 eexists; (split; [reflexivity|]); auto.
Qed.

Lemma commit_effect_spec s cfg target now reason :
  mcs_cfg_ok cfg -> changes_ok s ->
  exists s', selector_commit s cfg target now reason =
    (s', reason, Some (clamp_mcs cfg target)) /\
    commit_effect cfg s s' (clamp_mcs cfg target) now.
Proof.
  intros Hcfg Hok. unfold selector_commit. set (rung := clamp_mcs cfg target). cbn zeta.
  change (current_mcs (s <| current_mcs := rung |>)) with rung.
  destruct (Z.eqb_spec (current_mcs s) rung) as [E|E]; cbn [negb].
  { exists s. split; [by destruct s; cbn in *; subst|].
    constructor; auto; done. }
  set (s1 := _ <| last_change_us := now |>).
  destruct (record_change_spec s1 cfg now Hok) as (Hok2 & _ & us & c & h & E2).
  rewrite E2 in *. set (s2 := _ <| commit_count := _ |>).
  destruct ((current_mcs s >=? 0) && (current_mcs s2 <? current_mcs s)) eqn:Hd.
  - destruct (flap_guard_fields s2 cfg (current_mcs s) now) as (g & st & l & f & u & E3 & Hf).
    rewrite E3. eexists. split; [reflexivity|]. cbn in Hd. bool_hyps.
    constructor; cbn; try done; try lia.
    destruct Hf as [[-> ->]|[-> ->]]; [left; done|right; split_and!; try done; lia].
  - exists s2. split; [reflexivity|]. constructor; cbn; try done; auto. 
Qed.

Lemma clamp_mcs_range cfg t :
  mcs_cfg_ok cfg -> mcs_min (cfg_mcs cfg) <= clamp_mcs cfg t <= mcs_max (cfg_mcs cfg).
Proof. unfold mcs_cfg_ok, clamp_mcs. intros. repeat case_bool; lia. Qed.

Lemma clamp_mcs_id cfg t :
  mcs_min (cfg_mcs cfg) <= t <= mcs_max (cfg_mcs cfg) -> clamp_mcs cfg t = t.
Proof. unfold clamp_mcs. intros. repeat case_bool; lia. Qed.

Lemma commit_ok s s' cfg rung now :
  mcs_cfg_ok cfg -> mcs_min (cfg_mcs cfg) <= rung <= mcs_max (cfg_mcs cfg) ->
  selector_ok cfg s -> commit_effect cfg s s' rung now -> selector_ok cfg s'.
Proof.
  intros Hc Hr [R C F] []. constructor; [right; lia|auto|].
  destruct ce_freeze0 as [[-> _]|(? & ? & -> & _)]; [done|right; lia].
Qed.

Lemma note_ok cfg s p now : selector_ok cfg s -> selector_ok cfg (selector_note s p now).
Proof. intros [R C F]. unfold selector_note. repeat case_bool; constructor; cbn; auto. Qed.

Lemma guards_ok cfg s score : selector_ok cfg s -> selector_ok cfg (selector_guards s cfg score).
Proof. intros [R C F]. by constructor. Qed.

(** ** The decision of one datagram *)

(** The state the rules read: after the bookkeeping of the datagram. *)
Definition noted (s : Selector) (cfg : Config) (score : Score) (in_pressure : bool) (now : Z)
    : Selector := selector_guards (selector_note s in_pressure now) cfg score.

(** Why a rung may be given up. *)
Inductive demote_reason (cfg : Config) (s : Selector) (score : Score) (probe : ProbeState)
    (in_pressure : bool) (now : Z) : Prop :=
| demote_loss :
    pressure_block cfg in_pressure = false -> per_spike cfg score = true ->
    demote_reason cfg s score probe in_pressure now
| demote_rssi :
    floor_hit cfg score = true \/ rssi_fade_active s = true ->
    demote_reason cfg s score probe in_pressure now
| demote_probe pr :
    pressure_block cfg in_pressure = false ->
    probe_v2 s cfg probe now = Some pr ->
    mcs_probe_fail_milli (cfg_mcs cfg) <= pr_per_milli pr ->
    current_mcs s + 2 <= mcs_max (cfg_mcs cfg) ->
    demote_reason cfg s score probe in_pressure now.

(** Why a rung may be climbed. *)
Inductive promote_reason (cfg : Config) (s : Selector) (score : Score) (probe : ProbeState)
    (in_pressure : bool) (now : Z) : Prop :=
| promote_escape :
    escape_due s cfg score in_pressure now = true ->
    promote_reason cfg s score probe in_pressure now
| promote_probe pr :
    probe_v2 s cfg probe now = Some pr ->
    pr_per_milli pr <= mcs_probe_clean_milli (cfg_mcs cfg) ->
    promote_guard s cfg score now = false ->
    fle (need_dwell s cfg now) (elapsed_s s now) = true ->
    promote_reason cfg s score probe in_pressure now.

(** The outcomes of one datagram at a warm selector: hold, one rung down, one rung up. *)
Inductive outcome (cfg : Config) (s s' : Selector) (score : Score) (probe : ProbeState)
    (in_pressure : bool) (now : Z) : SelectDecision -> option Z -> Prop :=
| out_hold :
    s' = s -> outcome cfg s s' score probe in_pressure now SD_NONE None
| out_down :
    can_demote s cfg now = true -> demote_reason cfg s score probe in_pressure now ->
    commit_effect cfg s s' (current_mcs s - 1) now ->
    outcome cfg s s' score probe in_pressure now SD_DOWN (Some (current_mcs s - 1))
| out_up n :
    current_mcs s < mcs_max (cfg_mcs cfg) ->
    pressure_block cfg in_pressure = true \/ per_spike cfg score = false ->
    promote_reason cfg s score probe in_pressure now ->
    commit_effect cfg (s <| pressure_escape_count := n |>) s' (current_mcs s + 1) now ->
    outcome cfg s s' score probe in_pressure now SD_UP (Some (current_mcs s + 1)).

Section Law.
Context (cfg : Config) (Hcfg : mcs_cfg_ok cfg).

Lemma noted_ok s score p now :
  selector_ok cfg s -> selector_ok cfg (noted s cfg score p now).
Proof. intros. by apply guards_ok, note_ok. Qed.

Lemma noted_rung s score p now : current_mcs (noted s cfg score p now) = current_mcs s.
Proof. unfold noted, selector_note. by repeat case_bool. Qed.

Lemma can_demote_rung s now :
  can_demote s cfg now = true -> mcs_min (cfg_mcs cfg) < current_mcs s.
Proof. unfold can_demote. lia. Qed.

Lemma commit_down s score probe p now :
  selector_ok cfg s -> 0 <= current_mcs s -> can_demote s cfg now = true ->
  demote_reason cfg s score probe p now ->
  exists s' out, selector_commit s cfg (current_mcs s - 1) now SD_DOWN = (s', SD_DOWN, out) /\
    outcome cfg s s' score probe p now SD_DOWN out.
Proof.
  intros [R C F] H0 Hd Hr. pose proof (can_demote_rung s now Hd).
  destruct (commit_effect_spec s cfg (current_mcs s - 1) now SD_DOWN Hcfg C) as (s' & -> & He).
  rewrite clamp_mcs_id in * by lia. eexists _, _. split; [done|]. by apply out_down.
Qed.

Lemma commit_up s n score probe p now :
  selector_ok cfg s -> 0 <= current_mcs s < mcs_max (cfg_mcs cfg) ->
  pressure_block cfg p = true \/ per_spike cfg score = false ->
  promote_reason cfg s score probe p now ->
  exists s' out,
    selector_commit (s <| pressure_escape_count := n |>) cfg (current_mcs s + 1) now SD_UP
      = (s', SD_UP, out) /\
    outcome cfg s s' score probe p now SD_UP out.
Proof.
  intros [R C F] H0 Hb Hr.
  assert (changes_ok (s <| pressure_escape_count := n |>)) as C' by exact C.
  destruct (commit_effect_spec (s <| pressure_escape_count := n |>) cfg (current_mcs s + 1)
    now SD_UP Hcfg C') as (s' & E & He).
  unfold mcs_cfg_ok in Hcfg. rewrite clamp_mcs_id in * by (cbn in *; lia).
  eexists s', _. split; [exact E|]. apply (out_up _ _ _ _ _ _ _ n); try done. lia.
Qed.

Lemma probe_outcome s score probe p now :
  selector_ok cfg s -> 0 <= current_mcs s ->
  pressure_block cfg p = true \/ per_spike cfg score = false ->
  exists s' d out, selector_probe s cfg score probe p now = (s', d, out) /\
    outcome cfg s s' score probe p now d out.
Proof.
  intros Hok H0 Hb. unfold selector_probe.
  assert (s = s <| pressure_escape_count := pressure_escape_count s |>) as Eta by (by destruct s).
  assert (forall d o, (d, o) = (SD_NONE, None) -> exists s' d' o', (s, d, o) = (s', d', o') /\
    outcome cfg s s' score probe p now d' o') as Hold.
  { intros d o [= -> ->]. eexists _, _, _. split; [done|]. by apply out_hold. }
  destruct (probe_v2 s cfg probe now) as [pr|] eqn:Ev; [|by apply Hold].
  destruct (_ && _) eqn:Ef.
  - destruct (negb _ && can_demote s cfg now) eqn:Ed; [|by apply Hold]. bool_hyps.
    destruct (commit_down s score probe p now) as (s' & out & -> & Ho); try done.
    { apply (demote_probe _ _ _ _ _ _ pr); try done; lia. }
    eauto 10.
  - destruct (Z.leb_spec (pr_per_milli pr) (mcs_probe_clean_milli (cfg_mcs cfg)));
      [|by apply Hold].
    destruct (_ && _ && _) eqn:Eu; [|by apply Hold]. bool_hyps.
    destruct (commit_up s (pressure_escape_count s) score probe p now)
      as (s' & out & E & Ho); try done; [lia| |rewrite <- Eta in E; rewrite E; eauto 10].
    by apply (promote_probe _ _ _ _ _ _ pr).
Qed.

Lemma update_outcome s score probe p now :
  selector_ok cfg s -> 0 <= current_mcs s ->
  let s1 := noted s cfg score p now in
  exists s' d out, selector_update s cfg score probe p now = (s', d, out) /\
    outcome cfg s1 s' score probe p now d out.
Proof.
  intros Hok H0. cbn zeta. unfold selector_update. cbv zeta.
  pose proof (noted_rung s score p now) as Er.
  change (current_mcs (selector_note s p now)) with (current_mcs (noted s cfg score p now)).
  pose proof (noted_ok s score p now Hok) as Hok1.
  change (selector_guards (selector_note s p now) cfg score) with (noted s cfg score p now).
  set (s1 := noted s cfg score p now) in *.
  rewrite (proj2 (Z.ltb_ge (current_mcs s1) 0)) by lia.
  destruct (negb _ && per_spike cfg score) eqn:E1.
  { destruct (can_demote s1 cfg now) eqn:Ed.
    - bool_hyps. destruct (commit_down s1 score probe p now) as (s' & o & -> & Ho);
        try done; [lia|by apply demote_loss|eauto 10].
    - eexists _, _, _. split; [done|]. by apply out_hold. }
  assert (pressure_block cfg p = true \/ per_spike cfg score = false) as Hb
    by (destruct (pressure_block cfg p), (per_spike cfg score); auto).
  destruct (_ && can_demote s1 cfg now) eqn:E2.
  { bool_hyps. destruct (commit_down s1 score probe p now) as (s' & o & -> & Ho);
      try done; [lia| |eauto 10]. apply demote_rssi. by apply orb_true_iff. }
  destruct (escape_due s1 cfg score p now) eqn:E3; [|apply probe_outcome; try done; lia].
  change (current_mcs (s1 <| pressure_escape_count := _ |>)) with (current_mcs s1).
  destruct (commit_up s1 (u32 (pressure_escape_count s1 + 1)) score probe p now)
    as (s' & o & -> & Ho); try done; [|by apply promote_escape|eauto 10].
  split; [lia|]. unfold escape_due in E3. bool_hyps. by apply Z.ltb_lt.
Qed.
End Law.

(** ** Reachable states *)

(** A run of the law under one configuration: a datagram or a watchdog tick at a time. *)
Inductive selector_reach (cfg : Config) : Selector -> Prop :=
| reach_init : selector_reach cfg selector_init
| reach_update s score probe in_pressure now :
    selector_reach cfg s ->
    selector_reach cfg (selector_update s cfg score probe in_pressure now).1.1
| reach_tick s now :
    selector_reach cfg s -> selector_reach cfg (selector_tick_no_data s cfg now).1.1.

Lemma selector_init_ok cfg : selector_ok cfg selector_init.
Proof. constructor; [by left| |by left]. vm_compute. intuition discriminate. Qed.

Lemma outcome_ok cfg s s' score probe p now d o :
  mcs_cfg_ok cfg -> selector_ok cfg s -> 0 <= current_mcs s ->
  outcome cfg s s' score probe p now d o -> selector_ok cfg s'.
Proof.
  intros Hc Hok H0 []; subst; [done| |].
  - pose proof (can_demote_rung cfg s now H). destruct (so_rung cfg s Hok); [lia|].
    apply (commit_ok s s' cfg (current_mcs s - 1) now); [done|lia|done|done].
  - destruct (so_rung cfg s Hok); [lia|].
    apply (commit_ok (s <| pressure_escape_count := n |>) s' cfg (current_mcs s + 1) now);
      [done|lia| |done].
    destruct Hok. by constructor.
Qed.

Lemma commit_selector_ok cfg s t now r :
  mcs_cfg_ok cfg -> selector_ok cfg s -> selector_ok cfg (selector_commit s cfg t now r).1.1.
Proof.
  intros Hc Hok. destruct (commit_effect_spec s cfg t now r Hc (so_changes cfg s Hok)) as (s' & -> & He).
  cbn. eapply commit_ok; try done. by apply clamp_mcs_range.
Qed.

Lemma update_ok cfg s score probe p now :
  mcs_cfg_ok cfg -> selector_ok cfg s ->
  selector_ok cfg (selector_update s cfg score probe p now).1.1.
Proof.
  intros Hc Hok. destruct (Z.ltb_spec (current_mcs s) 0) as [Hn|H0].
  - unfold selector_update. cbv zeta.
    change (current_mcs (selector_note s p now))
      with (current_mcs (noted s cfg (Build_Score f0 f0 f0 f0 f0 f0 f0 f0 0 f0 0 []) p now)).
    rewrite noted_rung, (proj2 (Z.ltb_lt _ 0)) by done.
    apply commit_selector_ok; [done|]. by apply note_ok.
  - destruct (update_outcome cfg Hc s score probe p now Hok H0) as (s' & d & o & -> & Ho).
    cbn. eapply outcome_ok; [done| | |exact Ho]; [by apply noted_ok|by rewrite noted_rung].
Qed.

Lemma tick_ok cfg s now :
  mcs_cfg_ok cfg -> selector_ok cfg s -> selector_ok cfg (selector_tick_no_data s cfg now).1.1.
Proof.
  intros Hc [R C F]. unfold selector_tick_no_data. cbv zeta.
  destruct (expire_changes_spec s cfg now C) as (c & -> & C' & _).
  repeat case_bool; try by constructor.
  apply commit_selector_ok; [done|]. by constructor.
Qed.

(** Whatever the ground station reports and whenever it stops reporting, the committed
    rung stays in the configured range once it is set, and the bookkeeping stays sound. *)
Theorem selector_invariant cfg s :
  mcs_cfg_ok cfg -> selector_reach cfg s -> selector_ok cfg s.
Proof.
  intros Hc H. induction H; [apply selector_init_ok|by apply update_ok|by apply tick_ok].
Qed.

(** (C7) One datagram moves a warm selector by at most one rung, and the reported decision
    says which way: hold, down by one, or up by one, with the new rung as output. *)
Theorem selector_update_step cfg s score probe p now :
  mcs_cfg_ok cfg -> selector_ok cfg s -> 0 <= current_mcs s ->
  let '((s', d), o) := selector_update s cfg score probe p now in
  match d with
  | SD_NONE => current_mcs s' = current_mcs s /\ o = None
  | SD_DOWN => current_mcs s' = current_mcs s - 1 /\ o = Some (current_mcs s')
  | SD_UP => current_mcs s' = current_mcs s + 1 /\ o = Some (current_mcs s')
  | _ => False
  end.
Proof.
  intros Hc Hok H0.
  destruct (update_outcome cfg Hc s score probe p now Hok H0) as (s' & d & o & -> & Ho).
  pose proof (noted_rung cfg s score p now) as E.
  destruct Ho as [->|? ? []|n ? ? ? []]; rewrite ?E in *; rewrite ?ce_rung0; auto.
Qed.

(** (C8) A rung is given up only after the cool-down and for one of the three reasons of the
    law; under transport back pressure (when it blocks) only RSSI counts. *)
Theorem selector_demote_justified cfg s score probe p now :
  mcs_cfg_ok cfg -> selector_ok cfg s -> 0 <= current_mcs s ->
  (selector_update s cfg score probe p now).1.2 = SD_DOWN ->
  let s1 := noted s cfg score p now in
  can_demote s1 cfg now = true /\ demote_reason cfg s1 score probe p now /\
  (pressure_block cfg p = true -> floor_hit cfg score = true \/ rssi_fade_active s1 = true).
Proof.
  intros Hc Hok H0.
  destruct (update_outcome cfg Hc s score probe p now Hok H0) as (s' & d & o & -> & Ho).
  cbn. intros ->. inversion Ho as [|Hd Hr _|]; subst. split; [done|]. split; [done|].
  intros Hp. destruct Hr; [congruence|done|congruence].
Qed.

(** A rung is climbed only with the RSSI clear of the floor (with its hysteresis) and no
    fade, never into a frozen rung, and with either a fresh clean probe record of the rung
    two above, newer than the last commit, or a sustained back-pressure escape. *)
Theorem selector_promote_safe cfg s score probe p now :
  mcs_cfg_ok cfg -> selector_ok cfg s -> 0 <= current_mcs s ->
  (selector_update s cfg score probe p now).1.2 = SD_UP ->
  let s1 := noted s cfg score p now in
  current_mcs s < mcs_max (cfg_mcs cfg) /\
  (pressure_block cfg p = true \/ per_spike cfg score = false) /\
  fade_sample cfg score = false /\ freeze_blocks s1 now = false /\
  fle (smoothed_rssi score)
    (mcs_rssi_floor_dbm (cfg_mcs cfg) + mcs_rssi_floor_hyst_db (cfg_mcs cfg))%f32 = false /\
  (p = true \/
   exists pr, ps_rung probe !!! Z.to_nat (current_mcs s + 2) = pr /\ pr_valid pr = true /\
     0 <= pr_per_milli pr <= mcs_probe_clean_milli (cfg_mcs cfg) /\
     ps_gate_us probe <= pr_last_us pr).
Proof.
  intros Hc Hok H0.
  destruct (update_outcome cfg Hc s score probe p now Hok H0) as (s' & d & o & -> & Ho).
  pose proof (noted_rung cfg s score p now) as E.
  cbn. intros ->. inversion Ho as [| |n Hm Hb Hr _]; subst. rewrite E in Hm.
  split; [done|]. split; [done|]. destruct Hr as [Hesc|pr Hv Hcl Hg Hdw].
  - unfold escape_due in Hesc. bool_hyps. split_and!; try done; [|by left].
    by apply flt_not_fle.
  - unfold promote_guard in Hg. bool_hyps. split_and!; try done. right.
    exists pr. unfold probe_v2 in Hv. rewrite E in Hv.
    repeat (case_bool_in Hv; try done). injection Hv as <-. bool_hyps. repeat split; auto; lia.
Qed.

(** A hard flap-freeze pins the selector below the frozen rung: from below it, no
    datagram before the hold expires reaches the rung. *)
Theorem flap_freeze_pins cfg s score probe p now :
  mcs_cfg_ok cfg -> selector_ok cfg s ->
  0 <= current_mcs s < flap_freeze_mcs s -> now < flap_freeze_until_us s ->
  current_mcs (selector_update s cfg score probe p now).1.1 < flap_freeze_mcs s.
Proof.
  intros Hc Hok H0 Hn.
  destruct (update_outcome cfg Hc s score probe p now Hok ltac:(lia)) as (s' & d & o & -> & Ho).
  pose proof (noted_rung cfg s score p now) as E.
  assert (flap_freeze_mcs (noted s cfg score p now) = flap_freeze_mcs s /\
          flap_freeze_until_us (noted s cfg score p now) = flap_freeze_until_us s) as [F1 F2].
  { unfold noted, selector_note. cbn.
    repeat case_bool; cbn; bool_hyps; auto; cbn in *; lia. }
  cbn. destruct Ho as [->|? ? []|n Hm Hb Hr []]; [lia|lia|].
  rewrite ce_rung0, E. 
  assert (freeze_blocks (noted s cfg score p now) now = false) as Hf.
  { destruct Hr as [Hesc|pr Hv Hcl Hg Hdw].
    - unfold escape_due in Hesc. bool_hyps. done.
    - unfold promote_guard in Hg. bool_hyps. done. }
  unfold freeze_blocks in Hf. rewrite E, F1, F2 in Hf. lia.
Qed.

(** A demote that completes a series of [flap_freeze_count] fast demotes from one rung
    freezes that rung for [flap_freeze_s] and leaves the selector below it. *)
Theorem flap_freeze_latches cfg s now reason :
  mcs_cfg_ok cfg -> changes_ok s ->
  let m := cfg_mcs cfg in
  mcs_min m < current_mcs s <= mcs_max m ->
  0 < mcs_flap_freeze_count m <= flap_demote_streak s + 1 ->
  flap_guard_mcs s = current_mcs s -> flap_last_demote_us s <> 0 ->
  u64 (now - flap_last_demote_us s) <= secs_to_us (mcs_flap_freeze_window_s m) ->
  let s' := (selector_commit s cfg (current_mcs s - 1) now reason).1.1 in
  flap_freeze_mcs s' = current_mcs s /\ current_mcs s' = current_mcs s - 1 /\
  flap_freeze_until_us s' = u64 (now + secs_to_us (mcs_flap_freeze_s m)).
Proof.
  cbn zeta. intros Hc Hok Hr Hn Hg Hl Hw. unfold selector_commit.
  unfold mcs_cfg_ok in Hc. rewrite clamp_mcs_id by lia. cbv zeta.
  change (current_mcs (s <| current_mcs := current_mcs s - 1 |>)) with (current_mcs s - 1).
  rewrite (proj2 (Z.eqb_neq (current_mcs s) (current_mcs s - 1))) by lia. cbn [negb].
  set (s1 := _ <| last_change_us := now |>).
  destruct (record_change_spec s1 cfg now Hok) as (_ & _ & us & c & h & ->).
  set (s2 := _ <| commit_count := _ |>).
  change (current_mcs s2) with (current_mcs s - 1).
  replace ((current_mcs s >=? 0) && (current_mcs s - 1 <? current_mcs s)) with true by lia.
  unfold flap_guard, flap_detect. cbv zeta. rewrite (proj2 (Z.gtb_lt _ 0)) by lia.
  set (s3 := if _ || _ then _ else _).
  assert (s3 = s3 <| flap_guard_mcs := flap_guard_mcs s3 |>) as E by (by destruct s3).
  assert (flap_last_demote_us s3 = flap_last_demote_us s /\
          flap_demote_streak s3 = flap_demote_streak s /\ current_mcs s3 = current_mcs s - 1)
    as (E1 & E2 & E3) by (subst s3; by case_bool).
  clearbody s3. cbn. rewrite E1, E2, E3, Hg, Z.eqb_refl, (proj2 (Z.eqb_neq _ 0) Hl). cbn.
  rewrite (proj2 (Z.leb_le _ _) Hw). rewrite (proj2 (Z.geb_le _ _)) by lia. cbn. auto.
Qed.

(** Probe records that are stale, empty, or older than the last commit's gate might as
    well not exist: two probe states that agree on the usable record of the rung two above
    give the same decision and state. *)
Theorem unusable_probe_ignored cfg s score probe probe' p now :
  probe_v2 (noted s cfg score p now) cfg probe now =
    probe_v2 (noted s cfg score p now) cfg probe' now ->
  selector_update s cfg score probe p now = selector_update s cfg score probe' p now.
Proof.
  intros E. unfold selector_update, selector_probe. cbv zeta.
  change (selector_guards (selector_note s p now) cfg score) with (noted s cfg score p now).
  by rewrite E.
Qed.

Lemma tick_idle cfg s now :
  changes_ok s -> in_failsafe s = true -> current_mcs s = mcs_min (cfg_mcs cfg) ->
  exists c, selector_tick_no_data s cfg now = (s <| changes_count := c |>, SD_NONE, None).
Proof.
  intros Hok Hf Hm. unfold selector_tick_no_data. cbv zeta.
  destruct (expire_changes_spec s cfg now Hok) as (c & -> & _). exists c.
  cbn. rewrite Hf, Hm, Z.eqb_refl. cbn. by repeat case_bool.
Qed.

Lemma tick_failsafe cfg s now :
  mcs_cfg_ok cfg -> changes_ok s -> last_datagram_us s <> 0 ->
  secs_to_us (mcs_failsafe_timeout_s (cfg_mcs cfg)) <= u64 (now - last_datagram_us s) ->
  exists s1 d o, selector_tick_no_data s cfg now = (s1, d, o) /\
  current_mcs s1 = mcs_min (cfg_mcs cfg) /\ in_failsafe s1 = true /\
  (if in_failsafe s && (current_mcs s =? mcs_min (cfg_mcs cfg)) then d = SD_NONE /\ o = None
   else d = SD_FAILSAFE /\ o = Some (mcs_min (cfg_mcs cfg))).
Proof.
  intros Hc Hok Hl Hg. unfold selector_tick_no_data. cbv zeta.
  destruct (expire_changes_spec s cfg now Hok) as (c & -> & C' & _).
  set (s0 := s <| changes_count := c |>) in *.
  change (last_datagram_us s0) with (last_datagram_us s).
  rewrite (proj2 (Z.eqb_neq _ 0) Hl), (proj2 (Z.ltb_ge _ _) Hg). clear Hl Hg.
  change (in_failsafe s && _) with (in_failsafe s0 && (current_mcs s0 =? mcs_min (cfg_mcs cfg))).
  clearbody s0. destruct (in_failsafe s0 && _) eqn:E.
  { apply andb_true_iff in E as [? ?%Z.eqb_eq]. by exists s0, SD_NONE, None. }
  set (s2 := s0 <| in_failsafe := true |> <| rssi_floor_active := false |>
                <| rssi_fade_active := false |>).
  destruct (commit_effect_spec s2 cfg (mcs_min (cfg_mcs cfg)) now SD_FAILSAFE Hc C')
    as (s' & -> & []).
  assert (clamp_mcs cfg (mcs_min (cfg_mcs cfg)) = mcs_min (cfg_mcs cfg)) as El
    by (apply clamp_mcs_id; split; [done|apply Hc]).
  eexists _, _, _. split; [done|]. rewrite ce_rung0, ce_failsafe0, El. by split_and!.
Qed.

(** Ticks at any times, with no datagram in between, and what they report. *)
Fixpoint idle_ticks (cfg : Config) (times : list Z) (s : Selector)
    : Selector * list (SelectDecision * option Z) :=
  match times with
  | [] => (s, [])
  | now :: times =>
      let '(s, d, o) := selector_tick_no_data s cfg now in
      let '(s, ds) := idle_ticks cfg times s in (s, (d, o) :: ds)
  end.

Lemma idle_ticks_stay cfg times : mcs_cfg_ok cfg -> forall s, selector_ok cfg s ->
  in_failsafe s = true -> current_mcs s = mcs_min (cfg_mcs cfg) ->
  let '(s', ds) := idle_ticks cfg times s in
  current_mcs s' = mcs_min (cfg_mcs cfg) /\ in_failsafe s' = true /\
  Forall (fun d => d = (SD_NONE, None)) ds.
Proof.
  intros Hc. induction times as [|now times IH]; intros s Hok Hf Hm; cbn [idle_ticks]; [done|].
  pose proof (tick_ok cfg s now Hc Hok) as Hok'.
  destruct (tick_idle cfg s now (so_changes _ _ Hok) Hf Hm) as (c & E). rewrite E in *.
  specialize (IH _ Hok' Hf Hm). destruct (idle_ticks _ _ _) as [s' ds].
  destruct IH as (H1 & H2 & H3). split_and!; try done. by constructor.
Qed.

(** (C9) When no datagram has arrived for the timeout, one tick puts the selector in failsafe
    on the lowest rung and reports it, asking for that rung, unless it was there already; and
    any number of later ticks, at any times and until the next datagram, leave it there and
    report nothing. *)
Theorem failsafe_reached cfg s now times :
  mcs_cfg_ok cfg -> selector_ok cfg s -> last_datagram_us s <> 0 ->
  secs_to_us (mcs_failsafe_timeout_s (cfg_mcs cfg)) <= u64 (now - last_datagram_us s) ->
  let '(s1, d, o) := selector_tick_no_data s cfg now in
  let '(s2, ds) := idle_ticks cfg times s1 in
  current_mcs s1 = mcs_min (cfg_mcs cfg) /\ in_failsafe s1 = true /\
  (if in_failsafe s && (current_mcs s =? mcs_min (cfg_mcs cfg)) then d = SD_NONE /\ o = None
   else d = SD_FAILSAFE /\ o = Some (mcs_min (cfg_mcs cfg))) /\
  current_mcs s2 = mcs_min (cfg_mcs cfg) /\ in_failsafe s2 = true /\
  Forall (fun d => d = (SD_NONE, None)) ds.
Proof.
  intros Hc Hok Hl Hg. pose proof (tick_ok cfg s now Hc Hok) as Hok1.
  destruct (tick_failsafe cfg s now Hc (so_changes _ _ Hok) Hl Hg) as (s1 & d & o & E & E1 & E2 & E3).
  rewrite E in *. pose proof (idle_ticks_stay cfg times Hc s1 Hok1 E2 E1) as H.
  by destruct (idle_ticks cfg times s1).
Qed.

(** ** Witnesses *)

Definition sel_sample : Selector :=
  selector_init <| current_mcs := 3 |> <| last_change_us := 1000000 |>
    <| last_datagram_us := 90000000 |> <| flap_guard_mcs := 3 |>
    <| flap_demote_streak := 2 |> <| flap_last_demote_us := 99000000 |>.

Definition score_sample : Score :=
  Build_Score (F32.of_Z (-50)) (F32.of_Z (-50)) f0 f0 f0 f0 f0 f0 2 f0 1 [].
Definition score_faded : Score := score_sample <| smoothed_rssi := F32.of_Z (-95) |>.

Definition probe_sample : ProbeState :=
  probe_state_init <| ps_rung :=
    <[5%nat := Build_ProbeRung 1000 0 0 99900000 1 1 true]> (ps_rung probe_state_init) |>.

Lemma cfg_sample_ok : mcs_cfg_ok config_defaults.
Proof. vm_compute. intuition discriminate. Qed.

Lemma sel_sample_ok : selector_ok config_defaults sel_sample.
Proof. constructor; [right; vm_compute; intuition discriminate| |by left]. apply (selector_init_ok config_defaults). Qed.

Lemma change_ring_refines_queue_witness :
  changes (selector_record_change sel_sample config_defaults 100000000) = [100000000].
Proof.
  pose proof (change_ring_refines_queue sel_sample config_defaults 100000000
    (so_changes _ _ sel_sample_ok)) as [_ ->].
  vm_compute. reflexivity.
Defined.

Lemma selector_invariant_witness :
  selector_ok config_defaults
    (selector_update selector_init config_defaults score_sample probe_sample false 5).1.1.
Proof. apply (selector_invariant _ _ cfg_sample_ok). apply reach_update, reach_init. Defined.

Lemma selector_update_step_witness :
  current_mcs (selector_update sel_sample config_defaults score_sample probe_sample false
    100000000).1.1 = 4.
Proof.
  pose proof (selector_update_step config_defaults sel_sample score_sample probe_sample false
    100000000 cfg_sample_ok sel_sample_ok ltac:(vm_compute; discriminate)) as H.
  destruct (selector_update _ _ _ _ _ _) as [[s' d] o] eqn:E.
  assert (d = SD_UP) as -> by (change d with (s', d, o).1.2; rewrite <- E; vm_compute; reflexivity).
  destruct H as [H _]. cbn. rewrite H. reflexivity.
Defined.

Lemma selector_demote_justified_witness :
  can_demote (noted sel_sample config_defaults score_faded false 100000000)
    config_defaults 100000000 = true.
Proof.
  refine (proj1 (selector_demote_justified config_defaults sel_sample score_faded probe_sample
    false 100000000 cfg_sample_ok sel_sample_ok _ _)); [vm_compute; discriminate|].
  vm_compute. reflexivity.
Defined.

Lemma selector_promote_safe_witness :
  current_mcs sel_sample < mcs_max (cfg_mcs config_defaults).
Proof.
  refine (proj1 (selector_promote_safe config_defaults sel_sample score_sample probe_sample
    false 100000000 cfg_sample_ok sel_sample_ok _ _)); [vm_compute; discriminate|].
  vm_compute. reflexivity.
Defined.

Definition sel_frozen : Selector :=
  sel_sample <| flap_freeze_mcs := 4 |> <| flap_freeze_until_us := 200000000 |>.

Lemma flap_freeze_pins_witness :
  current_mcs (selector_update sel_frozen config_defaults score_sample probe_sample false
    100000000).1.1 < 4.
Proof.
  refine (flap_freeze_pins config_defaults sel_frozen score_sample probe_sample false 100000000
    cfg_sample_ok _ _ _); [|vm_compute; split; [discriminate|reflexivity]|reflexivity].
  destruct sel_sample_ok. constructor; [done|done|]. right. reflexivity.
Defined.

Lemma flap_freeze_latches_witness :
  flap_freeze_mcs (selector_commit sel_sample config_defaults 2 100000000 SD_DOWN).1.1 = 3.
Proof.
  refine (proj1 (flap_freeze_latches config_defaults sel_sample 100000000 SD_DOWN cfg_sample_ok
    (so_changes _ _ sel_sample_ok) _ _ _ _ _));
    vm_compute; intuition discriminate.
Defined.

Lemma unusable_probe_ignored_witness :
  selector_update sel_sample config_defaults score_sample
    (probe_sample <| ps_gate_us := 99950000 |>) false 100000000 =
  selector_update sel_sample config_defaults score_sample probe_state_init false 100000000.
Proof. apply unusable_probe_ignored. vm_compute. reflexivity. Defined.

Lemma failsafe_reached_witness :
  let '(s1, d, o) := selector_tick_no_data sel_sample config_defaults 100000000 in
  (current_mcs s1, d, o) = (0, SD_FAILSAFE, Some 0) /\
  current_mcs (idle_ticks config_defaults [100500000; 101000000; 0] s1).1 = 0.
Proof.
  pose proof (failsafe_reached config_defaults sel_sample 100000000 [100500000; 101000000; 0]
    cfg_sample_ok sel_sample_ok ltac:(vm_compute; discriminate) ltac:(vm_compute; discriminate)) as H.
  destruct (selector_tick_no_data sel_sample config_defaults 100000000) as [[s1 d] o] eqn:E.
  destruct (idle_ticks _ _ s1) as [s2 ds]. cbn [fst]. destruct H as (-> & _ & [-> ->] & -> & _). by split.
Defined.
