(* ===== verification/Commit.v ===== *)
(** * Ordered MCS changes

    [commit_mcs_change] of [vehicle/link_controller.c]: the one path by which a new rung
    reaches [wfb_tx].  Going down, the encoder's bitrate is lowered first and SET_RADIO is
    deferred ([PendingMcsDown]) until the encoder has had time to react; going up, the
    radio moves first and a lock holds the bitrate back. *)

From S2P Require Import Prelude CFloat Config CString Io Net Fec Bitrate.

Record PendingMcsDown := Build_PendingMcsDown {
  pd_active : bool; pd_deadline_us : Z; pd_target_mcs : Z; pd_pending_radio : RadioBody
}.

#[export] Instance eta_PendingMcsDown : Eta PendingMcsDown := fun p =>
  Build_PendingMcsDown (pd_active p) (pd_deadline_us p) (pd_target_mcs p) (pd_pending_radio p).

Definition pending_zero : PendingMcsDown := Build_PendingMcsDown false 0 0 radio_zero.

Definition pending_mcs_clear (p : PendingMcsDown) : PendingMcsDown :=
  p <| pd_active := false |> <| pd_deadline_us := 0 |> <| pd_target_mcs := -1 |>.

Section Commit.
Context {ABI : CAbi} {EV : Env}.

Definition commit_mcs_pre_drop_bitrate (cfg : Config) (radio : RadioState)
    (ctrl : Controller) (lw : LastWritten) (new_mcs now : Z)
    : IO (Controller * LastWritten) :=
  let f := cfg_fec cfg in
  if negb (fec_enabled f) || negb (radio_valid radio) || negb (have_current ctrl)
  then io_ret (ctrl, lw)
  else
    let future := radio <| radio_mcs := new_mcs |>
      <| radio_phy_mbps := phy_mbps new_mcs (radio_bandwidth radio) (radio_short_gi radio)
                             (radio_vht_mode radio) (radio_vht_nss radio) |> in
    let lock_end :=
      u64 (now + secs_to_us (fec_bitrate_lead_s f + fec_mcs_settle_s f)%f32) in
    let ctrl := if lock_end >? bitrate_up_lock_until_us ctrl
                then ctrl <| bitrate_up_lock_until_us := lock_end |> else ctrl in
    bitrate_assert future ctrl cfg lw now.

(** What a commit leaves behind: the return code and the state it may have changed. *)
Record CommitResult := Build_CommitResult {
  cr_rc : Z; cr_pending : PendingMcsDown; cr_ctrl : Controller; cr_lw : LastWritten
}.

Definition commit_mcs_change (cfg : Config) (pending : PendingMcsDown)
    (current_radio : RadioBody) (new_mcs : Z) (radio : RadioState) (ctrl : Controller)
    (lw : LastWritten) (now : Z) : IO CommitResult :=
  let f := cfg_fec cfg in
  let prev_mcs := rb_mcs_index current_radio in
  let is_down := new_mcs <? prev_mcs in
  let r := current_radio <| rb_mcs_index := u8 new_mcs |> in
  if is_down && flt f0 (fec_bitrate_lead_s f) && negb (dry_run cfg) then
    let! (ctrl, lw) := commit_mcs_pre_drop_bitrate cfg radio ctrl lw new_mcs now in
    let pending := Build_PendingMcsDown true (u64 (now + secs_to_us (fec_bitrate_lead_s f)))
                     new_mcs r in
    io_ret (Build_CommitResult 1 pending ctrl lw)
  else
    let pending := if pd_active pending then pending_mcs_clear pending else pending in
    let ctrl :=
      if (new_mcs >? prev_mcs) && flt f0 (fec_mcs_up_grace_s f) && negb (dry_run cfg)
      then ctrl <| bitrate_up_lock_until_us :=
                   u64 (now + secs_to_us (fec_mcs_up_grace_s f)) |>
      else ctrl in
    if dry_run cfg then io_ret (Build_CommitResult 0 pending ctrl lw)
    else
      let! rc := wfb_set_radio (wfb_host cfg) (wfb_port cfg) r in
      io_ret (Build_CommitResult (if negb (rc =? 0) then -1 else 0) pending ctrl lw).

(** ** Which change is sent, and when *)

(** The request that puts the radio on a rung, everything else as it is. *)
Definition is_set_radio (cfg : Config) (body : RadioBody) (e : Event) : Prop :=
  exists id, e = EvCtl (wfb_host cfg) (wfb_port cfg) id (CtlSetRadio (norm_radio body)).

Lemma performs_set_radio cfg body :
  performs (is_set_radio cfg body) (wfb_set_radio (wfb_host cfg) (wfb_port cfg) body).
Proof.
  unfold wfb_set_radio, wfb_set_radio_at. apply performs_bind.
  - apply performs_ctl. intros id. by exists id.
  - intros. apply performs_ret.
Qed.

(** A deferred change is one that goes down, with a lead time. *)
Definition defers (cfg : Config) (current_radio : RadioBody) (new_mcs : Z) : bool :=
  (new_mcs <? rb_mcs_index current_radio) && flt f0 (fec_bitrate_lead_s (cfg_fec cfg)) &&
  negb (dry_run cfg).

(** What the drop steers the bitrate by: the radio on the rung it goes to, and the lock for the
    lead and the settling time, unless a longer one stands. *)
Definition radio_at (radio : RadioState) (new_mcs : Z) : RadioState :=
  radio <| radio_mcs := new_mcs |>
    <| radio_phy_mbps := phy_mbps new_mcs (radio_bandwidth radio) (radio_short_gi radio)
                           (radio_vht_mode radio) (radio_vht_nss radio) |>.

Definition drop_lock (cfg : Config) (ctrl : Controller) (now : Z) : Z :=
  Z.max (bitrate_up_lock_until_us ctrl)
    (u64 (now + secs_to_us (fec_bitrate_lead_s (cfg_fec cfg) + fec_mcs_settle_s (cfg_fec cfg))%f32)).

Definition steered (cfg : Config) (radio : RadioState) (ctrl : Controller) : bool :=
  fec_enabled (cfg_fec cfg) && radio_valid radio && have_current ctrl.

Lemma pre_drop_spec cfg radio ctrl lw new_mcs now w :
  let '((ctrl', lw'), w') := commit_mcs_pre_drop_bitrate cfg radio ctrl lw new_mcs now w in
  if steered cfg radio ctrl then
    let lock := drop_lock cfg ctrl now in
    let kbps := tg_kbps (bitrate_target (radio_at radio new_mcs)
                           (ctrl <| bitrate_up_lock_until_us := lock |>) cfg) in
    bitrate_up_lock_until_us ctrl' = lock /\ current ctrl' = current ctrl /\
    (lw' = lw \/ lw_kbps lw' = kbps) /\
    exists es, w_trace w' = (es ++ w_trace w)%list /\
      Forall (fun e => is_bitrate_write cfg kbps e /\
        (now < lock -> 0 < lock -> 0 < lw_kbps lw -> kbps <= lw_kbps lw)) es
  else ctrl' = ctrl /\ lw' = lw /\ w' = w.
Proof.
  unfold commit_mcs_pre_drop_bitrate, steered.
  destruct (fec_enabled (cfg_fec cfg)); cbn [negb orb andb]; [|done].
  destruct (radio_valid radio); cbn [negb orb andb]; [|done].
  destruct (have_current ctrl); cbn [negb orb andb]; [|done]. cbn zeta.
  match goal with |- context [if ?l >? _ then _ else ctrl] => set (lock := l) end.
  assert ((if lock >? bitrate_up_lock_until_us ctrl then ctrl <| bitrate_up_lock_until_us := lock |>
           else ctrl) = ctrl <| bitrate_up_lock_until_us := drop_lock cfg ctrl now |>) as ->.
  { unfold drop_lock. fold lock. rewrite Z.gtb_ltb.
    destruct (Z.ltb_spec (bitrate_up_lock_until_us ctrl) lock).
    - by rewrite Z.max_r by lia.
    - rewrite Z.max_l by lia. by destruct ctrl. }
  fold (radio_at radio new_mcs). generalize (drop_lock cfg ctrl now) as end_us. clear lock. intros lock.
  set (ctrl1 := ctrl <| bitrate_up_lock_until_us := lock |>).
  pose proof (bitrate_assert_cases (radio_at radio new_mcs) ctrl1 cfg lw now w) as H. cbn zeta in H.
  set (kbps := tg_kbps _) in *. clearbody kbps.
  destruct (bitrate_assert _ _ _ _ _ _) as [[ctrl' lw'] w'].
  destruct H as [(-> & -> & ->)|(Hb & _ & _ & _ & Hl & _ & _ & _ & Hc & _ & es & Ew & HF)].
  { split_and!; try done; [by left|]. exists []. auto. }
  split_and!; [by rewrite Hc|by rewrite Hc|done|]. exists es. split; [done|].
  eapply Forall_impl; [exact HF|]. intros e He. split; [exact He|].
  intros Hn H0 Hk. eapply up_lock_blocks; [exact Hb|done|cbn; lia|done].
Qed.

(** (C14) Going down, the bitrate moves before the radio: the change is deferred, with its
    deadline and radio body armed, and no request goes to the radio.  When the bitrate is
    steered, the lock against raising it is armed for the lead and the settling time (or stays,
    when it reaches further), all that is sent are writes of the bitrate for the rung the radio
    goes to, and none is above the bitrate in place while the lock holds; when it is not
    steered, nothing is sent and lock and bitrate are left alone. *)
Theorem commit_down_ordered cfg pending body new_mcs radio ctrl lw now w :
  defers cfg body new_mcs = true ->
  let '(r, w') := commit_mcs_change cfg pending body new_mcs radio ctrl lw now w in
  cr_rc r = 1 /\
  cr_pending r = Build_PendingMcsDown true
    (u64 (now + secs_to_us (fec_bitrate_lead_s (cfg_fec cfg)))) new_mcs
    (body <| rb_mcs_index := u8 new_mcs |>) /\
  if steered cfg radio ctrl then
    let lock := drop_lock cfg ctrl now in
    let kbps := tg_kbps (bitrate_target (radio_at radio new_mcs)
                           (ctrl <| bitrate_up_lock_until_us := lock |>) cfg) in
    bitrate_up_lock_until_us (cr_ctrl r) = lock /\ current (cr_ctrl r) = current ctrl /\
    (cr_lw r = lw \/ lw_kbps (cr_lw r) = kbps) /\
    exists es, w_trace w' = (es ++ w_trace w)%list /\
      Forall (fun e => is_bitrate_write cfg kbps e /\
        (now < lock -> 0 < lock -> 0 < lw_kbps lw -> kbps <= lw_kbps lw)) es
  else cr_ctrl r = ctrl /\ cr_lw r = lw /\ w' = w.
Proof.
  unfold defers, commit_mcs_change. intros ->. unfold io_bind.
  pose proof (pre_drop_spec cfg radio ctrl lw new_mcs now w) as H.
  destruct (commit_mcs_pre_drop_bitrate _ _ _ _ _ _ _) as [[ctrl' lw'] w']. cbn. auto.
Qed.

(** Otherwise an unfired deferral is cancelled, and the only request is one SET_RADIO
    that changes the rung and nothing else; a dry run sends nothing. *)
Theorem commit_sync cfg pending body new_mcs radio ctrl lw now w :
  defers cfg body new_mcs = false ->
  let '(r, w') := commit_mcs_change cfg pending body new_mcs radio ctrl lw now w in
  (cr_rc r = 0 \/ cr_rc r = -1) /\ pd_active (cr_pending r) = false /\ cr_lw r = lw /\
  (rb_mcs_index body < new_mcs -> flt f0 (fec_mcs_up_grace_s (cfg_fec cfg)) = true ->
   dry_run cfg = false ->
   bitrate_up_lock_until_us (cr_ctrl r) =
     u64 (now + secs_to_us (fec_mcs_up_grace_s (cfg_fec cfg)))) /\
  (if dry_run cfg then w' = w /\ cr_rc r = 0
   else exists es, w_trace w' = (es ++ w_trace w)%list /\
          Forall (is_set_radio cfg (body <| rb_mcs_index := u8 new_mcs |>)) es).
Proof.
  unfold defers, commit_mcs_change. intros ->.
  set (pending1 := if pd_active pending then _ else pending).
  assert (pd_active pending1 = false) as Hp
    by (subst pending1; by destruct (pd_active pending) eqn:?).
  set (ctrl1 := if _ && _ && _ then _ else ctrl).
  assert (rb_mcs_index body < new_mcs -> flt f0 (fec_mcs_up_grace_s (cfg_fec cfg)) = true ->
    dry_run cfg = false -> bitrate_up_lock_until_us ctrl1 =
     u64 (now + secs_to_us (fec_mcs_up_grace_s (cfg_fec cfg)))) as Hc.
  { intros H1 H2 H3. subst ctrl1. by rewrite H2, H3, (proj2 (Z.gtb_lt _ _)) by done. }
  clearbody pending1 ctrl1. destruct (dry_run cfg) eqn:Ed; [cbn; auto 10|].
  unfold io_bind. destruct (performs_set_radio cfg (body <| rb_mcs_index := u8 new_mcs |>) w)
    as (es & Hes & HP).
  destruct (wfb_set_radio _ _ _ _) as [rc w1]. cbn in Hes. cbn.
  split_and!; [case_bool; auto|done|done|by auto|by exists es].
Qed.
End Commit.

(** ** Witnesses *)

Definition body_sample : RadioBody := Build_RadioBody 1 1 0 20 5 0 1.

Lemma commit_down_ordered_witness :
  steered config_defaults radio_sample ctrl_sample = true /\
  bitrate_up_lock_until_us (cr_ctrl (@commit_mcs_change abi_lp64 peer_ok config_defaults pending_zero
    body_sample 4 radio_sample ctrl_sample lw_init 100 world_init).1) =
    drop_lock config_defaults ctrl_sample 100.
Proof.
  pose proof (@commit_down_ordered abi_lp64 peer_ok config_defaults pending_zero body_sample 4
    radio_sample ctrl_sample lw_init 100 world_init eq_refl) as H.
  assert (steered config_defaults radio_sample ctrl_sample = true) as E by (vm_compute; reflexivity).
  rewrite E in H. split; [exact E|].
  destruct (commit_mcs_change _ _ _ _ _ _ _ _ _) as [r w']. destruct H as (_ & _ & H & _). exact H.
Defined.

Lemma commit_sync_witness :
  pd_active (cr_pending (@commit_mcs_change abi_lp64 peer_ok config_defaults
    (pending_zero <| pd_active := true |>) body_sample 6
    radio_sample ctrl_sample lw_init 100 world_init).1) = false.
Proof.
  pose proof (@commit_sync abi_lp64 peer_ok config_defaults (pending_zero <| pd_active := true |>)
    body_sample 6 radio_sample ctrl_sample lw_init 100 world_init eq_refl) as H.
  destruct (commit_mcs_change _ _ _ _ _ _ _ _ _) as [r w']. apply H.
Defined.
