(* ===== verification/Wcmd.v ===== *)
(** * The command proxy

    The WCMD protocol of [shared/wcmd_proto.h] and its dispatcher in
    [vehicle/link_controller.c]: wire format, value windows, gates, burst de-duplication
    and the action of each key ([wcmd_dispatch]).

    A request is held in host byte order; [req_encode] and [req_decode] are the wire side.
    The handlers are computations on the peers' world that return the reply and the new
    state of the proxy. *)

From S2P Require Import Prelude CFloat Config CString Io Net.

(** ** Protocol *)

Definition WCMD_MAGIC : Z := 0x57434D44.
Definition WCMD_VERSION : Z := 1.
Definition WCMD_MSG_REQ : Z := 1.
Definition WCMD_MSG_RESP : Z := 2.

Definition WCMD_KEY_BITRATE_KBPS : Z := 1.
Definition WCMD_KEY_FPS : Z := 2.
Definition WCMD_KEY_PAYLOAD_BYTES : Z := 3.
Definition WCMD_KEY_FORCE_IDR : Z := 4.
Definition WCMD_KEY_WFB_FEC_K : Z := 5.
Definition WCMD_KEY_WFB_FEC_N : Z := 6.
Definition WCMD_KEY_WFB_MCS : Z := 7.
Definition WCMD_KEY_WFB_BANDWIDTH : Z := 8.
Definition WCMD_KEY_WFB_LDPC : Z := 9.
Definition WCMD_KEY_WFB_STBC : Z := 10.
Definition WCMD_KEY_WFB_SHORT_GI : Z := 11.
Definition WCMD_KEY_FEC_ENABLED : Z := 12.
Definition WCMD_KEY_MCS_ENABLED : Z := 13.
Definition WCMD_KEY_WFB_TXPOWER : Z := 14.
Definition WCMD_KEY_RECORD : Z := 15.
Definition WCMD_KEY_PEEK_ENABLED : Z := 16.
Definition WCMD_KEY_LOG_SYNC : Z := 18.
Definition WCMD_KEY_LOG_CONTROL : Z := 19.
Definition WCMD_KEY_RETURN_APFPV : Z := 20.
Definition WCMD_KEY_RECOVERY_APFPV : Z := 64.

Inductive Status :=
  | ST_OK | ST_DISABLED | ST_UNKNOWN_KEY | ST_KEY_BLOCKED | ST_OUT_OF_RANGE
  | ST_RATE_LIMITED | ST_HTTP_ERROR | ST_BAD_FORMAT | ST_NOT_PERMITTED.

#[export] Instance Status_eq_dec : EqDecision Status.
Proof. solve_decision. Defined.

(** [WCMD_STATUS_*]. *)
Definition status_code (s : Status) : Z :=
  match s with
  | ST_OK => 0 | ST_DISABLED => 1 | ST_UNKNOWN_KEY => 2 | ST_KEY_BLOCKED => 3
  | ST_OUT_OF_RANGE => 4 | ST_RATE_LIMITED => 5 | ST_HTTP_ERROR => 6
  | ST_BAD_FORMAT => 7 | ST_NOT_PERMITTED => 8
  end.

Record WcmdReq := Build_WcmdReq {
  rq_magic : Z; rq_version : Z; rq_msg_type : Z; rq_seq : Z; rq_key : Z;
  rq_flags : Z; rq_pad : Z; rq_value : Z
}.

Record WcmdResp := Build_WcmdResp {
  rs_seq : Z; rs_status : Status; rs_key : Z; rs_http_status : Z; rs_applied_value : Z
}.

#[export] Instance eta_WcmdResp : Eta WcmdResp := fun r => Build_WcmdResp
  (rs_seq r) (rs_status r) (rs_key r) (rs_http_status r) (rs_applied_value r).

(** The 16 bytes of a request and of a reply, in network order. *)
Definition req_encode (r : WcmdReq) : list Z :=
  (be32_bytes (rq_magic r) ++ [rq_version r; rq_msg_type r] ++ be16_bytes (rq_seq r) ++
   [rq_key r; rq_flags r] ++ be16_bytes (rq_pad r) ++ be32_bytes (rq_value r))%list.

Definition req_decode (bs : list Z) : option WcmdReq :=
  if (length bs <? 16)%nat then None
  else Some (Build_WcmdReq (be32_at bs 0) (byte_at bs 4) (byte_at bs 5) (be16_at bs 6)
               (byte_at bs 8) (byte_at bs 9) (be16_at bs 10) (i32 (be32_at bs 12))).

Definition resp_encode (r : WcmdResp) : list Z :=
  (be32_bytes WCMD_MAGIC ++ [WCMD_VERSION; WCMD_MSG_RESP] ++ be16_bytes (rs_seq r) ++
   [status_code (rs_status r); rs_key r] ++ be16_bytes (rs_http_status r) ++
   be32_bytes (rs_applied_value r))%list.

(** The receiver's test before a frame is dispatched. *)
Definition req_accepts (r : WcmdReq) : bool :=
  (rq_magic r =? WCMD_MAGIC) && (rq_version r =? WCMD_VERSION) &&
  (rq_msg_type r =? WCMD_MSG_REQ).

(** ** State *)

Definition WCMD_NUM_KEYS : Z := 20.
Definition WCMD_BURST_DEDUP_US : Z := 500000.

Record WcmdState := Build_WcmdState {
  ws_recv_total : Z; ws_accepted : Z; ws_rejected_format : Z; ws_rejected_disabled : Z;
  ws_rejected_unknown : Z; ws_rejected_blocked : Z; ws_rejected_range : Z;
  ws_rejected_rate : Z; ws_rejected_peer : Z; ws_coalesced_burst : Z; ws_http_errors : Z;
  ws_last_apply_us : list Z; ws_last_seq : list Z; ws_last_seq_us : list Z;
  ws_last_recv_us : Z; ws_last_status : Status; ws_last_key : Z; ws_last_value : Z;
  ws_last_http_status : Z; ws_radio_written : bool; ws_radio_written_body : RadioBody
}.

#[export] Instance eta_WcmdState : Eta WcmdState := fun s => Build_WcmdState
  (ws_recv_total s) (ws_accepted s) (ws_rejected_format s) (ws_rejected_disabled s)
  (ws_rejected_unknown s) (ws_rejected_blocked s) (ws_rejected_range s)
  (ws_rejected_rate s) (ws_rejected_peer s) (ws_coalesced_burst s) (ws_http_errors s)
  (ws_last_apply_us s) (ws_last_seq s) (ws_last_seq_us s) (ws_last_recv_us s)
  (ws_last_status s) (ws_last_key s) (ws_last_value s) (ws_last_http_status s)
  (ws_radio_written s) (ws_radio_written_body s).

Definition wcmd_zero : WcmdState := {|
  ws_recv_total := 0; ws_accepted := 0; ws_rejected_format := 0; ws_rejected_disabled := 0;
  ws_rejected_unknown := 0; ws_rejected_blocked := 0; ws_rejected_range := 0;
  ws_rejected_rate := 0; ws_rejected_peer := 0; ws_coalesced_burst := 0; ws_http_errors := 0;
  ws_last_apply_us := replicate 21 0; ws_last_seq := replicate 21 0;
  ws_last_seq_us := replicate 21 0; ws_last_recv_us := 0; ws_last_status := ST_OK;
  ws_last_key := 0; ws_last_value := 0; ws_last_http_status := 0;
  ws_radio_written := false; ws_radio_written_body := radio_zero |}.

(** [g_logsync]. *)
Record LogSync := Build_LogSync {
  ls_valid : bool; ls_seq : Z; ls_gs_unix_s : Z; ls_recv_uptime_s : fp; ls_count : Z
}.

Definition logsync_zero : LogSync := Build_LogSync false 0 0 f0 0.

(** What a dispatch may change: the configuration (the two master switches), the proxy's
    state and the logging marker. *)
Record Proxy := Build_Proxy { px_cfg : Config; px_st : WcmdState; px_sync : LogSync }.

#[export] Instance eta_Proxy : Eta Proxy := fun p => Build_Proxy (px_cfg p) (px_st p) (px_sync p).

(** [s.p++] on a counter of type [uint64_t]. *)
Definition bump {R} (p : R -> Z) `{!Setter p} (s : R) : R := s <| p := u64 (p s + 1) |>.

(** ** Tables *)

(** [wcmd_build_path]; [long] and [int] hold every 32-bit value. *)
Definition wcmd_build_path (key value : Z) : option string :=
  if key =? WCMD_KEY_BITRATE_KBPS then Some ("/api/v1/set?video0.bitrate=" +:+ pretty value)
  else if key =? WCMD_KEY_FPS then Some ("/api/v1/set?video0.fps=" +:+ pretty value)
  else if key =? WCMD_KEY_PAYLOAD_BYTES then
    Some ("/api/v1/set?outgoing.maxPayloadSize=" +:+ pretty value)
  else if key =? WCMD_KEY_FORCE_IDR then Some "/request/idr"
  else if key =? WCMD_KEY_RECORD then
    Some (if value =? 0 then "/api/v1/record/stop" else "/api/v1/record/start")
  else None.

(** The value window of a key; [None] for a key without one. *)
Definition wcmd_window (cfg : Config) (key : Z) : option (Z * Z) :=
  let f := cfg_fec cfg in
  let c := cfg_cmd cfg in
  if key =? WCMD_KEY_BITRATE_KBPS then
    let fec_lo := if fec_enabled f then fec_bitrate_min_kbps f else 0 in
    let fec_hi := if fec_enabled f then fec_bitrate_max_kbps f else 0 in
    Some (i32 (if fec_lo >? 0 then fec_lo else cmd_bitrate_min_kbps c),
          i32 (if fec_hi >? 0 then fec_hi else cmd_bitrate_max_kbps c))
  else if key =? WCMD_KEY_FPS then Some (cmd_fps_min c, cmd_fps_max c)
  else if key =? WCMD_KEY_PAYLOAD_BYTES then Some (cmd_payload_min c, cmd_payload_max c)
  else if key =? WCMD_KEY_WFB_FEC_K then Some (cmd_wfb_fec_k_min c, cmd_wfb_fec_k_max c)
  else if key =? WCMD_KEY_WFB_FEC_N then Some (cmd_wfb_fec_n_min c, cmd_wfb_fec_n_max c)
  else if key =? WCMD_KEY_WFB_MCS then Some (cmd_wfb_mcs_min c, cmd_wfb_mcs_max c)
  else if key =? WCMD_KEY_WFB_BANDWIDTH then
    Some (cmd_wfb_bandwidth_min c, cmd_wfb_bandwidth_max c)
  else if bool_decide (key ∈ [WCMD_KEY_WFB_LDPC; WCMD_KEY_WFB_STBC; WCMD_KEY_WFB_SHORT_GI;
                              WCMD_KEY_FEC_ENABLED; WCMD_KEY_MCS_ENABLED; WCMD_KEY_RECORD;
                              WCMD_KEY_PEEK_ENABLED]) then Some (0, 1)
  else if key =? WCMD_KEY_WFB_TXPOWER then Some (cmd_wfb_txpower_min c, cmd_wfb_txpower_max c)
  else None.

(** [wcmd_clamp_value]: the return code (0 kept, 1 clamped, -1 refused) and the value. *)
Definition wcmd_clamp_value (cfg : Config) (key value : Z) : Z * Z :=
  if key =? WCMD_KEY_FORCE_IDR then (0, 0)
  else match wcmd_window cfg key with
  | None => (-1, value)
  | Some (lo, hi) =>
      if (hi <=? 0) || (lo >? hi) then (-1, value)
      else if value <? lo then (1, lo)
      else if value >? hi then (1, hi)
      else (0, value)
  end.

Definition wcmd_mark_applied (st : WcmdState) (key seq now : Z) : WcmdState :=
  st <| ws_last_apply_us := <[Z.to_nat key := now]> (ws_last_apply_us st) |>
     <| ws_last_seq := <[Z.to_nat key := seq]> (ws_last_seq st) |>
     <| ws_last_seq_us := <[Z.to_nat key := now]> (ws_last_seq_us st) |>.

Definition resp_init (req : WcmdReq) : WcmdResp :=
  Build_WcmdResp (rq_seq req) ST_OK (rq_key req) 0 0.

(** ** Outcomes

    The combinations of reply and bookkeeping the branches of [wcmd_dispatch] end in. *)

Definition outcome : Type := Z * WcmdResp * WcmdState.

(** Refused: a status and its counter. *)
Definition refuse (resp : WcmdResp) (st : WcmdState) (s : Status) (p : WcmdState -> Z)
    `{!Setter p} : WcmdResp * WcmdState :=
  (resp <| rs_status := s |>, (bump p st) <| ws_last_status := s |>).

(** Applied: reply [ST_OK] with the value, stamp key and sequence number. *)
Definition applied (resp : WcmdResp) (st : WcmdState) (req : WcmdReq) (now value http last_http : Z)
    : WcmdResp * WcmdState :=
  let st := wcmd_mark_applied st (rq_key req) (rq_seq req) now in
  (resp <| rs_status := ST_OK |> <| rs_http_status := http |> <| rs_applied_value := value |>,
   (bump ws_accepted st) <| ws_last_status := ST_OK |> <| ws_last_value := value |>
     <| ws_last_http_status := last_http |>).

(** [(rc > 0 && rc <= 0xFFFF) ? rc : 0]. *)
Definition rc_http (rc : Z) : Z := if (rc >? 0) && (rc <=? 0xFFFF) then rc else 0.

(** The same (key, seq) was applied within the window. *)
Definition is_burst_dup (st : WcmdState) (req : WcmdReq) (now : Z) : bool :=
  let last := ws_last_seq_us st !!! Z.to_nat (rq_key req) in
  negb (last =? 0) && (ws_last_seq st !!! Z.to_nat (rq_key req) =? rq_seq req) &&
  (u64 (now - last) <? WCMD_BURST_DEDUP_US).

Definition INADDR_LOOPBACK : Z := 0x7F000001.

Section Dispatch.
Context {EV : Env}.
(** [g_log_start_us]. *)
Context (log_start_us : Z).

Definition log_rel_s : IO fp :=
  let! t := now_us in io_ret (F64.of_Z (u64 (t - log_start_us)) / F64.of_Z 1000000)%f64.

(** Infrastructure key 18. *)
Definition dispatch_log_sync (px : Proxy) (req : WcmdReq) (resp : WcmdResp) (now : Z)
    : IO (WcmdResp * Proxy) :=
  let st := px_st px in
  let finish st sync :=
    (resp <| rs_status := ST_OK |> <| rs_http_status := 0 |>
          <| rs_applied_value := rq_value req |>,
     Build_Proxy (px_cfg px)
       (st <| ws_last_status := ST_OK |> <| ws_last_value := rq_value req |>
           <| ws_last_http_status := 0 |>) sync) in
  if is_burst_dup st req now then io_ret (finish (bump ws_coalesced_burst st) (px_sync px))
  else
    let! up := log_rel_s in
    let sync := Build_LogSync true (rq_seq req) (rq_value req) up
                  (u64 (ls_count (px_sync px) + 1)) in
    io_ret (finish (bump ws_accepted (wcmd_mark_applied st (rq_key req) (rq_seq req) now)) sync).

(** Infrastructure key 19. *)
Definition dispatch_log_control (px : Proxy) (req : WcmdReq) (resp : WcmdResp) (now : Z)
    : IO (WcmdResp * Proxy) :=
  let st := px_st px in
  let flag := if rq_value req =? 0 then 0 else 1 in
  let finish st :=
    (resp <| rs_status := ST_OK |> <| rs_http_status := 0 |> <| rs_applied_value := flag |>,
     px <| px_st := (st <| ws_last_status := ST_OK |> <| ws_last_value := flag |>
                        <| ws_last_http_status := 0 |>) |>) in
  if is_burst_dup st req now then io_ret (finish (bump ws_coalesced_burst st))
  else
    let! _ := io_log (EvLogger (negb (rq_value req =? 0))) in
    io_ret (finish (bump ws_accepted (wcmd_mark_applied st (rq_key req) (rq_seq req) now))).

(** Key 20. *)
Definition dispatch_return_apfpv (cfg : Config) (st : WcmdState) (req : WcmdReq)
    (resp : WcmdResp) (now : Z) : IO (WcmdResp * WcmdState) :=
  let rec := cfg_recovery cfg in
  if negb (recovery_enabled rec) || String.eqb (recovery_apfpv_cmd rec) EmptyString then
    io_ret (resp <| rs_status := ST_DISABLED |>, st <| ws_last_status := ST_DISABLED |>)
  else
    let! rc := (if dry_run cfg then io_ret 0
                else wfb_run_recovery_cmd (recovery_apfpv_cmd rec)) in
    io_ret
      (if rc =? 0 then applied resp st req now 0 0 0
       else
         (resp <| rs_status := ST_HTTP_ERROR |> <| rs_http_status := rc_http rc |>,
          (wcmd_mark_applied st (rq_key req) (rq_seq req) now)
            <| ws_last_status := ST_HTTP_ERROR |>)).

(** Keys 12 and 13: the adaptive subsystems' switches. *)
Definition dispatch_toggle (cfg : Config) (st : WcmdState) (req : WcmdReq)
    (resp : WcmdResp) (now value : Z) : WcmdResp * WcmdState * Config :=
  let on := negb (value =? 0) in
  let cfg :=
    if rq_key req =? WCMD_KEY_FEC_ENABLED
    then cfg <| cfg_fec := ((cfg_fec cfg) <| fec_enabled := on |>) |>
    else cfg <| cfg_mcs := ((cfg_mcs cfg) <| mcs_enabled := on |>) |> in
  (applied resp st req now (if on then 1 else 0) 0 0, cfg).

(** Key 16. *)
Definition dispatch_peek (cfg : Config) (st : WcmdState) (req : WcmdReq)
    (resp : WcmdResp) (now value : Z) : IO (WcmdResp * WcmdState) :=
  let flag := if value =? 0 then 0 else 1 in
  if dry_run cfg then io_ret (applied resp st req now flag 0 0)
  else
    let! rc := wfb_set_peek (wfb_host cfg) (wfb_port cfg) flag in
    if negb (rc =? 0) then io_ret (refuse resp st ST_HTTP_ERROR ws_http_errors)
    else
      let! _ := wfb_get_peek (wfb_host cfg) (wfb_port cfg) in
      io_ret (applied resp st req now flag 0 0).

(** Key 14. *)
Definition txpower_iface (cfg : Config) : string :=
  match cmd_wfb_iface (cfg_cmd cfg) with
  | EmptyString => csa_iface (cfg_csa cfg)
  | iface => iface
  end.

Definition dispatch_txpower (cfg : Config) (st : WcmdState) (req : WcmdReq)
    (resp : WcmdResp) (now value : Z) : IO (WcmdResp * WcmdState) :=
  match txpower_iface cfg with
  | EmptyString => io_ret (refuse resp st ST_OUT_OF_RANGE ws_rejected_range)
  | iface =>
      if dry_run cfg then io_ret (applied resp st req now value 0 0)
      else
        let! rc := wfb_run_iw_txpower iface value in
        io_ret
          (if negb (rc =? 0) then
             let '(resp, st) := refuse resp st ST_HTTP_ERROR ws_http_errors in
             (resp <| rs_http_status := rc_http rc |>, st <| ws_last_http_status := rc |>)
           else applied resp st req now value 0 0)
  end.

(** Keys 5 and 6. *)
Definition dispatch_wfb_fec (cfg : Config) (st : WcmdState) (req : WcmdReq)
    (resp : WcmdResp) (now value : Z) : IO (WcmdResp * WcmdState) :=
  let! got := wfb_get_fec (wfb_host cfg) (wfb_port cfg) in
  match got with
  | None => io_ret (refuse resp st ST_HTTP_ERROR ws_http_errors)
  | Some (k_now, n_now, _) =>
      let new_k := if rq_key req =? WCMD_KEY_WFB_FEC_K then value else k_now in
      let new_n := if rq_key req =? WCMD_KEY_WFB_FEC_N then value else n_now in
      if new_k >? new_n then io_ret (refuse resp st ST_OUT_OF_RANGE ws_rejected_range)
      else
        let! rc := wfb_send_set_fec (wfb_host cfg) (wfb_port cfg) new_k new_n in
        io_ret (if negb (rc =? 0) then refuse resp st ST_HTTP_ERROR ws_http_errors
                else applied resp st req now value 0 0)
  end.

(** Keys 7 to 11: one field of the radio body. *)
Definition radio_key_update (key value : Z) (r : RadioBody) : RadioBody :=
  if key =? WCMD_KEY_WFB_MCS then r <| rb_mcs_index := u8 value |>
  else if key =? WCMD_KEY_WFB_BANDWIDTH then r <| rb_bandwidth := u8 value |>
  else if key =? WCMD_KEY_WFB_LDPC then r <| rb_ldpc := norm_flag value |>
  else if key =? WCMD_KEY_WFB_STBC then r <| rb_stbc := u8 value |>
  else if key =? WCMD_KEY_WFB_SHORT_GI then r <| rb_short_gi := norm_flag value |>
  else r.

Definition dispatch_wfb_radio (cfg : Config) (st : WcmdState) (req : WcmdReq)
    (resp : WcmdResp) (now value : Z) : IO (WcmdResp * WcmdState) :=
  let! got := wfb_get_radio (wfb_host cfg) (wfb_port cfg) in
  match got with
  | None => io_ret (refuse resp st ST_HTTP_ERROR ws_http_errors)
  | Some r =>
      let r := radio_key_update (rq_key req) value r in
      let! rc := wfb_set_radio (wfb_host cfg) (wfb_port cfg) r in
      io_ret (if negb (rc =? 0) then refuse resp st ST_HTTP_ERROR ws_http_errors
              else applied resp (st <| ws_radio_written := true |>
                                    <| ws_radio_written_body := r |>) req now value 0 0)
  end.

Definition dispatch_wfb (cfg : Config) (st : WcmdState) (req : WcmdReq)
    (resp : WcmdResp) (now value : Z) : IO (WcmdResp * WcmdState) :=
  if dry_run cfg then io_ret (applied resp st req now value 0 0)
  else if (rq_key req =? WCMD_KEY_WFB_FEC_K) || (rq_key req =? WCMD_KEY_WFB_FEC_N)
  then dispatch_wfb_fec cfg st req resp now value
  else dispatch_wfb_radio cfg st req resp now value.

(** The encoder's keys, over HTTP. *)
Definition venc_accepts (body : string) : bool :=
  contains body (quoted "ok" +:+ ":true") || contains body (quoted "ok" +:+ ": true") ||
  contains body (quoted "idr" +:+ ":true") || contains body (quoted "idr" +:+ ": true").

Definition dispatch_venc (cfg : Config) (st : WcmdState) (req : WcmdReq)
    (resp : WcmdResp) (now value : Z) : IO (Z * (WcmdResp * WcmdState)) :=
  match wcmd_build_path (rq_key req) value with
  | None => io_ret (-1, refuse resp st ST_UNKNOWN_KEY ws_rejected_unknown)
  | Some path =>
      if dry_run cfg then io_ret (0, applied resp st req now value 200 200)
      else
        let! (got, http_status) :=
          http_get (fec_venc_host (cfg_fec cfg)) (fec_venc_port (cfg_fec cfg)) path 1024 in
        let ok := match got with
                  | Some (String _ _ as body) => venc_accepts body
                  | _ => false
                  end in
        io_ret (0,
          if negb ok then
            let '(resp, st) := refuse resp st ST_HTTP_ERROR ws_http_errors in
            (resp <| rs_http_status := u16 http_status |>,
             st <| ws_last_http_status := http_status |>)
          else applied resp st req now value
                 (u16 (if http_status >? 0 then http_status else 200)) http_status)
  end.

(** What every request records on arrival. *)
Definition wcmd_receive (st : WcmdState) (req : WcmdReq) (now : Z) : WcmdState :=
  (bump ws_recv_total st) <| ws_last_recv_us := now |> <| ws_last_key := rq_key req |>
    <| ws_last_value := rq_value req |> <| ws_last_http_status := 0 |>.

(** The action of an operator key whose value passed its window. *)
Definition dispatch_action (px : Proxy) (req : WcmdReq) (resp : WcmdResp) (now value : Z)
    : IO (Z * WcmdResp * Proxy) :=
  let cfg := px_cfg px in
  let st := px_st px in
  let key := rq_key req in
  if (key =? WCMD_KEY_FEC_ENABLED) || (key =? WCMD_KEY_MCS_ENABLED) then
    let '(resp, st, cfg) := dispatch_toggle cfg st req resp now value in
    io_ret (0, resp, px <| px_st := st |> <| px_cfg := cfg |>)
  else if key =? WCMD_KEY_PEEK_ENABLED then
    let! (resp, st) := dispatch_peek cfg st req resp now value in
    io_ret (0, resp, px <| px_st := st |>)
  else if key =? WCMD_KEY_WFB_TXPOWER then
    let! (resp, st) := dispatch_txpower cfg st req resp now value in
    io_ret (0, resp, px <| px_st := st |>)
  else if (key >=? WCMD_KEY_WFB_FEC_K) && (key <=? WCMD_KEY_WFB_SHORT_GI) then
    let! (resp, st) := dispatch_wfb cfg st req resp now value in
    io_ret (0, resp, px <| px_st := st |>)
  else
    let! (rc, (resp, st)) := dispatch_venc cfg st req resp now value in
    io_ret (rc, resp, px <| px_st := st |>).

(** The gates an operator key passes before its action: window and rate. *)
Definition dispatch_operator (px : Proxy) (req : WcmdReq) (resp : WcmdResp) (now : Z)
    : IO (Z * WcmdResp * Proxy) :=
  let cfg := px_cfg px in
  let st := px_st px in
  let key := rq_key req in
  let refused '(resp, st) := io_ret (0, resp, px <| px_st := st |>) in
  if (key =? WCMD_KEY_WFB_TXPOWER) && cmd_tx_pwr_by_rate (cfg_cmd cfg) then
    refused (let '(resp, st) := refuse resp st ST_DISABLED ws_rejected_disabled in
             (resp, st <| ws_last_value := rq_value req |>))
  else
    let '(clamp_rc, value) := wcmd_clamp_value cfg key (rq_value req) in
    if clamp_rc <? 0 then refused (refuse resp st ST_OUT_OF_RANGE ws_rejected_range)
    else
      let last := ws_last_apply_us st !!! Z.to_nat key in
      let min_us := u64 (cmd_rate_limit_ms (cfg_cmd cfg) * 1000) in
      if (cmd_rate_limit_ms (cfg_cmd cfg) >? 0) && negb (last =? 0) &&
         (u64 (now - last) <? min_us)
      then
        refused (let '(resp, st) := refuse resp st ST_RATE_LIMITED ws_rejected_rate in
                 (resp <| rs_applied_value := value |>, st <| ws_last_value := value |>))
      else dispatch_action px req resp now value.

Definition wcmd_dispatch (px : Proxy) (req : WcmdReq) (peer_addr now : Z)
    : IO (Z * WcmdResp * Proxy) :=
  let cfg := px_cfg px in
  let resp := resp_init req in
  let st := wcmd_receive (px_st px) req now in
  let px := px <| px_st := st |> in
  let key := rq_key req in
  let refused rc '(resp, st) := io_ret (rc, resp, px <| px_st := st |>) in
  if negb (cmd_enabled (cfg_cmd cfg)) then
    refused 0 (refuse resp st ST_DISABLED ws_rejected_disabled)
  else if cmd_loopback_only (cfg_cmd cfg) && negb (peer_addr =? INADDR_LOOPBACK) then
    refused 0 (refuse resp st ST_NOT_PERMITTED ws_rejected_peer)
  else if (key =? 0) || (key >? WCMD_NUM_KEYS) then
    refused (-1) (refuse resp st ST_UNKNOWN_KEY ws_rejected_unknown)
  else if key =? WCMD_KEY_LOG_SYNC then
    let! (resp, px) := dispatch_log_sync px req resp now in io_ret (0, resp, px)
  else if key =? WCMD_KEY_LOG_CONTROL then
    let! (resp, px) := dispatch_log_control px req resp now in io_ret (0, resp, px)
  else if negb (Z.testbit (cmd_allow_keys_mask (cfg_cmd cfg)) (key - 1)) then
    refused 0 (refuse resp st ST_KEY_BLOCKED ws_rejected_blocked)
  else if is_burst_dup st req now then
    let resp := resp <| rs_status := ST_OK |> <| rs_http_status := u16 (ws_last_http_status st) |>
                     <| rs_applied_value := ws_last_value st |> in
    io_ret (0, resp,
      px <| px_st := ((bump ws_coalesced_burst st) <| ws_last_status := ST_OK |>) |>)
  else if key =? WCMD_KEY_RETURN_APFPV then
    let! (resp, st) := dispatch_return_apfpv cfg st req resp now in
    io_ret (0, resp, px <| px_st := st |>)
  else dispatch_operator px req resp now.
End Dispatch.

(** ** Accounting *)

(** The sum of the counters a dispatch ends in. *)
Definition ws_outcomes (st : WcmdState) : Z :=
  ws_accepted st + ws_rejected_format st + ws_rejected_disabled st + ws_rejected_unknown st +
  ws_rejected_blocked st + ws_rejected_range st + ws_rejected_rate st + ws_rejected_peer st +
  ws_coalesced_burst st + ws_http_errors st.

(** One more outcome, modulo the width of the counters. *)
Definition counted (st st' : WcmdState) : Prop :=
  u64 (ws_outcomes st') = u64 (ws_outcomes st + 1).

Lemma u64_add_l a b : u64 (u64 a + b) = u64 (a + b).
Proof. unfold u64, wrap. apply Zplus_mod_idemp_l. Qed.

Lemma counted_rest a b r s :
  a = u64 (b + 1) -> r + b = s -> u64 (r + a) = u64 (s + 1).
Proof. intros -> <-. rewrite Z.add_comm, u64_add_l. f_equal. lia. Qed.

Local Ltac solve_counted :=
  unfold counted, ws_outcomes; cbn;
  match goal with
  | |- u64 ?l = _ =>
      match l with
      | context [u64 (?x + 1)] =>
          let k := fresh "k" in set (k := u64 (x + 1));
          match goal with
          | |- u64 ?l = _ => replace l with ((l - k) + k) by lia
          end;
          apply (counted_rest k x); [reflexivity|lia]
      end
  end.

(** A counter that stands for an outcome of a dispatch. *)
Class OutcomeCounter (p : WcmdState -> Z) `{!Setter p} : Prop := {
  oc_counted resp st s : counted st (refuse resp st s p).2;
  oc_recv resp st s : ws_recv_total (refuse resp st s p).2 = ws_recv_total st
}.

Local Ltac outcome_counter := split; [intros; solve_counted|reflexivity].
#[export] Instance oc_disabled : OutcomeCounter ws_rejected_disabled.
Proof. outcome_counter. Qed.
#[export] Instance oc_unknown : OutcomeCounter ws_rejected_unknown.
Proof. outcome_counter. Qed.
#[export] Instance oc_blocked : OutcomeCounter ws_rejected_blocked.
Proof. outcome_counter. Qed.
#[export] Instance oc_range : OutcomeCounter ws_rejected_range.
Proof. outcome_counter. Qed.
#[export] Instance oc_rate : OutcomeCounter ws_rejected_rate.
Proof. outcome_counter. Qed.
#[export] Instance oc_peer : OutcomeCounter ws_rejected_peer.
Proof. outcome_counter. Qed.
#[export] Instance oc_http : OutcomeCounter ws_http_errors.
Proof. outcome_counter. Qed.

Lemma counted_applied resp st req now v h lh : counted st (applied resp st req now v h lh).2.
Proof. solve_counted. Qed.

(** ** What a dispatch does *)

Definition acted (s : Status) : Prop := s = ST_OK \/ s = ST_HTTP_ERROR.

(** A branch: at most one change outside, none unless it reports [ST_OK] or
    [ST_HTTP_ERROR], and exactly one outcome counted. *)
Definition branch_ok (st : WcmdState) (r : WcmdResp * WcmdState) (es : list Event) : Prop :=
  (mutations es <= 1)%nat /\ (acted (rs_status r.1) \/ mutations es = 0%nat) /\
  counted st r.2 /\ ws_recv_total r.2 = ws_recv_total st.

(** The operator's two switches, the only part of the configuration a command changes. *)
Definition switched (cfg : Config) (fec mcs : bool) : Config :=
  cfg <| cfg_fec := ((cfg_fec cfg) <| fec_enabled := fec |>) |>
      <| cfg_mcs := ((cfg_mcs cfg) <| mcs_enabled := mcs |>) |>.

Definition switched_from (cfg cfg' : Config) : Prop := exists fec mcs, cfg' = switched cfg fec mcs.

Lemma switched_refl cfg : switched_from cfg cfg.
Proof.
  exists (fec_enabled (cfg_fec cfg)), (mcs_enabled (cfg_mcs cfg)).
  destruct cfg as [f m]. by destruct f, m.
Qed.

Lemma toggle_switches cfg st req resp now v :
  switched_from cfg (dispatch_toggle cfg st req resp now v).2.
Proof.
  unfold dispatch_toggle. cbn [snd]. destruct cfg as [f m]. destruct (_ =? _).
  - exists (negb (v =? 0)), (mcs_enabled m). by destruct m.
  - exists (fec_enabled f), (negb (v =? 0)). by destruct f.
Qed.

Section DispatchFacts.
Context {EV : Env}.

Lemma refuse_ok resp st s p `{OutcomeCounter p} es :
  mutations es = 0%nat \/ (mutations es <= 1)%nat /\ acted s ->
  branch_ok st (refuse resp st s p) es.
Proof.
  intros Hm. split_and!; [lia| |apply oc_counted|apply oc_recv]. destruct Hm; cbn; tauto.
Qed.

Lemma applied_ok resp st req now v h lh es :
  (mutations es <= 1)%nat -> branch_ok st (applied resp st req now v h lh) es.
Proof. intros. split_and!; [done|left; by left|apply counted_applied|done]. Qed.

(** Close a branch from what is known of its events. *)
Local Ltac reads :=
  repeat match goal with
  | H : exists _, at_most _ _ |- _ => destruct H
  | H : at_most ?e ?es |- _ =>
      first [ pose proof (mutations_read e es H eq_refl); clear H
            | pose proof (mutations_at_most e es H); clear H ]
  end;
  rewrite ?mutations_app; change (mutations []) with 0%nat.
Local Ltac close_branch :=
  repeat match goal with
  | |- branch_ok _ (if ?b then _ else _) _ => destruct b
  end;
  lazymatch goal with
  | |- branch_ok _ (applied _ _ _ _ _ _ _) _ => apply applied_ok; reads; lia
  | |- branch_ok _ (refuse _ _ ST_HTTP_ERROR _) _ =>
      apply refuse_ok; [exact _|right; split; [reads; lia|by right]]
  | |- branch_ok _ (refuse _ _ _ _) _ => apply refuse_ok; [exact _|left; reads; lia]
  end.

Lemma peek_ok cfg st req resp now v :
  yields (dispatch_peek cfg st req resp now v) (branch_ok st).
Proof. unfold dispatch_peek. repeat yields_step; close_branch. Qed.

Lemma wfb_fec_ok cfg st req resp now v :
  yields (dispatch_wfb_fec cfg st req resp now v) (branch_ok st).
Proof. unfold dispatch_wfb_fec. repeat yields_step; close_branch. Qed.
Lemma wfb_radio_ok cfg st req resp now v :
  yields (dispatch_wfb_radio cfg st req resp now v) (branch_ok st).
Proof.
  unfold dispatch_wfb_radio. repeat yields_step; try close_branch.
  destruct (negb _); [close_branch|].
  split_and!; [reads; lia|by left; left|solve_counted|done].
Qed.

Lemma wfb_ok cfg st req resp now v :
  yields (dispatch_wfb cfg st req resp now v) (branch_ok st).
Proof.
  unfold dispatch_wfb. repeat yields_step; [close_branch|apply wfb_fec_ok|apply wfb_radio_ok].
Qed.

Lemma txpower_ok cfg st req resp now v :
  yields (dispatch_txpower cfg st req resp now v) (branch_ok st).
Proof.
  unfold dispatch_txpower. repeat yields_step; try close_branch.
  destruct (negb _); [|close_branch].
  split_and!; [reads; lia|by left; right|solve_counted|done].
Qed.

Lemma venc_ok cfg st req resp now v :
  yields (dispatch_venc cfg st req resp now v) (fun r es => branch_ok st r.2 es).
Proof.
  unfold dispatch_venc. repeat yields_step; cbn [snd]; try close_branch.
  all: destruct (negb _); [|close_branch].
  split_and!; [reads; lia|by left; right|solve_counted|done].
Qed.

(** A whole dispatch: as a branch, and the configuration changes only when the request
    was applied. *)
Definition dispatch_ok (px : Proxy) (r : Z * WcmdResp * Proxy) (es : list Event) : Prop :=
  branch_ok (px_st px) (r.1.2, px_st r.2) es /\
  (px_cfg r.2 = px_cfg px \/
   rs_status r.1.2 = ST_OK /\ switched_from (px_cfg px) (px_cfg r.2)).

Lemma lift_branch px resp st es rc :
  branch_ok (px_st px) (resp, st) es ->
  dispatch_ok px (rc, resp, px <| px_st := st |>) es.
Proof. intros H. split; [exact H|by left]. Qed.

Lemma action_ok px req resp now v :
  yields (dispatch_action px req resp now v) (dispatch_ok px).
Proof.
  unfold dispatch_action. cbv zeta.
  destruct (_ || _).
  { pose proof (toggle_switches (px_cfg px) (px_st px) req resp now v) as Hs.
    unfold dispatch_toggle in *. cbn iota beta zeta. apply yields_ret.
    split; [|by right]. split_and!; [cbn; lia|by left; left|apply counted_applied|done]. }
  destruct (_ =? WCMD_KEY_PEEK_ENABLED).
  { eapply yields_bind; [apply peek_ok|]. intros [r st] es H. apply yields_ret. by apply lift_branch. }
  destruct (_ =? WCMD_KEY_WFB_TXPOWER).
  { eapply yields_bind; [apply txpower_ok|]. intros [r st] es H. apply yields_ret. by apply lift_branch. }
  destruct (_ && _).
  { eapply yields_bind; [apply wfb_ok|]. intros [r st] es H. apply yields_ret. by apply lift_branch. }
  eapply yields_bind; [apply venc_ok|]. intros [rc [r st]] es H. apply yields_ret. by apply lift_branch.
Qed.

Lemma operator_ok px req resp now :
  yields (dispatch_operator px req resp now) (dispatch_ok px).
Proof.
  unfold dispatch_operator. cbv zeta.
  destruct (_ && cmd_tx_pwr_by_rate _).
  { apply yields_ret. split; [|by left]. split_and!; [cbn; lia|by right|solve_counted|done]. }
  destruct (wcmd_clamp_value _ _ _) as [rc v].
  destruct (rc <? 0).
  { apply yields_ret, lift_branch, refuse_ok; [exact _|by left]. }
  destruct (_ && _ && _); [|apply action_ok].
  apply yields_ret. split; [|by left]. split_and!; [cbn; lia|by right|solve_counted|done].
Qed.

(** The same, seen from the request's arrival. *)
Definition request_ok (px : Proxy) (req : WcmdReq) (r : Z * WcmdResp * Proxy)
    (es : list Event) : Prop :=
  (mutations es <= 1)%nat /\ (acted (rs_status r.1.2) \/ mutations es = 0%nat) /\
  (px_cfg r.2 = px_cfg px \/
   rs_status r.1.2 = ST_OK /\ switched_from (px_cfg px) (px_cfg r.2)) /\
  (rq_key req <> WCMD_KEY_RETURN_APFPV -> counted (px_st px) (px_st r.2)) /\
  ws_recv_total (px_st r.2) = u64 (ws_recv_total (px_st px) + 1).

Lemma received_ok px req now r es :
  dispatch_ok (px <| px_st := wcmd_receive (px_st px) req now |>) r es ->
  request_ok px req r es.
Proof.
  intros ((H1 & H2 & H3 & H4) & H5). split_and!; done.
Qed.

Lemma refused_ok px req now resp s rc p `{OutcomeCounter p} :
  yields (let '(resp, st) := refuse resp (wcmd_receive (px_st px) req now) s p in
          io_ret (rc, resp, px <| px_st := wcmd_receive (px_st px) req now |>
                               <| px_st := st |>)) (request_ok px req).
Proof.
  apply yields_ret. apply (received_ok px req now).
  change (refuse resp _ s p) with
    ((refuse resp (wcmd_receive (px_st px) req now) s p).1,
     (refuse resp (wcmd_receive (px_st px) req now) s p).2).
  apply lift_branch, (refuse_ok _ _ _ _). by left.
Qed.

Lemma log_rel_yields start :
  yields (log_rel_s start) (fun _ es => exists t, es = [EvNow t]).
Proof.
  eapply yields_bind; [apply yields_now|]. intros t es ->. apply yields_ret. by exists t.
Qed.

Lemma log_sync_ok start px req resp now :
  yields (dispatch_log_sync start px req resp now) (fun r es =>
    mutations es = 0%nat /\ px_cfg r.2 = px_cfg px /\ counted (px_st px) (px_st r.2) /\
    ws_recv_total (px_st r.2) = ws_recv_total (px_st px)).
Proof.
  unfold dispatch_log_sync, log_rel_s. cbv zeta.
  destruct (is_burst_dup _ _ _); [apply yields_ret; split_and!; [done|done|solve_counted|done]|].
  eapply yields_bind; [apply log_rel_yields|]. intros up es [t ->].
  apply yields_ret. split_and!; [done|done|solve_counted|done].
Qed.

Lemma log_control_ok px req resp now :
  yields (dispatch_log_control px req resp now) (fun r es =>
    (mutations es <= 1)%nat /\ rs_status r.1 = ST_OK /\ px_cfg r.2 = px_cfg px /\
    counted (px_st px) (px_st r.2) /\ ws_recv_total (px_st r.2) = ws_recv_total (px_st px)).
Proof.
  unfold dispatch_log_control. cbv zeta.
  destruct (is_burst_dup _ _ _).
  { apply yields_ret. split_and!; [cbn; lia|done|done|solve_counted|done]. }
  eapply yields_bind; [apply yields_log|]. intros [] es H%mutations_at_most.
  apply yields_ret. split_and!; [exact H|done|done|solve_counted|done].
Qed.

Lemma return_apfpv_ok cfg st req resp now :
  yields (dispatch_return_apfpv cfg st req resp now) (fun r es =>
    (mutations es <= 1)%nat /\ (acted (rs_status r.1) \/ mutations es = 0%nat) /\
    ws_recv_total r.2 = ws_recv_total st).
Proof.
  unfold dispatch_return_apfpv. cbv zeta.
  destruct (_ || _); [apply yields_ret; cbn; auto|].
  assert (forall rc es, (mutations es <= 1)%nat ->
    let r := if rc =? 0 then applied resp st req now 0 0 0 else
      (resp <| rs_status := ST_HTTP_ERROR |> <| rs_http_status := rc_http rc |>,
       (wcmd_mark_applied st (rq_key req) (rq_seq req) now) <| ws_last_status := ST_HTTP_ERROR |>) in
    (mutations es <= 1)%nat /\ (acted (rs_status r.1) \/ mutations es = 0%nat) /\
    ws_recv_total r.2 = ws_recv_total st) as K.
  { intros rc es H. destruct (rc =? 0); cbn; unfold acted; auto 6. }
  eapply (yields_bind _ _ (fun _ es => (mutations es <= 1)%nat)).
  - destruct (dry_run cfg); [apply yields_ret; cbn; lia|].
    eapply yields_weaken; [apply yields_recovery_cmd|]. intros ? ?. apply mutations_at_most.
  - intros rc es H. apply yields_ret. by apply K.
Qed.

Lemma dispatch_yields start px req peer now :
  yields (wcmd_dispatch start px req peer now) (request_ok px req).
Proof.
  unfold wcmd_dispatch. cbv zeta.
  destruct (negb (cmd_enabled _)); [apply refused_ok; exact _|].
  destruct (_ && _); [apply refused_ok; exact _|].
  destruct (_ || _); [apply refused_ok; exact _|].
  destruct (_ =? WCMD_KEY_LOG_SYNC).
  { eapply yields_bind; [apply log_sync_ok|]. intros [r px'] es (H1 & H2 & H3 & H4).
    apply yields_ret. split_and!; cbn [fst snd] in *; [change (mutations es <= 1)%nat; lia|by right|by left|done|by rewrite H4]. }
  destruct (_ =? WCMD_KEY_LOG_CONTROL).
  { eapply yields_bind; [apply log_control_ok|]. intros [r px'] es (H1 & H2 & H3 & H4 & H5).
    apply yields_ret. split_and!; cbn [fst snd] in *; [change (mutations es <= 1)%nat; lia|by left; left|by left|done|by rewrite H5]. }
  destruct (negb (Z.testbit _ _)); [apply refused_ok; exact _|].
  destruct (is_burst_dup _ _ _).
  { apply yields_ret. split_and!; [cbn; lia|by right|by left|intros _; solve_counted|done]. }
  destruct (Z.eqb_spec (rq_key req) WCMD_KEY_RETURN_APFPV) as [Hk|Hk].
  { eapply yields_bind; [apply return_apfpv_ok|]. intros [r st] es (H1 & H2 & H3).
    apply yields_ret. split_and!; cbn [fst snd] in *; [change (mutations es <= 1)%nat; lia|done|by left|done|exact H3]. }
  eapply yields_weaken; [apply operator_ok|]. intros r es. apply received_ok.
Qed.

(** (C16) One request, one effect: whatever a datagram asks for, the dispatcher sends at most
    one changing request to the outside; unless it answers OK or "action failed" it sends
    none and leaves the configuration alone, of which it can change the two switches of the
    adaptive subsystems and nothing else; and every key other than the recovery key is
    counted under exactly one outcome. *)
Theorem wcmd_one_effect start px req peer now w :
  let '((rc, resp, px'), w') := wcmd_dispatch start px req peer now w in
  exists es, w_trace w' = (es ++ w_trace w)%list /\ (mutations es <= 1)%nat /\
    (acted (rs_status resp) \/ mutations es = 0%nat) /\
    (px_cfg px' = px_cfg px \/
     rs_status resp = ST_OK /\ switched_from (px_cfg px) (px_cfg px')) /\
    (rq_key req <> WCMD_KEY_RETURN_APFPV ->
     u64 (ws_outcomes (px_st px')) = u64 (ws_outcomes (px_st px) + 1)) /\
    ws_recv_total (px_st px') = u64 (ws_recv_total (px_st px) + 1).
Proof.
  destruct (dispatch_yields start px req peer now w) as (es & E & Q).
  destruct (wcmd_dispatch _ _ _ _ _ _) as [[[rc resp] px'] w']. eauto.
Qed.
End DispatchFacts.

(** ** Duplicates *)

Section Duplicates.
Context {EV : Env}.

(** A repeat of a request that was just applied, the same key and sequence number
    within half a second, has no effect whatever: nothing is sent, the configuration, the
    logging marker and the per-key stamps stay as they are. *)
Theorem wcmd_duplicate_inert start px req peer now w :
  is_burst_dup (px_st px) req now = true ->
  let '((_, resp, px'), w') := wcmd_dispatch start px req peer now w in
  w' = w /\ px_cfg px' = px_cfg px /\ px_sync px' = px_sync px /\
  ws_last_apply_us (px_st px') = ws_last_apply_us (px_st px) /\
  ws_last_seq (px_st px') = ws_last_seq (px_st px) /\
  ws_last_seq_us (px_st px') = ws_last_seq_us (px_st px) /\
  ws_radio_written (px_st px') = ws_radio_written (px_st px).
Proof.
  intros Hd. unfold wcmd_dispatch. cbv zeta.
  assert (is_burst_dup (wcmd_receive (px_st px) req now) req now = true) as Hd' by exact Hd.
  destruct (negb (cmd_enabled _)); [by cbn|].
  destruct (_ && _); [by cbn|].
  destruct (_ || _); [by cbn|].
  destruct (_ =? WCMD_KEY_LOG_SYNC).
  { unfold dispatch_log_sync, io_bind. cbv zeta.
    change (px_st (px <| px_st := _ |>)) with (wcmd_receive (px_st px) req now).
    by rewrite Hd'. }
  destruct (_ =? WCMD_KEY_LOG_CONTROL).
  { unfold dispatch_log_control, io_bind. cbv zeta.
    change (px_st (px <| px_st := _ |>)) with (wcmd_receive (px_st px) req now).
    by rewrite Hd'. }
  destruct (negb (Z.testbit _ _)); [by cbn|].
  by rewrite Hd'.
Qed.

(** Applying a request is what makes its repeat a duplicate. *)
Lemma applied_marks_duplicate resp st req now later v h lh :
  0 < rq_key req <= WCMD_NUM_KEYS -> length (ws_last_seq st) = 21%nat ->
  length (ws_last_seq_us st) = 21%nat -> 0 < now <= later -> later < 2 ^ 64 ->
  later - now < WCMD_BURST_DEDUP_US ->
  is_burst_dup (applied resp st req now v h lh).2 req later = true.
Proof.
  unfold WCMD_NUM_KEYS. intros Hk L1 L2 Hn Hl Hw. unfold is_burst_dup. cbn.
  rewrite !list_lookup_total_insert_eq by lia.
  rewrite Z.eqb_refl, u64_small by lia. lia.
Qed.
End Duplicates.

(** ** Value windows *)

(** A value that passes the window of its key lies inside it, is changed only when it lay
    outside, and passes unchanged when it comes again. *)
Theorem wcmd_clamp_sound cfg key value rc v :
  wcmd_clamp_value cfg key value = (rc, v) -> 0 <= rc -> key <> WCMD_KEY_FORCE_IDR ->
  exists lo hi, wcmd_window cfg key = Some (lo, hi) /\ lo <= v <= hi /\
    (rc = 0 <-> v = value) /\ (lo <= value <= hi -> v = value) /\
    wcmd_clamp_value cfg key v = (0, v).
Proof.
  unfold wcmd_clamp_value. intros E Hrc Hk. rewrite (proj2 (Z.eqb_neq key _) Hk) in *.
  destruct (wcmd_window cfg key) as [[lo hi]|]; [|injection E as <- <-; lia].
  destruct ((hi <=? 0) || (lo >? hi)) eqn:Eb; [injection E as <- <-; lia|].
  exists lo, hi. split; [done|].
  destruct (Z.ltb_spec value lo) as [H1|H1]; [|destruct (Z.gtb_spec value hi) as [H2|H2]];
    injection E as <- <-.
  - rewrite Z.ltb_irrefl, Z.gtb_ltb, (proj2 (Z.ltb_ge hi lo)) by lia. split_and!; try done; lia.
  - rewrite (proj2 (Z.ltb_ge hi lo)) by lia. rewrite Z.gtb_ltb, Z.ltb_irrefl. split_and!; try done; lia.
  - rewrite (proj2 (Z.ltb_ge value lo)) by lia. rewrite Z.gtb_ltb, (proj2 (Z.ltb_ge hi value)) by lia.
    split_and!; try done; lia.
Qed.

(** ** The wire *)

Definition req_ok (r : WcmdReq) : Prop :=
  0 <= rq_magic r < 2 ^ 32 /\ 0 <= rq_version r < 2 ^ 8 /\ 0 <= rq_msg_type r < 2 ^ 8 /\
  0 <= rq_seq r < 2 ^ 16 /\ 0 <= rq_key r < 2 ^ 8 /\ 0 <= rq_flags r < 2 ^ 8 /\
  0 <= rq_pad r < 2 ^ 16 /\ - 2 ^ 31 <= rq_value r < 2 ^ 31.

(** A request survives the wire: the sixteen bytes the ground station encodes are what the
    vehicle decodes, for every field value the frame can carry. *)
Theorem req_roundtrip r :
  req_ok r -> req_decode (req_encode r) = Some r /\ length (req_encode r) = 16%nat.
Proof.
  intros (H1 & H2 & H3 & H4 & H5 & H6 & H7 & H8). split; [|reflexivity].
  unfold req_decode, req_encode. cbn [length app be32_bytes be16_bytes Nat.ltb Nat.leb].
  destruct r as [mg ve mt sq ky fl pd vl]. cbn [rq_magic rq_version rq_msg_type rq_seq rq_key
    rq_flags rq_pad rq_value] in *. do 2 f_equal.
  - by apply be32_roundtrip.
  - by apply be16_roundtrip.
  - by apply be16_roundtrip.
  - etrans; [|apply i32_small; unfold INT_MIN, INT_MAX; lia]. unfold be32_at. cbn -[Z.shiftl Z.lor u8 i32]. by rewrite be32_wrap, i32_u32.
Qed.

(** ** The reply to a duplicate *)

(** The reply to a duplicated operator request does not repeat the first reply: the
    fields it is taken from were reset on arrival, so it carries HTTP status 0 and the
    value as requested, before the clamp. *)
Theorem wcmd_duplicate_reply `{!Env} start px req peer now w :
  let cfg := px_cfg px in
  cmd_enabled (cfg_cmd cfg) = true -> cmd_loopback_only (cfg_cmd cfg) = false ->
  0 < rq_key req <= WCMD_NUM_KEYS -> rq_key req <> WCMD_KEY_LOG_SYNC ->
  rq_key req <> WCMD_KEY_LOG_CONTROL ->
  Z.testbit (cmd_allow_keys_mask (cfg_cmd cfg)) (rq_key req - 1) = true ->
  is_burst_dup (px_st px) req now = true ->
  let '((_, resp, _), _) := wcmd_dispatch start px req peer now w in
  rs_status resp = ST_OK /\ rs_http_status resp = 0 /\ rs_applied_value resp = rq_value req.
Proof.
  cbn zeta. intros He Hl Hk H1 H2 Hm Hd. unfold wcmd_dispatch. cbv zeta.
  assert (is_burst_dup (wcmd_receive (px_st px) req now) req now = true) as Hd' by exact Hd.
  rewrite He, Hl, Hm, (proj2 (Z.eqb_neq _ _) H1), (proj2 (Z.eqb_neq _ _) H2), Hd'.
  destruct ((rq_key req =? 0) || (rq_key req >? WCMD_NUM_KEYS)) eqn:E; [lia|].
  cbn. auto.
Qed.

(** ** Witnesses *)

Definition cfg_proxy : Config :=
  config_defaults <| cfg_cmd := ((cfg_cmd config_defaults) <| cmd_enabled := true |>
    <| cmd_loopback_only := false |> <| cmd_allow_keys_mask := 0xFFFFF |>) |>.

Definition px_sample : Proxy := Build_Proxy cfg_proxy wcmd_zero logsync_zero.

Definition wcmd_req (seq key value : Z) : WcmdReq :=
  Build_WcmdReq WCMD_MAGIC WCMD_VERSION WCMD_MSG_REQ seq key 0 0 value.

(** A request of 500 fps is clamped; its repeat is not answered the same way. *)
Definition fps_req : WcmdReq := wcmd_req 7 WCMD_KEY_FPS 500.

Definition first_dispatch : Z * WcmdResp * Proxy * World :=
  @wcmd_dispatch peer_ok 0 px_sample fps_req INADDR_LOOPBACK 1000000 world_init.
Definition px_after : Proxy := first_dispatch.1.2.

Example first_reply :
  rs_status first_dispatch.1.1.2 = ST_OK /\ rs_http_status first_dispatch.1.1.2 = 200 /\
  rs_applied_value first_dispatch.1.1.2 = cmd_fps_max (cfg_cmd cfg_proxy).
Proof. vm_compute. auto. Qed.

Lemma px_after_dup : is_burst_dup (px_st px_after) fps_req 1100000 = true.
Proof. vm_compute. reflexivity. Qed.

Lemma wcmd_duplicate_inert_witness :
  (@wcmd_dispatch peer_ok 0 px_after fps_req INADDR_LOOPBACK 1100000 world_init).2
    = world_init.
Proof.
  pose proof (@wcmd_duplicate_inert peer_ok 0 px_after fps_req INADDR_LOOPBACK 1100000
    world_init px_after_dup) as H.
  destruct (wcmd_dispatch _ _ _ _ _ _) as [[[? ?] ?] ?]. apply H.
Defined.

Lemma wcmd_duplicate_reply_witness :
  rs_applied_value
    (@wcmd_dispatch peer_ok 0 px_after fps_req INADDR_LOOPBACK 1100000 world_init).1.1.2
    = 500.
Proof.
  pose proof (@wcmd_duplicate_reply peer_ok 0 px_after fps_req INADDR_LOOPBACK 1100000
    world_init) as H. cbn zeta in H.
  destruct (wcmd_dispatch _ _ _ _ _ _) as [[[? ?] ?] ?].
  apply H; try (vm_compute; reflexivity); vm_compute; intuition discriminate.
Defined.

Lemma wcmd_clamp_sound_witness :
  exists lo hi, wcmd_window cfg_proxy WCMD_KEY_FPS = Some (lo, hi) /\
    lo <= cmd_fps_max (cfg_cmd cfg_proxy) <= hi.
Proof.
  destruct (wcmd_clamp_sound cfg_proxy WCMD_KEY_FPS 500 1 (cmd_fps_max (cfg_cmd cfg_proxy)))
    as (lo & hi & H1 & H2 & _); [vm_compute; reflexivity|lia|discriminate|].
  exists lo, hi. auto.
Defined.

Lemma req_roundtrip_witness : req_decode (req_encode (wcmd_req 7 2 (-5))) = Some (wcmd_req 7 2 (-5)).
Proof. apply req_roundtrip. vm_compute. intuition discriminate. Defined.
