(* ===== verification/Recovery.v ===== *)
(** * The recovery channel

    [recovery_dispatch] of [vehicle/link_controller.c]: the open, keyless listener that
    can do one thing, run the recovery hook, after enough frames of one burst and not
    more often than the cool-down. *)

From S2P Require Import Prelude CFloat Config CString Io Net Wcmd.

(** [g_recovery]. *)
Record RecoveryState := Build_RecoveryState {
  rv_recv_total : Z; rv_rejected : Z; rv_armed : Z; rv_executed : Z; rv_last_recv_us : Z;
  rv_last_exec_us : Z; rv_last_exec_rc : Z; rv_arm_seq : Z; rv_arm_hits : Z;
  rv_arm_first_us : Z
}.

#[export] Instance eta_RecoveryState : Eta RecoveryState := fun r => Build_RecoveryState
  (rv_recv_total r) (rv_rejected r) (rv_armed r) (rv_executed r) (rv_last_recv_us r)
  (rv_last_exec_us r) (rv_last_exec_rc r) (rv_arm_seq r) (rv_arm_hits r) (rv_arm_first_us r).

Definition recovery_zero : RecoveryState := Build_RecoveryState 0 0 0 0 0 0 0 0 0 0.

Definition recovery_cooldown_us (cfg : Config) : Z :=
  let ms := recovery_cooldown_ms (cfg_recovery cfg) in
  u64 ((if ms >? 0 then ms else 10000) * 1000).
Definition recovery_window_us (cfg : Config) : Z :=
  let ms := recovery_arm_window_ms (cfg_recovery cfg) in
  u64 ((if ms >? 0 then ms else 2000) * 1000).
Definition recovery_arm_need (cfg : Config) : Z :=
  let n := recovery_arm_count (cfg_recovery cfg) in if n >? 0 then n else 1.

(** One more frame of the burst, or the first of a new one. *)
Definition recovery_arm (cfg : Config) (st : RecoveryState) (seq now : Z) : RecoveryState :=
  if (rv_arm_hits st =? 0) || negb (rv_arm_seq st =? seq) ||
     (u64 (now - rv_arm_first_us st) >? recovery_window_us cfg)
  then st <| rv_arm_seq := seq |> <| rv_arm_hits := 1 |> <| rv_arm_first_us := now |>
  else st <| rv_arm_hits := rv_arm_hits st + 1 |>.

Section Recovery.
Context {EV : Env}.

Definition recovery_dispatch (cfg : Config) (st : RecoveryState) (req : WcmdReq) (now : Z)
    : IO (WcmdResp * RecoveryState) :=
  let resp := resp_init req in
  let st := (bump rv_recv_total st) <| rv_last_recv_us := now |> in
  if negb (recovery_enabled (cfg_recovery cfg)) then
    io_ret (resp <| rs_status := ST_DISABLED |>, bump rv_rejected st)
  else if negb (rq_key req =? WCMD_KEY_RECOVERY_APFPV) then
    io_ret (resp <| rs_status := ST_UNKNOWN_KEY |>, bump rv_rejected st)
  else if negb (rv_last_exec_us st =? 0) &&
          (u64 (now - rv_last_exec_us st) <? recovery_cooldown_us cfg) then
    io_ret (resp <| rs_applied_value := rv_last_exec_rc st |>, st)
  else
    let st := recovery_arm cfg st (rq_seq req) now in
    if rv_arm_hits st <? recovery_arm_need cfg then
      io_ret (resp <| rs_applied_value := 0 |>, st)
    else
      let st := (bump rv_armed st) <| rv_arm_hits := 0 |> in
      let! rc := (if dry_run cfg then io_ret 0
                  else wfb_run_recovery_cmd (recovery_apfpv_cmd (cfg_recovery cfg))) in
      let st := st <| rv_last_exec_us := now |> <| rv_last_exec_rc := rc |> in
      io_ret
        (if rc =? 0 then (resp <| rs_applied_value := 0 |>, bump rv_executed st)
         else (resp <| rs_status := ST_HTTP_ERROR |> <| rs_http_status := rc_http rc |>, st)).

(** ** One frame *)

(** Whether the frame reaches the hook. *)
Definition fires (cfg : Config) (st : RecoveryState) (req : WcmdReq) (now : Z) : bool :=
  recovery_enabled (cfg_recovery cfg) && (rq_key req =? WCMD_KEY_RECOVERY_APFPV) &&
  ((rv_last_exec_us st =? 0) ||
   (recovery_cooldown_us cfg <=? u64 (now - rv_last_exec_us st))) &&
  (recovery_arm_need cfg <=? rv_arm_hits (recovery_arm cfg st (rq_seq req) now)).

Lemma arm_fields cfg st seq now :
  rv_last_exec_us (recovery_arm cfg st seq now) = rv_last_exec_us st /\
  rv_armed (recovery_arm cfg st seq now) = rv_armed st /\
  (rv_arm_hits (recovery_arm cfg st seq now) = 1 \/
   rv_arm_hits (recovery_arm cfg st seq now) = rv_arm_hits st + 1).
Proof. unfold recovery_arm. case_bool; cbn; auto. Qed.

Lemma recovery_dispatch_cases cfg st req now w :
  0 <= rv_arm_hits st ->
  let '((resp, st'), w') := recovery_dispatch cfg st req now w in
  if fires cfg st req now then
    rv_last_exec_us st' = now /\ rv_arm_hits st' = 0 /\ rv_armed st' = u64 (rv_armed st + 1) /\
    exists es, w_trace w' = (es ++ w_trace w)%list /\
      Forall (fun e => e = EvRecoveryCmd (recovery_apfpv_cmd (cfg_recovery cfg))) es
  else
    w' = w /\ rv_last_exec_us st' = rv_last_exec_us st /\ rv_armed st' = rv_armed st /\
    0 <= rv_arm_hits st' <= rv_arm_hits st + 1.
Proof.
  intros H0. unfold recovery_dispatch, fires. cbv zeta.
  set (st1 := bump rv_recv_total st <| rv_last_recv_us := now |>).
  change (rv_last_exec_us st1) with (rv_last_exec_us st).
  destruct (recovery_enabled _); cbn [negb andb]; [|cbn; lia || (split_and!; done || lia)].
  destruct (_ =? WCMD_KEY_RECOVERY_APFPV); cbn [negb andb]; [|cbn; split_and!; done || lia].
  destruct (negb (rv_last_exec_us st =? 0) && _) eqn:Ec.
  { replace (_ || _) with false by lia. cbn. split_and!; done || lia. }
  replace ((rv_last_exec_us st =? 0) || _) with true by lia. cbn [andb].
  assert (rv_arm_hits (recovery_arm cfg st1 (rq_seq req) now) =
          rv_arm_hits (recovery_arm cfg st (rq_seq req) now)) as Eh
    by (unfold recovery_arm; cbn; by case_bool).
  destruct (arm_fields cfg st1 (rq_seq req) now) as (F1 & F2 & F3). rewrite <- Eh.
  set (st2 := recovery_arm cfg st1 (rq_seq req) now) in *. clearbody st2.
  change (rv_last_exec_us st1) with (rv_last_exec_us st) in F1.
  change (rv_armed st1) with (rv_armed st) in F2.
  change (rv_arm_hits st1) with (rv_arm_hits st) in F3.
  destruct (Z.ltb_spec (rv_arm_hits st2) (recovery_arm_need cfg)).
  { rewrite (proj2 (Z.leb_gt _ _)) by done. cbn. split_and!; done || lia. }
  rewrite (proj2 (Z.leb_le _ _)) by done. unfold io_bind.
  assert (exists rc es w1, (if dry_run cfg then io_ret 0
      else wfb_run_recovery_cmd (recovery_apfpv_cmd (cfg_recovery cfg))) w = (rc, w1) /\
    w_trace w1 = (es ++ w_trace w)%list /\
    Forall (fun e => e = EvRecoveryCmd (recovery_apfpv_cmd (cfg_recovery cfg))) es)
    as (rc & es & w1 & -> & E & HF).
  { destruct (dry_run cfg); [by exists 0, [], w|].
    set (cmd := recovery_apfpv_cmd (cfg_recovery cfg)).
    destruct (performs_recovery_cmd (fun e => e = EvRecoveryCmd cmd) cmd eq_refl w)
      as (es & E & HF).
    destruct (wfb_run_recovery_cmd _ w) as [rc w1]. by exists rc, es, w1. }
  cbn. destruct (rc =? 0); cbn; rewrite F2; eauto 10.
Qed.

(** ** A run of frames *)

(** The times at which the frames of a run reached the hook, and what is left. *)
Fixpoint recovery_run (cfg : Config) (frames : list (WcmdReq * Z)) (st : RecoveryState)
    (w : World) : list Z * RecoveryState * World :=
  match frames with
  | [] => ([], st, w)
  | (req, now) :: frames =>
      let '((_, st'), w') := recovery_dispatch cfg st req now w in
      let '(ts, st'', w'') := recovery_run cfg frames st' w' in
      ((if fires cfg st req now then [now] else []) ++ ts, st'', w'')%list
  end.

(** Every two consecutive elements are at least [d] apart, starting at least [d] after
    [t0] (0: never). *)
Fixpoint spaced (d t0 : Z) (ts : list Z) : Prop :=
  match ts with
  | [] => True
  | t :: ts => (t0 = 0 \/ d <= t - t0) /\ spaced d t ts
  end.

(** The clock of a run: positive and never going back. *)
Fixpoint clock_ok (t0 : Z) (frames : list (WcmdReq * Z)) : Prop :=
  match frames with
  | [] => True
  | (_, t) :: frames => 0 < t < 2 ^ 64 /\ t0 <= t /\ clock_ok t frames
  end.

Lemma recovery_run_spaced cfg frames st w t0 :
  0 <= rv_arm_hits st -> 0 <= rv_last_exec_us st <= t0 -> clock_ok t0 frames ->
  spaced (recovery_cooldown_us cfg) (rv_last_exec_us st) (recovery_run cfg frames st w).1.1.
Proof.
  revert st w t0. induction frames as [|[req now] frames IH]; intros st w t0 Hh Hl Hc; [done|].
  cbn [recovery_run]. destruct Hc as (Hn & Ht & Hc).
  pose proof (recovery_dispatch_cases cfg st req now w Hh) as H.
  destruct (recovery_dispatch cfg st req now w) as [[resp st'] w'].
  destruct (fires cfg st req now) eqn:Ef.
  - destruct H as (E1 & E2 & _). specialize (IH st' w' now).
    rewrite E1, E2 in IH. specialize (IH ltac:(lia) ltac:(lia) Hc).
    destruct (recovery_run cfg frames st' w') as [[ts st''] w'']. cbn in *. split; [|done].
    unfold fires in Ef. bool_hyps. rewrite u64_small in * by lia. lia.
  - destruct H as (-> & E1 & _ & E2). specialize (IH st' w now).
    rewrite E1 in IH. specialize (IH ltac:(lia) ltac:(lia) Hc).
    by destruct (recovery_run cfg frames st' w) as [[ts st''] w''].
Qed.

(** However the open channel is flooded, the recovery hook runs at most once per
    cool-down. *)
Theorem recovery_cooldown cfg frames w :
  clock_ok 0 frames ->
  spaced (recovery_cooldown_us cfg) 0 (recovery_run cfg frames recovery_zero w).1.1.
Proof. intros H. by apply (recovery_run_spaced cfg frames recovery_zero w 0). Qed.

Lemma recovery_run_count cfg frames st w :
  0 <= rv_arm_hits st ->
  recovery_arm_need cfg * Z.of_nat (length (recovery_run cfg frames st w).1.1) <=
  rv_arm_hits st + Z.of_nat (length frames).
Proof.
  revert st w. induction frames as [|[req now] frames IH]; intros st w Hh; [cbn; lia|].
  cbn [recovery_run].
  pose proof (recovery_dispatch_cases cfg st req now w Hh) as H.
  destruct (recovery_dispatch cfg st req now w) as [[resp st'] w'].
  destruct (arm_fields cfg st (rq_seq req) now) as (_ & _ & Ha).
  destruct (fires cfg st req now) eqn:Ef.
  - destruct H as (_ & E2 & _). specialize (IH st' w' ltac:(lia)).
    destruct (recovery_run cfg frames st' w') as [[ts st''] w''].
    unfold fires in Ef. bool_hyps. cbn [fst snd app length] in *. lia.
  - destruct H as (_ & _ & _ & E2). specialize (IH st' w' ltac:(lia)).
    destruct (recovery_run cfg frames st' w') as [[ts st''] w''].
    cbn [fst snd app length] in *. lia.
Qed.

(** Each run of the hook has used up the frames that arm it: stray frames fewer than
    the arming count never run it. *)
Theorem recovery_needs_arming cfg frames w :
  recovery_arm_need cfg * Z.of_nat (length (recovery_run cfg frames recovery_zero w).1.1) <=
  Z.of_nat (length frames).
Proof. by apply (recovery_run_count cfg frames recovery_zero w). Qed.

(** The two command spaces are disjoint: no request acts on both channels.  The
    recovery key is unknown to the command proxy, and no other key reaches the hook. *)
Theorem key_spaces_disjoint cfg st req now w start px peer :
  0 <= rv_arm_hits st ->
  let '((_, _), w1) := recovery_dispatch cfg st req now w in
  let '((_, resp, px'), w2) := wcmd_dispatch start px req peer now w in
  w1 = w \/ (w2 = w /\ px_cfg px' = px_cfg px /\ px_sync px' = px_sync px /\
             rs_status resp <> ST_OK).
Proof.
  intros Hh. pose proof (recovery_dispatch_cases cfg st req now w Hh) as H.
  destruct (recovery_dispatch cfg st req now w) as [[r st'] w1].
  destruct (fires cfg st req now) eqn:Ef;
    [|destruct H as (-> & _); destruct (wcmd_dispatch _ _ _ _ _ _) as [[[? ?] ?] ?]; by left].
  assert (rq_key req = WCMD_KEY_RECOVERY_APFPV) as Hk by (unfold fires in Ef; bool_hyps; lia).
  unfold wcmd_dispatch. cbv zeta. rewrite Hk.
  destruct (negb (cmd_enabled _)); [by right|].
  destruct (_ && _); [by right|]. by right.
Qed.
End Recovery.

(** ** Witnesses *)

Definition cfg_recovery_on : Config :=
  config_defaults <| cfg_recovery := ((cfg_recovery config_defaults)
    <| recovery_enabled := true |> <| recovery_apfpv_cmd := "arm" |>) |>.

(** Two bursts, the second within the cool-down of the first. *)
Definition flood : list (WcmdReq * Z) :=
  map (fun t => (wcmd_req 1 WCMD_KEY_RECOVERY_APFPV 0, t))
    [1000; 2000; 3000; 4000; 5000; 20000000; 20001000; 20002000].

Example flood_fires :
  (@recovery_run peer_ok cfg_recovery_on flood recovery_zero world_init).1.1 <> [].
Proof. vm_compute. discriminate. Qed.

Lemma recovery_cooldown_witness :
  spaced (recovery_cooldown_us cfg_recovery_on) 0
    (@recovery_run peer_ok cfg_recovery_on flood recovery_zero world_init).1.1.
Proof. apply recovery_cooldown. vm_compute. intuition discriminate. Defined.

Lemma key_spaces_disjoint_witness :
  (@recovery_dispatch peer_ok cfg_recovery_on recovery_zero (wcmd_req 1 WCMD_KEY_FPS 30) 1000
    world_init).2 = world_init.
Proof.
  pose proof (@key_spaces_disjoint peer_ok cfg_recovery_on recovery_zero
    (wcmd_req 1 WCMD_KEY_FPS 30) 1000 world_init 0 px_sample INADDR_LOOPBACK
    ltac:(cbn; lia)) as H.
  destruct (recovery_dispatch _ _ _ _ _) as [[? ?] w1].
  destruct (wcmd_dispatch _ _ _ _ _ _) as [[[? resp] ?] w2] eqn:E.
  destruct H as [H|(_ & _ & _ & H)]; [exact H|].
  exfalso. apply H. change resp with (z, resp, p, w2).1.1.2. rewrite <- E. vm_compute. reflexivity.
Defined.
