(* ===== verification/Csa.v ===== *)
(** * Channel switch announcements

    [vehicle/csa/csa.c]: the receiver that turns [csa_commit] frames of the ground station
    into a scheduled [iw set channel], checks that the link is alive on the new channel,
    and goes back when it is not.  The state machine takes the time as an argument; its
    only effect is the child process that runs [iw]. *)

From S2P Require Import Prelude CFloat CString Io Net.

Definition CSA_MAX_ALLOW : nat := 32.
Definition CSA_HT_LEN : nat := 8.

(** [allow_chan] and [allow_bw] are the first [_n] entries of the arrays; empty is
    permissive. *)
Record CsaCfg := Build_CsaCfg {
  cc_iface : string; cc_allow_chan : list Z; cc_allow_bw : list string;
  cc_cooldown_ms : Z; cc_no_revert : bool
}.

#[export] Instance eta_CsaCfg : Eta CsaCfg := fun c => Build_CsaCfg
  (cc_iface c) (cc_allow_chan c) (cc_allow_bw c) (cc_cooldown_ms c) (cc_no_revert c).

Inductive CsaPhase := CSA_ST_IDLE | CSA_ST_ARMED | CSA_ST_VERIFY.

#[export] Instance CsaPhase_eq_dec : EqDecision CsaPhase.
Proof. solve_decision. Defined.

Record CsaState := Build_CsaState {
  cs_st : CsaPhase; cs_sess : Z; cs_t_switch_ms : Z; cs_t_revert_ms : Z;
  cs_target_chan : Z; cs_prev_chan : Z; cs_target_ht : string; cs_prev_ht : string;
  cs_last_switch_ms : Z
}.

#[export] Instance eta_CsaState : Eta CsaState := fun s => Build_CsaState
  (cs_st s) (cs_sess s) (cs_t_switch_ms s) (cs_t_revert_ms s) (cs_target_chan s)
  (cs_prev_chan s) (cs_target_ht s) (cs_prev_ht s) (cs_last_switch_ms s).

(** ** Field extraction *)

(** [find_key]: the text after the colon of the first quoted occurrence of [key] that a
    colon follows.  [prev] is the character before [s].  A failed candidate is skipped
    whole. *)
Fixpoint find_key_from (fuel : nat) (prev : option ascii) (s key : string) : option string :=
  match fuel with
  | O => None
  | S fuel =>
      if starts_with key s then
        let after := drop_chars (String.length key) s in
        let skip := find_key_from fuel (last (list_ascii_of_string key)) after key in
        match prev, after with
        | Some a, String b after' =>
            if aeq a DQ && aeq b DQ then
              match skip_while (fun c => aeq c SP) after' with
              | String c rest => if aeq c COLON then Some rest else skip
              | EmptyString => skip
              end
            else skip
        | _, _ => skip
        end
      else match s with
           | String a s => find_key_from fuel (Some a) s key
           | EmptyString => None
           end
  end.

(** Every turn moves at least one character on. *)
Definition find_key (buf key : string) : option string :=
  find_key_from (S (String.length buf)) None buf key.

Definition get_str (buf key : string) (outlen : nat) : option string :=
  p ← find_key buf key;
  match skip_while (fun c => aeq c SP) p with
  | String c p =>
      if aeq c DQ then Some (take_chars (outlen - 1) (span_until (fun a => aeq a DQ) p).1)
      else None
  | EmptyString => None
  end.

Definition get_int (buf key : string) : option Z :=
  p ← find_key buf key;
  fst <$> strtoll (skip_while (fun c => aeq c SP) p).

(** ** Allow lists *)

Section Lists.
Context `{!CAbi}.

Fixpoint parse_chans (fuel n : nat) (p : string) : option (list Z) :=
  match fuel, n, p with
  | S fuel, S n, String _ _ =>
      '(c, rest) ← strtol (skip_while (fun c => aeq c SP) p);
      if (c <? 1) || (c >? 200) then None
      else
        let rest := skip_while (fun c => aeq c SP) rest in
        match rest with
        | EmptyString => Some [c]
        | String a rest => if aeq a COMMA then cons c <$> parse_chans fuel n rest else None
        end
  | _, _, _ => Some []
  end.

(** At most [max_n] entries; every entry has at least one digit. *)
Definition csa_parse_chan_list (s : string) (max_n : nat) : option (list Z) :=
  parse_chans (S (String.length s)) max_n s.
End Lists.

Fixpoint trim_end (s : string) : string :=
  match s with
  | EmptyString => EmptyString
  | String a s =>
      match trim_end s with
      | EmptyString => if aeq a SP then EmptyString else str1 a
      | t => String a t
      end
  end.

Fixpoint parse_bws (fuel n : nat) (p : string) : option (list string) :=
  match fuel, n, p with
  | S fuel, S n, String _ _ =>
      let '(item, rest) :=
        span_until (fun a => aeq a COMMA) (skip_while (fun c => aeq c SP) p) in
      let item := trim_end item in
      if (String.length item =? 0)%nat || (CSA_HT_LEN <=? String.length item)%nat then None
      else
        match rest with
        | String _ rest => cons item <$> parse_bws fuel n rest
        | EmptyString => Some [item]
        end
  | _, _, _ => Some []
  end.

Definition csa_parse_bw_list (s : string) (max_n : nat) : option (list string) :=
  parse_bws (S (String.length s)) max_n s.

Definition chan_ok (cfg : CsaCfg) (chan : Z) : bool :=
  match cc_allow_chan cfg with [] => true | l => bool_decide (chan ∈ l) end.
Definition bw_ok (cfg : CsaCfg) (bw : string) : bool :=
  match cc_allow_bw cfg with [] => true | l => bool_decide (bw ∈ l) end.

(** ** The state machine *)

Definition csa_init : CsaState :=
  Build_CsaState CSA_ST_IDLE 0 0 0 0 0 EmptyString EmptyString (-1).

Definition to_idle (s : CsaState) : CsaState := s <| cs_st := CSA_ST_IDLE |>.

(** The fields of a [csa_commit] frame, with the defaults of the optional ones; [None]
    when a required one is missing. *)
Record CsaCommit := Build_CsaCommit {
  cm_sess : Z; cm_seq : Z; cm_dt : Z; cm_t_revert : Z; cm_target_chan : Z; cm_prev_chan : Z;
  cm_target_ht : string; cm_prev_ht : string
}.

Definition parse_commit (buf : string) : option CsaCommit :=
  sess ← get_int buf "sess";
  dt ← get_int buf "dt_to_switch_ms";
  target_chan ← get_int buf "target_chan";
  Some (Build_CsaCommit sess (default 0 (get_int buf "seq")) dt
          (default 3000 (get_int buf "t_revert_ms")) target_chan
          (default 0 (get_int buf "prev_chan"))
          (default "HT20" (get_str buf "target_ht" CSA_HT_LEN))
          (default "HT20" (get_str buf "prev_ht" CSA_HT_LEN))).

(** The validation every frame passes first. *)
Definition target_ok (cfg : CsaCfg) (chan : Z) (ht : string) : bool :=
  (1 <=? chan) && (chan <=? 200) && chan_ok cfg (i32 chan) && bw_ok cfg ht.

(** A valid frame. *)
Definition commit_step (s : CsaState) (cfg : CsaCfg) (c : CsaCommit) (now : Z) : CsaState :=
  let t_switch := i64 (now + cm_dt c) in
  if bool_decide (cs_st s = CSA_ST_VERIFY) && (cm_sess c =? cs_sess s) then to_idle s
  else if bool_decide (cs_st s = CSA_ST_IDLE) || (cm_sess c >? cs_sess s) then
    if (cc_cooldown_ms cfg >? 0) && (cs_last_switch_ms s >=? 0) &&
       (now - cs_last_switch_ms s <? cc_cooldown_ms cfg)
    then s
    else
      Build_CsaState CSA_ST_ARMED (cm_sess c) t_switch (cm_t_revert c)
        (i32 (cm_target_chan c)) (i32 (cm_prev_chan c)) (cm_target_ht c) (cm_prev_ht c)
        (cs_last_switch_ms s)
  else s.

Definition on_commit (s : CsaState) (cfg : CsaCfg) (buf : string) (now : Z) : CsaState :=
  match parse_commit buf with
  | None => s
  | Some c =>
      if negb (target_ok cfg (cm_target_chan c) (cm_target_ht c)) then s
      else commit_step s cfg c now
  end.

(** The result says whether the frame was a CSA frame. *)
Definition csa_feed (s : CsaState) (cfg : CsaCfg) (buf : string) (now_ms : Z)
    : bool * CsaState :=
  match get_str buf "type" 32 with
  | None => (false, s)
  | Some type =>
      if negb (starts_with "csa_" type) then (false, s)
      else if starts_with "csa_commit" type then (true, on_commit s cfg buf now_ms)
      else (true, s)
  end.

Definition csa_link_alive (s : CsaState) : bool * CsaState :=
  match cs_st s with CSA_ST_VERIFY => (true, to_idle s) | _ => (false, s) end.

Section Tick.
Context {EV : Env}.

(** The result is the next deadline, 0 for none. *)
Definition csa_tick (s : CsaState) (cfg : CsaCfg) (now_ms : Z) : IO (Z * CsaState) :=
  match cs_st s with
  | CSA_ST_ARMED =>
      if now_ms >=? cs_t_switch_ms s then
        let! _ := csa_run_iw (cc_iface cfg) (cs_target_chan s) (cs_target_ht s) in
        let s := s <| cs_last_switch_ms := now_ms |> in
        if cc_no_revert cfg then io_ret (0, to_idle s)
        else
          let t_revert := i64 (now_ms + cs_t_revert_ms s) in
          io_ret (t_revert, s <| cs_st := CSA_ST_VERIFY |> <| cs_t_revert_ms := t_revert |>)
      else io_ret (cs_t_switch_ms s, s)
  | CSA_ST_VERIFY =>
      if now_ms >=? cs_t_revert_ms s then
        let! _ := csa_run_iw (cc_iface cfg) (cs_prev_chan s) (cs_prev_ht s) in
        io_ret (0, to_idle (s <| cs_last_switch_ms := now_ms |>))
      else io_ret (cs_t_revert_ms s, s)
  | CSA_ST_IDLE => io_ret (0, s)
  end.
End Tick.

(** ** Reachable states *)

Section Reach.
Context {EV : Env} (cfg : CsaCfg).

(** Anything the main loop does with the machine, in any order and at any times. *)
Inductive csa_reach : CsaState -> Prop :=
| csa_reach_init : csa_reach csa_init
| csa_reach_feed s buf now : csa_reach s -> csa_reach (csa_feed s cfg buf now).2
| csa_reach_alive s : csa_reach s -> csa_reach (csa_link_alive s).2
| csa_reach_tick s now w : csa_reach s -> csa_reach (csa_tick s cfg now w).1.2.

(** A pending or unconfirmed switch has a permitted target. *)
Definition target_allowed (s : CsaState) : Prop :=
  1 <= cs_target_chan s <= 200 /\ chan_ok cfg (cs_target_chan s) = true /\
  bw_ok cfg (cs_target_ht s) = true.

Record csa_ok (s : CsaState) : Prop := {
  co_target : cs_st s <> CSA_ST_IDLE -> target_allowed s;
  co_norevert : cc_no_revert cfg = true -> cs_st s <> CSA_ST_VERIFY
}.

Lemma idle_ok s : cs_st s = CSA_ST_IDLE -> csa_ok s.
Proof. intros E. split; rewrite E; done. Qed.

Lemma commit_step_ok s c now :
  csa_ok s -> target_ok cfg (cm_target_chan c) (cm_target_ht c) = true ->
  csa_ok (commit_step s cfg c now).
Proof.
  intros Hs Ht. unfold commit_step. cbv zeta.
  destruct (_ && (_ =? _)); [by apply idle_ok|].
  destruct (_ || _); [|done]. destruct (_ && _ && _); [done|].
  unfold target_ok in Ht. bool_hyps. split; cbn; [|done]. intros _.
  rewrite i32_small in * by (unfold INT_MIN, INT_MAX; lia).
  split_and!; cbn; rewrite ?i32_small by (unfold INT_MIN, INT_MAX; lia); try done; lia.
Qed.

Lemma feed_ok s buf now : csa_ok s -> csa_ok (csa_feed s cfg buf now).2.
Proof.
  intros Hs. unfold csa_feed. destruct (get_str _ _ _) as [ty|]; [|done].
  destruct (negb _); [done|]. destruct (starts_with _ _); [|done].
  cbn. unfold on_commit. destruct (parse_commit buf) as [c|]; [|done].
  destruct (target_ok _ _ _) eqn:E; cbn [negb]; [|done]. by apply commit_step_ok.
Qed.

Lemma alive_ok s : csa_ok s -> csa_ok (csa_link_alive s).2.
Proof. intros Hs. unfold csa_link_alive. destruct (cs_st s); [done..|by apply idle_ok]. Qed.

Lemma csa_tick_ok s now w : csa_ok s -> csa_ok (csa_tick s cfg now w).1.2.
Proof.
  intros Hs. unfold csa_tick. destruct (cs_st s) eqn:E; [done| |].
  - destruct (now >=? _); [|done]. unfold io_bind. destruct (csa_run_iw _ _ _ w) as [rc w1].
    destruct (cc_no_revert cfg) eqn:En; cbn; [by apply idle_ok|].
    split; cbn; [|congruence]. intros _. apply (co_target s Hs). by rewrite E.
  - destruct (now >=? _); [|done]. unfold io_bind. destruct (csa_run_iw _ _ _ w) as [rc w1].
    by apply idle_ok.
Qed.

Lemma csa_reach_ok s : csa_reach s -> csa_ok s.
Proof.
  induction 1; [by split|by apply feed_ok|by apply alive_ok|by apply csa_tick_ok].
Qed.

(** What one tick runs. *)
Lemma tick_events s now w :
  let '((_, s'), w') := csa_tick s cfg now w in
  w_trace w' = w_trace w /\ s' = s \/
  (cs_st s = CSA_ST_ARMED /\ cs_t_switch_ms s <= now /\
   w_trace w' = EvIwChannel (cc_iface cfg) (cs_target_chan s) (cs_target_ht s) :: w_trace w /\
   cs_last_switch_ms s' = now /\
   (if cc_no_revert cfg then cs_st s' = CSA_ST_IDLE
    else cs_st s' = CSA_ST_VERIFY /\ cs_t_revert_ms s' = i64 (now + cs_t_revert_ms s))) \/
  (cs_st s = CSA_ST_VERIFY /\ cs_t_revert_ms s <= now /\
   w_trace w' = EvIwChannel (cc_iface cfg) (cs_prev_chan s) (cs_prev_ht s) :: w_trace w /\
   cs_last_switch_ms s' = now /\ cs_st s' = CSA_ST_IDLE).
Proof.
  unfold csa_tick. destruct (cs_st s) eqn:E; [by left| |].
  - destruct (Z.geb_spec now (cs_t_switch_ms s)); [|cbn; by left].
    unfold io_bind, csa_run_iw.
    destruct (cc_no_revert cfg); cbn; right; left; split_and!; done.
  - destruct (Z.geb_spec now (cs_t_revert_ms s)); [|cbn; by left].
    unfold io_bind, csa_run_iw. cbn. right. right. split_and!; done.
Qed.

(** *** Histories *)

#[local] Open Scope list_scope.

(** What the main loop gives the machine: a datagram from the ground, announcement or not, and
    a tick. *)
Inductive CsaInput := Heard (buf : string) (now : Z) | Ticked (now : Z).

Definition csa_input (i : CsaInput) (s : CsaState) (w : World) : CsaState * World :=
  match i with
  | Heard buf now =>
      let '(consumed, s) := csa_feed s cfg buf now in
      (if consumed then s else (csa_link_alive s).2, w)
  | Ticked now => let '((_, s), w) := csa_tick s cfg now w in (s, w)
  end.

Fixpoint csa_run (h : list CsaInput) (s : CsaState) (w : World) : CsaState * World :=
  match h with
  | [] => (s, w)
  | i :: h => let '(s, w) := csa_input i s w in csa_run h s w
  end.

Lemma csa_run_app h h' s w :
  csa_run (h ++ h') s w = csa_run h' (csa_run h s w).1 (csa_run h s w).2.
Proof.
  revert s w. induction h as [|i h IH]; intros s w; [done|]. cbn [app csa_run].
  destruct (csa_input i s w) as [s' w']. apply IH.
Qed.

Lemma csa_run_one i s w : csa_run [i] s w = csa_input i s w.
Proof. cbn. by destruct (csa_input i s w). Qed.

Lemma alive_settles s : cs_st (csa_link_alive s).2 <> CSA_ST_VERIFY.
Proof. unfold csa_link_alive. destruct (cs_st s) eqn:E; cbn; congruence. Qed.

Lemma run_reach h : forall s w, csa_reach s -> csa_reach (csa_run h s w).1.
Proof.
  induction h as [|i h IH]; intros s w Hs; [done|]. cbn [csa_run].
  destruct (csa_input i s w) as [s' w'] eqn:E. apply IH.
  destruct i as [buf now|now]; cbn [csa_input] in E.
  - pose proof (csa_reach_feed s buf now Hs) as Hf. destruct (csa_feed s cfg buf now) as [[] s1];
      injection E as <- <-; [exact Hf|]. by apply csa_reach_alive.
  - pose proof (csa_reach_tick s now w Hs) as Ht. destruct (csa_tick s cfg now w) as [[d s1] w1].
    by injection E as <- <-.
Qed.

(** A frame that passes the checks. *)
Definition valid_commit (buf : string) (c : CsaCommit) : Prop :=
  (exists type, get_str buf "type" 32 = Some type /\ starts_with "csa_commit" type = true) /\
  parse_commit buf = Some c /\ target_ok cfg (cm_target_chan c) (cm_target_ht c) = true.

(** What tells a machine in VERIFY that the link is alive: a datagram that is no announcement,
    or a valid frame of the session. *)
Definition confirms (sess : Z) (i : CsaInput) : Prop :=
  match i with
  | Heard buf _ =>
      (forall type, get_str buf "type" 32 = Some type -> starts_with "csa_" type = false) \/
      exists c, valid_commit buf c /\ cm_sess c = sess
  | Ticked _ => False
  end.

(** A machine that verifies and still does so after an input has heard no confirmation, and
    has kept everything. *)
Lemma verify_unconfirmed i s w : cs_st s = CSA_ST_VERIFY ->
  cs_st (csa_input i s w).1 = CSA_ST_VERIFY ->
  (csa_input i s w).1 = s /\ ~ confirms (cs_sess s) i.
Proof.
  intros Hs. destruct i as [buf now|now]; cbn [csa_input].
  - unfold csa_feed. destruct (get_str buf "type" 32) as [type|] eqn:Et.
    2:{ cbn. unfold csa_link_alive. rewrite Hs. done. }
    destruct (starts_with "csa_" type) eqn:E1; cbn [negb].
    2:{ cbn. unfold csa_link_alive. rewrite Hs. done. }
    destruct (starts_with "csa_commit" type) eqn:E2; cbn [fst].
    2:{ intros _. split; [done|]. cbn [confirms]. intros [H|(c & ((ty & H1 & H2) & _) & _)].
        - specialize (H type Et). congruence.
        - rewrite Et in H1. injection H1 as <-. congruence. }
    unfold on_commit. destruct (parse_commit buf) as [c|] eqn:Ep.
    2:{ intros _. split; [done|]. cbn [confirms]. intros [H|(c & (_ & H & _) & _)]; [|congruence].
        specialize (H type Et). congruence. }
    destruct (target_ok _ _ _) eqn:Eo; cbn [negb].
    2:{ intros _. split; [done|]. cbn [confirms]. intros [H|(c' & (_ & H & H') & _)].
        - specialize (H type Et). congruence.
        - congruence. }
    unfold commit_step. rewrite Hs. cbn [andb orb bool_decide]. rewrite bool_decide_eq_true_2 by done.
    rewrite (bool_decide_eq_false_2 (CSA_ST_VERIFY = CSA_ST_IDLE)) by done. cbn [andb orb].
    destruct (Z.eqb_spec (cm_sess c) (cs_sess s)) as [E|E]; [done|].
    assert (~ confirms (cs_sess s) (Heard buf now)) as Hn.
    { cbn [confirms]. intros [H|(c' & (_ & H & _) & H')].
      - specialize (H type Et). congruence.
      - congruence. }
    destruct (cm_sess c >? cs_sess s); [|done]. by destruct (_ && _ && _).
  - pose proof (tick_events s now w) as H. destruct (csa_tick s cfg now w) as [[d s'] w'].
    cbn [fst]. intros Hv.
    destruct H as [[_ ->]|[(Ha & _)|(_ & _ & _ & _ & Hi)]]; [|congruence|congruence].
    split; [done|]. by intros [].
Qed.

(** How a machine came to verify: the tick of its switch, and silence since. *)
Lemma verify_history h s0 w0 : cs_st s0 <> CSA_ST_VERIFY ->
  let s := (csa_run h s0 w0).1 in
  cs_st s = CSA_ST_VERIFY ->
  exists h1 t h2, h = h1 ++ Ticked t :: h2 /\
    let a := (csa_run h1 s0 w0).1 in
    cs_st a = CSA_ST_ARMED /\ cs_t_switch_ms a <= t /\
    s = (a <| cs_st := CSA_ST_VERIFY |> <| cs_last_switch_ms := t |>
           <| cs_t_revert_ms := i64 (t + cs_t_revert_ms a) |>) /\
    Forall (fun i => ~ confirms (cs_sess a) i) h2.
Proof.
  intros H0. induction h as [|i h IH] using rev_ind; [done|]. cbn zeta.
  rewrite csa_run_app, csa_run_one. destruct (csa_run h s0 w0) as [s w] eqn:E.
  cbn [fst snd] in *. intros Hv.
  destruct (decide (cs_st s = CSA_ST_VERIFY)) as [Hs|Hs].
  - destruct (verify_unconfirmed i s w Hs Hv) as [-> Hc].
    destruct (IH Hs) as (h1 & t & h2 & -> & Ha & Ht & Es & Hf). exists h1, t, (h2 ++ [i]).
    split; [by rewrite <- app_assoc|]. split_and!; try done.
    apply Forall_app. split; [done|]. constructor; [|constructor]. by rewrite Es in Hc.
  - destruct i as [buf now|now]; cbn [csa_input] in *.
    + exfalso. revert Hv. pose proof (alive_settles s). unfold csa_feed.
      destruct (get_str _ _ _); [|done]. destruct (negb _); [done|].
      destruct (starts_with _ _); [|done]. cbn [fst]. unfold on_commit.
      destruct (parse_commit buf); [|done]. destruct (negb _); [done|]. unfold commit_step.
      rewrite (bool_decide_eq_false_2 (cs_st s = CSA_ST_VERIFY)) by done. cbn [andb].
      destruct (_ || _); [|done]. by destruct (_ && _ && _).
    + exists h, now, []. split; [done|]. cbn zeta. rewrite E. cbn [fst].
      unfold csa_tick in *. destruct (cs_st s) eqn:Est; [cbn in Hv; congruence| |done].
      destruct (Z.geb_spec now (cs_t_switch_ms s)); [|cbn in Hv; congruence].
      unfold io_bind, csa_run_iw in *. destruct (cc_no_revert cfg); [done|]. cbn in *.
      split_and!; try done.
Qed.


(** One input to a machine that is idle or verifies until [deadline]. *)
Definition winding_down (deadline : Z) (s : CsaState) : Prop :=
  cs_st s = CSA_ST_IDLE \/ cs_st s = CSA_ST_VERIFY /\ cs_t_revert_ms s = deadline.

Lemma winding_step deadline i s w : winding_down deadline s ->
  winding_down deadline (csa_input i s w).1 \/ cs_st (csa_input i s w).1 = CSA_ST_ARMED.
Proof.
  intros H. destruct (cs_st (csa_input i s w).1) eqn:E; [by left; left|by right|]. left. right.
  split; [exact E|]. destruct H as [Hi|[Hv Ht]].
  - exfalso. revert E. destruct i as [buf now|now]; cbn [csa_input].
    + pose proof (alive_settles s). unfold csa_feed. destruct (get_str _ _ _); [|done].
      destruct (negb _); [done|]. destruct (starts_with _ _); cbn [fst]; [|by rewrite Hi].
      unfold on_commit.
      destruct (parse_commit buf); [|by rewrite Hi]. destruct (negb _); [by rewrite Hi|].
      unfold commit_step. rewrite Hi.
      rewrite (bool_decide_eq_false_2 (CSA_ST_IDLE = CSA_ST_VERIFY)), bool_decide_eq_true_2 by done.
      cbn [andb orb]. destruct (_ && _ && _); [by rewrite Hi|done].
    + unfold csa_tick. rewrite Hi. cbn. by rewrite Hi.
  - by destruct (verify_unconfirmed i s w Hv E) as [-> _].
Qed.

Lemma winding_run deadline h : forall s w, winding_down deadline s ->
  winding_down deadline (csa_run h s w).1 \/
  exists h1 i h2, h = h1 ++ i :: h2 /\ cs_st (csa_run h1 s w).1 <> CSA_ST_ARMED /\
    cs_st (csa_run (h1 ++ [i]) s w).1 = CSA_ST_ARMED.
Proof.
  induction h as [|i h IH]; intros s w Hs; [by left|]. cbn [csa_run].
  pose proof (winding_step deadline i s w Hs) as H. destruct (csa_input i s w) as [s1 w1] eqn:E.
  cbn [fst] in H. destruct H as [H|H].
  - destruct (IH s1 w1 H) as [H'|(h1 & j & h2 & -> & H1 & H2)]; [by left|].
    right. exists (i :: h1), j, h2. split; [done|]. cbn [csa_run app]. by rewrite E.
  - right. exists [], i, h. split; [done|]. cbn [csa_run app]. rewrite E. split; [|done].
    destruct Hs as [Hs|[Hs _]]; cbn; by rewrite Hs.
Qed.

(** (C18) Every switch is settled: with the revert timer in range, an armed machine that ticks
    at or after its switch time, then hears any datagrams and ticks at any times, and ticks
    again at or after the revert deadline, is idle, unless one of those inputs armed another
    switch. *)
Theorem csa_settles s t1 h t2 w1 :
  cs_st s = CSA_ST_ARMED -> cs_t_switch_ms s <= t1 ->
  - 2 ^ 63 <= t1 + cs_t_revert_ms s < 2 ^ 63 -> t1 + cs_t_revert_ms s <= t2 ->
  let '((_, s1), w2) := csa_tick s cfg t1 w1 in
  let '(s2, w3) := csa_run h s1 w2 in
  cs_st (csa_tick s2 cfg t2 w3).1.2 = CSA_ST_IDLE \/
  exists h1 i h2, h = h1 ++ i :: h2 /\ cs_st (csa_run h1 s1 w2).1 <> CSA_ST_ARMED /\
    cs_st (csa_run (h1 ++ [i]) s1 w2).1 = CSA_ST_ARMED.
Proof.
  intros Ha Ht Hr H2. pose proof (tick_events s t1 w1) as H.
  destruct (csa_tick s cfg t1 w1) as [[d s1] w2] eqn:E.
  assert (winding_down (t1 + cs_t_revert_ms s) s1) as Hw.
  { destruct H as [[_ ->]|[(_ & _ & _ & _ & Hs)|(Hv & _)]]; [exfalso|clear E|congruence].
    - unfold csa_tick in E. rewrite Ha in E. rewrite (proj2 (Z.geb_le _ _)) in E by done.
      unfold io_bind, csa_run_iw in E. destruct (cc_no_revert cfg); injection E as _ E2 _;
        destruct s; cbn in *; congruence.
    - destruct (cc_no_revert cfg); [by left|]. right. destruct Hs as [Hs1 Hs2]. split; [done|].
      unfold i64 in Hs2. by rewrite swrap_small in Hs2 by lia. }
  pose proof (winding_run _ h s1 w2 Hw) as Hrun. destruct (csa_run h s1 w2) as [s2 w3].
  cbn [fst] in Hrun. destruct Hrun as [[Hi|[Hv Hd]]|Hex]; [left|left|by right].
  - unfold csa_tick. by rewrite Hi.
  - unfold csa_tick. rewrite Hv, (proj2 (Z.geb_le _ _)) by lia. done.
Qed.

(** A repeated frame of the session that is armed changes nothing: in particular it
    never moves the switch time. *)
Theorem csa_refresh_inert s buf c now :
  cs_st s = CSA_ST_ARMED -> parse_commit buf = Some c -> cm_sess c = cs_sess s ->
  on_commit s cfg buf now = s.
Proof.
  intros Hs Hp He. unfold on_commit. rewrite Hp. destruct (negb _); [done|].
  unfold commit_step. rewrite Hs, He, Z.gtb_ltb, Z.ltb_irrefl. done.
Qed.

(** A new session is taken only when the cool-down since the last hop has run out. *)
Theorem csa_cooldown s buf now :
  0 < cc_cooldown_ms cfg -> 0 <= cs_last_switch_ms s ->
  cs_st s <> CSA_ST_ARMED -> cs_st (on_commit s cfg buf now) = CSA_ST_ARMED ->
  cc_cooldown_ms cfg <= now - cs_last_switch_ms s.
Proof.
  intros Hc Hl Hs. unfold on_commit. destruct (parse_commit buf) as [c|]; [|done].
  destruct (negb _); [done|]. unfold commit_step. cbv zeta.
  destruct (_ && (_ =? _)); [done|]. destruct (_ || _); [|done].
  destruct (_ && _ && _) eqn:E; [done|]. intros _. lia.
Qed.

(** Datagrams that are not CSA frames leave the machine alone and are passed on. *)
Theorem csa_feed_foreign s buf now :
  (csa_feed s cfg buf now).1 = false -> csa_feed s cfg buf now = (false, s).
Proof. unfold csa_feed. by repeat case_match. Qed.
(** The channel a failed switch goes back to is the one the frame names, whatever it is:
    after a frame whose target passes every check, silence until the revert deadline puts
    the radio on the frame's [prev_chan], which neither range nor allow list has seen. *)
Theorem csa_revert_unchecked s buf c t0 t1 t2 w :
  cs_st s = CSA_ST_IDLE -> parse_commit buf = Some c ->
  target_ok cfg (cm_target_chan c) (cm_target_ht c) = true ->
  cc_no_revert cfg = false -> cc_cooldown_ms cfg <= 0 \/ cs_last_switch_ms s < 0 ->
  i64 (t0 + cm_dt c) <= t1 -> i64 (t1 + cm_t_revert c) <= t2 ->
  let '((_, s2), w2) := csa_tick (on_commit s cfg buf t0) cfg t1 w in
  w_trace (csa_tick s2 cfg t2 w2).2 =
    EvIwChannel (cc_iface cfg) (i32 (cm_prev_chan c)) (cm_prev_ht c) ::
    EvIwChannel (cc_iface cfg) (i32 (cm_target_chan c)) (cm_target_ht c) :: w_trace w.
Proof.
  intros Hs Hp Ht Hr Hc H1 H2. unfold on_commit. rewrite Hp, Ht. cbn [negb].
  unfold commit_step. rewrite Hs. cbv zeta.
  rewrite (bool_decide_eq_false_2 (CSA_ST_IDLE = CSA_ST_VERIFY)), bool_decide_eq_true_2 by done.
  cbn [andb orb].
  assert ((cc_cooldown_ms cfg >? 0) && (cs_last_switch_ms s >=? 0) &&
    (t0 - cs_last_switch_ms s <? cc_cooldown_ms cfg) = false) as -> by lia.
  unfold csa_tick at 1. cbn [cs_st cs_t_switch_ms].
  rewrite Z.geb_leb, (proj2 (Z.leb_le _ _) H1). unfold io_bind, csa_run_iw. rewrite Hr.
  unfold csa_tick. cbn. rewrite Z.geb_leb, (proj2 (Z.leb_le _ _) H2). done.
Qed.
End Reach.

(** ** Concrete frames *)

Definition int_field (key : string) (v : Z) : string := quoted key +:+ ":" +:+ pretty v.

Definition commit_frame (sess dt target prev : Z) : string :=
  "{" +:+ quoted "type" +:+ ":" +:+ quoted "csa_commit" +:+ "," +:+
  int_field "sess" sess +:+ "," +:+ int_field "dt_to_switch_ms" dt +:+ "," +:+
  int_field "target_chan" target +:+ "," +:+ int_field "prev_chan" prev +:+ "}".

Definition csa_cfg_sample : CsaCfg := Build_CsaCfg "wlan0" [149; 157] [] 5000 false.

Definition csa_armed : CsaState :=
  (csa_feed csa_init csa_cfg_sample (commit_frame 1 100 149 14) 1000).2.

Lemma csa_armed_reach : @csa_reach peer_ok csa_cfg_sample csa_armed.
Proof. apply csa_reach_feed, csa_reach_init. Qed.

Example csa_armed_fields :
  cs_st csa_armed = CSA_ST_ARMED /\ cs_target_chan csa_armed = 149 /\
  cs_t_switch_ms csa_armed = 1100 /\ cs_t_revert_ms csa_armed = 3000.
Proof. vm_compute. auto. Qed.

Definition csa_verify : CsaState := (@csa_tick peer_ok csa_armed csa_cfg_sample 1100 world_init).1.2.

(** ** Witnesses *)

(** The session's announcement, its switch, a rejected frame, and silence. *)
Definition csa_silence : list CsaInput :=
  [Heard (commit_frame 1 100 149 14) 1000; Ticked 1100; Heard (commit_frame 1 90 13 14) 1200].


(** A frame of the session after its switch, another one, then silence. *)
Lemma csa_settles_witness :
  let '((_, s1), w2) := @csa_tick peer_ok csa_armed csa_cfg_sample 1100 world_init in
  let '(s2, w3) := @csa_run peer_ok csa_cfg_sample
    [Heard (commit_frame 1 90 13 14) 1200; Ticked 1300] s1 w2 in
  cs_st s2 = CSA_ST_VERIFY /\ cs_st (@csa_tick peer_ok s2 csa_cfg_sample 4100 w3).1.2 = CSA_ST_IDLE.
Proof.
  pose proof (@csa_settles peer_ok csa_cfg_sample csa_armed 1100
    [Heard (commit_frame 1 90 13 14) 1200; Ticked 1300] 4100 world_init
    eq_refl ltac:(vm_compute; discriminate) ltac:(vm_compute; intuition discriminate)
    ltac:(vm_compute; discriminate)) as H.
  destruct (csa_tick csa_armed csa_cfg_sample 1100 world_init) as [[d s1] w2] eqn:E.
  assert (s1 = (@csa_tick peer_ok csa_armed csa_cfg_sample 1100 world_init).1.2 /\
    w2 = (@csa_tick peer_ok csa_armed csa_cfg_sample 1100 world_init).2) as [-> ->] by (by rewrite E).
  match goal with |- context [csa_run ?c ?h ?s ?w] =>
    destruct (csa_run c h s w) as [s2 w3] eqn:E2;
    assert (s2 = (csa_run c h s w).1) as Ev by (by rewrite E2) end.
  assert (cs_st s2 = CSA_ST_VERIFY) as Es by (rewrite Ev; vm_compute; reflexivity).
  split; [exact Es|]. destruct H as [H|(h1 & i & h2 & Eh & H1 & H2)]; [exact H|]. exfalso.
  clear E E2 Ev Es. destruct h1 as [|i1 [|i2 [|i3 h1]]]; injection Eh; intros; subst; try done;
    vm_compute in H2; discriminate.
Defined.

Lemma csa_refresh_inert_witness :
  on_commit csa_armed csa_cfg_sample (commit_frame 1 90 149 14) 1005 = csa_armed.
Proof.
  eapply csa_refresh_inert; [reflexivity|vm_compute; reflexivity|reflexivity].
Defined.

Definition commit_sample : CsaCommit := Build_CsaCommit 1 0 100 3000 149 14 "HT20" "HT20".

(** Allowed are 149 and 157; silence leads to 14. *)
Lemma csa_revert_unchecked_witness :
  chan_ok csa_cfg_sample 14 = false /\ i32 (cm_prev_chan commit_sample) = 14 /\
  let '((_, s2), w2) := @csa_tick peer_ok (on_commit csa_init csa_cfg_sample
    (commit_frame 1 100 149 14) 1000) csa_cfg_sample 1100 world_init in
  w_trace (@csa_tick peer_ok s2 csa_cfg_sample 4100 w2).2 =
    EvIwChannel "wlan0" (i32 (cm_prev_chan commit_sample)) "HT20" ::
    EvIwChannel "wlan0" (i32 (cm_target_chan commit_sample)) "HT20" :: w_trace world_init.
Proof.
  split; [reflexivity|]. split; [reflexivity|].
  apply (@csa_revert_unchecked peer_ok csa_cfg_sample csa_init (commit_frame 1 100 149 14)
    commit_sample 1000 1100 4100 world_init eq_refl).
  1: vm_compute; reflexivity.
  1-2: reflexivity.
  1: by right.
  1-2: vm_compute; discriminate.
Defined.

Definition csa_hopped : CsaState := csa_init <| cs_last_switch_ms := 4000 |>.

Lemma csa_cooldown_witness :
  cc_cooldown_ms csa_cfg_sample <= 9000 - cs_last_switch_ms csa_hopped.
Proof.
  apply (csa_cooldown csa_cfg_sample csa_hopped (commit_frame 1 100 149 14) 9000);
    [reflexivity|cbn; lia|discriminate|vm_compute; reflexivity].
Defined.

Lemma csa_feed_foreign_witness : csa_feed csa_armed csa_cfg_sample "x" 5 = (false, csa_armed).
Proof. apply csa_feed_foreign. vm_compute. reflexivity. Defined.
