(* ===== verification/CsaAgent.v ===== *)
(** * The stand-alone channel-switch agent

    [vehicle/csa/csa_agent.c]: a bench tool around the machine of [Csa]: its flags make the
    configuration, and its loop feeds datagrams, takes any other datagram for a sign of life, and
    ticks.  A turn gets what [select] and the clock gave. *)

From S2P Require Import Prelude CString Decimal Io Net Csa.

Local Open Scope list_scope.

Definition CSA_IFACE_LEN : nat := 16.

Section Flags.
Context {ABI : CAbi}.

Record AgentArgs := Build_AgentArgs {
  aa_allow : option string; aa_bw : option string; aa_cooldown : Z; aa_no_revert : bool }.

(** The flags up to the first argument without two dashes, and the arguments from there;
    [None] is an unknown flag. *)
Fixpoint agent_flags (args : list string) (a : AgentArgs) : option (AgentArgs * list string) :=
  match args with
  | [] => Some (a, [])
  | flag :: rest =>
      if negb (starts_with "--" flag) then Some (a, args)
      else if String.eqb flag "--no-revert" then
        agent_flags rest (Build_AgentArgs (aa_allow a) (aa_bw a) (aa_cooldown a) true)
      else match rest with
      | v :: rest =>
          if String.eqb flag "--allowlist" then
            agent_flags rest (Build_AgentArgs (Some v) (aa_bw a) (aa_cooldown a) (aa_no_revert a))
          else if String.eqb flag "--bandwidth" then
            agent_flags rest (Build_AgentArgs (aa_allow a) (Some v) (aa_cooldown a) (aa_no_revert a))
          else if String.eqb flag "--cooldown-ms" then
            agent_flags rest (Build_AgentArgs (aa_allow a) (aa_bw a) (default 0 (fst <$> strtoll v)) (aa_no_revert a))
          else None
      | [] => None
      end
  end.

(** The port and the configuration; [None] is the exit code 2. *)
Definition agent_config (args : list string) : option (Z * CsaCfg) :=
  '(a, rest) ← agent_flags args (Build_AgentArgs None None 2000 false);
  chans ← match aa_allow a with Some s => csa_parse_chan_list s CSA_MAX_ALLOW | None => Some [] end;
  bws ← match aa_bw a with Some s => csa_parse_bw_list s CSA_MAX_ALLOW | None => Some [] end;
  match rest with
  | port :: iface :: _ =>
      Some (u16 (i32 (default 0 (fst <$> strtol port))),
            Build_CsaCfg (take_chars (CSA_IFACE_LEN - 1) iface) chans bws (aa_cooldown a) (aa_no_revert a))
  | _ => None
  end.
End Flags.

(** [None]: [select] was interrupted.  Otherwise the datagram, if one was read, and the clock
    when it was fed and at the tick, in ms. *)
Definition AgentTurn : Type := option (option string * Z * Z).

Section Loop.
Context {ABI : CAbi} {EV : Env}.

Definition agent_turn (cfg : CsaCfg) (s : CsaState) (t : AgentTurn) : IO CsaState :=
  match t with
  | None => io_ret s
  | Some (dgram, feed_ms, tick_ms) =>
      let s := match dgram with
               | Some (String _ _ as buf) =>
                   let '(consumed, s) := csa_feed s cfg (take_chars 4095 buf) feed_ms in
                   if negb consumed then (csa_link_alive s).2 else s
               | _ => s
               end in
      let! r := csa_tick s cfg tick_ms in io_ret r.2
  end.

Fixpoint agent_loop (cfg : CsaCfg) (s : CsaState) (ts : list AgentTurn) : IO CsaState :=
  match ts with
  | [] => io_ret s
  | t :: ts => let! s := agent_turn cfg s t in agent_loop cfg s ts
  end.

(** [bound]: whether a socket on the port could be had.  [inl] is an exit code; the loop does not
    end, so [inr] is its state after [ts]. *)
Definition csa_agent_main (args : list string) (bound : Z -> bool) (ts : list AgentTurn) : IO (Z + CsaState) :=
  match agent_config args with
  | None => io_ret (inl 2)
  | Some (port, cfg) =>
      if negb (bound port) then io_ret (inl 1)
      else let! s := agent_loop cfg csa_init ts in io_ret (inr s)
  end.

(** ** What it may do *)

(** A channel within the range and the lists of the configuration. *)
Definition listed (cfg : CsaCfg) (chan : Z) (ht : string) : Prop :=
  1 <= chan <= 200 /\ chan_ok cfg chan = true /\ bw_ok cfg ht = true.

(** The only effect is a hop of the interface, to a listed channel, or back when the
    configuration lets it go back. *)
Definition agent_event (cfg : CsaCfg) (e : Event) : Prop :=
  exists chan ht, e = EvIwChannel (cc_iface cfg) chan ht /\
    (listed cfg chan ht \/ cc_no_revert cfg = false).

Lemma agent_turn_ok cfg s t : csa_reach cfg s ->
  ensures (agent_event cfg) (csa_reach cfg) (agent_turn cfg s t).
Proof.
  intros Hs. destruct t as [[[dgram feed_ms] tick_ms]|]; [|by apply ensures_ret]. cbn [agent_turn].
  set (s1 := match dgram with Some (String _ _ as buf) => _ | _ => s end).
  assert (csa_reach cfg s1) as Hs1.
  { subst s1. destruct dgram as [[|c buf]|]; [done| |done].
    pose proof (csa_reach_feed cfg s (take_chars 4095 (String c buf)) feed_ms Hs) as Hf.
    destruct (csa_feed _ _ _ _) as [consumed s2]. cbn [snd] in Hf.
    destruct consumed; [done|]. by apply csa_reach_alive. }
  assert (forall w, exists es, w_trace ((let! r := csa_tick s1 cfg tick_ms in io_ret r.2) w).2 = es ++ w_trace w /\
    Forall (agent_event cfg) es /\ csa_reach cfg ((let! r := csa_tick s1 cfg tick_ms in io_ret r.2) w).1) as H.
  2:{ split; intros w; destruct (H w) as (es & He & Hf & Hr); [by exists es|done]. }
  intros w. pose proof (tick_events cfg s1 tick_ms w) as Ht. pose proof (csa_reach_ok cfg s1 Hs1) as Hok.
  pose proof (csa_reach_tick cfg s1 tick_ms w Hs1) as Hr.
  unfold io_bind, io_ret. destruct (csa_tick s1 cfg tick_ms w) as [[d s'] w']. cbn [fst snd] in *.
  destruct Ht as [[Hw _]|[(Hst & _ & Hw & _)|(Hst & _ & Hw & _)]].
  - exists []. by split_and!.
  - exists [EvIwChannel (cc_iface cfg) (cs_target_chan s1) (cs_target_ht s1)]. split_and!; [done| |done].
    apply Forall_cons; split; [|constructor]. eexists _, _. split; [done|left].
    apply (co_target _ _ Hok). by rewrite Hst.
  - exists [EvIwChannel (cc_iface cfg) (cs_prev_chan s1) (cs_prev_ht s1)]. split_and!; [done| |done].
    apply Forall_cons; split; [|constructor]. eexists _, _. split; [done|right].
    destruct (cc_no_revert cfg) eqn:E; [|done]. by destruct (co_norevert _ _ Hok E).
Qed.

Lemma agent_loop_ok cfg ts : forall s, csa_reach cfg s ->
  ensures (agent_event cfg) (csa_reach cfg) (agent_loop cfg s ts).
Proof.
  induction ts as [|t ts IH]; intros s Hs; cbn [agent_loop]; [by apply ensures_ret|].
  eapply ensures_bind; [by apply agent_turn_ok|]. exact IH.
Qed.

(** Whatever datagrams come, at whatever times: with bad arguments the agent exits and runs
    nothing; otherwise it does nothing but set the channel of its interface, to targets in range and
    on both lists, or, unless it was started with [--no-revert], back; and its machine stays
    in the states of [csa_reach], about which [Csa] proves the rest. *)
Theorem agent_confined args bound ts w :
  match agent_config args with
  | None => csa_agent_main args bound ts w = (inl 2, w)
  | Some (port, cfg) =>
      exists es, w_trace (csa_agent_main args bound ts w).2 = es ++ w_trace w /\ Forall (agent_event cfg) es /\
        match (csa_agent_main args bound ts w).1 with
        | inl code => code = 1 /\ es = []
        | inr s => csa_reach cfg s
        end
  end.
Proof.
  unfold csa_agent_main. destruct (agent_config args) as [[port cfg]|]; [|done].
  destruct (bound port); cbn [negb]; [|by exists []].
  destruct (agent_loop_ok cfg ts csa_init (csa_reach_init cfg)) as [Hp Hs]. specialize (Hs w).
  destruct (Hp w) as (es & He & Hf). exists es. unfold io_bind, io_ret. destruct (agent_loop cfg csa_init ts w) as [s w']. by split_and!.
Qed.
End Loop.

(** A list with an empty entry, a channel of 201 or a missing value ends the agent. *)
Example agent_configs :
  (snd <$> agent_config (ABI := abi_armv7) ["--no-revert"; "--allowlist"; "149,157"; "5801"; "wlan0"]%string,
   agent_config (ABI := abi_armv7) ["--allowlist"; "149,x"; "5801"; "wlan0"]%string,
   agent_config (ABI := abi_armv7) ["--cooldown-ms"]%string) =
  (Some (Build_CsaCfg "wlan0" [149; 157] [] 2000 true), None, None).
Proof. vm_compute. reflexivity. Qed.
