(* ===== verification/SdLog.v ===== *)
(** * The SD-card telemetry logger of the vehicle

    [g_logger] of [vehicle/link_controller.c] and the functions on it: a session is a
    directory [NNNNNN_date_time_pid] under [<sd_dir>/walkout] with the files [status.jsonl] and
    [lc.log]; [.seq] keeps the last index.  The disk is a tree; a directory lists its entries
    in the order of [readdir], without the two dots.  Whether the kernel carries out an
    operation is the class [SdEnv], asked anew at every operation. *)

From S2P Require Import Prelude CFloat CString Strtod Decimal.

Local Open Scope list_scope.

Definition LOGGER_KEEP_SESSIONS : Z := 10.
Definition LOGGER_MAX_MB : Z := 100.
Definition PATH_MAX : Z := 4096.

(** ** The disk *)

#[warnings="-register-all"]
Inductive Node := NFile (content : string) | NDir (entries : list (string * Node)).

Inductive SdOp := OpOpendir | OpRead | OpCreate | OpWrite | OpUnlink | OpRmdir | OpMkdir.

(** [sd_accepts n op path]: the [n]-th request, to do [op] at [path]. *)
Class SdEnv := { sd_accepts : nat -> SdOp -> string -> bool }.

(** [dk_mounts] is [/proc/mounts] ([None] when it cannot be opened), [dk_mnt_dir] whether
    [sd_dir] is a directory, [dk_base] what is at [<sd_dir>/walkout]. *)
Record Disk := Build_Disk {
  dk_mounts : option string; dk_mnt_dir : bool; dk_base : option Node; dk_asked : nat
}.

#[export] Instance eta_Disk : Eta Disk := fun d =>
  Build_Disk (dk_mounts d) (dk_mnt_dir d) (dk_base d) (dk_asked d).

(** [g_logger]; [lg_jsonl] and [lg_lclog] whether the file is open. *)
Record SdLogger := Build_SdLogger {
  sl_enabled : bool; sl_active : bool; sl_sampling : bool; sl_sd_dir : string;
  sl_session_dir : string; sl_jsonl : bool; sl_lclog : bool; sl_records : Z; sl_bytes : Z;
  sl_seq : Z; sl_start_us : Z
}.

#[export] Instance eta_SdLogger : Eta SdLogger := fun l => Build_SdLogger
  (sl_enabled l) (sl_active l) (sl_sampling l) (sl_sd_dir l) (sl_session_dir l) (sl_jsonl l)
  (sl_lclog l) (sl_records l) (sl_bytes l) (sl_seq l) (sl_start_us l).

Definition sd_logger_init : SdLogger :=
  Build_SdLogger true false false "/mnt/mmcblk0p1" "" false false 0 0 0 0.

Definition is_dir (n : Node) : bool := match n with NDir _ => true | NFile _ => false end.
Definition names (es : list (string * Node)) : list string := map fst es.

(** The entry called [name] replaced, removed, or made at the end. *)
Fixpoint put_entry (name : string) (n : option Node) (es : list (string * Node))
    : list (string * Node) :=
  match es with
  | [] => match n with Some x => [(name, x)] | None => [] end
  | (m, x) :: es =>
      if String.eqb m name then match n with Some y => (m, y) :: es | None => es end
      else (m, x) :: put_entry name n es
  end.

Fixpoint get_entry (name : string) (es : list (string * Node)) : option Node :=
  match es with
  | [] => None
  | (m, x) :: es => if String.eqb m name then Some x else get_entry name es
  end.

Definition base_entries (d : Disk) : option (list (string * Node)) :=
  match dk_base d with Some (NDir es) => Some es | _ => None end.

Definition set_base (es : list (string * Node)) (d : Disk) : Disk := d <| dk_base := Some (NDir es) |>.

(** ** Names *)

(** [%06d]. *)
Definition six_digits (v : Z) : string :=
  let s := pretty (Z.abs v) in
  let neg := v <? 0 in
  let zeros := replicate ((if neg then 5 else 6) - String.length s) (ch 48) in
  ((if neg then "-" else "") ++ string_of_list_ascii zeros ++ s)%string.

Fixpoint all_digits (n : nat) (s : string) : bool :=
  match n, s with
  | O, _ => true
  | S n, String c s => isdigit c && all_digits n s
  | S _, EmptyString => false
  end.

Definition logger_is_indexed (name : string) : bool :=
  (7 <=? strlen name) && match String.get 6 name with Some c => aeq c (ch 95) | None => false end &&
  all_digits 6 name.

(** [strcmp(s, t) < 0]. *)
Fixpoint str_before (s t : string) : bool :=
  match s, t with
  | EmptyString, String _ _ => true
  | _, EmptyString => false
  | String a s, String b t => (code a <? code b) || ((code a =? code b) && str_before s t)
  end.

Section Logger.
Context {ABI : CAbi} {EV : SdEnv}.

Definition ask_kernel (op : SdOp) (path : string) (d : Disk) : bool * Disk :=
  (sd_accepts (dk_asked d) op path, d <| dk_asked := S (dk_asked d) |>).

Definition under (path name : string) : string := (path ++ "/" ++ name)%string.

(** What is left of the node at [path], and the number of requests by then. *)
Fixpoint logger_rm_rf (path : string) (n : Node) (asked : nat) : option Node * nat :=
  match n with
  | NFile _ => (Some n, asked)
  | NDir es =>
      let fix clear (es : list (string * Node)) (asked : nat) : list (string * Node) * nat :=
        match es with
        | [] => ([], asked)
        | (name, x) :: es =>
            let child := under path name in
            let '(rest, asked) :=
              if PATH_MAX <=? strlen child then (Some x, asked)
              else match x with
                   | NDir _ => logger_rm_rf child x asked
                   | NFile _ => (if sd_accepts asked OpUnlink child then None else Some x, S asked)
                   end in
            let '(es, asked) := clear es asked in
            (match rest with Some x => (name, x) :: es | None => es end, asked)
        end in
      let '(es, asked) :=
        if sd_accepts asked OpOpendir path then clear es (S asked) else (es, S asked) in
      match es with
      | [] => (if sd_accepts asked OpRmdir path then None else Some (NDir []), S asked)
      | _ => (Some (NDir es), S asked)
      end
  end.

(** *** The card is there *)

(** The second field of a line, when a space follows it. *)
Definition mount_point (line : string) : option string :=
  p ← strchr line SP;
  let mp := drop_chars 1 p in
  _ ← strchr mp SP;
  Some (span_until (fun c => aeq c SP) mp).1.

(** What successive calls of [fgets] with [cap] bytes deliver. *)
Fixpoint fgets_lines (fuel : nat) (cap : nat) (room : nat) (acc s : string) : list string :=
  match fuel with
  | O => []
  | S fuel =>
      match s with
      | EmptyString => match acc with EmptyString => [] | _ => [acc] end
      | String c s =>
          let acc := (acc ++ str1 c)%string in
          match room with
          | S (S room) => if aeq c LF then acc :: fgets_lines fuel cap cap "" s
                          else fgets_lines fuel cap (S room) acc s
          | _ => acc :: fgets_lines fuel cap cap "" s
          end
      end
  end.

Definition logger_sd_ready (dir : string) (d : Disk) : bool :=
  if starts_with "/mnt/" dir then
    match dk_mounts d with
    | None => false
    | Some text =>
        existsb (fun line => match mount_point line with
                             | Some mp => String.eqb mp dir
                             | None => false
                             end)
          (fgets_lines (S (String.length text)) 599 599 "" text)
    end
  else dk_mnt_dir d.

(** *** The index *)

(** [fscanf("%d")]: an [int] cut from the [long] that [strtol] returns. *)
Definition scan_int (s : string) : option Z := '(v, _) ← strtol s; Some (i32 v).
Definition atoi (s : string) : Z := default 0 (scan_int s).

Definition max_index (hi : Z) (ns : list string) : Z :=
  fold_left (fun hi n => if logger_is_indexed n && (hi <? atoi n) then atoi n else hi) ns hi.

Definition read_seq (base : string) (d : Disk) : Z * Disk :=
  match base_entries d with
  | Some es =>
      match get_entry ".seq" es with
      | Some (NFile text) =>
          let '(ok, d) := ask_kernel OpRead (under base ".seq") d in
          (if ok then match scan_int text with Some v => Z.max 0 v | None => 0 end else 0, d)
      | _ => (0, d)
      end
  | None => (0, d)
  end.

Definition write_seq (base : string) (next : Z) (d : Disk) : Disk :=
  match base_entries d with
  | Some es =>
      match get_entry ".seq" es with
      | Some (NDir _) => d
      | _ =>
          let '(ok, d) := ask_kernel OpCreate (under base ".seq") d in
          if ok then
            let '(ok, d) := ask_kernel OpWrite (under base ".seq") d in
            set_base (put_entry ".seq"
              (Some (NFile (if ok then six_digits next ++ str1 LF else ""))) es) d
          else d
      end
  | None => d
  end.

Definition logger_next_seq (base : string) (d : Disk) : Z * Disk :=
  let '(hi, d) := read_seq base d in
  let '(hi, d) :=
    match base_entries d with
    | Some es =>
        let '(ok, d) := ask_kernel OpOpendir base d in
        (if ok then max_index hi (names es) else hi, d)
    | None => (hi, d)
    end in
  let next := i32 (hi + 1) in
  (next, write_seq base next d).

(** *** Pruning *)

(** The directories seen so far, the first indexed name of them in the order of [strcmp], and
    the first name without an index. *)
Record PruneScan := Build_PruneScan {
  ps_count : Z; ps_oldest : option string; ps_legacy : option string
}.

Definition prune_see (p : PruneScan) (e : string * Node) : PruneScan :=
  let '(name, x) := e in
  if negb (is_dir x) then p
  else if negb (logger_is_indexed name) then
    Build_PruneScan (ps_count p + 1) (ps_oldest p)
      (match ps_legacy p with None => Some name | l => l end)
  else
    Build_PruneScan (ps_count p + 1)
      (match ps_oldest p with
       | None => Some name
       | Some o => Some (if str_before name o then name else o)
       end) (ps_legacy p).

Definition prune_scan (es : list (string * Node)) : PruneScan :=
  fold_left prune_see es (Build_PruneScan 0 None None).

Definition prune_victim (p : PruneScan) : option string :=
  match ps_legacy p with Some l => Some l | None => ps_oldest p end.

(** A victim's directory, cleared as far as the kernel lets it. *)
Definition prune_remove (base victim : string) (es : list (string * Node)) (d : Disk) : Disk :=
  match get_entry victim es with
  | Some x =>
      let '(rest, asked) := logger_rm_rf (under base victim) x (dk_asked d) in
      set_base (put_entry victim rest es) (d <| dk_asked := asked |>)
  | None => d
  end.

Fixpoint prune_loop (guard : nat) (base last : string) (d : Disk) : Disk :=
  match guard with
  | O => d
  | S guard =>
      match base_entries d with
      | None => d
      | Some es =>
          let '(ok, d) := ask_kernel OpOpendir base d in
          if negb ok then d
          else
            let p := prune_scan es in
            if ps_count p <? LOGGER_KEEP_SESSIONS then d
            else match prune_victim p with
                 | None => d
                 | Some v =>
                     if String.eqb v last then d
                     else prune_loop guard base v (prune_remove base v es d)
                 end
      end
  end.

Definition PRUNE_GUARD : nat := Z.to_nat (LOGGER_KEEP_SESSIONS + 4).

Definition logger_prune (base : string) (d : Disk) : Disk := prune_loop PRUNE_GUARD base "" d.

(** *** Sessions *)

Definition logger_close_session (l : SdLogger) : SdLogger :=
  l <| sl_jsonl := false |> <| sl_lclog := false |> <| sl_active := false |>.

(** [mkdir] of the base; what is there already is [EEXIST]. *)
Definition make_base (base : string) (d : Disk) : bool * Disk :=
  match dk_base d with
  | Some _ => (true, d)
  | None =>
      let '(ok, d) := ask_kernel OpMkdir base d in
      (ok, if ok then set_base [] d else d)
  end.

(** [mkdir] of a session. *)
Definition make_session (base name : string) (d : Disk) : bool * Disk :=
  match base_entries d with
  | None => (false, d)
  | Some es =>
      match get_entry name es with
      | Some _ => (true, d)
      | None =>
          let '(ok, d) := ask_kernel OpMkdir (under base name) d in
          (ok, if ok then set_base (put_entry name (Some (NDir [])) es) d else d)
      end
  end.

Definition session_entries (name : string) (d : Disk) : option (list (string * Node)) :=
  es ← base_entries d;
  x ← get_entry name es;
  match x with NDir fs => Some fs | NFile _ => None end.

Definition set_session (name : string) (fs : list (string * Node)) (d : Disk) : Disk :=
  match base_entries d with
  | Some es => set_base (put_entry name (Some (NDir fs)) es) d
  | None => d
  end.

(** [fopen(path, "a")] of a file of a session. *)
Definition open_append (base name file : string) (d : Disk) : bool * Disk :=
  match session_entries name d with
  | None => (false, d)
  | Some fs =>
      match get_entry file fs with
      | Some (NDir _) => (false, d)
      | old =>
          let '(ok, d) := ask_kernel OpCreate (under (under base name) file) d in
          (ok, if ok && match old with None => true | Some _ => false end then
                 set_session name (put_entry file (Some (NFile "")) fs) d
               else d)
      end
  end.

Definition walkout (l : SdLogger) : string := under (sl_sd_dir l) "walkout".

Definition session_name (seq : Z) (stamp : string) (pid : Z) : string :=
  (six_digits seq ++ "_" ++ stamp ++ "_" ++ pretty pid)%string.

(** [stamp] is the local time, [now] the monotonic clock. *)
Definition logger_open_session (stamp : string) (pid now : Z) (l : SdLogger) (d : Disk)
    : Z * SdLogger * Disk :=
  let l := logger_close_session l in
  if negb (sl_enabled l) then (-1, l, d)
  else if negb (logger_sd_ready (sl_sd_dir l) d) then (-1, l, d)
  else
    let base := walkout l in
    let '(ok, d) := make_base base d in
    if negb ok then (-1, l, d)
    else
      let '(seq, d) := logger_next_seq base d in
      let d := logger_prune base d in
      let name := session_name seq stamp pid in
      let l := l <| sl_session_dir := under base name |> in
      let '(ok, d) := make_session base name d in
      if negb ok then (-1, l, d)
      else
        let '(js, d) := open_append base name "status.jsonl" d in
        let '(lc, d) := open_append base name "lc.log" d in
        if negb js then (-1, logger_close_session l, d)
        else (0, l <| sl_jsonl := true |> <| sl_lclog := lc |> <| sl_seq := seq |>
                   <| sl_records := 0 |> <| sl_bytes := 0 |> <| sl_sampling := true |>
                   <| sl_active := true |> <| sl_start_us := now |>, d).

Definition logger_stop (l : SdLogger) : SdLogger := logger_close_session l.

(** *** The sample of a second *)

Definition sample_line (ts up : Z) (status : string) : string :=
  (with_quotes "{'ts':" ++ pretty ts ++ with_quotes ",'up':" ++ pretty up ++
   with_quotes ",'status':" ++ status ++ "}" ++ str1 LF)%string.

Definition LOGGER_MAX_BYTES : Z := u64 (LOGGER_MAX_MB * 1024 * 1024).

(** [status] is the status document, [None] when it did not fit its buffer; [w] is what
    [fprintf] returned. *)
Definition logger_tick (status : option Z) (l : SdLogger) : SdLogger :=
  if negb (sl_active l) then l
  else if negb (sl_sampling l && sl_jsonl l) then l
  else match status with
       | None => l
       | Some w =>
           let l := (if w >? 0 then l <| sl_bytes := u64 (sl_bytes l + w) |> else l) in
           let l := l <| sl_records := u64 (sl_records l + 1) |> in
           if (sl_records l mod 120 =? 0) && (LOGGER_MAX_BYTES <=? sl_bytes l)
           then l <| sl_sampling := false |> else l
       end.

Definition sd_bool (b : bool) : string := if b then "true" else "false".

Definition logger_status_to_json (now : Z) (l : SdLogger) : string :=
  let age := (if sl_active l then F64.div (F64.of_Z (u64 (now - sl_start_us l))) (F64.of_Z 1000000)
              else f0) in
  (with_quotes "{'enabled':" ++ sd_bool (sl_enabled l) ++
   with_quotes ",'active':" ++ sd_bool (sl_active l) ++
   with_quotes ",'sampling':" ++ sd_bool (sl_sampling l) ++
   with_quotes ",'sd_dir':'" ++ sl_sd_dir l ++
   with_quotes "','session_dir':'" ++ (if sl_active l then sl_session_dir l else "") ++
   with_quotes "','seq':" ++ pretty (sl_seq l) ++
   with_quotes ",'records':" ++ pretty (sl_records l) ++
   with_quotes ",'bytes':" ++ pretty (sl_bytes l) ++
   with_quotes ",'age_s':" ++ printf_f 1 age ++ "}")%string.

(** ** Entries *)

Definition dirs (es : list (string * Node)) : list (string * Node) :=
  List.filter (fun e => is_dir e.2) es.

Lemma get_entry_in name es x : get_entry name es = Some x -> In (name, x) es.
Proof.
  induction es as [|[m y] es IH]; [done|]. cbn. destruct (String.eqb_spec m name) as [->|_].
  - intros [= ->]. by left.
  - intros H. right. auto.
Qed.

(** The entries under other names are those there were. *)
Lemma put_entry_other name n es m x : m <> name ->
  In (m, x) (put_entry name n es) <-> In (m, x) es.
Proof.
  intros Hm. induction es as [|[k y] es IH]; cbn.
  - destruct n; cbn; [|done]. split; [|done]. intros [[= <- _]|[]]. done.
  - destruct (String.eqb_spec k name) as [->|Hk]; cbn; [|by rewrite IH].
    destruct n; cbn; split; intros H; repeat (destruct H as [H|H]; [try (injection H; congruence); auto|]); auto.
Qed.

Lemma put_entry_names name n es m x :
  In (m, x) (put_entry name n es) -> In m (names es) \/ (m = name /\ n = Some x).
Proof.
  induction es as [|[k y] es IH]; cbn.
  - destruct n; cbn; [|done]. intros [[= -> ->]|[]]. by right.
  - destruct (String.eqb k name) eqn:Ek; cbn.
    + apply String.eqb_eq in Ek as ->. destruct n; cbn.
      * intros [[= -> ->]|H]; [by right|]. left. right. apply in_map_iff. by exists (m, x).
      * intros H. left. right. apply in_map_iff. by exists (m, x).
    + intros [[= -> ->]|H]; [by left; left|]. destruct (IH H) as [?|?]; auto.
Qed.

(** A directory replaced by what is left of it. *)
Lemma dirs_put name x rest es :
  get_entry name es = Some (NDir x) -> (forall y, rest = Some y -> is_dir y = true) ->
  (length (dirs (put_entry name rest es)) + match rest with Some _ => 0 | None => 1 end =
   length (dirs es))%nat /\
  forall m y, In (m, y) (dirs (put_entry name rest es)) -> In m (names (dirs es)).
Proof.
  intros Hx Hr. induction es as [|[k y] es IH]; [done|]. cbn in Hx |- *.
  destruct (String.eqb_spec k name) as [->|Hk].
  - injection Hx as ->. cbn. destruct rest as [r|]; cbn.
    + rewrite (Hr r eq_refl). cbn. split; [lia|]. intros m z [[= <- <-]|H]; [by left|].
      right. apply in_map_iff. by exists (m, z).
    + split; [lia|]. intros m z H. right. apply in_map_iff. by exists (m, z).
  - destruct (IH Hx) as [IH1 IH2]. cbn. destruct (is_dir y) eqn:Ey; cbn; split; try lia; auto.
    intros m z [[= <- <-]|H]; [by left|]. right. by eapply IH2.
Qed.

(** ** Clearing a directory *)

Lemma rm_rf_dir path n asked rest :
  (logger_rm_rf path n asked).1 = Some rest -> is_dir rest = is_dir n.
Proof.
  destruct n as [c|es]; cbn; [by intros [= <-]|].
  match goal with |- (let '(_, _) := ?t in _).1 = _ -> _ => destruct t as [[|e es'] a] end.
  - by destruct (sd_accepts a OpRmdir path); [|intros [= <-]].
  - by intros [= <-].
Qed.

(** Every path below is short enough to be acted on. *)
Fixpoint fits (path : string) (n : Node) : bool :=
  match n with
  | NFile _ => true
  | NDir es =>
      (fix go (es : list (string * Node)) : bool :=
         match es with
         | [] => true
         | (name, x) :: es =>
             (strlen (under path name) <? PATH_MAX) && fits (under path name) x && go es
         end) es
  end.

Definition obedient : Prop := forall n op path, sd_accepts n op path = true.

Lemma node_ind' (P : Node -> Prop) :
  (forall c, P (NFile c)) -> (forall es, Forall (fun e => P e.2) es -> P (NDir es)) ->
  forall n, P n.
Proof.
  intros HF HD. fix IH 1. intros [c|es]; [apply HF|]. apply HD.
  induction es as [|[m x] es IHes]; constructor; [apply IH|exact IHes].
Qed.

Definition rm_children (path : string) :=
  fix clear (es : list (string * Node)) (asked : nat) : list (string * Node) * nat :=
    match es with
    | [] => ([], asked)
    | (name, x) :: es =>
        let child := under path name in
        let '(rest, asked) :=
          if PATH_MAX <=? strlen child then (Some x, asked)
          else match x with
               | NDir _ => logger_rm_rf child x asked
               | NFile _ => (if sd_accepts asked OpUnlink child then None else Some x, S asked)
               end in
        let '(es, asked) := clear es asked in
        (match rest with Some x => (name, x) :: es | None => es end, asked)
    end.

Lemma rm_rf_eq path es asked :
  logger_rm_rf path (NDir es) asked =
  let '(es, asked) :=
    if sd_accepts asked OpOpendir path then rm_children path es (S asked) else (es, S asked) in
  match es with
  | [] => (if sd_accepts asked OpRmdir path then None else Some (NDir []), S asked)
  | _ => (Some (NDir es), S asked)
  end.
Proof. reflexivity. Qed.

#[local] Arguments logger_rm_rf : simpl never.

Lemma rm_rf_gone n : obedient -> forall path asked,
  is_dir n = true -> fits path n = true -> (logger_rm_rf path n asked).1 = None.
Proof.
  intros Hob. induction n as [c|es IH] using node_ind'; intros path asked Hd Hf; [done|].
  assert (Hc : forall a, (rm_children path es a).1 = []).
  { clear Hd. induction IH as [|[m x] es Hx _ IHes]; intros a; [done|]. cbn in Hf |- *.
    rewrite !andb_true_iff in Hf. destruct Hf as [[Hl Hfx] Hf].
    replace (PATH_MAX <=? strlen (under path m)) with false by lia.
    destruct x as [c|ds].
    - rewrite Hob. specialize (IHes Hf (S a)). destruct (rm_children path es (S a)) as [r b].
      cbn in IHes. by subst.
    - specialize (Hx (under path m) a eq_refl Hfx). cbn [snd] in Hx.
      destruct (logger_rm_rf (under path m) (NDir ds) a) as [r b]. cbn in Hx. subst r.
      specialize (IHes Hf b). destruct (rm_children path es b) as [r b'].
      cbn in IHes. by subst. }
  rewrite rm_rf_eq, Hob. specialize (Hc (S asked)).
  destruct (rm_children path es (S asked)) as [r b]. cbn in Hc. subst r. by rewrite Hob.
Qed.

(** ** Pruning *)

Lemma str_before_irrefl s : str_before s s = false.
Proof. induction s as [|a s IH]; [done|]. cbn. rewrite IH, andb_false_r. lia. Qed.

Lemma str_before_trans s : forall t u,
  str_before s t = true -> str_before t u = true -> str_before s u = true.
Proof.
  induction s as [|a s IH]; intros [|b t] [|c u]; cbn; try done.
  rewrite !orb_true_iff, !andb_true_iff.
  intros [H1|[H1 H2]] [K1|[K1 K2]]; [left; lia..|right]. split; [lia|eauto].
Qed.

Lemma str_before_asym s t : str_before s t = true -> str_before t s = false.
Proof.
  intros H. destruct (str_before t s) eqn:E; [|done].
  pose proof (str_before_trans s t s H E) as K. by rewrite str_before_irrefl in K.
Qed.

Lemma str_before_total s : forall t,
  str_before s t = false -> str_before t s = false -> s = t.
Proof.
  induction s as [|a s IH]; intros [|b t]; cbn; try done.
  rewrite !orb_false_iff, !andb_false_iff. intros [H1 H2] [K1 K2].
  assert (E : code a = code b) by lia. f_equal.
  - unfold code in E. apply Nat2Z.inj in E. rewrite <- (Ascii.ascii_nat_embedding a), E.
    apply Ascii.ascii_nat_embedding.
  - apply IH; [destruct H2; [lia|done]|destruct K2; [lia|done]].
Qed.

Lemma str_before_le_trans s t u :
  str_before t s = false -> str_before u t = false -> str_before u s = false.
Proof.
  intros H K. destruct (str_before u s) eqn:E; [|done].
  destruct (str_before s t) eqn:Est; [by rewrite (str_before_trans u s t) in K|].
  by rewrite (str_before_total s t Est H), K in E.
Qed.

Lemma dirs_cons m x es : dirs ((m, x) :: es) = if is_dir x then (m, x) :: dirs es else dirs es.
Proof. done. Qed.

Lemma scan_count es : forall p,
  ps_count (fold_left prune_see es p) = ps_count p + Z.of_nat (length (dirs es)).
Proof.
  induction es as [|[m x] es IH]; intros p; [cbn; lia|]. cbn [fold_left].
  rewrite IH, dirs_cons. unfold prune_see.
  destruct (is_dir x); [|done]. destruct (logger_is_indexed m); cbn [negb ps_count length]; lia.
Qed.

Lemma scan_legacy_kept es : forall p l,
  ps_legacy p = Some l -> ps_legacy (fold_left prune_see es p) = Some l.
Proof.
  induction es as [|[m x] es IH]; intros p l Hl; cbn [fold_left]; [done|]. apply IH.
  unfold prune_see. destruct (is_dir x); [|done]. destruct (logger_is_indexed m); cbn; [done|].
  by rewrite Hl.
Qed.

Lemma scan_legacy es : forall p,
  match ps_legacy (fold_left prune_see es p) with
  | Some l => ps_legacy p = Some l \/
              (logger_is_indexed l = false /\ In l (names (dirs es)))
  | None => Forall (fun e => logger_is_indexed e.1 = true) (dirs es)
  end.
Proof.
  induction es as [|[m x] es IH]; intros p; cbn [fold_left dirs List.filter names].
  - destruct (ps_legacy p); [by left|constructor].
  - specialize (IH (prune_see p (m, x))). unfold prune_see in *. cbn [snd].
    destruct (is_dir x); cbn [negb] in *; [|exact IH].
    destruct (logger_is_indexed m) eqn:Em; cbn [negb ps_legacy] in *; cbn [names map].
    + destruct (ps_legacy (fold_left _ _ _)); [|by constructor].
      destruct IH as [?|[? ?]]; [by left|right; split; [done|by right]].
    + destruct (ps_legacy (fold_left _ _ _)) as [l|] eqn:El.
      * destruct IH as [H|[? ?]]; [|right; split; [done|by right]].
        destruct (ps_legacy p) as [q|]; [by left|]. injection H as <-.
        right. split; [done|by left].
      * exfalso. destruct (ps_legacy p) as [q|] eqn:Ep;
          erewrite scan_legacy_kept in El; cbn; rewrite ?Ep; done.
Qed.

Lemma scan_oldest es : forall p,
  match ps_oldest (fold_left prune_see es p) with
  | Some o =>
      (ps_oldest p = Some o \/ (logger_is_indexed o = true /\ In o (names (dirs es)))) /\
      (forall q, ps_oldest p = Some q -> str_before q o = false) /\
      Forall (fun e => logger_is_indexed e.1 = true -> str_before e.1 o = false) (dirs es)
  | None => ps_oldest p = None /\ Forall (fun e => logger_is_indexed e.1 = false) (dirs es)
  end.
Proof.
  induction es as [|[m x] es IH]; intros p; cbn [fold_left dirs List.filter names].
  - destruct (ps_oldest p) as [o|]; [|by split; [|constructor]].
    split; [by left|]. split; [|constructor]. intros q [= <-]. apply str_before_irrefl.
  - specialize (IH (prune_see p (m, x))). unfold prune_see in *. cbn [snd].
    destruct (is_dir x); cbn [negb] in *; [|exact IH]. cbn [names map].
    destruct (logger_is_indexed m) eqn:Em; cbn [negb ps_oldest] in *.
    + destruct (ps_oldest (fold_left _ _ _)) as [o|].
      2:{ destruct IH as [H _]. by destruct (ps_oldest p). }
      destruct IH as (H1 & H2 & H3). destruct (ps_oldest p) as [q|].
      * destruct (str_before m q) eqn:Eq.
        -- assert (Hm : str_before m o = false) by by apply H2.
           split; [destruct H1 as [[= <-]|[? ?]]; right; split; auto; [by left|by right]|].
           split; [|by constructor]. intros r [= <-]. destruct (str_before q o) eqn:Eo; [|done].
           by rewrite (str_before_trans m q o Eq Eo) in Hm.
        -- assert (Hq : str_before q o = false) by by apply H2.
           split; [destruct H1 as [[= <-]|[? ?]]; [by left|right; split; [done|by right]]|].
           split; [by intros r [= <-]|]. constructor; [|done]. intros _.
           by eapply str_before_le_trans.
      * split; [destruct H1 as [[= <-]|[? ?]]; right; split; auto; [by left|by right]|].
        split; [done|]. constructor; [|done]. intros _. by apply H2.
    + destruct (ps_oldest (fold_left _ _ _)) as [o|].
      * destruct IH as (H1 & H2 & H3).
        split; [destruct H1 as [?|[? ?]]; [by left|right; split; [done|by right]]|].
        split; [done|]. constructor; [|done]. cbn. congruence.
      * destruct IH as [H1 H2]. split; [done|]. by constructor.
Qed.

Lemma victim_spec es v : prune_victim (prune_scan es) = Some v ->
  In v (names (dirs es)) /\
  (logger_is_indexed v = true -> Forall (fun e =>
     logger_is_indexed e.1 = true /\ str_before e.1 v = false) (dirs es)).
Proof.
  unfold prune_victim, prune_scan. set (p0 := Build_PruneScan 0 None None).
  pose proof (scan_legacy es p0) as Hl. pose proof (scan_oldest es p0) as Ho.
  destruct (ps_legacy (fold_left prune_see es p0)) as [l|].
  - intros [= <-]. destruct Hl as [|[Hl Hin]]; [done|]. split; [done|congruence].
  - intros E. rewrite E in Ho. destruct Ho as ([|[_ Hin]] & _ & H); [done|].
    split; [done|]. intros _. rewrite Forall_forall in Hl, H |- *. auto.
Qed.

Lemma victim_none es : prune_victim (prune_scan es) = None -> dirs es = [].
Proof.
  unfold prune_victim, prune_scan. set (p0 := Build_PruneScan 0 None None).
  pose proof (scan_legacy es p0) as Hl. pose proof (scan_oldest es p0) as Ho.
  destruct (ps_legacy (fold_left prune_see es p0)); [done|]. intros E. rewrite E in Ho.
  destruct Ho as [_ Ho]. destruct (dirs es) as [|e ds]; [done|].
  inversion_clear Hl. inversion_clear Ho. congruence.
Qed.

Lemma get_dir es v : NoDup (names es) -> In v (names (dirs es)) ->
  exists ds, get_entry v es = Some (NDir ds).
Proof.
  induction es as [|[m x] es IH]; [done|]. intros Hnd. rewrite dirs_cons.
  apply NoDup_cons in Hnd as [Hm Hnd]. cbn [get_entry].
  destruct (String.eqb_spec m v) as [->|Hv].
  - destruct x as [c|ds]; cbn; [|by eexists]. intros Hin. destruct Hm.
    apply list_elem_of_In. apply in_map_iff in Hin as ([k y] & <- & Hin).
    apply filter_In in Hin as [Hin _]. apply in_map_iff. by exists (k, y).
  - intros Hin. apply IH; [done|]. destruct (is_dir x); [|done].
    cbn in Hin. destruct Hin as [?|?]; [congruence|done].
Qed.

Lemma put_entry_nodup es v rest : NoDup (names es) -> In v (names es) ->
  NoDup (names (put_entry v rest es)).
Proof.
  induction es as [|[m x] es IH]; [done|]. intros Hnd Hin. cbn [put_entry].
  pose proof Hnd as Hnd'. apply NoDup_cons in Hnd as [Hm Hnd].
  destruct (String.eqb_spec m v) as [->|Hv].
  - destruct rest; [exact Hnd'|exact Hnd].
  - cbn in Hin. destruct Hin as [?|Hin]; [congruence|]. cbn [names map fst].
    apply NoDup_cons. split; [|by apply IH]. intros H. apply Hm.
    apply list_elem_of_In in H. apply list_elem_of_In.
    apply in_map_iff in H as ([k y] & Ek & Hk). cbn in Ek. subst k.
    apply put_entry_other in Hk; [|done]. apply in_map_iff. by exists (m, y).
Qed.

Lemma put_entry_none es v : NoDup (names es) -> ~ In v (names (put_entry v None es)).
Proof.
  induction es as [|[m x] es IH]; [by intros _ []|]. intros Hnd. cbn [put_entry].
  apply NoDup_cons in Hnd as [Hm Hnd]. destruct (String.eqb_spec m v) as [->|Hv].
  - intros H. apply Hm. by apply list_elem_of_In.
  - cbn. intros [?|H]; [congruence|]. by apply IH.
Qed.

(** What pruning does: victims are cleared, one after another, while there are too many. *)
Inductive pruned : list (string * Node) -> list (string * Node) -> Prop :=
| pruned_done es : pruned es es
| pruned_step es v ds rest es' :
    LOGGER_KEEP_SESSIONS <= Z.of_nat (length (dirs es)) ->
    prune_victim (prune_scan es) = Some v -> get_entry v es = Some (NDir ds) ->
    (forall y, rest = Some y -> is_dir y = true) ->
    pruned (put_entry v rest es) es' -> pruned es es'.

Lemma in_names_dirs es v : In v (names (dirs es)) -> In v (names es).
Proof.
  intros H. apply in_map_iff in H as ([k y] & <- & H). apply filter_In in H as [H _].
  apply in_map_iff. by exists (k, y).
Qed.

Lemma prune_loop_pruned guard base : forall last d es,
  base_entries d = Some es -> NoDup (names es) ->
  exists es', base_entries (prune_loop guard base last d) = Some es' /\ pruned es es'.
Proof.
  induction guard as [|guard IH]; intros last d es He Hnd; cbn [prune_loop].
  { exists es. by split; [|constructor]. }
  rewrite He. destruct (ask_kernel OpOpendir base d) as [ok d1] eqn:E1.
  assert (He1 : base_entries d1 = Some es) by (by injection E1 as _ <-).
  destruct ok; cbn [negb]; [|exists es; by split; [|constructor]].
  destruct (ps_count (prune_scan es) <? LOGGER_KEEP_SESSIONS) eqn:Ec;
    [exists es; by split; [|constructor]|].
  destruct (prune_victim (prune_scan es)) as [v|] eqn:Ev; [|exists es; by split; [|constructor]].
  destruct (String.eqb v last); [exists es; by split; [|constructor]|].
  destruct (victim_spec es v Ev) as [Hin _]. destruct (get_dir es v Hnd Hin) as [ds Hds].
  unfold prune_remove. rewrite Hds.
  destruct (logger_rm_rf (under base v) (NDir ds) (dk_asked d1)) as [rest asked] eqn:Er.
  destruct (IH v (set_base (put_entry v rest es) (d1 <| dk_asked := asked |>))
              (put_entry v rest es)) as (es' & He' & Hp); [done| |].
  { apply put_entry_nodup; [done|]. by apply in_names_dirs. }
  exists es'. split; [exact He'|]. eapply pruned_step; eauto.
  - unfold prune_scan in Ec. rewrite scan_count in Ec. cbn in Ec. lia.
  - intros y ->. pose proof (rm_rf_dir (under base v) (NDir ds) (dk_asked d1) y) as H.
    rewrite Er in H. by apply H.
Qed.

Lemma pruned_dirs es es' : pruned es es' ->
  forall m y, In (m, y) (dirs es') -> In m (names (dirs es)).
Proof.
  induction 1 as [es|es v ds rest es' _ _ Hds Hr _ IH]; intros m y H.
  - apply in_map_iff. by exists (m, y).
  - specialize (IH m y H). apply in_map_iff in IH as ([k z] & <- & Hk).
    by eapply (dirs_put v ds rest es Hds Hr).
Qed.

Lemma pruned_count es es' : pruned es es' ->
  Z.min (LOGGER_KEEP_SESSIONS - 1) (Z.of_nat (length (dirs es))) <= Z.of_nat (length (dirs es')).
Proof.
  induction 1 as [es|es v ds rest es' Hc _ Hds Hr _ IH]; [lia|].
  destruct (dirs_put v ds rest es Hds Hr) as [Hl _].
  destruct rest; cbn in Hl; unfold LOGGER_KEEP_SESSIONS in *; lia.
Qed.

Lemma nodup_get es k x : NoDup (names es) -> In (k, x) es -> get_entry k es = Some x.
Proof.
  induction es as [|[m y] es IH]; [done|]. intros Hnd Hin. cbn [get_entry].
  apply NoDup_cons in Hnd as [Hm Hnd]. destruct (String.eqb_spec m k) as [->|Hk].
  - destruct Hin as [[= ->]|Hin]; [done|]. destruct Hm. apply list_elem_of_In.
    apply in_map_iff. by exists (k, x).
  - destruct Hin as [[= -> ->]|Hin]; [done|auto].
Qed.

Lemma pruned_lost es es' : pruned es es' -> NoDup (names es) ->
  forall e, In e es -> ~ In e es' ->
  is_dir e.2 = true /\
  (logger_is_indexed e.1 = true -> forall m y, In (m, y) (dirs es') ->
     logger_is_indexed m = true /\ str_before m e.1 = false).
Proof.
  induction 1 as [es|es v ds rest es' Hc Hv Hds Hr Hp IH]; intros Hnd [k x] Hin Hout; [done|].
  assert (Hall : pruned es es') by by eapply pruned_step.
  destruct (victim_spec es v Hv) as [Hvin Hvix].
  destruct (decide (k = v)) as [->|Hk].
  - assert (E : x = NDir ds) by (apply (nodup_get es v) in Hin; congruence). subst x.
    split; [done|]. intros Hix m y Hm. cbn in *.
    apply (pruned_dirs es es' Hall) in Hm. apply in_map_iff in Hm as ([k z] & <- & Hk).
    specialize (Hvix Hix). rewrite List.Forall_forall in Hvix. apply (Hvix _ Hk).
  - apply IH; [|by apply put_entry_other|done].
    apply put_entry_nodup; [done|]. by apply in_names_dirs.
Qed.

(** An obedient kernel lets every step remove its victim. *)
Lemma prune_loop_obeyed guard base : obedient -> forall last d es,
  base_entries d = Some es -> NoDup (names es) -> ~ In last (names es) ->
  (forall k x, In (k, x) es -> fits (under base k) x = true) ->
  exists es', base_entries (prune_loop guard base last d) = Some es' /\
    Z.of_nat (length (dirs es')) =
      if Z.of_nat (length (dirs es)) <? LOGGER_KEEP_SESSIONS then Z.of_nat (length (dirs es))
      else Z.max (LOGGER_KEEP_SESSIONS - 1) (Z.of_nat (length (dirs es)) - Z.of_nat guard).
Proof.
  intros Hob. induction guard as [|guard IH]; intros last d es He Hnd Hlast Hfit; cbn [prune_loop].
  { exists es. split; [done|]. unfold LOGGER_KEEP_SESSIONS. destruct (_ <? _) eqn:E; lia. }
  rewrite He. unfold ask_kernel. rewrite Hob. cbn [negb].
  assert (Ecount : ps_count (prune_scan es) = Z.of_nat (length (dirs es)))
    by (unfold prune_scan; by rewrite scan_count).
  rewrite Ecount. destruct (_ <? LOGGER_KEEP_SESSIONS) eqn:Ec; [exists es; by split|].
  destruct (prune_victim (prune_scan es)) as [v|] eqn:Ev.
  2:{ rewrite (victim_none es Ev) in Ec. done. }
  destruct (victim_spec es v Ev) as [Hin _]. pose proof (in_names_dirs es v Hin) as Hin'.
  destruct (String.eqb_spec v last) as [->|Hv]; [done|].
  destruct (get_dir es v Hnd Hin) as [ds Hds]. unfold prune_remove. rewrite Hds.
  assert (Hfd : fits (under base v) (NDir ds) = true) by (apply Hfit; by apply get_entry_in).
  match goal with |- context [logger_rm_rf ?p ?n ?a] =>
    pose proof (rm_rf_gone n Hob p a eq_refl Hfd) as Hgone;
    destruct (logger_rm_rf p n a) as [rest asked] end.
  cbn in Hgone. subst rest.
  destruct (dirs_put v ds None es Hds ltac:(done)) as [Hlen _]. cbv iota in Hlen.
  match goal with |- context [set_base _ ?d'] =>
    destruct (IH v (set_base (put_entry v None es) d') (put_entry v None es))
      as (es' & He' & Hl) end.
  - done.
  - by apply put_entry_nodup.
  - by apply put_entry_none.
  - intros k x Hk. apply Hfit. destruct (decide (k = v)) as [->|Hkv].
    + destruct (put_entry_none es v Hnd). apply in_map_iff. by exists (v, x).
    + by apply put_entry_other in Hk.
  - exists es'. split; [exact He'|]. rewrite Hl. unfold LOGGER_KEEP_SESSIONS in *.
    destruct (Z.of_nat (length (dirs (put_entry v None es))) <? 10) eqn:E2; lia.
Qed.

(** ** Indices *)

Definition digit_first (s : string) : bool :=
  match s with String a _ => isdigit a | EmptyString => false end.

Lemma strtoZ_digits s : digit_first s = true -> strtoZ s = Some (read_digits s 0).
Proof.
  destruct s as [|a s]; [done|]. cbn [digit_first]. intros Ha. unfold strtoZ. cbn [skip_while].
  rewrite (digit_not_space a Ha). destruct (digit_not_sign a Ha) as [-> ->]. rewrite Ha.
  by destruct (read_digits (String a s) 0).
Qed.

(** The number the first [n] digits write. *)
Fixpoint digits_value (n : nat) (s : string) : Z :=
  match n, s with
  | S n, String a s => digit_val a * 10 ^ Z.of_nat n + digits_value n s
  | _, _ => 0
  end.

Lemma digit_val_bound a : isdigit a = true -> 0 <= digit_val a <= 9.
Proof. unfold isdigit, digit_val. lia. Qed.

Lemma digits_value_bound n : forall s, all_digits n s = true -> 0 <= digits_value n s < 10 ^ Z.of_nat n.
Proof.
  induction n as [|n IH]; intros s H; [cbn; lia|]. destruct s as [|a s]; [done|].
  cbn [all_digits digits_value] in *. apply andb_true_iff in H as [Ha H].
  pose proof (digit_val_bound a Ha). specialize (IH s H).
  replace (Z.of_nat (S n)) with (1 + Z.of_nat n) by lia. rewrite Z.pow_add_r by lia. nia.
Qed.

Lemma digits_value_order n : forall s t, all_digits n s = true -> all_digits n t = true ->
  digits_value n s < digits_value n t -> str_before s t = true.
Proof.
  induction n as [|n IH]; intros s t Hs Ht H; [cbn in H; lia|].
  destruct s as [|a s], t as [|b t]; try done. cbn [all_digits digits_value str_before] in *.
  apply andb_true_iff in Hs as [Ha Hs]. apply andb_true_iff in Ht as [Hb Ht].
  pose proof (digits_value_bound n s Hs). pose proof (digits_value_bound n t Ht).
  apply orb_true_iff. unfold digit_val in H.
  destruct (Z.lt_trichotomy (code a) (code b)) as [L|[E|L]]; [left; lia| |].
  - right. apply andb_true_iff. split; [lia|]. apply IH; [done..|]. rewrite E in H. lia.
  - exfalso. assert ((code b - 48 + 1) * 10 ^ Z.of_nat n <= (code a - 48) * 10 ^ Z.of_nat n)
      by (apply Z.mul_le_mono_nonneg_r; lia). lia.
Qed.

Lemma read_digits_value n : forall s acc, all_digits n s = true ->
  digit_first (drop_chars n s) = false ->
  (read_digits s acc).1 = acc * 10 ^ Z.of_nat n + digits_value n s.
Proof.
  induction n as [|n IH]; intros s acc Hs Hd.
  - cbn in Hd |- *. rewrite read_digits_stop by done. cbn. lia.
  - destruct s as [|a s]; [done|]. cbn [all_digits drop_chars digits_value read_digits] in *.
    apply andb_true_iff in Hs as [Ha Hs]. rewrite Ha, IH by done.
    replace (Z.of_nat (S n)) with (1 + Z.of_nat n) by lia. rewrite Z.pow_add_r by lia. lia.
Qed.

Lemma indexed_shape m : logger_is_indexed m = true ->
  all_digits 6 m = true /\ digit_first m = true /\ digit_first (drop_chars 6 m) = false.
Proof.
  unfold logger_is_indexed. rewrite !andb_true_iff. intros [[_ Hg] Hd]. split; [done|].
  destruct m as [|a0 [|a1 [|a2 [|a3 [|a4 [|a5 [|a6 m]]]]]]]; try done. cbn in Hg, Hd |- *.
  split; [by destruct (isdigit a0)|]. apply aeq_eq in Hg as ->. done.
Qed.

Lemma indexed_atoi m : logger_is_indexed m = true -> atoi m = digits_value 6 m.
Proof.
  intros H. destruct (indexed_shape m H) as (Hd & Hf & Hs).
  pose proof (digits_value_bound 6 m Hd) as Hb. change (10 ^ Z.of_nat 6) with 1000000 in Hb.
  unfold atoi, scan_int, strtol. rewrite strtoZ_digits by done.
  pose proof (read_digits_value 6 m 0 Hd Hs) as Hr. destruct (read_digits m 0) as [v e].
  cbn [fst] in Hr. rewrite Z.add_0_l in Hr. subst v. cbn -[digits_value].
  pose proof LONG_MAX_ge. pose proof LONG_MIN_le. unfold INT_MAX, INT_MIN, clampZ in *.
  rewrite Z.min_r, Z.max_r by lia. apply i32_small. unfold INT_MAX, INT_MIN. lia.
Qed.

Lemma max_index_ge ns : forall hi, hi <= max_index hi ns /\
  forall n, In n ns -> logger_is_indexed n = true -> atoi n <= max_index hi ns.
Proof.
  unfold max_index. induction ns as [|m ns IH]; intros hi; cbn [fold_left]; [by split|].
  set (hi' := if logger_is_indexed m && (hi <? atoi m) then atoi m else hi).
  assert (Hhi : hi <= hi') by (subst hi'; destruct (_ && _) eqn:E; lia).
  destruct (IH hi') as [H1 H2]. split; [lia|]. intros n [->|Hn] Hix; [|auto].
  subst hi'. rewrite Hix in *. cbn [andb] in *. destruct (hi <? atoi n) eqn:E; lia.
Qed.

Definition zeros (n : nat) : string := string_of_list_ascii (replicate n (ch 48)).

Lemma zeros_read n s : read_digits (zeros n ++ s) 0 = read_digits s 0.
Proof. induction n as [|n IH]; [done|]. exact IH. Qed.

Lemma all_digits_app s n t : all_chars isdigit s = true -> all_digits n t = true ->
  all_digits (String.length s + n) (s ++ t) = true.
Proof.
  intros Hs Ht. induction s as [|a s IH]; cbn in *; [done|].
  apply andb_true_iff in Hs as [Ha Hs]. apply andb_true_iff. auto.
Qed.

Lemma zeros_digits n : all_chars isdigit (zeros n) = true /\ String.length (zeros n) = n.
Proof.
  induction n as [|n [IH1 IH2]]; [done|]. cbn. split; [exact IH1|by f_equal].
Qed.

(** Six digits at least, exactly six below a million; read back. *)
Lemma six_digits_shape v : 0 <= v -> exists d,
  six_digits v = d /\ all_chars isdigit d = true /\ digit_first d = true /\
  (forall t, read_digits (d ++ t) 0 = read_digits t v) /\
  (6 <= String.length d)%nat /\ (v < 1000000 <-> String.length d = 6%nat).
Proof.
  intros Hv. unfold six_digits. rewrite Z.abs_eq by lia. replace (v <? 0) with false by lia.
  destruct (pretty_Z_shape v) as (d & E & Hne & Hd & Hread & Hlen).
  replace (v <? 0) with false in E by lia. rewrite E. rewrite Z.abs_eq in Hread, Hlen by lia.
  set (n := (6 - String.length d)%nat). fold (zeros n). cbn [String.append].
  destruct (zeros_digits n) as [Hz Hzl]. exists (zeros n ++ d)%string.
  assert (Hl : String.length (zeros n ++ d) = Nat.max 6 (String.length d)).
  { rewrite length_append, Hzl. unfold n. lia. }
  assert (Hall : all_chars isdigit (zeros n ++ d) = true) by (by rewrite all_chars_app, Hz, Hd).
  split; [done|]. split; [done|]. split.
  { destruct (zeros n ++ d)%string as [|a s]; [cbn in Hl; lia|].
    cbn in Hall |- *. by apply andb_true_iff in Hall as [-> _]. }
  split; [intros t; by rewrite sapp_assoc, zeros_read, Hread|]. split; [lia|].
  rewrite Hl. rewrite strlen_length in Hlen. split.
  - intros Hlt. destruct Hlen as [Hlen|Hlen]; [lia|].
    destruct (Z_le_gt_dec (Z.of_nat (String.length d)) 6) as [|Hgt]; [lia|].
    assert (10 ^ 6 <= 10 ^ (Z.of_nat (String.length d) - 1)) by (apply Z.pow_le_mono_r; lia). lia.
  - intros Hmax. pose proof (digits_value_bound (String.length d) d) as Hb.
    assert (Hd' : all_digits (String.length d) d = true).
    { pose proof (all_digits_app d 0 EmptyString Hd eq_refl) as K.
      by rewrite Nat.add_0_r, sapp_nil_r in K. }
    specialize (Hb Hd'). pose proof (read_digits_value (String.length d) d 0 Hd') as Hr.
    pose proof (Hread EmptyString) as Hr0. rewrite sapp_nil_r in Hr0.
    rewrite Hr0 in Hr. cbn [read_digits fst] in Hr. rewrite Hr;
      [|pose proof (drop_chars_app d EmptyString) as K; rewrite sapp_nil_r in K; by rewrite K].
    assert (10 ^ Z.of_nat (String.length d) <= 10 ^ 6) by (apply Z.pow_le_mono_r; lia). lia.
Qed.

Lemma scan_six_digits v t : 0 <= v <= INT_MAX -> digit_first t = false ->
  scan_int (six_digits v ++ t) = Some v.
Proof.
  intros Hv Ht. destruct (six_digits_shape v) as (d & -> & _ & Hf & Hr & _ & _); [lia|].
  unfold scan_int, strtol. rewrite strtoZ_digits by (by destruct d).
  rewrite Hr, read_digits_stop by done. cbn [mbind option_bind].
  pose proof LONG_MAX_ge. pose proof LONG_MIN_le. unfold INT_MIN in *. unfold clampZ.
  rewrite Z.min_r, Z.max_r by lia. by rewrite i32_small by (unfold INT_MIN; lia).
Qed.

Lemma get_length s c t : String.get (String.length s) (s ++ String c t) = Some c.
Proof. induction s as [|a s IH]; [done|exact IH]. Qed.

Lemma all_digits_prefix n : forall s t, (n <= String.length s)%nat ->
  all_chars isdigit s = true -> all_digits n (s ++ t) = true.
Proof.
  induction n as [|n IH]; intros s t Hl Hs; [by destruct (s ++ t)%string|].
  destruct s as [|a s]; [cbn in Hl; lia|]. cbn in *. apply andb_true_iff in Hs as [Ha Hs].
  apply andb_true_iff. split; [done|]. apply IH; [lia|done].
Qed.

Lemma get_digit n : forall s t, (n < String.length s)%nat -> all_chars isdigit s = true ->
  exists c, String.get n (s ++ t) = Some c /\ isdigit c = true.
Proof.
  induction n as [|n IH]; intros [|a s] t Hl Hs; cbn in *; try lia;
    apply andb_true_iff in Hs as [Ha Hs]; [by exists a|]. apply IH; [lia|done].
Qed.

(** The name of a session has an index exactly below a million. *)
Lemma session_name_indexed v stamp pid : 0 <= v ->
  logger_is_indexed (session_name v stamp pid) = (v <? 1000000).
Proof.
  intros Hv. unfold session_name, logger_is_indexed.
  destruct (six_digits_shape v Hv) as (d & -> & Hd & _ & _ & Hl & Hiff).
  rewrite strlen_app. rewrite (all_digits_prefix 6) by done. rewrite andb_true_r.
  rewrite (strlen_app "_"). change (strlen "_") with 1.
  pose proof (strlen_nonneg (stamp ++ "_" ++ pretty pid)). rewrite (strlen_length d). replace (7 <=? _) with true by lia. cbn [andb].
  destruct (v <? 1000000) eqn:E.
  - pose proof (get_length d (ch 95) (stamp ++ "_" ++ pretty pid)) as K.
    rewrite (proj1 Hiff) in K by lia.
    replace (String.get 6 _) with (Some (ch 95)) by (symmetry; exact K). done.
  - destruct (get_digit 6 d ("_" ++ stamp ++ "_" ++ pretty pid)) as (c & -> & Hc); [lia|done|].
    destruct (aeq c (ch 95)) eqn:Ea; [|done]. apply aeq_eq in Ea. by subst c.
Qed.

Lemma session_name_atoi v stamp pid : 0 <= v <= INT_MAX -> atoi (session_name v stamp pid) = v.
Proof.
  intros Hv. unfold atoi, session_name. by rewrite scan_six_digits.
Qed.

(** Below a million, the order of names is the order of indices. *)
Lemma session_name_last m v stamp pid : 0 <= v < 1000000 -> logger_is_indexed m = true ->
  atoi m < v -> str_before m (session_name v stamp pid) = true.
Proof.
  intros Hv Hm Hlt. assert (Hn : logger_is_indexed (session_name v stamp pid) = true)
    by (rewrite session_name_indexed; lia).
  destruct (indexed_shape m Hm) as (Hd & _). destruct (indexed_shape _ Hn) as (Hd' & _).
  apply (digits_value_order 6); [done..|]. rewrite <- !indexed_atoi by done.
  rewrite session_name_atoi; unfold INT_MAX; lia.
Qed.

(** ** Opening a session *)

Lemma get_put_same name x es : get_entry name (put_entry name (Some x) es) = Some x.
Proof.
  induction es as [|[m y] es IH]; cbn; [by rewrite String.eqb_refl|].
  destruct (String.eqb_spec m name) as [->|Hm]; cbn; [by rewrite String.eqb_refl|].
  by destruct (String.eqb_spec m name).
Qed.

Lemma get_put_other name m n es : m <> name -> get_entry m (put_entry name n es) = get_entry m es.
Proof.
  intros Hm. induction es as [|[k y] es IH]; cbn.
  - destruct n; cbn; [|done]. by destruct (String.eqb_spec name m) as [->|].
  - destruct (String.eqb_spec k name) as [->|Hk]; cbn.
    + destruct n; cbn; by destruct (String.eqb_spec name m) as [->|].
    + by rewrite IH.
Qed.

Lemma get_entry_names name es : get_entry name es = None <-> ~ In name (names es).
Proof.
  induction es as [|[m y] es IH]; cbn; [tauto|].
  destruct (String.eqb_spec m name) as [->|Hm]; [|rewrite IH; tauto].
  split; [done|]. intros H. destruct H. by left.
Qed.

Lemma put_names name x es m : In m (names (put_entry name (Some x) es)) <->
  m = name \/ In m (names es).
Proof.
  induction es as [|[k y] es IH]; cbn; [intuition congruence|].
  destruct (String.eqb_spec k name) as [->|Hk]; cbn; [intuition congruence|].
  rewrite IH. intuition congruence.
Qed.

Lemma put_nodup name x es : NoDup (names es) -> NoDup (names (put_entry name (Some x) es)).
Proof.
  induction es as [|[k y] es IH]; cbn; intros Hnd.
  - apply NoDup_cons. split; [|constructor]. apply not_elem_of_nil.
  - destruct (String.eqb_spec k name) as [->|Hk]; cbn; [done|].
    apply NoDup_cons in Hnd as [Hn Hnd]. apply NoDup_cons. split; [|by apply IH].
    intros H. apply Hn. apply list_elem_of_In in H. apply list_elem_of_In.
    apply put_names in H as [->|H]; [done|exact H].
Qed.

Lemma dirs_put_file name c es : (forall x, get_entry name es = Some x -> is_dir x = false) ->
  dirs (put_entry name (Some (NFile c)) es) = dirs es.
Proof.
  induction es as [|[k y] es IH]; intros H; [done|]. cbn [put_entry get_entry] in *.
  destruct (String.eqb_spec k name) as [->|Hk]; rewrite !dirs_cons.
  - by rewrite (H y eq_refl).
  - by rewrite IH.
Qed.

Lemma dirs_put_new name fs es : ~ In name (names es) ->
  length (dirs (put_entry name (Some (NDir fs)) es)) = S (length (dirs es)).
Proof.
  induction es as [|[k y] es IH]; intros H; [done|]. cbn [put_entry names map fst In] in *.
  destruct (String.eqb_spec k name) as [->|Hk]; [tauto|]. rewrite !dirs_cons.
  destruct (is_dir y); cbn [length]; rewrite IH by tauto; done.
Qed.

Lemma dirs_put_dir name fs gs es : get_entry name es = Some (NDir gs) ->
  length (dirs (put_entry name (Some (NDir fs)) es)) = length (dirs es).
Proof.
  intros H. destruct (dirs_put name gs (Some (NDir fs)) es H) as [Hl _]; [by intros y [= <-]|].
  cbv iota in Hl. lia.
Qed.

(** The index [.seq] tells. *)
Definition persisted (es : list (string * Node)) : Z :=
  match get_entry ".seq" es with
  | Some (NFile text) => match scan_int text with Some v => Z.max 0 v | None => 0 end
  | _ => 0
  end.

Definition seq_line (v : Z) : Node := NFile (six_digits v ++ str1 LF).

Definition seq_is_file (es : list (string * Node)) : Prop :=
  forall x, get_entry ".seq" es = Some x -> is_dir x = false.

Lemma next_seq_obeyed base d es : obedient -> base_entries d = Some es -> seq_is_file es ->
  max_index (persisted es) (names es) < INT_MAX ->
  exists d', logger_next_seq base d = (max_index (persisted es) (names es) + 1, d') /\
    base_entries d' =
      Some (put_entry ".seq" (Some (seq_line (max_index (persisted es) (names es) + 1))) es).
Proof.
  intros Hob He Hseq Hmax. unfold logger_next_seq.
  assert (Hr : exists d1, read_seq base d = (persisted es, d1) /\ base_entries d1 = Some es).
  { unfold read_seq, persisted, ask_kernel. rewrite He.
    destruct (get_entry ".seq" es) as [[text|ds]|]; [|by exists d..].
    rewrite Hob. by eexists. }
  destruct Hr as (d1 & -> & He1). rewrite He1. unfold ask_kernel at 1. rewrite Hob.
  set (hi := max_index (persisted es) (names es)) in *.
  assert (Hhi : 0 <= hi).
  { pose proof (max_index_ge (names es) (persisted es)) as [H _]. fold hi in H.
    assert (0 <= persisted es); [|lia]. unfold persisted.
    destruct (get_entry ".seq" es) as [[text|ds]|]; [|lia..]. destruct (scan_int text); lia. }
  rewrite i32_small by (unfold INT_MIN; lia). eexists. split; [done|].
  unfold write_seq. cbn [base_entries dk_base]. change (base_entries (d1 <| dk_asked := _ |>)) with (base_entries d1).
  rewrite He1. unfold ask_kernel. rewrite !Hob.
  destruct (get_entry ".seq" es) as [x|] eqn:Ex; [|done].
  specialize (Hseq x Ex). by destruct x.
Qed.

Lemma pruned_names es es' : pruned es es' -> forall m, In m (names es') -> In m (names es).
Proof.
  induction 1 as [|es v ds rest es' _ _ Hds _ _ IH]; [done|]. intros m Hm.
  specialize (IH m Hm). apply in_map_iff in IH as ([k x] & <- & Hk).
  apply put_entry_names in Hk as [?|[-> _]]; [done|].
  apply get_entry_in in Hds. apply in_map_iff. by exists (v, NDir ds).
Qed.

Lemma pruned_nodup es es' : pruned es es' -> NoDup (names es) -> NoDup (names es').
Proof.
  induction 1 as [|es v ds rest es' _ Hv _ _ _ IH]; [done|]. intros Hnd. apply IH.
  apply put_entry_nodup; [done|]. apply in_names_dirs. by apply victim_spec.
Qed.

Lemma pruned_file es es' k c : pruned es es' ->
  get_entry k es = Some (NFile c) -> get_entry k es' = Some (NFile c).
Proof.
  induction 1 as [|es v ds rest es' _ _ Hds _ _ IH]; [done|]. intros Hk. apply IH.
  rewrite get_put_other; [done|]. intros ->. congruence.
Qed.

(** What the new session's directory is made of. *)
Lemma make_session_obeyed base name d es : obedient ->
  base_entries d = Some es -> ~ In name (names es) ->
  exists d', make_session base name d = (true, d') /\
    base_entries d' = Some (put_entry name (Some (NDir [])) es).
Proof.
  intros Hob He Hn. unfold make_session, ask_kernel. rewrite He.
  apply get_entry_names in Hn. rewrite Hn, Hob. by eexists.
Qed.

Lemma open_append_obeyed base name file d es fs : obedient ->
  base_entries d = Some es -> get_entry name es = Some (NDir fs) -> ~ In file (names fs) ->
  exists d', open_append base name file d = (true, d') /\
    base_entries d' = Some (put_entry name (Some (NDir (put_entry file (Some (NFile "")) fs))) es).
Proof.
  intros Hob He Hn Hf. unfold open_append, session_entries, ask_kernel. rewrite He.
  cbn [mbind option_bind]. rewrite Hn. cbn [mbind option_bind]. apply get_entry_names in Hf.
  rewrite Hf, Hob. eexists. split; [done|]. cbn [andb].
  unfold set_session. change (base_entries (d <| dk_asked := S (dk_asked d) |>)) with (base_entries d).
  by rewrite He.
Qed.

Lemma put_put name x y es : put_entry name (Some x) (put_entry name (Some y) es) =
  put_entry name (Some x) es.
Proof.
  induction es as [|[k z] es IH]; cbn; [by rewrite String.eqb_refl|].
  destruct (String.eqb_spec k name) as [->|Hk]; cbn; [by rewrite String.eqb_refl|].
  destruct (String.eqb_spec k name); [done|]. by rewrite IH.
Qed.

Definition new_session : Node := NDir [("status.jsonl", NFile ""); ("lc.log", NFile "")]%string.

Definition count_dirs (es : list (string * Node)) : Z := Z.of_nat (length (dirs es)).

(** The three steps behind the pruning. *)
Lemma session_made base name d es : obedient -> base_entries d = Some es -> ~ In name (names es) ->
  exists d1 d2 d3, make_session base name d = (true, d1) /\
    open_append base name "status.jsonl" d1 = (true, d2) /\
    open_append base name "lc.log" d2 = (true, d3) /\
    base_entries d3 = Some (put_entry name (Some new_session) es).
Proof.
  intros Hob He Hn.
  destruct (make_session_obeyed base name d es Hob He Hn) as (d1 & E1 & H1).
  destruct (open_append_obeyed base name "status.jsonl" d1 _ [] Hob H1) as (d2 & E2 & H2);
    [apply get_put_same|by intros []|]. rewrite put_put in H2.
  destruct (open_append_obeyed base name "lc.log" d2 _ [("status.jsonl", NFile "")]%string Hob H2)
    as (d3 & E3 & H3); [apply get_put_same|by intros [?|[]]|]. rewrite put_put in H3.
  by exists d1, d2, d3.
Qed.

(** The base directory, which may have to be made first. *)
Definition openable (d : Disk) (es : list (string * Node)) : Prop :=
  base_entries d = Some es \/ (dk_base d = None /\ es = []).

Lemma make_base_obeyed base d es : obedient -> openable d es ->
  exists d', make_base base d = (true, d') /\ base_entries d' = Some es.
Proof.
  intros Hob [He|[He ->]]; unfold make_base, ask_kernel.
  - unfold base_entries in *. destruct (dk_base d) as [x|] eqn:Ed; [|done].
    exists d. by rewrite Ed.
  - rewrite He, Hob. by eexists.
Qed.

Lemma persisted_nonneg es : 0 <= persisted es.
Proof.
  unfold persisted. destruct (get_entry ".seq" es) as [[text|ds]|]; [|lia..].
  destruct (scan_int text); lia.
Qed.

Lemma persisted_line v es : 0 <= v <= INT_MAX -> get_entry ".seq" es = Some (seq_line v) ->
  persisted es = v.
Proof.
  intros Hv He. unfold persisted. rewrite He. unfold seq_line.
  rewrite scan_six_digits by done. lia.
Qed.

Lemma seq_name_not_indexed : logger_is_indexed ".seq" = false.
Proof. reflexivity. Qed.

(** What is left of the base once the new index is saved and the oldest sessions are gone. *)
Lemma prune_outcome base d es v : obedient -> seq_is_file es ->
  base_entries d = Some (put_entry ".seq" (Some (seq_line v)) es) ->
  NoDup (names es) -> ~ In ""%string (names es) ->
  (forall k x, In (k, x) es -> fits (under base k) x = true) ->
  exists es', base_entries (logger_prune base d) = Some es' /\
    pruned (put_entry ".seq" (Some (seq_line v)) es) es' /\
    Z.of_nat (length (dirs es')) =
      if count_dirs es <? LOGGER_KEEP_SESSIONS then count_dirs es
      else Z.max (LOGGER_KEEP_SESSIONS - 1) (count_dirs es - (LOGGER_KEEP_SESSIONS + 4)).
Proof.
  intros Hob Hseq He Hnd Hnn Hfit. set (es1 := put_entry ".seq" (Some (seq_line v)) es) in *.
  assert (Hnd1 : NoDup (names es1)) by (by apply put_nodup).
  destruct (prune_loop_pruned PRUNE_GUARD base "" d es1 He Hnd1) as (es2 & He2 & Hp).
  destruct (prune_loop_obeyed PRUNE_GUARD base Hob "" d es1 He Hnd1) as (es2' & He2' & Hl).
  { intros H'. apply put_names in H' as [?|?]; [done|by apply Hnn]. }
  { intros k x Hk. destruct (decide (k = ".seq"%string)) as [->|Hk'].
    - apply (nodup_get es1) in Hk; [|done]. unfold es1 in Hk. rewrite get_put_same in Hk.
      by injection Hk as <-.
    - apply Hfit. by apply put_entry_other in Hk. }
  assert (es2' = es2) by congruence. subst es2'. exists es2. split; [done|]. split; [done|].
  rewrite Hl. unfold es1, seq_line. rewrite (dirs_put_file ".seq" _ es Hseq). unfold PRUNE_GUARD.
  rewrite Z2Nat.id by (unfold LOGGER_KEEP_SESSIONS; lia). done.
Qed.

(** With a kernel that refuses nothing the logger opens. *)
Lemma open_session_obeyed stamp pid now l d es :
  obedient -> sl_enabled l = true -> logger_sd_ready (sl_sd_dir l) d = true ->
  openable d es -> NoDup (names es) -> ~ In ""%string (names es) -> seq_is_file es ->
  (forall k x, In (k, x) es -> fits (under (walkout l) k) x = true) ->
  max_index (persisted es) (names es) < 999999 ->
  exists l' d' es', logger_open_session stamp pid now l d = (0, l', d') /\
    let name := session_name (sl_seq l') stamp pid in
    sl_active l' = true /\ sl_session_dir l' = under (walkout l) name /\
    base_entries d' = Some es' /\ get_entry name es' = Some new_session /\
    persisted es' = sl_seq l' /\
    count_dirs es' = 1 + if count_dirs es <? LOGGER_KEEP_SESSIONS then count_dirs es
                         else Z.max (LOGGER_KEEP_SESSIONS - 1)
                                    (count_dirs es - (LOGGER_KEEP_SESSIONS + 4)).
Proof.
  intros Hob Hen Hready Hop Hnd Hnn Hseq Hfit Hmax. unfold logger_open_session.
  change (sl_enabled (logger_close_session l)) with (sl_enabled l).
  change (sl_sd_dir (logger_close_session l)) with (sl_sd_dir l).
  change (walkout (logger_close_session l)) with (walkout l). rewrite Hen, Hready. cbn [negb].
  destruct (make_base_obeyed (walkout l) d es Hob Hop) as (d1 & -> & He1). cbn [negb].
  destruct (next_seq_obeyed (walkout l) d1 es Hob He1 Hseq) as (d2 & -> & He2);
    [unfold INT_MAX; lia|].
  pose proof (max_index_ge (names es) (persisted es)) as [Hge Hgt].
  pose proof (persisted_nonneg es). set (s := max_index (persisted es) (names es) + 1) in *.
  set (es1 := put_entry ".seq" (Some (seq_line s)) es) in *.
  destruct (prune_outcome (walkout l) d2 es s Hob Hseq He2 Hnd Hnn Hfit) as (es2 & He3 & Hp & Hl).
  set (name := session_name s stamp pid).
  assert (Hix : logger_is_indexed name = true) by (unfold name; rewrite session_name_indexed; lia).
  assert (Hold : forall m, In m (names es) -> logger_is_indexed m = true ->
            atoi m < s /\ str_before m name = true).
  { intros m Hm Hmi. specialize (Hgt m Hm Hmi). split; [lia|]. apply session_name_last; [lia|done|lia]. }
  assert (Hfresh : ~ In name (names es2)).
  { intros Hin. apply (pruned_names es1 es2 Hp) in Hin. apply put_names in Hin as [E|Hin].
    - by rewrite E in Hix.
    - destruct (Hold name Hin Hix) as [_ K]. by rewrite str_before_irrefl in K. }
  destruct (session_made (walkout l) name _ es2 Hob He3 Hfresh)
    as (d4 & d5 & d6 & E4 & E5 & E6 & He6).
  rewrite E4. cbn [negb]. rewrite E5, E6. cbn [negb].
  eexists _, d6, _. split; [done|]. cbn -[session_name count_dirs persisted LOGGER_KEEP_SESSIONS].
  fold name. split_and!; try done; try lia.
  - apply get_put_same.
  - apply persisted_line; [unfold INT_MAX; lia|]. rewrite get_put_other by (by intros <-).
    apply (pruned_file es1 es2 ".seq" (six_digits s ++ str1 LF) Hp). apply get_put_same.
  - unfold count_dirs at 1, new_session. rewrite dirs_put_new by done. rewrite Nat2Z.inj_succ, Hl. lia.
Qed.

(** ** Whatever the kernel does *)

(** Entries under names other than [k] are the same, and so is that names are distinct. *)
Definition apart (k : string) (es es' : list (string * Node)) : Prop :=
  (forall m x, m <> k -> In (m, x) es' <-> In (m, x) es) /\
  (NoDup (names es) -> NoDup (names es')).

Lemma apart_refl k es : apart k es es.
Proof. by split. Qed.

Lemma apart_put k x es : apart k es (put_entry k (Some x) es).
Proof. split; [intros m y Hm; by apply put_entry_other|apply put_nodup]. Qed.

Lemma apart_trans k es1 es2 es3 : apart k es1 es2 -> apart k es2 es3 -> apart k es1 es3.
Proof. intros [H1 H2] [K1 K2]. split; [intros m x Hm; by rewrite K1, H1|auto]. Qed.

(** [f] leaves the base a directory and touches the entry [k] only. *)
Definition touches (k : string) (d d' : Disk) : Prop :=
  forall es, base_entries d = Some es -> exists es', base_entries d' = Some es' /\ apart k es es'.

Lemma touches_refl k d : touches k d d.
Proof. intros es He. exists es. by split; [|apply apart_refl]. Qed.

Lemma touches_trans k d1 d2 d3 : touches k d1 d2 -> touches k d2 d3 -> touches k d1 d3.
Proof.
  intros H1 H2 es He. destruct (H1 es He) as (es2 & He2 & Ha).
  destruct (H2 es2 He2) as (es3 & He3 & Hb). exists es3. split; [done|by eapply apart_trans].
Qed.

Lemma next_seq_touches base d : touches ".seq" d (logger_next_seq base d).2.
Proof.
  intros es He. unfold logger_next_seq.
  assert (H1 : base_entries (read_seq base d).2 = Some es).
  { unfold read_seq, ask_kernel. rewrite He. by destruct (get_entry ".seq" es) as [[]|]. }
  destruct (read_seq base d) as [hi d1]. cbn [snd] in H1. rewrite H1. unfold ask_kernel at 1.
  cbn [snd]. unfold write_seq.
  change (base_entries (d1 <| dk_asked := S (dk_asked d1) |>)) with (base_entries d1). rewrite H1.
  unfold ask_kernel.
  assert (Hput : forall x d2, exists es', base_entries (set_base (put_entry ".seq" (Some x) es) d2)
            = Some es' /\ apart ".seq" es es').
  { intros x d2. eexists. split; [done|apply apart_put]. }
  assert (Hid : exists es', Some es = Some es' /\ apart ".seq" es es')
    by (exists es; split; [done|apply apart_refl]).
  destruct (get_entry ".seq" es) as [[text|ds]|]; [|by rewrite <- H1 in Hid|];
    (destruct (sd_accepts _ OpCreate _); [apply Hput|by rewrite <- H1 in Hid]).
Qed.

Lemma set_session_touches name fs d : touches name d (set_session name fs d).
Proof.
  intros es He. unfold set_session. rewrite He. eexists. split; [done|apply apart_put].
Qed.

Lemma make_session_touches base name d : touches name d (make_session base name d).2.
Proof.
  intros es He. unfold make_session, ask_kernel. rewrite He.
  destruct (get_entry name es); cbn [snd]; [by apply touches_refl|].
  destruct (sd_accepts _ OpMkdir _); [|by apply (touches_refl name d)].
  eexists. split; [done|apply apart_put].
Qed.

Lemma open_append_touches base name file d : touches name d (open_append base name file d).2.
Proof.
  unfold open_append, ask_kernel. destruct (session_entries name d) as [fs|]; [|apply touches_refl].
  assert (Hd : touches name d (d <| dk_asked := S (dk_asked d) |>)) by (apply (touches_refl name d)).
  destruct (get_entry file fs) as [[c|ds]|]; cbn [snd]; [|apply touches_refl|];
    destruct (sd_accepts _ OpCreate _); cbn [andb]; try exact Hd.
  eapply touches_trans; [exact Hd|apply set_session_touches].
Qed.

(** What [d'] has lost under the base beside the index file and the entry [name]. *)
Definition only_old_lost (es : list (string * Node)) (d' : Disk) : Prop :=
  exists es' name, base_entries d' = Some es' /\
    forall k x, k <> ".seq"%string -> k <> name -> In (k, x) es -> ~ In (k, x) es' ->
      is_dir x = true /\
      (logger_is_indexed k = true -> forall m y, m <> name -> In (m, y) (dirs es') ->
         logger_is_indexed m = true /\ str_before m k = false).

Definition loss_bounded (d d' : Disk) : Prop :=
  forall es, base_entries d = Some es -> NoDup (names es) -> only_old_lost es d'.

Lemma loss_refl d : loss_bounded d d.
Proof. intros es He _. exists es, ""%string. split; [done|]. intros k x _ _ Hin Hout. done. Qed.

(** Pruning between a new index and a new session. *)
Lemma loss_pruned base name d d2 d' : touches ".seq" d d2 -> touches name (logger_prune base d2) d' ->
  loss_bounded d d'.
Proof.
  intros T2 T4 es He Hnd. destruct (T2 es He) as (es1 & He1 & Ha1 & Hn1).
  destruct (prune_loop_pruned PRUNE_GUARD base "" d2 es1 He1 (Hn1 Hnd)) as (es2 & He2 & Hp).
  destruct (T4 es2 He2) as (es' & He' & Ha' & _). exists es', name. split; [done|].
  intros k x Hk1 Hk2 Hin Hout. destruct (pruned_lost es1 es2 Hp (Hn1 Hnd) (k, x)) as [Hd Hold].
  - by apply Ha1.
  - intros H. apply Hout. by apply Ha'.
  - split; [exact Hd|]. intros Hix m y Hm Hy. apply (Hold Hix m y).
    apply filter_In in Hy as [Hy Hyd]. apply filter_In. split; [|exact Hyd]. by apply Ha'.
Qed.

(** Whatever the kernel refuses, the logger costs nothing but old logs: it is active
    exactly when opening succeeded, and holds no file otherwise; a card that is not mounted is
    not written to; and beside the index file and the new session, the only entries lost under
    the base are directories, of indexed ones only those older than every directory that
    stays, and none while a directory without an index stays. *)
Theorem open_session_safe stamp pid now l d :
  let '(rc, l', d') := logger_open_session stamp pid now l d in
  (if rc =? 0 then sl_active l' = true /\ sl_jsonl l' = true
   else sl_active l' = false /\ sl_jsonl l' = false /\ sl_lclog l' = false) /\
  (sl_enabled l && logger_sd_ready (sl_sd_dir l) d = false -> rc = -1 /\ d' = d) /\
  loss_bounded d d'.
Proof.
  unfold logger_open_session.
  change (sl_enabled (logger_close_session l)) with (sl_enabled l).
  change (sl_sd_dir (logger_close_session l)) with (sl_sd_dir l).
  change (walkout (logger_close_session l)) with (walkout l).
  pose proof (loss_refl d) as Hid.
  destruct (sl_enabled l); cbn [negb andb]; [|by split_and!].
  destruct (logger_sd_ready (sl_sd_dir l) d); cbn [negb]; [|by split_and!].
  assert (Hb : forall es, base_entries d = Some es -> (make_base (walkout l) d) = (true, d)).
  { intros es He. unfold make_base. unfold base_entries in He. by destruct (dk_base d). }
  destruct (make_base (walkout l) d) as [ok d1] eqn:E1. destruct ok; cbn [negb].
  2:{ split_and!; try done. intros es He. by specialize (Hb es He). }
  pose proof (next_seq_touches (walkout l) d1) as T2.
  destruct (logger_next_seq (walkout l) d1) as [seq d2]. cbn [snd] in T2.
  set (name := session_name seq stamp pid). set (d3 := logger_prune (walkout l) d2).
  assert (Hend : forall d', touches name d3 d' -> loss_bounded d d').
  { intros d' T4 es He Hnd. specialize (Hb es He). injection Hb as ->.
    by apply (loss_pruned (walkout l) name d d2 d'). }
  pose proof (make_session_touches (walkout l) name d3) as T4.
  destruct (make_session (walkout l) name d3) as [ok d4]. cbn [snd] in T4.
  destruct ok; cbn [negb]; [|split_and!; try done; by apply Hend].
  pose proof (open_append_touches (walkout l) name "status.jsonl" d4) as T5.
  destruct (open_append (walkout l) name "status.jsonl" d4) as [js d5]. cbn [snd] in T5.
  pose proof (open_append_touches (walkout l) name "lc.log" d5) as T6.
  destruct (open_append (walkout l) name "lc.log" d5) as [lc d6]. cbn [snd] in T6.
  assert (T : touches name d3 d6) by (eapply touches_trans; [exact T4|by eapply touches_trans]).
  destruct js; cbn [negb]; (split_and!; [done..|by apply Hend]).
Qed.

(** *** The index of a session *)

(** The kernel lists directories and opens files for reading; it may refuse anything else. *)
Definition readable : Prop := forall n path,
  sd_accepts n OpOpendir path = true /\ sd_accepts n OpRead path = true.

Lemma next_seq_value base d es : readable -> base_entries d = Some es ->
  max_index (persisted es) (names es) < INT_MAX ->
  (logger_next_seq base d).1 = max_index (persisted es) (names es) + 1.
Proof.
  intros Hr He Hmax. unfold logger_next_seq.
  assert (Hs : exists d1, read_seq base d = (persisted es, d1) /\ base_entries d1 = Some es).
  { unfold read_seq, persisted, ask_kernel. rewrite He.
    destruct (get_entry ".seq" es) as [[text|ds]|]; [|by exists d..].
    rewrite (proj2 (Hr _ _)). by eexists. }
  destruct Hs as (d1 & -> & He1). rewrite He1. unfold ask_kernel. rewrite (proj1 (Hr _ _)). cbn [fst].
  pose proof (max_index_ge (names es) (persisted es)) as [H _]. pose proof (persisted_nonneg es).
  apply i32_small. unfold INT_MIN. lia.
Qed.

Lemma make_base_opens base d es d1 : openable d es -> make_base base d = (true, d1) ->
  base_entries d1 = Some es.
Proof.
  unfold make_base, ask_kernel. intros [He|[He ->]].
  - unfold base_entries in *. destruct (dk_base d) eqn:Ed; [|done]. intros [= <-]. by rewrite Ed.
  - rewrite He. destruct (sd_accepts _ OpMkdir _); [|done]. by intros [= <-].
Qed.

(** A session's directory is on the card once a file of it has been opened. *)
Lemma open_append_there base name file d :
  is_Some (session_entries name d) -> is_Some (session_entries name (open_append base name file d).2).
Proof.
  intros [fs Hfs]. unfold open_append, ask_kernel. rewrite Hfs.
  assert (Hput : forall d1 gs, base_entries d1 = base_entries d ->
            is_Some (session_entries name (set_session name gs d1))).
  { intros d1 gs He. unfold set_session. rewrite He. unfold session_entries in Hfs.
    destruct (base_entries d) as [es|]; [|done]. exists gs. unfold session_entries, set_base.
    cbn. by rewrite get_put_same. }
  destruct (get_entry file fs) as [[c|ds]|]; cbn [snd]; [|by exists fs|];
    destruct (sd_accepts _ OpCreate _); cbn [andb]; first [by apply Hput|by exists fs].
Qed.

Lemma open_append_needs base name file d : (open_append base name file d).1 = true ->
  is_Some (session_entries name d).
Proof. unfold open_append. destruct (session_entries name d); [by eexists|done]. Qed.

(** What an opening that succeeded did. *)
Lemma open_session_ran stamp pid now l d es l' d' : openable d es ->
  logger_open_session stamp pid now l d = (0, l', d') ->
  exists d1, base_entries d1 = Some es /\ sl_seq l' = (logger_next_seq (walkout l) d1).1 /\
    is_Some (session_entries (session_name (sl_seq l') stamp pid) d').
Proof.
  intros Hop. unfold logger_open_session.
  change (sl_enabled (logger_close_session l)) with (sl_enabled l).
  change (sl_sd_dir (logger_close_session l)) with (sl_sd_dir l).
  change (walkout (logger_close_session l)) with (walkout l).
  destruct (sl_enabled l); cbn [negb]; [|done].
  destruct (logger_sd_ready (sl_sd_dir l) d); cbn [negb]; [|done].
  pose proof (make_base_opens (walkout l) d es) as Hb.
  destruct (make_base (walkout l) d) as [ok d1]. destruct ok; cbn [negb]; [|done].
  specialize (Hb d1 Hop eq_refl). destruct (logger_next_seq (walkout l) d1) as [seq d2] eqn:E2.
  destruct (make_session _ _ _) as [ok d4]. destruct ok; cbn [negb]; [|done].
  set (name := session_name seq stamp pid).
  pose proof (open_append_needs (walkout l) name "status.jsonl" d4) as N5.
  pose proof (open_append_there (walkout l) name "status.jsonl" d4) as T5.
  destruct (open_append _ _ "status.jsonl" d4) as [js d5].
  pose proof (open_append_there (walkout l) name "lc.log" d5) as T6.
  destruct (open_append _ _ "lc.log" d5) as [lc d6].
  destruct js; cbn [negb]; [|done]. intros [= <- <-]. exists d1. split; [done|].
  split; [by rewrite E2|]. apply T6, T5, N5. reflexivity.
Qed.


(** ** The cap *)

Definition ticks (l : SdLogger) (ss : list (option Z)) : SdLogger :=
  fold_left (fun l s => logger_tick s l) ss l.

Lemma tick_step w W l : 0 <= W -> w <= W -> LOGGER_MAX_BYTES + 120 * W < 2 ^ 64 ->
  0 <= sl_records l < 2 ^ 64 - 1 -> 0 <= sl_bytes l < LOGGER_MAX_BYTES + 120 * W ->
  (sl_sampling l = true -> sl_bytes l <= LOGGER_MAX_BYTES - 1 + W * (sl_records l mod 120)) ->
  let l' := logger_tick (Some w) l in
  0 <= sl_records l' <= sl_records l + 1 /\ 0 <= sl_bytes l' < LOGGER_MAX_BYTES + 120 * W /\
  (sl_sampling l' = true -> sl_bytes l' <= LOGGER_MAX_BYTES - 1 + W * (sl_records l' mod 120)) /\
  (sl_sampling l = true -> sl_sampling l' = false -> LOGGER_MAX_BYTES <= sl_bytes l').
Proof.
  intros HW Hw Hbig Hr Hb Hs. unfold logger_tick.
  destruct (sl_active l); cbn [negb]; [|split_and!; auto; try lia; congruence].
  destruct (sl_sampling l) eqn:Es; cbn [andb negb]; [|split_and!; auto; try lia; congruence].
  destruct (sl_jsonl l); cbn [negb]; [|split_and!; auto; try lia; congruence].
  specialize (Hs eq_refl). set (r := sl_records l) in *. set (b := sl_bytes l) in *.
  assert (Hm : 0 <= r mod 120 < 120) by (apply Z.mod_pos_bound; lia).
  assert (Hm' : (r + 1) mod 120 = if r mod 120 =? 119 then 0 else r mod 120 + 1).
  { destruct (r mod 120 =? 119) eqn:E;
      [symmetry; apply (Z.mod_unique_pos _ _ (r / 120 + 1))
      |symmetry; apply (Z.mod_unique_pos _ _ (r / 120))];
      pose proof (Z.div_mod r 120 ltac:(lia)); lia. }
  assert (HWm : W * (r mod 120) <= W * 119) by (apply Z.mul_le_mono_nonneg_l; lia).
  set (l1 := if w >? 0 then l <| sl_bytes := u64 (b + w) |> else l).
  assert (Hb1 : 0 <= sl_bytes l1 <= b + W /\ (sl_bytes l1 <= LOGGER_MAX_BYTES - 1 + W * (r mod 120) + W)
    /\ sl_records l1 = r /\ sl_sampling l1 = true).
  { subst l1. destruct (w >? 0) eqn:Ew; cbn; [rewrite u64_small by lia|]; split_and!; try done; lia. }
  destruct Hb1 as (Hb1 & Hb2 & Hr1 & Hs1). clearbody l1. rewrite Hr1.
  rewrite (u64_small (r + 1)) by lia.
  assert (Hoff : forall x, sl_records (x <| sl_sampling := false |>) = sl_records x /\
    sl_bytes (x <| sl_sampling := false |>) = sl_bytes x /\
    sl_sampling (x <| sl_sampling := false |>) = false) by done.
  remember (l1 <| sl_records := r + 1 |>) as l2 eqn:E2.
  assert (Hr2 : sl_records l2 = r + 1) by (by subst).
  assert (Hbytes : sl_bytes l2 = sl_bytes l1) by (by subst).
  assert (Hs2 : sl_sampling l2 = true) by (by subst). clear E2. rewrite Hr2, Hm'.
  destruct (Hoff l2) as (E1 & E2 & E3).
  destruct (r mod 120 =? 119) eqn:E119; cbn [Z.eqb andb].
  - destruct (LOGGER_MAX_BYTES <=? sl_bytes l2) eqn:El;
      rewrite ?E1, ?E2, ?E3, ?Hr2, ?Hs2, ?Hm'; split_and!; try lia; congruence.
  - replace (r mod 120 + 1 =? 0) with false by lia. cbn [andb]. rewrite Hr2, Hs2, Hm'.
    split_and!; try lia; congruence.
Qed.

(** However long a session runs, what it samples stays under the cap and two minutes of
    samples more; sampling is switched off for no other reason than the cap. *)
Theorem samples_capped W l ss :
  sl_records l = 0 -> sl_bytes l = 0 -> sl_sampling l = true ->
  0 <= W -> LOGGER_MAX_BYTES + 120 * W < 2 ^ 64 -> Z.of_nat (length ss) < 2 ^ 64 ->
  Forall (fun s => forall w, s = Some w -> w <= W) ss ->
  0 <= sl_bytes (ticks l ss) < LOGGER_MAX_BYTES + 120 * W /\
  (sl_sampling (ticks l ss) = false -> LOGGER_MAX_BYTES <= sl_bytes (ticks l ss)).
Proof.
  intros Hr Hb Hs HW Hbig Hlen Hss.
  assert (K : forall ss l n, Forall (fun s => forall w, s = Some w -> w <= W) ss ->
    n + Z.of_nat (length ss) < 2 ^ 64 -> 0 <= sl_records l <= n ->
    0 <= sl_bytes l < LOGGER_MAX_BYTES + 120 * W ->
    (if sl_sampling l then sl_bytes l <= LOGGER_MAX_BYTES - 1 + W * (sl_records l mod 120)
     else LOGGER_MAX_BYTES <= sl_bytes l) ->
    0 <= sl_bytes (ticks l ss) < LOGGER_MAX_BYTES + 120 * W /\
    (sl_sampling (ticks l ss) = false -> LOGGER_MAX_BYTES <= sl_bytes (ticks l ss))).
  { clear l Hr Hb Hs ss Hlen Hss. intros ss. induction ss as [|s ss IH]; intros l n Hss Hn Hr Hb Hi.
    - cbn. split; [done|]. by destruct (sl_sampling l).
    - inversion_clear Hss as [|? ? Hw Hss']. cbn [ticks fold_left length] in *.
      fold (ticks (logger_tick s l) ss). destruct s as [w|].
      + destruct (tick_step w W l) as (Hr' & Hb' & Hi' & Ho'); 
          [done|by apply Hw|done|lia|done|intros Hs; by rewrite Hs in Hi|].
        apply (IH _ (n + 1)); [done|lia..|]. destruct (sl_sampling l) eqn:Es.
        * destruct (sl_sampling (logger_tick (Some w) l)) eqn:Es'; auto.
        * assert (E : logger_tick (Some w) l = l)
            by (unfold logger_tick; rewrite Es; by destruct (sl_active l)).
          by rewrite E, Es.
      + assert (E : logger_tick None l = l)
          by (unfold logger_tick; destruct (sl_active l), (sl_sampling l), (sl_jsonl l); done).
        rewrite E. apply (IH l n); [done|lia|done..]. }
  assert (EM : LOGGER_MAX_BYTES = 104857600) by reflexivity.
  apply (K ss l 0); auto; try lia. rewrite Hs, Hr, Hb, EM. change (0 mod 120) with 0. lia.
Qed.
End Logger.

(** ** At concrete inputs *)

Definition demo_mounts : string :=
  ("/dev/root / squashfs ro 0 0" ++ str1 LF ++ "/dev/mmcblk0p1 /mnt/mmcblk0p1 vfat rw 0 0" ++ str1 LF)%string.

Definition demo_dir (name : string) : string * Node := (name, NDir [("lc.log", NFile "x")])%string.

(** Eleven sessions, one of them of an old logger. *)
Definition demo_disk : Disk := Build_Disk (Some demo_mounts) false
  (Some (NDir ((".seq", NFile "000041")%string :: demo_dir "20250101_1200" ::
    map (fun n => demo_dir (session_name n "20250101_120000" 7)) (seqZ 30 10)))) 0.

#[local] Instance demo_kernel : SdEnv := { sd_accepts _ _ _ := true }.
#[local] Instance demo_abi : CAbi := abi_armv7.


Definition demo_session : SdLogger :=
  sd_logger_init <| sl_active := true |> <| sl_jsonl := true |> <| sl_sampling := true |>.

Lemma samples_capped_witness :
  let l := ticks demo_session (replicate 130 (Some 1000000)) in
  sl_bytes l < LOGGER_MAX_BYTES + 120 * 1000000 /\ sl_sampling l = false.
Proof.
  destruct (samples_capped 1000000 demo_session (replicate 130 (Some 1000000))) as [[_ H] _].
  - reflexivity.
  - reflexivity.
  - reflexivity.
  - lia.
  - vm_compute. reflexivity.
  - vm_compute. reflexivity.
  - apply Forall_replicate. intros w [= <-]. lia.
  - cbv zeta. split; [exact H|]. vm_compute. reflexivity.
Defined.
