(* ===== verification/Tunables.v ===== *)
(** * The HTTP settings interface

    The registry of live-mutable parameters of [vehicle/link_controller.c] ([TUNABLES]),
    the strict parsers, [tunable_write], the query string of [/set] ([apply_query]), and
    the small text routines of the HTTP and command-line front ends: [json_escape],
    [qparam_long], [parse_hostport], [request_wants_html]. *)

From S2P Require Import Prelude CFloat Config CString Strtod Io Net Fec.

(** ** Strict parsers *)

Definition is_trail (a : ascii) : bool := aeq a SP || aeq a TAB || aeq a CR || aeq a LF.
Definition only_trail (s : string) : bool :=
  match skip_while is_trail s with EmptyString => true | _ => false end.

Definition parse_strict_double (s : string) : option fp :=
  '(v, e) ← strtod s;
  if negb (only_trail e) then None else if is_finite v then Some v else None.

Definition strcasecmp_eq (s t : string) : bool :=
  String.eqb (string_of_list_ascii (map lower (list_ascii_of_string s))) t.

Definition parse_strict_bool (s : string) : option bool :=
  let same := strcasecmp_eq s in
  if same "1" || same "true" || same "yes" || same "on" then Some true
  else if same "0" || same "false" || same "no" || same "off" then Some false
  else None.

(** ** The registry *)

Inductive Subsys := SUB_COMMON | SUB_FEC | SUB_MCS.

(** [offset] of a row: how to read and write the field. *)
Record Lens (A : Type) := Build_Lens { l_get : Config -> A; l_set : A -> Config -> Config }.
Arguments Build_Lens {A}.
Arguments l_get {A}.
Arguments l_set {A}.

(** [type] and [offset] together. *)
Inductive Slot :=
  | SInt (l : Lens Z)
  | SLong (l : Lens Z)
  | SFloat (l : Lens fp)
  | SBool (l : Lens bool).

Record TunableDesc := Build_TunableDesc {
  td_name : string; td_subsys : Subsys; td_slot : Slot; td_lo : fp; td_hi : fp; td_pub : bool
}.

Definition top {A} (p : Config -> A) `{!Setter p} : Lens A := Build_Lens p (set_field p).
Definition of_fec {A} (p : FecCfg -> A) `{!Setter p} : Lens A :=
  Build_Lens (fun c => p (cfg_fec c)) (fun v c => c <| cfg_fec := ((cfg_fec c) <| p := v |>) |>).
Definition of_mcs {A} (p : McsCfg -> A) `{!Setter p} : Lens A :=
  Build_Lens (fun c => p (cfg_mcs c)) (fun v c => c <| cfg_mcs := ((cfg_mcs c) <| p := v |>) |>).
Definition of_cmd {A} (p : CmdCfg -> A) `{!Setter p} : Lens A :=
  Build_Lens (fun c => p (cfg_cmd c)) (fun v c => c <| cfg_cmd := ((cfg_cmd c) <| p := v |>) |>).

Section Rows.
Let z := F64.of_Z.
Let q := F64.lit.

Definition TUNABLES : list TunableDesc := [
  Build_TunableDesc "common.api_port" SUB_COMMON (SInt (top api_port)) (z 0) (z 65535) false;
  Build_TunableDesc "common.dry_run" SUB_COMMON (SBool (top dry_run)) (z 0) (z 0) false;
  Build_TunableDesc "common.verbose" SUB_COMMON (SInt (top verbose)) (z 0) (z 4) false;
  Build_TunableDesc "fec.enabled" SUB_FEC (SBool (of_fec fec_enabled)) (z 0) (z 0) true;
  Build_TunableDesc "fec.mtu" SUB_FEC (SInt (of_fec fec_mtu)) (z 100) (z 65000) false;
  Build_TunableDesc "fec.min_k" SUB_FEC (SInt (of_fec fec_min_k)) (z 1) (z 256) false;
  Build_TunableDesc "fec.max_k" SUB_FEC (SInt (of_fec fec_max_k)) (z 1) (z 256) false;
  Build_TunableDesc "fec.min_n" SUB_FEC (SInt (of_fec fec_min_n)) (z 1) (z 256) false;
  Build_TunableDesc "fec.max_n" SUB_FEC (SInt (of_fec fec_max_n)) (z 1) (z 256) false;
  Build_TunableDesc "fec.ewma_alpha" SUB_FEC (SFloat (of_fec fec_ewma_alpha)) (q 1 1000) (z 1) false;
  Build_TunableDesc "fec.headroom_min" SUB_FEC (SFloat (of_fec fec_headroom_min)) (z 1) (z 4) false;
  Build_TunableDesc "fec.headroom_max" SUB_FEC (SFloat (of_fec fec_headroom_max)) (z 1) (z 4) false;
  Build_TunableDesc "fec.headroom_margin" SUB_FEC (SFloat (of_fec fec_headroom_margin)) (z 1) (z 4) false;
  Build_TunableDesc "fec.headroom_window_s" SUB_FEC (SFloat (of_fec fec_headroom_window_s)) (q 1 10) (z 60) false;
  Build_TunableDesc "fec.ppf_deadband_frac" SUB_FEC (SFloat (of_fec fec_ppf_deadband_frac)) (z 0) (z 1) false;
  Build_TunableDesc "fec.k_hyst_up" SUB_FEC (SInt (of_fec fec_k_hyst_up)) (z 1) (z 64) false;
  Build_TunableDesc "fec.cooldown_up_s" SUB_FEC (SFloat (of_fec fec_cooldown_up_s)) (z 0) (z 60) false;
  Build_TunableDesc "fec.k_down_dwell_s" SUB_FEC (SFloat (of_fec fec_k_down_dwell_s)) (z 0) (z 600) false;
  Build_TunableDesc "fec.k_up_dwell_s" SUB_FEC (SFloat (of_fec fec_k_up_dwell_s)) (z 0) (z 600) false;
  Build_TunableDesc "fec.startup_grace_s" SUB_FEC (SFloat (of_fec fec_startup_grace_s)) (z 0) (z 60) false;
  Build_TunableDesc "fec.safety_margin" SUB_FEC (SFloat (of_fec fec_safety_margin)) (q 5 100) (z 1) true;
  Build_TunableDesc "fec.bitrate_min_kbps" SUB_FEC (SLong (of_fec fec_bitrate_min_kbps)) (z 100) (z 200000) true;
  Build_TunableDesc "fec.bitrate_max_kbps" SUB_FEC (SLong (of_fec fec_bitrate_max_kbps)) (z 0) (z 200000) true;
  Build_TunableDesc "fec.bitrate_tolerance" SUB_FEC (SFloat (of_fec fec_bitrate_tolerance)) (z 0) (z 1) false;
  Build_TunableDesc "fec.bitrate_grace_s" SUB_FEC (SFloat (of_fec fec_bitrate_grace_s)) (z 0) (z 60) false;
  Build_TunableDesc "fec.mcs_settle_s" SUB_FEC (SFloat (of_fec fec_mcs_settle_s)) (z 0) (z 60) false;
  Build_TunableDesc "fec.bitrate_lead_s" SUB_FEC (SFloat (of_fec fec_bitrate_lead_s)) (z 0) (z 5) false;
  Build_TunableDesc "fec.mcs_up_grace_s" SUB_FEC (SFloat (of_fec fec_mcs_up_grace_s)) (z 0) (z 5) false;
  Build_TunableDesc "fec.payload_max" SUB_FEC (SInt (of_fec fec_payload_max)) (z 0) (z 4000) true;
  Build_TunableDesc "fec.payload_min" SUB_FEC (SInt (of_fec fec_payload_min)) (z 576) (z 4000) true;
  Build_TunableDesc "fec.airtime_max_pct" SUB_FEC (SInt (of_fec fec_airtime_max_pct)) (z 0) (z 100) true;
  Build_TunableDesc "fec.airtime_preamble_us" SUB_FEC (SInt (of_fec fec_airtime_preamble_us)) (z 0) (z 200) false;
  Build_TunableDesc "fec.skip_on_backpressure" SUB_FEC (SBool (of_fec fec_skip_on_backpressure)) (z 0) (z 0) false;
  Build_TunableDesc "fec.backpressure_fill_pct" SUB_FEC (SInt (of_fec fec_backpressure_fill_pct)) (z 0) (z 100) false;
  Build_TunableDesc "fec.desync_probe" SUB_FEC (SBool (of_fec fec_desync_probe)) (z 0) (z 0) false;
  Build_TunableDesc "fec.blocksize_feedforward" SUB_FEC (SBool (of_fec fec_blocksize_feedforward)) (z 0) (z 0) false;
  Build_TunableDesc "fec.ff_cooldown_s" SUB_FEC (SFloat (of_fec fec_ff_cooldown_s)) (z 0) (z 10) false;
  Build_TunableDesc "fec.backpressure_recover_s" SUB_FEC (SFloat (of_fec fec_backpressure_recover_s)) (z 0) (z 30) false;
  Build_TunableDesc "mcs.enabled" SUB_MCS (SBool (of_mcs mcs_enabled)) (z 0) (z 0) true;
  Build_TunableDesc "mcs.rssi_ewma_alpha" SUB_MCS (SFloat (of_mcs mcs_rssi_ewma_alpha)) (q 1 1000) (z 1) false;
  Build_TunableDesc "mcs.loss_ewma_alpha" SUB_MCS (SFloat (of_mcs mcs_loss_ewma_alpha)) (q 1 1000) (z 1) false;
  Build_TunableDesc "mcs.rssi_aggregator" SUB_MCS (SInt (of_mcs mcs_rssi_aggregator)) (z 0) (z 2) false;
  Build_TunableDesc "mcs.down_cooldown_s" SUB_MCS (SFloat (of_mcs mcs_down_cooldown_s)) (z 0) (z 60) false;
  Build_TunableDesc "mcs.failsafe_timeout_s" SUB_MCS (SFloat (of_mcs mcs_failsafe_timeout_s)) (q 5 100) (z 30) true;
  Build_TunableDesc "mcs.oscillation_window_s" SUB_MCS (SFloat (of_mcs mcs_oscillation_window_s)) (q 5 10) (z 60) false;
  Build_TunableDesc "mcs.mcs_min" SUB_MCS (SInt (of_mcs mcs_min)) (z 0) (z 11) true;
  Build_TunableDesc "mcs.mcs_max" SUB_MCS (SInt (of_mcs mcs_max)) (z 0) (z 11) true;
  Build_TunableDesc "mcs.rssi_floor_dbm" SUB_MCS (SFloat (of_mcs mcs_rssi_floor_dbm)) (z (-120)) (z 0) true;
  Build_TunableDesc "mcs.rssi_fade_db_per_s" SUB_MCS (SFloat (of_mcs mcs_rssi_fade_db_per_s)) (z 0) (z 60) true;
  Build_TunableDesc "mcs.rssi_fade_arm_dbm" SUB_MCS (SFloat (of_mcs mcs_rssi_fade_arm_dbm)) (z (-120)) (z 0) true;
  Build_TunableDesc "mcs.rssi_floor_hyst_db" SUB_MCS (SFloat (of_mcs mcs_rssi_floor_hyst_db)) (z 0) (z 20) true;
  Build_TunableDesc "mcs.pressure_demote_block" SUB_MCS (SBool (of_mcs mcs_pressure_demote_block)) (z 0) (z 0) true;
  Build_TunableDesc "mcs.pressure_escape_s" SUB_MCS (SFloat (of_mcs mcs_pressure_escape_s)) (z 0) (z 30) true;
  Build_TunableDesc "mcs.reentry_backoff_s" SUB_MCS (SFloat (of_mcs mcs_reentry_backoff_s)) (z 0) (z 120) false;
  Build_TunableDesc "mcs.reentry_dwell_s" SUB_MCS (SFloat (of_mcs mcs_reentry_dwell_s)) (z 0) (z 30) false;
  Build_TunableDesc "mcs.flap_freeze_count" SUB_MCS (SInt (of_mcs mcs_flap_freeze_count)) (z 0) (z 50) true;
  Build_TunableDesc "mcs.flap_freeze_window_s" SUB_MCS (SFloat (of_mcs mcs_flap_freeze_window_s)) (q 5 10) (z 30) true;
  Build_TunableDesc "mcs.flap_freeze_s" SUB_MCS (SFloat (of_mcs mcs_flap_freeze_s)) (z 0) (z 120) true;
  Build_TunableDesc "mcs.probe_clean_milli" SUB_MCS (SInt (of_mcs mcs_probe_clean_milli)) (z 0) (z 1000) false;
  Build_TunableDesc "mcs.probe_fail_milli" SUB_MCS (SInt (of_mcs mcs_probe_fail_milli)) (z 0) (z 1000) false;
  Build_TunableDesc "mcs.demote_per_milli" SUB_MCS (SInt (of_mcs mcs_demote_per_milli)) (z 0) (z 1000) false;
  Build_TunableDesc "mcs.promote_dwell_s" SUB_MCS (SFloat (of_mcs mcs_promote_dwell_s)) (z 0) (z 60) false;
  Build_TunableDesc "mcs.probe_window_s" SUB_MCS (SFloat (of_mcs mcs_probe_window_s)) (q 5 100) (z 10) false;
  Build_TunableDesc "mcs.probe_stale_age_s" SUB_MCS (SFloat (of_mcs mcs_probe_stale_age_s)) (q 1 10) (z 30) false;
  Build_TunableDesc "mcs.probe_feed_pps" SUB_MCS (SInt (of_mcs mcs_probe_feed_pps)) (z 1) (z 200) false;
  Build_TunableDesc "mcs.probe_feed_bytes" SUB_MCS (SInt (of_mcs mcs_probe_feed_bytes)) (z 64) (z 1472) false;
  Build_TunableDesc "cmd.enabled" SUB_COMMON (SBool (of_cmd cmd_enabled)) (z 0) (z 0) false;
  Build_TunableDesc "cmd.loopback_only" SUB_COMMON (SBool (of_cmd cmd_loopback_only)) (z 0) (z 0) false;
  Build_TunableDesc "cmd.rate_limit_ms" SUB_COMMON (SInt (of_cmd cmd_rate_limit_ms)) (z 0) (z 60000) false;
  Build_TunableDesc "cmd.allow_keys_mask" SUB_COMMON (SInt (of_cmd cmd_allow_keys_mask)) (z 0) (z 1048575) false;
  Build_TunableDesc "cmd.bitrate_min_kbps" SUB_COMMON (SInt (of_cmd cmd_bitrate_min_kbps)) (z 1) (z 200000) false;
  Build_TunableDesc "cmd.bitrate_max_kbps" SUB_COMMON (SInt (of_cmd cmd_bitrate_max_kbps)) (z 1) (z 200000) false;
  Build_TunableDesc "cmd.fps_min" SUB_COMMON (SInt (of_cmd cmd_fps_min)) (z 1) (z 240) false;
  Build_TunableDesc "cmd.fps_max" SUB_COMMON (SInt (of_cmd cmd_fps_max)) (z 1) (z 240) false;
  Build_TunableDesc "cmd.payload_min" SUB_COMMON (SInt (of_cmd cmd_payload_min)) (z 256) (z 4000) false;
  Build_TunableDesc "cmd.payload_max" SUB_COMMON (SInt (of_cmd cmd_payload_max)) (z 256) (z 4000) false;
  Build_TunableDesc "cmd.wfb_fec_k_min" SUB_COMMON (SInt (of_cmd cmd_wfb_fec_k_min)) (z 1) (z 256) false;
  Build_TunableDesc "cmd.wfb_fec_k_max" SUB_COMMON (SInt (of_cmd cmd_wfb_fec_k_max)) (z 1) (z 256) false;
  Build_TunableDesc "cmd.wfb_fec_n_min" SUB_COMMON (SInt (of_cmd cmd_wfb_fec_n_min)) (z 1) (z 256) false;
  Build_TunableDesc "cmd.wfb_fec_n_max" SUB_COMMON (SInt (of_cmd cmd_wfb_fec_n_max)) (z 1) (z 256) false;
  Build_TunableDesc "cmd.wfb_mcs_min" SUB_COMMON (SInt (of_cmd cmd_wfb_mcs_min)) (z 0) (z 31) false;
  Build_TunableDesc "cmd.wfb_mcs_max" SUB_COMMON (SInt (of_cmd cmd_wfb_mcs_max)) (z 0) (z 31) false;
  Build_TunableDesc "cmd.wfb_bandwidth_min" SUB_COMMON (SInt (of_cmd cmd_wfb_bandwidth_min)) (z 5) (z 80) false;
  Build_TunableDesc "cmd.wfb_bandwidth_max" SUB_COMMON (SInt (of_cmd cmd_wfb_bandwidth_max)) (z 5) (z 80) false;
  Build_TunableDesc "cmd.wfb_txpower_min" SUB_COMMON (SInt (of_cmd cmd_wfb_txpower_min)) (z 1) (z 4000) false;
  Build_TunableDesc "cmd.wfb_txpower_max" SUB_COMMON (SInt (of_cmd cmd_wfb_txpower_max)) (z 1) (z 4000) false;
  Build_TunableDesc "cmd.tx_pwr_by_rate" SUB_COMMON (SBool (of_cmd cmd_tx_pwr_by_rate)) (z 0) (z 0) false
].
End Rows.

Definition tunable_find (name : string) : option TunableDesc :=
  List.find (fun t => String.eqb (td_name t) name) TUNABLES.

(** ** Reading and writing *)

Definition tunable_read (t : TunableDesc) (c : Config) : fp :=
  match td_slot t with
  | SInt l | SLong l => F64.of_Z (l_get l c)
  | SFloat l => to_f64 (l_get l c)
  | SBool l => F64.of_Z (if l_get l c then 1 else 0)
  end.

(** [t->lo != t->hi && (v < t->lo || v > t->hi)]. *)
Definition outside (t : TunableDesc) (v : fp) : bool :=
  negb (SFeqb (td_lo t) (td_hi t)) && (flt v (td_lo t) || flt (td_hi t) v).

Section Write.
Context {ABI : CAbi}.

Definition parse_strict_long (s : string) : option Z :=
  '(v, e) ← strtol s;
  if only_trail e then Some v else None.

(** [None] is the return value -1. *)
Definition tunable_write (t : TunableDesc) (c : Config) (val : string) : option Config :=
  match td_slot t with
  | SInt l =>
      v ← parse_strict_long val;
      if outside t (F64.of_Z v) then None
      else if (v <? INT_MIN) || (v >? INT_MAX) then None
      else Some (l_set l v c)
  | SLong l =>
      v ← parse_strict_long val;
      if outside t (F64.of_Z v) then None else Some (l_set l v c)
  | SFloat l =>
      v ← parse_strict_double val;
      if outside t v then None else Some (l_set l (to_f32 v) c)
  | SBool l =>
      b ← parse_strict_bool val;
      Some (l_set l b c)
  end.

(** ** The query string of [/set] *)

Inductive Reason := Unknown | NoValue | OutOfRange.

Record SetResult := Build_SetResult {
  sr_cfg : Config; sr_applied : list string; sr_errors : list (string * Reason)
}.

Definition max_keys : nat := 64.
Definition EQUALS : ascii := ch 61.

Definition push {A} (l : list A) (x : A) : list A :=
  if (length l <? max_keys)%nat then (l ++ [x])%list else l.

Definition set_error (r : SetResult) (key : string) (why : Reason) : SetResult :=
  Build_SetResult (sr_cfg r) (sr_applied r) (push (sr_errors r) (key, why)).

(** One [key=value] item. *)
Definition apply_item (r : SetResult) (item : string) : SetResult :=
  let '(key, eq_val) := span_until (fun a => aeq a EQUALS) item in
  match tunable_find key with
  | None => set_error r key Unknown
  | Some t =>
      match eq_val with
      | EmptyString | String _ EmptyString => set_error r key NoValue
      | String _ val =>
          match tunable_write t (sr_cfg r) val with
          | None => set_error r key OutOfRange
          | Some c => Build_SetResult c (push (sr_applied r) key) (sr_errors r)
          end
      end
  end.

Fixpoint apply_items (fuel : nat) (r : SetResult) (q : string) : SetResult :=
  match fuel, q with
  | S fuel, String _ _ =>
      let '(item, rest) := span_until (fun a => aeq a AMP) q in
      let r := apply_item r item in
      match rest with
      | EmptyString => r
      | String _ q => apply_items fuel r q
      end
  | _, _ => r
  end.

(** Every turn consumes a character. *)
Definition apply_query (cfg : Config) (q : string) : SetResult :=
  apply_items (S (String.length q)) (Build_SetResult cfg [] []) q.

(** ** Small parsers *)

(** The value of [name] in a query string, at the first place where it starts a key. *)
Fixpoint qparam_from (fuel : nat) (bound : bool) (s name : string) : option Z :=
  match fuel with
  | O => None
  | S fuel =>
      if starts_with name s then
        let after := drop_chars (String.length name) s in
        let last_amp := match last (list_ascii_of_string name) with
                        | Some a => aeq a AMP | None => false end in
        match after with
        | String a v =>
            if bound && aeq a EQUALS then fst <$> strtol v
            else qparam_from fuel last_amp after name
        | EmptyString => None
        end
      else match s with
           | String a s => qparam_from fuel (aeq a AMP) s name
           | EmptyString => None
           end
  end.

Definition qparam_long (qs name : string) : option Z :=
  qparam_from (S (String.length qs)) true qs name.

Definition parse_hostport (s : string) (host_sz : nat) : option (string * Z) :=
  '(host, port) ← split_last COLON s;
  if (host_sz <=? String.length host)%nat then None
  else
    let p := i32 (default 0 (fst <$> strtol port)) in
    if (p <=? 0) || (p >? 65535) then None else Some (host, p).
End Write.

Definition request_wants_html (req : string) : bool :=
  let headers := match strchr req LF with Some s => drop_chars 1 s | None => req end in
  contains headers "Accept: text/html" || contains headers "accept: text/html".

(** ** [json_escape] *)

Definition BACKSLASH : ascii := ch 92.

Definition hex_digit (n : Z) : ascii := ch (if n <? 10 then 48 + n else 87 + n).

(** [\u%04x] of a byte below 32. *)
Definition u_escape (c : Z) : string :=
  String BACKSLASH (String (ch 117) (String (ch 48) (String (ch 48)
    (String (hex_digit (Z.shiftr c 4)) (str1 (hex_digit (Z.land c 15))))))).

Definition escape_char (a : ascii) : string :=
  if aeq a DQ || aeq a BACKSLASH then String BACKSLASH (str1 a)
  else if aeq a LF then String BACKSLASH (str1 (ch 110))
  else if aeq a CR then String BACKSLASH (str1 (ch 114))
  else if aeq a TAB then String BACKSLASH (str1 (ch 116))
  else if code a <? 32 then u_escape (code a)
  else str1 a.

(** What is written at position [pos] of a buffer of [cap] bytes; [None] is -1. *)
Fixpoint escape_from (cap pos : nat) (s : string) : option string :=
  match s with
  | EmptyString => Some EmptyString
  | String a s =>
      if (cap - 8 <=? pos)%nat then None
      else
        let e := escape_char a in
        rest ← escape_from cap (pos + String.length e) s;
        Some (e +:+ rest)
  end.

Definition json_escape (cap pos : nat) (s : string) : option string :=
  if (cap <? 8)%nat then None else escape_from cap pos s.

(** ** The registry as a table of values *)

Inductive Value := VInt (v : Z) | VLong (v : Z) | VFloat (v : fp) | VBool (v : bool).

Definition slot_value (s : Slot) (c : Config) : Value :=
  match s with
  | SInt l => VInt (l_get l c)
  | SLong l => VLong (l_get l c)
  | SFloat l => VFloat (l_get l c)
  | SBool l => VBool (l_get l c)
  end.

Definition values (c : Config) : list Value := map (fun t => slot_value (td_slot t) c) TUNABLES.

(** Writing a row changes its value and no other row's. *)
Definition frames (i : nat) (s : Slot) : Prop :=
  match s with
  | SInt l => forall v c, values (l_set l v c) = <[i := VInt v]> (values c)
  | SLong l => forall v c, values (l_set l v c) = <[i := VLong v]> (values c)
  | SFloat l => forall v c, values (l_set l v c) = <[i := VFloat v]> (values c)
  | SBool l => forall v c, values (l_set l v c) = <[i := VBool v]> (values c)
  end.

Fixpoint rows_frame (i : nat) (ts : list TunableDesc) : Prop :=
  match ts with
  | [] => True
  | t :: ts => frames i (td_slot t) /\ rows_frame (S i) ts
  end.

Lemma all_rows_frame : rows_frame 0 TUNABLES.
Proof. unfold TUNABLES. cbn [rows_frame]. repeat split; intros v c; reflexivity. Qed.

Lemma rows_frame_lookup i ts j t :
  rows_frame i ts -> ts !! j = Some t -> frames (i + j) (td_slot t).
Proof.
  revert i j. induction ts as [|u ts IH]; intros i j; [done|]. intros [H Hs].
  destruct j as [|j]; cbn.
  - intros [= <-]. by rewrite Nat.add_0_r.
  - intros Hj. rewrite Nat.add_succ_r. exact (IH (S i) j Hs Hj).
Qed.

Lemma tunable_find_row name t :
  tunable_find name = Some t -> exists i, TUNABLES !! i = Some t /\ td_name t = name.
Proof.
  intros H. apply List.find_some in H as [H1 H2]. apply String.eqb_eq in H2.
  apply list_elem_of_In, list_elem_of_lookup in H1 as [i Hi]. by exists i.
Qed.

(** A value the registry allows: its type's, inside the row's bounds (equal bounds mean
    none); a [float] is the rounding of a finite number inside them. *)
Definition in_range (t : TunableDesc) (v : Value) : Prop :=
  match v with
  | VInt x => INT_MIN <= x <= INT_MAX /\ outside t (F64.of_Z x) = false
  | VLong x => outside t (F64.of_Z x) = false
  | VFloat f => exists x, f = to_f32 x /\ is_finite x = true /\ outside t x = false
  | VBool _ => True
  end.

(** What [/set] cannot reach: the fields without a row in the registry ([values_and_rest]):
    the addresses of the peers, the channel-switch and recovery sections, the safe start, the
    interfaces and the key file. *)
Definition fixed_part (c : Config) :=
  let f := cfg_fec c in
  let m := cfg_mcs c in
  (cfg_csa c, cfg_recovery c, (wfb_host c, wfb_port c), (probe_host c, probe_port c),
   (probe_feed_host c, probe_feed_port c), (fec_sidecar_host f, fec_sidecar_port f),
   (fec_venc_host f, fec_venc_port f), (mcs_stats_host m, mcs_stats_port m),
   (fec_safe_startup_enabled f, fec_safe_startup_bitrate_kbps f, fec_safe_startup_payload f),
   (fec_subscribe_s f, fec_radio_poll_s f, fec_wfb_stats_port f),
   uplink_stats_port c, iface_mtu c, cmd_wfb_iface (cfg_cmd c), key_file c).

(** Every field of the configuration is in a row or in that part. *)
Lemma values_and_rest c c' : values c = values c' -> fixed_part c = fixed_part c' -> c = c'.
Proof.
  destruct c as [[] [] [] [] []], c' as [[] [] [] [] []]. unfold values, TUNABLES.
  cbn. intros Hv Hf. injection Hf. injection Hv. clear. intros. by subst.
Qed.

Fixpoint rows_fixed (ts : list TunableDesc) : Prop :=
  match ts with
  | [] => True
  | t :: ts =>
      match td_slot t with
      | SInt l | SLong l => forall v c, fixed_part (l_set l v c) = fixed_part c
      | SFloat l => forall v c, fixed_part (l_set l v c) = fixed_part c
      | SBool l => forall v c, fixed_part (l_set l v c) = fixed_part c
      end /\ rows_fixed ts
  end.

Lemma all_rows_fixed : rows_fixed TUNABLES.
Proof. unfold TUNABLES. cbn [rows_fixed td_slot]. repeat split. Qed.

Lemma rows_fixed_lookup ts i t : rows_fixed ts -> ts !! i = Some t ->
  match td_slot t with
  | SInt l | SLong l => forall v c, fixed_part (l_set l v c) = fixed_part c
  | SFloat l => forall v c, fixed_part (l_set l v c) = fixed_part c
  | SBool l => forall v c, fixed_part (l_set l v c) = fixed_part c
  end.
Proof.
  revert i. induction ts as [|u ts IH]; intros i; [done|]. intros [H Hs].
  destruct i as [|i]; cbn; [by intros [= <-]|]. by apply IH.
Qed.

Section SetFacts.
Context {ABI : CAbi}.

Lemma parse_strict_double_finite s v : parse_strict_double s = Some v -> is_finite v = true.
Proof.
  unfold parse_strict_double. destruct (strtod s) as [[x e]|]; [|done]. cbn.
  destruct (negb _); [done|]. destruct (is_finite x) eqn:E; [|done]. by intros [= <-].
Qed.

Lemma write_value i t c val c' :
  TUNABLES !! i = Some t -> tunable_write t c val = Some c' ->
  exists v, values c' = <[i := v]> (values c) /\ in_range t v /\ fixed_part c' = fixed_part c.
Proof.
  intros Hi. pose proof (rows_frame_lookup 0 _ i t all_rows_frame Hi) as F.
  pose proof (rows_fixed_lookup _ i t all_rows_fixed Hi) as P. cbn in F.
  unfold tunable_write. destruct (td_slot t) as [l|l|l|l]; cbn [frames] in F.
  - destruct (parse_strict_long val) as [v|]; [|done]. cbn.
    destruct (outside _ _) eqn:E; [done|]. destruct (_ || _) eqn:E2; [done|]. intros [= <-].
    exists (VInt v). bool_hyps. split_and!; [apply F|cbn; split; [lia|done]|apply P].
  - destruct (parse_strict_long val) as [v|]; [|done]. cbn.
    destruct (outside _ _) eqn:E; [done|]. intros [= <-]. exists (VLong v).
    split_and!; [apply F|done|apply P].
  - destruct (parse_strict_double val) as [v|] eqn:Ev; [|done]. cbn.
    destruct (outside _ _) eqn:E; [done|]. intros [= <-]. exists (VFloat (to_f32 v)).
    apply parse_strict_double_finite in Ev. split_and!; [apply F|by exists v|apply P].
  - destruct (parse_strict_bool val) as [v|]; [|done]. cbn. intros [= <-].
    exists (VBool v). split_and!; [apply F|done|apply P].
Qed.

(** Row by row, the value is the old one or an allowed one. *)
Definition confined (c c' : Config) : Prop :=
  (forall i t v, TUNABLES !! i = Some t -> values c' !! i = Some v ->
     values c !! i = Some v \/ in_range t v) /\
  fixed_part c' = fixed_part c.

Lemma confined_refl c : confined c c.
Proof. split; auto. Qed.

Lemma confined_trans c1 c2 c3 : confined c1 c2 -> confined c2 c3 -> confined c1 c3.
Proof.
  intros [H1 E1] [H2 E2]. split; [|congruence]. intros i t v Hi Hv.
  destruct (H2 i t v Hi Hv); eauto.
Qed.

Lemma write_confined i t c val c' :
  TUNABLES !! i = Some t -> tunable_write t c val = Some c' -> confined c c'.
Proof.
  intros Hi Hw. destruct (write_value i t c val c' Hi Hw) as (v & E & Hv & P).
  split; [|done]. intros j u x Hj. rewrite E. intros [(-> & <- & _)|[_ ?]]%list_lookup_insert_Some.
  - rewrite Hi in Hj. injection Hj as <-. by right.
  - by left.
Qed.

Lemma item_confined r item : confined (sr_cfg r) (sr_cfg (apply_item r item)).
Proof.
  unfold apply_item. destruct (span_until _ item) as [key ev].
  destruct (tunable_find key) as [t|] eqn:Et; [|apply confined_refl].
  destruct ev as [|a [|b val]]; [apply confined_refl..|].
  destruct (tunable_write t (sr_cfg r) _) as [c|] eqn:Ew; [|apply confined_refl].
  apply tunable_find_row in Et as (i & Hi & _). by eapply write_confined.
Qed.

Lemma items_confined fuel r q : confined (sr_cfg r) (sr_cfg (apply_items fuel r q)).
Proof.
  revert r q. induction fuel as [|fuel IH]; intros r q; [apply confined_refl|].
  destruct q as [|a q]; [apply confined_refl|]. cbn [apply_items].
  destruct (span_until _ (String a q)) as [item rest].
  pose proof (item_confined r item) as H. destruct rest as [|b rest]; [done|].
  eapply confined_trans; [exact H|apply IH].
Qed.

(** (C36) Whatever query [/set] is given, every registered parameter ends up with its old
    value or one inside its declared bounds (never NaN or infinite), and nothing outside
    the registry changes: every address of a peer, the channel-switch and recovery sections,
    the safe start, the interfaces, their MTU, the uplink port and the key file are out of
    reach. *)
Theorem set_confined cfg q : confined cfg (sr_cfg (apply_query cfg q)).
Proof. apply (items_confined _ (Build_SetResult cfg [] [])). Qed.

(** Every turn of the query loop consumes its item and the separator. *)
Lemma items_fuel fuel1 fuel2 r q :
  (String.length q < fuel1)%nat -> (String.length q < fuel2)%nat ->
  apply_items fuel1 r q = apply_items fuel2 r q.
Proof.
  revert fuel2 r q. induction fuel1 as [|f1 IH]; intros [|f2] r q; try lia.
  intros H1 H2. destruct q as [|a q]; [done|]. cbn [apply_items].
  pose proof (span_until_length (fun a => aeq a AMP) (String a q)) as L.
  destruct (span_until _ (String a q)) as [item [|b rest]]; [done|]. cbn in L, H1, H2.
  apply IH; lia.
Qed.

(** The query loop ends by itself: its fuel, one more than the length of the query, is
    never what stops it. *)
Theorem apply_query_terminates cfg q fuel :
  (String.length q < fuel)%nat ->
  apply_items fuel (Build_SetResult cfg [] []) q = apply_query cfg q.
Proof. intros H. apply items_fuel; [done|lia]. Qed.
End SetFacts.

(** ** Escaping *)

(** The reader's side: the string a JSON text of this form stands for; raw quotes and
    control characters are not allowed in it. *)
Fixpoint json_unescape (s : string) : option string :=
  match s with
  | EmptyString => Some EmptyString
  | String a s1 =>
      if aeq a BACKSLASH then
        match s1 with
        | String b s2 =>
            if aeq b (ch 117) then
              match s2 with
              | String _ (String _ (String h (String l s3))) =>
                  x ← hex_val h; y ← hex_val l; String (ch (16 * x + y)) <$> json_unescape s3
              | _ => None
              end
            else if aeq b (ch 110) then String LF <$> json_unescape s2
            else if aeq b (ch 114) then String CR <$> json_unescape s2
            else if aeq b (ch 116) then String TAB <$> json_unescape s2
            else if aeq b DQ || aeq b BACKSLASH then String b <$> json_unescape s2
            else None
        | EmptyString => None
        end
      else if aeq a DQ || (code a <? 32) then None
      else String a <$> json_unescape s1
  end.

Lemma unescape_char a r : json_unescape (escape_char a +:+ r) = String a <$> json_unescape r.
Proof. destruct a as [[] [] [] [] [] [] [] []]; reflexivity. Qed.

Lemma escape_char_length a : (1 <= String.length (escape_char a) <= 6)%nat.
Proof. destruct a as [[] [] [] [] [] [] [] []]; vm_compute; lia. Qed.

Lemma escape_from_sound cap pos s e :
  escape_from cap pos s = Some e ->
  json_unescape e = Some s /\ (e = EmptyString \/ pos + String.length e + 2 < cap)%nat.
Proof.
  revert pos e. induction s as [|a s IH]; intros pos e; cbn [escape_from].
  { intros [= <-]. auto. }
  destruct (Nat.leb_spec (cap - 8) pos) as [Hp|Hp]; [done|].
  pose proof (escape_char_length a) as Ha.
  destruct (escape_from cap _ s) as [rest|] eqn:E; [|done]. cbn. intros [= <-].
  destruct (IH _ _ E) as [H1 H2]. split; [by rewrite unescape_char, H1|]. right.
  assert (String.length (escape_char a +:+ rest) =
    (String.length (escape_char a) + String.length rest)%nat) as ->
    by (generalize (escape_char a); intros x; induction x as [|b x IHx]; [done|];
        change (S (String.length (x +:+ rest)) = S (String.length x + String.length rest))%nat;
        by rewrite IHx).
  destruct H2 as [-> | H2]; cbn; lia.
Qed.

(** What [json_escape] writes is a JSON string body that reads back as exactly its input,
    and it fits the buffer with room for the terminator. *)
Theorem json_escape_sound cap pos s e :
  json_escape cap pos s = Some e ->
  json_unescape e = Some s /\ (e = EmptyString \/ pos + String.length e + 2 < cap)%nat.
Proof. unfold json_escape. destruct (_ <? _)%nat; [done|]. apply escape_from_sound. Qed.

(** ** Bounds that do not fit the wire *)

(** The registry lets the FEC windows reach 256, but the block's sizes travel as bytes:
    with windows that pass every check, a large frame is sized to 256 packets and the request
    on the wire says zero. *)
Theorem fec_block_wraps :
  let r := @apply_query abi_lp64 config_defaults "fec.max_k=256&fec.max_n=256" in
  let p := fec_compute (F32.of_Z 1000000) (F32.of_Z 1) (sr_cfg r) 0 in
  sr_applied r = ["fec.max_k"; "fec.max_n"] /\ sr_errors r = [] /\
  cfg_validate_warnings (sr_cfg r) = 0 /\ fp_k p = 255 /\ fp_n p = 256 /\
  w_trace (@wfb_send_set_fec peer_ok "127.0.0.1" 8000 (fp_k p) (fp_n p) world_init).2 =
    [EvCtl "127.0.0.1" 8000 1 (CtlSetFec 255 0 WFB_FEC_TIMEOUT_KEEP)].
Proof. vm_compute. auto 10. Qed.

(** ** Witnesses *)

Example set_sample :
  let r := @apply_query abi_armv7 config_defaults
    "mcs.mcs_max=7&fec.ewma_alpha=0.25&fec.mtu=99999&nope=1&mcs.enabled=off&fec.min_k" in
  mcs_max (cfg_mcs (sr_cfg r)) = 7 /\ mcs_enabled (cfg_mcs (sr_cfg r)) = false /\
  fec_ewma_alpha (cfg_fec (sr_cfg r)) = F32.lit 1 4 /\
  sr_errors r = [("fec.mtu", OutOfRange); ("nope", Unknown); ("fec.min_k", NoValue)].
Proof. vm_compute. auto. Qed.

Example strtod_samples :
  map (fun s => fst <$> strtod s) ["0.1"; "-1.5e2"; "0x1.8p1"; "1e400"; ".5x"; "e5"] =
  [Some (F64.lit 1 10); Some (F64.of_Z (-150)); Some (F64.of_Z 3); Some (S754_infinity false);
   Some (F64.lit 1 2); None].
Proof. vm_compute. reflexivity. Qed.

Lemma apply_query_terminates_witness :
  @apply_items abi_lp64 100 (Build_SetResult config_defaults [] []) "mcs.mcs_max=7" =
  @apply_query abi_lp64 config_defaults "mcs.mcs_max=7".
Proof. apply apply_query_terminates. vm_compute. lia. Defined.

Lemma json_escape_sound_witness :
  json_escape 64 10 (String DQ (String LF (str1 (ch 1)))) =
    Some (String BACKSLASH (String DQ (String BACKSLASH "n\u0001"))) /\
  json_unescape (String BACKSLASH (String DQ (String BACKSLASH "n\u0001"))) =
    Some (String DQ (String LF (str1 (ch 1)))).
Proof. split; [vm_compute; reflexivity|]. apply (json_escape_sound 64 10). vm_compute. reflexivity. Defined.
