(* ===== verification/RtpProbe.v ===== *)
(** * The timing probe

    [probes/rtp_timing_probe.c]: a host tool that subscribes to the encoder's sidecar,
    estimates the offset between the two clocks, and writes a line for every frame of the
    video stream with what the sidecar says of it.  A turn of its loop is a function of what
    the sockets and the clock gave; the texts it writes are events.  An [unsigned long] has
    the width of the target's. *)

From S2P Require Import Prelude CFloat CString Strtod Decimal NumText Net Tunables.
From stdpp Require Import sorting.

Local Open Scope list_scope.
Local Open Scope Z_scope.
#[local] Arguments String.append !_ _ /.

(** ** Wire formats *)

Definition RTP_SIDECAR_MAGIC : Z := 0x52545053.
Definition RTP_SIDECAR_VERSION : Z := 1.
Definition RTP_SIDECAR_MSG_SUBSCRIBE : Z := 1.
Definition RTP_SIDECAR_MSG_FRAME : Z := 2.
Definition RTP_SIDECAR_MSG_SYNC_REQ : Z := 3.
Definition RTP_SIDECAR_MSG_SYNC_RESP : Z := 4.
Definition RTP_SIDECAR_SUB_TTL_US : Z := 5 * 1000000.
Definition RtpSidecarFrame_size : Z := 52.
Definition RtpSidecarFrameExt_size : Z := 64.
Definition RtpSidecarSyncReq_size : Z := 16.
Definition RtpSidecarSyncResp_size : Z := 32.
Definition RtpSidecarSubscribe_size : Z := 8.

Definition SUBSCRIBE_INTERVAL_US : Z := 2 * 1000000.
Definition SYNC_BURST_INTERVAL_US : Z := 200 * 1000.
Definition SYNC_COAST_INTERVAL_US : Z := 10 * 1000000.
Definition SYNC_BURST_COUNT : Z := 8.
Definition SYNC_FILTER_SIZE : Z := 8.
Definition SIDECAR_CACHE_SIZE : Z := 64.
Definition MAX_PKT : nat := 2048.

Definition be64_bytes (x : Z) : list Z := be32_bytes (Z.shiftr x 32) ++ be32_bytes x.

Definition sidecar_head (msg_type : Z) : list Z :=
  be32_bytes RTP_SIDECAR_MAGIC ++ [RTP_SIDECAR_VERSION; msg_type; 0; 0].

(** ** RTP headers *)

Record RtpHdr := Build_RtpHdr { v_p_x_cc : Z; m_pt : Z; seq : Z; timestamp : Z; rtp_ssrc : Z }.

Definition rtp_parse (buf : list Z) : option RtpHdr :=
  if (Z.of_nat (length buf) <? 12) || negb (Z.shiftr (byte_at buf 0) 6 =? 2) then None
  else Some (Build_RtpHdr (byte_at buf 0) (byte_at buf 1) (be16_at buf 2) (be32_at buf 4) (be32_at buf 8)).

(** ** Metadata of the sidecar *)

Record CacheEntry := Build_CacheEntry {
  ce_ssrc : Z; ce_rtp_ts : Z; ce_frame_id : Z; ce_capture_us : Z; ce_frame_ready_us : Z;
  ce_last_pkt_send_us : Z; ce_frame_size_bytes : Z; ce_seq_first : Z; ce_seq_count : Z;
  ce_frames_since_idr : Z; ce_frame_type : Z; ce_qp : Z; ce_complexity : Z; ce_scene_change : Z;
  ce_gop_state : Z; ce_idr_inserted : Z; ce_has_enc_info : bool; ce_meta_recv_us : Z; ce_valid : bool
}.

Definition entry_zero : CacheEntry := Build_CacheEntry 0 0 0 0 0 0 0 0 0 0 0 0 0 0 0 0 false 0 false.
Definition cache_zero : list CacheEntry := replicate (Z.to_nat SIDECAR_CACHE_SIZE) entry_zero.

Definition cache_index (ssrc rtp_ts : Z) : nat :=
  Z.to_nat (Z.land (Z.lxor ssrc rtp_ts) (SIDECAR_CACHE_SIZE - 1)).

(** The entry a [MSG_FRAME] makes. *)
Definition frame_entry (buf : list Z) (recv_us : Z) : CacheEntry :=
  let ext := Z.testbit (byte_at buf 7) 1 && (RtpSidecarFrameExt_size <=? Z.of_nat (length buf)) in
  let enc x := if ext then x else 0 in
  Build_CacheEntry (be32_at buf 8) (be32_at buf 12) (be64_at buf 16) (be64_at buf 36) (be64_at buf 24)
    (be64_at buf 44) (enc (be32_at buf 52)) (be16_at buf 32) (be16_at buf 34) (enc (be16_at buf 62))
    (enc (byte_at buf 56)) (enc (byte_at buf 57)) (enc (byte_at buf 58)) (enc (byte_at buf 59))
    (enc (byte_at buf 60)) (enc (byte_at buf 61)) ext recv_us true.

Definition cache_store_frame (cache : list CacheEntry) (buf : list Z) (recv_us : Z) : list CacheEntry :=
  let e := frame_entry buf recv_us in
  <[cache_index (ce_ssrc e) (ce_rtp_ts e) := e]> cache.

Definition cache_lookup (cache : list CacheEntry) (ssrc rtp_ts : Z) : option CacheEntry :=
  let e := nth (cache_index ssrc rtp_ts) cache entry_zero in
  if ce_valid e && (ce_ssrc e =? ssrc) && (ce_rtp_ts e =? rtp_ts) then Some e else None.

(** ** Frames *)

Record FrameAccum := Build_FrameAccum {
  fa_active : bool; fa_ssrc : Z; fa_rtp_ts : Z; fa_seq_first : Z; fa_seq_last : Z; fa_gaps : Z;
  fa_recv_first_us : Z; fa_recv_last_us : Z
}.

Definition accum_zero : FrameAccum := Build_FrameAccum false 0 0 0 0 0 0 0.

(** A packet opens a frame or continues the open one. *)
Definition accum_packet (fa : FrameAccum) (hdr : RtpHdr) (recv_ts : Z) : FrameAccum :=
  if negb (fa_active fa) then
    Build_FrameAccum true (rtp_ssrc hdr) (timestamp hdr) (seq hdr) (seq hdr) 0 recv_ts recv_ts
  else
    let expected := u16 (fa_seq_last fa + 1) in
    let gaps := if negb (seq hdr =? expected) then u32 (fa_gaps fa + u16 (seq hdr - expected))
                else fa_gaps fa in
    Build_FrameAccum true (fa_ssrc fa) (fa_rtp_ts fa) (fa_seq_first fa) (seq hdr) gaps
      (fa_recv_first_us fa) recv_ts.

(** ** The offset between the clocks *)

Record SyncState := Build_SyncState {
  ss_rtt_us : list Z; ss_offset_us : list Z; ss_count : Z; ss_next : Z; ss_best_offset_us : Z;
  ss_valid : bool; ss_pending_t1 : Z
}.
#[export] Instance eta_SyncState : Eta SyncState := fun s =>
  Build_SyncState (ss_rtt_us s) (ss_offset_us s) (ss_count s) (ss_next s) (ss_best_offset_us s)
    (ss_valid s) (ss_pending_t1 s).

Definition sync_zero : SyncState :=
  Build_SyncState (replicate (Z.to_nat SYNC_FILTER_SIZE) 0) (replicate (Z.to_nat SYNC_FILTER_SIZE) 0)
    0 0 0 false 0.

(** The scan for the smallest round trip; [rows] are the pairs from index 1 on. *)
Fixpoint best_sample (min_rtt best : Z) (rows : list (Z * Z)) : Z * Z :=
  match rows with
  | [] => (min_rtt, best)
  | (rtt, offset) :: rows =>
      if rtt <? min_rtt then best_sample rtt offset rows else best_sample min_rtt best rows
  end.

Definition sync_rows (s : SyncState) : list (Z * Z) :=
  take (Z.to_nat (ss_count s)) (zip (ss_rtt_us s) (ss_offset_us s)).

Definition sync_record (s : SyncState) (t1 t2 t3 t4 : Z) : SyncState :=
  let rtt := i64 (i64 (u64 (t4 - t1)) - i64 (u64 (t3 - t2))) in
  let offset := Z.quot (i64 (i64 (u64 (t2 - t1)) + i64 (u64 (t3 - t4)))) 2 in
  let i := Z.to_nat (Z.land (ss_next s) (SYNC_FILTER_SIZE - 1)) in
  let s := s <| ss_rtt_us := <[i := rtt]> (ss_rtt_us s) |>
             <| ss_offset_us := <[i := offset]> (ss_offset_us s) |>
             <| ss_next := u32 (ss_next s + 1) |>
             <| ss_count := if ss_count s <? SYNC_FILTER_SIZE then ss_count s + 1 else ss_count s |> in
  let '(_, best) := best_sample (nth 0 (ss_rtt_us s) 0) (nth 0 (ss_offset_us s) 0) (drop 1 (sync_rows s)) in
  s <| ss_best_offset_us := best |> <| ss_valid := true |>.

(** ** Statistics *)

Record StatAcc := Build_StatAcc {
  sa_count : Z; sa_sum : Z; sa_min : Z; sa_max : Z; sa_m2 : fp; sa_mean : fp }.

Definition stat_init : StatAcc := Build_StatAcc 0 0 (2 ^ 64 - 1) 0 f0 f0.

Section Counting.
Context {ABI : CAbi}.

Definition stat_add (s : StatAcc) (v : Z) : StatAcc :=
  let count := ulong (sa_count s + 1) in
  let delta := (F64.of_Z v - sa_mean s)%f64 in
  let mean := (sa_mean s + delta / F64.of_Z count)%f64 in
  let delta2 := (F64.of_Z v - mean)%f64 in
  Build_StatAcc count (u64 (sa_sum s + v)) (if v <? sa_min s then v else sa_min s)
    (if v >? sa_max s then v else sa_max s) (sa_m2 s + delta * delta2)%f64 mean.

Definition stat_stddev (s : StatAcc) : fp :=
  if sa_count s >? 1 then SFsqrt F64.prec F64.emax (sa_m2 s / F64.of_Z (sa_count s))%f64 else f0.

Definition percentile (sorted : list Z) (n pct : Z) : Z :=
  if n =? 0 then 0
  else
    let idx := f_to_u64 (F64.of_Z n * F64.of_Z pct / F64.of_Z 100)%f64 in
    let idx := if idx >=? n then n - 1 else idx in
    nth (Z.to_nat idx) sorted 0.

Record ProbeStats := Build_ProbeStats {
  ps_enabled : bool; ps_first_frame_us : Z; ps_last_frame_us : Z; ps_frames : Z;
  ps_total_rtp_pkts : Z; ps_total_gaps : Z; ps_meta_rx : Z; ps_meta_rx_bytes : Z; ps_sub_tx : Z;
  ps_sync_tx : Z; ps_sync_rx : Z; ps_sender_ivl : StatAcc; ps_recv_ivl : StatAcc;
  ps_send_spread : StatAcc; ps_encode_dur : StatAcc; ps_spread_vals : list Z; ps_spread_cap : Z
}.
#[export] Instance eta_ProbeStats : Eta ProbeStats := fun p =>
  Build_ProbeStats (ps_enabled p) (ps_first_frame_us p) (ps_last_frame_us p) (ps_frames p)
    (ps_total_rtp_pkts p) (ps_total_gaps p) (ps_meta_rx p) (ps_meta_rx_bytes p) (ps_sub_tx p)
    (ps_sync_tx p) (ps_sync_rx p) (ps_sender_ivl p) (ps_recv_ivl p) (ps_send_spread p)
    (ps_encode_dur p) (ps_spread_vals p) (ps_spread_cap p).

Definition stats_init (enabled : bool) : ProbeStats :=
  Build_ProbeStats enabled 0 0 0 0 0 0 0 0 0 0 stat_init stat_init stat_init stat_init [] 0.

(** [mem]: whether [realloc] finds memory, if it is called. *)
Definition stats_add_spread (mem : bool) (ps : ProbeStats) (v : Z) : ProbeStats :=
  let ps := ps <| ps_send_spread := stat_add (ps_send_spread ps) v |> in
  if Z.of_nat (length (ps_spread_vals ps)) >=? ps_spread_cap ps then
    if mem then
      ps <| ps_spread_cap := if negb (ps_spread_cap ps =? 0) then ps_spread_cap ps * 2 else 1024 |>
         <| ps_spread_vals := ps_spread_vals ps ++ [v] |>
    else ps
  else ps <| ps_spread_vals := ps_spread_vals ps ++ [v] |>.

(** ** Output *)

Definition TABS : string := str1 TAB.
Definition tabbed (s : string) : string := (s ++ TABS)%string.
Fixpoint tab_join (cols : list string) : string :=
  match cols with
  | [] => EmptyString
  | [c] => c
  | c :: cols => (c ++ TABS ++ tab_join cols)%string
  end.

(** [print_header]. *)
Definition header_columns : list string := [
  "# frame_no"; "ssrc"; "rtp_ts"; "seq_first"; "seq_last"; "seq_count"; "gaps"; "frame_id";
  "frame_size_bytes"; "frame_type"; "qp"; "complexity"; "scene_change"; "gop_state"; "idr_inserted";
  "frames_since_idr"; "capture_us"; "frame_ready_us"; "last_pkt_send_us"; "meta_recv_us";
  "recv_first_us"; "recv_last_us"; "sender_ivl_us"; "recv_ivl_us"; "encode_dur_us"; "send_spread_us";
  "latency_est_us"]%string.
Definition print_header : string := (tab_join header_columns ++ str1 LF)%string.

(** [%08x]. *)
Fixpoint hex_digits (n : nat) (x : Z) : string :=
  match n with
  | O => EmptyString
  | S n => String (hex_digit (Z.land (Z.shiftr x (4 * Z.of_nat n)) 15)) (hex_digits n x)
  end.

Definition dash : string := "-".
Definition col_u64 (v : Z) : string := if negb (v =? 0) then pretty v else dash.
Definition col_of (ce : option CacheEntry) (f : CacheEntry -> string) : string :=
  match ce with Some e => f e | None => dash end.
(** A column of the optional feedback. *)
Definition col_enc (ce : option CacheEntry) (f : CacheEntry -> Z) : string :=
  match ce with Some e => if ce_has_enc_info e then pretty (f e) else dash | None => dash end.

Definition sender_ivl (ce : option CacheEntry) (prev_frame_ready_us : Z) : Z :=
  match ce with
  | Some e => if negb (prev_frame_ready_us =? 0) then u64 (ce_frame_ready_us e - prev_frame_ready_us) else 0
  | None => 0
  end.
Definition encode_dur (ce : option CacheEntry) : Z :=
  match ce with
  | Some e => if negb (ce_capture_us e =? 0) && (ce_frame_ready_us e >? ce_capture_us e)
              then u64 (ce_frame_ready_us e - ce_capture_us e) else 0
  | None => 0
  end.
Definition send_spread (ce : option CacheEntry) : Z :=
  match ce with
  | Some e => if negb (ce_last_pkt_send_us e =? 0) && (ce_last_pkt_send_us e >? ce_frame_ready_us e)
              then u64 (ce_last_pkt_send_us e - ce_frame_ready_us e) else 0
  | None => 0
  end.
Definition latency_est (fa : FrameAccum) (ce : option CacheEntry) (ss : SyncState) : option Z :=
  match ce with
  | Some e =>
      if ss_valid ss then
        Some (i64 (i64 (fa_recv_last_us fa) - i64 (i64 (ce_frame_ready_us e) - ss_best_offset_us ss)))
      else None
  | None => None
  end.

Definition frame_columns (frame_no : Z) (fa : FrameAccum) (ce : option CacheEntry)
    (prev_frame_ready_us prev_recv_first_us : Z) (ss : SyncState) : list string :=
  let recv_ivl := if negb (prev_recv_first_us =? 0) then u64 (fa_recv_first_us fa - prev_recv_first_us) else 0 in
  [pretty frame_no; hex_digits 8 (fa_ssrc fa); pretty (fa_rtp_ts fa); pretty (fa_seq_first fa);
   pretty (fa_seq_last fa); col_of ce (fun e => pretty (ce_seq_count e)); pretty (fa_gaps fa);
   col_of ce (fun e => pretty (ce_frame_id e));
   col_enc ce ce_frame_size_bytes; col_enc ce ce_frame_type; col_enc ce ce_qp; col_enc ce ce_complexity;
   col_enc ce ce_scene_change; col_enc ce ce_gop_state; col_enc ce ce_idr_inserted;
   col_enc ce ce_frames_since_idr;
   col_of ce (fun e => col_u64 (ce_capture_us e)); col_of ce (fun e => col_u64 (ce_frame_ready_us e));
   col_of ce (fun e => col_u64 (ce_last_pkt_send_us e)); col_of ce (fun e => col_u64 (ce_meta_recv_us e));
   pretty (fa_recv_first_us fa); pretty (fa_recv_last_us fa);
   col_u64 (sender_ivl ce prev_frame_ready_us); col_u64 recv_ivl;
   col_u64 (encode_dur ce); col_u64 (send_spread ce);
   match latency_est fa ce ss with Some l => pretty l | None => dash end].

Definition emit_frame (frame_no : Z) (fa : FrameAccum) (ce : option CacheEntry)
    (prev_frame_ready_us prev_recv_first_us : Z) (ss : SyncState) : string :=
  (tab_join (frame_columns frame_no fa ce prev_frame_ready_us prev_recv_first_us ss) ++ str1 LF)%string.

(** ** The loop *)

(** The variables of [main]. *)
Record Probe := Build_Probe {
  pr_cache : list CacheEntry; pr_fa : FrameAccum; pr_ss : SyncState; pr_ps : ProbeStats;
  pr_frame_no : Z; pr_prev_frame_ready : Z; pr_prev_recv_first : Z; pr_last_subscribe : Z;
  pr_last_sync : Z
}.
#[export] Instance eta_Probe : Eta Probe := fun p =>
  Build_Probe (pr_cache p) (pr_fa p) (pr_ss p) (pr_ps p) (pr_frame_no p) (pr_prev_frame_ready p)
    (pr_prev_recv_first p) (pr_last_subscribe p) (pr_last_sync p).

Definition probe_init (stats : bool) : Probe :=
  Build_Probe cache_zero accum_zero sync_zero (stats_init stats) 0 0 0 0 0.

Inductive ProbeEv :=
  | PeSend (bytes : list Z)    (** a datagram to the encoder *)
  | PeLine (text : string)     (** standard output *)
  | PeLog (text : string).     (** standard error *)

(** What a turn gets: the clock at its start and in [send_sync_req], what [select] reports,
    [None] for a time-out, a signal or an error, and the datagrams read with the clock after;
    [mem] as above. *)
Record Turn := Build_Turn {
  tn_now : Z; tn_t1 : Z; tn_ready : option (option (list Z * Z) * option (list Z * Z)); tn_mem : bool }.

Definition send_subscribe : ProbeEv := PeSend (sidecar_head RTP_SIDECAR_MSG_SUBSCRIBE).

Definition subscribe_step (now : Z) (p : Probe) : Probe * list ProbeEv :=
  if u64 (now - pr_last_subscribe p) >=? SUBSCRIBE_INTERVAL_US then
    (p <| pr_ps := (pr_ps p) <| ps_sub_tx := ulong (ps_sub_tx (pr_ps p) + 1) |> |>
       <| pr_last_subscribe := now |>, [send_subscribe])
  else (p, []).

Definition send_sync_req (t1 : Z) (ss : SyncState) : SyncState * ProbeEv :=
  (ss <| ss_pending_t1 := t1 |>, PeSend (sidecar_head RTP_SIDECAR_MSG_SYNC_REQ ++ be64_bytes t1)).

Definition sync_step (now t1 : Z) (p : Probe) : Probe * list ProbeEv :=
  let sync_ivl := if ss_count (pr_ss p) <? SYNC_BURST_COUNT then SYNC_BURST_INTERVAL_US
                  else SYNC_COAST_INTERVAL_US in
  if u64 (now - pr_last_sync p) >=? sync_ivl then
    let '(ss, ev) := send_sync_req t1 (pr_ss p) in
    (p <| pr_ss := ss |> <| pr_ps := (pr_ps p) <| ps_sync_tx := ulong (ps_sync_tx (pr_ps p) + 1) |> |>
       <| pr_last_sync := now |>, [ev])
  else (p, []).

(** [%+ld]. *)
Definition signed (z : Z) : string := if z <? 0 then pretty z else ("+" ++ pretty z)%string.

Definition sync_line (ss : SyncState) : string :=
  ("[sync] offset=" ++ signed (ss_best_offset_us ss) ++ " µs  rtt=" ++
   pretty (nth (Z.to_nat (Z.land (u32 (ss_next ss - 1)) (SYNC_FILTER_SIZE - 1))) (ss_rtt_us ss) 0) ++
   " µs" ++ str1 LF)%string.

Definition on_sidecar_packet (dgram : list Z) (recv_ts : Z) (p : Probe) : Probe * list ProbeEv :=
  let buf := take MAX_PKT dgram in
  let n := Z.of_nat (length buf) in
  if negb ((n >=? 6) && (be32_at buf 0 =? RTP_SIDECAR_MAGIC) && (byte_at buf 4 =? RTP_SIDECAR_VERSION))
  then (p, [])
  else
    let msg_type := byte_at buf 5 in
    if (msg_type =? RTP_SIDECAR_MSG_FRAME) && (n >=? RtpSidecarFrame_size) then
      (p <| pr_cache := cache_store_frame (pr_cache p) buf recv_ts |>
         <| pr_ps := (pr_ps p) <| ps_meta_rx := ulong (ps_meta_rx (pr_ps p) + 1) |>
                               <| ps_meta_rx_bytes := u64 (ps_meta_rx_bytes (pr_ps p) + n) |> |>, [])
    else if (msg_type =? RTP_SIDECAR_MSG_SYNC_RESP) && (n >=? RtpSidecarSyncResp_size) &&
            negb (ss_pending_t1 (pr_ss p) =? 0) then
      let t1 := be64_at buf 8 in
      if t1 =? ss_pending_t1 (pr_ss p) then
        let ss := sync_record (pr_ss p) t1 (be64_at buf 16) (be64_at buf 24) recv_ts in
        (p <| pr_ss := ss <| ss_pending_t1 := 0 |> |>
           <| pr_ps := (pr_ps p) <| ps_sync_rx := ulong (ps_sync_rx (pr_ps p) + 1) |> |>,
         [PeLog (sync_line ss)])
      else (p, [])
    else (p, []).

(** The statistics of a finished frame. *)
Definition stats_frame (mem : bool) (fa : FrameAccum) (ce : option CacheEntry) (prev_frame_ready prev_recv_first : Z)
    (ps : ProbeStats) : ProbeStats :=
  if negb (ps_enabled ps) then ps
  else
    let ps := ps <| ps_first_frame_us := if ps_first_frame_us ps =? 0 then fa_recv_first_us fa
                                         else ps_first_frame_us ps |>
                 <| ps_last_frame_us := fa_recv_last_us fa |>
                 <| ps_frames := ulong (ps_frames ps + 1) |>
                 <| ps_total_rtp_pkts := ulong (ps_total_rtp_pkts ps +
                      u32 (u16 (fa_seq_last fa - fa_seq_first fa) + 1)) |>
                 <| ps_total_gaps := ulong (ps_total_gaps ps + fa_gaps fa) |> in
    let ps :=
      match ce with
      | None => ps
      | Some e =>
          let ps := if negb (prev_frame_ready =? 0) && (ce_frame_ready_us e >? prev_frame_ready)
                    then ps <| ps_sender_ivl := stat_add (ps_sender_ivl ps) (ce_frame_ready_us e - prev_frame_ready) |>
                    else ps in
          let ps := if negb (ce_capture_us e =? 0) && (ce_frame_ready_us e >? ce_capture_us e)
                    then ps <| ps_encode_dur := stat_add (ps_encode_dur ps) (ce_frame_ready_us e - ce_capture_us e) |>
                    else ps in
          if negb (ce_last_pkt_send_us e =? 0) && (ce_last_pkt_send_us e >? ce_frame_ready_us e)
          then stats_add_spread mem ps (ce_last_pkt_send_us e - ce_frame_ready_us e)
          else ps
      end in
    if negb (prev_recv_first =? 0) && (fa_recv_first_us fa >? prev_recv_first)
    then ps <| ps_recv_ivl := stat_add (ps_recv_ivl ps) (fa_recv_first_us fa - prev_recv_first) |>
    else ps.

Definition on_rtp_packet (mem : bool) (dgram : list Z) (recv_ts : Z) (p : Probe) : Probe * list ProbeEv :=
  match rtp_parse (take MAX_PKT dgram) with
  | None => (p, [])
  | Some hdr =>
      let fa := accum_packet (pr_fa p) hdr recv_ts in
      let p := p <| pr_fa := fa |> in
      if negb (Z.land (Z.shiftr (m_pt hdr) 7) 1 =? 0) then
        let ce := cache_lookup (pr_cache p) (fa_ssrc fa) (fa_rtp_ts fa) in
        let line := emit_frame (pr_frame_no p) fa ce (pr_prev_frame_ready p) (pr_prev_recv_first p) (pr_ss p) in
        (p <| pr_frame_no := ulong (pr_frame_no p + 1) |>
           <| pr_ps := stats_frame mem fa ce (pr_prev_frame_ready p) (pr_prev_recv_first p) (pr_ps p) |>
           <| pr_prev_frame_ready := match ce with Some e => ce_frame_ready_us e
                                                 | None => pr_prev_frame_ready p end |>
           <| pr_prev_recv_first := fa_recv_first_us fa |>
           <| pr_fa := Build_FrameAccum false (fa_ssrc fa) (fa_rtp_ts fa) (fa_seq_first fa)
                         (fa_seq_last fa) (fa_gaps fa) (fa_recv_first_us fa) (fa_recv_last_us fa) |>,
         [PeLine line])
      else (p, [])
  end.

Definition on_socket (f : list Z -> Z -> Probe -> Probe * list ProbeEv) (d : option (list Z * Z)) (p : Probe)
    : Probe * list ProbeEv :=
  match d with Some (bytes, ts) => f bytes ts p | None => (p, []) end.

Definition probe_turn (p : Probe) (t : Turn) : Probe * list ProbeEv :=
  let '(p, es1) := subscribe_step (tn_now t) p in
  let '(p, es2) := sync_step (tn_now t) (tn_t1 t) p in
  match tn_ready t with
  | None => (p, es1 ++ es2)
  | Some (sidecar, rtp) =>
      let '(p, es3) := on_socket on_sidecar_packet sidecar p in
      let '(p, es4) := on_socket (on_rtp_packet (tn_mem t)) rtp p in
      (p, es1 ++ es2 ++ es3 ++ es4)
  end.

Fixpoint probe_loop (p : Probe) (ts : list Turn) : Probe * list ProbeEv :=
  match ts with
  | [] => (p, [])
  | t :: ts =>
      let '(p, es) := probe_turn p t in
      let '(p, es') := probe_loop p ts in (p, es ++ es')
  end.

(** ** The summary *)

Local Open Scope string_scope.
Local Open Scope list_scope.
Local Open Scope Z_scope.

Definition per (x y : fp) (cond : bool) : fp := if cond then (x / y)%f64 else f0.
Definition line (cols : list string) : string := (String.concat "" cols ++ str1 LF)%string.

Definition mean_lines (s : StatAcc) : list string := [
  line ["  Mean:    "; printf_f 0 (sa_mean s); " us  ("; printf_f 1 (per (F64.of_Z 1000000) (sa_mean s) (flt f0 (sa_mean s))); " fps)"]].
Definition minmax_lines (s : StatAcc) : list string :=
  [line ["  Min:     "; pretty (sa_min s); " us"]; line ["  Max:     "; pretty (sa_max s); " us"]].
Definition stddev_line (s : StatAcc) : string := line ["  Stddev:  "; printf_f 0 (stat_stddev s); " us"].

Definition bandwidth_lines (elapsed : fp) (rx_bytes tx_bytes sc_rx sc_tx : Z) : list string :=
  if flt f0 elapsed then [
    line ["  Bandwidth:          "; printf_f 1 (F64.of_Z rx_bytes / elapsed / F64.of_Z 1024)%f64; " KB/s rx, ";
          printf_f 1 (F64.of_Z tx_bytes / elapsed / F64.of_Z 1024)%f64; " KB/s tx (";
          printf_f 1 (F64.of_Z (u64 (rx_bytes + tx_bytes)) * F64.of_Z 8 / elapsed / F64.of_Z 1000)%f64; " kbps total)"];
    line ["  Packet rate:        "; printf_f 0 (F64.of_Z sc_rx / elapsed)%f64; " pps rx, ";
          printf_f 1 (F64.of_Z sc_tx / elapsed)%f64; " pps tx"]]
  else [].

Fixpoint insert_sorted (v : Z) (l : list Z) : list Z :=
  match l with [] => [v] | x :: l' => if v <=? x then v :: l else x :: insert_sorted v l' end.
(** [qsort] with [cmp_u64]. *)
Definition sort_u64 (l : list Z) : list Z := foldr insert_sorted [] l.

Definition spread_lines (ps : ProbeStats) : list string :=
  let s := ps_send_spread ps in
  let n := Z.of_nat (length (ps_spread_vals ps)) in
  let sorted := sort_u64 (ps_spread_vals ps) in
  let row name pct := line [name; pretty (percentile sorted n pct); " us"] in
  [line [str1 LF; "--- Send spread (frame_ready -> last_pkt_send) ---"];
   line ["  Mean:    "; printf_f 0 (sa_mean s); " us"]; line ["  Min:     "; pretty (sa_min s); " us"];
   row "  P50:     " 50; row "  P95:     " 95; row "  P99:     " 99;
   line ["  Max:     "; pretty (sa_max s); " us"]].

Fixpoint min_of (m : Z) (l : list Z) : Z :=
  match l with [] => m | x :: l => min_of (if x <? m then x else m) l end.

(** [mem]: whether [malloc] finds memory for the sorted copy. *)
Definition stats_print (mem : bool) (ps : ProbeStats) (ss : SyncState) : list string :=
  let elapsed_us := if ps_last_frame_us ps >? ps_first_frame_us ps
                    then ps_last_frame_us ps - ps_first_frame_us ps else 0 in
  let elapsed := (F64.of_Z elapsed_us / F64.of_Z 1000000)%f64 in
  let sc_rx := ulong (ps_meta_rx ps + ps_sync_rx ps) in
  let sc_tx := ulong (ps_sub_tx ps + ps_sync_tx ps) in
  let rx_bytes := u64 (ps_meta_rx_bytes ps + ps_sync_rx ps * RtpSidecarSyncResp_size) in
  let tx_bytes := u64 (ps_sub_tx ps * RtpSidecarSubscribe_size + ps_sync_tx ps * RtpSidecarSyncReq_size) in
  ([line [str1 LF; "=== Timing Probe Summary ==="; str1 LF];
    line ["Duration:             "; printf_f 1 elapsed; " s"];
    line ["Frames:               "; pretty (ps_frames ps); " (";
          printf_f 1 (per (F64.of_Z (ps_frames ps)) elapsed (flt f0 elapsed)); " fps)"];
    line ["RTP packets:          "; pretty (ps_total_rtp_pkts ps); " (";
          printf_f 1 (per (F64.of_Z (ps_total_rtp_pkts ps)) (F64.of_Z (ps_frames ps)) (ps_frames ps >? 0)%Z);
          " avg/frame)"];
    line ["RTP gaps:             "; pretty (ps_total_gaps ps)];
    line [str1 LF; "--- Sidecar overhead ---"];
    line ["  venc->probe:        "; pretty sc_rx; " pkts ("; pretty (ps_meta_rx ps); " frame + ";
          pretty (ps_sync_rx ps); " sync)"];
    line ["  probe->venc:        "; pretty sc_tx; " pkts ("; pretty (ps_sub_tx ps); " subscribe + ";
          pretty (ps_sync_tx ps); " sync)"]] ++
   bandwidth_lines elapsed rx_bytes tx_bytes sc_rx sc_tx ++
   (if (sa_count (ps_sender_ivl ps) >? 0)%Z then
      line [str1 LF; "--- Frame intervals (sender clock) ---"] :: mean_lines (ps_sender_ivl ps) ++
      minmax_lines (ps_sender_ivl ps) ++ [stddev_line (ps_sender_ivl ps)]
    else []) ++
   (if (sa_count (ps_recv_ivl ps) >? 0)%Z then
      line [str1 LF; "--- Frame intervals (probe clock) ---"] :: mean_lines (ps_recv_ivl ps) ++
      [stddev_line (ps_recv_ivl ps)]
    else []) ++
   (if (sa_count (ps_send_spread ps) >? 0)%Z && mem then spread_lines ps else []) ++
   (if (sa_count (ps_encode_dur ps) >? 0)%Z then
      line [str1 LF; "--- Encode duration (capture -> frame_ready) ---"] ::
      line ["  Mean:    "; printf_f 0 (sa_mean (ps_encode_dur ps)); " us"] :: minmax_lines (ps_encode_dur ps)
    else []) ++
   (if ss_valid ss then
      [line [str1 LF; "--- Clock sync ---"]; line ["  Samples:  "; pretty (ss_count ss)];
       line ["  Offset:   "; signed (ss_best_offset_us ss); " us"];
       line ["  Best RTT: "; pretty (min_of (nth 0 (ss_rtt_us ss) 0)
                (drop 1 (take (Z.to_nat (ss_count ss)) (ss_rtt_us ss)))); " us"]]
    else []) ++ [str1 LF]).

(** ** Start *)

Record ProbeOpts := Build_ProbeOpts {
  po_rtp_port : Z; po_sidecar_port : Z; po_venc_ip : option string; po_stats : bool }.

(** [strtoul(s, &end, 10)] with the tests behind it: a port between 1 and 65535. *)
Definition port_arg (s : string) : option Z :=
  match strtoZ s with
  | Some (v, EmptyString) =>
      if Z.abs v >=? 2 ^ long_bits then None
      else let v := ulong v in if (v =? 0) || (v >? 65535) then None else Some v
  | _ => None
  end.

(** [inl]: the exit code of a bad argument or of [--help]; an argument it does not know is
    skipped. *)
Fixpoint probe_args (args : list string) (o : ProbeOpts) : Z + ProbeOpts :=
  match args with
  | [] => inr o
  | a :: rest =>
      let other :=
        if String.eqb a "--stats" then
          probe_args rest (Build_ProbeOpts (po_rtp_port o) (po_sidecar_port o) (po_venc_ip o) true)
        else if String.eqb a "--help" then inl 0
        else probe_args rest o in
      match rest with
      | v :: rest' =>
          if String.eqb a "--rtp-port" || String.eqb a "--sidecar-port" then
            match port_arg v with
            | None => inl 1
            | Some n =>
                probe_args rest'
                  (if String.eqb a "--rtp-port"
                   then Build_ProbeOpts n (po_sidecar_port o) (po_venc_ip o) (po_stats o)
                   else Build_ProbeOpts (po_rtp_port o) n (po_venc_ip o) (po_stats o))
            end
          else if String.eqb a "--venc-ip" then
            probe_args rest' (Build_ProbeOpts (po_rtp_port o) (po_sidecar_port o) (Some v) (po_stats o))
          else other
      | [] => other
      end
  end.

(** What it writes and its exit code; [sockets]: whether both sockets could be bound; [ts] are
    the turns until a signal comes. *)
Definition probe_main (args : list string) (sockets : bool) (ts : list Turn) (mem : bool)
    : list ProbeEv * Z :=
  match probe_args args (Build_ProbeOpts 5600 6666 None false) with
  | inl code => ([], code)
  | inr o =>
      match po_venc_ip o with
      | None => ([], 1)
      | Some ip =>
          match inet_pton4 ip with
          | None => ([], 1)
          | Some _ =>
              if negb sockets then ([], 1)
              else
                let '(p, es) := probe_loop (probe_init (po_stats o)) ts in
                (PeLine print_header :: es ++
                 (if po_stats o then map PeLog (stats_print mem (pr_ps p) (pr_ss p)) else []), 0)
          end
      end
  end.

End Counting.

(** ** The offset is right up to half the best round trip *)

(** An exchange by the probe's clock: when the request leaves, how long it travels, how long
    the answer is held, how long it travels back.  The encoder's clock is ahead by [theta]. *)
Record Exchange := Build_Exchange { ex_t1 : Z; ex_up : Z; ex_hold : Z; ex_down : Z }.

Definition ex_ok (theta : Z) (x : Exchange) : Prop :=
  0 <= ex_t1 x /\ 0 <= ex_t1 x + theta /\ 0 <= ex_up x /\ 0 <= ex_hold x /\ 0 <= ex_down x /\
  ex_t1 x + ex_up x + ex_hold x + ex_down x < 2 ^ 61 /\ ex_t1 x + theta < 2 ^ 61.

Definition ex_rtt (x : Exchange) : Z := ex_up x + ex_down x.
Definition ex_offset (theta : Z) (x : Exchange) : Z := Z.quot (2 * theta + ex_up x - ex_down x) 2.

Definition sync_exchange (theta : Z) (s : SyncState) (x : Exchange) : SyncState :=
  let t2 := ex_t1 x + theta + ex_up x in
  sync_record s (ex_t1 x) t2 (t2 + ex_hold x) (ex_t1 x + ex_up x + ex_hold x + ex_down x).

Definition last_n {A} (n : nat) (l : list A) : list A := drop (length l - n) l.

Lemma i64_u64 x : - 2 ^ 63 <= x < 2 ^ 63 -> i64 (u64 x) = x.
Proof.
  intros H. unfold i64, u64, swrap. rewrite wrap_wrap. unfold wrap.
  destruct (Z.ltb_spec (x mod 2 ^ 64) (2 ^ 63)) as [Hl|Hl]; change (64 - 1) with 63 in *.
  - destruct (Z.ltb_spec (x mod 2 ^ 64) (2 ^ 63)); [|lia].
    destruct (Z_lt_le_dec x 0) as [Hx|Hx]; [|rewrite Z.mod_small; lia].
    rewrite <- (Z_mod_plus_full x 1 (2 ^ 64)) in Hl. rewrite Z.mod_small in Hl; lia.
  - destruct (Z.ltb_spec (x mod 2 ^ 64) (2 ^ 63)); [lia|].
    destruct (Z_lt_le_dec x 0) as [Hx|Hx]; [|rewrite Z.mod_small in Hl; lia].
    rewrite <- (Z_mod_plus_full x 1 (2 ^ 64)). rewrite Z.mod_small; lia.
Qed.

Lemma i64_small x : - 2 ^ 63 <= x < 2 ^ 63 -> i64 x = x.
Proof. intros H. rewrite <- (i64_u64 x) at 2 by done. unfold i64, u64, swrap. by rewrite wrap_wrap. Qed.

Lemma offset_error theta x : ex_ok theta x -> 2 * Z.abs (ex_offset theta x - theta) <= ex_rtt x + 1.
Proof.
  intros (_ & _ & Hu & _ & Hd & _). unfold ex_offset, ex_rtt.
  pose proof (Z.quot_rem' (2 * theta + ex_up x - ex_down x) 2) as Hq.
  pose proof (Z.rem_bound_abs (2 * theta + ex_up x - ex_down x) 2 ltac:(lia)) as Hr. lia.
Qed.

(** The arrays hold the last eight samples. *)
Record filtered (theta : Z) (xs : list Exchange) (s : SyncState) : Prop := {
  fi_rtt : length (ss_rtt_us s) = 8%nat;
  fi_off : length (ss_offset_us s) = 8%nat;
  fi_count : ss_count s = Z.min (Z.of_nat (length xs)) 8;
  fi_next : ss_next s = u32 (Z.of_nat (length xs));
  fi_slot : forall k x, (length xs <= k + 8)%nat -> xs !! k = Some x ->
    ss_rtt_us s !! (k mod 8)%nat = Some (ex_rtt x) /\
    ss_offset_us s !! (k mod 8)%nat = Some (ex_offset theta x) }.

Lemma slot_index n : Z.to_nat (Z.land (u32 (Z.of_nat n)) (SYNC_FILTER_SIZE - 1)) = (n mod 8)%nat.
Proof.
  change (SYNC_FILTER_SIZE - 1) with (Z.ones 3). rewrite Z.land_ones by lia. unfold u32, wrap.
  rewrite Z.mod_mod_divide by (exists (2 ^ 29); reflexivity).
  change (2 ^ 3) with (Z.of_nat 8). rewrite <- Nat2Z.inj_mod. apply Nat2Z.id.
Qed.

Lemma best_sample_spec rows : forall m b,
  In (best_sample m b rows) ((m, b) :: rows) /\
  (forall r, In r ((m, b) :: rows) -> (best_sample m b rows).1 <= r.1).
Proof.
  induction rows as [|[rtt off] rows IH]; intros m b; cbn [best_sample].
  - split; [by left|]. intros r [<-|[]]. cbn. lia.
  - destruct (Z.ltb_spec rtt m) as [Hlt|Hge].
    + destruct (IH rtt off) as [Hin Hle]. split; [by right|]. intros r [<-|Hr]; [|by apply Hle].
      specialize (Hle _ (or_introl eq_refl)). cbn in *. lia.
    + destruct (IH m b) as [Hin Hle]. split.
      * destruct Hin as [Hin|Hin]; [by left|by right; right].
      * intros r [<-|[<-|Hr]]; [by apply Hle; left| |by apply Hle; right].
        specialize (Hle _ (or_introl eq_refl)). cbn in *. lia.
Qed.

(** The rows of the scan are the samples of the window. *)
Lemma filtered_rows theta xs s r : filtered theta xs s ->
  In r (sync_rows s) <-> exists x, In x (last_n 8 xs) /\ r = (ex_rtt x, ex_offset theta x).
Proof.
  intros [Hr Ho Hc _ Hs]. unfold sync_rows, last_n. rewrite Hc.
  rewrite <- !list_elem_of_In. split.
  - intros (j & Hj)%list_elem_of_lookup. apply lookup_take_Some in Hj as [Hj Hlt].
    assert (j < 8 /\ j < length xs)%nat as [H8 Hn] by lia. clear Hlt.
    pose proof (Nat.div_mod_eq (length xs - 1 - j) 8) as Hd.
    pose proof (Nat.mod_upper_bound (length xs - 1 - j) 8 ltac:(lia)) as Hm.
    set (d := ((length xs - 1 - j) mod 8)%nat) in *. set (q := ((length xs - 1 - j) / 8)%nat) in *.
    destruct (lookup_lt_is_Some_2 xs (j + q * 8)) as [x Hx]; [lia|].
    destruct (Hs (j + q * 8)%nat x) as [H1 H2]; [lia|done|].
    rewrite Nat.Div0.mod_add, Nat.mod_small in H1, H2 by lia.
    exists x. split.
    + apply list_elem_of_In, list_elem_of_lookup. exists (j + q * 8 - (length xs - 8))%nat. rewrite lookup_drop.
      rewrite <- Hx. f_equal. lia.
    + destruct r as [a b]. apply lookup_zip_Some in Hj as [Hj1 Hj2]. congruence.
  - intros (x & Hin & ->). apply list_elem_of_In, list_elem_of_lookup in Hin as [i Hi]. rewrite lookup_drop in Hi.
    set (k := (length xs - 8 + i)%nat) in *. pose proof (lookup_lt_Some _ _ _ Hi) as Hk.
    destruct (Hs k x) as [H1 H2]; [lia|done|]. apply list_elem_of_lookup. exists (k mod 8)%nat.
    apply lookup_take_Some. split; [by apply lookup_zip_Some|].
    pose proof (Nat.mod_upper_bound k 8 ltac:(lia)). pose proof (Nat.Div0.mod_le k 8). lia.
Qed.

Lemma filtered_zero theta : filtered theta [] sync_zero.
Proof. by split. Qed.

Lemma exchange_values theta x : ex_ok theta x ->
  let t1 := ex_t1 x in let t2 := t1 + theta + ex_up x in let t3 := t2 + ex_hold x in
  let t4 := t1 + ex_up x + ex_hold x + ex_down x in
  i64 (i64 (u64 (t4 - t1)) - i64 (u64 (t3 - t2))) = ex_rtt x /\
  Z.quot (i64 (i64 (u64 (t2 - t1)) + i64 (u64 (t3 - t4)))) 2 = ex_offset theta x.
Proof.
  intros (H1 & H2 & H3 & H4 & H5 & H6 & H7) t1 t2 t3 t4. unfold ex_rtt, ex_offset. subst t1 t2 t3 t4.
  rewrite !(i64_u64 (_ - _)) by lia. rewrite !i64_small by lia. split; [lia|]. f_equal. lia.
Qed.

Lemma filtered_record theta xs s x : filtered theta xs s -> ex_ok theta x ->
  filtered theta (xs ++ [x]) (sync_exchange theta s x) /\
  ss_valid (sync_exchange theta s x) = true /\
  exists r, In (r, ss_best_offset_us (sync_exchange theta s x)) (sync_rows (sync_exchange theta s x)) /\
    forall row, In row (sync_rows (sync_exchange theta s x)) -> r <= row.1.
Proof.
  intros [Hr Ho Hc Hn Hs] Hx. destruct (exchange_values _ _ Hx) as [Er Eo].
  unfold sync_exchange, sync_record. rewrite Er, Eo, Hn, slot_index. clear Er Eo.
  set (i := (length xs mod 8)%nat). pose proof (Nat.mod_upper_bound (length xs) 8 ltac:(lia)) as Hi. fold i in Hi.
  set (s1 := s <| ss_rtt_us := _ |> <| ss_offset_us := _ |> <| ss_next := _ |> <| ss_count := _ |>).
  assert (filtered theta (xs ++ [x]) s1) as Hf.
  { subst s1. split; cbn -[Z.add u32 Nat.modulo]; rewrite ?length_app, ?length_insert; try done; cbn [length].
    - rewrite Hc. change SYNC_FILTER_SIZE with 8. clear. destruct (Z.ltb_spec (Z.min (Z.of_nat (length xs)) 8) 8); lia.
    - unfold u32, wrap. rewrite Nat2Z.inj_add. by rewrite Zplus_mod_idemp_l.
    - intros k y Hk Hy. destruct (decide (k = length xs)) as [->|Hne].
      + rewrite lookup_app_r, Nat.sub_diag in Hy by lia. injection Hy as <-.
        rewrite !list_lookup_insert_eq by lia. done.
      + assert (k < length xs)%nat as Hlt.
        { apply lookup_lt_Some in Hy. rewrite length_app in Hy. cbn in Hy. lia. }
        rewrite lookup_app_l in Hy by done. rewrite !list_lookup_insert_ne.
        * by apply Hs; [lia|].
        * subst i. intros E. pose proof (Nat.div_mod_eq (length xs) 8). pose proof (Nat.div_mod_eq k 8). lia.
        * subst i. intros E. pose proof (Nat.div_mod_eq (length xs) 8). pose proof (Nat.div_mod_eq k 8). lia. }
  assert (sync_rows s1 = (nth 0 (ss_rtt_us s1) 0, nth 0 (ss_offset_us s1) 0) :: drop 1 (sync_rows s1)) as Hrows.
  { destruct Hf as [Hr1 Ho1 Hc1 _ _]. unfold sync_rows. rewrite Hc1, length_app. cbn [length].
    destruct (ss_rtt_us s1) as [|a la]; [done|]. destruct (ss_offset_us s1) as [|b lb]; [done|].
    replace (Z.to_nat _) with (S (Nat.min (length xs) 7)) by lia. reflexivity. }
  destruct (best_sample_spec (drop 1 (sync_rows s1)) (nth 0 (ss_rtt_us s1) 0) (nth 0 (ss_offset_us s1) 0))
    as [Hin Hle].
  rewrite <- Hrows in Hin, Hle. destruct (best_sample _ _ _) as [r best]. cbn [fst] in Hle.
  split_and!; [|done|by exists r]. by destruct Hf.
Qed.

Lemma foldl_snoc {A B} (f : A -> B -> A) a l x : foldl f a (l ++ [x]) = f (foldl f a l) x.
Proof. by rewrite foldl_app. Qed.

(** (C34) The clock offset the probe works with is right: if the encoder's clock is ahead by a
    constant, then after any number of exchanges with any delays the offset chosen errs by no more
    than half the round trip, plus half a microsecond, of the fastest of the last eight exchanges,
    whatever the wrap-around of the ring and of the 64-bit differences. *)
Theorem clock_offset_accurate theta xs :
  Forall (ex_ok theta) xs -> xs <> [] ->
  let s := foldl (sync_exchange theta) sync_zero xs in
  ss_valid s = true /\
  exists x, In x (last_n 8 xs) /\ (forall y, In y (last_n 8 xs) -> ex_rtt x <= ex_rtt y) /\
    2 * Z.abs (ss_best_offset_us s - theta) <= ex_rtt x + 1.
Proof.
  intros Hxs Hne. destruct (exists_last Hne) as (ys & x & ->). rewrite foldl_snoc.
  apply Forall_app in Hxs as [Hys Hx]. apply Forall_cons_1 in Hx as [Hx _].
  assert (filtered theta ys (foldl (sync_exchange theta) sync_zero ys)) as Hf.
  { clear Hne Hx x. induction ys as [|y ys IH] using rev_ind; [apply filtered_zero|].
    apply Forall_app in Hys as [Hys Hy]. apply Forall_cons_1 in Hy as [Hy _]. rewrite foldl_snoc.
    exact (proj1 (filtered_record _ _ _ _ (IH Hys) Hy)). }
  destruct (filtered_record _ _ _ _ Hf Hx) as (Hf' & Hv & r & Hin & Hle). split; [done|].
  apply (filtered_rows _ _ _ _ Hf') in Hin as (z & Hz & [= -> Hb]).
  exists z. split; [done|]. split.
  - intros y Hy. apply (Hle (ex_rtt y, ex_offset theta y)), (filtered_rows _ _ _ _ Hf'). by exists y.
  - rewrite Hb. apply offset_error. rewrite Forall_forall in Hys. unfold last_n in Hz.
    assert (In z (ys ++ [x])) as Hin by (rewrite <- (take_drop (length (ys ++ [x]) - 8) (ys ++ [x])); apply in_or_app; by right).
    apply in_app_or in Hin as [Hin|[<-|[]]]; [|done]. by apply Hys, list_elem_of_In.
Qed.

Definition sample_exchanges : list Exchange :=
  map (fun d => Build_Exchange (1000000 * d) (200 + 37 * d) 50 (900 - 11 * d)) [1; 2; 3; 4; 5; 6; 7; 8; 9; 10].

Lemma clock_offset_accurate_witness :
  exists x, In x (last_n 8 sample_exchanges) /\
    2 * Z.abs (ss_best_offset_us (foldl (sync_exchange (-5000)) sync_zero sample_exchanges) - (-5000)) <= ex_rtt x + 1.
Proof.
  destruct (clock_offset_accurate (-5000) sample_exchanges) as (_ & x & Hx & _ & Hb).
  - repeat (apply Forall_cons; split; [repeat split; vm_compute; (reflexivity || discriminate)|]). constructor.
  - discriminate.
  - exists x. split; [exact Hx|exact Hb].
Defined.

(** ** A frame and its line *)

Section Frame.
Context {ABI : CAbi}.


(** What the encoder tells about a frame. *)
Record EncInfo := Build_EncInfo {
  en_frame_size : Z; en_frame_type : Z; en_qp : Z; en_complexity : Z; en_scene_change : Z;
  en_gop_state : Z; en_idr_inserted : Z; en_frames_since_idr : Z }.
Record Meta := Build_Meta {
  me_ssrc : Z; me_ts : Z; me_frame_id : Z; me_ready_us : Z; me_seq_first : Z; me_seq_count : Z;
  me_capture_us : Z; me_last_send_us : Z; me_enc : option EncInfo }.

Definition enc_bytes (e : EncInfo) : list Z :=
  be32_bytes (en_frame_size e) ++ [en_frame_type e; en_qp e; en_complexity e; en_scene_change e;
    en_gop_state e; en_idr_inserted e] ++ be16_bytes (en_frames_since_idr e).

(** The message, as [shared/rtp_sidecar.h] lays it out. *)
Definition meta_bytes (m : Meta) : list Z :=
  be32_bytes RTP_SIDECAR_MAGIC ++
  [RTP_SIDECAR_VERSION; RTP_SIDECAR_MSG_FRAME; 0; match me_enc m with Some _ => 2 | None => 0 end] ++
  be32_bytes (me_ssrc m) ++ be32_bytes (me_ts m) ++ be64_bytes (me_frame_id m) ++ be64_bytes (me_ready_us m) ++
  be16_bytes (me_seq_first m) ++ be16_bytes (me_seq_count m) ++ be64_bytes (me_capture_us m) ++
  be64_bytes (me_last_send_us m) ++ match me_enc m with Some e => enc_bytes e | None => [] end.

Definition enc_ok (e : EncInfo) : Prop :=
  0 <= en_frame_size e < 2 ^ 32 /\ 0 <= en_frames_since_idr e < 2 ^ 16.
Definition meta_ok (m : Meta) : Prop :=
  0 <= me_ssrc m < 2 ^ 32 /\ 0 <= me_ts m < 2 ^ 32 /\ 0 <= me_frame_id m < 2 ^ 64 /\
  0 <= me_ready_us m < 2 ^ 64 /\ 0 <= me_seq_first m < 2 ^ 16 /\ 0 <= me_seq_count m < 2 ^ 16 /\
  0 <= me_capture_us m < 2 ^ 64 /\ 0 <= me_last_send_us m < 2 ^ 64 /\
  match me_enc m with Some e => enc_ok e | None => True end.

(** The entry it must make. *)
Definition meta_entry (m : Meta) (recv_us : Z) : CacheEntry :=
  let enc f := match me_enc m with Some e => f e | None => 0 end in
  Build_CacheEntry (me_ssrc m) (me_ts m) (me_frame_id m) (me_capture_us m) (me_ready_us m)
    (me_last_send_us m) (enc en_frame_size) (me_seq_first m) (me_seq_count m)
    (enc en_frames_since_idr) (enc en_frame_type) (enc en_qp) (enc en_complexity)
    (enc en_scene_change) (enc en_gop_state) (enc en_idr_inserted)
    (match me_enc m with Some _ => true | None => false end) recv_us true.

Lemma be64_join x : 0 <= x < 2 ^ 64 ->
  Z.lor (Z.shiftl
    (Z.lor (Z.shiftl (u8 (Z.shiftr (Z.shiftr x 32) 24)) 24)
      (Z.lor (Z.shiftl (u8 (Z.shiftr (Z.shiftr x 32) 16)) 16)
        (Z.lor (Z.shiftl (u8 (Z.shiftr (Z.shiftr x 32) 8)) 8) (u8 (Z.shiftr x 32))))) 32)
    (Z.lor (Z.shiftl (u8 (Z.shiftr x 24)) 24)
      (Z.lor (Z.shiftl (u8 (Z.shiftr x 16)) 16)
        (Z.lor (Z.shiftl (u8 (Z.shiftr x 8)) 8) (u8 x)))) = x.
Proof.
  intros H. rewrite !be32_wrap. rewrite u32_small.
  - by apply split_bits.
  - rewrite Z.shiftr_div_pow2 by lia. split; [apply Z.div_pos; lia|].
    apply Z.div_lt_upper_bound; lia.
Qed.

Lemma frame_entry_meta m recv : meta_ok m -> frame_entry (meta_bytes m) recv = meta_entry m recv.
Proof.
  intros (H1 & H2 & H3 & H4 & H5 & H6 & H7 & H8 & He). unfold frame_entry, meta_entry.
  destruct m as [ssrc ts id ready sf sc cap last enc]. cbn [me_ssrc me_ts me_frame_id me_ready_us me_seq_first
    me_seq_count me_capture_us me_last_send_us me_enc] in *.
  unfold be64_at, be32_at, be16_at, byte_at, meta_bytes. cbn [me_ssrc me_ts me_frame_id me_ready_us me_seq_first
    me_seq_count me_capture_us me_last_send_us me_enc].
  destruct enc as [e|].
  - destruct He as [Hs Hf]. unfold enc_bytes, be64_bytes, be32_bytes, be16_bytes.
    cbn [app nth Nat.add length]. rewrite !be64_join by done.
    rewrite !be32_wrap, !be16_roundtrip by done. rewrite !u32_small by done.
    change (Z.testbit 2 1 && (RtpSidecarFrameExt_size <=? Z.of_nat 64)) with true. reflexivity.
  - unfold be64_bytes, be32_bytes, be16_bytes.
    cbn [app nth Nat.add length]. rewrite !be64_join by done.
    rewrite !be32_wrap, !be16_roundtrip by done. rewrite !u32_small by done.
    change (Z.testbit 0 1) with false. reflexivity.
Qed.

Lemma meta_length m : Z.of_nat (length (meta_bytes m)) = match me_enc m with Some _ => 64 | None => 52 end.
Proof. unfold meta_bytes. by destruct (me_enc m). Qed.

Lemma index_range ssrc ts : (cache_index ssrc ts < 64)%nat.
Proof.
  unfold cache_index. change (SIDECAR_CACHE_SIZE - 1) with (Z.ones 6). rewrite Z.land_ones by lia.
  pose proof (Z.mod_pos_bound (Z.lxor ssrc ts) (2 ^ 6) ltac:(lia)). lia.
Qed.

(** A stored message is found until its slot is used again. *)
Lemma store_lookup cache m recv : length cache = 64%nat -> meta_ok m ->
  let cache' := cache_store_frame cache (meta_bytes m) recv in
  cache_lookup cache' (me_ssrc m) (me_ts m) = Some (meta_entry m recv) /\ length cache' = 64%nat.
Proof.
  intros Hl Hm. unfold cache_store_frame, cache_lookup. rewrite frame_entry_meta by done.
  cbn [meta_entry ce_ssrc ce_rtp_ts]. split; [|by rewrite length_insert].
  pose proof (index_range (me_ssrc m) (me_ts m)). rewrite nth_lookup, list_lookup_insert_eq by lia.
  cbn [default from_option ce_valid ce_ssrc ce_rtp_ts meta_entry]. by rewrite !Z.eqb_refl.
Qed.

Lemma on_meta m recv p : meta_ok m ->
  exists ps, on_sidecar_packet (meta_bytes m) recv p =
    (p <| pr_cache := cache_store_frame (pr_cache p) (meta_bytes m) recv |> <| pr_ps := ps |>, []).
Proof.
  intros Hm. pose proof (meta_length m) as Hl. unfold on_sidecar_packet.
  rewrite take_ge by (unfold MAX_PKT; destruct (me_enc m); lia).
  assert (be32_at (meta_bytes m) 0 = RTP_SIDECAR_MAGIC) as -> by reflexivity.
  change (byte_at (meta_bytes m) 4) with RTP_SIDECAR_VERSION.
  change (byte_at (meta_bytes m) 5) with RTP_SIDECAR_MSG_FRAME. rewrite !Z.eqb_refl.
  destruct (Z.geb_spec (Z.of_nat (length (meta_bytes m))) 6); [|destruct (me_enc m); lia].
  destruct (Z.geb_spec (Z.of_nat (length (meta_bytes m))) RtpSidecarFrame_size) as [_|];
    [|unfold RtpSidecarFrame_size in *; destruct (me_enc m); lia].
  cbn [andb negb]. eexists. reflexivity.
Qed.

(** A packet of a frame: its sequence number before it is cut to 16 bits, its payload type and
    payload, and when it comes. *)
Record Packet := Build_Packet { pk_seq : Z; pk_type : Z; pk_payload : list Z; pk_recv : Z }.

Definition rtp_bytes (ssrc ts : Z) (marker : bool) (k : Packet) : list Z :=
  [128; (if marker then 128 else 0) + pk_type k] ++ be16_bytes (u16 (pk_seq k)) ++ be32_bytes ts ++
  be32_bytes ssrc ++ pk_payload k.

Definition packet_ok (k : Packet) : Prop :=
  0 <= pk_seq k /\ 0 <= pk_type k < 128 /\ (length (pk_payload k) <= 2036)%nat.

(** The packets of a frame arrive in order; between two of them fewer than 65536 are missing. *)
Fixpoint in_order (s : Z) (ks : list Packet) : Prop :=
  match ks with
  | [] => True
  | k :: ks => s < pk_seq k <= s + 65536 /\ packet_ok k /\ in_order (pk_seq k) ks
  end.

Definition last_packet (k : Packet) (ks : list Packet) : Packet := List.last ks k.

(** The packets [k :: ks] come in; the last one has the marker bit. *)
Fixpoint rtp_feed (mem : bool) (ssrc ts : Z) (k : Packet) (ks : list Packet) (p : Probe) : Probe * list ProbeEv :=
  match ks with
  | [] => on_rtp_packet mem (rtp_bytes ssrc ts true k) (pk_recv k) p
  | k' :: ks =>
      let '(p, es) := on_rtp_packet mem (rtp_bytes ssrc ts false k) (pk_recv k) p in
      let '(p, es') := rtp_feed mem ssrc ts k' ks p in (p, es ++ es')
  end.

(** What the accumulator must hold at the end: the packets missing between the first and the
    last one are the numbers they span less the packets seen. *)
Definition frame_accum (ssrc ts : Z) (k : Packet) (ks : list Packet) : FrameAccum :=
  let l := last_packet k ks in
  Build_FrameAccum true ssrc ts (u16 (pk_seq k)) (u16 (pk_seq l))
    (pk_seq l - pk_seq k - Z.of_nat (length ks)) (pk_recv k) (pk_recv l).

Lemma parse_rtp ssrc ts marker k : packet_ok k -> 0 <= ssrc < 2 ^ 32 -> 0 <= ts < 2 ^ 32 ->
  rtp_parse (take MAX_PKT (rtp_bytes ssrc ts marker k)) =
    Some (Build_RtpHdr 128 ((if marker then 128 else 0) + pk_type k) (u16 (pk_seq k)) ts ssrc).
Proof.
  intros (_ & _ & Hl) Hs Ht. rewrite take_ge.
  2:{ unfold rtp_bytes, MAX_PKT, be16_bytes, be32_bytes. cbn [app length]. lia. }
  unfold rtp_parse. rewrite (proj2 (Z.ltb_ge _ _)).
  2:{ unfold rtp_bytes, be16_bytes, be32_bytes. cbn [app length]. lia. }
  unfold rtp_bytes, be32_at, be16_at, byte_at, be16_bytes, be32_bytes. cbn [app nth Nat.add].
  rewrite be16_roundtrip by (apply (wrap_bound 16); lia). rewrite !be32_roundtrip by done. reflexivity.
Qed.

Lemma marker_bit (marker : bool) t : 0 <= t < 128 ->
  negb (Z.land (Z.shiftr ((if marker then 128 else 0) + t) 7) 1 =? 0) = marker.
Proof.
  intros Ht. rewrite Z.shiftr_div_pow2 by lia. change (2 ^ 7) with 128. destruct marker.
  - replace (128 + t) with (t + 1 * 128) by lia. rewrite Z.div_add, Z.div_small by lia. reflexivity.
  - rewrite Z.add_0_l, Z.div_small by lia. reflexivity.
Qed.

(** One more packet of the open frame. *)
Lemma accum_next ssrc ts s0 s gaps r0 r k h : 0 <= gaps -> 0 <= s ->
  s < pk_seq k <= s + 65536 -> gaps + (pk_seq k - s - 1) < 2 ^ 32 -> seq h = u16 (pk_seq k) ->
  accum_packet (Build_FrameAccum true ssrc ts s0 (u16 s) gaps r0 r) h (pk_recv k) =
    Build_FrameAccum true ssrc ts s0 (u16 (pk_seq k)) (gaps + (pk_seq k - s - 1)) r0 (pk_recv k).
Proof.
  intros Hg Hs Hk Hb Hh. unfold accum_packet. cbn [fa_active negb fa_seq_last fa_gaps fa_ssrc fa_rtp_ts fa_seq_first fa_recv_first_us].
  rewrite Hh. set (d := pk_seq k - s - 1) in *.
  assert (u16 (u16 s + 1) = u16 (s + 1)) as -> by (unfold u16, wrap; apply Zplus_mod_idemp_l).
  assert (u16 (u16 (pk_seq k) - u16 (s + 1)) = d) as Hd.
  { unfold u16, wrap. rewrite <- Zminus_mod. rewrite Z.mod_small; subst d; lia. }
  f_equal. destruct (Z.eqb_spec (u16 (pk_seq k)) (u16 (s + 1))) as [E|E]; cbn [negb].
  - rewrite E, Z.sub_diag in Hd. change (u16 0) with 0 in Hd. lia.
  - rewrite Hd. apply u32_small. lia.
Qed.

(** The probe with a frame open. *)
Definition opened (p : Probe) (fa : FrameAccum) : Probe := p <| pr_fa := fa |>.

(** The line of a frame, and the state behind it. *)
Definition reports (p : Probe) (fa : FrameAccum) (r : Probe * list ProbeEv) : Prop :=
  r.2 = [PeLine (emit_frame (pr_frame_no p) fa (cache_lookup (pr_cache p) (fa_ssrc fa) (fa_rtp_ts fa))
           (pr_prev_frame_ready p) (pr_prev_recv_first p) (pr_ss p))] /\
  (fa_active (pr_fa r.1) = false /\
   pr_prev_recv_first r.1 = fa_recv_first_us fa /\
   pr_prev_frame_ready r.1 = match cache_lookup (pr_cache p) (fa_ssrc fa) (fa_rtp_ts fa) with
                             | Some e => ce_frame_ready_us e | None => pr_prev_frame_ready p end) /\
  pr_frame_no r.1 = ulong (pr_frame_no p + 1).

Lemma rtp_last mem ssrc ts k p fa : packet_ok k -> 0 <= ssrc < 2 ^ 32 -> 0 <= ts < 2 ^ 32 ->
  (forall h, seq h = u16 (pk_seq k) -> rtp_ssrc h = ssrc -> timestamp h = ts ->
     accum_packet (pr_fa p) h (pk_recv k) = fa) ->
  reports p fa (on_rtp_packet mem (rtp_bytes ssrc ts true k) (pk_recv k) p).
Proof.
  intros Hk Hs Ht Hfa. unfold on_rtp_packet. rewrite parse_rtp by done.
  cbn [m_pt]. rewrite (marker_bit true) by apply Hk. rewrite Hfa by done. by split_and!.
Qed.

Lemma rtp_open mem ssrc ts k p fa : packet_ok k -> 0 <= ssrc < 2 ^ 32 -> 0 <= ts < 2 ^ 32 ->
  (forall h, seq h = u16 (pk_seq k) -> rtp_ssrc h = ssrc -> timestamp h = ts ->
     accum_packet (pr_fa p) h (pk_recv k) = fa) ->
  on_rtp_packet mem (rtp_bytes ssrc ts false k) (pk_recv k) p = (opened p fa, []).
Proof.
  intros Hk Hs Ht Hfa. unfold on_rtp_packet. rewrite parse_rtp by done.
  cbn [m_pt]. rewrite (marker_bit false) by apply Hk. by rewrite Hfa by done.
Qed.

Lemma seq_grows s ks k : in_order s ks -> s <= pk_seq (List.last ks k) \/ ks = [].
Proof.
  revert s k. induction ks as [|k' ks IH]; intros s k; [by right|]. intros (H1 & _ & H2). left.
  destruct ks as [|k2 ks]; [cbn; lia|]. destruct (IH (pk_seq k') k H2) as [H|H]; [|done].
  change (List.last (k' :: k2 :: ks) k) with (List.last (k2 :: ks) k). lia.
Qed.

Lemma last_default {A} (x : A) l d d' : List.last (x :: l) d = List.last (x :: l) d'.
Proof. revert x. induction l as [|y l IH]; intros x; [done|]. apply (IH y). Qed.

Lemma rtp_rest mem ssrc ts s0 r0 ks : 0 <= ssrc < 2 ^ 32 -> 0 <= ts < 2 ^ 32 ->
  forall k p gaps s r, 0 <= gaps -> 0 <= s -> in_order s (k :: ks) ->
  gaps + (pk_seq (last_packet k ks) - s) < 2 ^ 32 ->
  reports (opened p (Build_FrameAccum true ssrc ts s0 (u16 s) gaps r0 r))
    (Build_FrameAccum true ssrc ts s0 (u16 (pk_seq (last_packet k ks)))
       (gaps + (pk_seq (last_packet k ks) - s - Z.of_nat (length ks) - 1)) r0 (pk_recv (last_packet k ks)))
    (rtp_feed mem ssrc ts k ks (opened p (Build_FrameAccum true ssrc ts s0 (u16 s) gaps r0 r))).
Proof.
  intros Hs Ht. induction ks as [|k' ks IH]; intros k p gaps s r Hg Hs0 (Hk & Hok & Ho) Hb; cbn [rtp_feed].
  - apply rtp_last; [done..|]. intros h Hh _ _. unfold last_packet in *. cbn [List.last length] in *.
    cbn [opened pr_fa set_field]. rewrite (accum_next _ _ _ s) by (done || lia). f_equal. lia.
  - assert (last_packet k (k' :: ks) = last_packet k' ks) as El.
    { unfold last_packet. destruct ks as [|k2 ks]; [done|]. exact (last_default k2 ks k k'). }
    rewrite El in *. pose proof Ho as Ho'. destruct Ho' as (Hk' & _ & Ho2).
    assert (pk_seq k' <= pk_seq (last_packet k' ks)) as Hle.
    { unfold last_packet. destruct (seq_grows (pk_seq k') ks k' Ho2) as [H|H]; [done|]. subst ks. done. }
    rewrite (rtp_open mem ssrc ts k _ (Build_FrameAccum true ssrc ts s0 (u16 (pk_seq k)) (gaps + (pk_seq k - s - 1)) r0 (pk_recv k)));
      [|done..|].
    2:{ intros h Hh _ _. cbn [opened pr_fa set_field]. apply accum_next; (done || lia). }
    specialize (IH k' p (gaps + (pk_seq k - s - 1)) (pk_seq k) (pk_recv k) ltac:(lia) ltac:(lia) Ho ltac:(lia)).
    change (opened (opened p ?a) ?b) with (opened p b).
    destruct (rtp_feed _ _ _ _ _ _) as [p2 es]. cbn [app]. 
    replace (gaps + (pk_seq (last_packet k' ks) - s - Z.of_nat (length (k' :: ks)) - 1)) with
      (gaps + (pk_seq k - s - 1) + (pk_seq (last_packet k' ks) - pk_seq k - Z.of_nat (length ks) - 1)) by (cbn [length]; lia).
    exact IH.
Qed.

(** *** The line of a frame *)

(** The table's row for the frame of the message [m] and the packets [k :: ks], heading by
    heading; [no] numbers the lines, [ready] and [first] are the times of the frame before. *)
Definition frame_row (no : Z) (m : Meta) (recv : Z) (k : Packet) (ks : list Packet) (ready first : Z)
    (ss : SyncState) : list (string * string) :=
  let last := last_packet k ks in
  let nonzero v := if v =? 0 then "-"%string else pretty v in
  let enc f := match me_enc m with Some e => pretty (f e : Z) | None => "-"%string end in
  [("# frame_no", pretty no); ("ssrc", hex_digits 8 (me_ssrc m)); ("rtp_ts", pretty (me_ts m));
   ("seq_first", pretty (u16 (pk_seq k))); ("seq_last", pretty (u16 (pk_seq last)));
   ("seq_count", pretty (me_seq_count m));
   ("gaps", pretty (pk_seq last - pk_seq k - Z.of_nat (length ks)));
   ("frame_id", pretty (me_frame_id m));
   ("frame_size_bytes", enc en_frame_size); ("frame_type", enc en_frame_type); ("qp", enc en_qp);
   ("complexity", enc en_complexity); ("scene_change", enc en_scene_change);
   ("gop_state", enc en_gop_state); ("idr_inserted", enc en_idr_inserted);
   ("frames_since_idr", enc en_frames_since_idr);
   ("capture_us", nonzero (me_capture_us m)); ("frame_ready_us", nonzero (me_ready_us m));
   ("last_pkt_send_us", nonzero (me_last_send_us m)); ("meta_recv_us", nonzero recv);
   ("recv_first_us", pretty (pk_recv k)); ("recv_last_us", pretty (pk_recv last));
   ("sender_ivl_us", if ready =? 0 then "-" else nonzero (u64 (me_ready_us m - ready)));
   ("recv_ivl_us", if first =? 0 then "-" else nonzero (u64 (pk_recv k - first)));
   ("encode_dur_us", if (me_capture_us m =? 0) || (me_ready_us m <=? me_capture_us m) then "-"
                     else pretty (me_ready_us m - me_capture_us m));
   ("send_spread_us", if me_last_send_us m <=? me_ready_us m then "-"
                      else pretty (me_last_send_us m - me_ready_us m));
   ("latency_est_us", if ss_valid ss
                      then pretty (i64 (pk_recv last - me_ready_us m + ss_best_offset_us ss))
                      else "-")].

Definition row_text (row : list (string * string)) : string :=
  (String.concat (str1 TAB) (map snd row) ++ str1 LF)%string.

Lemma tab_join_concat cols : tab_join cols = String.concat (str1 TAB) cols.
Proof. induction cols as [|c [|c' cols] IH]; [done..|].
  change (tab_join (c :: c' :: cols)) with (c ++ TABS ++ tab_join (c' :: cols))%string. by rewrite IH.
Qed.

Lemma i64_latency a b c : i64 (i64 a - i64 (i64 b - c)) = i64 (a - b + c).
Proof.
  assert (E : forall x y, u64 x = u64 y -> i64 x = i64 y) by (intros x y; unfold i64, u64, swrap; by intros ->).
  assert (W : forall x, i64 x mod 2 ^ 64 = x mod 2 ^ 64).
  { intros x. unfold i64, swrap, wrap. change (64 - 1) with 63. destruct (_ <? _); [by rewrite Z.mod_mod|].
    by rewrite Zminus_mod, Z_mod_same_full, Z.sub_0_r, !Z.mod_mod. }
  apply E. unfold u64, wrap. rewrite Zminus_mod, !W, <- Zminus_mod.
  replace (a - (i64 b - c)) with (a + c - i64 b) by lia.
  rewrite Zminus_mod, W, <- Zminus_mod. f_equal. lia.
Qed.

Lemma row_reported no m recv k ks ready first ss : meta_ok m ->
  emit_frame no (frame_accum (me_ssrc m) (me_ts m) k ks) (Some (meta_entry m recv)) ready first ss =
    row_text (frame_row no m recv k ks ready first ss).
Proof.
  intros (_ & _ & _ & Hr & _ & _ & Hc & Hs & _). unfold emit_frame, row_text. rewrite tab_join_concat.
  do 2 f_equal. unfold frame_columns, frame_row, col_of, col_enc, sender_ivl, encode_dur, send_spread,
    latency_est, col_u64, dash, frame_accum, meta_entry.
  cbn [map snd fa_ssrc fa_rtp_ts fa_seq_first fa_seq_last fa_gaps fa_recv_first_us fa_recv_last_us
    ce_seq_count ce_frame_id ce_capture_us ce_frame_ready_us ce_last_pkt_send_us ce_meta_recv_us
    ce_has_enc_info ce_frame_size_bytes ce_frame_type ce_qp ce_complexity ce_scene_change ce_gop_state
    ce_idr_inserted ce_frames_since_idr].
  rewrite i64_latency. repeat (apply (f_equal2 (@cons string)); [try by destruct (me_enc m)|]); try done.
  all: try by destruct (_ =? 0).
  - destruct (ready =? 0); [done|]. cbn [negb]. by destruct (u64 _ =? 0).
  - destruct (first =? 0); [done|]. cbn [negb]. by destruct (u64 _ =? 0).
  - destruct (Z.eqb_spec (me_capture_us m) 0); [done|]. cbn [negb andb orb].
    destruct (Z.gtb_spec (me_ready_us m) (me_capture_us m)), (Z.leb_spec (me_ready_us m) (me_capture_us m));
      try lia; [|done]. rewrite u64_small by lia.
    by destruct (Z.eqb_spec (me_ready_us m - me_capture_us m) 0); [lia|].
  - destruct (Z.gtb_spec (me_last_send_us m) (me_ready_us m)), (Z.leb_spec (me_last_send_us m) (me_ready_us m));
      try lia; [|by rewrite andb_false_r].
    destruct (Z.eqb_spec (me_last_send_us m) 0); [lia|]. cbn [negb andb]. rewrite u64_small by lia.
    by destruct (Z.eqb_spec (me_last_send_us m - me_ready_us m) 0); [lia|].
  - by destruct (ss_valid ss).
Qed.


End Frame.

#[local] Existing Instance abi_lp64.

Definition sample_meta : Meta :=
  Build_Meta 0xCAFE 90000 7 5000000 65534 5 4990000 5001200 (Some (Build_EncInfo 12345 1 30 40 0 2 1 9)).
Definition sample_packet (s r : Z) : Packet := Build_Packet s 96 [1; 2; 3] r.


(** ** The subscription *)

Section Subscription.
Context {ABI : CAbi}.

Lemma sync_step_keeps now t1 p : pr_last_subscribe (sync_step now t1 p).1 = pr_last_subscribe p.
Proof. unfold sync_step. by destruct (_ >=? _). Qed.

Lemma sidecar_keeps b ts p : pr_last_subscribe (on_sidecar_packet b ts p).1 = pr_last_subscribe p.
Proof. unfold on_sidecar_packet. by repeat case_match. Qed.

Lemma rtp_keeps mem b ts p : pr_last_subscribe (on_rtp_packet mem b ts p).1 = pr_last_subscribe p.
Proof. unfold on_rtp_packet. destruct (rtp_parse _); [|done]. by destruct (negb _). Qed.

Lemma socket_keeps f d p : (forall b ts p, pr_last_subscribe (f b ts p).1 = pr_last_subscribe p) ->
  pr_last_subscribe (on_socket f d p).1 = pr_last_subscribe p.
Proof. intros Hf. destruct d as [[b ts]|]; [apply Hf|done]. Qed.

Definition is_subscribe (e : ProbeEv) : bool :=
  match e with PeSend b => bool_decide (b = sidecar_head RTP_SIDECAR_MSG_SUBSCRIBE) | _ => false end.

(** A turn subscribes, or the last subscription is young. *)
Lemma turn_subscribes p t : 0 <= pr_last_subscribe p <= tn_now t -> tn_now t < 2 ^ 63 ->
  (pr_last_subscribe (probe_turn p t).1 = tn_now t /\ existsb is_subscribe (probe_turn p t).2 = true) \/
  (pr_last_subscribe (probe_turn p t).1 = pr_last_subscribe p /\
   tn_now t - pr_last_subscribe p < SUBSCRIBE_INTERVAL_US).
Proof.
  intros Hl Hn. unfold probe_turn.
  assert (forall p1 es1, subscribe_step (tn_now t) p = (p1, es1) ->
    (pr_last_subscribe p1 = tn_now t /\ existsb is_subscribe es1 = true) \/
    (pr_last_subscribe p1 = pr_last_subscribe p /\ tn_now t - pr_last_subscribe p < SUBSCRIBE_INTERVAL_US)) as Hstep.
  { unfold subscribe_step. rewrite u64_small by lia. intros p1 es1.
    destruct (Z.geb_spec (tn_now t - pr_last_subscribe p) SUBSCRIBE_INTERVAL_US); intros [= <- <-].
    - left. split; [done|]. cbn [existsb]. unfold is_subscribe, send_subscribe. by rewrite bool_decide_eq_true_2.
    - right. split; [done|lia]. }
  destruct (subscribe_step _ p) as [p1 es1]. specialize (Hstep _ _ eq_refl).
  pose proof (sync_step_keeps (tn_now t) (tn_t1 t) p1) as H2.
  destruct (sync_step _ _ p1) as [p2 es2]. cbn [fst] in H2.
  assert (forall p' es', pr_last_subscribe p' = pr_last_subscribe p1 ->
    (pr_last_subscribe p' = tn_now t /\ existsb is_subscribe (es1 ++ es') = true) \/
    (pr_last_subscribe p' = pr_last_subscribe p /\ tn_now t - pr_last_subscribe p < SUBSCRIBE_INTERVAL_US)) as Hend.
  { intros p' es' ->. rewrite existsb_app. destruct Hstep as [[-> ->]|H]; [by left|by right]. }
  destruct (tn_ready t) as [[sidecar rtp]|]; [|by apply Hend].
  pose proof (socket_keeps on_sidecar_packet sidecar p2 sidecar_keeps) as H3.
  destruct (on_socket on_sidecar_packet sidecar p2) as [p3 es3]. cbn [fst] in H3.
  pose proof (socket_keeps (on_rtp_packet (tn_mem t)) rtp p3 (rtp_keeps _)) as H4.
  destruct (on_socket _ rtp p3) as [p4 es4]. cbn [fst] in H4. apply (Hend p4 (es2 ++ es3 ++ es4)). by rewrite H4, H3, H2.
Qed.

(** When the probe subscribes. *)
Fixpoint subscribed_at (p : Probe) (ts : list Turn) : list Z :=
  match ts with
  | [] => []
  | t :: ts => (if existsb is_subscribe (probe_turn p t).2 then [tn_now t] else []) ++
               subscribed_at (probe_turn p t).1 ts
  end.

(** The turns follow each other within a second; [select] waits at most 200 ms. *)
Fixpoint paced (now : Z) (ts : list Turn) : Prop :=
  match ts with
  | [] => True
  | t :: ts => now <= tn_now t <= now + 1000000 /\ tn_now t < 2 ^ 63 /\ paced (tn_now t) ts
  end.

Lemma subscribed_run ts : forall now p i t, 0 <= pr_last_subscribe p <= now -> paced now ts -> ts !! i = Some t ->
  (exists s, In s (subscribed_at p (take (S i) ts)) /\ s <= tn_now t /\ tn_now t - s < SUBSCRIBE_INTERVAL_US) \/
  tn_now t - pr_last_subscribe p < SUBSCRIBE_INTERVAL_US.
Proof.
  induction ts as [|t0 ts IH]; intros now p i t Hl Hp Hi; [done|].
  destruct Hp as (Hn & H63 & Hp). cbn [take subscribed_at].
  pose proof (turn_subscribes p t0 ltac:(lia) H63) as Ht. destruct i as [|i].
  - injection Hi as <-. destruct Ht as [[_ He]|[_ He]]; [left|by right].
    rewrite He. exists (tn_now t0). split; [by left|]. unfold SUBSCRIBE_INTERVAL_US. lia.
  - cbn in Hi. assert (0 <= pr_last_subscribe (probe_turn p t0).1 <= tn_now t0) as Hl'
      by (destruct Ht as [[-> _]|[-> _]]; lia).
    destruct (IH (tn_now t0) (probe_turn p t0).1 i t Hl' Hp Hi) as [(s & Hs & H1 & H2)|H].
    + left. exists s. split; [apply in_or_app; by right|done].
    + destruct Ht as [[Hlast He]|[Hlast _]]; rewrite Hlast in H; [left|by right].
      rewrite He. exists (tn_now t0). split; [by left|]. split; [|done].
      clear -Hp Hi. revert t0 i Hp Hi. induction ts as [|t1 ts IH]; intros t0 i Hp Hi; [done|].
      destruct Hp as (Hn & _ & Hp). destruct i as [|i]; [injection Hi as <-; lia|].
      specialize (IH t1 i Hp Hi). lia.
Qed.

Lemma paced_next ts : forall now i t t', paced now ts -> ts !! i = Some t -> ts !! S i = Some t' ->
  tn_now t' <= tn_now t + 1000000.
Proof.
  induction ts as [|t0 ts IH]; intros now i t t' Hp Hi Hi'; [done|]. destruct Hp as (_ & _ & Hp).
  destruct i as [|i]; [|by eapply IH]. injection Hi as <-. destruct ts as [|t1 ts]; [done|].
  injection Hi' as <-. by destruct Hp as ((_ & ?) & _).
Qed.

(** The encoder never lets the subscription run out while the probe runs: whatever the sockets
    deliver, if the turns of the loop follow each other within a second, at every turn the probe has
    subscribed less than two seconds ago, and the next turn comes before that subscription's
    five seconds are over. *)
Theorem subscription_kept stats now ts i t : SUBSCRIBE_INTERVAL_US <= now -> paced now ts -> ts !! i = Some t ->
  exists s, In s (subscribed_at (probe_init stats) (take (S i) ts)) /\ s <= tn_now t /\
    tn_now t - s < SUBSCRIBE_INTERVAL_US /\
    forall t', ts !! S i = Some t' -> tn_now t' - s < RTP_SIDECAR_SUB_TTL_US.
Proof.
  intros Hn Hp Hi. destruct (subscribed_run ts now (probe_init stats) i t) as [(s & Hs & H1 & H2)|H]; try done.
  - cbn. unfold SUBSCRIBE_INTERVAL_US in Hn. lia.
  - exists s. split_and!; try done. intros t' Hi'. pose proof (paced_next _ _ _ _ _ Hp Hi Hi').
    unfold SUBSCRIBE_INTERVAL_US, RTP_SIDECAR_SUB_TTL_US in *. lia.
  - exfalso. cbn in H. destruct ts as [|t0 ts]; [done|].
    assert (forall ts now i t, paced now ts -> ts !! i = Some t -> now <= tn_now t) as Hle.
    { clear. induction ts as [|t0 ts IH]; intros now i t Hp Hi; [done|]. destruct Hp as (Hn & _ & Hp).
      destruct i as [|i]; [injection Hi as <-; lia|]. specialize (IH _ _ _ Hp Hi). lia. }
    specialize (Hle _ _ _ _ Hp Hi). lia.
Qed.

End Subscription.

Definition idle_turn (now : Z) : Turn := Build_Turn now now None true.
Definition idle_turns : list Turn := map idle_turn [3000000; 3900000; 4800000; 5700000; 6600000].

Lemma subscription_kept_witness : exists s,
  In s (subscribed_at (probe_init false) (take 3 idle_turns)) /\ 4800000 - s < SUBSCRIBE_INTERVAL_US.
Proof.
  destruct (subscription_kept false 3000000 idle_turns 2 (idle_turn 4800000)) as (s & Hs & _ & H & _).
  - vm_compute. discriminate.
  - repeat split; vm_compute; (reflexivity || discriminate).
  - reflexivity.
  - exists s. split; [exact Hs|exact H].
Defined.

(** ** The table *)

Definition cell (s : string) : bool := lacks TAB s && lacks LF s.

Lemma pretty_cell (z : Z) : cell (pretty z) = true.
Proof.
  unfold cell. rewrite andb_true_iff.
  split; (eapply all_chars_impl; [|apply pretty_int_chars]); intros a Ha; unfold int_char, isdigit in Ha;
    destruct a as [[] [] [] [] [] [] [] []]; (reflexivity || (vm_compute in Ha; discriminate)).
Qed.

Lemma hex_digit_cell n : 0 <= n < 16 -> cell (str1 (hex_digit n)) = true.
Proof.
  intros H. assert (forallb (fun k => cell (str1 (hex_digit (Z.of_nat k)))) (List.seq 0 16) = true) as Hall by reflexivity.
  rewrite forallb_forall in Hall. rewrite <- (Z2Nat.id n) by lia. apply Hall, in_seq. lia.
Qed.

Lemma hex_cell n x : cell (hex_digits n x) = true.
Proof.
  induction n as [|n IH]; [done|]. cbn [hex_digits]. set (d := Z.land _ 15).
  assert (0 <= d < 16) as Hd.
  { subst d. change 15 with (Z.ones 4). rewrite Z.land_ones by lia. apply Z.mod_pos_bound. lia. }
  apply hex_digit_cell in Hd. unfold cell, lacks in *. cbn [all_chars str1] in *.
  rewrite !andb_true_iff in *. destruct IH, Hd as [[] []]. by split_and!.
Qed.

Lemma dash_cell : cell dash = true.
Proof. reflexivity. Qed.

Lemma col_u64_cell v : cell (col_u64 v) = true.
Proof. unfold col_u64. destruct (negb _); [apply pretty_cell|reflexivity]. Qed.

Lemma col_of_cell ce f : (forall e, cell (f e) = true) -> cell (col_of ce f) = true.
Proof. intros Hf. destruct ce; [apply Hf|reflexivity]. Qed.

Lemma col_enc_cell ce f : cell (col_enc ce f) = true.
Proof. destruct ce as [e|]; [|reflexivity]. cbn. destruct (ce_has_enc_info e); [apply pretty_cell|reflexivity]. Qed.

Create HintDb cells.
#[local] Hint Resolve pretty_cell hex_cell dash_cell col_u64_cell col_of_cell col_enc_cell : cells.

(** Every line is a row of the table the header announces: as many columns, none of which holds
    a tab or a line feed. *)
Theorem line_is_row frame_no fa ce ready first ss :
  let cols := frame_columns frame_no fa ce ready first ss in
  length cols = length header_columns /\ Forall (fun c => cell c = true) cols /\
  emit_frame frame_no fa ce ready first ss = (tab_join cols ++ str1 LF)%string.
Proof.
  split_and!; [reflexivity| |reflexivity]. unfold frame_columns.
  repeat (apply Forall_cons; split; [auto with cells|]).
  - destruct (latency_est fa ce ss); auto with cells.
  - constructor.
Qed.

(** ** Percentiles *)

Lemma insert_permutes v l : Permutation (insert_sorted v l) (v :: l).
Proof.
  induction l as [|x l IH]; [done|]. cbn [insert_sorted]. destruct (v <=? x); [done|].
  rewrite IH. apply perm_swap.
Qed.

Lemma sort_permutes l : Permutation (sort_u64 l) l.
Proof. induction l as [|v l IH]; [done|]. cbn [sort_u64 foldr]. by rewrite insert_permutes, IH. Qed.

Lemma insert_keeps_sorted v l : Sorted Z.le l -> Sorted Z.le (insert_sorted v l).
Proof.
  induction 1 as [|x l Hs IH Hd]; [by repeat constructor|]. cbn [insert_sorted].
  destruct (Z.leb_spec v x); [by repeat constructor|]. constructor; [done|].
  destruct l as [|y l]; cbn [insert_sorted]; [constructor; lia|].
  destruct (v <=? y); constructor; [lia|]. by inversion Hd.
Qed.

Lemma sort_sorts l : Sorted Z.le (sort_u64 l).
Proof. induction l as [|v l IH]; [constructor|]. cbn [sort_u64 foldr]. by apply insert_keeps_sorted. Qed.

(** A percentile the summary prints is one of the values seen, whatever the percentage and
    however the division of doubles rounds. *)
Theorem percentile_seen l pct : l <> [] ->
  In (percentile (sort_u64 l) (Z.of_nat (length l)) pct) l /\ Sorted Z.le (sort_u64 l).
Proof.
  intros Hl. split; [|apply sort_sorts]. unfold percentile.
  destruct (Z.eqb_spec (Z.of_nat (length l)) 0) as [H0|H0]; [by destruct l|].
  eapply Permutation_in; [apply sort_permutes|]. apply nth_In.
  rewrite (Permutation_length (sort_permutes l)). set (idx := f_to_u64 _).
  assert (0 <= idx) by (subst idx; apply f_to_u64_bounds).
  destruct (Z.geb_spec idx (Z.of_nat (length l))); lia.
Qed.

Lemma percentile_seen_witness : In (percentile (sort_u64 [30; 10; 20]) 3 99) [30; 10; 20].
Proof. refine (proj1 (percentile_seen [30; 10; 20] 99 _)). discriminate. Defined.

(** A packet that overtook another counts as almost the whole number space; and a frame whose marker
    is lost is taken together with the next one. *)
Example overtaking_counts :
  fa_gaps (accum_packet (Build_FrameAccum true 1 2 5 6 0 0 0) (Build_RtpHdr 128 96 5 2 1) 9) = 65534.
Proof. reflexivity. Qed.

Example frames_merge :
  let k1 := sample_packet 1 10 in
  let k2 := sample_packet 2 20 in
  let p := (on_rtp_packet true (rtp_bytes 1 100 false k1) 10 (probe_init false)).1 in
  fa_rtp_ts (pr_fa (on_rtp_packet true (rtp_bytes 1 200 true k2) 20 p).1) = 100.
Proof. reflexivity. Qed.
