(* ===== verification/Daemon.v ===== *)
(** * The vehicle daemon

    The state of [main] of [vehicle/link_controller.c] and the timed steps of its loop:
    the deferred MCS drop, the probe producer, the sidecar keepalive, the MCS watchdog and
    the radio poll.  The steps that read datagrams are in [Inputs]. *)

From S2P Require Import Prelude CFloat Config CString Io Net Fec Bitrate Scorer Selector Commit.
From S2P Require Import Wcmd.
From S2P Require Import Recovery Csa.

(** ** State *)

(** [mcs_sf_*]: a SET_RADIO that keeps failing. *)
Record SendFail := Build_SendFail { sf_state : bool; sf_first_us : Z; sf_target_mcs : Z }.
#[export] Instance eta_SendFail : Eta SendFail := fun s =>
  Build_SendFail (sf_state s) (sf_first_us s) (sf_target_mcs s).

(** [last_transport_*] and the back-pressure watchdog. *)
Record Transport := Build_Transport {
  tr_present : bool; tr_fill_pct : Z; tr_in_pressure : bool; tr_drops : Z;
  tr_pressure_drops : Z; tr_pressure_drops_delta : Z; tr_packets_sent : Z; tr_us : Z;
  tr_fec_skipped : Z; tr_skip_since_us : Z; tr_recover_us : Z
}.
#[export] Instance eta_Transport : Eta Transport := fun t => Build_Transport
  (tr_present t) (tr_fill_pct t) (tr_in_pressure t) (tr_drops t) (tr_pressure_drops t)
  (tr_pressure_drops_delta t) (tr_packets_sent t) (tr_us t) (tr_fec_skipped t)
  (tr_skip_since_us t) (tr_recover_us t).

(** The probe producer. *)
Record ProbeTx := Build_ProbeTx {
  pt_feed_open : bool; pt_feed_seq : Z; pt_next_feed_us : Z; pt_tuned_mcs : Z;
  pt_sent_body : RadioBody;
  pt_sent_valid : bool; pt_retry_us : Z; pt_retune_fails : Z; pt_sf_state : bool;
  pt_gate_mcs : Z
}.
#[export] Instance eta_ProbeTx : Eta ProbeTx := fun p => Build_ProbeTx
  (pt_feed_open p) (pt_feed_seq p) (pt_next_feed_us p) (pt_tuned_mcs p) (pt_sent_body p) (pt_sent_valid p)
  (pt_retry_us p) (pt_retune_fails p) (pt_sf_state p) (pt_gate_mcs p).

(** The uplink's diagnostics. *)
Record Uplink := Build_Uplink {
  up_present : bool; up_rx_us : Z; up_scorer : Scorer; up_score : Score;
  up_pkt : Z; up_lost : Z; up_pkt_total : Z; up_lost_total : Z
}.
#[export] Instance eta_Uplink : Eta Uplink := fun u => Build_Uplink
  (up_present u) (up_rx_us u) (up_scorer u) (up_score u) (up_pkt u) (up_lost u)
  (up_pkt_total u) (up_lost_total u).

Record Timers := Build_Timers {
  tm_subscribe_us : Z; tm_radio_us : Z; tm_heartbeat_us : Z; tm_watchdog_us : Z
}.
#[export] Instance eta_Timers : Eta Timers := fun t => Build_Timers
  (tm_subscribe_us t) (tm_radio_us t) (tm_heartbeat_us t) (tm_watchdog_us t).

(** The local variables of [main]: configuration, FEC side, radio, MCS side, command
    channels, telemetry. [d_score] holds the [last_*] values of the last score. *)
Record Daemon := Build_Daemon {
  d_cfg : Config;
  d_ctrl : Controller; d_ring : HeadroomRing; d_fps : FpsEst; d_lw : LastWritten;
  d_stats_seq : Z; d_stats_us : Z; d_stats_stale : bool;
  d_radio : RadioState; d_body : RadioBody; d_body_valid : bool; d_pending : PendingMcsDown;
  d_sel : Selector; d_scorer : Scorer; d_probe : ProbeState; d_emit_mcs : Z; d_sf : SendFail;
  d_score : Score; d_rx_ant_us : Z;
  d_tr : Transport; d_pt : ProbeTx; d_up : Uplink;
  d_wcmd : WcmdState; d_sync : LogSync; d_local_seq : Z; d_rv : RecoveryState;
  d_csa_cfg : CsaCfg; d_csa : CsaState;
  d_tm : Timers
}.

#[export] Instance eta_Daemon : Eta Daemon := fun d => Build_Daemon
  (d_cfg d) (d_ctrl d) (d_ring d) (d_fps d) (d_lw d) (d_stats_seq d) (d_stats_us d)
  (d_stats_stale d) (d_radio d) (d_body d) (d_body_valid d) (d_pending d) (d_sel d)
  (d_scorer d) (d_probe d) (d_emit_mcs d) (d_sf d) (d_score d) (d_rx_ant_us d)
  (d_tr d) (d_pt d) (d_up d) (d_wcmd d) (d_sync d) (d_local_seq d)
  (d_rv d) (d_csa_cfg d) (d_csa d) (d_tm d).

Definition score_zero : Score :=
  Build_Score f0 f0 f0 f0 f0 f0 f0 f0 (-1) f0 0 (replicate 8 f0).

(** The start values of [main]; [boot] is the time the failsafe watchdog is armed with.
    The timers are set by [daemon_boot]. *)
Definition daemon_init (cfg : Config) (csa_cfg : CsaCfg) (boot : Z) : Daemon := {|
  d_cfg := cfg;
  d_ctrl := controller_zero; d_ring := ring_zero; d_fps := fps_zero; d_lw := lw_init;
  d_stats_seq := -1; d_stats_us := 0; d_stats_stale := false;
  d_radio := radio_state_zero; d_body := radio_zero; d_body_valid := false;
  d_pending := pending_mcs_clear pending_zero;
  d_sel := selector_init <| last_datagram_us := boot |>; d_scorer := scorer_reset;
  d_probe := probe_state_init; d_emit_mcs := -1; d_sf := Build_SendFail false 0 (-1);
  d_score := score_zero; d_rx_ant_us := 0;
  d_tr := Build_Transport false 0 false 0 0 0 0 0 0 0 0;
  d_pt := Build_ProbeTx false 0 0 (-1) radio_zero false 0 0 false (-2);
  d_up := Build_Uplink false 0 scorer_reset score_zero 0 0 0 0;
  d_wcmd := wcmd_zero; d_sync := logsync_zero; d_local_seq := 0; d_rv := recovery_zero;
  d_csa_cfg := csa_cfg; d_csa := csa_init;
  d_tm := Build_Timers 0 0 0 0 |}.

(** ** Shared steps *)

(** [radio_apply_observation] on a radio body. *)
Definition observe (d : Daemon) (b : RadioBody) (now : Z) : Daemon :=
  let '(radio, ctrl) :=
    radio_apply_observation (d_radio d) (d_ctrl d) (d_cfg d) (rb_mcs_index b) (rb_bandwidth b)
      (rb_short_gi b) (rb_stbc b) (rb_ldpc b) (rb_vht_mode b) (rb_vht_nss b) now in
  d <| d_radio := radio |> <| d_ctrl := ctrl |>.

Definition sf_clear (d : Daemon) : Daemon :=
  if sf_state (d_sf d) then d <| d_sf := ((d_sf d) <| sf_state := false |>) |> else d.

Definition sf_note (d : Daemon) (target now : Z) : Daemon :=
  if negb (sf_state (d_sf d)) || negb (sf_target_mcs (d_sf d) =? target)
  then d <| d_sf := Build_SendFail true now target |> else d.

Section Steps.
Context {ABI : CAbi} {EV : Env}.

(** [commit_mcs_change] on the daemon's variables. *)
Definition daemon_commit (d : Daemon) (new_mcs now : Z) : IO (Z * Daemon) :=
  let! r := commit_mcs_change (d_cfg d) (d_pending d) (d_body d) new_mcs (d_radio d)
              (d_ctrl d) (d_lw d) now in
  io_ret (cr_rc r, d <| d_pending := cr_pending r |> <| d_ctrl := cr_ctrl r |>
                     <| d_lw := cr_lw r |>).

(** ** Timed steps *)

Definition pending_tick (d : Daemon) (now : Z) : IO Daemon :=
  let p := d_pending d in
  if pd_active p && (now >=? pd_deadline_us p) then
    let r := pd_pending_radio p in
    let! rc := wfb_set_radio (wfb_host (d_cfg d)) (wfb_port (d_cfg d)) r in
    io_ret
      (if rc =? 0 then
         let d := d <| d_body := r |> <| d_emit_mcs := pd_target_mcs p |> in
         let d := observe d r now in
         let d := sf_clear d in
         d <| d_pending := pending_mcs_clear p |>
       else
         let d := sf_note d (pd_target_mcs p) now in
         d <| d_pending := (p <| pd_deadline_us := u64 (now + 100000) |>) |>)
  else io_ret d.

Definition probe_on (d : Daemon) : bool :=
  mcs_enabled (cfg_mcs (d_cfg d)) && negb (dry_run (d_cfg d)).

(** (a) The commit gate. *)
Definition probe_gate (d : Daemon) (now : Z) : Daemon :=
  if negb (current_mcs (d_sel d) =? pt_gate_mcs (d_pt d)) then
    d <| d_probe := ((d_probe d) <| ps_gate_us := now |>) |>
      <| d_pt := ((d_pt d) <| pt_gate_mcs := current_mcs (d_sel d) |>) |>
  else d.

(** (b) The retune reconciler. *)
Definition probe_want (d : Daemon) : RadioBody :=
  let desired := current_mcs (d_sel d) + 2 in
  let desired := if desired >? 7 then 7 else desired in
  let want := if d_body_valid d then d_body d else Build_RadioBody 1 1 0 20 0 0 1 in
  want <| rb_mcs_index := u8 desired |>.

Definition probe_retune (d : Daemon) (now : Z) : IO Daemon :=
  let pt := d_pt d in
  if probe_on d && negb (probe_port (d_cfg d) =? 0) && (current_mcs (d_sel d) >=? 0) &&
     (now >=? pt_retry_us pt)
  then
    let want := probe_want d in
    if negb (pt_sent_valid pt) || negb (bool_decide (want = pt_sent_body pt)) then
      let! rc := wfb_set_radio_at (probe_host (d_cfg d)) (probe_port (d_cfg d)) want in
      io_ret (d <| d_pt :=
        (if rc =? 0 then
           pt <| pt_sent_body := want |> <| pt_sent_valid := true |>
              <| pt_tuned_mcs := rb_mcs_index want |> <| pt_sf_state := false |>
         else
           pt <| pt_retune_fails := u32 (pt_retune_fails pt + 1) |> <| pt_sf_state := true |>
              <| pt_retry_us := u64 (now + 1000000) |>) |>)
    else io_ret d
  else io_ret d.

(** (c) The paced feeder.  Its socket is opened once; [resolve_ipv4], [socket] and
    [connect] succeed when the environment opens the address. *)
Definition feed_len (cfg : Config) : Z :=
  let len := mcs_probe_feed_bytes (cfg_mcs cfg) in
  let len := if len <? 64 then 64 else len in
  if len >? 1472 then 1472 else len.

Definition probe_feed (d : Daemon) (now : Z) : IO Daemon :=
  let pt := d_pt d in
  let pps := mcs_probe_feed_pps (cfg_mcs (d_cfg d)) in
  if probe_on d && negb (probe_feed_port (d_cfg d) =? 0) && (pps >? 0) &&
     (now >=? pt_next_feed_us pt)
  then
    let! pt := (fun w =>
      if pt_feed_open pt || env_open (w_trace w) (probe_feed_host (d_cfg d)) then
        (pt <| pt_feed_open := true |> <| pt_feed_seq := u32 (pt_feed_seq pt + 1) |>,
         w <| w_trace := EvProbeFeed (pt_feed_seq pt) (feed_len (d_cfg d)) :: w_trace w |>)
      else (pt, w)) in
    let iv := 1000000 / pps in
    let next :=
      if (pt_next_feed_us pt =? 0) || (u64 (pt_next_feed_us pt + iv) <? now)
      then u64 (now + iv) else u64 (pt_next_feed_us pt + iv) in
    io_ret (d <| d_pt := (pt <| pt_next_feed_us := next |>) |>)
  else io_ret d.

(** [(uint64_t)(x * 1e6)]: the literal is a double. *)
Definition secs_to_us_d (x : fp) : Z := f_to_u64 (to_f64 x * F64.of_Z 1000000)%f64.

Definition subscribe_tick (d : Daemon) (now : Z) : IO Daemon :=
  if fec_enabled (cfg_fec (d_cfg d)) && (now >=? tm_subscribe_us (d_tm d)) then
    let! _ := io_log EvSubscribe in
    io_ret (d <| d_tm := ((d_tm d) <| tm_subscribe_us :=
      u64 (now + secs_to_us_d (fec_subscribe_s (cfg_fec (d_cfg d)))) |>) |>)
  else io_ret d.

Definition heartbeat_tick (d : Daemon) (now : Z) : Daemon :=
  if now >=? tm_heartbeat_us (d_tm d)
  then d <| d_tm := ((d_tm d) <| tm_heartbeat_us := u64 (now + 5000000) |>) |> else d.

(** *** The MCS watchdog *)

(** The decision: re-clamp after a live change of the range, else the data-loss rule. *)
Definition watchdog_decide (d : Daemon) (now : Z) : Selector * SelectDecision * option Z :=
  let m := cfg_mcs (d_cfg d) in
  let sel := d_sel d in
  let '(sel, sd, out) :=
    if (current_mcs sel >=? 0) &&
       ((current_mcs sel <? mcs_min m) || (current_mcs sel >? mcs_max m))
    then selector_commit sel (d_cfg d) (current_mcs sel) now
           (if current_mcs sel >? mcs_max m then SD_DOWN else SD_UP)
    else (sel, SD_NONE, None) in
  if bool_decide (sd = SD_NONE) then selector_tick_no_data sel (d_cfg d) now
  else (sel, sd, out).

(** A rung that is on the radio: cache, telemetry, observation. *)
Definition adopt_sent (d : Daemon) (mcs now : Z) : Daemon :=
  let r := (d_body d) <| rb_mcs_index := u8 mcs |> in
  let d := d <| d_body := r |> <| d_emit_mcs := mcs |> in
  sf_clear (observe d r now).

Definition watchdog_emit (d : Daemon) (new_mcs now : Z) : IO Daemon :=
  let! d := (if negb (d_body_valid d) && negb (dry_run (d_cfg d)) then
               let! got := wfb_get_radio (wfb_host (d_cfg d)) (wfb_port (d_cfg d)) in
               io_ret (match got with
                       | Some b => d <| d_body := b |> <| d_body_valid := true |>
                       | None => d
                       end)
             else io_ret d) in
  if d_body_valid d && negb (dry_run (d_cfg d)) then
    let! (rc, d) := daemon_commit d new_mcs now in
    io_ret (if rc =? 0 then adopt_sent d new_mcs now
            else if rc =? 1 then d
            else sf_note d new_mcs now)
  else io_ret (d <| d_emit_mcs := new_mcs |>).

Definition watchdog_period (cfg : Config) : fp :=
  let p := (mcs_failsafe_timeout_s (cfg_mcs cfg) / F32.of_Z 4)%f32 in
  if flt p (F32.lit 5 100) then F32.lit 5 100 else p.

Definition watchdog_tick (d : Daemon) (now : Z) : IO Daemon :=
  if mcs_enabled (cfg_mcs (d_cfg d)) && (now >=? tm_watchdog_us (d_tm d)) then
    let '(sel, sd, out) := watchdog_decide d now in
    let d := d <| d_sel := sel |> in
    let! d := (match out with
               | Some new_mcs => if bool_decide (sd = SD_NONE) then io_ret d
                                 else watchdog_emit d new_mcs now
               | None => io_ret d
               end) in
    io_ret (d <| d_tm := ((d_tm d) <| tm_watchdog_us :=
              u64 (now + secs_to_us (watchdog_period (d_cfg d))) |>) |>)
  else io_ret d.

(** The radio poll, while no statistics arrive. *)
Definition radio_poll (d : Daemon) (now : Z) : IO Daemon :=
  let f := cfg_fec (d_cfg d) in
  if fec_enabled f && ((fec_wfb_stats_port f =? 0) || d_stats_stale d) &&
     (now >=? tm_radio_us (d_tm d))
  then
    let! got := wfb_get_radio (wfb_host (d_cfg d)) (wfb_port (d_cfg d)) in
    let d := match got with Some b => observe d b now | None => d end in
    let! (ctrl, lw) := bitrate_assert (d_radio d) (d_ctrl d) (d_cfg d) (d_lw d) now in
    io_ret (d <| d_ctrl := ctrl |> <| d_lw := lw |> <| d_tm := ((d_tm d) <| tm_radio_us :=
              u64 (now + secs_to_us_d (fec_radio_poll_s f)) |>) |>)
  else io_ret d.

(** The channel-switch machine, with its next deadline in microseconds (0 for none); [iw]
    may have taken time, so the clock is read again. *)
Definition csa_step (d : Daemon) (now : Z) : IO (Z * Z * Daemon) :=
  if csa_enabled (cfg_csa (d_cfg d)) then
    let! (next_ms, s) := csa_tick (d_csa d) (d_csa_cfg d) (now / 1000) in
    let! now := now_us in
    io_ret (now, if next_ms >? 0 then u64 (next_ms * 1000) else 0, d <| d_csa := s |>)
  else io_ret (now, 0, d).

(** Everything the loop does before it waits for input. *)
Definition loop_timers (d : Daemon) : IO (Z * Z * Daemon) :=
  let! now := now_us in
  let! d := pending_tick d now in
  let d := probe_gate d now in
  let! d := probe_retune d now in
  let! d := probe_feed d now in
  let! d := subscribe_tick d now in
  let d := heartbeat_tick d now in
  let! d := watchdog_tick d now in
  let! d := radio_poll d now in
  csa_step d now.

(** *** The wait *)

(** A timer that is running and due before [deadline]. *)
Definition sooner (on : bool) (t deadline : Z) : Z :=
  if on && (t <? deadline) then t else deadline.

Definition poll_deadline (d : Daemon) (csa_next_us : Z) : Z :=
  let cfg := d_cfg d in
  let fec := fec_enabled (cfg_fec cfg) in
  let wd := tm_watchdog_us (d_tm d) in
  let sub := tm_subscribe_us (d_tm d) in
  let radio := tm_radio_us (d_tm d) in
  let feed := pt_next_feed_us (d_pt d) in
  let t := tm_heartbeat_us (d_tm d) in
  let t := sooner (mcs_enabled (cfg_mcs cfg) && (wd >? 0)) wd t in
  let t := sooner (fec && (sub >? 0)) sub t in
  let t := sooner (fec && (fec_wfb_stats_port (cfg_fec cfg) =? 0) && (radio >? 0)) radio t in
  let t := sooner (pd_active (d_pending d)) (pd_deadline_us (d_pending d)) t in
  let t := sooner (csa_next_us >? 0) csa_next_us t in
  sooner (probe_on d && negb (probe_feed_port cfg =? 0) && (feed >? 0)) feed t.

Definition poll_timeout_ms (deadline now : Z) : Z :=
  if deadline >? now then
    let ahead_ms := (deadline - now) / 1000 in
    if ahead_ms <? 100 then ahead_ms + 1 else 100
  else 0.

(** ** Startup *)

(** The channel-switch settings; [None] when [main] gives up. *)
Definition csa_boot (cfg : Config) : option CsaCfg :=
  let c := cfg_csa cfg in
  if negb (csa_enabled c) then Some (Build_CsaCfg "" [] [] 0 false)
  else if negb (mcs_enabled (cfg_mcs cfg)) then None
  else
    chans ← (if bool_decide (csa_allow_chan c = "") then Some []
             else csa_parse_chan_list (csa_allow_chan c) CSA_MAX_ALLOW);
    bws ← (if bool_decide (csa_allow_bw c = "") then Some []
           else csa_parse_bw_list (csa_allow_bw c) CSA_MAX_ALLOW);
    Some (Build_CsaCfg (csa_iface c) chans bws (csa_cooldown_ms c) (csa_no_revert c)).

(** From the open sockets to the first turn of the loop. *)
Definition daemon_boot (cfg : Config) (csa_cfg : CsaCfg) : IO Daemon :=
  let cfg := if negb (mcs_enabled (cfg_mcs cfg)) && cmd_enabled (cfg_cmd cfg)
             then cfg <| cfg_cmd := ((cfg_cmd cfg) <| cmd_enabled := false |>) |> else cfg in
  let! body := (if mcs_enabled (cfg_mcs cfg)
                then wfb_get_radio (wfb_host cfg) (wfb_port cfg) else io_ret None) in
  let! boot := now_us in
  let d := daemon_init cfg csa_cfg boot in
  let! d := (match body with
             | Some b => let! t := now_us in
                         io_ret (observe (d <| d_body := b |> <| d_body_valid := true |>) b t)
             | None => io_ret d
             end) in
  let f := cfg_fec cfg in
  let! _ := (if fec_enabled f && fec_safe_startup_enabled f && negb (dry_run cfg) then
               venc_apply_cfg cfg (fec_safe_startup_bitrate_kbps f) (fec_safe_startup_payload f)
             else io_ret 0) in
  let! t1 := now_us in
  let! t2 := now_us in
  let wd := u64 (t2 + secs_to_us (mcs_failsafe_timeout_s (cfg_mcs cfg) / F32.of_Z 4)%f32) in
  let! wd := (if wd =? 0 then let! t := now_us in io_ret (u64 (t + 50000)) else io_ret wd) in
  io_ret (d <| d_tm := Build_Timers 0 0 (u64 (t1 + 5000000)) wd |>).
End Steps.
