(* ===== verification/WfbJson.v ===== *)
(** * The JSON tokenizer of the ground side

    [shared/wfb_json.h]: a one-shot tokenizer that turns a text into a flat array of
    tokens with parent links, and the helpers that walk the array.  The array is the
    list of its first [tok_count] entries; [wfb_json_alloc] appends.  An index into it
    is a [nat], -1 of the source is [None]; the text is a [string] of [len] characters. *)

From S2P Require Import Prelude CString.

Local Open Scope list_scope.

(** ** Tokens *)

Inductive JTokType := JT_NONE | JT_OBJ | JT_ARR | JT_STR | JT_PRIM.

#[export] Instance JTokType_eq_dec : EqDecision JTokType.
Proof. solve_decision. Defined.

Record JTok := Build_JTok {
  jt_type : JTokType; jt_start : Z; jt_end : Z; jt_size : Z; jt_parent : Z
}.

#[export] Instance eta_JTok : Eta JTok := fun t => Build_JTok
  (jt_type t) (jt_start t) (jt_end t) (jt_size t) (jt_parent t).

Definition JSON_MAX_TOKS : Z := 512.

(** [js] and [len] are the arguments of the functions below. *)
Record JParser := Build_JParser {
  jp_pos : Z; jp_toks : list JTok; jp_tok_max : Z; jp_super : Z
}.

#[export] Instance eta_JParser : Eta JParser := fun p => Build_JParser
  (jp_pos p) (jp_toks p) (jp_tok_max p) (jp_super p).

Definition tok_none : JTok := Build_JTok JT_NONE (-1) (-1) 0 (-1).

(** [tok_at]: [toks[i]] for an index inside the array. *)
Definition tok_at (toks : list JTok) (i : nat) : JTok := nth i toks tok_none.

(** ** The parser *)

(** [wfb_json_alloc]: the new token, with the assignments its caller makes to it. *)
Definition wfb_json_alloc (p : JParser) (init : JTok -> JTok) : option JParser :=
  if Z.of_nat (length (jp_toks p)) >=? jp_tok_max p then None
  else Some (p <| jp_toks := jp_toks p ++ [init tok_none] |>).

(** [if (p->super >= 0) p->toks[p->super].size++]. *)
Definition grow_super (p : JParser) : JParser :=
  if 0 <=? jp_super p then
    p <| jp_toks := alter (fun t => t <| jt_size := jt_size t + 1 |>)
           (Z.to_nat (jp_super p)) (jp_toks p) |>
  else p.

Definition add_tok (p : JParser) (ty : JTokType) (start fin : Z) : option JParser :=
  p ← wfb_json_alloc p (fun t => t <| jt_type := ty |> <| jt_start := start |>
                                   <| jt_end := fin |> <| jt_parent := jp_super p |>);
  Some (grow_super p).

Definition BRACE_OPEN : ascii := ch 123.
Definition BRACE_CLOSE : ascii := ch 125.
Definition BRACKET_OPEN : ascii := ch 91.
Definition BRACKET_CLOSE : ascii := ch 93.
Definition BACKSLASH : ascii := ch 92.

Definition json_space (c : ascii) : bool := aeq c SP || aeq c TAB || aeq c LF || aeq c CR.

Definition prim_end (c : ascii) : bool :=
  aeq c COMMA || aeq c BRACE_CLOSE || aeq c BRACKET_CLOSE || json_space c.

(** [wfb_json_parse_prim] on the text [s] from the current position.  The results of the
    two scanners are the parser and the text at the next turn of [json_parse]'s loop,
    whose [pos++] is included. *)
Definition wfb_json_parse_prim (p : JParser) (s : string) : option (JParser * string) :=
  let '(body, rest) := span_until prim_end s in
  let fin := jp_pos p + strlen body in
  p ← add_tok p JT_PRIM (jp_pos p) fin;
  Some (p <| jp_pos := fin |>, rest).

(** The position of the closing quote and the text after it. *)
Fixpoint scan_str (pos : Z) (s : string) : option (Z * string) :=
  match s with
  | EmptyString => None
  | String c s' =>
      if aeq c DQ then Some (pos, s')
      else if aeq c BACKSLASH then
        match s' with
        | String _ s'' => scan_str (pos + 2) s''
        | EmptyString => scan_str (pos + 1) s'
        end
      else scan_str (pos + 1) s'
  end.

(** [wfb_json_parse_str]; [s] is the text after the opening quote. *)
Definition wfb_json_parse_str (p : JParser) (s : string) : option (JParser * string) :=
  let start := jp_pos p + 1 in
  '(fin, rest) ← scan_str start s;
  p ← add_tok p JT_STR start fin;
  Some (p <| jp_pos := fin + 1 |>, rest).

(** [while (p.super >= 0 && p.toks[p.super].end != -1) p.super = p.toks[p.super].parent]. *)
Fixpoint json_climb (fuel : nat) (toks : list JTok) (super : Z) : Z :=
  match fuel with
  | O => super
  | S fuel =>
      let t := tok_at toks (Z.to_nat super) in
      if (0 <=? super) && negb (jt_end t =? -1) then json_climb fuel toks (jt_parent t)
      else super
  end.

Definition json_open (p : JParser) (ty : JTokType) : option JParser :=
  p' ← add_tok p ty (jp_pos p) (-1);
  Some (p' <| jp_super := Z.of_nat (length (jp_toks p')) - 1 |>).

Definition json_close (p : JParser) (expect : JTokType) : option JParser :=
  if jp_super p <? 0 then None
  else
    let s := Z.to_nat (jp_super p) in
    if negb (bool_decide (jt_type (tok_at (jp_toks p) s) = expect)) then None
    else
      let toks := alter (fun t => t <| jt_end := jp_pos p + 1 |>) s (jp_toks p) in
      Some (p <| jp_toks := toks |>
              <| jp_super := json_climb (length toks) toks (jt_parent (tok_at toks s)) |>).

Definition next_char (p : JParser) : JParser := p <| jp_pos := jp_pos p + 1 |>.

(** One turn of the loop of [json_parse] at the character [c] before [s]. *)
Definition json_step (p : JParser) (c : ascii) (s : string) : option (JParser * string) :=
  if aeq c BRACE_OPEN || aeq c BRACKET_OPEN then
    p ← json_open p (if aeq c BRACE_OPEN then JT_OBJ else JT_ARR);
    Some (next_char p, s)
  else if aeq c BRACE_CLOSE || aeq c BRACKET_CLOSE then
    p ← json_close p (if aeq c BRACE_CLOSE then JT_OBJ else JT_ARR);
    Some (next_char p, s)
  else if aeq c DQ then wfb_json_parse_str p s
  else if json_space c || aeq c COLON || aeq c COMMA then Some (next_char p, s)
  else wfb_json_parse_prim p (String c s).

(** [None] is out of fuel, [Some None] the return value -1 inside the loop. *)
Fixpoint json_loop (fuel : nat) (p : JParser) (s : string) : option (option JParser) :=
  match s with
  | EmptyString => Some (Some p)
  | String c s' =>
      match fuel with
      | O => None
      | S fuel =>
          match json_step p c s' with
          | None => Some None
          | Some (p, rest) => json_loop fuel p rest
          end
      end
  end.

Definition parser_init (max : Z) : JParser := Build_JParser 0 [] max (-1).

(** [json_parse]: the tokens, [None] for the return value -1. *)
Definition json_parse (js : string) (max : Z) : option (list JTok) :=
  match json_loop (String.length js) (parser_init max) js with
  | Some (Some p) => if jp_super p =? -1 then Some (jp_toks p) else None
  | _ => None
  end.

(** ** The walkers *)

(** [tok_text]: the characters of [js] between two positions. *)
Definition text_at (js : string) (start fin : Z) : string :=
  take_chars (Z.to_nat (fin - start)) (drop_chars (Z.to_nat start) js).
Definition tok_text (js : string) (t : JTok) : string := text_at js (jt_start t) (jt_end t).

(** [jeq]; [s] is a literal, so it has no NUL and [strncmp] compares all of it. *)
Definition jeq (js : string) (t : JTok) (s : string) : bool :=
  bool_decide (jt_type t = JT_STR) && (jt_end t - jt_start t =? strlen s) &&
  String.eqb (tok_text js t) s.

(** [jskip]: the index after a token and its descendants.  [fuel] bounds the depth of the
    recursion. *)
Fixpoint jskip_fuel (fuel : nat) (toks : list JTok) (i : nat) : nat :=
  if (length toks <=? i)%nat then length toks
  else match fuel with
  | O => length toks
  | S fuel =>
      let t := tok_at toks i in
      match jt_type t with
      | JT_OBJ =>
          Nat.iter (Z.to_nat (Z.quot (jt_size t) 2))
            (fun j => jskip_fuel fuel toks (jskip_fuel fuel toks j)) (S i)
      | JT_ARR => Nat.iter (Z.to_nat (jt_size t)) (jskip_fuel fuel toks) (S i)
      | _ => S i
      end
  end.
Definition jskip (toks : list JTok) (i : nat) : nat := jskip_fuel (length toks) toks i.

Fixpoint jfind_loop (js : string) (toks : list JTok) (key : string) (pairs i : nat)
    : option nat :=
  match pairs with
  | O => None
  | S pairs =>
      if jeq js (tok_at toks i) key then Some (S i)
      else jfind_loop js toks key pairs (jskip toks (jskip toks i))
  end.

(** [jfind]: the index of the value under [key] of the object at [obj_idx]. *)
Definition jfind (js : string) (toks : list JTok) (obj_idx : nat) (key : string) : option nat :=
  if (length toks <=? obj_idx)%nat then None
  else
    let t := tok_at toks obj_idx in
    if negb (bool_decide (jt_type t = JT_OBJ)) then None
    else jfind_loop js toks key (Z.to_nat (Z.quot (jt_size t) 2)) (S obj_idx).

(** The C string in a buffer that may hold NUL characters. *)
Definition NUL : ascii := ch 0.
Definition until_nul (s : string) : string := (span_until (fun c => aeq c NUL) s).1.

(** [jstr]: the string left in [out], of capacity [cap]; [None] is the return value -1,
    with [out] empty. *)
Definition jstr (js : string) (t : JTok) (cap : Z) : option string :=
  if negb (bool_decide (jt_type t = JT_STR)) then None
  else
    let slen := jt_end t - jt_start t in
    let slen := if (slen <? 0) || (slen >=? cap) then cap - 1 else slen in
    Some (until_nul (text_at js (jt_start t) (jt_start t + slen))).

Section Ints.
Context `{!CAbi}.
Definition jint (js : string) (t : JTok) : option Z :=
  if negb (bool_decide (jt_type t = JT_PRIM)) then None
  else
    let slen := jt_end t - jt_start t in
    if (slen <=? 0) || (slen >=? 32) then None
    else match strtol (until_nul (tok_text js t)) with
         | Some (v, EmptyString) => Some v
         | Some _ => None
         | None => match until_nul (tok_text js t) with EmptyString => Some 0 | _ => None end
         end.
End Ints.

Definition jbool (js : string) (t : JTok) : option bool :=
  if negb (bool_decide (jt_type t = JT_PRIM)) then None
  else if String.eqb (tok_text js t) "true" then Some true
  else if String.eqb (tok_text js t) "false" then Some false
  else None.

(** ** Termination *)

Lemma scan_str_progress s : forall pos fin rest, scan_str pos s = Some (fin, rest) ->
  pos <= fin /\ fin + 1 + strlen rest = pos + strlen s /\
  (String.length rest < String.length s)%nat.
Proof.
  induction s as [s IH] using (induction_ltof1 _ String.length). unfold ltof in IH.
  intros pos fin rest H. destruct s as [|c s]; [done|]. cbn [scan_str] in H.
  destruct (aeq c DQ).
  { injection H as <- <-. cbn [strlen String.length]. lia. }
  destruct (aeq c BACKSLASH); [destruct s as [|d s]; [done|]|];
    apply IH in H; cbn [strlen String.length] in *; lia.
Qed.

(** A turn of the loop consumes at least one character: the first character of a
    primitive is none of its terminators. *)
Lemma json_step_progress p c s p' rest :
  json_step p c s = Some (p', rest) -> (String.length rest <= String.length s)%nat.
Proof.
  unfold json_step. destruct (aeq c BRACE_OPEN || aeq c BRACKET_OPEN).
  { destruct (json_open _ _); cbn; [|done]. by intros [= _ <-]. }
  destruct (aeq c BRACE_CLOSE || aeq c BRACKET_CLOSE) eqn:Ec.
  { destruct (json_close _ _); cbn; [|done]. by intros [= _ <-]. }
  destruct (aeq c DQ).
  { unfold wfb_json_parse_str. destruct (scan_str _ s) as [[fin r]|] eqn:E; cbn; [|done].
    apply scan_str_progress in E as (_ & _ & E). destruct (add_tok _ _ _ _); cbn; [|done].
    intros [= _ <-]. lia. }
  destruct (json_space c || aeq c COLON || aeq c COMMA) eqn:Es; [by intros [= _ <-]|].
  unfold wfb_json_parse_prim. cbn [span_until].
  assert (prim_end c = false) as ->.
  { unfold prim_end. bool_hyps. by rewrite !orb_false_iff. }
  pose proof (span_until_length prim_end s). destruct (span_until prim_end s) as [b r].
  destruct (add_tok _ _ _ _); cbn in *; [|done]. intros [= _ <-]. done.
Qed.

(** As much fuel as there are characters is enough, and more makes no difference. *)
Lemma json_loop_total fuel : forall p s, (String.length s <= fuel)%nat ->
  exists r, json_loop fuel p s = Some r.
Proof.
  induction fuel as [|fuel IH]; intros p [|c s] Hf; cbn [String.length json_loop] in *;
    try (by eexists); [lia|].
  destruct (json_step p c s) as [[p' rest]|] eqn:E; [|by eexists].
  apply json_step_progress in E. apply IH. lia.
Qed.

Lemma json_loop_more fuel fuel' : forall p s r, (fuel <= fuel')%nat ->
  json_loop fuel p s = Some r -> json_loop fuel' p s = Some r.
Proof.
  revert fuel'. induction fuel as [|fuel IH]; intros fuel' p [|c s] r Hf H;
    try (by destruct fuel').
  destruct fuel' as [|fuel']; [lia|]. cbn [json_loop] in *.
  destruct (json_step p c s) as [[p' rest]|]; [|done]. apply IH; [lia|done].
Qed.

(** Two iterations agree along an invariant. *)
Lemma iter_agree {A} (P : A -> Prop) (f g : A -> A) n x :
  P x -> (forall y, P y -> f y = g y /\ P (f y)) ->
  Nat.iter n f x = Nat.iter n g x /\ P (Nat.iter n f x).
Proof.
  intros Hx H. induction n as [|n [IH HP]]; [by split|].
  rewrite !Nat.iter_succ.
  destruct (H _ HP) as [E HP']. split; [by rewrite <- IH|done].
Qed.

Section Skip.
Variable toks : list JTok.
Let n := length toks.

Lemma jskip_fuel_bounds fuel : forall i, (i <= n)%nat ->
  (jskip_fuel fuel toks i <= n)%nat /\ (i < n -> S i <= jskip_fuel fuel toks i)%nat.
Proof.
  induction fuel as [|fuel IH]; intros i Hi; cbn [jskip_fuel];
    fold n; destruct (Nat.leb_spec n i); try lia.
  assert (forall m f, (forall j, S i <= j <= n -> S i <= f j <= n)%nat ->
            (S i <= Nat.iter m f (S i) <= n)%nat) as Hit.
  { intros m f Hf. induction m as [|m IHm]; [cbn; lia|].
    rewrite Nat.iter_succ. by apply Hf. }
  assert (forall j, S i <= j <= n -> S i <= jskip_fuel fuel toks j <= n)%nat as Hj.
  { intros j Hj. destruct (IH j) as [H1 H2]; [lia|].
    destruct (Nat.eq_dec j n) as [->|]; [|lia].
    destruct fuel; cbn; fold n; rewrite Nat.leb_refl; lia. }
  destruct (jt_type (tok_at toks i)); try (split; [|done]; lia).
  - pose proof (Hit (Z.to_nat (Z.quot (jt_size (tok_at toks i)) 2))
      (fun j => jskip_fuel fuel toks (jskip_fuel fuel toks j))) as Hp.
    destruct Hp as [H1 H2]; [by eauto|]. by split.
  - destruct (Hit (Z.to_nat (jt_size (tok_at toks i))) _ Hj). by split.
Qed.

(** The depth of the recursion is at most the number of tokens from [i] on. *)
Lemma jskip_fuel_enough fuel : forall fuel' i,
  (n - i <= fuel)%nat -> (n - i <= fuel')%nat ->
  jskip_fuel fuel toks i = jskip_fuel fuel' toks i.
Proof.
  induction fuel as [|fuel IH]; intros fuel' i H H'.
  { destruct fuel'; cbn; fold n; destruct (Nat.leb_spec n i); try done; lia. }
  destruct fuel' as [|fuel'].
  { cbn. fold n. destruct (Nat.leb_spec n i); [done|lia]. }
  cbn [jskip_fuel]. fold n. destruct (Nat.leb_spec n i); [done|].
  set (P := fun j => (S i <= j <= n)%nat).
  assert (forall j, P j -> jskip_fuel fuel toks j = jskip_fuel fuel' toks j /\
                           P (jskip_fuel fuel toks j)) as Hj.
  { intros j [H1 H2]. split; [apply IH; lia|].
    destruct (jskip_fuel_bounds fuel j H2) as [H3 H4]. unfold P.
    destruct (Nat.eq_dec j n) as [->|]; [|lia].
    destruct fuel; cbn; fold n; rewrite Nat.leb_refl; lia. }
  destruct (jt_type (tok_at toks i)); try done.
  - apply (iter_agree P); [unfold P; lia|]. intros j Hp.
    destruct (Hj j Hp) as [E1 P1]. destruct (Hj _ P1) as [E2 P2].
    rewrite <- E1. split; [by rewrite E2|done].
  - apply (iter_agree P); [unfold P; lia|]. by apply Hj.
Qed.

Lemma jskip_eq i : (i < n)%nat -> jskip toks i =
  let t := tok_at toks i in
  match jt_type t with
  | JT_OBJ => Nat.iter (Z.to_nat (Z.quot (jt_size t) 2))
                (fun j => jskip toks (jskip toks j)) (S i)
  | JT_ARR => Nat.iter (Z.to_nat (jt_size t)) (jskip toks) (S i)
  | _ => S i
  end.
Proof.
  intros Hi. unfold jskip at 1.
  rewrite (jskip_fuel_enough n (S n)) by lia. cbn [jskip_fuel].
  fold n. destruct (Nat.leb_spec n i); [lia|]. done.
Qed.

Lemma jskip_bounds i : (i < n)%nat -> (S i <= jskip toks i <= n)%nat.
Proof. intros Hi. destruct (jskip_fuel_bounds n i) as [H1 H2]; [lia|]. auto. Qed.
End Skip.
