(* ===== verification/JsonForest.v ===== *)
(** * The forest a token array stands for

    The tokenizer keeps no tree; this file shows that the array it returns is the preorder
    listing of one, with the positions nested in the text, by an invariant on the loop: the
    array is the listing of a zipper, the open containers and their finished children.
    What the walkers rely on follows: [jskip] never leaves the subtree it is in, and
    every index that [jfind] or a walk over an array reads is inside the array. *)

From S2P Require Import Prelude CString WfbJson.

Local Open Scope list_scope.

(** ** The forest the tokens stand for *)

(** A token with its children. *)
#[warnings="-register-all"]
Inductive jtree := JNode (ty : JTokType) (start fin : Z) (kids : list jtree).

Fixpoint tsize (t : jtree) : nat :=
  match t with
  | JNode _ _ _ ks => S (fold_right (fun k n => tsize k + n)%nat 0%nat ks)
  end.
Definition tsizes (ts : list jtree) : nat := fold_right (fun k n => tsize k + n)%nat 0%nat ts.

(** Preorder, from the index [base]. *)
Fixpoint flat (parent : Z) (base : nat) (t : jtree) : list JTok :=
  match t with
  | JNode ty s e ks =>
      Build_JTok ty s e (Z.of_nat (length ks)) parent ::
      (fix go (b : nat) (ks : list jtree) : list JTok :=
         match ks with
         | [] => []
         | k :: ks => flat (Z.of_nat base) b k ++ go (b + tsize k)%nat ks
         end) (S base) ks
  end.

Fixpoint flats (parent : Z) (base : nat) (ts : list jtree) : list JTok :=
  match ts with
  | [] => []
  | t :: ts => flat parent base t ++ flats parent (base + tsize t) ts
  end.

Definition is_container (ty : JTokType) : bool :=
  match ty with JT_OBJ | JT_ARR => true | _ => false end.

(** [ts] lie one after the other between two positions of the text, each inside its
    parent, and only containers have children. *)
Inductive spans : Z -> Z -> list jtree -> Prop :=
| spans_nil lo hi : lo <= hi -> spans lo hi []
| spans_cons lo hi ty s e ks ts :
    lo <= s -> spans s e ks -> (ks <> [] -> is_container ty = true) -> ty <> JT_NONE ->
    spans e hi ts -> spans lo hi (JNode ty s e ks :: ts).

Lemma tsize_node ty s e ks : tsize (JNode ty s e ks) = S (tsizes ks).
Proof. done. Qed.

Lemma flat_node p b ty s e ks : flat p b (JNode ty s e ks) =
  Build_JTok ty s e (Z.of_nat (length ks)) p :: flats (Z.of_nat b) (S b) ks.
Proof.
  cbn [flat]. f_equal. generalize (S b) as c. induction ks as [|k ks IH]; intros c; [done|].
  cbn [flats]. by rewrite <- IH.
Qed.

Lemma tsizes_app xs ys : tsizes (xs ++ ys) = (tsizes xs + tsizes ys)%nat.
Proof. induction xs as [|x xs IH]; cbn; [done|]. fold (tsizes (xs ++ ys)) (tsizes xs). lia. Qed.

Lemma flats_app p b xs ys : flats p b (xs ++ ys) = flats p b xs ++ flats p (b + tsizes xs) ys.
Proof.
  revert b. induction xs as [|x xs IH]; intros b; cbn [flats app tsizes fold_right].
  { by rewrite Nat.add_0_r. }
  rewrite IH, <- app_assoc. fold (tsizes xs). by rewrite Nat.add_assoc.
Qed.

Lemma tsize_pos t : (0 < tsize t)%nat.
Proof. destruct t. cbn. lia. Qed.

Lemma length_flats_le m : forall ts, (tsizes ts <= m)%nat ->
  forall p b, length (flats p b ts) = tsizes ts.
Proof.
  induction m as [|m IH]; intros [|[ty s e ks] ts] Hm p b; try done.
  { cbn in Hm. lia. }
  cbn [flats]. rewrite flat_node, length_app. cbn [length tsizes fold_right] in *.
  rewrite tsize_node in *. fold (tsizes ts) in *. rewrite !IH; lia.
Qed.

Lemma length_flats p b ts : length (flats p b ts) = tsizes ts.
Proof. by eapply length_flats_le. Qed.

Lemma length_flat p b t : length (flat p b t) = tsize t.
Proof.
  destruct t as [ty s e ks]. rewrite flat_node. cbn [length]. by rewrite length_flats.
Qed.

(** ** The zipper of the parser *)

(** An open container and its finished children. *)
Record frame := Build_frame { fr_type : JTokType; fr_start : Z; fr_kids : list jtree }.

(** The frames are listed innermost first. *)
Fixpoint zlen (roots : list jtree) (fs : list frame) : nat :=
  match fs with
  | [] => tsizes roots
  | f :: fs => (zlen roots fs + S (tsizes (fr_kids f)))%nat
  end.

Definition zsuper (roots : list jtree) (fs : list frame) : Z :=
  match fs with [] => -1 | _ :: fs => Z.of_nat (zlen roots fs) end.

(** [open] counts the child that is itself open. *)
Fixpoint zflat (roots : list jtree) (fs : list frame) (open : Z) : list JTok :=
  match fs with
  | [] => flats (-1) 0 roots
  | f :: fs =>
      zflat roots fs 1 ++
      Build_JTok (fr_type f) (fr_start f) (-1) (Z.of_nat (length (fr_kids f)) + open)
        (zsuper roots fs) ::
      flats (Z.of_nat (zlen roots fs)) (S (zlen roots fs)) (fr_kids f)
  end.

(** Attach a finished tree where the parser stands. *)
Definition zadd (roots : list jtree) (fs : list frame) (t : jtree)
    : list jtree * list frame :=
  match fs with
  | [] => (roots ++ [t], [])
  | f :: fs => (roots, Build_frame (fr_type f) (fr_start f) (fr_kids f ++ [t]) :: fs)
  end.

Fixpoint zspans (roots : list jtree) (fs : list frame) (pos : Z) : Prop :=
  match fs with
  | [] => spans 0 pos roots
  | f :: fs =>
      zspans roots fs (fr_start f) /\ is_container (fr_type f) = true /\
      spans (fr_start f) pos (fr_kids f)
  end.

Lemma length_zflat roots fs open : length (zflat roots fs open) = zlen roots fs.
Proof.
  revert open. induction fs as [|f fs IH]; intros open; cbn [zflat zlen].
  { by rewrite length_flats. }
  rewrite length_app, IH. cbn [length]. by rewrite length_flats.
Qed.

Lemma alter_app_at {A} (g : A -> A) l x r k : k = length l ->
  alter g k (l ++ x :: r) = l ++ g x :: r.
Proof. intros ->. induction l as [|y l IH]; cbn; [done|]. by rewrite <- IH. Qed.

Lemma spans_le lo hi ts : spans lo hi ts -> lo <= hi.
Proof. induction 1; lia. Qed.

Lemma spans_hi lo hi hi' ts : spans lo hi ts -> hi <= hi' -> spans lo hi' ts.
Proof.
  induction 1 as [|lo hi ty s e ks ts ? ? _ ? ? ? IH]; intros; constructor; eauto; lia.
Qed.

Lemma spans_snoc lo mid hi ts t : spans lo mid ts -> spans mid hi [t] -> spans lo hi (ts ++ [t]).
Proof.
  induction 1 as [lo mid|lo mid ty s e ks ts ? ? _ ? ? ? IH]; intros Ht.
  - inversion Ht; subst. cbn. constructor; try done. lia.
  - cbn. constructor; eauto.
Qed.

Lemma zspans_hi roots fs pos pos' : zspans roots fs pos -> pos <= pos' -> zspans roots fs pos'.
Proof.
  destruct fs; cbn; intros H Hp; [by eapply spans_hi|].
  destruct H as (? & ? & ?). split_and!; [done..|by eapply spans_hi].
Qed.

Lemma zspans_le roots fs pos : zspans roots fs pos -> 0 <= pos.
Proof.
  revert pos. induction fs as [|f fs IH]; cbn; intros pos H.
  - by apply spans_le in H.
  - destruct H as (H & _ & Hs). apply IH in H. apply spans_le in Hs. lia.
Qed.

(** The parser stands at [pos] with the listing of the zipper. *)
Record reflects (max : Z) (roots : list jtree) (fs : list frame) (p : JParser) : Prop := {
  rf_toks : jp_toks p = zflat roots fs 0;
  rf_super : jp_super p = zsuper roots fs;
  rf_spans : zspans roots fs (jp_pos p);
  rf_max : jp_tok_max p = max;
  rf_len : Z.of_nat (length (jp_toks p)) <= Z.max 0 max
}.

Lemma zsuper_neg roots fs : zsuper roots fs < 0 <-> fs = [].
Proof. destruct fs; cbn; split; intros; try done; lia. Qed.

(** The parser that stands at [pos] with the listing of a zipper. *)
Definition zstate (max : Z) (roots : list jtree) (fs : list frame) (pos : Z) : JParser :=
  Build_JParser pos (zflat roots fs 0) max (zsuper roots fs).

Lemma reflects_zstate max roots fs p :
  reflects max roots fs p -> p = zstate max roots fs (jp_pos p).
Proof. destruct p. intros [Ht Hs _ Hm _]. cbn in *. by subst. Qed.

(** What [add_tok] makes of the listing: the new token and one more child of [super]. *)
Lemma zstate_add max roots fs pos ty start fin :
  add_tok (zstate max roots fs pos) ty start fin =
  if Z.of_nat (zlen roots fs) >=? max then None
  else Some (Build_JParser pos
    (zflat roots fs 1 ++ [Build_JTok ty start fin 0 (zsuper roots fs)]) max (zsuper roots fs)).
Proof.
  unfold add_tok, wfb_json_alloc, zstate. cbn [jp_toks jp_tok_max]. rewrite length_zflat.
  destruct (_ >=? max); [done|]. cbn. unfold grow_super. cbn [jp_super jp_toks jp_pos].
  destruct fs as [|f fs]; cbn [zsuper zlen zflat]; [done|].
  destruct (Z.leb_spec 0 (Z.of_nat (zlen roots fs))) as [_|]; [|lia]. cbn.
  rewrite <- app_assoc. cbn [app].
  rewrite alter_app_at by (rewrite length_zflat; lia). cbn. rewrite Z.add_0_r.
  by rewrite <- app_assoc.
Qed.

Lemma add_tok_shape max p ty start fin p' roots fs :
  add_tok p ty start fin = Some p' -> reflects max roots fs p ->
  jp_toks p' = zflat roots fs 1 ++ [Build_JTok ty start fin 0 (zsuper roots fs)] /\
  jp_super p' = zsuper roots fs /\ jp_pos p' = jp_pos p /\ jp_tok_max p' = max /\
  Z.of_nat (length (jp_toks p')) <= Z.max 0 max.
Proof.
  intros H Hr. rewrite (reflects_zstate _ _ _ _ Hr), zstate_add in H.
  destruct (Z.geb_spec (Z.of_nat (zlen roots fs)) max); [done|]. injection H as <-.
  cbn. split_and!; try done. rewrite length_app, length_zflat. cbn. lia.
Qed.

Lemma zflat_add roots fs ty s e ks :
  zflat (zadd roots fs (JNode ty s e ks)).1 (zadd roots fs (JNode ty s e ks)).2 0 =
  zflat roots fs 1 ++ flat (zsuper roots fs) (zlen roots fs) (JNode ty s e ks).
Proof.
  destruct fs as [|f fs]; cbn [zadd fst snd zflat zsuper zlen fr_type fr_start fr_kids].
  - rewrite flats_app. cbn [flats]. by rewrite app_nil_r.
  - rewrite flats_app, length_app, <- app_assoc. cbn [flats length app].
    rewrite app_nil_r. do 2 f_equal; [f_equal; lia|]. do 2 f_equal. lia.
Qed.

Lemma zsuper_add roots fs t :
  zsuper (zadd roots fs t).1 (zadd roots fs t).2 = zsuper roots fs.
Proof. by destruct fs. Qed.

Lemma zspans_add roots fs pos ty s e ks hi :
  zspans roots fs pos -> pos <= s -> e <= hi -> spans s e ks ->
  (ks <> [] -> is_container ty = true) -> ty <> JT_NONE ->
  zspans (zadd roots fs (JNode ty s e ks)).1 (zadd roots fs (JNode ty s e ks)).2 hi.
Proof.
  intros H Hs He Hk Hc Hn.
  assert (spans pos hi [JNode ty s e ks]) as Hone by (repeat (constructor; eauto)).
  destruct fs as [|f fs]; cbn in *.
  - by eapply spans_snoc.
  - destruct H as (? & ? & ?). split_and!; [done..|].
    by eapply spans_snoc.
Qed.

(** ** Steps of the parser *)

Lemma reflects_init max : reflects max [] [] (parser_init max).
Proof. constructor; try done; cbn; [by constructor|lia]. Qed.

(** A finished leaf. *)
Lemma add_leaf max p ty start fin p' roots fs pos' :
  add_tok p ty start fin = Some p' -> reflects max roots fs p ->
  jp_pos p <= start -> start <= fin -> fin <= pos' -> ty <> JT_NONE ->
  let z := zadd roots fs (JNode ty start fin []) in
  reflects max z.1 z.2 (p' <| jp_pos := pos' |>).
Proof.
  intros H Hr Hs Hf Hp Hn z. destruct (add_tok_shape _ _ _ _ _ _ _ _ H Hr) as (Ht & Hsup & _ & Hm & Hl).
  constructor; cbn.
  - subst z. rewrite zflat_add, flat_node. cbn [flats length]. done.
  - subst z. by rewrite zsuper_add.
  - apply (zspans_add _ _ (jp_pos p)); try done; [by apply (rf_spans _ _ _ _ Hr)|].
    by constructor.
  - done.
  - done.
Qed.

Lemma json_open_ok max p ty p' roots fs :
  json_open p ty = Some p' -> is_container ty = true -> reflects max roots fs p ->
  reflects max roots (Build_frame ty (jp_pos p) [] :: fs) (next_char p').
Proof.
  unfold json_open. intros H Hc Hr. destruct (add_tok p ty (jp_pos p) (-1)) as [p1|] eqn:E; [|done].
  cbn in H. injection H as <-.
  destruct (add_tok_shape _ _ _ _ _ _ _ _ E Hr) as (Ht & Hsup & Hp & Hm & Hl).
  constructor; cbn.
  - by rewrite Ht.
  - rewrite Ht, length_app, length_zflat. cbn. lia.
  - rewrite Hp. split_and!; [by apply (rf_spans _ _ _ _ Hr)|done|]. constructor. lia.
  - done.
  - done.
Qed.

Lemma tok_at_app_at l x r k : k = length l -> tok_at (l ++ x :: r) k = x.
Proof. intros ->. unfold tok_at. rewrite app_nth2, Nat.sub_diag; [done|lia]. Qed.

(** The parent of an open container is open, so the climb stops where it starts. *)
Lemma json_climb_open fuel roots fs rest :
  json_climb fuel (zflat roots fs 1 ++ rest) (zsuper roots fs) = zsuper roots fs.
Proof.
  destruct fuel as [|fuel]; [done|]. cbn [json_climb].
  destruct fs as [|f fs]; [done|]. cbn [zflat zsuper].
  rewrite <- app_assoc. cbn [app]. rewrite tok_at_app_at by (rewrite length_zflat; lia).
  cbn. by rewrite andb_false_r.
Qed.

Lemma json_close_ok max p ty p' roots fs :
  json_close p ty = Some p' -> reflects max roots fs p ->
  exists f fs', fs = f :: fs' /\ fr_type f = ty /\
    let z := zadd roots fs' (JNode ty (fr_start f) (jp_pos p + 1) (fr_kids f)) in
    reflects max z.1 z.2 (next_char p').
Proof.
  destruct p as [pos toks mx sup]. unfold json_close. intros H [Ht Hs Hp Hm Hl].
  cbn [jp_pos jp_toks jp_tok_max jp_super] in *. subst toks sup mx.
  destruct (Z.ltb_spec (zsuper roots fs) 0) as [|H0]; [done|].
  destruct fs as [|f fs]; [cbn in H0; lia|]. exists f, fs. cbn [zsuper zflat zlen zspans] in *.
  destruct Hp as (Hsp & Hc & Hk).
  rewrite tok_at_app_at in H by (rewrite length_zflat; lia).
  destruct (bool_decide_reflect (jt_type (Build_JTok (fr_type f) (fr_start f) (-1)
    (Z.of_nat (length (fr_kids f)) + 0) (zsuper roots fs)) = ty)) as [Hty|]; [|done].
  cbn in Hty. cbn [negb] in H. split; [done|]. split; [done|].
  rewrite alter_app_at, tok_at_app_at in H by (rewrite length_zflat; lia).
  cbn [jt_parent] in H. injection H as <-.
  cbv zeta. constructor; cbn [jp_toks jp_super jp_pos jp_tok_max next_char].
  - cbn. rewrite zflat_add, flat_node, <- Hty. by rewrite Z.add_0_r.
  - cbn. rewrite zsuper_add. apply json_climb_open.
  - cbn. apply (zspans_add _ _ (fr_start f)); try done; try lia.
    + eapply spans_hi; [eassumption|lia].
    + by subst ty.
    + intros ->. by rewrite Hty in Hc.
  - done.
  - cbn. rewrite length_app in *. cbn [length] in *. lia.
Qed.

Lemma json_step_ok max p c s p' rest roots fs :
  json_step p c s = Some (p', rest) -> reflects max roots fs p ->
  exists roots' fs', reflects max roots' fs' p' /\
    jp_pos p' + strlen rest = jp_pos p + 1 + strlen s.
Proof.
  unfold json_step. intros H Hr.
  destruct (aeq c BRACE_OPEN || aeq c BRACKET_OPEN).
  { destruct (json_open _ _) as [p1|] eqn:E; [|done]. injection H as <- <-.
    exists roots. eexists. split.
    - eapply json_open_ok; [done| |done]. by destruct (aeq c BRACE_OPEN).
    - unfold json_open in E. destruct (add_tok _ _ _ _) as [p2|] eqn:E2; [|done].
      injection E as <-. destruct (add_tok_shape _ _ _ _ _ _ _ _ E2 Hr) as (_ & _ & Hp & _).
      cbn. lia. }
  destruct (aeq c BRACE_CLOSE || aeq c BRACKET_CLOSE) eqn:Ec.
  { destruct (json_close _ _) as [p1|] eqn:E; [|done]. injection H as <- <-.
    destruct (json_close_ok _ _ _ _ _ _ E Hr) as (f & fs' & -> & Hty & Hr').
    eexists _, _. split; [exact Hr'|].
    unfold json_close in E. destruct (_ <? 0); [done|]. destruct (negb _); [done|].
    injection E as <-.
    cbn. lia. }
  destruct (aeq c DQ).
  { unfold wfb_json_parse_str in H. destruct (scan_str _ s) as [[fin r]|] eqn:E; [|done].
    apply scan_str_progress in E as (? & ? & _). cbn in H.
    destruct (add_tok _ _ _ _) as [p1|] eqn:E1; [|done]. injection H as <- <-.
    eexists _, _. split; [eapply (add_leaf _ _ _ _ _ _ _ _ (fin + 1)); eauto; lia|]. cbn. lia. }
  destruct (json_space c || aeq c COLON || aeq c COMMA).
  { injection H as <- <-. exists roots, fs. split; [|cbn; lia].
    destruct Hr. constructor; try done. cbn. eapply zspans_hi; [done|lia]. }
  unfold wfb_json_parse_prim in H.
  pose proof (span_until_app prim_end (String c s)) as Ea.
  destruct (span_until prim_end (String c s)) as [b r]. cbn [fst snd] in Ea.
  destruct (add_tok _ _ _ _) as [p1|] eqn:E1; [|done]. injection H as <- <-.
  pose proof (strlen_nonneg b).
  eexists _, _. split; [eapply (add_leaf _ _ _ _ _ _ _ _ (jp_pos p + strlen b)); eauto; lia|].
  cbn. apply (f_equal strlen) in Ea. rewrite strlen_app in Ea. cbn [strlen] in Ea. lia.
Qed.

Lemma json_loop_ok max fuel : forall p s p' roots fs,
  json_loop fuel p s = Some (Some p') -> reflects max roots fs p ->
  exists roots' fs', reflects max roots' fs' p' /\ jp_pos p' = jp_pos p + strlen s.
Proof.
  induction fuel as [|fuel IH]; intros p [|c s] p' roots fs H Hr; cbn [json_loop] in H; try done.
  1,2: injection H as <-; exists roots, fs; split; [done|cbn; lia].
  destruct (json_step p c s) as [[p1 rest]|] eqn:E; [|done].
  destruct (json_step_ok _ _ _ _ _ _ _ _ E Hr) as (roots1 & fs1 & Hr1 & Hp1).
  destruct (IH _ _ _ _ _ H Hr1) as (roots2 & fs2 & Hr2 & Hp2).
  exists roots2, fs2. split; [done|]. cbn [strlen]. lia.
Qed.

(** ** The result is the listing of a forest *)

Lemma json_parse_listing js max toks :
  json_parse js max = Some toks ->
  exists ts, toks = flats (-1) 0 ts /\ spans 0 (strlen js) ts /\
    Z.of_nat (length toks) <= Z.max 0 max.
Proof.
  unfold json_parse. intros H.
  destruct (json_loop _ _ js) as [[p|]|] eqn:E; [|done..].
  destruct (json_loop_ok _ _ _ _ _ _ _ E (reflects_init max)) as (roots & fs & [Ht Hs Hp _ Hl] & Hpos).
  destruct (Z.eqb_spec (jp_super p) (-1)) as [H1|]; [|done]. injection H as <-.
  rewrite Hs in H1. destruct fs as [|f fs]; [|cbn in H1; lia].
  cbn in *. exists roots. by rewrite Hpos in Hp.
Qed.

(** ** Walking the array *)

Lemma tsizes_take_S k ks t : ks !! k = Some t ->
  tsizes (take (S k) ks) = (tsizes (take k ks) + tsize t)%nat.
Proof.
  intros H. rewrite (take_S_r _ _ _ H), tsizes_app. cbn. lia.
Qed.

Lemma tsizes_take_le k ks : (tsizes (take k ks) <= tsizes ks)%nat.
Proof. rewrite <- (take_drop k ks) at 2. rewrite tsizes_app. lia. Qed.

Lemma tsizes_ge ks : (length ks <= tsizes ks)%nat.
Proof.
  induction ks as [|t ks IH]; cbn; [lia|]. fold (tsizes ks). pose proof (tsize_pos t). lia.
Qed.

Lemma iter_double {A} (f : A -> A) k x :
  Nat.iter k (fun y => f (f y)) x = Nat.iter (2 * k) f x.
Proof.
  induction k as [|k IH]; [done|]. replace (2 * S k)%nat with (S (S (2 * k))) by lia.
  by rewrite !Nat.iter_succ, IH.
Qed.

(** The number of [jskip]s that walk over the children of a node. *)
Definition walk_len (ty : JTokType) (n : nat) : nat :=
  match ty with JT_OBJ => 2 * (n / 2) | JT_ARR => n | _ => 0 end.

Lemma walk_len_le ty n : (walk_len ty n <= n)%nat.
Proof. destruct ty; cbn [walk_len]; try lia. apply Nat.Div0.mul_div_le. Qed.

Lemma quot2 n : Z.to_nat (Z.quot (Z.of_nat n) 2) = (n / 2)%nat.
Proof.
  rewrite Z.quot_div_nonneg by lia. change 2 with (Z.of_nat 2).
  rewrite <- Nat2Z.inj_div. apply Nat2Z.id.
Qed.

(** [toks] holds the listing of [t] from the index [i] on. *)
Definition node_at (toks : list JTok) (i : nat) (t : jtree) : Prop :=
  exists p pre post, toks = pre ++ flat p i t ++ post /\ length pre = i.

Definition nodes_at (toks : list JTok) (i : nat) (ts : list jtree) : Prop :=
  exists p pre post, toks = pre ++ flats p i ts ++ post /\ length pre = i.

Lemma nodes_at_bound toks i ts : nodes_at toks i ts -> (i + tsizes ts <= length toks)%nat.
Proof.
  intros (p & pre & post & -> & Hi). rewrite !length_app, length_flats. lia.
Qed.

Lemma node_at_bound toks i t : node_at toks i t -> (i + tsize t <= length toks)%nat.
Proof.
  intros (p & pre & post & -> & Hi). rewrite !length_app, length_flat. lia.
Qed.

Lemma node_at_tok toks i ty s e ks : node_at toks i (JNode ty s e ks) ->
  jt_type (tok_at toks i) = ty /\ jt_start (tok_at toks i) = s /\
  jt_end (tok_at toks i) = e /\ jt_size (tok_at toks i) = Z.of_nat (length ks).
Proof.
  intros (p & pre & post & -> & Hi). rewrite flat_node. cbn [app].
  by rewrite tok_at_app_at.
Qed.

Lemma node_at_kids toks i ty s e ks : node_at toks i (JNode ty s e ks) -> nodes_at toks (S i) ks.
Proof.
  intros (p & pre & post & -> & Hi). rewrite flat_node.
  eexists _, (pre ++ [_]), post. split; [by rewrite <- app_assoc|].
  rewrite length_app. cbn. lia.
Qed.

Lemma nodes_at_cons toks i t ts : nodes_at toks i (t :: ts) ->
  node_at toks i t /\ nodes_at toks (i + tsize t) ts.
Proof.
  intros (p & pre & post & -> & Hi). cbn [flats]. split.
  - eexists p, pre, _. by rewrite <- app_assoc.
  - exists p, (pre ++ flat p i t), post. rewrite <- !app_assoc. split; [done|].
    rewrite length_app, length_flat. lia.
Qed.

Lemma nodes_at_app toks i xs ys : nodes_at toks i (xs ++ ys) ->
  nodes_at toks i xs /\ nodes_at toks (i + tsizes xs) ys.
Proof.
  intros (p & pre & post & -> & Hi). rewrite flats_app. split.
  - eexists p, pre, _. by rewrite <- app_assoc.
  - exists p, (pre ++ flats p i xs), post. rewrite <- !app_assoc. split; [done|].
    rewrite length_app, length_flats. lia.
Qed.

Lemma nodes_at_take toks i k ts : nodes_at toks i ts -> nodes_at toks i (take k ts).
Proof.
  intros H. rewrite <- (take_drop k ts) in H. by apply nodes_at_app in H as [H _].
Qed.

Lemma nodes_at_nth toks i k ts t : nodes_at toks i ts -> ts !! k = Some t ->
  node_at toks (i + tsizes (take k ts)) t.
Proof.
  intros H Ht. rewrite <- (take_drop_middle _ _ _ Ht) in H.
  apply nodes_at_app in H as [_ H]. by apply nodes_at_cons in H as [H _].
Qed.

Lemma jskip_node toks i ty s e ks : node_at toks i (JNode ty s e ks) ->
  jskip toks i = Nat.iter (walk_len ty (length ks)) (jskip toks) (S i).
Proof.
  intros H. destruct (node_at_tok _ _ _ _ _ _ H) as (Hty & _ & _ & Hsz).
  pose proof (node_at_bound _ _ _ H) as Hb. rewrite tsize_node in Hb.
  rewrite jskip_eq by lia. cbv zeta. rewrite Hty, Hsz.
  destruct ty; cbn [walk_len]; try done.
  - by rewrite quot2, iter_double.
  - by rewrite Nat2Z.id.
Qed.

(** The region [ts] of whole trees is never left from inside. *)
Definition closed_region (toks : list JTok) (b : nat) (ts : list jtree) : Prop :=
  forall i, (b <= i < b + tsizes ts)%nat -> (jskip toks i <= b + tsizes ts)%nat.

(** One step of a walk over the children [ks]. *)
Lemma walk_step toks b ks k j :
  (forall c ts, (tsizes ts <= tsizes ks)%nat -> nodes_at toks c ts -> closed_region toks c ts) ->
  nodes_at toks b ks -> (k < length ks)%nat ->
  (b <= j <= b + tsizes (take k ks))%nat ->
  (j <= jskip toks j <= b + tsizes (take (S k) ks))%nat.
Proof.
  intros Hreg Hk Hl Hj. destruct (lookup_lt_is_Some_2 ks k) as [t Hkt]; [lia|].
  pose proof (tsizes_take_le (S k) ks) as Hle. rewrite (tsizes_take_S _ _ _ Hkt) in *.
  pose proof (tsize_pos t). pose proof (nodes_at_bound _ _ _ Hk).
  destruct (jskip_bounds toks j) as [Hj1 _]; [lia|]. split; [lia|].
  destruct (Nat.eq_dec j (b + tsizes (take k ks))%nat) as [Ej|].
  - destruct (nodes_at_nth _ _ _ _ _ Hk Hkt) as (p & pre & post & Et & Ep).
    pose proof (Hreg j [t]) as Ht. unfold closed_region in Ht.
    cbn [tsizes fold_right] in Ht. rewrite Nat.add_0_r in Ht.
    transitivity (j + tsize t)%nat; [|lia]. apply Ht; [lia| |lia].
    exists p, pre, post. rewrite Ej. cbn [flats]. by rewrite app_nil_r.
  - transitivity (b + tsizes (take k ks))%nat; [|lia].
    apply (Hreg b (take k ks)); [lia|by apply nodes_at_take|lia].
Qed.

Lemma walk_within toks b ks k :
  (forall c ts, (tsizes ts <= tsizes ks)%nat -> nodes_at toks c ts -> closed_region toks c ts) ->
  nodes_at toks b ks -> (k <= length ks)%nat ->
  (b <= Nat.iter k (jskip toks) b <= b + tsizes (take k ks))%nat.
Proof.
  intros Hreg Hk. induction k as [|k IHk]; intros Hl; [cbn; lia|].
  rewrite Nat.iter_succ. specialize (IHk ltac:(lia)).
  destruct (walk_step _ _ _ _ _ Hreg Hk Hl IHk). lia.
Qed.

(** A walk that starts inside a region of whole trees does not leave it: [jskip] may stop
    early, after an object with a key that has no value, but never goes too far. *)
Lemma jskip_region m : forall toks b ts,
  (tsizes ts <= m)%nat -> nodes_at toks b ts -> closed_region toks b ts.
Proof.
  induction m as [|m IH]; intros toks b ts Hm Hn i Hi; [lia|].
  destruct ts as [|[ty s e ks] ts]; [cbn in Hi; lia|].
  destruct (nodes_at_cons _ _ _ _ Hn) as [Ht Hts].
  pose proof (node_at_kids _ _ _ _ _ _ Ht) as Hk.
  cbn [tsizes fold_right] in *. fold (tsizes ts) in *. rewrite tsize_node in *.
  destruct (Nat.eq_dec i b) as [->|Hib].
  - rewrite (jskip_node _ _ _ _ _ _ Ht).
    pose proof (walk_within toks (S b) ks (walk_len ty (length ks))) as Hw.
    pose proof (tsizes_take_le (walk_len ty (length ks)) ks).
    destruct Hw as [_ Hw]; [|done|apply walk_len_le|lia].
    intros c us Hu. apply IH. lia.
  - destruct (le_lt_dec (S b + tsizes ks) i).
    + pose proof (IH toks (b + S (tsizes ks))%nat ts ltac:(lia) Hts i). lia.
    + pose proof (IH toks (S b) ks ltac:(lia) Hk i). lia.
Qed.

Lemma closed_regions toks (ks : list jtree) c ts :
  (tsizes ts <= tsizes ks)%nat -> nodes_at toks c ts -> closed_region toks c ts.
Proof. intros _. by apply (jskip_region (tsizes ts)). Qed.

(** Every index of a listing is a node. *)
Lemma nodes_at_index m : forall toks b ts i, (tsizes ts <= m)%nat -> nodes_at toks b ts ->
  (b <= i < b + tsizes ts)%nat -> exists t, node_at toks i t.
Proof.
  induction m as [|m IH]; intros toks b ts i Hm Hn Hi; [lia|].
  destruct ts as [|[ty s e ks] ts]; [cbn in Hi; lia|].
  destruct (nodes_at_cons _ _ _ _ Hn) as [Ht Hts].
  cbn [tsizes fold_right] in *. fold (tsizes ts) in *. rewrite tsize_node in *.
  destruct (Nat.eq_dec i b) as [->|Hib]; [by eexists|].
  destruct (le_lt_dec (S b + tsizes ks) i).
  - eapply IH; [|exact Hts|]; lia.
  - eapply IH; [|exact (node_at_kids _ _ _ _ _ _ Ht)|]; lia.
Qed.

Lemma nodes_at_all ts : nodes_at (flats (-1) 0 ts) 0 ts.
Proof. exists (-1), [], []. by rewrite app_nil_r. Qed.

Lemma parsed_node js max toks i : json_parse js max = Some toks -> (i < length toks)%nat ->
  exists t, node_at toks i t.
Proof.
  intros (ts & -> & _ & _)%json_parse_listing Hi. rewrite length_flats in Hi.
  eapply nodes_at_index; [done|apply nodes_at_all|lia].
Qed.

Lemma jfind_loop_range js toks key b ks : nodes_at toks b ks ->
  forall pairs i j, (2 * pairs + i <= length ks)%nat ->
  (b <= j <= b + tsizes (take i ks))%nat ->
  forall v, jfind_loop js toks key pairs j = Some v -> (b < v < b + tsizes ks)%nat.
Proof.
  intros Hk. induction pairs as [|pairs IH]; intros i j Hl Hj v H; [done|].
  cbn [jfind_loop] in H. destruct (jeq _ _ _).
  - injection H as <-.
    destruct (lookup_lt_is_Some_2 ks i) as [t1 H1]; [lia|].
    destruct (lookup_lt_is_Some_2 ks (S i)) as [t2 H2]; [lia|].
    pose proof (tsizes_take_le (S (S i)) ks) as Hle.
    rewrite (tsizes_take_S _ _ _ H2), (tsizes_take_S _ _ _ H1) in Hle.
    pose proof (tsize_pos t1). pose proof (tsize_pos t2). lia.
  - pose proof (walk_step _ _ _ i j (closed_regions toks ks) Hk ltac:(lia) Hj) as H1.
    pose proof (walk_step _ _ _ (S i) (jskip toks j) (closed_regions toks ks) Hk
      ltac:(lia) ltac:(lia)) as H2.
    eapply (IH (S (S i))); [| |exact H]; lia.
Qed.

(** [v] is a token, behind [i]. *)
Definition token_after (toks : list JTok) (i v : nat) : Prop := (i < v < length toks)%nat.

(** The walkers never read outside the tokens, whatever the text was: after a successful
    parse, the value [jfind] names and the elements that a walk over an array visits are
    tokens of the array, behind the container they were asked of. *)
Theorem parsed_walks_in_range js max toks i :
  json_parse js max = Some toks ->
  (forall key v, jfind js toks i key = Some v -> token_after toks i v) /\
  (jt_type (tok_at toks i) = JT_ARR -> forall k, Z.of_nat k < jt_size (tok_at toks i) ->
     token_after toks i (Nat.iter k (jskip toks) (S i))).
Proof.
  unfold token_after. intros Hp. destruct (le_lt_dec (length toks) i) as [Hi|Hi].
  { unfold jfind. destruct (Nat.leb_spec (length toks) i); [|lia]. split; [done|].
    unfold tok_at. by rewrite nth_overflow. }
  destruct (parsed_node _ _ _ _ Hp Hi) as [[ty s e ks] Hn].
  destruct (node_at_tok _ _ _ _ _ _ Hn) as (Hty & _ & _ & Hsz).
  pose proof (node_at_kids _ _ _ _ _ _ Hn) as Hk.
  pose proof (nodes_at_bound _ _ _ Hk) as Hb. split.
  - intros key v H. unfold jfind in H. destruct (Nat.leb_spec (length toks) i); [done|].
    destruct (negb _); [done|]. rewrite Hsz, quot2 in H.
    eapply jfind_loop_range in H; [|exact Hk| |]; [lia| |].
    + rewrite Nat.add_0_r. apply Nat.Div0.mul_div_le.
    + cbn. lia.
  - intros _ k Hl. rewrite Hsz in Hl.
    pose proof (walk_within _ _ _ k (closed_regions toks ks) Hk ltac:(lia)).
    destruct (lookup_lt_is_Some_2 ks k) as [t Ht]; [lia|].
    pose proof (tsizes_take_le (S k) ks) as Hle. rewrite (tsizes_take_S _ _ _ Ht) in Hle.
    pose proof (tsize_pos t). lia.
Qed.

(** A document that no printer writes: a key without a value, a comma too many. *)
Lemma parsed_walks_in_range_witness : exists toks : list JTok,
  json_parse (with_quotes "{'a',,'b':[1 2],'c'}") 8 = Some toks /\ length toks = 7%nat /\
  (3 < Nat.iter 1 (jskip toks) 4 < 7)%nat.
Proof.
  eexists. split; [vm_compute; reflexivity|]. split; [reflexivity|].
  destruct (parsed_walks_in_range (with_quotes "{'a',,'b':[1 2],'c'}") 8 _ 3
    ltac:(vm_compute; reflexivity)) as [_ H].
  specialize (H ltac:(vm_compute; reflexivity) 1%nat ltac:(vm_compute; reflexivity)).
  unfold token_after in H. cbn [length] in H. lia.
Defined.

(** ** The walkers on objects whose keys all have a value *)

(** Every object has an even number of children; only containers have any. *)
Inductive paired : list jtree -> Prop :=
| paired_nil : paired []
| paired_cons ty s e ks ts :
    (ty = JT_OBJ -> Nat.Even (length ks)) -> (ks <> [] -> is_container ty = true) ->
    paired ks -> paired ts -> paired (JNode ty s e ks :: ts).

Lemma paired_nth ks k t : paired ks -> ks !! k = Some t -> paired [t].
Proof.
  intros H. revert k. induction H as [|ty s e ks ts He Hc Hk _ _ IH]; intros [|k] Ht; try done.
  - cbn in Ht. injection Ht as <-. repeat (constructor; eauto).
  - by apply (IH k).
Qed.

Lemma half_double h : (2 * h / 2)%nat = h.
Proof. rewrite Nat.mul_comm. by apply Nat.div_mul. Qed.

Lemma walk_len_all ty s e ks : paired [JNode ty s e ks] -> walk_len ty (length ks) = length ks.
Proof.
  intros H. inversion H as [|? ? ? ? ? He Hc _ _]; subst.
  destruct ty; cbn [walk_len is_container] in *; try done;
    try (destruct ks; [done|]; by discriminate Hc).
  destruct (He eq_refl) as [h ->]. by rewrite half_double.
Qed.

Lemma jskip_exact m : forall toks i t, (tsize t <= m)%nat -> paired [t] -> node_at toks i t ->
  jskip toks i = (i + tsize t)%nat.
Proof.
  induction m as [|m IH]; intros toks i t Hm Hp Hn; [pose proof (tsize_pos t); lia|].
  destruct t as [ty s e ks]. rewrite tsize_node in *.
  rewrite (jskip_node _ _ _ _ _ _ Hn), (walk_len_all _ _ _ _ Hp).
  pose proof (node_at_kids _ _ _ _ _ _ Hn) as Hk.
  assert (paired ks) as Hpk by (by inversion Hp).
  assert (forall k, (k <= length ks)%nat ->
    Nat.iter k (jskip toks) (S i) = (S i + tsizes (take k ks))%nat) as Hw.
  { induction k as [|k IHk]; intros Hl; [cbn; by rewrite Nat.add_0_r|].
    rewrite Nat.iter_succ, IHk by lia.
    destruct (lookup_lt_is_Some_2 ks k) as [t Ht]; [lia|].
    pose proof (tsizes_take_le (S k) ks) as Hle. rewrite (tsizes_take_S _ _ _ Ht) in *.
    rewrite (IH _ _ t); [lia|lia| |]; [by eapply paired_nth|by apply nodes_at_nth]. }
  rewrite Hw, take_ge by lia. lia.
Qed.

Lemma jskip_tree toks i t : paired [t] -> node_at toks i t -> jskip toks i = (i + tsize t)%nat.
Proof. by apply (jskip_exact (tsize t)). Qed.

Lemma walk_exact toks b ks k : paired ks -> nodes_at toks b ks -> (k <= length ks)%nat ->
  Nat.iter k (jskip toks) b = (b + tsizes (take k ks))%nat.
Proof.
  intros Hp Hn. induction k as [|k IH]; intros Hl; [cbn; by rewrite Nat.add_0_r|].
  rewrite Nat.iter_succ, IH by lia.
  destruct (lookup_lt_is_Some_2 ks k) as [t Ht]; [lia|].
  rewrite (tsizes_take_S _ _ _ Ht), (jskip_tree _ _ t); [lia| |by apply nodes_at_nth].
  by eapply paired_nth.
Qed.

(** The token that describes a tree to [jeq], [jstr], [jint] and [jbool]. *)
Definition tree_tok (t : jtree) : JTok :=
  match t with JNode ty s e _ => Build_JTok ty s e 0 (-1) end.

(** The reference for [jfind]: the first key that matches, and the index of its value. *)
Fixpoint tree_find (js key : string) (base : nat) (ks : list jtree) : option nat :=
  match ks with
  | k :: v :: rest =>
      if jeq js (tree_tok k) key then Some (S base)
      else tree_find js key (base + tsize k + tsize v) rest
  | _ => None
  end.

Lemma jeq_node js toks i t key : node_at toks i t ->
  jeq js (tok_at toks i) key = jeq js (tree_tok t) key.
Proof.
  destruct t as [ty s e ks]. intros (H1 & H2 & H3 & _)%node_at_tok.
  unfold jeq, tok_text. by rewrite H1, H2, H3.
Qed.

Lemma jfind_loop_tree js key toks h : forall b ks,
  length ks = (2 * h)%nat -> paired ks -> nodes_at toks b ks ->
  jfind_loop js toks key h b = tree_find js key b ks.
Proof.
  induction h as [|h IH]; intros b ks Hl Hp Hn.
  { by destruct ks. }
  destruct ks as [|k [|v ks]]; cbn [length] in Hl; [lia..|]. cbn [jfind_loop tree_find].
  destruct (nodes_at_cons _ _ _ _ Hn) as [Hk Hn'].
  destruct (nodes_at_cons _ _ _ _ Hn') as [Hv Hr].
  assert (paired [k]) as Hpk by (by apply (paired_nth _ 0 _ Hp)).
  assert (paired [v]) as Hpv by (by apply (paired_nth _ 1 _ Hp)).
  rewrite (jeq_node _ _ _ _ _ Hk). destruct (jeq _ _ _); [done|].
  rewrite (jskip_tree _ _ _ Hpk Hk), (jskip_tree _ _ _ Hpv Hv). apply IH; [lia| |done].
  inversion Hp; subst. match goal with H : paired (v :: _) |- _ => by inversion H end.
Qed.

Lemma jfind_tree js key toks i s e ks :
  paired [JNode JT_OBJ s e ks] -> node_at toks i (JNode JT_OBJ s e ks) ->
  jfind js toks i key = tree_find js key (S i) ks.
Proof.
  intros Hp Hn. destruct (node_at_tok _ _ _ _ _ _ Hn) as (Hty & _ & _ & Hsz).
  pose proof (node_at_bound _ _ _ Hn) as Hb. rewrite tsize_node in Hb.
  unfold jfind. destruct (Nat.leb_spec (length toks) i); [lia|].
  rewrite bool_decide_true by done. cbn [negb]. rewrite Hsz, quot2.
  inversion Hp as [|? ? ? ? ? He _ Hpk _]; subst.
  destruct (He eq_refl) as [h Hh]. apply jfind_loop_tree; [|done|by eapply node_at_kids].
  by rewrite Hh, half_double.
Qed.
