(* ===== verification/JsonText.v ===== *)
(** * Printed JSON is read back

    A document of objects, arrays, strings without escapes, integers, booleans and other
    primitive texts, printed without spaces, is tokenized by [json_parse] so that [jfind], [jskip], [jstr], [jint]
    and [jbool] find in the array exactly what was printed. *)

From S2P Require Import Prelude CFloat CString Strtod Decimal NumText WfbJson JsonForest.

Local Open Scope list_scope.
#[local] Arguments String.append !_ _ /.

(** ** Documents *)

#[warnings="-register-all"]
Inductive json :=
  | JObj (fs : list (string * json))
  | JArr (l : list json)
  | JString (s : string)
  | JNum (z : Z)
  | JBool (b : bool)
  | JRaw (s : string).

Section Ind.
Variable P : json -> Prop.
Hypothesis HObj : forall fs, Forall (fun kv => P kv.2) fs -> P (JObj fs).
Hypothesis HArr : forall l, Forall P l -> P (JArr l).
Hypothesis HStr : forall s, P (JString s).
Hypothesis HNum : forall z, P (JNum z).
Hypothesis HBool : forall b, P (JBool b).
Hypothesis HRaw : forall s, P (JRaw s).

Fixpoint json_ind' (v : json) : P v :=
  match v with
  | JObj fs => HObj fs ((fix go fs : Forall (fun kv : string * json => P kv.2) fs :=
      match fs with
      | [] => List.Forall_nil _
      | kv :: fs => List.Forall_cons _ _ _ (json_ind' kv.2) (go fs)
      end) fs)
  | JArr l => HArr l ((fix go l : Forall P l :=
      match l with
      | [] => List.Forall_nil _
      | v :: l => List.Forall_cons _ _ _ (json_ind' v) (go l)
      end) l)
  | JString s => HStr s
  | JNum z => HNum z
  | JBool b => HBool b
  | JRaw s => HRaw s
  end.
End Ind.

(** ** Printing *)

Definition sBO : string := str1 BRACE_OPEN.
Definition sBC : string := str1 BRACE_CLOSE.
Definition sKO : string := str1 BRACKET_OPEN.
Definition sKC : string := str1 BRACKET_CLOSE.

(** [p1,p2,...] *)
Fixpoint commas (l : list string) : string :=
  match l with
  | [] => EmptyString
  | [s] => s
  | s :: l => (s ++ str1 COMMA ++ commas l)%string
  end.

Fixpoint print_json (v : json) : string :=
  match v with
  | JObj fs =>
      sBO ++ commas (map (fun kv => quoted kv.1 ++ str1 COLON ++ print_json kv.2)%string fs) ++ sBC
  | JArr l => sKO ++ commas (map print_json l) ++ sKC
  | JString s => quoted s
  | JNum z => pretty z
  | JBool b => if b then "true" else "false"
  | JRaw s => s
  end%string.

(** A primitive: it has none of the characters with a meaning of their own. *)
Definition prim_char (a : ascii) : bool :=
  negb (prim_end a) && negb (aeq a BRACE_OPEN) && negb (aeq a BRACKET_OPEN) &&
  negb (aeq a DQ) && negb (aeq a COLON).

(** A string that needs no escape. *)
Definition plain_char (a : ascii) : bool :=
  negb (aeq a DQ) && negb (aeq a BACKSLASH) && negb (aeq a NUL).
Definition plain (s : string) : Prop := all_chars plain_char s = true.

Fixpoint plain_json (v : json) : bool :=
  match v with
  | JObj fs => forallb (fun kv => all_chars plain_char kv.1 && plain_json kv.2) fs
  | JArr l => forallb plain_json l
  | JString s => all_chars plain_char s
  | JNum _ | JBool _ => true
  | JRaw s => match s with EmptyString => false | _ => all_chars prim_char s end
  end.

(** ** The trees of a document at a position of the text *)

Section Trees.
Variable tree : Z -> json -> jtree.
Fixpoint elem_trees (pos : Z) (l : list json) : list jtree :=
  match l with
  | [] => []
  | v :: l => tree pos v :: elem_trees (pos + strlen (print_json v) + 1) l
  end.
Fixpoint field_trees (pos : Z) (fs : list (string * json)) : list jtree :=
  match fs with
  | [] => []
  | (k, v) :: fs =>
      JNode JT_STR (pos + 1) (pos + 1 + strlen k) [] :: tree (pos + strlen k + 3) v ::
      field_trees (pos + strlen k + 3 + strlen (print_json v) + 1) fs
  end.
End Trees.

Fixpoint tree_of (pos : Z) (v : json) : jtree :=
  let fin := pos + strlen (print_json v) in
  match v with
  | JObj fs => JNode JT_OBJ pos fin (field_trees tree_of (pos + 1) fs)
  | JArr l => JNode JT_ARR pos fin (elem_trees tree_of (pos + 1) l)
  | JString s => JNode JT_STR (pos + 1) (fin - 1) []
  | JNum _ | JBool _ | JRaw _ => JNode JT_PRIM pos fin []
  end.

Definition json_tokens (v : json) : nat := tsize (tree_of 0 v).

(** ** The run of the parser *)

(** The loop with the fuel its text needs. *)
Definition json_run (p : JParser) (s : string) : option (option JParser) :=
  json_loop (String.length s) p s.

Lemma json_run_cons p c s p' r :
  json_step p c s = Some (p', r) -> json_run p (String c s) = json_run p' r.
Proof.
  intros H. unfold json_run. cbn [String.length json_loop]. rewrite H.
  apply json_step_progress in H.
  destruct (json_loop_total (String.length r) p' r) as [x Hx]; [done|].
  rewrite Hx. by eapply json_loop_more.
Qed.

(** The text after a value begins with a character that ends a primitive. *)
Definition ends_value (t : string) : Prop :=
  match t with EmptyString => True | String a _ => prim_end a = true end.

Section Run.
Variable max : Z.

(** The zipper after a finished value. *)
Definition zplus (roots : list jtree) (fs : list frame) (t : jtree) (pos : Z) : JParser :=
  zstate max (zadd roots fs t).1 (zadd roots fs t).2 pos.

Lemma zstate_leaf roots fs pos ty s e pos' :
  Z.of_nat (zlen roots fs) < max ->
  exists p, add_tok (zstate max roots fs pos) ty s e = Some p /\
            p <| jp_pos := pos' |> = zplus roots fs (JNode ty s e []) pos'.
Proof.
  intros Hl. rewrite zstate_add.
  destruct (Z.geb_spec (Z.of_nat (zlen roots fs)) max); [lia|]. eexists. split; [done|].
  unfold zplus, zstate. cbn. rewrite zflat_add, zsuper_add, flat_node. done.
Qed.

Lemma scan_str_plain k pos t : plain k ->
  scan_str pos (k ++ String DQ t) = Some (pos + strlen k, t).
Proof.
  unfold plain. revert pos. induction k as [|a k IH]; intros pos Hk.
  - cbn. do 2 f_equal. lia.
  - cbn [all_chars] in Hk. apply andb_true_iff in Hk as [Ha Hk]. unfold plain_char in Ha.
    bool_hyps. cbn [String.append scan_str strlen].
    repeat match goal with H : aeq a _ = false |- _ => rewrite H; clear H end.
    rewrite IH by done. do 2 f_equal. lia.
Qed.

Lemma run_string roots fs pos k t : plain k -> Z.of_nat (zlen roots fs) < max ->
  json_run (zstate max roots fs pos) (quoted k ++ t) =
  json_run (zplus roots fs (JNode JT_STR (pos + 1) (pos + 1 + strlen k) [])
             (pos + strlen (quoted k))) t.
Proof.
  intros Hk Hl. unfold quoted. cbn [str1 String.append]. rewrite sapp_assoc.
  apply json_run_cons. unfold json_step.
  cbn [str1 String.append]. aeq_consts. unfold wfb_json_parse_str.
  rewrite scan_str_plain by done. cbn [mbind option_bind jp_pos zstate].
  destruct (zstate_leaf roots fs pos JT_STR (pos + 1) (pos + 1 + strlen k)
    (pos + 1 + strlen k + 1) Hl) as (p & -> & Hp).
  cbn [mbind option_bind]. rewrite Hp. do 3 f_equal.
  cbn. rewrite strlen_app. cbn. lia.
Qed.

Lemma run_skip roots fs pos c t : json_space c || aeq c COLON || aeq c COMMA = true ->
  json_run (zstate max roots fs pos) (String c t) = json_run (zstate max roots fs (pos + 1)) t.
Proof.
  intros Hc. apply json_run_cons. unfold json_step. rewrite Hc.
  assert (forall d, json_space d || aeq d COLON || aeq d COMMA = false -> aeq c d = false) as Hd.
  { intros d Hd. apply Ascii.eqb_neq. intros ->. by rewrite Hd in Hc. }
  rewrite !Hd by done. done.
Qed.

Lemma run_prim roots fs pos b t :
  b <> EmptyString -> all_chars prim_char b = true -> ends_value t ->
  Z.of_nat (zlen roots fs) < max ->
  json_run (zstate max roots fs pos) (b ++ t) =
  json_run (zplus roots fs (JNode JT_PRIM pos (pos + strlen b) []) (pos + strlen b)) t.
Proof.
  intros Hne Hb Ht Hl. destruct b as [|c b]; [done|]. cbn [String.append].
  apply json_run_cons. unfold json_step, wfb_json_parse_prim.
  assert (all_chars (fun a => negb (prim_end a)) (String c b) = true) as Hend.
  { eapply all_chars_impl; [|exact Hb]. unfold prim_char. intros a Ha. bool_hyps.
    by apply negb_true_iff. }
  pose proof (span_until_all prim_end (String c b) t Hend) as Hspan.
  cbn [String.append] in Hspan. rewrite Hspan by (by destruct t).
  cbn [all_chars] in Hb. apply andb_true_iff in Hb as [Hc _]. unfold prim_char, prim_end in Hc.
  bool_hyps. repeat match goal with H : _ = false |- _ => rewrite H; clear H end. cbn [orb].
  destruct (zstate_leaf roots fs pos JT_PRIM pos (pos + strlen (String c b))
    (pos + strlen (String c b)) Hl) as (p & Hadd & Hp).
  cbn [jp_pos zstate]. rewrite Hadd. cbn [mbind option_bind].
  do 2 f_equal. exact Hp.
Qed.

Lemma run_open roots fs pos (obj : bool) t : Z.of_nat (zlen roots fs) < max ->
  json_run (zstate max roots fs pos)
    (String (if obj then BRACE_OPEN else BRACKET_OPEN) t) =
  json_run (zstate max roots
    (Build_frame (if obj then JT_OBJ else JT_ARR) pos [] :: fs) (pos + 1)) t.
Proof.
  intros Hl. apply json_run_cons. unfold json_step, json_open.
  rewrite !zstate_add. destruct (Z.geb_spec (Z.of_nat (zlen roots fs)) max); [lia|].
  unfold zstate. destruct obj; cbn; rewrite length_app, length_zflat; cbn [length];
    replace (Z.of_nat (zlen roots fs + 1) - 1) with (Z.of_nat (zlen roots fs)) by lia; done.
Qed.

Lemma run_close roots fs pos (obj : bool) s ks t :
  let ty := if obj then JT_OBJ else JT_ARR in
  json_run (zstate max roots (Build_frame ty s ks :: fs) pos)
    (String (if obj then BRACE_CLOSE else BRACKET_CLOSE) t) =
  json_run (zplus roots fs (JNode ty s (pos + 1) ks) (pos + 1)) t.
Proof.
  intros ty. apply json_run_cons. unfold json_step.
  set (p := zstate max roots (Build_frame ty s ks :: fs) pos).
  assert (json_close p ty = Some (zplus roots fs (JNode ty s (pos + 1) ks) pos)) as Hc.
  { unfold json_close, p, zstate. cbn [jp_super jp_toks jp_pos zsuper zflat fr_type fr_start fr_kids].
    destruct (Z.ltb_spec (Z.of_nat (zlen roots fs)) 0); [lia|].
    rewrite tok_at_app_at by (rewrite length_zflat; lia). cbn [jt_type].
    rewrite bool_decide_true by done. cbn [negb].
    rewrite alter_app_at, tok_at_app_at by (rewrite length_zflat; lia).
    cbn [jt_parent set_field]. f_equal. unfold zplus, zstate. cbn.
    rewrite json_climb_open, zflat_add, zsuper_add, flat_node. cbn. by rewrite Z.add_0_r. }
  clearbody p. subst ty. destruct obj; aeq_consts; rewrite Hc; done.
Qed.

(** Reading a printed value attaches its tree where the parser stands. *)
Definition reads (v : json) : Prop := forall roots fs pos t,
  Z.of_nat (zlen roots fs + tsize (tree_of pos v)) <= max -> ends_value t ->
  json_run (zstate max roots fs pos) (print_json v ++ t) =
  json_run (zplus roots fs (tree_of pos v) (pos + strlen (print_json v))) t.

(** Inside an open container, whose closing character follows. *)
Lemma run_elems roots fs ty s l t : Forall reads l -> ends_value t -> t <> EmptyString ->
  forall ks pos,
  Z.of_nat (zlen roots (Build_frame ty s (ks ++ elem_trees tree_of pos l) :: fs)) <= max ->
  json_run (zstate max roots (Build_frame ty s ks :: fs) pos)
    (commas (map print_json l) ++ t) =
  json_run (zstate max roots (Build_frame ty s (ks ++ elem_trees tree_of pos l) :: fs)
    (pos + strlen (commas (map print_json l)))) t.
Proof.
  intros Hl Ht Hne. induction Hl as [|v l Hv _ IH]; intros ks pos Hm.
  { cbn. by rewrite app_nil_r, Z.add_0_r. }
  cbn [elem_trees map] in *. set (c := pos + strlen (print_json v)) in *.
  assert (Z.of_nat (zlen roots (Build_frame ty s ks :: fs) + tsize (tree_of pos v)) <= max) as Hm1.
  { cbn [zlen fr_kids] in *. rewrite tsizes_app in Hm. cbn [tsizes fold_right] in Hm. lia. }
  destruct l as [|w l].
  - cbn [map commas elem_trees]. by rewrite Hv.
  - set (text := commas (map print_json (w :: l))) in *.
    change (commas (print_json v :: map print_json (w :: l)))
      with (print_json v ++ str1 COMMA ++ text)%string.
    rewrite !sapp_assoc, Hv by done.
    unfold zplus. cbn [zadd fst snd fr_type fr_start fr_kids]. fold c.
    cbn [str1 String.append]. rewrite run_skip by done.
    rewrite IH; rewrite <- app_assoc; [|done]. cbn [app]. do 2 f_equal. subst c.
    rewrite strlen_app. cbn [strlen]. lia.
Qed.

Lemma run_field roots fs ty s ks pos k v t : plain k -> reads v -> ends_value t ->
  Z.of_nat (zlen roots (Build_frame ty s ks :: fs) + S (tsize (tree_of (pos + strlen k + 3) v)))
    <= max ->
  json_run (zstate max roots (Build_frame ty s ks :: fs) pos)
    ((quoted k ++ str1 COLON ++ print_json v) ++ t) =
  json_run (zstate max roots (Build_frame ty s
      (ks ++ [JNode JT_STR (pos + 1) (pos + 1 + strlen k) []; tree_of (pos + strlen k + 3) v]) :: fs)
    (pos + strlen (quoted k ++ str1 COLON ++ print_json v))) t.
Proof.
  intros Hk Hv Ht Hm. cbn [zlen fr_kids] in Hm. rewrite !sapp_assoc.
  rewrite run_string by (cbn [zlen fr_kids]; (done || lia)).
  unfold zplus. cbn [zadd fst snd fr_type fr_start fr_kids].
  cbn [str1 String.append]. rewrite run_skip by done.
  assert (pos + strlen (quoted k) + 1 = pos + strlen k + 3) as E.
  { unfold quoted. rewrite !strlen_app. cbn. lia. }
  rewrite E, Hv; [|cbn [zlen fr_kids]; rewrite tsizes_app; cbn; lia|done].
  unfold zplus. cbn [zadd fst snd fr_type fr_start fr_kids]. rewrite <- app_assoc.
  cbn [app]. do 2 f_equal. rewrite strlen_app. cbn [strlen]. lia.
Qed.

Lemma run_fields roots fs ty s l t :
  Forall (fun kv => reads kv.2) l -> Forall (fun kv => plain kv.1) l ->
  ends_value t -> t <> EmptyString -> forall ks pos,
  Z.of_nat (zlen roots (Build_frame ty s (ks ++ field_trees tree_of pos l) :: fs)) <= max ->
  let text := commas
    (map (fun kv => quoted kv.1 ++ str1 COLON ++ print_json kv.2)%string l) in
  json_run (zstate max roots (Build_frame ty s ks :: fs) pos) (text ++ t) =
  json_run (zstate max roots (Build_frame ty s (ks ++ field_trees tree_of pos l) :: fs)
    (pos + strlen text)) t.
Proof.
  intros Hl Hp Ht Hne. induction Hl as [|[k v] l Hv _ IH]; intros ks pos Hm text.
  { cbn. by rewrite app_nil_r, Z.add_0_r. }
  apply List.Forall_cons_iff in Hp as [Hk Hp]. cbn [fst snd] in *.
  assert (Z.of_nat (zlen roots (Build_frame ty s ks :: fs) +
            S (tsize (tree_of (pos + strlen k + 3) v))) <= max) as Hm1.
  { cbn [zlen fr_kids field_trees] in *. rewrite tsizes_app in Hm.
    cbn [tsizes fold_right tsize] in Hm. lia. }
  subst text. cbn [map field_trees] in *. destruct l as [|w l].
  - cbn [map commas field_trees fst snd]. by rewrite run_field.
  - set (text := commas (map _ (w :: l))) in *.
    change (commas _) with ((quoted k ++ str1 COLON ++ print_json v) ++ str1 COMMA ++ text)%string.
    rewrite (sapp_assoc (quoted k ++ _)), run_field by done. rewrite sapp_assoc.
    cbn [str1 String.append]. rewrite run_skip by done.
    assert (pos + strlen (quoted k ++ String COLON (print_json v)) + 1 =
            pos + strlen k + 3 + strlen (print_json v) + 1) as E.
    { unfold quoted, str1. rewrite !strlen_app. cbn [strlen]. lia. }
    rewrite E. cbv zeta in IH. rewrite IH; [|done|]; rewrite <- app_assoc; [|done].
    cbn [app]. do 2 f_equal. rewrite !strlen_app in *. cbn [strlen] in *. lia.
Qed.

Lemma prim_text_int (z : Z) : all_chars prim_char (pretty z) = true.
Proof.
  eapply all_chars_impl; [|apply pretty_int_chars]. intros a Ha.
  assert (forall d, int_char d = false -> aeq a d = false) as Hd.
  { intros d Hd. apply Ascii.eqb_neq. intros ->. by rewrite Hd in Ha. }
  unfold prim_char, prim_end, json_space. by rewrite !Hd by reflexivity.
Qed.

Lemma read_value v : plain_json v = true -> reads v.
Proof.
  induction v as [fs IH|l IH|s|z|b|r] using json_ind'; intros Hp roots fr pos t Hm Ht;
    cbn [print_json tree_of] in *.
  - cbn [plain_json] in Hp. rewrite forallb_forall in Hp.
    assert (Forall (fun kv => reads kv.2) fs /\ Forall (fun kv => plain kv.1) fs) as [H1 H2].
    { rewrite !List.Forall_forall in *. split; intros kv Hin; specialize (Hp _ Hin);
        apply andb_true_iff in Hp as [? ?]; [by apply IH|done]. }
    cbn [tsize fold_right] in Hm. unfold sBO, sBC, str1. cbn [String.append].
    rewrite sapp_assoc. change BRACE_OPEN with (if true then BRACE_OPEN else BRACKET_OPEN).
    rewrite run_open by lia.
    pose proof (run_fields roots fr JT_OBJ pos fs (String BRACE_CLOSE t) H1 H2) as Hf.
    rewrite Hf by done.
    clear Hf. cbn [app String.append].
    change BRACE_CLOSE with (if true then BRACE_CLOSE else BRACKET_CLOSE) at 1.
    change JT_OBJ with (if true then JT_OBJ else JT_ARR) at 1. rewrite run_close.
    unfold zplus. cbn [strlen]. rewrite strlen_app. cbn [strlen].
    by rewrite !Z.add_assoc, Z.add_0_r.
  - cbn [plain_json] in Hp. rewrite forallb_forall in Hp.
    assert (Forall reads l) as H1.
    { rewrite !List.Forall_forall in *. intros v Hin. by apply IH, Hp. }
    cbn [tsize fold_right] in Hm. unfold sKO, sKC, str1. cbn [String.append].
    rewrite sapp_assoc. change BRACKET_OPEN with (if false then BRACE_OPEN else BRACKET_OPEN).
    rewrite run_open by lia.
    pose proof (run_elems roots fr JT_ARR pos l (String BRACKET_CLOSE t) H1) as Hf.
    rewrite Hf by done.
    clear Hf. cbn [app String.append].
    change BRACKET_CLOSE with (if false then BRACE_CLOSE else BRACKET_CLOSE) at 1.
    change JT_ARR with (if false then JT_OBJ else JT_ARR) at 1. rewrite run_close.
    unfold zplus. cbn [strlen]. rewrite strlen_app. cbn [strlen].
    by rewrite !Z.add_assoc, Z.add_0_r.
  - rewrite run_string; [|done|cbn in Hm; lia].
    assert (pos + strlen (quoted s) - 1 = pos + 1 + strlen s) as ->; [|done].
    unfold quoted, str1. rewrite !strlen_app. cbn [strlen]. lia.
  - apply run_prim; [|apply prim_text_int|done|cbn in Hm; lia].
    destruct (pretty_nonempty z) as (a & s & -> & _). done.
  - apply run_prim; [by destruct b|by destruct b|done|cbn in Hm; lia].
  - cbn [plain_json] in Hp. apply run_prim; [by destruct r|by destruct r|done|cbn in Hm; lia].
Qed.
End Run.

(** A printed document is tokenized to the listing of its tree. *)
Lemma json_parse_print max v :
  plain_json v = true -> Z.of_nat (json_tokens v) <= max ->
  json_parse (print_json v) max = Some (flat (-1) 0 (tree_of 0 v)).
Proof.
  intros Hp Hm. pose proof (read_value max v Hp [] [] 0 EmptyString) as H.
  cbn [zlen tsizes fold_right] in H. rewrite sapp_nil_r in H.
  specialize (H Hm I). unfold json_parse.
  change (parser_init max) with (zstate max [] [] 0).
  change (json_loop _ _ _) with (json_run (zstate max [] [] 0) (print_json v)). rewrite H.
  unfold zplus. cbn. by rewrite app_nil_r.
Qed.

(** ** What the walkers find *)

(** The first field named [key]. *)
Fixpoint field (key : string) (fs : list (string * json)) : option json :=
  match fs with
  | [] => None
  | (k, v) :: fs => if String.eqb k key then Some v else field key fs
  end.

Section Holds.
Context `{!CAbi} (js : string) (toks : list JTok).

(** Numbers that a [long] can hold. *)
Fixpoint json_fits (v : json) : bool :=
  match v with
  | JObj fs => forallb (fun kv => json_fits kv.2) fs
  | JArr l => forallb json_fits l
  | JNum z => (LONG_MIN <=? z) && (z <=? LONG_MAX)
  | JString _ | JBool _ | JRaw _ => true
  end.

(** The token at [i] stands for [v], by the functions of the header. *)
#[warnings="-register-all"]
Inductive holds : nat -> json -> Prop :=
| holds_num i z : jint js (tok_at toks i) = Some z -> holds i (JNum z)
| holds_bool i b : jbool js (tok_at toks i) = Some b -> holds i (JBool b)
| holds_raw i s :
    jt_type (tok_at toks i) = JT_PRIM -> tok_text js (tok_at toks i) = s -> holds i (JRaw s)
| holds_str i s :
    (forall cap, strlen s < cap -> jstr js (tok_at toks i) cap = Some s) -> holds i (JString s)
| holds_arr i l :
    jt_type (tok_at toks i) = JT_ARR -> jt_size (tok_at toks i) = Z.of_nat (length l) ->
    (forall k v, l !! k = Some v -> holds (Nat.iter k (jskip toks) (S i)) v) ->
    holds i (JArr l)
| holds_obj i fs :
    jt_type (tok_at toks i) = JT_OBJ ->
    (forall key, field key fs = None -> jfind js toks i key = None) ->
    (forall key v, field key fs = Some v -> is_Some (jfind js toks i key)) ->
    (forall key v j, field key fs = Some v -> jfind js toks i key = Some j -> holds j v) ->
    holds i (JObj fs).

(** [s] is the text of [js] at [pos]. *)
Definition text_here (pos : Z) (s : string) : Prop :=
  exists pre post, js = (pre ++ s ++ post)%string /\ strlen pre = pos.

Lemma text_at_here pos s : text_here pos s -> text_at js pos (pos + strlen s) = s.
Proof.
  intros (pre & post & -> & <-). unfold text_at. rewrite !strlen_length, Nat2Z.id, drop_chars_app.
  replace (Z.to_nat _) with (String.length s) by lia. apply take_chars_app.
Qed.

Lemma text_here_at pos q s : text_here pos s -> pos = q -> text_here q s.
Proof. by intros ? <-. Qed.

Lemma text_here_app pos s t : text_here pos (s ++ t) ->
  text_here pos s /\ text_here (pos + strlen s) t.
Proof.
  intros (pre & post & Hjs & <-). rewrite sapp_assoc in Hjs. split.
  - by exists pre, (t ++ post)%string.
  - exists (pre ++ s)%string, post. rewrite !sapp_assoc. split; [done|].
    by rewrite strlen_app.
Qed.

Lemma until_nul_plain s : plain s -> until_nul s = s.
Proof.
  intros Hs. unfold until_nul. rewrite <- (sapp_nil_r s) at 1.
  rewrite span_until_all; [done| |done]. eapply all_chars_impl; [|exact Hs].
  unfold plain_char. intros a Ha. bool_hyps. by apply negb_true_iff.
Qed.

Lemma jeq_here pos k key ty : plain k -> text_here pos k ->
  jeq js (Build_JTok ty pos (pos + strlen k) 0 (-1)) key =
  bool_decide (ty = JT_STR) && String.eqb k key.
Proof.
  intros Hk Ht. unfold jeq, tok_text. cbn [jt_type jt_start jt_end].
  rewrite (text_at_here _ _ Ht). destruct (bool_decide (ty = JT_STR)); [|done]. cbn [andb].
  destruct (String.eqb_spec k key) as [->|]; [|by rewrite andb_false_r].
  destruct (Z.eqb_spec (pos + strlen key - pos) (strlen key)); [done|lia].
Qed.

Lemma elem_trees_length pos l : length (elem_trees tree_of pos l) = length l.
Proof. revert pos. induction l as [|v l IH]; intros pos; cbn; by rewrite ?IH. Qed.

Lemma field_trees_length pos fs : length (field_trees tree_of pos fs) = (2 * length fs)%nat.
Proof.
  revert pos. induction fs as [|[k v] fs IH]; intros pos; cbn [field_trees length]; [done|].
  rewrite IH. lia.
Qed.

Lemma tree_paired v : forall pos, paired [tree_of pos v].
Proof.
  assert (forall ty s e ks, (ty = JT_OBJ -> Nat.Even (length ks)) ->
    (ks <> [] -> is_container ty = true) -> paired ks -> paired [JNode ty s e ks]) as Hone.
  { intros. by repeat constructor. }
  induction v as [fs IH|l IH|s|z|b|r] using json_ind'; intros pos; cbn [tree_of];
    apply Hone; try done; try (by constructor).
  - intros _. rewrite field_trees_length. by exists (length fs).
  - generalize (pos + 1) as q. clear -IH Hone. induction IH as [|[k v] fs Hv _ IH]; intros q;
      cbn [field_trees]; [constructor|].
    specialize (Hv (q + strlen k + 3)). cbn in Hv. inversion Hv; subst.
    constructor; try done; by constructor.
  - generalize (pos + 1) as q. clear -IH. induction IH as [|v l Hv _ IH]; intros q;
      cbn [elem_trees]; [constructor|].
    specialize (Hv q). inversion Hv; subst. by constructor.
Qed.

Lemma commas_here pos s l : text_here pos (commas (s :: l)) ->
  text_here pos s /\ (l <> [] -> text_here (pos + strlen s + 1) (commas l)).
Proof.
  destruct l as [|s' l]; [done|].
  change (commas (s :: s' :: l)) with (s ++ str1 COMMA ++ commas (s' :: l))%string.
  intros [H1 H2]%text_here_app. split; [done|]. intros _.
  by apply text_here_app in H2 as [_ H2].
Qed.

Lemma find_fields fs : Forall (fun kv => plain kv.1) fs -> forall pos b key,
  (fs <> [] -> text_here pos
     (commas (map (fun kv => quoted kv.1 ++ str1 COLON ++ print_json kv.2)%string fs))) ->
  nodes_at toks b (field_trees tree_of pos fs) ->
  match field key fs with
  | None => tree_find js key b (field_trees tree_of pos fs) = None
  | Some v => exists k j q, (k, v) ∈ fs /\
      tree_find js key b (field_trees tree_of pos fs) = Some j /\
      node_at toks j (tree_of q v) /\ text_here q (print_json v)
  end.
Proof.
  induction 1 as [|[k v] fs Hk _ IH]; intros pos b key Ht Hn; [done|].
  cbn [field_trees field tree_find tree_tok fst snd map] in *.
  destruct (commas_here _ _ _ (Ht ltac:(done))) as [H1 Hrest]. clear Ht.
  unfold quoted at 1 in H1. rewrite !sapp_assoc in H1.
  apply text_here_app in H1 as [_ [H1 H2]%text_here_app].
  apply text_here_app in H2 as [_ [_ H2]%text_here_app].
  change (strlen (str1 DQ)) with 1 in *. change (strlen (str1 COLON)) with 1 in *.
  rewrite jeq_here, bool_decide_true by done. cbn [andb].
  destruct (nodes_at_cons _ _ _ _ Hn) as [_ Hn1].
  destruct (nodes_at_cons _ _ _ _ Hn1) as [Hv Hn2].
  destruct (String.eqb k key).
  { exists k, (S b), (pos + strlen k + 3). split_and!; try done.
    - by left.
    - by replace (S b) with (b + tsize (JNode JT_STR (pos + 1) (pos + 1 + strlen k) []))%nat
        by (cbn; lia).
    - eapply text_here_at; [exact H2|lia]. }
  assert (fs <> [] -> text_here (pos + strlen k + 3 + strlen (print_json v) + 1)
    (commas (map (fun kv => quoted kv.1 ++ str1 COLON ++ print_json kv.2)%string fs))) as Hrest'.
  { intros Hne. eapply text_here_at; [apply Hrest; by destruct fs|].
    unfold quoted, str1. rewrite !strlen_app. cbn [strlen]. lia. }
  specialize (IH _ _ key Hrest' Hn2).
  destruct (field key fs) as [u|]; [|done].
  destruct IH as (k' & j & q & Hin & ? & ? & ?). exists k', j, q. split_and!; try done. by right.
Qed.

Lemma nth_elem l : forall pos k v, (l <> [] -> text_here pos (commas (map print_json l))) ->
  l !! k = Some v -> exists q,
  elem_trees tree_of pos l !! k = Some (tree_of q v) /\ text_here q (print_json v).
Proof.
  induction l as [|u l IH]; intros pos k v Ht Hk; [done|].
  cbn [map elem_trees] in *.
  destruct (commas_here _ _ _ (Ht ltac:(done))) as [H1 Hrest]. destruct k as [|k].
  - injection Hk as <-. by exists pos.
  - apply (IH _ k v); [|done]. intros Hne. apply Hrest. by destruct l.
Qed.

Lemma jint_here pos (z : Z) toks_i : LONG_MIN <= z <= LONG_MAX -> text_here pos (pretty z) ->
  jt_type toks_i = JT_PRIM -> jt_start toks_i = pos ->
  jt_end toks_i = pos + strlen (pretty z) -> jint js toks_i = Some z.
Proof.
  intros Hz Ht Hty Hs He. unfold jint, tok_text. rewrite Hty, Hs, He.
  rewrite bool_decide_true by done. cbn [negb]. rewrite (text_at_here _ _ Ht).
  assert (1 <= strlen (pretty z) <= 20) as Hl.
  { split.
    - destruct (pretty_nonempty z) as (a & s & -> & _). cbn [strlen]. pose proof (strlen_nonneg s). lia.
    - apply (pretty_length z 19); [done|]. unfold LONG_MIN, LONG_MAX in Hz.
      destruct long_bits_ok as [E|E]; rewrite E in Hz; lia. }
  destruct (Z.leb_spec (pos + strlen (pretty z) - pos) 0); [lia|].
  destruct (Z.geb_spec (pos + strlen (pretty z) - pos) 32); [lia|]. cbn [orb].
  assert (plain (pretty z)) as Hp.
  { eapply all_chars_impl; [|apply pretty_int_chars]. intros a Ha. unfold plain_char.
    assert (forall d, int_char d = false -> aeq a d = false) as Hd.
    { intros d Hd. apply Ascii.eqb_neq. intros ->. by rewrite Hd in Ha. }
    by rewrite !Hd by reflexivity. }
  rewrite until_nul_plain by done. rewrite <- (sapp_nil_r (pretty z)).
  by rewrite strtol_pretty.
Qed.

Lemma holds_tree v : plain_json v = true -> json_fits v = true -> forall i pos,
  text_here pos (print_json v) -> node_at toks i (tree_of pos v) -> holds i v.
Proof.
  induction v as [fs IH|l IH|s|z|b|r] using json_ind'; intros Hp Hf i pos Ht Hn;
    cbn [print_json tree_of plain_json json_fits] in *.
  - destruct (node_at_tok _ _ _ _ _ _ Hn) as (Hty & _).
    rewrite forallb_forall in Hp, Hf.
    assert (Forall (fun kv => plain kv.1) fs) as Hk.
    { apply List.Forall_forall. intros kv Hin. specialize (Hp _ Hin). by bool_hyps. }
    assert (fs <> [] -> text_here (pos + 1) (commas
      (map (fun kv => quoted kv.1 ++ str1 COLON ++ print_json kv.2)%string fs))) as Ht'.
    { intros _. apply text_here_app in Ht as [_ Ht]. by apply text_here_app in Ht as [Ht _]. }
    pose proof (tree_paired (JObj fs) pos) as Hpair. cbn [tree_of] in Hpair.
    pose proof (fun key => find_fields fs Hk (pos + 1) (S i) key Ht' (node_at_kids _ _ _ _ _ _ Hn)) as Hfind.
    pose proof (fun key => jfind_tree js key toks i _ _ _ Hpair Hn) as Hjf.
    constructor; [done|..].
    + intros key Hkey. specialize (Hfind key). rewrite Hkey in Hfind. by rewrite Hjf.
    + intros key v Hkey. specialize (Hfind key). rewrite Hkey in Hfind.
      destruct Hfind as (k & j & q & _ & E & _). by rewrite Hjf, E.
    + intros key v j Hkey Hj. specialize (Hfind key). rewrite Hkey in Hfind.
      destruct Hfind as (k & j' & q & Hin & E & Hnode & Htext).
      rewrite Hjf, E in Hj. injection Hj as <-. apply list_elem_of_In in Hin.
      rewrite List.Forall_forall in IH. specialize (Hp _ Hin). specialize (Hf _ Hin).
      bool_hyps. by eapply (IH _ Hin).
  - destruct (node_at_tok _ _ _ _ _ _ Hn) as (Hty & _ & _ & Hsz).
    rewrite forallb_forall in Hp, Hf.
    assert (l <> [] -> text_here (pos + 1) (commas (map print_json l))) as Ht'.
    { intros _. apply text_here_app in Ht as [_ Ht]. by apply text_here_app in Ht as [Ht _]. }
    pose proof (tree_paired (JArr l) pos) as Hpair. cbn [tree_of] in Hpair. inversion Hpair; subst.
    pose proof (node_at_kids _ _ _ _ _ _ Hn) as Hkids.
    constructor; [done|by rewrite Hsz, elem_trees_length|].
    intros k v Hk. destruct (nth_elem l (pos + 1) k v Ht' Hk) as (q & Hq & Htext).
    rewrite (walk_exact _ _ (elem_trees tree_of (pos + 1) l)); [|done|done|].
    + rewrite List.Forall_forall in IH. apply list_elem_of_lookup_2, list_elem_of_In in Hk.
      eapply (IH v Hk); [by apply Hp|by apply Hf|exact Htext|by apply nodes_at_nth].
    + apply lookup_lt_Some in Hk. rewrite elem_trees_length. lia.
  - destruct (node_at_tok _ _ _ _ _ _ Hn) as (Hty & Hs & He & _). constructor. intros cap Hcap.
    unfold jstr. rewrite Hty, Hs, He, bool_decide_true by done. cbn [negb].
    unfold quoted in *. rewrite !strlen_app. cbn [strlen str1].
    apply text_here_app in Ht as [_ [Ht _]%text_here_app]. change (strlen (str1 DQ)) with 1 in Ht.
    replace (pos + (1 + 0 + (strlen s + (1 + 0))) - 1 - (pos + 1)) with (strlen s) by lia.
    pose proof (strlen_nonneg s). destruct (Z.ltb_spec (strlen s) 0); [lia|].
    destruct (Z.geb_spec (strlen s) cap); [lia|]. cbn [orb].
    rewrite (text_at_here _ _ Ht). by rewrite until_nul_plain.
  - destruct (node_at_tok _ _ _ _ _ _ Hn) as (Hty & Hs & He & _). constructor.
    by eapply jint_here; [lia|..].
  - destruct (node_at_tok _ _ _ _ _ _ Hn) as (Hty & Hs & He & _). constructor.
    unfold jbool, tok_text. rewrite Hty, Hs, He, bool_decide_true by done. cbn [negb].
    rewrite (text_at_here _ _ Ht). by destruct b.
  - destruct (node_at_tok _ _ _ _ _ _ Hn) as (Hty & Hs & He & _). constructor; [done|].
    unfold tok_text. rewrite Hs, He. by apply text_at_here.
Qed.
End Holds.

(** A printed document is tokenized and found again. *)
Lemma printed_holds `{!CAbi} max v :
  plain_json v = true -> json_fits v = true -> Z.of_nat (json_tokens v) <= max ->
  exists toks, json_parse (print_json v) max = Some toks /\ holds (print_json v) toks 0 v.
Proof.
  intros Hp Hf Hm. exists (flat (-1) 0 (tree_of 0 v)). split; [by apply json_parse_print|].
  apply (holds_tree _ _ _ Hp Hf 0 0).
  - exists EmptyString, EmptyString. cbn. by rewrite sapp_nil_r.
  - exists (-1), [], []. by rewrite app_nil_r.
Qed.

(** The number of its tokens, from the document alone. *)
Fixpoint jsize (v : json) : nat :=
  match v with
  | JObj fs => S (fold_right (fun kv n => S (jsize kv.2 + n)) 0%nat fs)
  | JArr l => S (fold_right (fun v n => jsize v + n)%nat 0%nat l)
  | _ => 1%nat
  end.

Lemma tsize_tree v : forall pos, tsize (tree_of pos v) = jsize v.
Proof.
  induction v as [fs IH|l IH|s|z|b|r] using json_ind'; intros pos; cbn [tree_of jsize]; try done;
    rewrite tsize_node; f_equal; generalize (pos + 1) as q.
  - induction IH as [|[k v] fs Hv _ IH]; intros q; [done|]. cbn [field_trees tsizes fold_right fst snd] in *.
    rewrite Hv. fold (tsizes (field_trees tree_of (q + strlen k + 3 + strlen (print_json v) + 1) fs)).
    rewrite IH. done.
  - induction IH as [|v l Hv _ IH]; intros q; [done|]. cbn [elem_trees tsizes fold_right] in *.
    rewrite Hv. fold (tsizes (elem_trees tree_of (q + strlen (print_json v) + 1) l)).
    by rewrite IH.
Qed.

Lemma json_tokens_size v : json_tokens v = jsize v.
Proof. apply tsize_tree. Qed.

(** ** Numbers as primitives *)

Lemma num_char_prim a : num_char a = true -> prim_char a = true.
Proof.
  intros Ha. assert (forall d, num_char d = false -> aeq a d = false) as Hd.
  { intros d Hd. apply Ascii.eqb_neq. intros ->. by rewrite Hd in Ha. }
  unfold prim_char, prim_end, json_space. by rewrite !Hd by reflexivity.
Qed.

Lemma plain_raw s : s <> EmptyString -> all_chars num_char s = true -> plain_json (JRaw s) = true.
Proof.
  intros Hne Hs. cbn [plain_json]. destruct s; [done|].
  eapply all_chars_impl; [|exact Hs]. exact num_char_prim.
Qed.

Lemma plain_printf_f n x : plain_json (JRaw (printf_f n x)) = true.
Proof. apply plain_raw; [apply printf_f_nonempty|apply printf_f_chars]. Qed.

Lemma plain_printf_g x : plain_json (JRaw (printf_g x)) = true.
Proof. apply plain_raw; [apply printf_g_nonempty|apply printf_g_chars]. Qed.

(** (C25) Printing and tokenizing: a document of plain strings, numbers that a [long] holds,
    booleans, other primitives, arrays and objects, printed and given to [json_parse], fills the token array
    without an error, and [jfind], [jskip], [jstr], [jint] and [jbool] find in the tokens
    exactly that document. *)
Theorem json_roundtrip `{!CAbi} v :
  plain_json v = true -> json_fits v = true -> Z.of_nat (json_tokens v) <= JSON_MAX_TOKS ->
  exists toks, json_parse (print_json v) JSON_MAX_TOKS = Some toks /\
               holds (print_json v) toks 0 v.
Proof. apply printed_holds. Qed.

Definition json_sample : json :=
  JObj [("mcs"%string, JArr [JNum 1; JNum (-3)]); ("on"%string, JBool true);
        ("up"%string, JObj [("cmd"%string, JString "ip link set"%string)])].

Lemma json_roundtrip_witness : exists toks,
  json_parse (print_json json_sample) JSON_MAX_TOKS = Some toks /\
  @holds abi_lp64 (print_json json_sample) toks 0 json_sample.
Proof.
  refine (@json_roundtrip abi_lp64 json_sample eq_refl eq_refl _). vm_compute. discriminate.
Defined.
