(* ===== verification/ConfigEnv.v ===== *)
(** * The link preset as shell variables

    [multicall/wfb_configenv.c]: the applet [config-env] reads the link preset
    ([/etc/wfb-link.json]) and prints one assignment a line for the start script, which gives
    the text to [eval].  [sh_eval] is a reader for the part of the shell's language that
    consists of comments and assignments of constants; it gives up on anything that could run,
    expand or redirect. *)

From S2P Require Import Prelude CString Decimal WfbJson JsonForest JsonText.

Local Open Scope list_scope.
#[local] Arguments String.append !_ _ /.

Definition WFB_ROLE_DRONE : Z := 0.
Definition WFB_ROLE_GS : Z := 1.
Definition CONFIGENV_MAX_BYTES : Z := 64 * 1024.
Definition CONFIGENV_DEFAULT_PATH : string := "/etc/wfb-link.json".

(** ** Reading fields *)

(** A document: its text and its tokens. *)
Record Doc := Build_Doc { doc_text : string; doc_toks : list JTok }.

Section Fields.
Context {ABI : CAbi}.
(** [None]: no file, or no object in it. *)
Context (js : option Doc).

(** The token of [section.key]. *)
Definition ce_find (sec key : string) : option (string * JTok) :=
  d ← js;
  s ← jfind (doc_text d) (doc_toks d) 0 sec;
  v ← jfind (doc_text d) (doc_toks d) s key;
  Some (doc_text d, tok_at (doc_toks d) v).

Definition ce_int (sec key : string) (def : Z) : Z :=
  match ce_find sec key with
  | Some (text, t) => default def (jint text t)
  | None => def
  end.

Definition ce_bool01 (sec key : string) (def : bool) : bool :=
  match ce_find sec key with
  | Some (text, t) =>
      match jbool text t with
      | Some b => b
      | None => match jint text t with Some iv => negb (iv =? 0) | None => def end
      end
  | None => def
  end.

(** An empty string counts as none; 255 bytes are kept. *)
Definition ce_str (sec key def : string) : string :=
  match ce_find sec key with
  | Some (text, t) =>
      match jstr text t 256 with
      | Some (String a s) => String a s
      | _ => def
      end
  | None => def
  end.

Definition number_start (c : ascii) : bool :=
  aeq c (ch 45) || aeq c (ch 43) || aeq c (ch 46) || isdigit c.

(** The literal text of a number. *)
Definition ce_prim (sec key def : string) : string :=
  match ce_find sec key with
  | Some (text, t) =>
      let len := jt_end t - jt_start t in
      if negb (bool_decide (jt_type t = JT_PRIM)) then def
      else if (len <=? 0) || (len >=? 256) then def
      else match tok_text text t with
           | String c _ as s => if number_start c then until_nul s else def
           | EmptyString => def
           end
  | None => def
  end.

(** ** Printing assignments *)

Definition QUOTE : ascii := ch 39.
Definition EQ_SIGN : ascii := ch 61.

(** A quote ends the quoted part, stands behind a backslash, and opens the next one. *)
Fixpoint quote_body (s : string) : string :=
  match s with
  | EmptyString => EmptyString
  | String c s =>
      if aeq c QUOTE then String QUOTE (String BACKSLASH (String QUOTE (String QUOTE (quote_body s))))
      else String c (quote_body s)
  end.

Definition emit_int (name : string) (v : Z) : string := (name ++ "=" ++ pretty v ++ str1 LF)%string.
Definition emit_b01 (name : string) (v : bool) : string :=
  (name ++ "=" ++ (if v then "1" else "0") ++ str1 LF)%string.
Definition emit_str (name v : string) : string :=
  (name ++ "=" ++ str1 QUOTE ++ quote_body v ++ str1 QUOTE ++ str1 LF)%string.

(** A line of the applet: its variable, its place in the document and its default. *)
Inductive EnvRow :=
  | RInt (name sec key : string) (def : Z)
  | RB01 (name sec key : string) (def : bool)
  | RStr (name sec key def : string)
  | RPrim (name sec key def : string).

Definition emit_row (r : EnvRow) : string :=
  match r with
  | RInt name sec key def => emit_int name (ce_int sec key def)
  | RB01 name sec key def => emit_b01 name (ce_bool01 sec key def)
  | RStr name sec key def => emit_str name (ce_str sec key def)
  | RPrim name sec key def => emit_str name (ce_prim sec key def)
  end.
End Fields.

Definition key_default (role : Z) : string :=
  if role =? WFB_ROLE_GS then "/etc/gs.key" else "/etc/drone.key".

(** The lines, in order. *)
Definition preset_rows (role : Z) : list EnvRow :=
  let key_def := key_default role in [
  RInt "WFB_CHANNEL" "radio" "channel" 161;
  RStr "WFB_HTMODE" "radio" "htmode" "HT20";
  RInt "WFB_BW" "radio" "bw" 20;
  RInt "WFB_TXPOWER" "radio" "txpower_mbm" 2000;
  RB01 "WFB_TX_PWR_BY_RATE" "radio" "tx_pwr_by_rate" false;
  RInt "WFB_MTU" "radio" "mtu" 4052;
  RStr "WFB_IFACE" "radio" "iface" "wlan0";
  RStr "KEY" "key" "file" key_def;
  RStr "WFB_KEY_SEED" "key" "seed" "Waybeam";
  RB01 "WFB_VIDEO_OPEN" "key" "open" true;
  RInt "WFB_TX_LINK" "links" "video" 207;
  RInt "WFB_RX_LINK" "links" "uplink" 208;
  RInt "WFB_PROBE_LINK" "links" "probe" 50;
  RInt "WFB_K" "fec" "k" 8;
  RInt "WFB_N" "fec" "n" 12;
  RInt "WFB_BITRATE_MIN" "fec" "bitrate_min_kbps" 2200;
  RInt "WFB_PAYLOAD_MAX" "fec" "payload_max" 0;
  RInt "WFB_PAYLOAD_MIN" "fec" "payload_min" 576;
  RInt "WFB_AIRTIME_MAX_PCT" "fec" "airtime_max_pct" 80;
  RInt "WFB_AIRTIME_PREAMBLE_US" "fec" "airtime_preamble_us" 40;
  RInt "WFB_MCS" "mcs" "boot" 2;
  RInt "WFB_MCS_MIN" "mcs" "min" 1;
  RInt "WFB_MCS_MAX" "mcs" "max" 7;
  RB01 "WFB_PROBE" "probe" "enabled" true;
  RStr "WFB_PEEK_PROFILE" "peek" "profile" "close";
  RB01 "WFB_LOG" "log" "enabled" true;
  RStr "SHM_RING" "venc" "shm" "local_shm";
  RB01 "WFB_VENC_AUTOWIRE" "venc" "auto_wire" true;
  RPrim "WFB_FAILSAFE_S" "failsafe" "uplink_s" "2.0";
  RInt "SAFE_BITRATE" "venc" "safe_startup_kbps" 4096;
  RStr "WFB_VENC_HOST" "venc" "host" "127.0.0.1:80";
  RInt "WFB_PROBE_PORT" "links" "probe_port" 50;
  RInt "WFB_CTRL" "ports" "video_ctrl" 8000;
  RInt "WFB_RX_FWD_PORT" "ports" "uplink_fwd" 5801;
  RInt "WFB_UPLINK_RX_PORT" "ports" "uplink_rx_stats" 5811;
  RInt "WFB_PROBE_CTRL" "ports" "probe_ctrl" 8001;
  RInt "WFB_PROBE_FEED" "ports" "probe_feed" 5750;
  RB01 "WFB_RECOVERY" "recovery" "enabled" true;
  RInt "WFB_RECOVERY_LINK" "links" "recovery" 209;
  RInt "WFB_RECOVERY_PORT" "ports" "recovery" 5802;
  RStr "WFB_RECOVERY_CMD" "recovery" "apfpv_cmd" "/etc/wfb/recovery-apfpv.sh"].

Section Applet.
Context {ABI : CAbi}.

Fixpoint emit_rows (js : option Doc) (rows : list EnvRow) : string :=
  match rows with [] => EmptyString | r :: rows => (emit_row js r ++ emit_rows js rows)%string end.

(** The last argument that is no option; options are skipped. *)
Fixpoint config_path (args : list string) (path : string) : string :=
  match args with
  | [] => path
  | a :: args => config_path args (if starts_with "-" a then path else a)
  end.

(** The document of a file and the name it goes by.  [file] is its text, [None] when it cannot
    be opened or there is no memory for it; at 64 KiB [fread] stops before the end of the
    file. *)
Definition load_preset (path : string) (file : option string) : option Doc * string :=
  match file with
  | None => (None, "built-in defaults"%string)
  | Some text =>
      if strlen text >=? CONFIGENV_MAX_BYTES then (None, "built-in defaults"%string)
      else match json_parse text JSON_MAX_TOKS with
           | Some (t :: toks) =>
               if bool_decide (jt_type t = JT_OBJ) then (Some (Build_Doc text (t :: toks)), path)
               else (None, "built-in defaults"%string)
           | _ => (None, "built-in defaults"%string)
           end
  end.

(** The standard output of the applet; its exit code is 0. *)
Definition wfb_configenv_main (args : list string) (files : string -> option string) (role : Z)
    : string :=
  let path := config_path args CONFIGENV_DEFAULT_PATH in
  let '(js, src) := load_preset path (files path) in
  ("# wfb-link preset (source: " ++ src ++ ")" ++ str1 LF ++ emit_rows js (preset_rows role))%string.
End Applet.

(** ** The shell's reading *)

Definition name_char (c : ascii) : bool :=
  isdigit c || (65 <=? code c) && (code c <=? 90) || (97 <=? code c) && (code c <=? 122) ||
  aeq c (ch 95).

(** Characters that stand for themselves outside quotes. *)
Definition plain_word_char (c : ascii) : bool :=
  name_char c || aeq c (ch 45) || aeq c (ch 46) || aeq c (ch 47).

(** A word up to the end of its line, quotes removed; [q]: inside quotes. *)
Fixpoint sh_word (q : bool) (s : string) : option (string * string) :=
  match s with
  | EmptyString => if q then None else Some (EmptyString, EmptyString)
  | String c s =>
      if q then
        if aeq c QUOTE then sh_word false s
        else '(w, rest) ← sh_word true s; Some (String c w, rest)
      else if aeq c QUOTE then sh_word true s
      else if aeq c BACKSLASH then
        match s with
        | String c' s =>
            if aeq c' LF then None else '(w, rest) ← sh_word false s; Some (String c' w, rest)
        | EmptyString => None
        end
      else if aeq c LF then Some (EmptyString, s)
      else if plain_word_char c then '(w, rest) ← sh_word false s; Some (String c w, rest)
      else None
  end.

(** The assignments of a text, in order; [None] when it holds anything else. *)
Fixpoint sh_lines (fuel : nat) (s : string) : option (list (string * string)) :=
  match fuel with
  | O => None
  | S fuel =>
      match s with
      | EmptyString => Some []
      | String c s' =>
          if aeq c (ch 35) then
            match span_until (fun a => aeq a LF) s' with
            | (_, String _ rest) => sh_lines fuel rest
            | (_, EmptyString) => Some []
            end
          else
            let '(name, rest) := span_until (fun a => negb (name_char a)) s in
            match name, rest with
            | String a _, String e rest =>
                if isdigit a || negb (aeq e EQ_SIGN) then None
                else '(w, rest) ← sh_word false rest;
                     l ← sh_lines fuel rest; Some ((name, w) :: l)
            | _, _ => None
            end
      end
  end.

Definition sh_eval (s : string) : option (list (string * string)) := sh_lines (S (String.length s)) s.

(** *** Words *)

Lemma quoted_word v rest :
  sh_word true (quote_body v ++ String QUOTE (String LF rest)) = Some (v, rest).
Proof.
  induction v as [|c v IH]; cbn [quote_body String.append].
  - reflexivity.
  - destruct (aeq c QUOTE) eqn:E.
    + apply aeq_eq in E as ->. cbn [String.append]. remember (quote_body v ++ _)%string as t.
      cbn -[sh_word]. change (sh_word true (String QUOTE (String BACKSLASH (String QUOTE (String QUOTE t)))))
        with ('(w, rest) ← sh_word true t; Some (String QUOTE w, rest)). by rewrite IH.
    + cbn [sh_word String.append]. by rewrite E, IH.
Qed.

Lemma plain_not c : plain_word_char c = true ->
  aeq c QUOTE = false /\ aeq c BACKSLASH = false /\ aeq c LF = false.
Proof. destruct c as [[] [] [] [] [] [] [] []]; vm_compute; (done || by split_and!). Qed.

Lemma plain_word s rest : all_chars plain_word_char s = true ->
  sh_word false (s ++ String LF rest) = Some (s, rest).
Proof.
  induction s as [|c s IH]; [reflexivity|]. cbn [all_chars String.append sh_word].
  intros [Hc Hs]%andb_prop. destruct (plain_not c Hc) as (-> & -> & ->). by rewrite Hc, IH.
Qed.

Lemma int_plain (z : Z) : all_chars plain_word_char (pretty z) = true.
Proof.
  eapply all_chars_impl; [|apply pretty_int_chars]. intros a. unfold int_char, plain_word_char, name_char.
  intros [->|H]%orb_prop; [done|]. apply aeq_eq in H as ->. reflexivity.
Qed.

(** *** Lines *)

Definition row_name (r : EnvRow) : string :=
  match r with RInt n _ _ _ | RB01 n _ _ _ | RStr n _ _ _ | RPrim n _ _ _ => n end.

(** A name the shell takes. *)
Definition shell_name (s : string) : bool :=
  match s with String a _ => negb (isdigit a) && all_chars name_char s | EmptyString => false end.

Lemma name_span s rest : all_chars name_char s = true ->
  span_until (fun c => negb (name_char c)) (s ++ String EQ_SIGN rest) = (s, String EQ_SIGN rest).
Proof.
  induction s as [|c s IH]; [reflexivity|]. cbn [all_chars String.append span_until].
  intros [Hc Hs]%andb_prop. by rewrite Hc, IH.
Qed.

Lemma line_read fuel name w text rest : shell_name name = true ->
  (forall rest, sh_word false (text ++ String LF rest) = Some (w, rest)) ->
  sh_lines (S fuel) (name ++ "=" ++ text ++ String LF rest) =
    (fun l => (name, w) :: l) <$> sh_lines fuel rest.
Proof.
  intros Hn Hw. destruct name as [|a name]; [done|]. cbn [shell_name] in Hn.
  apply andb_prop in Hn as [Hd Hn].
  assert (span_until (fun c => negb (name_char c)) ((String a name) ++ "=" ++ text ++ String LF rest) =
    (String a name, String EQ_SIGN (text ++ String LF rest))) as Hspan.
  { apply name_span, Hn. }
  cbn [all_chars] in Hn. apply andb_prop in Hn as [Ha _].
  assert (aeq a (ch 35) = false) as Hh.
  { destruct (aeq a (ch 35)) eqn:E; [|done]. apply aeq_eq in E as ->. done. }
  cbn [String.append] in *. cbn [sh_lines]. rewrite Hh, Hspan. apply negb_true_iff in Hd.
  rewrite Hd. change (negb (aeq EQ_SIGN EQ_SIGN)) with false. cbn [orb]. rewrite Hw.
  cbn [mbind option_bind]. by destruct (sh_lines fuel rest).
Qed.

Section Safe.
Context {ABI : CAbi}.

(** The value a row stands for. *)
Definition row_value (js : option Doc) (r : EnvRow) : string :=
  match r with
  | RInt _ sec key def => pretty (ce_int js sec key def)
  | RB01 _ sec key def => if ce_bool01 js sec key def then "1" else "0"
  | RStr _ sec key def => ce_str js sec key def
  | RPrim _ sec key def => ce_prim js sec key def
  end.

Lemma row_read js r fuel rest : shell_name (row_name r) = true ->
  sh_lines (S fuel) (emit_row js r ++ rest) =
    (fun l => (row_name r, row_value js r) :: l) <$> sh_lines fuel rest.
Proof.
  intros Hn. destruct r; cbn [emit_row row_name row_value] in *;
    unfold emit_int, emit_b01, emit_str; rewrite !sapp_assoc.
  - apply line_read; [done|]. intros. apply plain_word, int_plain.
  - apply line_read; [done|]. intros. apply plain_word. by destruct (ce_bool01 _ _ _ _).
  - change (str1 QUOTE ++ str1 LF ++ rest)%string with (String QUOTE (String LF rest)).
    replace (str1 QUOTE ++ quote_body _ ++ String QUOTE (String LF rest))%string with
      ((str1 QUOTE ++ quote_body (ce_str js sec key def) ++ str1 QUOTE) ++ String LF rest)%string
      by (by rewrite !sapp_assoc).
    apply line_read; [done|]. intros. rewrite !sapp_assoc. apply quoted_word.
  - change (str1 QUOTE ++ str1 LF ++ rest)%string with (String QUOTE (String LF rest)).
    replace (str1 QUOTE ++ quote_body _ ++ String QUOTE (String LF rest))%string with
      ((str1 QUOTE ++ quote_body (ce_prim js sec key def) ++ str1 QUOTE) ++ String LF rest)%string
      by (by rewrite !sapp_assoc).
    apply line_read; [done|]. intros. rewrite !sapp_assoc. apply quoted_word.
Qed.

Lemma rows_read js rows : forall fuel, (length rows < fuel)%nat ->
  forallb (fun r => shell_name (row_name r)) rows = true ->
  sh_lines fuel (emit_rows js rows) = Some (map (fun r => (row_name r, row_value js r)) rows).
Proof.
  induction rows as [|r rows IH]; intros [|fuel] Hf Hn; cbn in Hf; try lia; [done|].
  cbn [forallb] in Hn. apply andb_prop in Hn as [Hr Hn]. cbn [emit_rows].
  rewrite row_read by done. rewrite IH by (done || lia). reflexivity.
Qed.

Lemma rows_length js rows : (length rows <= String.length (emit_rows js rows))%nat.
Proof.
  induction rows as [|r rows IH]; [done|]. cbn [emit_rows length]. rewrite length_append.
  assert (0 < String.length (emit_row js r))%nat; [|lia].
  destruct r; cbn [emit_row]; unfold emit_int, emit_b01, emit_str; rewrite !length_append; cbn; lia.
Qed.

Lemma preset_named role :
  forallb (fun r => shell_name (row_name r)) (preset_rows role) = true /\
  bool_decide (NoDup (map row_name (preset_rows role))) = true.
Proof.
  unfold preset_rows. generalize (key_default role) as k. intros k. by split; vm_compute.
Qed.

Lemma comment_skipped fuel text rest : lacks LF text = true ->
  sh_lines (S fuel) ("#" ++ text ++ String LF rest) = sh_lines fuel rest.
Proof.
  intros H. cbn [String.append sh_lines].
  change (aeq _ (ch 35)) with true. cbv iota.
  assert (span_until (fun a => aeq a LF) (text ++ String LF rest) = (text, String LF rest)) as ->; [|done].
  induction text as [|c text IH]; [reflexivity|]. cbn in H. apply andb_prop in H as [Hc H].
  apply negb_true_iff in Hc. cbn [String.append span_until]. by rewrite Hc, IH.
Qed.

(** The assignments the shell reads. *)
Lemma env_read args files role :
  lacks LF (config_path args CONFIGENV_DEFAULT_PATH) = true ->
  let js := (load_preset (config_path args CONFIGENV_DEFAULT_PATH)
               (files (config_path args CONFIGENV_DEFAULT_PATH))).1 in
  sh_eval (wfb_configenv_main args files role) =
    Some (map (fun r => (row_name r, row_value js r)) (preset_rows role)) /\
  NoDup (map row_name (preset_rows role)) /\ length (preset_rows role) = 41%nat.
Proof.
  intros Hp js. destruct (preset_named role) as [Hn Hd]. apply bool_decide_eq_true in Hd.
  split; [|by split]. unfold wfb_configenv_main, sh_eval. subst js.
  set (path := config_path args CONFIGENV_DEFAULT_PATH) in *.
  assert (lacks LF (load_preset path (files path)).2 = true) as Hs.
  { unfold load_preset. destruct (files path) as [text|]; [|done]. case_bool; [done|].
    destruct (json_parse _ _) as [[|t toks]|]; [done| |done]. by case_bool. }
  destruct (load_preset path (files path)) as [js src]. cbn [fst snd] in *.
  change ("# wfb-link preset (source: " ++ src ++ ")" ++ str1 LF ++ emit_rows js (preset_rows role))%string
    with ("#" ++ " wfb-link preset (source: " ++ src ++ ")" ++ String LF (emit_rows js (preset_rows role)))%string.
  replace (" wfb-link preset (source: " ++ src ++ ")" ++ String LF (emit_rows js (preset_rows role)))%string
    with ((" wfb-link preset (source: " ++ src ++ ")") ++ String LF (emit_rows js (preset_rows role)))%string
    by (by rewrite !sapp_assoc).
  rewrite comment_skipped.
  - apply rows_read; [|done]. pose proof (rows_length js (preset_rows role)) as H.
    cbn [String.append String.length]. rewrite !length_append. cbn [String.length]. lia.
  - unfold lacks in *. rewrite !all_chars_app, Hs. reflexivity.
Qed.
(** (C32) The start script may [eval] the preset: whatever is in the preset file, JSON or not, with
    any quotes, line feeds, substitutions or commands in its strings, the shell reads the output as
    exactly the 41 assignments of the applet, each of the value the file or the default gives, and
    nothing else.  The file's name must hold no line feed: it is printed as it is. *)
Theorem config_env_safe args files role :
  lacks LF (config_path args CONFIGENV_DEFAULT_PATH) = true ->
  let js := (load_preset (config_path args CONFIGENV_DEFAULT_PATH)
               (files (config_path args CONFIGENV_DEFAULT_PATH))).1 in
  sh_eval (wfb_configenv_main args files role) =
    Some (map (fun r => (row_name r, row_value js r)) (preset_rows role)) /\
  NoDup (map row_name (preset_rows role)) /\ length (preset_rows role) = 41%nat.
Proof. apply env_read. Qed.
End Safe.

Definition hostile_preset : string :=
  print_json (JObj [("radio", JObj [("iface", JString "`reboot`'; rm -rf / #");
                                    ("channel", JString "$(id)")])])%string.

Definition hostile_files (path : string) : option string :=
  if String.eqb path "/tmp/preset" then Some hostile_preset else None.

Lemma config_env_safe_witness :
  exists l, sh_eval (wfb_configenv_main (ABI := abi_lp64) ["--verbose"; "/tmp/preset"] hostile_files WFB_ROLE_GS) = Some l /\
    length l = 41%nat /\ l !! 0%nat = Some ("WFB_CHANNEL", "161") /\
    l !! 6%nat = Some ("WFB_IFACE", "`reboot`'; rm -rf / #").
Proof.
  eexists. split.
  - refine (proj1 (@config_env_safe abi_lp64 ["--verbose"; "/tmp/preset"]%string hostile_files WFB_ROLE_GS _)).
    reflexivity.
  - split_and!; vm_compute; reflexivity.
Defined.

(** ** What a document means *)

Section Honours.
Context {ABI : CAbi}.

(** The field [key] of the section [sec]. *)
Definition doc_get (secs : list (string * json)) (sec key : string) : option json :=
  match field sec secs with Some (JObj fs) => field key fs | _ => None end.

Definition sections (secs : list (string * json)) : bool :=
  forallb (fun kv => match kv.2 with JObj _ => true | _ => false end) secs.

(** The value a row must have by the document's field; [None] for a field of another kind, or
    a text that does not fit. *)
Definition wanted (secs : list (string * json)) (r : EnvRow) : option string :=
  match r with
  | RInt _ sec key def =>
      match doc_get secs sec key with
      | None => Some (pretty def) | Some (JNum z) => Some (pretty z) | _ => None
      end
  | RB01 _ sec key def =>
      match doc_get secs sec key with
      | None => Some (if def then "1" else "0") | Some (JBool b) => Some (if b then "1" else "0")
      | _ => None
      end
  | RStr _ sec key def =>
      match doc_get secs sec key with
      | None => Some def
      | Some (JString s) =>
          if (strlen s <? 256)%Z then Some (if String.eqb s "" then def else s) else None
      | _ => None
      end
  | RPrim _ sec key def =>
      match doc_get secs sec key with
      | None => Some def
      | Some (JRaw (String c s)) =>
          if ((strlen (String c s) <? 256)%Z && number_start c && lacks NUL (String c s))%bool then Some (String c s) else None
      | _ => None
      end
  end%string.

Lemma field_in key fs v : field key fs = Some v -> exists k, In (k, v) fs.
Proof.
  induction fs as [|[k x] fs IH]; cbn [field]; [done|]. case (String.eqb k key).
  - intros [= ->]. exists k. by left.
  - intros (k' & Hk)%IH. exists k'. by right.
Qed.

(** The walkers find the field. *)
Lemma ce_find_holds text toks secs sec key :
  sections secs = true -> holds text toks 0 (JObj secs) ->
  match doc_get secs sec key with
  | None => ce_find (Some (Build_Doc text toks)) sec key = None
  | Some v => exists j, ce_find (Some (Build_Doc text toks)) sec key = Some (text, tok_at toks j) /\
                        holds text toks j v
  end.
Proof.
  intros Hs Hh. inversion Hh as [| | | | |? ? _ Hno Hyes Hval]; subst. unfold doc_get, ce_find. cbn [mbind option_bind doc_text doc_toks].
  destruct (field sec secs) as [v|] eqn:Ef; [|by rewrite (Hno _ Ef)].
  destruct (Hyes _ _ Ef) as [i Hi]. rewrite Hi. cbn [mbind option_bind].
  assert (exists fs, v = JObj fs) as [fs ->].
  { destruct (field_in _ _ _ Ef) as [k Hk]. unfold sections in Hs. rewrite forallb_forall in Hs. specialize (Hs _ Hk). destruct v; try done. by eexists. }
  specialize (Hval _ _ _ Ef Hi). inversion Hval as [| | | | |? ? _ Hno' Hyes' Hval']; subst.
  destruct (field key fs) as [v|] eqn:Ek; [|by rewrite (Hno' _ Ek)].
  destruct (Hyes' _ _ Ek) as [j Hj]. rewrite Hj. exists j. by split; [|eapply Hval'].
Qed.

(** A token of the parser lies in the text. *)
Lemma spanned_tok m : forall toks b lo hi ts i, (tsizes ts <= m)%nat -> nodes_at toks b ts ->
  spans lo hi ts -> (b <= i < b + tsizes ts)%nat ->
  lo <= jt_start (tok_at toks i) /\ jt_start (tok_at toks i) <= jt_end (tok_at toks i) <= hi.
Proof.
  induction m as [|m IH]; intros toks b lo hi ts i Hm Hn Hsp Hi; [lia|].
  destruct ts as [|[ty s e ks] ts]; [cbn in Hi; lia|].
  destruct (nodes_at_cons _ _ _ _ Hn) as [Ht Hts]. inversion Hsp as [|? ? ? ? ? ? ? Hlo Hks _ _ Hrest]; subst.
  cbn [tsizes fold_right] in Hm, Hi, Hts. fold (tsizes ts) in *. rewrite tsize_node in *.
  pose proof (spans_le _ _ _ Hks). pose proof (spans_le _ _ _ Hrest).
  destruct (Nat.eq_dec i b) as [->|Hib].
  - destruct (node_at_tok _ _ _ _ _ _ Ht) as (_ & -> & -> & _). lia.
  - destruct (le_lt_dec (S b + tsizes ks) i).
    + specialize (IH toks _ e hi ts i ltac:(lia) Hts Hrest ltac:(lia)). lia.
    + specialize (IH toks _ s e ks i ltac:(lia) (node_at_kids _ _ _ _ _ _ Ht) Hks ltac:(lia)). lia.
Qed.

Lemma tok_in_text js max toks i : json_parse js max = Some toks -> (i < length toks)%nat ->
  0 <= jt_start (tok_at toks i) /\ jt_start (tok_at toks i) <= jt_end (tok_at toks i) <= strlen js.
Proof.
  intros (ts & -> & Hsp & _)%json_parse_listing Hi. rewrite length_flats in Hi.
  eapply spanned_tok; [done|apply nodes_at_all|done|lia].
Qed.

Lemma take_chars_len n s : (n <= String.length s)%nat -> String.length (take_chars n s) = n.
Proof. revert s. induction n as [|n IH]; intros [|c s] H; cbn in *; try done; try lia. rewrite IH; lia. Qed.

(** A primitive's text is as long as its token says. *)
Lemma prim_length js max toks i : json_parse js max = Some toks -> jt_type (tok_at toks i) = JT_PRIM ->
  strlen (tok_text js (tok_at toks i)) = jt_end (tok_at toks i) - jt_start (tok_at toks i).
Proof.
  intros Hp Ht. assert (i < length toks)%nat as Hi.
  { destruct (le_lt_dec (length toks) i); [|done]. unfold tok_at in Ht.
    rewrite nth_overflow in Ht by done. done. }
  pose proof (tok_in_text _ _ _ _ Hp Hi) as Hr. unfold tok_text, text_at. rewrite strlen_length.
  rewrite take_chars_len; [lia|]. rewrite drop_chars_length. rewrite strlen_length in Hr. lia.
Qed.

Lemma until_nul_lacks s : lacks NUL s = true -> until_nul s = s.
Proof.
  intros Hs. unfold until_nul. rewrite <- (sapp_nil_r s) at 1.
  rewrite span_until_all; [done| |done]. eapply all_chars_impl; [|exact Hs].
  intros a Ha. exact Ha.
Qed.

Lemma row_wanted text toks secs r w :
  json_parse text JSON_MAX_TOKS = Some toks ->
  sections secs = true -> holds text toks 0 (JObj secs) ->
  wanted secs r = Some w -> row_value (Some (Build_Doc text toks)) r = w.
Proof.
  intros Hp Hs Hh. destruct r as [name sec key def|name sec key def|name sec key def|name sec key def];
    cbn [wanted row_value]; unfold ce_int, ce_bool01, ce_str, ce_prim;
    pose proof (ce_find_holds text toks secs sec key Hs Hh) as H;
    (destruct (doc_get secs sec key) as [v|]; [destruct H as (j & -> & H)|rewrite H; by intros [= <-]]);
    destruct v; try done; inversion H; subst; clear H.
  - intros [= <-]. by match goal with E : jint _ _ = _ |- _ => rewrite E end.
  - intros [= <-]. by match goal with E : jbool _ _ = _ |- _ => rewrite E end.
  - destruct (Z.ltb_spec (strlen s) 256); [|done]. intros [= <-].
    match goal with E : forall cap, _ |- _ => rewrite E by done end. by destruct s.
  - match goal with Ht : jt_type _ = _ |- _ =>
      pose proof (prim_length _ _ _ _ Hp Ht) as Hl; rewrite Ht, <- Hl end. clear Hl.
    generalize (tok_text text (tok_at toks j)) as s. intros s. destruct s as [|c s]; [done|].
    destruct (Z.ltb_spec (strlen (String c s)) 256) as [Hlt|]; [|done].
    destruct (number_start c) eqn:En; [|done]. destruct (lacks NUL (String c s)) eqn:Ew; [|done].
    intros [= <-]. change (negb (bool_decide (JT_PRIM = JT_PRIM))) with false. cbv iota.
    rewrite strlen_length in *. destruct (Z.leb_spec (Z.of_nat (String.length (String c s))) 0) as [H0|]; [cbn [String.length] in H0; lia|].
    destruct (Z.geb_spec (Z.of_nat (String.length (String c s))) 256); [lia|]. cbn [orb].
    apply until_nul_lacks, Ew.
Qed.
(** (C31) The preset means what it says: for every document of sections of plain fields, printed
    into the file named last on the command line, the shell reads for each of the 41 variables
    the document's field at its place, integers, strings, booleans and the fractional
    fail-safe alike, and the default where the document has none (an empty string counts as
    none). *)
Theorem config_env_refines args files role secs l r w :
  lacks LF (config_path args CONFIGENV_DEFAULT_PATH) = true ->
  files (config_path args CONFIGENV_DEFAULT_PATH) = Some (print_json (JObj secs)) ->
  strlen (print_json (JObj secs)) < CONFIGENV_MAX_BYTES ->
  plain_json (JObj secs) = true -> json_fits (JObj secs) = true ->
  Z.of_nat (json_tokens (JObj secs)) <= JSON_MAX_TOKS -> sections secs = true ->
  sh_eval (wfb_configenv_main args files role) = Some l ->
  In r (preset_rows role) -> wanted secs r = Some w -> In (row_name r, w) l.
Proof.
  intros Hp Hf Hlen Hpl Hfit Htok Hsec Hl Hr Hw.
  destruct (env_read args files role Hp) as [He _]. rewrite Hl in He. apply (inj Some) in He as ->.
  destruct (printed_holds JSON_MAX_TOKS _ Hpl Hfit Htok) as (toks & Hpar & Hh).
  rewrite Hf. unfold load_preset.
  destruct (Z.geb_spec (strlen (print_json (JObj secs))) CONFIGENV_MAX_BYTES); [lia|].
  rewrite Hpar. inversion Hh as [| | | | |? ? Hty _ _ _]; subst. destruct toks as [|t toks]; [done|].
  change (tok_at (t :: toks) 0) with t in Hty. rewrite bool_decide_eq_true_2 by done. cbn [fst].
  apply in_map_iff. exists r. split; [|done]. f_equal. by eapply row_wanted.
Qed.
End Honours.

Definition plain_preset : list (string * json) :=
  [("radio", JObj [("channel", JNum 36); ("iface", JString "wlan1")]);
   ("key", JObj [("open", JBool false)]);
   ("failsafe", JObj [("uplink_s", JRaw "2.5")])]%string.

Lemma config_env_refines_witness : exists l,
  sh_eval (wfb_configenv_main (ABI := abi_lp64) [] (fun _ => Some (print_json (JObj plain_preset))) WFB_ROLE_DRONE) =
    Some l /\ In ("WFB_FAILSAFE_S", "2.5")%string l.
Proof.
  destruct (sh_eval (wfb_configenv_main (ABI := abi_lp64) [] (fun _ => Some (print_json (JObj plain_preset)))
    WFB_ROLE_DRONE)) as [l|] eqn:E; [|vm_compute in E; discriminate].
  exists l. split; [reflexivity|].
  refine (@config_env_refines abi_lp64 [] _ WFB_ROLE_DRONE plain_preset l
    (RPrim "WFB_FAILSAFE_S" "failsafe" "uplink_s" "2.0") "2.5"%string eq_refl eq_refl _ eq_refl eq_refl _ eq_refl E _ eq_refl).
  - vm_compute. reflexivity.
  - clear E. vm_compute. discriminate.
  - do 28 right. left. reflexivity.
Defined.
