(* ===== verification/LcDocs.v ===== *)
(** * The vehicle's documents: buffers, parameters, schema and help

    [params_to_json], [schema_to_json] and [help_to_text] of [vehicle/link_controller.c].  A
    document is written piece by piece into a buffer of fixed size; [room] is one [snprintf]
    with its test.  The documents are also given as trees ([params_doc], [schema_doc]); the
    theorems say that the pieces add up to the printed tree or to nothing. *)

From S2P Require Import Prelude CFloat CString Strtod Decimal NumText Config Io Net Tunables.
From S2P Require Import WfbJson JsonForest JsonText.

Local Open Scope list_scope.
#[local] Arguments String.append !_ _ /.

(** ** Buffers *)

(** [n = snprintf(buf + pos, cap - pos, ...); if ((size_t)n >= cap - pos) return -1;]: the
    buffer with the piece behind what it holds. *)
Definition room (cap : Z) (buf piece : string) : option string :=
  if strlen piece <? cap - strlen buf then Some (buf ++ piece)%string else None.

(** A whole text in a buffer. *)
Definition fits (cap : Z) (text : string) : option string :=
  if strlen text <? cap then Some text else None.

(** The members of an object, without its braces. *)
Definition members (fs : list (string * json)) : string :=
  commas (map (fun kv => quoted kv.1 ++ str1 COLON ++ print_json kv.2)%string fs).

Lemma room_fits cap b p : room cap b p = fits cap (b ++ p)%string.
Proof.
  unfold room, fits. rewrite strlen_app.
  destruct (Z.ltb_spec (strlen p) (cap - strlen b)), (Z.ltb_spec (strlen b + strlen p) cap);
    (done || lia).
Qed.

(** What was put in after a piece that fits is what a single piece would have been. *)
Lemma fits_bind {A} cap b (f : string -> option A) (g : option A) :
  (strlen b < cap -> f b = g) -> (cap <= strlen b -> g = None) ->
  (b ← fits cap b; f b) = g.
Proof.
  intros H1 H2. unfold fits. destruct (Z.ltb_spec (strlen b) cap) as [H|H]; cbn.
  - by apply H1.
  - by rewrite H2.
Qed.

Lemma fits_long cap b p : cap <= strlen b -> fits cap (b ++ p)%string = None.
Proof.
  intros H. unfold fits. rewrite strlen_app. pose proof (strlen_nonneg p).
  destruct (Z.ltb_spec (strlen b + strlen p) cap); [lia|done].
Qed.

(** The commas of a list with a further element. *)
Lemma commas_cons s l : commas (s :: l) =
  (s ++ match l with [] => EmptyString | _ => str1 COMMA ++ commas l end)%string.
Proof. destruct l; cbn; [by rewrite sapp_nil_r|done]. Qed.

(** ** The value of a parameter *)

(** [(long long)v]. *)
Definition f_to_llong (x : fp) : Z := fp_to_Z (- 2 ^ 63) (2 ^ 63 - 1) x.

Definition value_json (t : TunableDesc) (c : Config) : json :=
  let v := tunable_read t c in
  match td_slot t with
  | SInt _ | SLong _ => JNum (f_to_llong v)
  | SBool _ => JBool (negb (SFeqb v f0))
  | SFloat _ => JRaw (printf_g v)
  end.

(** *** [params_to_json] *)

Definition json_append_field (cap : Z) (buf : string) (t : TunableDesc) (c : Config)
    (first : bool) : option string :=
  room cap buf ((if first then "" else ",") ++
    quoted (td_name t) ++ str1 COLON ++ print_json (value_json t c)).

Fixpoint params_loop (cap : Z) (buf : string) (first : bool) (c : Config)
    (ts : list TunableDesc) : option string :=
  match ts with
  | [] => Some buf
  | t :: ts =>
      b ← json_append_field cap buf t c first;
      params_loop cap b false c ts
  end.

(** The first [snprintf] is not tested: a buffer of one byte fails at the next. *)
Definition params_to_json (c : Config) (cap : Z) : option string :=
  b ← params_loop cap sBO true c TUNABLES;
  room cap b sBC.

Definition params_doc (c : Config) : json :=
  JObj (map (fun t => (td_name t, value_json t c)) TUNABLES).

(** *** [schema_to_json] *)

Definition subsys_name (s : Subsys) : string :=
  match s with SUB_FEC => "fec" | SUB_MCS => "mcs" | SUB_COMMON => "common" end.

Definition type_name (s : Slot) : string :=
  match s with SInt _ => "int" | SLong _ => "long" | SFloat _ => "float" | SBool _ => "bool" end.

(** The last texts of the rows of [TUNABLES]. *)
Definition TUNABLE_HELP : list string := [
  "HTTP API port (0 disables)";
  "compute but do not send wfb_tx commands";
  "log verbosity";
  "enable FEC subsystem";
  "RTP payload budget per packet";
  "min k after sizing";
  "max k after sizing";
  "min n after sizing";
  "max n after sizing";
  "EWMA weight on new frame size";
  "headroom floor";
  "headroom ceiling";
  "extra factor on rolling max";
  "rolling window for max-size";
  "+/-MTU*F slack at ppf bucket edges";
  "min Δk to trigger an up-move";
  "min seconds between up-moves";
  "k-down dwell";
  "k-up dwell (0 = legacy fast-up)";
  "suppress emits for first N s";
  "fraction of phy_mbps usable";
  "bitrate floor (kbps)";
  "bitrate ceiling (kbps; 0 = unlimited)";
  "re-apply tolerance";
  "post-bitrate-write FEC suppress";
  "post-MCS-change FEC suppress";
  "MCS-down: lead time between bitrate pre-drop and SET_RADIO";
  "MCS-up: hold bitrate increase this long after the higher mcs commits";
  "adaptive payload ceiling (bytes); 0=off, else clamped to [576,4000]";
  "adaptive payload floor (bytes); venc API floor is 576";
  "cap on-air airtime to this % of channel (0=off); per-MCS pps/airslot guard";
  "per-packet PHY preamble (us) used in the airtime estimate";
  "suppress FEC update for one tick when sidecar reports producer backpressure";
  "skip-FEC threshold (output queue fill %)";
  "diagnostic: per-frame trace of sidecar frame size vs committed k vs grace + peek coalescing factor";
  "size FEC k from committed venc bitrate (lag-free) + commit promptly across MCS transitions (fixes blocksize<->MCS desync)";
  "min seconds between feed-forward k-step commits (thrash backstop; 0=off)";
  "continuous-backpressure duration before re-applying safe-startup bitrate to break a wedge (0=off)";
  "enable MCS subsystem";
  "EWMA alpha for RSSI";
  "EWMA alpha for loss ratio";
  "0=best_avg 1=best_max 2=mean_avg";
  "min seconds between demotes (all rules)";
  "watchdog gap before forcing mcs_min";
  "rolling window for changes_in_window stat";
  "clamp emit lower bound (also the cold-start rung)";
  "clamp emit upper bound";
  "guard: demote at/below this smoothed RSSI";
  "guard: demote when RSSI falls faster (0=off)";
  "guard: fade rule armed at/below this RSSI";
  "guard: promotes blocked at/below floor + this (must exceed smoothed RSSI noise)";
  "backpressure: suppress PER/probe demotes while transport in_pressure (anti death-spiral)";
  "backpressure: in_pressure held >= this with clean RF -> promote to drain ring (0 = off)";
  "flap guard: window after a demote during which re-entry needs the longer dwell (0 = off)";
  "flap guard: dwell for promoting back into the rung that just failed";
  "flap freeze: fast re-demotes from one rung that pin the rung below (0 = off)";
  "flap freeze: max spacing between counted re-demotes";
  "flap freeze: how long to hold the lower rung once tripped";
  "probe: V+2 PER <= this permille -> promote-eligible";
  "probe: V+2 PER >= this permille -> pre-emptive demote";
  "probe: live video PER >= this permille -> reactive demote";
  "probe: min dwell before a promote";
  "probe: nominal PER window (informational)";
  "probe: ignore V+2 rungs older than this";
  "probe: paced PRB feed rate (pkts/s)";
  "probe: PRB packet size (bytes)";
  "enable venc command proxy on rx_ant socket";
  "reject WCMD requests not from 127.0.0.1";
  "min ms between same-key applies (0 disables)";
  "bitmask of WCMD_KEY_* allowed (1=br,2=fps,4=pl,8=idr,16=fec_k,32=fec_n,64=mcs,128=bw,256=ldpc,512=stbc,1024=sgi,2048=fec_en,4096=mcs_en,8192=txpower,16384=record,32768=peek_en,524288=return_apfpv)";
  "min accepted bitrate kbps (fallback when fec disabled)";
  "max accepted bitrate kbps (fallback when fec disabled)";
  "min accepted fps";
  "max accepted fps";
  "min accepted RTP payload bytes";
  "max accepted RTP payload bytes";
  "min accepted wfb_tx FEC k";
  "max accepted wfb_tx FEC k";
  "min accepted wfb_tx FEC n";
  "max accepted wfb_tx FEC n";
  "min accepted wfb_tx MCS index";
  "max accepted wfb_tx MCS index";
  "min accepted wfb_tx bandwidth (MHz)";
  "max accepted wfb_tx bandwidth (MHz)";
  "min accepted iw txpower (mBm; 100=1 dBm)";
  "max accepted iw txpower (mBm; 100=1 dBm)";
  "driver per-rate TXAGC owns txpower: WCMD txpower key is a no-op (no iw set txpower fixed)"
].

Definition schema_row (t : TunableDesc) (help : string) : json :=
  JObj [("name", JString (td_name t)); ("subsys", JString (subsys_name (td_subsys t)));
        ("type", JString (type_name (td_slot t))); ("lo", JRaw (printf_g (td_lo t)));
        ("hi", JRaw (printf_g (td_hi t))); ("help", JString help)].

Fixpoint schema_loop (cap : Z) (buf : string) (first all : bool)
    (rows : list (TunableDesc * string)) : option string :=
  match rows with
  | [] => Some buf
  | (t, help) :: rows =>
      if negb all && negb (td_pub t) then schema_loop cap buf first all rows
      else
        b ← room cap buf ((if first then "" else ",") ++ print_json (schema_row t help));
        schema_loop cap b false all rows
  end.

Definition schema_to_json (cap : Z) (all : bool) : option string :=
  b ← schema_loop cap sKO true all (combine TUNABLES TUNABLE_HELP);
  room cap b sKC.

Definition schema_doc (all : bool) : json :=
  JArr (map (fun r => schema_row r.1 r.2)
    (List.filter (fun r => all || td_pub r.1) (combine TUNABLES TUNABLE_HELP))).

(** *** [help_to_text] *)

(** [%-ns]. *)
Definition pad_right (n : nat) (s : string) : string :=
  (s ++ string_of_list_ascii (replicate (n - String.length s) SP))%string.

Definition range_text (t : TunableDesc) : string :=
  match td_slot t with
  | SBool _ => "0|1"
  | _ => if SFeqb (td_lo t) (td_hi t) then "(any)"
         else "[" ++ printf_g (td_lo t) ++ ".." ++ printf_g (td_hi t) ++ "]"
  end.

Definition help_line (t : TunableDesc) (help : string) : string :=
  "  " ++ pad_right 46 (td_name t) ++ " " ++ pad_right 5 (type_name (td_slot t)) ++ " " ++
  pad_right 14 (range_text t) ++ " " ++ help ++ str1 LF.

(** A line of the introduction ends in a line feed; [with_quotes] turns a quote into a double quote. *)
Definition HELP_INTRO : string :=
  String.concat "" (map (fun l => l ++ str1 LF)%string [
    "link_controller HTTP API (127.0.0.1)";
    "";
    "Routes:";
    "  GET /                  embedded HTML WebUI (or this help if curl)";
    "  GET /help              this help (always plain text)";
    "  GET /params            JSON of all tunable Config fields";
    "  GET /schema            JSON array of tunable metadata";
    "  GET /set?k=v&k=v...    apply changes; returns JSON";
    "  GET /cmd?key=N&value=V local WCMD apply (peek/idr/record/…); returns JSON";
    "  GET /status            unified JSON snapshot";
    "  GET /fec/status        FEC subset";
    "  GET /mcs/status        MCS subset";
    "  GET /cmd/status        venc command-proxy subset";
    "  GET /events            text/event-stream — every log line as JSON";
    with_quotes "                         (data: {'t_s':N,'subsys':'fec|mcs|common','msg':'...'})";
    with_quotes "  GET /health            'ok\n'";
    "";
    "Tunables (key  type  range  description):"]).

Fixpoint help_loop (cap : Z) (buf : string) (rows : list (TunableDesc * string)) : option string :=
  match rows with
  | [] => Some buf
  | (t, help) :: rows => b ← room cap buf (help_line t help); help_loop cap b rows
  end.

(** The introduction is not tested either. *)
Definition help_to_text (cap : Z) : option string :=
  help_loop cap HELP_INTRO (combine TUNABLES TUNABLE_HELP).

(** ** A list written item by item *)

Definition sep (first : bool) : string := if first then "" else ",".

Fixpoint items (cap : Z) (buf : string) (first : bool) (l : list string) : option string :=
  match l with
  | [] => Some buf
  | s :: l => b ← room cap buf (sep first ++ s); items cap b false l
  end.

Lemma items_fits cap l : forall buf first, l <> [] ->
  items cap buf first l = fits cap (buf ++ sep first ++ commas l)%string.
Proof.
  induction l as [|s l IH]; intros buf first Hl; [done|]. cbn [items]. rewrite room_fits.
  apply fits_bind; intros H.
  - destruct l as [|s' l].
    + cbn [items commas]. unfold fits.
      destruct (Z.ltb_spec (strlen (buf ++ sep first ++ s)%string) cap); [done|lia].
    + rewrite IH, (commas_cons s), !sapp_assoc by done. reflexivity.
  - rewrite <- sapp_assoc in H. rewrite commas_cons, <- !sapp_assoc. by apply fits_long.
Qed.

(** A list in its brackets. *)
Lemma items_closed cap open close l : (strlen open < cap \/ l <> []) ->
  (b ← items cap open true l; room cap b close) = fits cap (open ++ commas l ++ close)%string.
Proof.
  intros Hc. destruct l as [|s l].
  - destruct Hc as [Hc|]; [|done]. cbn. by rewrite room_fits.
  - rewrite items_fits by done. cbn [sep String.append]. apply fits_bind; intros H.
    + by rewrite room_fits, sapp_assoc.
    + rewrite <- sapp_assoc. by apply fits_long.
Qed.

Lemma params_loop_items cap c ts : forall buf first,
  params_loop cap buf first c ts = items cap buf first
    (map (fun kv => quoted kv.1 ++ str1 COLON ++ print_json kv.2)%string
      (map (fun t => (td_name t, value_json t c)) ts)).
Proof.
  induction ts as [|t ts IH]; intros buf first; [done|]. cbn [params_loop items map fst snd].
  unfold json_append_field. change (if first then _ else _) with (sep first).
  destruct (room _ _ _); [apply IH|done].
Qed.

(** [params_to_json] writes the printed tree, or fails when it does not fit. *)
Lemma params_refines c cap : params_to_json c cap = fits cap (print_json (params_doc c)).
Proof.
  unfold params_to_json. rewrite params_loop_items. apply (items_closed cap sBO sBC). by right.
Qed.

Lemma schema_loop_items cap all rows : forall buf first,
  schema_loop cap buf first all rows = items cap buf first
    (map print_json (map (fun r => schema_row r.1 r.2)
      (List.filter (fun r => all || td_pub r.1) rows))).
Proof.
  induction rows as [|[t help] rows IH]; intros buf first; [done|].
  cbn [schema_loop List.filter fst snd]. change (if first then _ else _) with (sep first).
  destruct all, (td_pub t); cbn [negb andb orb map items fst snd]; try apply IH;
    (destruct (room _ _ _); [apply IH|done]).
Qed.

Lemma schema_refines cap all : 1 < cap -> schema_to_json cap all = fits cap (print_json (schema_doc all)).
Proof.
  intros H. unfold schema_to_json. rewrite schema_loop_items. apply (items_closed cap sKO sKC).
  by left.
Qed.

(** ** Documents whose reading back is the general round trip *)

(** *** Lengths *)

Lemma members_length fs n m :
  Forall (fun kv => strlen kv.1 <= n /\ strlen (print_json kv.2) <= m) fs ->
  strlen (members fs) <= Z.of_nat (length fs) * (n + m + 4).
Proof.
  unfold members. induction 1 as [|[k v] fs [Hk Hv] _ IH]; [done|].
  cbn [map length fst snd] in *. rewrite commas_cons, strlen_app.
  unfold quoted, str1. rewrite !strlen_app. cbn [strlen].
  assert (0 <= n + m) by (pose proof (strlen_nonneg k); pose proof (strlen_nonneg (print_json v)); lia).
  assert (0 <= Z.of_nat (length fs) * (n + m + 4)) by (apply Z.mul_nonneg_nonneg; lia).
  rewrite Nat2Z.inj_succ, Z.mul_succ_l.
  destruct (map _ fs); cbn [strlen]; [|rewrite strlen_app; cbn [strlen]]; lia.
Qed.

Lemma tunable_read_size t c : match td_slot t with SFloat _ => fsize 1024 (tunable_read t c) | _ => True end.
Proof. unfold tunable_read. destruct (td_slot t); try done. apply to_f64_max. Qed.

Lemma value_length t c : strlen (print_json (value_json t c)) <= 23.
Proof.
  pose proof (tunable_read_size t c) as Hs. unfold value_json. destruct (td_slot t); cbn [print_json].
  - etransitivity; [apply (pretty_length _ 19)|]; [done| |done]. unfold f_to_llong.
    pose proof (fp_to_Z_bounds (- 2 ^ 63) (2 ^ 63 - 1) (tunable_read t c)). lia.
  - etransitivity; [apply (pretty_length _ 19)|]; [done| |done]. unfold f_to_llong.
    pose proof (fp_to_Z_bounds (- 2 ^ 63) (2 ^ 63 - 1) (tunable_read t c)). lia.
  - by apply printf_g_length.
  - by destruct (negb _).
Qed.

Lemma names_short : Forall (fun t => strlen (td_name t) <= 29) TUNABLES.
Proof. repeat (constructor; [vm_compute; done|]). constructor. Qed.

(** Every value together stays far below the 16 KiB of the response. *)
Lemma params_length c : strlen (print_json (params_doc c)) <= 4876.
Proof.
  assert (strlen (members (map (fun t => (td_name t, value_json t c)) TUNABLES)) <= 87 * (29 + 23 + 4)).
  { change 87 with (Z.of_nat (length TUNABLES)).
    rewrite <- (length_map (fun t => (td_name t, value_json t c)) TUNABLES). apply members_length.
    apply List.Forall_map. eapply List.Forall_impl; [|exact names_short].
    intros t Ht. split; [done|apply value_length]. }
  unfold params_doc. cbn [print_json]. fold (members (map (fun t => (td_name t, value_json t c)) TUNABLES)).
  rewrite !strlen_app. unfold sBO, sBC, str1. cbn [strlen]. lia.
Qed.

Lemma field_row c t : forall ts, NoDup (map td_name ts) -> In t ts ->
  field (td_name t) (map (fun t => (td_name t, value_json t c)) ts) = Some (value_json t c).
Proof.
  induction ts as [|u ts IH]; intros Hn Hin; [done|]. cbn [map field].
  inversion Hn as [|? ? Hx Hn']; subst. destruct Hin as [->|Hin]; [by rewrite String.eqb_refl|].
  destruct (String.eqb_spec (td_name u) (td_name t)) as [E|_]; [|by apply IH].
  exfalso. apply Hx. rewrite E. apply list_elem_of_In. by apply in_map.
Qed.

Lemma names_distinct : NoDup (map td_name TUNABLES).
Proof. apply (bool_decide_unpack (NoDup (map td_name TUNABLES))). vm_compute. exact I. Qed.

(** ** What a client reads *)

Section Reports.
Context {ABI : CAbi}.

(** The numbers of the configuration are numbers of their C types; a [long] is below 2^53. *)
Definition row_typed (c : Config) (t : TunableDesc) : Prop :=
  match td_slot t with
  | SInt l => INT_MIN <= l_get l c <= INT_MAX
  | SLong l => LONG_MIN <= l_get l c <= LONG_MAX /\ Z.abs (l_get l c) < 2 ^ 53
  | SFloat _ | SBool _ => True
  end.

Definition cfg_typed (c : Config) : Prop := Forall (row_typed c) TUNABLES.

Lemma int_shown z : Z.abs z < 2 ^ 53 -> f_to_llong (F64.of_Z z) = z.
Proof. intros H. unfold f_to_llong. rewrite of_Z_exact by lia. lia. Qed.

Lemma int_abs z : INT_MIN <= z <= INT_MAX -> Z.abs z < 2 ^ 53.
Proof. unfold INT_MIN, INT_MAX. lia. Qed.

Lemma value_shown t c : row_typed c t ->
  value_json t c = match td_slot t with
                   | SInt l | SLong l => JNum (l_get l c)
                   | SFloat l => JRaw (printf_g (to_f64 (l_get l c)))
                   | SBool l => JBool (l_get l c)
                   end.
Proof.
  unfold row_typed, value_json, tunable_read. destruct (td_slot t) as [l|l|l|l]; intros H; try done.
  - rewrite int_shown; [done|by apply int_abs].
  - rewrite int_shown; [done|tauto].
  - by destruct (l_get l c).
Qed.

Lemma value_plain t c : plain_json (value_json t c) = true.
Proof. unfold value_json. destruct (td_slot t); try done. apply plain_printf_g. Qed.

Lemma value_fits t c : row_typed c t -> json_fits (value_json t c) = true.
Proof.
  intros H. rewrite value_shown by done. unfold row_typed in H.
  pose proof LONG_MAX_ge. pose proof LONG_MIN_le.
  destruct (td_slot t) as [l|l|l|l]; cbn [json_fits]; try done; apply andb_true_iff;
    split; apply Z.leb_le; unfold INT_MIN, INT_MAX in *; lia.
Qed.

Lemma names_plain : Forall (fun t => all_chars plain_char (td_name t) = true) TUNABLES.
Proof. repeat (constructor; [vm_compute; done|]). constructor. Qed.

Lemma params_plain c : plain_json (params_doc c) = true.
Proof.
  unfold params_doc. cbn [plain_json]. apply forallb_forall. intros kv (t & <- & Ht)%in_map_iff.
  cbn [fst snd]. rewrite value_plain, andb_true_r.
  pose proof names_plain as H. rewrite List.Forall_forall in H. by apply H.
Qed.

Lemma params_fits c : cfg_typed c -> json_fits (params_doc c) = true.
Proof.
  unfold params_doc, cfg_typed. rewrite List.Forall_forall. intros H. cbn [json_fits].
  apply forallb_forall. intros kv (t & <- & Ht)%in_map_iff. cbn [fst snd]. by apply value_fits, H.
Qed.

Lemma value_size t c : jsize (value_json t c) = 1%nat.
Proof. unfold value_json. by destruct (td_slot t). Qed.

Lemma params_tokens c : json_tokens (params_doc c) = 175%nat.
Proof.
  rewrite json_tokens_size. unfold params_doc. cbn [jsize].
  assert (forall ts, fold_right (fun kv n => S (jsize kv.2 + n)) 0%nat
    (map (fun t => (td_name t, value_json t c)) ts) = (2 * length ts)%nat) as ->; [|done].
  induction ts as [|t ts IH]; [done|]. cbn [map fold_right fst snd length]. rewrite IH, value_size. lia.
Qed.

(** What the walkers of [wfb_json.h] read in a token for a row. *)
Definition reads_row (text : string) (k : JTok) (c : Config) (t : TunableDesc) : Prop :=
  match td_slot t with
  | SInt l | SLong l => jint text k = Some (l_get l c)
  | SBool l => jbool text k = Some (l_get l c)
  | SFloat l => jt_type k = JT_PRIM /\ tok_text text k = printf_g (to_f64 (l_get l c))
  end.

(** /params shows the configuration: the document always fits the 16 KiB of a response,
    is tokenized without an error, and under the name of every row of the registry a reader
    finds the value the row has: whole numbers and switches exactly, the others as [%g]
    prints them. *)
Theorem params_report c : cfg_typed c -> exists text toks,
  params_to_json c 16384 = Some text /\ json_parse text 512 = Some toks /\
  forall t, In t TUNABLES -> exists j,
    jfind text toks 0 (td_name t) = Some j /\ reads_row text (tok_at toks j) c t.
Proof.
  intros Hc. exists (print_json (params_doc c)).
  destruct (printed_holds 512 _ (params_plain c) (params_fits c Hc)) as (toks & Hp & Hh);
    [by rewrite params_tokens|].
  exists toks. split; [|split; [done|]].
  - rewrite params_refines. unfold fits. pose proof (params_length c).
    destruct (Z.ltb_spec (strlen (print_json (params_doc c))) 16384); [done|lia].
  - intros t Ht. inversion Hh as [| | | | |i fs _ _ Hfind Hhold]; subst.
    pose proof (field_row c t TUNABLES names_distinct Ht) as Hf.
    destruct (Hfind _ _ Hf) as [j Hj]. exists j. split; [done|].
    specialize (Hhold _ _ _ Hf Hj). unfold cfg_typed in Hc. rewrite List.Forall_forall in Hc.
    rewrite value_shown in Hhold by (by apply Hc). unfold reads_row.
    destruct (td_slot t); inversion Hhold; subst; done.
Qed.

(** The texts made from the registry alone: /schema, in both its extents, and /help fit
    the 16 KiB of a response; the schema is tokenized without an error and read back as one
    object per row shown, all of them with all=1. *)
Theorem schema_report all : exists text help toks,
  schema_to_json 16384 all = Some text /\ help_to_text 16384 = Some help /\
  json_parse text 2048 = Some toks /\ holds text toks 0 (schema_doc all) /\
  exists rows, schema_doc all = JArr rows /\ length rows = if all then length TUNABLES else 20%nat.
Proof.
  assert (plain_json (schema_doc all) = true /\ json_fits (schema_doc all) = true /\
    Z.of_nat (json_tokens (schema_doc all)) <= 2048 /\
    strlen (print_json (schema_doc all)) < 16384) as (Hp & Hf & Hm & Hl).
  { destruct all; vm_compute; repeat split; discriminate || reflexivity. }
  assert (exists help, help_to_text 16384 = Some help) as [help Hh].
  { destruct (help_to_text 16384) as [h|] eqn:E; [by exists h|]. vm_compute in E. discriminate. }
  destruct (printed_holds 2048 _ Hp Hf Hm) as (toks & Ht & Hd).
  exists (print_json (schema_doc all)), help, toks. split; [|split; [exact Hh|split; [exact Ht|
    split; [exact Hd|]]]].
  - rewrite schema_refines by lia. unfold fits.
    destruct (Z.ltb_spec (strlen (print_json (schema_doc all))) 16384); [done|lia].
  - eexists. split; [reflexivity|]. destruct all; vm_compute; reflexivity.
Qed.
End Reports.

Lemma config_defaults_typed : @cfg_typed abi_lp64 config_defaults.
Proof. repeat (constructor; [vm_compute; repeat split; discriminate|]). constructor. Qed.

Lemma params_report_witness : exists text toks,
  params_to_json config_defaults 16384 = Some text /\ json_parse text 512 = Some toks /\
  forall t, In t TUNABLES -> exists j,
    jfind text toks 0 (td_name t) = Some j /\
    @reads_row abi_lp64 text (tok_at toks j) config_defaults t.
Proof. exact (@params_report abi_lp64 config_defaults config_defaults_typed). Defined.
