(* ===== verification/LcStatus.v ===== *)
(** * The vehicle's status documents

    [status_to_json] of [vehicle/link_controller.c], its parts, the shorter documents of
    [/fec/status] and [/mcs/status], and [cmd_status_to_json].  The source reads the values
    through an [ApiSnapshot] of pointers to and copies of the daemon's variables; here they
    are the fields of [Daemon].  The clock is read where the source reads it.

    [appends] relates the piecewise writing into a buffer to the text it stands for; the
    documents are trees of [JsonText.json]. *)

From S2P Require Import Prelude CFloat CString Strtod Decimal NumText Config Io Net.
From S2P Require Import Fec Bitrate Scorer Selector Commit Wcmd Recovery Csa SdLog Daemon.
From S2P Require Import WfbJson JsonForest JsonText LcDocs.

Local Open Scope list_scope.
Create HintDb nonempty.
Create HintDb doc.
#[local] Arguments String.append !_ _ /.

(** ** Values *)

(** [%.nf] of a [double] and of a [float]. *)
Definition num (n : nat) (x : fp) : json := JRaw (printf_f n x).
Definition numf (n : nat) (x : fp) : json := num n (to_f64 x).

Definition seconds (us : Z) : fp := F64.div (F64.of_Z us) (F64.of_Z 1000000).

(** The age of an event at [now]; -1 when there was none. *)
Definition age_at (now last : Z) : fp :=
  if last =? 0 then F64.of_Z (-1) else seconds (u64 (now - last)).

Definition obj (key : string) (fs : list (string * json)) : string * json := (key, JObj fs).

Section Status.
Context {ABI : CAbi} {EV : Env} (log_start_us : Z).

(** The clock is only read when there was an event. *)
Definition age_s (last : Z) : IO fp :=
  if last =? 0 then io_ret (F64.of_Z (-1))
  else let! now := now_us in io_ret (seconds (u64 (now - last))).

(** ** The parts *)

Definition computed_safe (d : Daemon) : Z :=
  let r := d_radio d in
  let c := current (d_ctrl d) in
  let f := cfg_fec (d_cfg d) in
  if radio_valid r && have_current (d_ctrl d) && (fp_n c >? 0) then
    let post_fec := (radio_phy_mbps r * F32.of_Z 1000 *
                     (F32.of_Z (fp_k c) / F32.of_Z (fp_n c)))%f32 in
    let safe := f_to_long (post_fec * fec_safety_margin f)%f32 in
    let safe := (if (fec_bitrate_max_kbps f >? 0) && (safe >? fec_bitrate_max_kbps f)
                 then fec_bitrate_max_kbps f else safe) in
    if safe <? fec_bitrate_min_kbps f then fec_bitrate_min_kbps f else safe
  else -1.

(** [br_for_sel]. *)
Definition shown_kbps (d : Daemon) : Z :=
  if lw_kbps (d_lw d) >? 0 then lw_kbps (d_lw d)
  else if computed_safe d >? 0 then computed_safe d else 0.

Definition shown_payload (d : Daemon) : Z * bool :=
  if shown_kbps d >? 0 then payload_select (d_cfg d) (shown_kbps d) else (0, false).

Definition pps_capped_kbps (d : Daemon) : Z :=
  let '(sel, clipped) := shown_payload d in
  if clipped && (sel >? 0) then
    let sb := payload_safe_bitrate_kbps sel in if sb >? 0 then sb else -1
  else -1.

(** The estimate in percent and the ceiling. *)
Definition shown_airtime (d : Daemon) : Z * Z :=
  let f := cfg_fec (d_cfg d) in
  let r := d_radio d in
  let c := current (d_ctrl d) in
  let sel := (shown_payload d).1 in
  if (fec_airtime_max_pct f >? 0) && radio_valid r && have_current (d_ctrl d) &&
     (fp_k c >? 0) && (fp_n c >? 0) && (shown_kbps d >? 0) then
    let z := F64.of_Z in
    let pp := (if sel >? 0 then sel else 1400) in
    let ratio := (z (fp_n c) / z (fp_k c))%f64 in
    let phy_bps := (to_f64 (radio_phy_mbps r) * z 1000000)%f64 in
    let t_pre := (z (fec_airtime_preamble_us f) * F64.lit 1 1000000)%f64 in
    let frac := (z (shown_kbps d) * z 1000 * ratio *
                 (z 1 / phy_bps + t_pre / (z 8 * z pp)))%f64 in
    (f_to_int (frac * z 100 + F64.lit 1 2)%f64,
     airtime_safe_bitrate_kbps (radio_phy_mbps r) sel (fp_k c) (fp_n c)
       (fec_airtime_max_pct f) (fec_airtime_preamble_us f))
  else (-1, -1).

Definition fec_fields (d : Daemon) : IO (list (string * json)) :=
  let ctrl := d_ctrl d in
  let cur := current ctrl in
  let f := cfg_fec (d_cfg d) in
  let lw := d_lw d in
  let '(sel, clipped) := shown_payload d in
  let '(est, cap) := shown_airtime d in
  let! age := age_s (d_stats_us d) in
  let! grace := (if bitrate_grace_until_us ctrl =? 0 then io_ret false
                 else let! now := now_us in io_ret (now <? bitrate_grace_until_us ctrl)) in
  io_ret [
    obj "fec" [("enabled", JBool (fec_enabled f)); ("have_current", JBool (have_current ctrl));
      ("k", JNum (fp_k cur)); ("n", JNum (fp_n cur));
      ("avg_frame_size", numf 1 (avg_frame_size ctrl)); ("update_count", JNum (update_count ctrl));
      ("fps", numf 2 (fps_get (d_fps d))); ("in_grace", JBool grace);
      ("redundancy", numf 3 (fp_redundancy cur));
      ("loss_ewma", numf 4 (smoothed_lost_ratio (d_score d)));
      ("recov_ewma", numf 4 (smoothed_recov_ratio (d_score d)))];
    obj "wfb" [("last_set_fec_k", JNum (lw_fec_k lw)); ("last_set_fec_n", JNum (lw_fec_n lw));
      ("last_bitrate_kbps", JNum (lw_kbps lw)); ("computed_safe_kbps", JNum (computed_safe d));
      ("stats_age_s", num 3 age)];
    obj "payload" [("enabled", JBool (fec_payload_max f >? 0)); ("max", JNum (fec_payload_max f));
      ("min", JNum (fec_payload_min f)); ("last_written", JNum (lw_payload lw));
      ("selected", JNum sel); ("table_clipped", JBool clipped);
      ("pps_capped_kbps", JNum (pps_capped_kbps d));
      ("would_fragment_on_1500_mtu",
        JBool ((fec_payload_max f >? 0) && (fec_payload_max f >? 1472)))];
    obj "airtime" [("max_pct", JNum (fec_airtime_max_pct f)); ("est_pct", JNum est);
      ("cap_kbps", JNum cap); ("capped", JBool ((cap >? 0) && (shown_kbps d >? cap)))]].

Definition transport_fields (d : Daemon) : IO (list (string * json)) :=
  let t := d_tr d in
  let f := cfg_fec (d_cfg d) in
  let! age := age_s (tr_us t) in
  io_ret [obj "transport" [("present", JBool (tr_present t)); ("fill_pct", JNum (tr_fill_pct t));
    ("in_pressure", JBool (tr_in_pressure t)); ("transport_drops", JNum (tr_drops t));
    ("pressure_drops", JNum (tr_pressure_drops t));
    ("pressure_drops_delta", JNum (tr_pressure_drops_delta t));
    ("packets_sent", JNum (tr_packets_sent t)); ("age_s", num 3 age);
    ("fec_skipped", JNum (tr_fec_skipped t));
    ("skip_on_backpressure", JBool (fec_skip_on_backpressure f));
    ("backpressure_fill_pct", JNum (fec_backpressure_fill_pct f))]].

(** [ms]: the snapshot's remaining time of a deferred drop, [pending_ms] below. *)
Definition mcs_fields (d : Daemon) (ms : Z) : IO (list (string * json)) :=
  let s := d_sel d in
  let p := d_probe d in
  let m := cfg_mcs (d_cfg d) in
  let f := cfg_fec (d_cfg d) in
  let! rx_age := age_s (d_rx_ant_us d) in
  let! now := now_us in
  let v2 := current_mcs s + 2 in
  let rung := ps_rung p !!! Z.to_nat v2 in
  let known := (v2 >=? 0) && (v2 <? PROBE_MCS_MAX) && pr_valid rung in
  let pressed := negb (pressure_since_us s =? 0) in
  io_ret [obj "mcs" [("enabled", JBool (mcs_enabled m)); ("current_mcs", JNum (current_mcs s));
    ("in_failsafe", JBool (in_failsafe s));
    obj "rssi_guard" [("floor_active", JBool (rssi_floor_active s));
      ("fade_active", JBool (rssi_fade_active s))];
    obj "pressure" [("active", JBool pressed);
      ("held_s", num 2 (if pressed then seconds (u64 (now - pressure_since_us s)) else f0));
      ("escapes", JNum (pressure_escape_count s))];
    obj "flap_guard" [("mcs", JNum (flap_guard_mcs s));
      ("active", JBool ((flap_guard_mcs s >=? 0) && negb (flap_guard_us s =? 0) &&
         flt (seconds (u64 (now - flap_guard_us s))) (to_f64 (mcs_reentry_backoff_s m))));
      ("freeze_mcs", JNum (flap_freeze_mcs s));
      ("frozen", JBool ((flap_freeze_mcs s >=? 0) && (now <? flap_freeze_until_us s)))];
    ("commit_count", JNum (commit_count s)); ("changes_in_window", JNum (changes_count s));
    ("last_emit_mcs", JNum (d_emit_mcs d)); ("rx_ant_age_s", num 3 rx_age);
    ("bitrate_lead_s", numf 3 (fec_bitrate_lead_s f));
    ("mcs_up_grace_s", numf 3 (fec_mcs_up_grace_s f));
    obj "pending_drop" [("active", JBool (pd_active (d_pending d)));
      ("target_mcs", JNum (pd_target_mcs (d_pending d))); ("ms_remaining", JNum ms)];
    obj "probe" [("records", JNum (ps_total_records p)); ("parse_errors", JNum (ps_parse_errors p));
      ("age_s", num 3 (age_at now (ps_last_any_us p))); ("v2_mcs", JNum v2);
      ("v2_per_milli", JNum (if known then pr_per_milli rung else -1));
      ("v2_accounted", JNum (if known then pr_accounted rung else -1));
      ("v2_age_s", num 3 (if known then seconds (u64 (now - pr_last_us rung)) else F64.of_Z (-1)));
      ("v2_gated", JBool (known && (pr_last_us rung <? ps_gate_us p)));
      ("configured", JBool (negb (probe_port (d_cfg d) =? 0)));
      ("feed_seq", JNum (pt_feed_seq (d_pt d))); ("tuned_mcs", JNum (pt_tuned_mcs (d_pt d)));
      ("retune_fails", JNum (pt_retune_fails (d_pt d)))]]].

Definition radio_fields (d : Daemon) : list (string * json) :=
  let r := d_radio d in
  [obj "radio" [("valid", JBool (radio_valid r)); ("mcs", JNum (radio_mcs r));
    ("bw", JNum (radio_bandwidth r)); ("short_gi", JNum (radio_short_gi r));
    ("stbc", JNum (radio_stbc r)); ("ldpc", JNum (radio_ldpc r));
    ("vht_mode", JNum (radio_vht_mode r)); ("vht_nss", JNum (radio_vht_nss r));
    ("phy_mbps", numf 2 (radio_phy_mbps r))]].

(** The smoothed ratios under names that say so. *)
Definition score_field (d : Daemon) : string * json :=
  let s := d_score d in
  obj "score" [("raw_rssi", numf 2 (raw_rssi s)); ("smoothed_rssi", numf 2 (smoothed_rssi s));
    ("smoothed_lost_ratio", numf 4 (smoothed_lost_ratio s));
    ("smoothed_recov_ratio", numf 4 (smoothed_recov_ratio s));
    ("smoothed_diversity_ratio", numf 4 (smoothed_diversity_ratio s));
    ("adapter_count", JNum (adapter_count s)); ("rssi_slope_db_s", numf 2 (rssi_slope_db_s s))].

(** The antennas in use. *)
Definition ants (s : Score) : list json := map (numf 1) (take (Z.to_nat (ant_count s)) (ant_avg s)).

Definition uplink_fields (d : Daemon) (age : fp) : list (string * json) :=
  let u := d_up d in
  [("present", JBool (up_present u)); ("age_s", num 2 age);
   ("raw_rssi", numf 2 (raw_rssi (up_score u))); ("smoothed_rssi", numf 2 (smoothed_rssi (up_score u)));
   ("pkt_total", JNum (up_pkt_total u)); ("lost_total", JNum (up_lost_total u));
   ("pkt_last", JNum (up_pkt u)); ("lost_last", JNum (up_lost u))].

(** ** Writing them into a buffer *)

Notation "'let?' x ':=' m 'in' k" :=
  (io_bind m (fun o => match o with None => io_ret None | Some x => k end))
  (at level 10, x pattern, m at level 100, k at level 200).

Definition append_fec_json (cap : Z) (d : Daemon) (b : string) : IO (option string) :=
  let! fs := fec_fields d in io_ret (room cap b (members fs)).
Definition append_transport_json (cap : Z) (d : Daemon) (b : string) : IO (option string) :=
  let! fs := transport_fields d in io_ret (room cap b (members fs)).
Definition append_mcs_json (cap : Z) (d : Daemon) (ms : Z) (b : string) : IO (option string) :=
  let! fs := mcs_fields d ms in io_ret (room cap b (members fs)).
Definition append_radio_json (cap : Z) (d : Daemon) (b : string) : IO (option string) :=
  io_ret (room cap b (members (radio_fields d))).

Definition append_score_json (cap : Z) (d : Daemon) (include_ants : bool) (b : string)
    : option string :=
  b ← room cap b (members [score_field d]);
  if include_ants then
    b ← room cap b (str1 COMMA ++ quoted "ants" ++ str1 COLON ++ sKO);
    b ← items cap b true (map print_json (ants (d_score d)));
    room cap b sKC
  else Some b.

Definition append_uplink_rx_json (cap : Z) (d : Daemon) (b : string) : IO (option string) :=
  let! age := age_s (up_rx_us (d_up d)) in
  io_ret (
    b ← room cap b (quoted "uplink_rx" ++ str1 COLON ++ sBO ++ members (uplink_fields d age) ++
                    str1 COMMA ++ quoted "ants" ++ str1 COLON ++ sKO);
    b ← items cap b true (map print_json (ants (up_score (d_up d))));
    room cap b (sKC ++ sBC)).

Definition append_comma (cap : Z) (b : string) : IO (option string) := io_ret (room cap b (str1 COMMA)).

Definition logsync_fields (d : Daemon) : list (string * json) :=
  let l := d_sync d in
  if ls_valid l then
    [obj "logsync" [("seq", JNum (ls_seq l)); ("gs_unix_s", JNum (ls_gs_unix_s l));
      ("recv_uptime_s", num 3 (ls_recv_uptime_s l)); ("count", JNum (ls_count l))]]
  else [].

Definition logger_fields (l : SdLogger) : list (string * json) :=
  if sl_enabled l then
    [obj "logger" [("active", JBool (sl_active l)); ("sampling", JBool (sl_sampling l));
      ("seq", JNum (sl_seq l)); ("records", JNum (sl_records l)); ("bytes", JNum (sl_bytes l))]]
  else [].

Definition recovery_fields (d : Daemon) : list (string * json) :=
  let r := d_rv d in
  [obj "recovery" [("recv", JNum (rv_recv_total r)); ("rejected", JNum (rv_rejected r));
    ("armed", JNum (rv_armed r)); ("executed", JNum (rv_executed r));
    ("last_rc", JNum (rv_last_exec_rc r))]].

(** A member that may be left out. *)
Definition append_optional (cap : Z) (fs : list (string * json)) (b : string) : IO (option string) :=
  match fs with
  | [] => io_ret (Some b)
  | _ => io_ret (room cap b (str1 COMMA ++ members fs))
  end.

Definition status_into (d : Daemon) (ms : Z) (lg : SdLogger) (cap : Z) (b : string)
    : IO (option string) :=
  let! up := log_rel_s log_start_us in
  let? b := io_ret (room cap b (sBO ++ members [("uptime_s", num 3 up);
                      ("dry_run", JBool (dry_run (d_cfg d)))] ++ str1 COMMA)) in
  let? b := append_fec_json cap d b in
  let? b := append_comma cap b in
  let? b := append_transport_json cap d b in
  let? b := append_comma cap b in
  let? b := append_mcs_json cap d ms b in
  let? b := append_comma cap b in
  let? b := append_radio_json cap d b in
  let? b := append_comma cap b in
  let? b := io_ret (append_score_json cap d true b) in
  let? b := append_comma cap b in
  let? b := append_uplink_rx_json cap d b in
  let? b := append_optional cap (logsync_fields d) b in
  let? b := append_optional cap (logger_fields lg) b in
  let? b := append_optional cap (recovery_fields d) b in
  io_ret (room cap b sBC).
Definition status_to_json (d : Daemon) (ms : Z) (lg : SdLogger) (cap : Z) : IO (option string) :=
  status_into d ms lg cap "".

Definition fec_status_into (d : Daemon) (cap : Z) (b : string) : IO (option string) :=
  let! up := log_rel_s log_start_us in
  let? b := io_ret (room cap b (sBO ++ members [("uptime_s", num 3 up)] ++ str1 COMMA)) in
  let? b := append_fec_json cap d b in
  let? b := append_comma cap b in
  let? b := append_transport_json cap d b in
  let? b := append_comma cap b in
  let? b := append_radio_json cap d b in
  io_ret (room cap b sBC).
Definition fec_status_to_json (d : Daemon) (cap : Z) : IO (option string) := fec_status_into d cap "".

Definition mcs_status_into (d : Daemon) (ms : Z) (cap : Z) (b : string) : IO (option string) :=
  let! up := log_rel_s log_start_us in
  let? b := io_ret (room cap b (sBO ++ members [("uptime_s", num 3 up)] ++ str1 COMMA)) in
  let? b := append_mcs_json cap d ms b in
  let? b := append_comma cap b in
  let? b := append_radio_json cap d b in
  let? b := append_comma cap b in
  let? b := io_ret (append_score_json cap d true b) in
  io_ret (room cap b sBC).
Definition mcs_status_to_json (d : Daemon) (ms : Z) (cap : Z) : IO (option string) := mcs_status_into d ms cap "".

(** [pending_drop_ms_remaining] of the snapshot; the clock is read twice. *)
Definition pending_ms (d : Daemon) : IO Z :=
  let p := d_pending d in
  if pd_active p then
    let! t1 := now_us in
    if pd_deadline_us p >? t1 then
      let! t2 := now_us in io_ret (i32 (u64 (pd_deadline_us p - t2) / 1000))
    else io_ret 0
  else io_ret 0.

(** The counters of the command proxy and the age of the last apply of each operator key. *)
Definition cmd_status_doc (d : Daemon) : IO json :=
  let w := d_wcmd d in
  let c := cfg_cmd (d_cfg d) in
  let! now := now_us in
  let! up := log_rel_s log_start_us in
  let age key := num 3 (age_at now (ws_last_apply_us w !!! Z.to_nat key)) in
  io_ret (JObj [
    ("uptime_s", num 3 up); ("present", JBool true); ("enabled", JBool (cmd_enabled c));
    ("loopback_only", JBool (cmd_loopback_only c)); ("rate_limit_ms", JNum (cmd_rate_limit_ms c));
    ("allow_keys_mask", JNum (cmd_allow_keys_mask c));
    ("socket_port", JNum (mcs_stats_port (cfg_mcs (d_cfg d))));
    obj "counters" [("recv_total", JNum (ws_recv_total w)); ("accepted", JNum (ws_accepted w));
      ("rejected_format", JNum (ws_rejected_format w));
      ("rejected_disabled", JNum (ws_rejected_disabled w));
      ("rejected_unknown", JNum (ws_rejected_unknown w));
      ("rejected_blocked", JNum (ws_rejected_blocked w));
      ("rejected_range", JNum (ws_rejected_range w)); ("rejected_rate", JNum (ws_rejected_rate w));
      ("rejected_peer", JNum (ws_rejected_peer w)); ("http_errors", JNum (ws_http_errors w));
      ("coalesced_burst", JNum (ws_coalesced_burst w))];
    obj "last" [("status", JNum (status_code (ws_last_status w))); ("key", JNum (ws_last_key w));
      ("value", JNum (ws_last_value w)); ("http_status", JNum (ws_last_http_status w));
      ("recv_age_s", num 3 (age_at now (ws_last_recv_us w)))];
    obj "last_apply_age_s" [("bitrate", age WCMD_KEY_BITRATE_KBPS); ("fps", age WCMD_KEY_FPS);
      ("payload", age WCMD_KEY_PAYLOAD_BYTES); ("force_idr", age WCMD_KEY_FORCE_IDR);
      ("wfb_fec_k", age WCMD_KEY_WFB_FEC_K); ("wfb_fec_n", age WCMD_KEY_WFB_FEC_N);
      ("wfb_mcs", age WCMD_KEY_WFB_MCS); ("wfb_bandwidth", age WCMD_KEY_WFB_BANDWIDTH);
      ("wfb_ldpc", age WCMD_KEY_WFB_LDPC); ("wfb_stbc", age WCMD_KEY_WFB_STBC);
      ("wfb_short_gi", age WCMD_KEY_WFB_SHORT_GI); ("fec_enabled", age WCMD_KEY_FEC_ENABLED);
      ("mcs_enabled", age WCMD_KEY_MCS_ENABLED); ("wfb_txpower", age WCMD_KEY_WFB_TXPOWER);
      ("record", age WCMD_KEY_RECORD)]]).

(** One [snprintf] into an empty buffer. *)
Definition cmd_status_to_json (d : Daemon) (cap : Z) : IO (option string) :=
  let! doc := cmd_status_doc d in io_ret (room cap "" (print_json doc)).

(** ** The documents *)

Definition status_doc (d : Daemon) (ms : Z) (lg : SdLogger) : IO json :=
  let! up := log_rel_s log_start_us in
  let! fec := fec_fields d in
  let! transport := transport_fields d in
  let! mcs := mcs_fields d ms in
  let! age := age_s (up_rx_us (d_up d)) in
  io_ret (JObj ([("uptime_s", num 3 up); ("dry_run", JBool (dry_run (d_cfg d)))] ++ fec ++
    transport ++ mcs ++ radio_fields d ++ [score_field d; ("ants", JArr (ants (d_score d)));
    obj "uplink_rx" (uplink_fields d age ++ [("ants", JArr (ants (up_score (d_up d))))])] ++
    logsync_fields d ++ logger_fields lg ++ recovery_fields d)).

Definition fec_status_doc (d : Daemon) : IO json :=
  let! up := log_rel_s log_start_us in
  let! fec := fec_fields d in
  let! transport := transport_fields d in
  io_ret (JObj ([("uptime_s", num 3 up)] ++ fec ++ transport ++ radio_fields d)).

Definition mcs_status_doc (d : Daemon) (ms : Z) : IO json :=
  let! up := log_rel_s log_start_us in
  let! mcs := mcs_fields d ms in
  io_ret (JObj ([("uptime_s", num 3 up)] ++ mcs ++ radio_fields d ++
    [score_field d; ("ants", JArr (ants (d_score d)))])).

(** ** Writing is printing

    [appends cap m p]: behind any text that fits, [m] leaves the text of [p] if the two
    together fit, and fails otherwise; in the first case it has asked the outside the same. *)

Definition appends (cap : Z) (m : string -> IO (option string)) (p : IO string) : Prop :=
  forall b w, strlen b < cap ->
  let '(t, w') := p w in
  if strlen (b ++ t)%string <? cap then m b w = (Some (b ++ t)%string, w')
  else (m b w).1 = None.

Lemma appends_pure cap f t :
  (forall b, strlen b < cap -> f b = fits cap (b ++ t)%string) ->
  appends cap (fun b => io_ret (f b)) (io_ret t).
Proof.
  intros H b w Hb. cbn. unfold io_ret. rewrite H by done. unfold fits. by case_bool.
Qed.

Lemma appends_room cap t : appends cap (fun b => io_ret (room cap b t)) (io_ret t).
Proof. apply appends_pure. intros b _. apply room_fits. Qed.

Lemma appends_read {A} cap (m : IO A) k p :
  (forall x, appends cap (k x) (p x)) ->
  appends cap (fun b => let! x := m in k x b) (let! x := m in p x).
Proof. intros H b w Hb. unfold io_bind. destruct (m w) as [x w1]. by apply H. Qed.

Lemma appends_seq cap m1 m2 p1 p2 :
  appends cap m1 p1 -> appends cap m2 p2 ->
  appends cap (fun b => let? b := m1 b in m2 b)
    (let! t1 := p1 in let! t2 := p2 in io_ret (t1 ++ t2)%string).
Proof.
  intros H1 H2 b w Hb. specialize (H1 b w Hb). unfold io_bind in *.
  destruct (p1 w) as [t1 w1]. specialize (H2 (b ++ t1)%string w1).
  destruct (p2 w1) as [t2 w2] eqn:E2. unfold io_ret. rewrite <- sapp_assoc in *.
  destruct (Z.ltb_spec (strlen (b ++ t1)%string) cap) as [Hl|Hl].
  - rewrite H1. by apply H2.
  - rewrite strlen_app. pose proof (strlen_nonneg t2).
    destruct (Z.ltb_spec (strlen (b ++ t1)%string + strlen t2) cap); [lia|].
    destruct (m1 b w) as [[t|] w']; [done|]. done.
Qed.

Lemma appends_ext cap m p p' : (forall w, p w = p' w) -> appends cap m p -> appends cap m p'.
Proof. intros H Hm b w Hb. rewrite <- H. by apply Hm. Qed.

(** ** Parts *)

Lemma members_app fs gs : fs <> [] -> gs <> [] ->
  members (fs ++ gs) = (members fs ++ str1 COMMA ++ members gs)%string.
Proof.
  unfold members. intros Hf Hg. induction fs as [|f fs IH]; [done|]. cbn [map app].
  rewrite !commas_cons. destruct fs as [|f' fs].
  - cbn [map app]. destruct gs; [done|]. cbn [map]. by rewrite sapp_nil_r.
  - cbn [map app] in *. rewrite IH by done. by rewrite !sapp_assoc.
Qed.

Lemma append_fec_spec cap d :
  appends cap (append_fec_json cap d) (let! fs := fec_fields d in io_ret (members fs)).
Proof. apply appends_read. intros fs. apply appends_room. Qed.

Lemma append_transport_spec cap d :
  appends cap (append_transport_json cap d) (let! fs := transport_fields d in io_ret (members fs)).
Proof. apply appends_read. intros fs. apply appends_room. Qed.

Lemma append_mcs_spec cap d ms :
  appends cap (append_mcs_json cap d ms) (let! fs := mcs_fields d ms in io_ret (members fs)).
Proof. apply appends_read. intros fs. apply appends_room. Qed.

Lemma append_radio_spec cap d :
  appends cap (append_radio_json cap d) (io_ret (members (radio_fields d))).
Proof. apply appends_room. Qed.

Lemma append_comma_spec cap : appends cap (append_comma cap) (io_ret (str1 COMMA)).
Proof. apply appends_room. Qed.

(** A list in brackets behind a prefix, as three pieces. *)
Lemma bracketed_fits cap b pre l post : strlen b < cap ->
  (b ← room cap b pre; b ← items cap b true l; room cap b post) =
  fits cap (b ++ pre ++ commas l ++ post)%string.
Proof.
  intros Hb. rewrite room_fits. apply fits_bind; intros H.
  - rewrite items_closed by (by left). by rewrite sapp_assoc.
  - rewrite <- sapp_assoc. by apply fits_long.
Qed.

Lemma append_score_spec cap d : appends cap (fun b => io_ret (append_score_json cap d true b))
  (io_ret (members [score_field d; ("ants"%string, JArr (ants (d_score d)))])).
Proof.
  apply appends_pure. intros b Hb. unfold append_score_json. rewrite room_fits.
  change [score_field d; ?x] with ([score_field d] ++ [x]). rewrite members_app by done.
  apply fits_bind; intros H.
  - rewrite bracketed_fits by done. unfold members at 3. cbn [map commas fst snd print_json].
    by rewrite !sapp_assoc.
  - rewrite <- sapp_assoc. by apply fits_long.
Qed.

Lemma append_uplink_spec cap d : appends cap (append_uplink_rx_json cap d)
  (let! age := age_s (up_rx_us (d_up d)) in
   io_ret (members [obj "uplink_rx"
     (uplink_fields d age ++ [("ants"%string, JArr (ants (up_score (d_up d))))])])).
Proof.
  apply appends_read. intros age. apply appends_pure. intros b Hb.
  rewrite bracketed_fits by done. unfold obj. unfold members at 2.
  cbn [map commas fst snd print_json].
  fold (members (uplink_fields d age ++ [("ants"%string, JArr (ants (up_score (d_up d))))])).
  rewrite members_app by done. unfold members at 3. cbn [map commas fst snd print_json].
  by rewrite !sapp_assoc.
Qed.

Definition optional_text (fs : list (string * json)) : string :=
  match fs with [] => EmptyString | _ => (str1 COMMA ++ members fs)%string end.

Lemma append_optional_spec cap fs :
  appends cap (append_optional cap fs) (io_ret (optional_text fs)).
Proof.
  destruct fs; cbn [append_optional optional_text]; [|apply appends_room].
  apply (appends_pure cap (fun b => Some b)). intros b Hb. rewrite sapp_nil_r. unfold fits.
  by case_bool; [|lia].
Qed.

Lemma members_optional fs gs : fs <> [] ->
  members (fs ++ gs) = (members fs ++ optional_text gs)%string.
Proof.
  intros H. destruct gs; [by rewrite app_nil_r, sapp_nil_r|]. by apply members_app.
Qed.

(** ** The documents are written whole or not at all *)

Lemma app_ne {A} (l m : list A) : l <> [] -> l ++ m <> [].
Proof. by destruct l. Qed.

Lemma cons_ne {A} (x : A) l : x :: l <> [].
Proof. done. Qed.

Lemma radio_ne d : radio_fields d <> [].
Proof. done. Qed.

Lemma recovery_ne d : recovery_fields d <> [].
Proof. done. Qed.

#[local] Hint Resolve app_ne cons_ne radio_ne recovery_ne : nonempty.

Lemma fec_fields_nonempty d w : (fec_fields d w).1 <> [].
Proof.
  unfold fec_fields. destruct (shown_payload d), (shown_airtime d). unfold io_bind.
  destruct (age_s _ w) as [a w1]. destruct (_ =? 0); [done|].
  by destruct (now_us w1).
Qed.

Lemma transport_fields_nonempty d w : (transport_fields d w).1 <> [].
Proof. unfold transport_fields, io_bind. by destruct (age_s _ w). Qed.

Lemma mcs_fields_nonempty d ms w : (mcs_fields d ms w).1 <> [].
Proof. unfold mcs_fields, io_bind. destruct (age_s _ w) as [a w1]. by destruct (now_us w1). Qed.

Lemma fec_status_spec d cap : appends cap (fec_status_into d cap)
  (let! doc := fec_status_doc d in io_ret (print_json doc)).
Proof.
  eapply appends_ext; [|
    apply (appends_read cap (log_rel_s log_start_us)); intros up;
    apply appends_seq; [apply appends_room|];
    apply appends_seq; [apply append_fec_spec|];
    apply appends_seq; [apply append_comma_spec|];
    apply appends_seq; [apply append_transport_spec|];
    apply appends_seq; [apply append_comma_spec|];
    apply appends_seq; [apply append_radio_spec|apply appends_room]].
  intros w. unfold fec_status_doc, io_bind, io_ret. cbv beta. destruct (log_rel_s _ w) as [up w1].
  pose proof (fec_fields_nonempty d w1) as H1. destruct (fec_fields d w1) as [fec w2].
  pose proof (transport_fields_nonempty d w2) as H2. destruct (transport_fields d w2) as [tr w3].
  cbn [fst] in *. f_equal. cbn [print_json].
  change (commas (map _ ?l)) with (members l).
  rewrite !members_app by auto with nonempty. by rewrite !sapp_assoc.
Qed.

Lemma mcs_status_spec d ms cap : appends cap (mcs_status_into d ms cap)
  (let! doc := mcs_status_doc d ms in io_ret (print_json doc)).
Proof.
  eapply appends_ext; [|
    apply (appends_read cap (log_rel_s log_start_us)); intros up;
    apply appends_seq; [apply appends_room|];
    apply appends_seq; [apply append_mcs_spec|];
    apply appends_seq; [apply append_comma_spec|];
    apply appends_seq; [apply append_radio_spec|];
    apply appends_seq; [apply append_comma_spec|];
    apply appends_seq; [apply append_score_spec|apply appends_room]].
  intros w. unfold mcs_status_doc, io_bind, io_ret. cbv beta. destruct (log_rel_s _ w) as [up w1].
  pose proof (mcs_fields_nonempty d ms w1) as H1. destruct (mcs_fields d ms w1) as [mcs w2].
  cbn [fst] in *. f_equal. cbn [print_json].
  change (commas (map _ ?l)) with (members l).
  rewrite !members_app by auto with nonempty. by rewrite !sapp_assoc.
Qed.

Lemma status_spec d ms lg cap : appends cap (status_into d ms lg cap)
  (let! doc := status_doc d ms lg in io_ret (print_json doc)).
Proof.
  eapply appends_ext; [|
    apply (appends_read cap (log_rel_s log_start_us)); intros up;
    apply appends_seq; [apply appends_room|];
    apply appends_seq; [apply append_fec_spec|];
    apply appends_seq; [apply append_comma_spec|];
    apply appends_seq; [apply append_transport_spec|];
    apply appends_seq; [apply append_comma_spec|];
    apply appends_seq; [apply append_mcs_spec|];
    apply appends_seq; [apply append_comma_spec|];
    apply appends_seq; [apply append_radio_spec|];
    apply appends_seq; [apply append_comma_spec|];
    apply appends_seq; [apply append_score_spec|];
    apply appends_seq; [apply append_comma_spec|];
    apply appends_seq; [apply append_uplink_spec|];
    apply appends_seq; [apply append_optional_spec|];
    apply appends_seq; [apply append_optional_spec|];
    apply appends_seq; [apply append_optional_spec|apply appends_room]].
  intros w. unfold status_doc, io_bind, io_ret. cbv beta. destruct (log_rel_s _ w) as [up w1].
  pose proof (fec_fields_nonempty d w1) as H1. destruct (fec_fields d w1) as [fec w2].
  pose proof (transport_fields_nonempty d w2) as H2. destruct (transport_fields d w2) as [tr w3].
  pose proof (mcs_fields_nonempty d ms w3) as H3. destruct (mcs_fields d ms w3) as [mcs w4].
  destruct (age_s _ w4) as [age w5].
  cbn [fst] in *. f_equal. cbn [print_json].
  change (commas (map _ ?l)) with (members l).
  change [score_field d; ?x; ?y] with ([score_field d; x] ++ [y]).
  rewrite !app_assoc. rewrite 3!members_optional by auto 12 with nonempty.
  rewrite <- !app_assoc.
  rewrite !members_app by auto with nonempty. by rewrite !sapp_assoc.
Qed.
End Status.

(** ** How long a document can get

    [good n k v]: [v] is read back by the general round trip, has at most [k] tokens, and is at
    most [n] characters long if its whole numbers fit a [long]; [goodm] says so of a list of
    members, each counted with a comma. *)

Section Good.
Context {ABI : CAbi}.

Definition good (n : Z) (k : nat) (v : json) : Prop :=
  plain_json v = true /\ (jsize v <= k)%nat /\
  (json_fits v = true -> strlen (print_json v) <= n).

Definition goodm (n : Z) (k : nat) (fs : list (string * json)) : Prop :=
  plain_json (JObj fs) = true /\ (jsize (JObj fs) <= S k)%nat /\
  (json_fits (JObj fs) = true -> strlen (members fs) <= n).

Lemma good_num z : good 20 1 (JNum z).
Proof.
  split_and!; [done|done|]. cbn [json_fits print_json]. intros [H1%Z.leb_le H2%Z.leb_le]%andb_true_iff.
  apply (pretty_length z 19); [done|]. unfold LONG_MIN, LONG_MAX in *.
  destruct long_bits_ok as [E|E]; rewrite E in *; lia.
Qed.

Lemma good_bool b : good 5 1 (JBool b).
Proof. split_and!; [done|done|]. intros _. by destruct b. Qed.

Lemma good_raw n s : plain_json (JRaw s) = true -> strlen s <= n -> good n 1 (JRaw s).
Proof. intros Hp Hs. split; [done|]. split; [done|]. by intros _. Qed.

(** A [float]; its double has at most 309 digits before the point. *)
Lemma good_numf n x : good (311 + Z.of_nat n) 1 (numf n x).
Proof.
  apply good_raw; [apply plain_printf_f|].
  pose proof (printf_f_length n (to_f64 x) 1024 309 ltac:(lia) ltac:(lia)
    ltac:(by apply Z.ltb_lt) (to_f64_max x)). lia.
Qed.

Lemma good_double n x : fsize 1024 x -> good (311 + Z.of_nat n) 1 (num n x).
Proof.
  intros H. apply good_raw; [apply plain_printf_f|].
  pose proof (printf_f_length n x 1024 309 ltac:(lia) ltac:(lia) ltac:(by apply Z.ltb_lt) H). lia.
Qed.

(** A time. *)
Lemma good_time n x : fsize 47 x -> good (17 + Z.of_nat n) 1 (num n x).
Proof.
  intros H. apply good_raw; [apply plain_printf_f|].
  pose proof (printf_f_length n x 47 15 ltac:(lia) ltac:(lia) ltac:(by apply Z.ltb_lt) H). lia.
Qed.

Lemma goodm_nil : goodm 0 0 [].
Proof. split; [done|]. split; [done|]. by intros _. Qed.

Lemma goodm_cons key n k v n' k' fs : all_chars plain_char key = true ->
  good n k v -> goodm n' k' fs ->
  goodm (strlen key + 4 + n + n') (S k + k') ((key, v) :: fs).
Proof.
  intros Hk (P1 & S1 & L1) (P2 & S2 & L2). unfold goodm. cbn [plain_json jsize json_fits forallb
    fold_right fst snd] in *. split_and!.
  - by rewrite Hk, P1.
  - lia.
  - intros [F1 F2]%andb_true_iff. specialize (L1 F1). specialize (L2 F2).
    unfold members in *. cbn [map fst snd]. rewrite commas_cons, strlen_app.
    unfold quoted, str1. rewrite !strlen_app. cbn [strlen].
    destruct (map _ fs) eqn:E; cbn [strlen commas] in *; [lia|]. rewrite strlen_app. cbn [strlen]. lia.
Qed.

Lemma good_obj n k fs : goodm n k fs -> good (2 + n) (S k) (JObj fs).
Proof.
  intros (P & S & L). split_and!; [done|done|]. intros F. specialize (L F). cbn [print_json].
  fold (members fs). rewrite !strlen_app. unfold sBO, sBC, str1. cbn [strlen]. lia.
Qed.

Lemma goodm_app n k fs n' k' gs :
  goodm n k fs -> goodm n' k' gs -> goodm (n + n' + 1) (k + k') (fs ++ gs).
Proof.
  intros (P1 & S1 & L1) (P2 & S2 & L2). unfold goodm in *. cbn [plain_json jsize json_fits] in *.
  rewrite !forallb_app. split_and!.
  - by rewrite P1, P2.
  - assert (forall l : list (string * json), fold_right (fun kv m => S (jsize kv.2 + m)) 0%nat (l ++ gs) =
      (fold_right (fun kv m => S (jsize kv.2 + m)) 0 l +
       fold_right (fun kv m => S (jsize kv.2 + m)) 0 gs)%nat) as ->; [|lia].
    induction l as [|x l IH]; [done|]. cbn [app fold_right]. rewrite IH. lia.
  - intros [F1 F2]%andb_true_iff. specialize (L1 F1). specialize (L2 F2).
    pose proof (strlen_nonneg (members fs)). pose proof (strlen_nonneg (members gs)).
    destruct fs as [|f fs]; [cbn [app]; lia|]. destruct gs as [|g gs]; [rewrite app_nil_r; lia|].
    rewrite members_app by done. rewrite !strlen_app. unfold str1. cbn [strlen]. lia.
Qed.

Lemma goodm_weaken n k n' k' fs : n <= n' -> (k <= k')%nat -> goodm n k fs -> goodm n' k' fs.
Proof. intros ? ? (? & ? & ?). split_and!; [done|lia|]. intros. by etransitivity; eauto. Qed.

(** An array of at most eight floats. *)
Lemma good_ants s : (length (ant_avg s) <= 8)%nat -> good 2600 9 (JArr (ants s)).
Proof.
  intros Hs. unfold ants. set (l := take _ _).
  assert (length l <= 8)%nat as Hl by (subst l; rewrite length_take; lia). clearbody l.
  split_and!.
  - cbn [plain_json]. apply forallb_forall. intros v (x & <- & _)%in_map_iff. apply plain_printf_f.
  - cbn [jsize]. assert (forall l : list fp, fold_right (fun v m => jsize v + m)%nat 0%nat (map (numf 1) l) =
      length l) as ->; [|lia].
    clear. intros l. induction l as [|x l IH]; [done|]. cbn [map fold_right length]. by rewrite IH.
  - intros _. cbn [print_json]. rewrite !strlen_app. unfold sKO, sKC, str1. cbn [strlen].
    assert (strlen (commas (map print_json (map (numf 1) l))) <= Z.of_nat (length l) * 313) as H; [|lia].
    clear Hl. induction l as [|x l IH]; [done|]. cbn [map length]. rewrite commas_cons, strlen_app.
    destruct (good_numf 1 x) as (_ & _ & Hx). specialize (Hx eq_refl).
    destruct (map print_json (map (numf 1) l)); cbn [strlen] in *; [lia|].
    rewrite strlen_app. unfold str1. cbn [strlen]. lia.
Qed.
End Good.

(** ** Times are short *)

Lemma seconds_u64 u : fsize 47 (seconds (u64 u)).
Proof. apply seconds_size. unfold u64, wrap. apply Z.mod_pos_bound. lia. Qed.

Lemma minus_one_size : fsize 47 (F64.of_Z (-1)).
Proof. vm_compute. discriminate. Qed.

Lemma age_at_size now last : fsize 47 (age_at now last).
Proof. unfold age_at. case_bool; [apply minus_one_size|apply seconds_u64]. Qed.

Lemma age_s_size `{!Env} last w : fsize 47 (age_s last w).1.
Proof. unfold age_s. case_bool; [apply minus_one_size|]. apply seconds_u64. Qed.

Lemma if_size (b : bool) x y k : fsize k x -> fsize k y -> fsize k (if b then x else y).
Proof. by destruct b. Qed.

Lemma zero_size k : fsize k f0.
Proof. done. Qed.

#[local] Hint Resolve seconds_u64 minus_one_size age_at_size if_size zero_size : doc.

(** Builds the bounds of a literal list of members. *)
Ltac doc_good :=
  repeat lazymatch goal with
  | |- goodm _ _ [] => apply goodm_nil
  | |- goodm _ _ (_ :: _) => apply goodm_cons; [vm_compute; reflexivity| |]
  | |- good _ _ (JObj _) => apply good_obj
  | |- good _ _ (JNum _) => apply good_num
  | |- good _ _ (JBool _) => apply good_bool
  | |- good _ _ (numf _ _) => apply good_numf
  | |- good _ _ (num _ _) => apply good_time; auto with doc
  end.

(** The bound found is at most the one stated. *)
Ltac doc_within := eapply goodm_weaken; [| |unfold obj; doc_good; try eassumption];
  [vm_compute; discriminate|apply Nat.leb_le; vm_compute; reflexivity].

Section Bounds.
Context {ABI : CAbi} {EV : Env}.

Lemma fec_good d w : goodm 2700 70 (fec_fields d w).1.
Proof.
  unfold fec_fields. destruct (shown_payload d) as [sel clipped], (shown_airtime d) as [est cap].
  unfold io_bind. pose proof (age_s_size (d_stats_us d) w) as Ha.
  destruct (age_s _ w) as [a w1]. cbn [fst] in Ha.
  set (m := if _ =? 0 then _ else _). destruct (m w1) as [g w2]. cbn [fst io_ret]. doc_within.
Qed.

Lemma transport_good d w : goodm 600 30 (transport_fields d w).1.
Proof.
  unfold transport_fields, io_bind. pose proof (age_s_size (tr_us (d_tr d)) w) as Ha.
  destruct (age_s _ w) as [a w1]. cbn [fst io_ret] in *. doc_within.
Qed.

Lemma mcs_good d ms w : goodm 2200 100 (mcs_fields d ms w).1.
Proof.
  unfold mcs_fields, io_bind. pose proof (age_s_size (d_rx_ant_us d) w) as Ha.
  destruct (age_s _ w) as [a w1]. destruct (now_us w1) as [now w2]. cbn [fst io_ret] in *.
  cbv zeta. doc_within.
Qed.

Lemma radio_good d : goodm 800 30 (radio_fields d).
Proof. unfold radio_fields. doc_within. Qed.

Lemma score_good d : (length (ant_avg (d_score d)) <= 8)%nat ->
  goodm 4800 40 [score_field d; ("ants"%string, JArr (ants (d_score d)))].
Proof.
  intros Hl. pose proof (good_ants (d_score d) Hl). unfold score_field. doc_within.
Qed.

Lemma uplink_good d age : fsize 47 age -> (length (ant_avg (up_score (d_up d))) <= 8)%nat ->
  goodm 3600 40 [obj "uplink_rx"
    (uplink_fields d age ++ [("ants"%string, JArr (ants (up_score (d_up d))))])].
Proof.
  intros Ha Hl. pose proof (good_ants (up_score (d_up d)) Hl). unfold uplink_fields.
  cbn [app]. doc_within.
Qed.

Lemma logsync_good d : fsize 1024 (ls_recv_uptime_s (d_sync d)) -> goodm 460 10 (logsync_fields d).
Proof.
  intros Hs. unfold logsync_fields. destruct (ls_valid _).
  - pose proof (good_double 3 _ Hs). unfold obj.
    eapply goodm_weaken; [| |apply goodm_cons; [vm_compute; reflexivity|apply good_obj|doc_good]].
    3: { apply goodm_cons; [vm_compute; reflexivity|doc_good|].
         apply goodm_cons; [vm_compute; reflexivity|doc_good|].
         apply goodm_cons; [vm_compute; reflexivity|eassumption|doc_good]. }
    + vm_compute. discriminate.
    + apply Nat.leb_le. vm_compute. reflexivity.
  - doc_within.
Qed.

Lemma logger_good l : goodm 200 12 (logger_fields l).
Proof. unfold logger_fields. destruct (sl_enabled l); doc_within. Qed.

Lemma recovery_good d : goodm 200 12 (recovery_fields d).
Proof. unfold recovery_fields. doc_within. Qed.
(** What the types of the variables say: antenna arrays of eight and a [double]. *)
Definition status_typed (d : Daemon) : Prop :=
  (length (ant_avg (d_score d)) <= 8)%nat /\ (length (ant_avg (up_score (d_up d))) <= 8)%nat /\
  fsize 1024 (ls_recv_uptime_s (d_sync d)).

Context (log_start_us : Z).

Lemma up_good w : goodm 60 2 [("uptime_s"%string, num 3 (log_rel_s log_start_us w).1)].
Proof.
  assert (fsize 47 (log_rel_s log_start_us w).1) as H by apply seconds_u64.
  doc_within.
Qed.

Lemma status_good d ms lg w : status_typed d -> exists fs,
  (status_doc log_start_us d ms lg w).1 = JObj fs /\ goodm 16000 400 fs.
Proof.
  intros (H1 & H2 & H3). unfold status_doc, io_bind, io_ret.
  pose proof (up_good w) as G1. destruct (log_rel_s _ w) as [up w1].
  pose proof (fec_good d w1) as G2. destruct (fec_fields d w1) as [fec w2].
  pose proof (transport_good d w2) as G3. destruct (transport_fields d w2) as [tr w3].
  pose proof (mcs_good d ms w3) as G4. destruct (mcs_fields d ms w3) as [mcs w4].
  pose proof (age_s_size (up_rx_us (d_up d)) w4) as Ha. destruct (age_s _ w4) as [age w5].
  cbn [fst] in *. eexists. split; [reflexivity|].
  pose proof (uplink_good d age Ha H2) as G5. pose proof (score_good d H1) as G6.
  change [score_field d; ?x; ?y] with ([score_field d; x] ++ [y]).
  change [?x; ("dry_run"%string, ?y)] with ([x] ++ [("dry_run"%string, y)]).
  eapply goodm_weaken; [| |repeat apply goodm_app;
    eauto using radio_good, logsync_good, logger_good, recovery_good;
    apply goodm_cons; [vm_compute; reflexivity|apply good_bool|apply goodm_nil]].
  - vm_compute. discriminate.
  - apply Nat.leb_le. vm_compute. reflexivity.
Qed.

(** What a good document in a buffer of 16 KiB comes to. *)
Lemma good_answer (m : Z -> string -> IO (option string)) (doc : IO json) fs w :
  appends 16384 (m 16384) (let! v := doc in io_ret (print_json v)) ->
  (doc w).1 = JObj fs -> goodm 16000 400 fs -> json_fits (doc w).1 = true ->
  m 16384 EmptyString w = (Some (print_json (doc w).1), (doc w).2) /\
  exists toks, json_parse (print_json (doc w).1) 512 = Some toks /\
               holds (print_json (doc w).1) toks 0 (doc w).1.
Proof.
  intros Hm Hd (P & S & L) F. specialize (Hm EmptyString w eq_refl). unfold io_bind, io_ret in Hm.
  destruct (doc w) as [v w']. cbn [fst snd] in *. subst v. specialize (L F). split.
  - cbn [String.append] in Hm. cbn [print_json] in *. fold (members fs) in *.
    rewrite !strlen_app in Hm. change (strlen sBO) with 1 in Hm. change (strlen sBC) with 1 in Hm.
    destruct (Z.ltb_spec (1 + (strlen (members fs) + 1)) 16384); [done|lia].
  - apply printed_holds; [done|done|]. rewrite json_tokens_size. lia.
Qed.

(** A document that answers and is read back. *)
Definition reported (answer : IO (option string)) (doc : IO json) (w : World) : Prop :=
  json_fits (doc w).1 = true ->
  answer w = (Some (print_json (doc w).1), (doc w).2) /\
  exists toks, json_parse (print_json (doc w).1) 512 = Some toks /\
               holds (print_json (doc w).1) toks 0 (doc w).1.

(** *** The document of /status, name by name

    The tree the answer must be, written against the variables alone.  [Readings] are the values
    the clock gave: for the uptime, the ages of the transmitter's statistics, of the encoder's
    transport record and of the last reception report, the grace of the bitrate, the times of the
    selector, and the age of the uplink. *)
Record Readings := Build_Readings {
  at_start : Z; at_stats : Z; at_grace : Z; at_transport : Z; at_rx : Z; at_mcs : Z; at_uplink : Z
}.

(** Seconds from [last] to [t]; -1 when there was nothing. *)
Definition since (t last : Z) : fp :=
  if last =? 0 then F64.of_Z (-1) else F64.div (F64.of_Z (u64 (t - last))) (F64.of_Z 1000000).

Definition double (digits : nat) (x : fp) : json := JRaw (printf_f digits x).
Definition float (digits : nat) (x : fp) : json := JRaw (printf_f digits (to_f64 x)).

Definition antennas (s : Score) : json := JArr (map (float 1) (take (Z.to_nat (ant_count s)) (ant_avg s))).

Section Tree.
Variables (d : Daemon) (ms : Z) (lg : SdLogger) (t : Readings).

Definition fec_tree : json :=
  let c := d_ctrl d in
  JObj [("enabled", JBool (fec_enabled (cfg_fec (d_cfg d)))); ("have_current", JBool (have_current c));
    ("k", JNum (fp_k (current c))); ("n", JNum (fp_n (current c)));
    ("avg_frame_size", float 1 (avg_frame_size c)); ("update_count", JNum (update_count c));
    ("fps", float 2 (fps_get (d_fps d)));
    ("in_grace", JBool (negb (bitrate_grace_until_us c =? 0) && (at_grace t <? bitrate_grace_until_us c)));
    ("redundancy", float 3 (fp_redundancy (current c)));
    ("loss_ewma", float 4 (smoothed_lost_ratio (d_score d)));
    ("recov_ewma", float 4 (smoothed_recov_ratio (d_score d)))].

Definition wfb_tree : json :=
  JObj [("last_set_fec_k", JNum (lw_fec_k (d_lw d))); ("last_set_fec_n", JNum (lw_fec_n (d_lw d)));
    ("last_bitrate_kbps", JNum (lw_kbps (d_lw d))); ("computed_safe_kbps", JNum (computed_safe d));
    ("stats_age_s", double 3 (since (at_stats t) (d_stats_us d)))].

Definition payload_tree : json :=
  let f := cfg_fec (d_cfg d) in
  JObj [("enabled", JBool (0 <? fec_payload_max f)); ("max", JNum (fec_payload_max f));
    ("min", JNum (fec_payload_min f)); ("last_written", JNum (lw_payload (d_lw d)));
    ("selected", JNum (shown_payload d).1); ("table_clipped", JBool (shown_payload d).2);
    ("pps_capped_kbps", JNum (pps_capped_kbps d));
    ("would_fragment_on_1500_mtu", JBool (1472 <? fec_payload_max f))].

Definition airtime_tree : json :=
  let cap := (shown_airtime d).2 in
  JObj [("max_pct", JNum (fec_airtime_max_pct (cfg_fec (d_cfg d)))); ("est_pct", JNum (shown_airtime d).1);
    ("cap_kbps", JNum cap); ("capped", JBool ((0 <? cap) && (cap <? shown_kbps d)))].

Definition transport_tree : json :=
  let r := d_tr d in
  JObj [("present", JBool (tr_present r)); ("fill_pct", JNum (tr_fill_pct r));
    ("in_pressure", JBool (tr_in_pressure r)); ("transport_drops", JNum (tr_drops r));
    ("pressure_drops", JNum (tr_pressure_drops r));
    ("pressure_drops_delta", JNum (tr_pressure_drops_delta r));
    ("packets_sent", JNum (tr_packets_sent r));
    ("age_s", double 3 (since (at_transport t) (tr_us r)));
    ("fec_skipped", JNum (tr_fec_skipped r));
    ("skip_on_backpressure", JBool (fec_skip_on_backpressure (cfg_fec (d_cfg d))));
    ("backpressure_fill_pct", JNum (fec_backpressure_fill_pct (cfg_fec (d_cfg d))))].

(** The rung two above the current one, if a probe has reported on it. *)
Definition probed : option ProbeRung :=
  let v2 := current_mcs (d_sel d) + 2 in
  let r := ps_rung (d_probe d) !!! Z.to_nat v2 in
  if (0 <=? v2) && (v2 <? PROBE_MCS_MAX) && pr_valid r then Some r else None.

Definition of_probed {A} (f : ProbeRung -> A) (none : A) : A :=
  match probed with Some r => f r | None => none end.

Definition probe_tree : json :=
  let p := d_probe d in
  JObj [("records", JNum (ps_total_records p)); ("parse_errors", JNum (ps_parse_errors p));
    ("age_s", double 3 (since (at_mcs t) (ps_last_any_us p)));
    ("v2_mcs", JNum (current_mcs (d_sel d) + 2));
    ("v2_per_milli", JNum (of_probed pr_per_milli (-1))); ("v2_accounted", JNum (of_probed pr_accounted (-1)));
    ("v2_age_s", double 3 (of_probed (fun r => F64.div (F64.of_Z (u64 (at_mcs t - pr_last_us r))) (F64.of_Z 1000000))
                              (F64.of_Z (-1))));
    ("v2_gated", JBool (of_probed (fun r => pr_last_us r <? ps_gate_us p) false));
    ("configured", JBool (negb (probe_port (d_cfg d) =? 0)));
    ("feed_seq", JNum (pt_feed_seq (d_pt d))); ("tuned_mcs", JNum (pt_tuned_mcs (d_pt d)));
    ("retune_fails", JNum (pt_retune_fails (d_pt d)))].

Definition mcs_tree : json :=
  let s := d_sel d in
  let guarded := F64.div (F64.of_Z (u64 (at_mcs t - flap_guard_us s))) (F64.of_Z 1000000) in
  JObj [("enabled", JBool (mcs_enabled (cfg_mcs (d_cfg d)))); ("current_mcs", JNum (current_mcs s));
    ("in_failsafe", JBool (in_failsafe s));
    ("rssi_guard", JObj [("floor_active", JBool (rssi_floor_active s));
                         ("fade_active", JBool (rssi_fade_active s))]);
    ("pressure", JObj [("active", JBool (negb (pressure_since_us s =? 0)));
       ("held_s", double 2 (if pressure_since_us s =? 0 then f0 else since (at_mcs t) (pressure_since_us s)));
       ("escapes", JNum (pressure_escape_count s))]);
    ("flap_guard", JObj [("mcs", JNum (flap_guard_mcs s));
       ("active", JBool ((0 <=? flap_guard_mcs s) && negb (flap_guard_us s =? 0) &&
          flt guarded (to_f64 (mcs_reentry_backoff_s (cfg_mcs (d_cfg d))))));
       ("freeze_mcs", JNum (flap_freeze_mcs s));
       ("frozen", JBool ((0 <=? flap_freeze_mcs s) && (at_mcs t <? flap_freeze_until_us s)))]);
    ("commit_count", JNum (commit_count s)); ("changes_in_window", JNum (changes_count s));
    ("last_emit_mcs", JNum (d_emit_mcs d));
    ("rx_ant_age_s", double 3 (since (at_rx t) (d_rx_ant_us d)));
    ("bitrate_lead_s", float 3 (fec_bitrate_lead_s (cfg_fec (d_cfg d))));
    ("mcs_up_grace_s", float 3 (fec_mcs_up_grace_s (cfg_fec (d_cfg d))));
    ("pending_drop", JObj [("active", JBool (pd_active (d_pending d)));
       ("target_mcs", JNum (pd_target_mcs (d_pending d))); ("ms_remaining", JNum ms)]);
    ("probe", probe_tree)].

Definition radio_tree : json :=
  let r := d_radio d in
  JObj [("valid", JBool (radio_valid r)); ("mcs", JNum (radio_mcs r)); ("bw", JNum (radio_bandwidth r));
    ("short_gi", JNum (radio_short_gi r)); ("stbc", JNum (radio_stbc r)); ("ldpc", JNum (radio_ldpc r));
    ("vht_mode", JNum (radio_vht_mode r)); ("vht_nss", JNum (radio_vht_nss r));
    ("phy_mbps", float 2 (radio_phy_mbps r))].

Definition score_tree : json :=
  let s := d_score d in
  JObj [("raw_rssi", float 2 (raw_rssi s)); ("smoothed_rssi", float 2 (smoothed_rssi s));
    ("smoothed_lost_ratio", float 4 (smoothed_lost_ratio s));
    ("smoothed_recov_ratio", float 4 (smoothed_recov_ratio s));
    ("smoothed_diversity_ratio", float 4 (smoothed_diversity_ratio s));
    ("adapter_count", JNum (adapter_count s)); ("rssi_slope_db_s", float 2 (rssi_slope_db_s s))].

Definition uplink_tree : json :=
  let u := d_up d in
  JObj [("present", JBool (up_present u)); ("age_s", double 2 (since (at_uplink t) (up_rx_us u)));
    ("raw_rssi", float 2 (raw_rssi (up_score u))); ("smoothed_rssi", float 2 (smoothed_rssi (up_score u)));
    ("pkt_total", JNum (up_pkt_total u)); ("lost_total", JNum (up_lost_total u));
    ("pkt_last", JNum (up_pkt u)); ("lost_last", JNum (up_lost u)); ("ants", antennas (up_score u))].

(** The clock of the ground station and the logger, when there is one. *)
Definition optional_trees : list (string * json) :=
  (if ls_valid (d_sync d) then
     [("logsync", JObj [("seq", JNum (ls_seq (d_sync d))); ("gs_unix_s", JNum (ls_gs_unix_s (d_sync d)));
        ("recv_uptime_s", double 3 (ls_recv_uptime_s (d_sync d))); ("count", JNum (ls_count (d_sync d)))])]
   else []) ++
  (if sl_enabled lg then
     [("logger", JObj [("active", JBool (sl_active lg)); ("sampling", JBool (sl_sampling lg));
        ("seq", JNum (sl_seq lg)); ("records", JNum (sl_records lg)); ("bytes", JNum (sl_bytes lg))])]
   else []).

Definition recovery_tree : json :=
  let r := d_rv d in
  JObj [("recv", JNum (rv_recv_total r)); ("rejected", JNum (rv_rejected r)); ("armed", JNum (rv_armed r));
    ("executed", JNum (rv_executed r)); ("last_rc", JNum (rv_last_exec_rc r))].

Definition status_tree (log_start_us : Z) : json :=
  JObj ([("uptime_s", double 3 (F64.div (F64.of_Z (u64 (at_start t - log_start_us))) (F64.of_Z 1000000)));
    ("dry_run", JBool (dry_run (d_cfg d)));
    ("fec", fec_tree); ("wfb", wfb_tree); ("payload", payload_tree); ("airtime", airtime_tree);
    ("transport", transport_tree); ("mcs", mcs_tree); ("radio", radio_tree); ("score", score_tree);
    ("ants", antennas (d_score d)); ("uplink_rx", uplink_tree)] ++
   optional_trees ++ [("recovery", recovery_tree)]).
End Tree.

(** A value the clock gives at or after [w]. *)
Definition read_after (w : World) (z : Z) : Prop :=
  exists w1 es, w_trace w1 = es ++ w_trace w /\ z = (now_us w1).1.

Definition readings_after (w : World) (t : Readings) : Prop :=
  Forall (read_after w) [at_start t; at_stats t; at_grace t; at_transport t; at_rx t; at_mcs t; at_uplink t].

(** *** The document is that tree *)

Lemma age_s_since last w : (age_s last w).1 = since (now_us w).1 last.
Proof. unfold age_s, since. by destruct (last =? 0). Qed.

Lemma age_s_extends last w : exists es, w_trace (age_s last w).2 = es ++ w_trace w.
Proof. unfold age_s. destruct (last =? 0); [by exists []|]. eexists [_]. reflexivity. Qed.

Lemma fec_is_tree d t w : at_stats t = (now_us w).1 ->
  at_grace t = (now_us (age_s (d_stats_us d) w).2).1 ->
  (fec_fields d w).1 = [("fec", fec_tree d t); ("wfb", wfb_tree d t); ("payload", payload_tree d);
    ("airtime", airtime_tree d)]%string.
Proof.
  intros H1 H2. unfold fec_fields, fec_tree, wfb_tree, payload_tree, airtime_tree.
  destruct (shown_payload d) as [sel clipped], (shown_airtime d) as [est cap]. unfold io_bind.
  pose proof (age_s_since (d_stats_us d) w) as Ha. rewrite H1.
  destruct (age_s (d_stats_us d) w) as [a w1]. cbn [fst snd] in *. subst a. rewrite H2, !Z.gtb_ltb.
  assert ((0 <? fec_payload_max (cfg_fec (d_cfg d))) && (1472 <? fec_payload_max (cfg_fec (d_cfg d))) =
    (1472 <? fec_payload_max (cfg_fec (d_cfg d)))) as -> by lia.
  by destruct (bitrate_grace_until_us (d_ctrl d) =? 0).
Qed.

Lemma fec_extends d w : exists es, w_trace (fec_fields d w).2 = es ++ w_trace w.
Proof.
  unfold fec_fields. destruct (shown_payload d), (shown_airtime d). unfold io_bind.
  destruct (age_s_extends (d_stats_us d) w) as [es E]. destruct (age_s _ w) as [a w1]. cbn [snd] in E.
  destruct (_ =? 0); cbn; [by exists es|]. rewrite E. by eexists (_ :: es).
Qed.

Lemma transport_is_tree d t w : at_transport t = (now_us w).1 ->
  (transport_fields d w).1 = [("transport", transport_tree d t)]%string.
Proof.
  intros H. unfold transport_fields, transport_tree, io_bind. rewrite H, <- age_s_since.
  by destruct (age_s _ w).
Qed.

Lemma transport_extends d w : exists es, w_trace (transport_fields d w).2 = es ++ w_trace w.
Proof.
  unfold transport_fields, io_bind. destruct (age_s_extends (tr_us (d_tr d)) w) as [es E].
  destruct (age_s _ w). by exists es.
Qed.

Lemma mcs_is_tree d ms t w : at_rx t = (now_us w).1 -> at_mcs t = (now_us (age_s (d_rx_ant_us d) w).2).1 ->
  (mcs_fields d ms w).1 = [("mcs", mcs_tree d ms t)]%string.
Proof.
  intros H1 H2. unfold mcs_fields, mcs_tree, io_bind. rewrite H1, <- age_s_since.
  destruct (age_s _ w) as [a w1]. cbn [fst snd] in *.
  change (now_us w1) with ((now_us w1).1, (now_us w1).2). rewrite <- H2. clear H1 H2.
  cbn [io_ret fst]. cbv zeta. unfold probe_tree, of_probed, probed, age_at, since, seconds.
  rewrite !Z.geb_leb. unfold obj.
  destruct ((0 <=? current_mcs (d_sel d) + 2) && (current_mcs (d_sel d) + 2 <? PROBE_MCS_MAX) && _);
    destruct (pressure_since_us (d_sel d) =? 0); reflexivity.
Qed.

Lemma mcs_extends d ms w : exists es, w_trace (mcs_fields d ms w).2 = es ++ w_trace w.
Proof.
  unfold mcs_fields, io_bind. destruct (age_s_extends (d_rx_ant_us d) w) as [es E].
  destruct (age_s _ w) as [a w1]. cbn [snd] in E. cbn. rewrite E. by eexists (_ :: es).
Qed.

Lemma status_is_tree d ms lg w : exists t, readings_after w t /\
  (status_doc log_start_us d ms lg w).1 = status_tree d ms lg t log_start_us.
Proof.
  unfold status_doc, log_rel_s, io_bind. set (w1 := (now_us w).2).
  change (now_us w) with ((now_us w).1, w1). cbn [io_ret].
  set (w2 := (fec_fields d w1).2). set (w3 := (transport_fields d w2).2).
  set (w4 := (mcs_fields d ms w3).2).
  set (t := Build_Readings (now_us w).1 (now_us w1).1 (now_us (age_s (d_stats_us d) w1).2).1
    (now_us w2).1 (now_us w3).1 (now_us (age_s (d_rx_ant_us d) w3).2).1 (now_us w4).1).
  exists t. split.
  - destruct (fec_extends d w1) as [e2 E2], (transport_extends d w2) as [e3 E3], (mcs_extends d ms w3) as [e4 E4].
    destruct (age_s_extends (d_stats_us d) w1) as [f1 F1], (age_s_extends (d_rx_ant_us d) w3) as [f3 F3].
    fold w2 in E2. fold w3 in E3. fold w4 in E4. unfold readings_after, t.
    cbn [at_start at_stats at_grace at_transport at_rx at_mcs at_uplink].
    assert (exists e, w_trace w1 = e ++ w_trace w) as [e1 E1] by (by eexists [_]).
    assert (forall v, (exists e, w_trace v = e ++ w_trace w) -> read_after w (now_us v).1) as Hr
      by (intros v [e He]; by exists v, e).
    repeat (apply Forall_cons_2;
      [apply Hr; rewrite ?E4, ?F3, ?E3, ?E2, ?F1, ?E1, ?app_assoc; try (by eexists); by exists []|]).
    apply Forall_nil_2.
  - pose proof (fec_is_tree d t w1 eq_refl eq_refl) as H2. pose proof (transport_is_tree d t w2 eq_refl) as H3.
    pose proof (mcs_is_tree d ms t w3 eq_refl eq_refl) as H4.
    pose proof (age_s_since (up_rx_us (d_up d)) w4) as H5. subst w4 w3 w2.
    destruct (fec_fields d w1) as [fec v2]. cbn [fst snd] in *.
    destruct (transport_fields d v2) as [tr v3]. cbn [fst snd] in *.
    destruct (mcs_fields d ms v3) as [mcs v4]. cbn [fst snd] in *.
    destruct (age_s _ v4) as [age v5]. cbn [fst snd] in *. subst age. unfold io_ret. cbn [fst].
    rewrite H2, H3, H4. unfold status_tree. cbn [app]. do 13 f_equal.
    unfold logsync_fields, logger_fields, optional_trees. by destruct (ls_valid _), (sl_enabled lg).
Qed.

(** (C37) /status answers: from any state the answer is the text of the whole tree of the
    daemon's variables, name by name, with times the clock gave while it was written; it is never
    cut off by the 16 KiB buffer, the tokenizer of the project reads it without an error, and
    every name leads to the value it was printed with.  The condition is that every whole number
    in it fits the [long] of the target; of the counters, which have up to 64 bits, one above
    2^31 - 1 breaks it where a [long] has 32 bits. *)
Theorem status_report d ms lg w : status_typed d -> exists t, readings_after w t /\
  let doc := status_tree d ms lg t log_start_us in
  json_fits doc = true ->
  (status_to_json log_start_us d ms lg 16384 w).1 = Some (print_json doc) /\
  exists toks, json_parse (print_json doc) 512 = Some toks /\ holds (print_json doc) toks 0 doc.
Proof.
  intros Ht. destruct (status_is_tree d ms lg w) as (t & Hr & E). exists t. split; [done|]. cbv zeta.
  rewrite <- E. destruct (status_good d ms lg w Ht) as (fs & Hd & Hg). intros Hf.
  destruct (good_answer (status_into log_start_us d ms lg) _ fs w
    (status_spec log_start_us d ms lg 16384) Hd Hg Hf) as [Ha Hp].
  split; [|exact Hp]. unfold status_to_json. by rewrite Ha.
Qed.

Lemma fec_status_good d w : exists fs,
  (fec_status_doc log_start_us d w).1 = JObj fs /\ goodm 16000 400 fs.
Proof.
  unfold fec_status_doc, io_bind, io_ret.
  pose proof (up_good w) as G1. destruct (log_rel_s _ w) as [up w1].
  pose proof (fec_good d w1) as G2. destruct (fec_fields d w1) as [fec w2].
  pose proof (transport_good d w2) as G3. destruct (transport_fields d w2) as [tr w3].
  cbn [fst] in *. eexists. split; [reflexivity|].
  eapply goodm_weaken; [| |repeat apply goodm_app; eauto using radio_good].
  - vm_compute. discriminate.
  - apply Nat.leb_le. vm_compute. reflexivity.
Qed.

Lemma mcs_status_good d ms w : (length (ant_avg (d_score d)) <= 8)%nat -> exists fs,
  (mcs_status_doc log_start_us d ms w).1 = JObj fs /\ goodm 16000 400 fs.
Proof.
  intros H1. unfold mcs_status_doc, io_bind, io_ret.
  pose proof (up_good w) as G1. destruct (log_rel_s _ w) as [up w1].
  pose proof (mcs_good d ms w1) as G2. destruct (mcs_fields d ms w1) as [mcs w2].
  cbn [fst] in *. eexists. split; [reflexivity|].
  eapply goodm_weaken; [| |repeat apply goodm_app; eauto using radio_good, score_good].
  - vm_compute. discriminate.
  - apply Nat.leb_le. vm_compute. reflexivity.
Qed.

Lemma cmd_status_good d w : exists fs,
  (cmd_status_doc log_start_us d w).1 = JObj fs /\ goodm 16000 400 fs.
Proof.
  unfold cmd_status_doc, io_bind, io_ret. destruct (now_us w) as [now w1].
  pose proof (up_good w1) as G1. destruct (log_rel_s _ w1) as [up w2]. cbn [fst] in *. cbv zeta.
  eexists. split; [reflexivity|].
  change (("uptime_s"%string, num 3 up) :: ?l) with ([("uptime_s"%string, num 3 up)] ++ l).
  eapply goodm_weaken; [| |apply goodm_app; [exact G1|unfold obj; doc_good]].
  - vm_compute. discriminate.
  - apply Nat.leb_le. vm_compute. reflexivity.
Qed.

(** The other status documents answer likewise: those of the FEC and MCS parts and of the
    command proxy. *)
Theorem part_reports d ms w : status_typed d ->
  reported (fec_status_to_json log_start_us d 16384) (fec_status_doc log_start_us d) w /\
  reported (mcs_status_to_json log_start_us d ms 16384) (mcs_status_doc log_start_us d ms) w /\
  reported (cmd_status_to_json log_start_us d 16384) (cmd_status_doc log_start_us d) w.
Proof.
  intros (H1 & _ & _). split_and!.
  - destruct (fec_status_good d w) as (fs & Hd & Hg).
    exact (good_answer (fec_status_into log_start_us d) _ fs w
      (fec_status_spec log_start_us d 16384) Hd Hg).
  - destruct (mcs_status_good d ms w H1) as (fs & Hd & Hg).
    exact (good_answer (mcs_status_into log_start_us d ms) _ fs w
      (mcs_status_spec log_start_us d ms 16384) Hd Hg).
  - destruct (cmd_status_good d w) as (fs & Hd & Hg).
    refine (good_answer (fun cap b => let! doc := cmd_status_doc log_start_us d in
      io_ret (room cap b (print_json doc))) _ fs w _ Hd Hg).
    apply appends_read. intros doc. apply appends_room.
Qed.
End Bounds.

(** ** The theorems at the start state *)

Definition sample_daemon : Daemon :=
  daemon_init config_defaults (Build_CsaCfg "" [] [] 0 false) 1.

Lemma sample_typed : status_typed sample_daemon.
Proof. vm_compute. repeat split; lia. Qed.

Lemma status_report_witness : exists t : Readings,
  let doc := @status_tree abi_lp64 sample_daemon 0 sd_logger_init t 0 in
  @json_fits abi_lp64 doc = true /\
  (@status_to_json abi_lp64 peer_ok 0 sample_daemon 0 sd_logger_init 16384 world_init).1 =
    Some (print_json doc).
Proof.
  destruct (@status_report abi_lp64 peer_ok 0 sample_daemon 0 sd_logger_init world_init
    sample_typed) as (t & _ & H).
  assert (@json_fits abi_lp64 (@status_tree abi_lp64 sample_daemon 0 sd_logger_init t 0) = true) as Hf
    by (clear H; vm_compute; reflexivity).
  exists t. split; [exact Hf|]. exact (proj1 (H Hf)).
Defined.

Lemma part_reports_witness :
  is_Some (@fec_status_to_json abi_lp64 peer_ok 0 sample_daemon 16384 world_init).1 /\
  is_Some (@mcs_status_to_json peer_ok 0 sample_daemon 0 16384 world_init).1 /\
  is_Some (@cmd_status_to_json peer_ok 0 sample_daemon 16384 world_init).1.
Proof.
  destruct (@part_reports abi_lp64 peer_ok 0 sample_daemon 0 world_init sample_typed)
    as (H1 & H2 & H3).
  destruct H1 as [-> _]; [vm_compute; reflexivity|].
  destruct H2 as [-> _]; [vm_compute; reflexivity|].
  destruct H3 as [-> _]; [vm_compute; reflexivity|]. by split_and!; eexists.
Defined.
