(* ===== verification/Api.v ===== *)
(** * The HTTP API

    What reaches the daemon through [api_handle_request] of [vehicle/link_controller.c]:
    the reading of a request from its TCP connection, its route, the [/set] route that
    rewrites the configuration and the [/cmd] route that runs a command as if it had come
    from the loopback address.  The replies, and the routes that only report, are in
    [LcHttp]. *)

From S2P Require Import Prelude CFloat Config CString Io Net Wcmd Tunables Daemon.

(** ** Reading a request *)

Definition API_BUF_BYTES : Z := 2048.
Definition API_MAX_CLIENTS : nat := 8.

(** What one wakeup makes of a connection. *)
Inductive Drained :=
  | AcWait (buf : list Z)          (** nothing more to read yet *)
  | AcTooLarge                     (** answered 400 and closed *)
  | AcClosed                       (** closed by the peer *)
  | AcRequest (buf : list Z).      (** complete; goes to [api_handle_request] *)

(** The C string a buffer holds. *)
Fixpoint cstr (bs : list Z) : string :=
  match bs with
  | [] => EmptyString
  | b :: bs => if b =? 0 then EmptyString else String (ch b) (cstr bs)
  end.

Definition request_complete (text : string) : bool :=
  contains text (CRLF ++ CRLF) || contains text (String LF (str1 LF)).

(** [recvs] is what the successive calls of [recv] return: an empty read is the end of the
    stream, the end of the list a call that would block; the kernel hands over no more
    than was asked for. *)
Fixpoint api_client_drain (buf : list Z) (recvs : list (list Z)) : Drained :=
  let pos := Z.of_nat (length buf) in
  if pos >=? API_BUF_BYTES - 1 then AcTooLarge
  else match recvs with
  | [] => AcWait buf
  | [] :: _ => AcClosed
  | bs :: recvs =>
      let buf := (buf ++ take (Z.to_nat (API_BUF_BYTES - 1 - pos)) bs)%list in
      if request_complete (cstr buf) then AcRequest buf else api_client_drain buf recvs
  end.

(** The buffer never overflows, and only a complete request is handed over. *)
Lemma api_client_drain_bounded buf recvs :
  Z.of_nat (length buf) <= API_BUF_BYTES - 1 ->
  match api_client_drain buf recvs with
  | AcWait b => Z.of_nat (length b) < API_BUF_BYTES - 1
  | AcRequest b => Z.of_nat (length b) <= API_BUF_BYTES - 1 /\ request_complete (cstr b) = true
  | _ => True
  end.
Proof.
  revert buf. induction recvs as [|bs recvs IH]; intros buf H; cbn [api_client_drain];
    destruct (Z.geb_spec (Z.of_nat (length buf)) (API_BUF_BYTES - 1)) as [Hl|Hl]; try done.
  destruct bs as [|x bs]; [done|]. set (buf1 := (buf ++ _)%list).
  assert (Z.of_nat (length buf1) <= API_BUF_BYTES - 1) as H1
    by (subst buf1; rewrite length_app, length_take; lia).
  destruct (request_complete (cstr buf1)) eqn:E; [done|by apply IH].
Qed.

(** ** The request line *)

Definition QUESTION : ascii := ch 63.

(** The path and the query; [None] is answered 400. *)
Definition request_target (req : string) : option (string * option string) :=
  if negb (starts_with "GET " req) then None
  else
    let '(target, rest) := span_until (fun a => aeq a SP) (drop_chars 4 req) in
    match rest with
    | EmptyString => None
    | _ =>
        let '(path, q) := span_until (fun a => aeq a QUESTION) target in
        Some (path, match q with EmptyString => None | String _ qs => Some qs end)
    end.

(** ** Routes that act *)

Section Api.
Context {ABI : CAbi} {EV : Env} (log_start_us : Z).

(** [/set?key=value&...]. *)
Definition api_set (d : Daemon) (qs : option string) : Daemon :=
  d <| d_cfg := sr_cfg (apply_query (d_cfg d) (default "" qs)) |>.

(** The command in [/cmd?key=...&value=...]. *)
Definition cmd_params (qs : option string) : option (Z * Z) :=
  q ← qs;
  key ← qparam_long q "key";
  if (key <? 1) || (key >? WCMD_NUM_KEYS) then None
  else Some (key, default 0 (qparam_long q "value")).

(** The local command gets a sequence number of its own. *)
Definition api_cmd (d : Daemon) (qs : option string) : IO Daemon :=
  match cmd_params qs with
  | None => io_ret d
  | Some (key, value) =>
      let seq := u16 (d_local_seq d + 1) in
      let req := Build_WcmdReq WCMD_MAGIC WCMD_VERSION WCMD_MSG_REQ seq (u8 key) 0 0 (i32 value) in
      let! now := now_us in
      let! (_, _, px) := wcmd_dispatch log_start_us
                           (Build_Proxy (d_cfg d) (d_wcmd d) (d_sync d))
                           req INADDR_LOOPBACK now in
      io_ret (d <| d_local_seq := seq |> <| d_cfg := px_cfg px |> <| d_wcmd := px_st px |>
                <| d_sync := px_sync px |>)
  end.

Definition api_handle_request (d : Daemon) (req : string) : IO Daemon :=
  match request_target req with
  | None => io_ret d
  | Some (path, qs) =>
      if String.eqb path "/set" then io_ret (api_set d qs)
      else if String.eqb path "/cmd" then api_cmd d qs
      else if String.eqb path "/log/start" then
        let! _ := io_log (EvLogger true) in io_ret d
      else if String.eqb path "/log/stop" then
        let! _ := io_log (EvLogger false) in io_ret d
      else io_ret d
  end.

(** The requests completed in this wakeup, one per client slot at most. *)
Fixpoint api_service (n : nat) (d : Daemon) (reqs : list string) : IO (list string * Daemon) :=
  match n, reqs with
  | S n, req :: reqs => let! d := api_handle_request d req in api_service n d reqs
  | _, _ => io_ret (reqs, d)
  end.
End Api.
