(* ===== verification/LcHttp.v ===== *)
(** * The vehicle's HTTP answers

    What [vehicle/link_controller.c] sends to an HTTP client: [write_all], [api_send], the
    answers of every route of [api_handle_request] with the state they leave behind, and the
    reply of [/set].  [Api] has the reading of a request and the routes that act; here they are
    put together with the documents of [LcDocs] and [LcStatus] and the logger of [SdLog].

    The build without the radio link's own programs is modelled, where [/keys] is answered 501;
    [webui_html] is a parameter. *)

From S2P Require Import Prelude CFloat CString Strtod Decimal NumText Config Io Net Tunables.
From S2P Require Import Fec Bitrate Scorer Selector Commit Wcmd Recovery Csa SdLog Daemon Api.
From S2P Require Import WfbJson JsonForest JsonText LcDocs LcStatus.

Local Open Scope list_scope.
#[local] Arguments String.append !_ _ /.

(** ** Writing to a socket *)

(** What [write] answers: a number of bytes, an interruption, another error. *)
Inductive Write := WrBytes (n : Z) | WrIntr | WrErr.

(** [write_all]: what reached the peer, and the return value; [ws] are the answers of the
    successive calls, of which each takes at most what it was offered.  [None]: more calls are
    needed than there are answers. *)
Fixpoint write_all (ws : list Write) (p : string) : option (string * Z) :=
  match p with
  | EmptyString => Some (EmptyString, 0)
  | _ =>
      match ws with
      | [] => None
      | WrIntr :: ws => write_all ws p
      | WrErr :: _ => Some (EmptyString, -1)
      | WrBytes n :: ws =>
          if n <=? 0 then Some (EmptyString, -1)
          else
            let k := Z.to_nat (Z.min n (strlen p)) in
            '(sent, rc) ← write_all ws (drop_chars k p);
            Some ((take_chars k p ++ sent)%string, rc)
      end
  end.

(** An answer as [api_send] gets it: [an_len] is the length its caller states. *)
Record Answer := Build_Answer { an_status : Z; an_type : string; an_body : string; an_len : Z }.

Definition reason (status : Z) : string :=
  if status =? 200 then "OK" else if status =? 400 then "Bad Request"
  else if status =? 404 then "Not Found" else if status =? 500 then "Internal Server Error"
  else if status =? 503 then "Service Unavailable" else "Error".

Definition header (status : Z) (reason type : string) (len : Z) : string :=
  "HTTP/1.0 " ++ pretty status ++ " " ++ reason ++ CRLF ++
  "Content-Type: " ++ type ++ CRLF ++ "Content-Length: " ++ pretty len ++ CRLF ++
  "Cache-Control: no-store" ++ CRLF ++ "Connection: close" ++ CRLF ++ CRLF.

(** [char hdr[256]]: [hlen] would count what did not fit. *)
Definition HDR_BYTES : Z := 256.

(** [api_send]: the body is only written behind a whole header; [ws] and [ws'] are the answers
    to the two rounds of writes.  The result is what reached the peer. *)
Definition api_send (ws ws' : list Write) (a : Answer) : option string :=
  '(sent, rc) ← write_all ws (header (an_status a) (reason (an_status a)) (an_type a) (an_len a));
  if (rc =? 0) && (0 <? an_len a) then
    '(sent', _) ← write_all ws' (take_chars (Z.to_nat (an_len a)) (an_body a));
    Some (sent ++ sent')%string
  else Some sent.

(** [api_send_blob] is the same with the reason fixed. *)
Definition api_send_blob (ws ws' : list Write) (type body : string) : option string :=
  '(sent, rc) ← write_all ws (header 200 "OK" type (strlen body));
  if rc =? 0 then
    '(sent', _) ← write_all ws' body; Some (sent ++ sent')%string
  else Some sent.

(** Interruptions apart every call gets somewhere: as many answers as there are bytes are
    enough, and a return of 0 means the peer has got everything, in order. *)
Lemma write_all_sent ws : forall p sent rc, write_all ws p = Some (sent, rc) ->
  (rc = 0 /\ sent = p) \/ (rc = -1 /\ exists rest, p = (sent ++ rest)%string).
Proof.
  assert (forall k s, s = (take_chars k s ++ drop_chars k s)%string) as Hsplit.
  { clear. induction k as [|k IH]; intros [|a s]; try done. cbn. by rewrite <- IH. }
  induction ws as [|x ws IH]; intros [|c p] sent rc H; cbn [write_all] in H.
  { injection H as <- <-. by left. }
  { discriminate H. }
  { injection H as <- <-. by left. }
  revert H.
  assert (forall sent rc, Some (EmptyString, -1) = Some (sent, rc) ->
    rc = -1 /\ exists rest, String c p = (sent ++ rest)%string) as Herr.
  { intros sent0 rc0 [= <- <-]. split; [done|]. by exists (String c p). }
  destruct x as [n| |]; [|apply IH|intros H; right; by apply Herr].
  destruct (n <=? 0); [intros H; right; by apply Herr|]. clear Herr.
  set (k := Z.to_nat _). destruct (write_all ws _) as [[s r]|] eqn:E; [|done].
  cbn [mbind option_bind]. intros [= <- <-]. destruct (IH _ _ _ E) as [[-> ->]|[-> [rest Hr]]].
  - left. split; [done|]. by rewrite <- Hsplit.
  - right. split; [done|]. exists rest. rewrite sapp_assoc, <- Hr. apply Hsplit.
Qed.

(** The answers that are not interruptions. *)
Definition answered (ws : list Write) : list Write :=
  List.filter (fun x => match x with WrIntr => false | _ => true end) ws.

Lemma write_all_returns ws : forall p, (String.length p <= length (answered ws))%nat ->
  is_Some (write_all ws p).
Proof.
  induction ws as [|x ws IH]; intros p Hp; (destruct p as [|c p]; [by eexists|]);
    cbn [write_all answered List.filter length String.length] in *; [lia|].
  destruct x as [n| |]; [|by apply IH|by eexists].
  destruct (Z.leb_spec n 0) as [Hn|Hn]; [by eexists|].
  destruct (IH (drop_chars (Z.to_nat (Z.min n (strlen (String c p)))) (String c p))) as [[s r] E].
  { rewrite drop_chars_length. fold (answered ws). pose proof (strlen_length (String c p)).
    cbn [length String.length] in *. fold (answered ws) in *. lia. }
  rewrite E. by eexists.
Qed.

(** ** The answers of single routes *)

Definition plain_answer (status : Z) (body : string) (len : Z) : Answer :=
  Build_Answer status "text/plain" (body ++ str1 LF)%string len.

(** [n = ..._to_json(body); if (n > 0) api_send(200) else api_send(500)]. *)
Definition json_answer (n : option string) : Answer :=
  match n with
  | Some text => Build_Answer 200 "application/json" text (strlen text)
  | None => plain_answer 500 "json overflow" 14
  end.

Definition help_answer : Answer :=
  match help_to_text 16384 with
  | Some text => Build_Answer 200 "text/plain" text (strlen text)
  | None => plain_answer 500 "help overflow" 14
  end.

Definition reason_text (r : Reason) : string :=
  match r with Unknown => "unknown" | NoValue => "no_value" | OutOfRange => "out_of_range" end.

(** *** [/set] *)

(** One object of [errors]; the name is escaped as far as the buffer goes. *)
Definition append_error (cap : Z) (buf : string) (first : bool) (e : string * Reason)
    : option string :=
  b ← room cap buf (sep first ++ sBO ++ quoted "key" ++ str1 COLON ++ str1 DQ);
  esc ← json_escape (Z.to_nat cap) (String.length b) e.1;
  room cap (b ++ esc)%string
    (str1 DQ ++ str1 COMMA ++ quoted "reason" ++ str1 COLON ++ quoted (reason_text e.2) ++ sBC).

Fixpoint errors_loop (cap : Z) (buf : string) (first : bool) (es : list (string * Reason))
    : option string :=
  match es with
  | [] => Some buf
  | e :: es => b ← append_error cap buf first e; errors_loop cap b false es
  end.

(** The body of the answer to [/set]; [params_to_json] gets the rest of the buffer. *)
Definition set_to_json (cap : Z) (r : SetResult) : option string :=
  b ← room cap "" (sBO ++ quoted "applied" ++ str1 COLON ++ sKO);
  b ← items cap b true (map quoted (sr_applied r));
  b ← room cap b (sKC ++ str1 COMMA ++ quoted "errors" ++ str1 COLON ++ sKO);
  b ← errors_loop cap b true (sr_errors r);
  b ← room cap b (sKC ++ str1 COMMA ++ quoted "params" ++ str1 COLON);
  pj ← params_to_json (sr_cfg r) (cap - strlen b);
  room cap (b ++ pj)%string sBC.

(** A name as it stands in JSON. *)
Fixpoint escaped (s : string) : string :=
  match s with EmptyString => EmptyString | String a s => (escape_char a ++ escaped s)%string end.

Definition error_doc (e : string * Reason) : json :=
  JObj [("key", JString (escaped e.1)); ("reason", JString (reason_text e.2))].

Definition set_doc (r : SetResult) : json :=
  JObj [("applied", JArr (map JString (sr_applied r))); ("errors", JArr (map error_doc (sr_errors r)));
        ("params", params_doc (sr_cfg r))].

(** *** The answer to [/set] is its document *)

Lemma escape_from_spec cap s : forall pos,
  match escape_from cap pos s with
  | Some e => e = escaped s
  | None => (cap < pos + String.length (escaped s) + 8)%nat
  end.
Proof.
  induction s as [|a s IH]; intros pos; cbn [escape_from escaped]; [done|].
  pose proof (escape_char_length a) as Ha. rewrite length_append.
  destruct (Nat.leb_spec (cap - 8) pos) as [H|H]; [lia|].
  specialize (IH (pos + String.length (escape_char a))%nat).
  destruct (escape_from cap _ s) as [e|]; cbn [mbind option_bind]; [by rewrite IH|lia].
Qed.

Lemma append_error_room cap buf first e : 8 <= cap ->
  append_error cap buf first e = room cap buf (sep first ++ print_json (error_doc e)).
Proof.
  intros Hc. unfold append_error. rewrite !room_fits.
  set (pre := (sep first ++ sBO ++ _)%string). set (post := (str1 DQ ++ str1 COMMA ++ _)%string).
  assert (sep first ++ print_json (error_doc e) = pre ++ escaped e.1 ++ post)%string as ->.
  { subst pre post. unfold error_doc. cbn [print_json map commas fst snd].
    unfold quoted. by rewrite !sapp_assoc. }
  assert (8 <= strlen post) as Hp.
  { subst post. rewrite !strlen_app. pose proof (strlen_nonneg (quoted (reason_text e.2))).
    change (strlen (quoted "reason")) with 8. change (strlen (str1 DQ)) with 1. pose proof (strlen_nonneg (str1 COMMA)).
    pose proof (strlen_nonneg (str1 COLON)). pose proof (strlen_nonneg sBC). lia. }
  apply fits_bind; intros H.
  - unfold json_escape. destruct (Nat.ltb_spec (Z.to_nat cap) 8); [lia|].
    pose proof (escape_from_spec (Z.to_nat cap) e.1 (String.length (buf ++ pre)%string)) as He.
    destruct (escape_from _ _ _) as [x|]; cbn [mbind option_bind].
    + subst x. by rewrite room_fits, !sapp_assoc.
    + unfold fits. rewrite !strlen_app. rewrite !strlen_app in H.
      rewrite length_append in He. pose proof (strlen_length buf). pose proof (strlen_length pre).
      pose proof (strlen_length (escaped e.1)).
      destruct (Z.ltb_spec (strlen buf + (strlen pre + (strlen (escaped e.1) + strlen post))) cap);
        [lia|done].
  - rewrite <- sapp_assoc. by apply fits_long.
Qed.

Lemma errors_loop_items cap es : 8 <= cap -> forall buf first,
  errors_loop cap buf first es = items cap buf first (map print_json (map error_doc es)).
Proof.
  intros Hc. induction es as [|e es IH]; intros buf first; [done|].
  cbn [errors_loop items map]. rewrite append_error_room by done.
  destruct (room _ _ _); [apply IH|done].
Qed.

(** A list behind what fits, and what closes it. *)
Lemma items_then {A} cap b l close (k : string -> option A) (g : option A) : strlen b < cap ->
  (strlen (b ++ commas l ++ close)%string < cap -> k (b ++ commas l ++ close)%string = g) ->
  (cap <= strlen (b ++ commas l ++ close)%string -> g = None) ->
  (b ← items cap b true l; b ← room cap b close; k b) = g.
Proof.
  intros Hb H1 H2.
  assert ((b ← items cap b true l; b ← room cap b close; k b) =
          (b ← (b ← items cap b true l; room cap b close); k b)) as ->
    by (destruct (items _ _ _ _); done).
  rewrite items_closed by (by left). by apply fits_bind.
Qed.

Lemma set_refines cap r : 8 <= cap -> set_to_json cap r = fits cap (print_json (set_doc r)).
Proof.
  intros Hc. unfold set_to_json. rewrite room_fits.
  set (A := (sBO ++ quoted "applied" ++ _)%string).
  set (B := (sKC ++ str1 COMMA ++ quoted "errors" ++ _)%string).
  set (C := (sKC ++ str1 COMMA ++ quoted "params" ++ _)%string).
  set (la := map quoted (sr_applied r)).
  set (P := print_json (params_doc (sr_cfg r))).
  set (le := map print_json (map error_doc (sr_errors r))).
  assert (print_json (set_doc r) = A ++ commas la ++ B ++ commas le ++ C ++ P ++ sBC)%string as ->.
  { unfold set_doc. cbn [print_json map commas fst snd]. subst A B C la le P.
    rewrite map_map. cbn [print_json]. by rewrite !sapp_assoc. }
  cbn [String.append].
  apply fits_bind; intros HA; [|by apply fits_long].
  apply items_then; [done| |intros H].
  2: { rewrite <- !sapp_assoc in *. rewrite !sapp_assoc in *. rewrite <- (sapp_assoc A).
       rewrite <- (sapp_assoc (A ++ commas la)%string). apply fits_long. by rewrite sapp_assoc. }
  intros HB. rewrite errors_loop_items by done. set (b1 := (A ++ commas la ++ B)%string) in *.
  replace (A ++ commas la ++ B ++ commas le ++ C ++ P ++ sBC)%string
    with (b1 ++ commas le ++ C ++ P ++ sBC)%string by (subst b1; by rewrite !sapp_assoc).
  apply items_then; [done| |intros H].
  2: { fold le in H. replace (b1 ++ commas le ++ C ++ P ++ sBC)%string
         with ((b1 ++ commas le ++ C) ++ P ++ sBC)%string by (by rewrite !sapp_assoc).
       by apply fits_long. }
  fold le. intros HC. set (b2 := (b1 ++ commas le ++ C)%string) in *.
  replace (b1 ++ commas le ++ C ++ P ++ sBC)%string with (b2 ++ P ++ sBC)%string
    by (subst b2; by rewrite !sapp_assoc).
  rewrite params_refines. fold P. apply fits_bind; intros HP.
  - by rewrite room_fits, sapp_assoc.
  - rewrite <- sapp_assoc. apply fits_long. rewrite strlen_app. lia.
Qed.

(** ** The routes *)

(** What the handler does with its connection: an answer, the web page, or the connection
    kept as a subscriber of the log. *)
Inductive Outcome :=
  | OutAnswer (a : Answer)
  | OutBlob (type body : string)
  | OutSubscribe.

(** The variables a request can reach. *)
Record Server := Build_Server { sv_d : Daemon; sv_lg : SdLogger; sv_disk : Disk }.
#[export] Instance eta_Server : Eta Server := fun s => Build_Server (sv_d s) (sv_lg s) (sv_disk s).

Definition API_MAX_SSE : nat := 4.

Section Routes.
Context {ABI : CAbi} {EV : Env} {SD : SdEnv} (log_start_us : Z).
(** The embedded page; the local time and the process id that name a log session. *)
Context (webui_html stamp : string) (pid : Z).

(** [/cmd] with the reply it shows; [None]: no key, or not one of the 20. *)
Definition api_cmd_reply (d : Daemon) (qs : option string) : IO (option (Z * WcmdResp) * Daemon) :=
  match cmd_params qs with
  | None => io_ret (None, d)
  | Some (key, value) =>
      let seq := u16 (d_local_seq d + 1) in
      let req := Build_WcmdReq WCMD_MAGIC WCMD_VERSION WCMD_MSG_REQ seq (u8 key) 0 0 (i32 value) in
      let! now := now_us in
      let! (_, resp, px) := wcmd_dispatch log_start_us
                              (Build_Proxy (d_cfg d) (d_wcmd d) (d_sync d))
                              req INADDR_LOOPBACK now in
      io_ret (Some (value, resp),
              d <| d_local_seq := seq |> <| d_cfg := px_cfg px |> <| d_wcmd := px_st px |>
                <| d_sync := px_sync px |>)
  end.

(** The reply's fields have the widths of [WcmdResp]. *)
Definition cmd_doc (value : Z) (resp : WcmdResp) : json :=
  JObj [("key", JNum (u8 (rs_key resp))); ("value", JNum value);
        ("status", JNum (status_code (rs_status resp)));
        ("http_status", JNum (u16 (rs_http_status resp)));
        ("applied_value", JNum (i32 (rs_applied_value resp)))].

(** The logger's status; the clock is read when a session is open. *)
Definition logger_answer (status : Z) (lg : SdLogger) : IO Answer :=
  let! now := (if sl_active lg then now_us else io_ret 0) in
  let text := logger_status_to_json now lg in
  io_ret (if strlen text <? 16384 then Build_Answer status "application/json" text (strlen text)
          else plain_answer 500 "json overflow" 14).

(** [ms] is the snapshot's remaining time of a deferred drop, [subs] the number of
    subscribers. *)
Definition api_respond (ms : Z) (subs : nat) (sv : Server) (req : string) : IO (Outcome * Server) :=
  let d := sv_d sv in
  let ret a := io_ret (OutAnswer a, sv) in
  if negb (starts_with "GET " req) then ret (plain_answer 400 "expected GET" 13)
  else match request_target req with
  | None => ret (plain_answer 400 "malformed request line" 23)
  | Some (path, qs) =>
      if String.eqb path "/" then
        if request_wants_html req then io_ret (OutBlob "text/html; charset=utf-8" webui_html, sv)
        else ret help_answer
      else if String.eqb path "/help" then ret help_answer
      else if String.eqb path "/params" then ret (json_answer (params_to_json (d_cfg d) 16384))
      else if String.eqb path "/schema" then
        ret (json_answer (schema_to_json 16384
               match qs with Some q => contains q "all=1" | None => false end))
      else if String.eqb path "/set" then
        let r := apply_query (d_cfg d) (default "" qs) in
        io_ret (OutAnswer (json_answer (set_to_json 16384 r)), sv <| sv_d := api_set d qs |>)
      else if String.eqb path "/cmd" then
        let! (r, d) := api_cmd_reply d qs in
        io_ret (OutAnswer match r with
                          | None => plain_answer 400 "bad or missing key" 19
                          | Some (value, resp) => json_answer (Some (print_json (cmd_doc value resp)))
                          end, sv <| sv_d := d |>)
      else if String.eqb path "/status" then
        let! n := status_to_json log_start_us d ms (sv_lg sv) 16384 in ret (json_answer n)
      else if String.eqb path "/fec/status" then
        let! n := fec_status_to_json log_start_us d 16384 in ret (json_answer n)
      else if String.eqb path "/mcs/status" then
        let! n := mcs_status_to_json log_start_us d ms 16384 in ret (json_answer n)
      else if String.eqb path "/cmd/status" then
        let! n := cmd_status_to_json log_start_us d 16384 in ret (json_answer n)
      else if String.eqb path "/log/status" then
        let! a := logger_answer 200 (sv_lg sv) in ret a
      else if String.eqb path "/log/start" then
        let! now := now_us in
        let '(rc, lg, disk) := logger_open_session stamp pid now (sv_lg sv) (sv_disk sv) in
        let! a := logger_answer (if rc =? 0 then 200 else 503) lg in
        io_ret (OutAnswer a, sv <| sv_lg := lg |> <| sv_disk := disk |>)
      else if String.eqb path "/log/stop" then
        let lg := logger_stop (sv_lg sv) in
        let! a := logger_answer 200 lg in
        io_ret (OutAnswer a, sv <| sv_lg := lg |>)
      else if String.eqb path "/health" then ret (plain_answer 200 "ok" 3)
      else if String.eqb path "/events" then
        if (API_MAX_SSE <=? subs)%nat then ret (plain_answer 503 "sse: too many subscribers" 26)
        else io_ret (OutSubscribe, sv)
      else if String.eqb path "/keys" then
        let text := with_quotes
          "{'ok':false,'error':'key management requires the mega binary'}" in
        ret (Build_Answer 501 "application/json" text (strlen text))
      else ret (plain_answer 404 "no such route" 14)
  end.

(** The route [Api] gives to the daemon's safety theorems is this one without its reply. *)
Lemma api_cmd_same d qs w :
  api_cmd log_start_us d qs w = let '(r, w') := api_cmd_reply d qs w in (r.2, w').
Proof.
  unfold api_cmd, api_cmd_reply. destruct (cmd_params qs) as [[key value]|]; [|done].
  unfold io_bind, io_ret. destruct (now_us w) as [now w1].
  by destruct (wcmd_dispatch _ _ _ _ _ w1) as [[[rc resp] px] w2].
Qed.
End Routes.

(** ** Every request is answered *)

(** A response whose parts are consistent: the stated length is that of the body, and status
    line and headers fit their buffer. *)
Definition answer_ok (a : Answer) : Prop :=
  an_len a = strlen (an_body a) /\ 0 < an_len a /\
  In (an_status a) [200; 400; 404; 500; 501; 503] /\
  strlen (header (an_status a) (reason (an_status a)) (an_type a) (an_len a)) < HDR_BYTES.

Lemma header_length st type len :
  In st [200; 400; 404; 500; 501; 503] -> strlen type <= 40 -> 0 <= len < 10 ^ 10 ->
  strlen (header st (reason st) type len) < HDR_BYTES.
Proof.
  intros Hs Ht Hl. pose proof (pretty_length_nonneg len 10 ltac:(lia) Hl).
  assert (strlen (pretty st) + strlen (reason st) <= 30).
  { repeat destruct Hs as [<-|Hs]; [vm_compute; discriminate..|done]. }
  unfold header. rewrite !strlen_app.
  change (strlen CRLF) with 2.
  repeat match goal with |- context [strlen (String ?c ?s)] =>
    let n := eval vm_compute in (strlen (String c s)) in change (strlen (String c s)) with n end.
  unfold HDR_BYTES. lia.
Qed.

Lemma answer_ok_intro st type body len :
  In st [200; 400; 404; 500; 501; 503] -> strlen type <= 40 -> len = strlen body ->
  0 < strlen body < 10 ^ 10 -> answer_ok (Build_Answer st type body len).
Proof.
  intros Hs Ht -> Hl. unfold answer_ok. cbn [an_status an_type an_body an_len].
  split; [done|]. split; [lia|]. split; [done|]. apply header_length; [done|done|lia].
Qed.

(** What a buffer of 16 KiB holds. *)
Definition small (n : option string) : Prop :=
  match n with Some text => 0 < strlen text < 16384 | None => True end.

Lemma plain_answer_ok st body len :
  In st [200; 400; 404; 500; 501; 503] -> len = strlen body + 1 -> strlen body < 100 ->
  answer_ok (plain_answer st body len).
Proof.
  intros Hs -> Hl. unfold plain_answer. pose proof (strlen_nonneg body).
  assert (strlen (body ++ str1 LF)%string = strlen body + 1) as E by (rewrite strlen_app; done).
  apply answer_ok_intro; rewrite ?E; [done|by vm_compute|done|lia].
Qed.

Lemma json_text_ok st text : In st [200; 400; 404; 500; 501; 503] -> 0 < strlen text < 16384 ->
  answer_ok (Build_Answer st "application/json" text (strlen text)).
Proof. intros Hs Hl. apply answer_ok_intro; [done|by vm_compute|done|lia]. Qed.

Ltac status_known := cbn [In]; auto 10.

Lemma json_answer_ok n : small n -> answer_ok (json_answer n).
Proof.
  intros Hn. destruct n as [text|]; cbn [small] in Hn; unfold json_answer.
  - apply json_text_ok; [status_known|done].
  - apply plain_answer_ok; [status_known|done|done].
Qed.

Lemma container_nonempty v : match v with JObj _ | JArr _ => 0 < strlen (print_json v) | _ => True end.
Proof.
  destruct v; try done; cbn [print_json]; rewrite strlen_app;
    [change (strlen sBO) with 1|change (strlen sKO) with 1];
    match goal with |- context [1 + strlen ?t] => pose proof (strlen_nonneg t) end; lia.
Qed.

Lemma fits_small v : match v with JObj _ | JArr _ => small (fits 16384 (print_json v)) | _ => True end.
Proof.
  pose proof (container_nonempty v) as H. destruct v; try done; unfold fits;
    (destruct (_ <? 16384) eqn:E; [apply Z.ltb_lt in E; by split|done]).
Qed.

Lemma appends_small m (doc : IO json) w :
  (forall w, exists v, (doc w).1 = JObj v) ->
  appends 16384 m (let! v := doc in io_ret (print_json v)) -> small (m EmptyString w).1.
Proof.
  intros Hd Hm. specialize (Hm EmptyString w eq_refl). destruct (Hd w) as [v Hv].
  unfold io_bind, io_ret in Hm. destruct (doc w) as [x w']. cbn [fst] in Hv. subst x.
  cbn [String.append] in Hm. pose proof (fits_small (JObj v)) as Hs. cbn beta iota in Hs. unfold fits in Hs.
  destruct (_ <? 16384); [|by rewrite Hm]. rewrite Hm. exact Hs.
Qed.

(** The texts made from the registry alone fit, by computation. *)
Lemma help_small : small (help_to_text 16384).
Proof. vm_compute. split; reflexivity. Qed.

Lemma help_answer_ok : answer_ok help_answer.
Proof.
  unfold help_answer. pose proof help_small as H. destruct (help_to_text 16384) as [text|].
  - cbn [small] in H. apply answer_ok_intro; [status_known|by vm_compute|done|lia].
  - apply plain_answer_ok; [status_known|done|done].
Qed.

Lemma logger_text_nonempty now lg : 0 < strlen (logger_status_to_json now lg).
Proof.
  unfold logger_status_to_json. rewrite strlen_app.
  match goal with |- context [strlen ?a + strlen ?b] => pose proof (strlen_nonneg b);
    assert (0 < strlen a) by (vm_compute; reflexivity) end. lia.
Qed.

Section Answers.
Context {ABI : CAbi} {EV : Env} {SD : SdEnv} (log_start_us : Z) (webui_html stamp : string) (pid : Z).

Lemma logger_answer_ok st lg w : In st [200; 503] -> answer_ok (logger_answer st lg w).1.
Proof.
  intros Hs. unfold logger_answer, io_bind, io_ret.
  destruct ((if sl_active lg then now_us else _) w) as [now w1]. cbn [fst].
  pose proof (logger_text_nonempty now lg).
  destruct (Z.ltb_spec (strlen (logger_status_to_json now lg)) 16384).
  - apply json_text_ok; [|done]. cbn [In] in *. tauto.
  - apply plain_answer_ok; [status_known|done|done].
Qed.

Lemma status_small d ms lg w : small (status_to_json log_start_us d ms lg 16384 w).1.
Proof.
  apply (appends_small (status_into log_start_us d ms lg 16384) (status_doc log_start_us d ms lg));
    [|apply status_spec].
  clear w. intros w. unfold status_doc, io_bind, io_ret. repeat case_match. cbn [fst]. by eexists.
Qed.

Lemma fec_status_small d w : small (fec_status_to_json log_start_us d 16384 w).1.
Proof.
  apply (appends_small (fec_status_into log_start_us d 16384) (fec_status_doc log_start_us d));
    [|apply fec_status_spec].
  clear w. intros w. destruct (fec_status_good log_start_us d w) as (fs & -> & _). by eexists.
Qed.

Lemma mcs_status_small d ms w : small (mcs_status_to_json log_start_us d ms 16384 w).1.
Proof.
  apply (appends_small (mcs_status_into log_start_us d ms 16384) (mcs_status_doc log_start_us d ms));
    [|apply mcs_status_spec].
  clear w. intros w. unfold mcs_status_doc, io_bind, io_ret. repeat case_match. cbn [fst]. by eexists.
Qed.

Lemma cmd_status_small d w : small (cmd_status_to_json log_start_us d 16384 w).1.
Proof.
  apply (appends_small (fun b => let! doc := cmd_status_doc log_start_us d in
    io_ret (room 16384 b (print_json doc))) (cmd_status_doc log_start_us d)).
  - clear w. intros w. destruct (cmd_status_good log_start_us d w) as (fs & -> & _). by eexists.
  - apply appends_read. intros doc. apply appends_room.
Qed.

Lemma qparam_bounds fuel : forall b s name v,
  qparam_from fuel b s name = Some v -> LONG_MIN <= v <= LONG_MAX.
Proof.
  induction fuel as [|fuel IH]; intros b s name v; cbn [qparam_from]; [done|].
  pose proof LONG_MIN_le. pose proof LONG_MAX_ge. unfold INT_MIN, INT_MAX in *.
  destruct (starts_with name s); [|destruct s; [done|apply IH]].
  destruct (drop_chars _ s) as [|a t]; [done|]. destruct (b && _); [|apply IH].
  unfold strtol, clampZ. destruct (strtoZ t) as [[x e]|]; [|done]. cbn. intros [= <-]. lia.
Qed.

Lemma cmd_value_bounds qs key value : cmd_params qs = Some (key, value) -> LONG_MIN <= value <= LONG_MAX.
Proof.
  unfold cmd_params. destruct qs as [q|]; cbn [mbind option_bind]; [|done].
  destruct (qparam_long q "key") as [k|]; cbn [mbind option_bind]; [|done].
  destruct (_ || _); [done|]. intros [= _ <-]. unfold qparam_long.
  destruct (qparam_from _ true q "value") as [v|] eqn:E; cbn [default from_option].
  - by eapply qparam_bounds.
  - pose proof LONG_MIN_le. pose proof LONG_MAX_ge. unfold INT_MIN, INT_MAX in *. cbn. lia.
Qed.

Lemma int_fits z : INT_MIN <= z <= INT_MAX -> json_fits (JNum z) = true.
Proof.
  intros H. cbn [json_fits]. pose proof LONG_MIN_le. pose proof LONG_MAX_ge.
  apply andb_true_iff. split; apply Z.leb_le; lia.
Qed.

(** A few numbers of known types. *)
Lemma cmd_doc_small value resp : LONG_MIN <= value <= LONG_MAX ->
  small (Some (print_json (cmd_doc value resp))).
Proof.
  intros Hv. assert (exists n k fs, cmd_doc value resp = JObj fs /\ goodm n k fs /\ n <= 200)
    as (n & k & fs & E & (_ & _ & L) & Hn).
  { eexists _, _, _. split; [reflexivity|]. split; [doc_good|]. vm_compute. discriminate. }
  assert (json_fits (cmd_doc value resp) = true) as F.
  { unfold cmd_doc. cbn [json_fits forallb fst snd].
    assert ((LONG_MIN <=? value) && (value <=? LONG_MAX) = true) as -> by lia.
    pose proof (int_fits (u8 (rs_key resp))) as H1. pose proof (int_fits (u16 (rs_http_status resp))) as H2.
    pose proof (int_fits (i32 (rs_applied_value resp))) as H3.
    pose proof (int_fits (status_code (rs_status resp))) as H4. cbn [json_fits] in *.
    rewrite H1, H2, H3, H4; [done|..]; unfold INT_MIN, INT_MAX.
    - by destruct (rs_status resp).
    - unfold i32, swrap. pose proof (wrap_bound 32 (rs_applied_value resp)). case_bool; lia.
    - unfold u16. pose proof (wrap_bound 16 (rs_http_status resp)). lia.
    - unfold u8. pose proof (wrap_bound 8 (rs_key resp)). lia. }
  rewrite E in *. specialize (L F). pose proof (container_nonempty (JObj fs)) as H0. cbn beta iota in H0.
  cbn [small]. split; [done|]. cbn [print_json]. fold (members fs).
  rewrite !strlen_app. change (strlen sBO) with 1. change (strlen sBC) with 1. lia.
Qed.

Lemma api_cmd_reply_value d qs w r d' w' :
  api_cmd_reply log_start_us d qs w = ((r, d'), w') ->
  match r with Some (value, resp) => LONG_MIN <= value <= LONG_MAX | None => True end.
Proof.
  unfold api_cmd_reply. destruct (cmd_params qs) as [[key value]|] eqn:E; [|by intros [= <- _ _]].
  unfold io_bind, io_ret. destruct (now_us w) as [now w1].
  destruct (wcmd_dispatch _ _ _ _ _ w1) as [[[rc resp] px] w2]. intros [= <- _ _].
  by eapply cmd_value_bounds.
Qed.

Ltac refused := apply plain_answer_ok; [status_known|reflexivity|vm_compute; reflexivity].

(** (C38) Every request gets a response, and a consistent one: whatever a client sends and
    whatever state the daemon is in, the handler answers with one of six status codes, states
    as content length exactly the length of the body, and composes status line and headers
    inside their 256 bytes; or it sends the web page; or it keeps the connection as a
    subscriber, which it does only while there are fewer than four. *)
Theorem every_request_answered ms subs sv req w :
  match (api_respond log_start_us webui_html stamp pid ms subs sv req w).1.1 with
  | OutAnswer a => answer_ok a
  | OutBlob type body => type = "text/html; charset=utf-8" /\ body = webui_html
  | OutSubscribe => (subs < API_MAX_SSE)%nat
  end.
Proof.
  pose proof help_answer_ok as Hhelp. unfold api_respond. revert Hhelp. generalize help_answer.
  intros help Hhelp. destruct (negb _); [refused|].
  destruct (request_target req) as [[path qs]|]; [|refused].
  set (d := sv_d sv). cbv zeta.
  destruct (String.eqb path "/"); [destruct (request_wants_html req); [done|exact Hhelp]|].
  destruct (String.eqb path "/help"); [exact Hhelp|].
  destruct (String.eqb path "/params").
  { apply json_answer_ok. cbn [fst io_ret]. rewrite params_refines. apply (fits_small (params_doc _)). }
  destruct (String.eqb path "/schema").
  { apply json_answer_ok. cbn [fst io_ret]. rewrite schema_refines by lia. unfold schema_doc.
    match goal with |- context [JArr ?l] => generalize l end. intros l. apply (fits_small (JArr l)). }
  destruct (String.eqb path "/set").
  { apply json_answer_ok. rewrite set_refines by lia. apply (fits_small (set_doc _)). }
  destruct (String.eqb path "/cmd").
  { unfold io_bind, io_ret.
    destruct (api_cmd_reply _ _ _ w) as [[r d'] w1] eqn:E. apply api_cmd_reply_value in E.
    cbn [fst]. destruct r as [[value resp]|]; [|refused].
    apply json_answer_ok. by apply cmd_doc_small. }
  unfold io_bind, io_ret.
  destruct (String.eqb path "/status").
  { pose proof (status_small d ms (sv_lg sv) w) as H. destruct (status_to_json _ _ _ _ _ w).
    by apply json_answer_ok. }
  destruct (String.eqb path "/fec/status").
  { pose proof (fec_status_small d w) as H. destruct (fec_status_to_json _ _ _ w). by apply json_answer_ok. }
  destruct (String.eqb path "/mcs/status").
  { pose proof (mcs_status_small d ms w) as H. destruct (mcs_status_to_json _ _ _ _ w).
    by apply json_answer_ok. }
  destruct (String.eqb path "/cmd/status").
  { pose proof (cmd_status_small d w) as H. destruct (cmd_status_to_json _ _ _ w). by apply json_answer_ok. }
  destruct (String.eqb path "/log/status").
  { pose proof (logger_answer_ok 200 (sv_lg sv) w) as H. destruct (logger_answer _ _ w). apply H. status_known. }
  destruct (String.eqb path "/log/start").
  { destruct (now_us w) as [now w1]. destruct (logger_open_session _ _ _ _ _) as [[rc lg] disk].
    pose proof (logger_answer_ok (if rc =? 0 then 200 else 503) lg w1) as H.
    destruct (logger_answer _ _ w1). apply H. destruct (rc =? 0); status_known. }
  destruct (String.eqb path "/log/stop").
  { pose proof (logger_answer_ok 200 (logger_stop (sv_lg sv)) w) as H. destruct (logger_answer _ _ w).
    apply H. status_known. }
  destruct (String.eqb path "/health"); [refused|].
  destruct (String.eqb path "/events").
  { destruct (Nat.leb_spec API_MAX_SSE subs); [refused|done]. }
  destruct (String.eqb path "/keys"); [|refused].
  apply json_text_ok; [status_known|vm_compute; by split].
Qed.
(** Only [/events] keeps a connection, and only with room. *)
Lemma subscribe_bound ms subs sv req w :
  (api_respond log_start_us webui_html stamp pid ms subs sv req w).1.1 = OutSubscribe ->
  (subs < API_MAX_SSE)%nat.
Proof.
  unfold api_respond. generalize help_answer. intros help. destruct (negb _); [done|].
  destruct (request_target req) as [[path qs]|]; [|done]. set (d := sv_d sv). cbv zeta.
  destruct (String.eqb path "/"); [by destruct (request_wants_html req)|].
  destruct (String.eqb path "/help"); [done|].
  destruct (String.eqb path "/params"); [done|].
  destruct (String.eqb path "/schema"); [done|].
  destruct (String.eqb path "/set"); [done|]. unfold io_bind, io_ret.
  destruct (String.eqb path "/cmd"); [by destruct (api_cmd_reply _ _ _ w) as [[[[value resp]|] d'] w1]|].
  destruct (String.eqb path "/status"); [by destruct (status_to_json _ _ _ _ _ w)|].
  destruct (String.eqb path "/fec/status"); [by destruct (fec_status_to_json _ _ _ w)|].
  destruct (String.eqb path "/mcs/status"); [by destruct (mcs_status_to_json _ _ _ _ w)|].
  destruct (String.eqb path "/cmd/status"); [by destruct (cmd_status_to_json _ _ _ w)|].
  destruct (String.eqb path "/log/status"); [by destruct (logger_answer _ _ w)|].
  destruct (String.eqb path "/log/start").
  { destruct (now_us w) as [now w1]. destruct (logger_open_session _ _ _ _ _) as [[rc lg] disk].
    by destruct (logger_answer _ _ w1). }
  destruct (String.eqb path "/log/stop"); [by destruct (logger_answer _ _ w)|].
  destruct (String.eqb path "/health"); [done|].
  destruct (String.eqb path "/events"); [by destruct (Nat.leb_spec API_MAX_SSE subs)|].
  by destruct (String.eqb path "/keys").
Qed.

(** *** [/set] *)

Definition row_name (key : string) : Prop := exists t, In t TUNABLES /\ td_name t = key.

Lemma found_is_row key t : tunable_find key = Some t -> row_name key.
Proof.
  intros H. apply List.find_some in H as [Hin E]. apply String.eqb_eq in E. by exists t.
Qed.

(** The keys reported as applied are names of rows, and there is room for 64. *)
Definition applied_ok (r : SetResult) : Prop :=
  Forall row_name (sr_applied r) /\ (length (sr_applied r) <= 64)%nat.

Lemma apply_item_ok r item : applied_ok r -> applied_ok (apply_item r item).
Proof.
  intros [H1 H2]. unfold apply_item. destruct (span_until _ item) as [key v].
  destruct (tunable_find key) as [t|] eqn:E; [|by split].
  assert (forall c, applied_ok (Build_SetResult c (push (sr_applied r) key) (sr_errors r))) as Hp.
  { intros c. unfold applied_ok, push, max_keys. cbn [sr_applied].
    destruct (Nat.ltb_spec (length (sr_applied r)) 64); [|by split]. split.
    - apply Forall_app. split; [done|]. constructor; [by eapply found_is_row|constructor].
    - rewrite length_app. cbn. lia. }
  destruct v as [|a [|b v]]; [by split|by split|]. destruct (tunable_write _ _ _); [apply Hp|by split].
Qed.

Lemma apply_items_ok fuel : forall r q, applied_ok r -> applied_ok (apply_items fuel r q).
Proof.
  induction fuel as [|fuel IH]; intros r q H; [done|]. cbn [apply_items].
  destruct q as [|a q]; [done|]. destruct (span_until _ _) as [item [|b rest]];
    [by apply apply_item_ok|by apply IH, apply_item_ok].
Qed.

Lemma apply_query_ok c q : applied_ok (apply_query c q).
Proof. apply apply_items_ok. split; [constructor|cbn; lia]. Qed.

Lemma row_name_plain key : row_name key -> all_chars plain_char key = true.
Proof.
  intros (t & Ht & <-). pose proof names_plain as H. rewrite List.Forall_forall in H. by apply H.
Qed.

Lemma row_name_short key : row_name key -> strlen key <= 29.
Proof.
  intros (t & Ht & <-). pose proof names_short as H. rewrite List.Forall_forall in H. by apply H.
Qed.

Lemma set_doc_good r : applied_ok r -> sr_errors r = [] -> cfg_typed (sr_cfg r) ->
  plain_json (set_doc r) = true /\ json_fits (set_doc r) = true /\
  (json_tokens (set_doc r) <= 512)%nat /\ strlen (print_json (set_doc r)) < 16384.
Proof.
  intros [Ha Hl] He Hc. rewrite json_tokens_size. unfold set_doc. rewrite He.
  pose proof (params_plain (sr_cfg r)) as P. pose proof (params_fits _ Hc) as F.
  pose proof (params_tokens (sr_cfg r)) as T. rewrite json_tokens_size in T.
  pose proof (params_length (sr_cfg r)) as L.
  set (p := params_doc (sr_cfg r)) in *. clearbody p.
  cbn [plain_json json_fits forallb jsize fold_right map fst snd print_json commas].
  assert (forallb plain_json (map JString (sr_applied r)) = true) as ->.
  { apply forallb_forall. intros v (k & <- & Hk)%in_map_iff. cbn [plain_json].
    rewrite List.Forall_forall in Ha. by apply row_name_plain, Ha. }
  assert (forallb json_fits (map JString (sr_applied r)) = true) as ->.
  { apply forallb_forall. by intros v (k & <- & _)%in_map_iff. }
  rewrite P, F, T. split_and!; [done|done|..].
  - assert (forall l : list string, fold_right (fun v n => jsize v + n)%nat 0%nat (map JString l) =
      length l) as ->; [|lia].
    intros l. induction l as [|x l IH]; [done|]. cbn [map fold_right jsize length]. by rewrite IH.
  - assert (strlen (commas (map print_json (map JString (sr_applied r)))) <= 64 * 32) as H.
    { assert (strlen (commas (map print_json (map JString (sr_applied r)))) <=
        Z.of_nat (length (sr_applied r)) * 32) as H; [|lia]. clear Hl He Hc.
      induction Ha as [|k l Hk _ IH]; [done|]. cbn [map length print_json].
      rewrite commas_cons, strlen_app. apply row_name_short in Hk. unfold quoted, str1 in *.
      rewrite !strlen_app. cbn [strlen].
      destruct (map print_json _); cbn [strlen] in *; [lia|]. rewrite strlen_app. cbn [strlen]. lia. }
    unfold quoted, sBO, sBC, sKO, sKC, str1 in *. rewrite !strlen_app. cbn [strlen]. lia.
Qed.

(** A /set whose items are all accepted is answered 200 with the configuration it made:
    the body, whole, is read back as the list of the keys it applied, no errors, and under
    params every parameter with its new value, which is also the one the daemon has. *)
Theorem set_answered ms subs sv req q w :
  let r := apply_query (d_cfg (sv_d sv)) q in
  request_target req = Some ("/set"%string, Some q) -> sr_errors r = [] -> cfg_typed (sr_cfg r) ->
  exists text toks,
    api_respond log_start_us webui_html stamp pid ms subs sv req w =
      ((OutAnswer (Build_Answer 200 "application/json" text (strlen text)),
        sv <| sv_d := (sv_d sv) <| d_cfg := sr_cfg r |> |>), w) /\
    json_parse text 512 = Some toks /\ holds text toks 0 (set_doc r).
Proof.
  intros r Hreq He Hc.
  destruct (set_doc_good r (apply_query_ok _ _) He Hc) as (P & F & T & L).
  destruct (printed_holds 512 _ P F) as (toks & Hp & Hh); [lia|].
  exists (print_json (set_doc r)), toks. split; [|by split].
  assert (starts_with "GET " req = true) as Hg.
  { unfold request_target in Hreq. by destruct (starts_with "GET " req). }
  unfold api_respond. rewrite Hg, Hreq. cbn [negb]. cbv zeta.
  repeat match goal with |- context [String.eqb "/set" ?x] =>
    let b := eval vm_compute in (String.eqb "/set" x) in change (String.eqb "/set" x) with b end.
  cbv iota. change (default "" (Some q)) with q. fold r. rewrite set_refines by lia. unfold fits.
  destruct (Z.ltb_spec (strlen (print_json (set_doc r))) 16384); [|lia].
  unfold io_ret, api_set, json_answer. change (default "" (Some q)) with q. fold r. reflexivity.
Qed.
End Answers.

Definition sample_server : Server := Build_Server sample_daemon sd_logger_init
  (Build_Disk (Some "/dev/sd /mnt/mmcblk0p1 vfat rw 0 0") true (Some (NDir [])) 0).

Definition sample_set : string :=
  "GET /set?mcs.mcs_max=7&fec.mtu=1400&fec.ewma_alpha=0.25 HTTP/1.1" ++ CRLF ++ CRLF.

Definition sd_kind : SdEnv := {| sd_accepts := fun _ _ _ => true |}.

Lemma set_answered_witness : exists text toks,
  fst (fst (@api_respond abi_lp64 peer_ok sd_kind 0 "" "" 1 0 0 sample_server sample_set world_init)) =
    OutAnswer (Build_Answer 200 "application/json" text (strlen text)) /\
  json_parse text 512 = Some toks.
Proof.
  destruct (@set_answered abi_lp64 peer_ok sd_kind 0 "" "" 1 0 0 sample_server sample_set
    "mcs.mcs_max=7&fec.mtu=1400&fec.ewma_alpha=0.25" world_init) as (text & toks & E & Hp & _).
  - vm_compute. reflexivity.
  - vm_compute. reflexivity.
  - repeat (constructor; [vm_compute; repeat split; discriminate|]). constructor.
  - exists text, toks. rewrite E. by split.
Defined.
