(* ===== verification/LcClients.v ===== *)
(** * The connections of the vehicle's HTTP API

    The table of eight clients of [vehicle/link_controller.c]: [api_client_alloc],
    [api_client_drop], [api_client_drain] with the outcome of a request, the loop that accepts
    connections, the part of the main loop that serves, expires and pings them,
    [sse_broadcast_log] and [sse_heartbeat_all].  A descriptor is a number the kernel gives out
    and takes back; [cl_accepted] and [cl_closed] record both. *)

From S2P Require Import Prelude CFloat CString Strtod Decimal NumText Config Io Net Tunables.
From S2P Require Import Fec Bitrate Scorer Selector Commit Wcmd Recovery Csa SdLog Daemon Api.
From S2P Require Import WfbJson JsonForest JsonText LcDocs LcStatus LcHttp.

Local Open Scope list_scope.
#[local] Arguments String.append !_ _ /.

(** ** The table *)

Record ApiClient := Build_ApiClient {
  ac_fd : Z; ac_accepted_us : Z; ac_buf : list Z; ac_sse : bool
}.
#[export] Instance eta_ApiClient : Eta ApiClient := fun c =>
  Build_ApiClient (ac_fd c) (ac_accepted_us c) (ac_buf c) (ac_sse c).

Definition free_slot : ApiClient := Build_ApiClient (-1) 0 [] false.

Record Clients := Build_Clients { cl_slots : list ApiClient; cl_accepted : list Z; cl_closed : list Z }.
#[export] Instance eta_Clients : Eta Clients := fun c =>
  Build_Clients (cl_slots c) (cl_accepted c) (cl_closed c).

Definition clients_init : Clients := Build_Clients (replicate API_MAX_CLIENTS free_slot) [] [].

(** The first free slot takes the connection; [None] is -1. *)
Fixpoint api_client_alloc (cs : list ApiClient) (fd now : Z) : option (list ApiClient) :=
  match cs with
  | [] => None
  | c :: cs =>
      if ac_fd c <? 0 then Some (Build_ApiClient fd now [] false :: cs)
      else (fun cs => c :: cs) <$> api_client_alloc cs fd now
  end.

(** The descriptor given back, if there is one, and the slot. *)
Definition api_client_drop (c : ApiClient) : list Z * ApiClient :=
  (if 0 <=? ac_fd c then [ac_fd c] else [],
   c <| ac_fd := -1 |> <| ac_buf := [] |> <| ac_sse := false |>).

(** [api_send] has closed the descriptor; the rest of the slot stays as it is. *)
Definition api_client_sent (c : ApiClient) : list Z * ApiClient := ([ac_fd c], c <| ac_fd := -1 |>).

Definition api_count_sse (cs : list ApiClient) : nat := length (List.filter ac_sse cs).

(** What one slot's step closes and leaves, for every slot in order. *)
Fixpoint each_slot (f : ApiClient -> list Z * ApiClient) (cs : list ApiClient)
    : list Z * list ApiClient :=
  match cs with
  | [] => ([], [])
  | c :: cs => let '(x, c) := f c in let '(y, cs) := each_slot f cs in (x ++ y, c :: cs)
  end.

Definition on_slots (f : ApiClient -> list Z * ApiClient) (cl : Clients) : Clients :=
  let '(closed, cs) := each_slot f (cl_slots cl) in
  cl <| cl_slots := cs |> <| cl_closed := cl_closed cl ++ closed |>.

(** ** Log events *)

Definition EV_BYTES : Z := 1536.

(** The event of one log line; a line that does not fit is not sent. *)
Definition sse_event (t_s : fp) (subsys : Subsys) (line : string) : option string :=
  let head := (with_quotes "data: {'t_s':" ++ printf_f 3 t_s ++ with_quotes ",'subsys':'" ++
               subsys_name subsys ++ with_quotes "','msg':'")%string in
  h ← fits EV_BYTES head;
  esc ← json_escape (Z.to_nat EV_BYTES) (String.length h) line;
  room EV_BYTES (h ++ esc)%string (with_quotes "'}" ++ str1 LF ++ str1 LF)%string.

(** What [send] took of [total] bytes decides about a subscriber. *)
Definition sse_deliver (total : Z) (taken : Z) (c : ApiClient) : list Z * ApiClient :=
  if negb (ac_sse c) then ([], c)
  else if ac_fd c <? 0 then ([], c)
  else if taken =? total then ([], c)
  else ([ac_fd c], c <| ac_fd := -1 |> <| ac_buf := [] |> <| ac_sse := false |>).

(** [sends fd]: the answer of the kernel for a subscriber. *)
Definition sse_broadcast_log (sends : Z -> Z) (event : option string) (cl : Clients) : Clients :=
  match event with
  | None => cl
  | Some ev => on_slots (fun c => sse_deliver (strlen ev) (sends (ac_fd c)) c) cl
  end.

Definition PING : string := ":ping" ++ str1 LF ++ str1 LF.

Definition sse_heartbeat_all (sends : Z -> Z) (cl : Clients) : Clients :=
  on_slots (fun c => sse_deliver (strlen PING) (sends (ac_fd c)) c) cl.

(** ** One turn of the main loop *)

(** A connection [accept] returned: a slot, or an answer of 503 and the end. *)
Definition cl_accept (fd now : Z) (cl : Clients) : Clients :=
  let cl := cl <| cl_accepted := cl_accepted cl ++ [fd] |> in
  match api_client_alloc (cl_slots cl) fd now with
  | Some cs => cl <| cl_slots := cs |>
  | None => cl <| cl_closed := cl_closed cl ++ [fd] |>
  end.

(** What [poll] reported for a slot: an error or hang-up, and the data to be read. *)
Record SlotPoll := Build_SlotPoll { sp_gone : bool; sp_recvs : list (list Z) }.

Section Turn.
(** The handler: the outcome of a request when there are so many subscribers; the loop's is
    [api_respond] in the state it has reached. *)
Context (respond : nat -> string -> Outcome).

Definition handle (subs : nat) (req : string) (c : ApiClient) : list Z * ApiClient :=
  match respond subs req with
  | OutAnswer _ | OutBlob _ _ => api_client_sent c
  | OutSubscribe => ([], c <| ac_sse := true |> <| ac_buf := [] |>)
  end.

Definition serve_slot (subs : nat) (p : SlotPoll) (c : ApiClient) : list Z * ApiClient :=
  if ac_fd c <? 0 then ([], c)
  else if ac_sse c then if sp_gone p then api_client_drop c else ([], c)
  else
    match api_client_drain (ac_buf c) (sp_recvs p) with
    | AcWait buf => ([], c <| ac_buf := buf |>)
    | AcTooLarge => api_client_sent c
    | AcClosed => api_client_drop c
    | AcRequest buf => handle subs (cstr buf) (c <| ac_buf := buf |>)
    end.

(** Slot [i], if it was in use when the loop built its [pollfd] array.  Lines logged while a
    request is handled are operations of their own. *)
Definition cl_serve (i : nat) (p : SlotPoll) (cl : Clients) : Clients :=
  match cl_slots cl !! i with
  | None => cl
  | Some c =>
      let '(closed, c) := serve_slot (api_count_sse (cl_slots cl)) p c in
      cl <| cl_slots := <[i := c]> (cl_slots cl) |> <| cl_closed := cl_closed cl ++ closed |>
  end.

(** A client that has not sent a request within two seconds. *)
Definition expire_slot (now2 : Z) (c : ApiClient) : list Z * ApiClient :=
  if (0 <=? ac_fd c) && negb (ac_sse c) && (2000000 <? u64 (now2 - ac_accepted_us c))
  then api_client_drop c else ([], c).

End Turn.

(** What can happen to the table; a request is handled in the state the daemon is in. *)
Inductive ClientOp :=
  | OpAccept (fd now : Z)
  | OpServe (i : nat) (p : SlotPoll) (respond : nat -> string -> Outcome)
  | OpExpire (now2 : Z)
  | OpPing (sends : Z -> Z)
  | OpLog (sends : Z -> Z) (event : option string).

Definition client_op (op : ClientOp) (cl : Clients) : Clients :=
  match op with
  | OpAccept fd now => cl_accept fd now cl
  | OpServe i p respond => cl_serve respond i p cl
  | OpExpire now2 => on_slots (expire_slot now2) cl
  | OpPing sends => sse_heartbeat_all sends cl
  | OpLog sends event => sse_broadcast_log sends event cl
  end.

(** A run of the table. *)
Fixpoint client_run (ops : list ClientOp) (cl : Clients) : Clients :=
  match ops with [] => cl | op :: ops => client_run ops (client_op op cl) end.

(** ** The ledger of descriptors *)

Definition open_fd (c : ApiClient) : list Z := if 0 <=? ac_fd c then [ac_fd c] else [].
Definition open_fds (cs : list ApiClient) : list Z := concat (map open_fd cs).

(** A subscriber's slot is in use. *)
Definition slot_ok (c : ApiClient) : Prop := ac_sse c = true -> 0 <= ac_fd c.

(** A handler takes a subscriber only while there is room. *)
Definition bounded (respond : nat -> string -> Outcome) : Prop :=
  forall subs req, respond subs req = OutSubscribe -> (subs < API_MAX_SSE)%nat.

(** The kernel gives out descriptors that are not in use; the handlers are bounded. *)
Definition op_ok (op : ClientOp) (cl : Clients) : Prop :=
  match op with
  | OpAccept fd _ => 0 <= fd /\ fd ∉ open_fds (cl_slots cl)
  | OpServe _ _ respond => bounded respond
  | _ => True
  end.

Fixpoint run_ok (ops : list ClientOp) (cl : Clients) : Prop :=
  match ops with
  | [] => True
  | op :: ops => op_ok op cl /\ run_ok ops (client_op op cl)
  end.

Record clients_ok (cl : Clients) : Prop := {
  co_length : length (cl_slots cl) = API_MAX_CLIENTS;
  co_slots : Forall slot_ok (cl_slots cl);
  co_sse : (api_count_sse (cl_slots cl) <= API_MAX_SSE)%nat;
  co_distinct : NoDup (open_fds (cl_slots cl));
  co_ledger : cl_accepted cl ≡ₚ open_fds (cl_slots cl) ++ cl_closed cl
}.

(** A step of one slot: it keeps its descriptor, or gives it back. *)
Record slot_step (c : ApiClient) (r : list Z * ApiClient) : Prop := {
  ss_fds : open_fd c = r.1 ++ open_fd r.2;
  ss_ok : slot_ok r.2
}.

Lemma drop_step c : slot_step c (api_client_drop c).
Proof. unfold api_client_drop. split; cbn; [|done]. unfold open_fd. by case_bool. Qed.

Lemma keep_step c c' : ac_fd c' = ac_fd c -> slot_ok c' -> slot_step c ([], c').
Proof. intros E H. split; cbn; [|done]. unfold open_fd. by rewrite E. Qed.

Lemma sent_step c : 0 <= ac_fd c -> ac_sse c = false -> slot_step c (api_client_sent c).
Proof.
  intros H E. unfold api_client_sent. split; cbn.
  - unfold open_fd. cbn. by rewrite (proj2 (Z.leb_le 0 (ac_fd c)) H).
  - unfold slot_ok. cbn. by rewrite E.
Qed.

Lemma sent_read_step c buf : 0 <= ac_fd c -> ac_sse c = false ->
  slot_step c (api_client_sent (c <| ac_buf := buf |>)).
Proof. intros H E. by destruct (sent_step c H E). Qed.

Lemma deliver_step total taken c : slot_ok c -> slot_step c (sse_deliver total taken c) /\
  (ac_sse (sse_deliver total taken c).2 = true -> ac_sse c = true).
Proof.
  intros H. unfold sse_deliver. destruct (ac_sse c) eqn:E; cbn [negb]; [|split; [by apply keep_step|by cbn; rewrite E]].
  destruct (ac_fd c <? 0) eqn:Ef; [split; [by apply keep_step|done]|].
  destruct (taken =? total); [split; [by apply keep_step|done]|]. split; [|done].
  split; cbn; [|done]. unfold open_fd. cbn. apply Z.ltb_ge in Ef.
  by rewrite (proj2 (Z.leb_le 0 (ac_fd c)) Ef).
Qed.

Lemma expire_step now2 c : slot_ok c -> slot_step c (expire_slot now2 c) /\
  (ac_sse (expire_slot now2 c).2 = true -> ac_sse c = true).
Proof.
  intros H. unfold expire_slot. case_bool; [split; [apply drop_step|done]|].
  split; [by apply keep_step|done].
Qed.

(** A step of every slot. *)
Lemma each_slot_step f cs : Forall slot_ok cs ->
  (forall c, slot_ok c -> slot_step c (f c) /\ (ac_sse (f c).2 = true -> ac_sse c = true)) ->
  let r := each_slot f cs in
  length r.2 = length cs /\ Forall slot_ok r.2 /\ (api_count_sse r.2 <= api_count_sse cs)%nat /\
  open_fds cs ≡ₚ open_fds r.2 ++ r.1.
Proof.
  intros Hok Hf. induction Hok as [|c cs Hc _ IH]; cbn [each_slot]; [done|].
  destruct (Hf c Hc) as [[Hfd Hc'] Hs]. destruct (f c) as [x c']. destruct (each_slot f cs) as [y cs'].
  cbn [fst snd] in *. destruct IH as (I1 & I2 & I3 & I4). split_and!.
  - cbn. by rewrite I1.
  - by constructor.
  - unfold api_count_sse in *. cbn [List.filter].
    destruct (ac_sse c') eqn:E'; [rewrite (Hs eq_refl)|destruct (ac_sse c)]; cbn [length]; lia.
  - unfold open_fds in *. cbn [map concat]. rewrite Hfd, I4. solve_Permutation.
Qed.

Lemma on_slots_ok f cl : clients_ok cl ->
  (forall c, slot_ok c -> slot_step c (f c) /\ (ac_sse (f c).2 = true -> ac_sse c = true)) ->
  clients_ok (on_slots f cl).
Proof.
  intros [H1 H2 H3 H4 H5] Hf. unfold on_slots.
  pose proof (each_slot_step f (cl_slots cl) H2 Hf) as (I1 & I2 & I3 & I4).
  destruct (each_slot f (cl_slots cl)) as [x cs]. cbn [fst snd] in *.
  split; cbn; [congruence|done|unfold api_count_sse in *; lia| |].
  - rewrite I4 in H4. by apply NoDup_app in H4 as [H4 _].
  - rewrite H5, I4. solve_Permutation.
Qed.

Lemma alloc_ok cs fd now cs' : 0 <= fd -> api_client_alloc cs fd now = Some cs' ->
  Forall slot_ok cs ->
  length cs' = length cs /\ Forall slot_ok cs' /\ (api_count_sse cs' <= api_count_sse cs)%nat /\
  open_fds cs' ≡ₚ fd :: open_fds cs.
Proof.
  intros Hfd. revert cs'. induction cs as [|c cs IH]; intros cs' H Hok; [done|].
  cbn [api_client_alloc] in H. apply List.Forall_cons_iff in Hok as [Hc Hok].
  destruct (ac_fd c <? 0) eqn:E.
  - injection H as <-. apply Z.ltb_lt in E. split_and!.
    + done.
    + constructor; [done|exact Hok].
    + unfold api_count_sse. cbn [List.filter ac_sse]. destruct (ac_sse c); cbn [length]; lia.
    + unfold open_fds. cbn [map concat]. unfold open_fd at 1 3. cbn [ac_fd].
      rewrite (proj2 (Z.leb_le 0 fd)), (proj2 (Z.leb_gt 0 (ac_fd c))) by done. done.
  - destruct (api_client_alloc cs fd now) as [cs1|]; [|done]. injection H as <-.
    destruct (IH cs1 eq_refl Hok) as (I1 & I2 & I3 & I4). split_and!.
    + cbn. by rewrite I1.
    + by constructor.
    + unfold api_count_sse in *. cbn [List.filter]. destruct (ac_sse c); cbn [length]; lia.
    + unfold open_fds in *. cbn [map concat]. rewrite I4. solve_Permutation.
Qed.

Lemma client_accept_ok fd now cl : 0 <= fd -> fd ∉ open_fds (cl_slots cl) -> clients_ok cl ->
  clients_ok (cl_accept fd now cl).
Proof.
  intros Hfd Hnew [H1 H2 H3 H4 H5]. unfold cl_accept. cbn.
  destruct (api_client_alloc (cl_slots cl) fd now) as [cs|] eqn:E.
  - destruct (alloc_ok _ _ _ _ Hfd E H2) as (I1 & I2 & I3 & I4).
    split; cbn; [congruence|done|unfold api_count_sse in *; lia| |].
    + rewrite I4. by constructor.
    + rewrite H5, I4. solve_Permutation.
  - split; cbn; try done. rewrite H5. solve_Permutation.
Qed.

(** Another slot in the place of [c]. *)
Lemma insert_slot cs i c c' : cs !! i = Some c ->
  exists rest, open_fds cs ≡ₚ open_fd c ++ rest /\ open_fds (<[i := c']> cs) ≡ₚ open_fd c' ++ rest /\
  (api_count_sse (<[i := c']> cs) + (if ac_sse c then 1 else 0) =
   api_count_sse cs + (if ac_sse c' then 1 else 0))%nat.
Proof.
  revert i. induction cs as [|x cs IH]; intros [|i] H; [done|done| |].
  - injection H as ->. exists (open_fds cs). unfold open_fds, api_count_sse. cbn.
    split; [done|]. split; [done|]. destruct (ac_sse c), (ac_sse c'); cbn [length]; lia.
  - destruct (IH i H) as (rest & I1 & I2 & I3). exists (open_fd x ++ rest).
    change (<[S i := c']> (x :: cs)) with (x :: <[i := c']> cs).
    unfold open_fds, api_count_sse in *. cbn [map concat List.filter]. rewrite I1, I2.
    split; [solve_Permutation|]. split; [solve_Permutation|].
    destruct (ac_sse x), (ac_sse c), (ac_sse c'); cbn [length] in *; lia.
Qed.

Lemma serve_step respond subs p c : bounded respond -> slot_ok c ->
  slot_step c (serve_slot respond subs p c) /\
  (ac_sse c = false -> ac_sse (serve_slot respond subs p c).2 = true -> (subs < API_MAX_SSE)%nat).
Proof.
  intros Hb Hok. unfold serve_slot. destruct (ac_fd c <? 0) eqn:Ef;
    [split; [by apply keep_step|by cbn; intros ->]|].
  apply Z.ltb_ge in Ef.
  destruct (ac_sse c) eqn:Es.
  { split; [|done]. case_bool; [apply drop_step|by apply keep_step]. }
  destruct (api_client_drain _ _) as [buf| | |buf].
  - split; [by apply keep_step|]. by cbn; rewrite Es.
  - split; [by apply sent_step|]. by cbn; rewrite Es.
  - split; [apply drop_step|]. done.
  - unfold handle. destruct (respond subs _) eqn:Er.
    + split; [by apply sent_read_step|]. by cbn; rewrite Es.
    + split; [by apply sent_read_step|]. by cbn; rewrite Es.
    + split; [apply keep_step; [done|by intros _]|]. intros _ _. by eapply Hb.
Qed.

Lemma serve_ok respond i p cl : bounded respond -> clients_ok cl ->
  clients_ok (cl_serve respond i p cl).
Proof.
  intros Hb [H1 H2 H3 H4 H5]. unfold cl_serve. destruct (cl_slots cl !! i) as [c|] eqn:Hi; [|done].
  assert (slot_ok c) as Hc.
  { rewrite List.Forall_forall in H2. by apply H2, list_elem_of_In, list_elem_of_lookup_2 with i. }
  destruct (serve_step respond (api_count_sse (cl_slots cl)) p c Hb Hc) as [[Hfd Hok] Hn].
  destruct (serve_slot _ _ _ _) as [x c']. cbn [fst snd] in *.
  destruct (insert_slot (cl_slots cl) i c c' Hi) as (rest & I1 & I2 & I3).
  split; cbn.
  - by rewrite length_insert.
  - apply Forall_insert; done.
  - unfold api_count_sse in *. destruct (ac_sse c), (ac_sse c'); lia.
  - rewrite I2. rewrite I1, Hfd, <- app_assoc in H4. by apply NoDup_app in H4 as (_ & _ & H4).
  - rewrite H5, I1, I2, Hfd. solve_Permutation.
Qed.

Lemma client_op_ok op cl : clients_ok cl -> op_ok op cl -> clients_ok (client_op op cl).
Proof.
  intros H Hf. destruct op as [fd now|i p respond|now2|sends|sends event]; cbn [client_op op_ok] in *.
  - destruct Hf. by apply client_accept_ok.
  - by apply serve_ok.
  - apply on_slots_ok; [done|]. intros c. apply expire_step.
  - apply on_slots_ok; [done|]. intros c. apply deliver_step.
  - destruct event; [|done]. apply on_slots_ok; [done|]. intros c. apply deliver_step.
Qed.

Lemma client_run_ok ops : forall cl, clients_ok cl -> run_ok ops cl -> clients_ok (client_run ops cl).
Proof.
  induction ops as [|op ops IH]; intros cl H Hf; [done|]. destruct Hf as [Hop Hf].
  cbn [client_run]. apply IH; [|done]. by apply client_op_ok.
Qed.

Lemma clients_init_ok : clients_ok clients_init.
Proof.
  split; cbn; try done; [|unfold API_MAX_SSE; lia|constructor].
  repeat (constructor; [done|]). constructor.
Qed.

(** (C39) The connections of the API are accounted for: through any sequence of accepted
    connections, requests, answers, hang-ups, log lines, pings and time-outs, every descriptor
    the kernel gave out is either open in exactly one of the eight slots or has been closed
    once for that time; there are never more than four subscribers, and each of them is an
    open connection. *)
Theorem connections_accounted ops : run_ok ops clients_init ->
  let cl := client_run ops clients_init in
  length (cl_slots cl) = 8%nat /\ NoDup (open_fds (cl_slots cl)) /\
  cl_accepted cl ≡ₚ open_fds (cl_slots cl) ++ cl_closed cl /\
  (length (List.filter ac_sse (cl_slots cl)) <= 4)%nat /\
  forall c, In c (cl_slots cl) -> ac_sse c = true -> In (ac_fd c) (open_fds (cl_slots cl)).
Proof.
  intros Hf cl. destruct (client_run_ok ops clients_init clients_init_ok Hf) as [H1 H2 H3 H4 H5].
  fold cl in H1, H2, H3, H4, H5. split; [done|]. split; [done|]. split; [done|]. split; [done|].
  intros c Hin Hs. rewrite List.Forall_forall in H2. specialize (H2 c Hin Hs).
  unfold open_fds. apply List.in_concat. exists (open_fd c). split; [by apply in_map|].
  unfold open_fd. rewrite (proj2 (Z.leb_le 0 (ac_fd c)) H2). by left.
Qed.
(** ** Idle connections *)

Lemma each_slot_in f cs c' : In c' (each_slot f cs).2 -> exists c, In c cs /\ (f c).2 = c'.
Proof.
  induction cs as [|c cs IH]; cbn [each_slot]; [done|].
  destruct (f c) as [x y] eqn:E. destruct (each_slot f cs) as [z t]. cbn [snd].
  intros [<-|Hin]; [exists c; split; [by left|by rewrite E]|].
  destruct (IH Hin) as (c0 & ? & ?). exists c0. split; [by right|done].
Qed.

(** After the expiry of a turn every connection that is not a subscription was accepted in the
    last two seconds. *)
Lemma expired_recent now2 cl c :
  In c (cl_slots (client_op (OpExpire now2) cl)) -> 0 <= ac_fd c -> ac_sse c = false ->
  u64 (now2 - ac_accepted_us c) <= 2000000.
Proof.
  cbn [client_op]. unfold on_slots. destruct (each_slot _ _) as [x cs] eqn:E. cbn.
  intros Hin Hfd Hs. assert (In c (each_slot (expire_slot now2) (cl_slots cl)).2) as Hin'
    by (by rewrite E). destruct (each_slot_in _ _ _ Hin') as (c0 & _ & <-).
  unfold expire_slot in *. destruct (_ && _ && _) eqn:Eb; [by cbn in Hfd|]. cbn [snd] in *.
  rewrite Hs, (proj2 (Z.leb_le 0 (ac_fd c0)) Hfd) in Eb. cbn in Eb. by apply Z.ltb_ge in Eb.
Qed.

(** ** Log events *)

Definition not_lf (a : ascii) : bool := negb (aeq a LF).

Lemma escaped_one_line s : all_chars not_lf (escaped s) = true.
Proof.
  induction s as [|a s IH]; [done|]. cbn [escaped]. rewrite all_chars_app, IH, andb_true_r.
  destruct a as [[] [] [] [] [] [] [] []]; reflexivity.
Qed.

Lemma number_one_line n x : all_chars not_lf (printf_f n x) = true.
Proof.
  eapply all_chars_impl; [|apply printf_f_chars]. intros a Ha. unfold not_lf.
  destruct (aeq a LF) eqn:E; [|done]. apply aeq_eq in E as ->. done.
Qed.

Lemma event_prefix n t subsys : fsize 47 t -> strlen (with_quotes "data: {'t_s':" ++ printf_f n t ++
  with_quotes ",'subsys':'" ++ subsys_name subsys ++ with_quotes "','msg':'")%string <= 70 + Z.of_nat n.
Proof.
  intros Ht. pose proof (printf_f_length n t 47 15 ltac:(lia) ltac:(lia) ltac:(by apply Z.ltb_lt) Ht).
  rewrite !strlen_app. assert (strlen (subsys_name subsys) <= 6) by (destruct subsys; vm_compute; done).
  change (strlen (with_quotes "data: {'t_s':")) with 13.
  change (strlen (with_quotes ",'subsys':'")) with 11. change (strlen (with_quotes "','msg':'")) with 9.
  lia.
Qed.

(** A log event is one event of the stream: what [sse_broadcast_log] sends is a single
    data line, closed by an empty line, of at most 1535 bytes; its message, unescaped, is
    exactly the line that was logged, whatever characters are in it; and a line whose escaped
    text is below 1440 bytes, so every plain line that [log_emit] can make, is always sent. *)
Theorem log_event_sound t_s subsys line : fsize 47 t_s ->
  match sse_event t_s subsys line with
  | Some ev => strlen ev < EV_BYTES /\
      exists text, ev = (text ++ str1 LF ++ str1 LF)%string /\ all_chars not_lf text = true /\
        text = ("data: " ++ print_json (JObj [("t_s"%string, JRaw (printf_f 3 t_s));
                 ("subsys"%string, JString (subsys_name subsys)); ("msg"%string, JString (escaped line))]))%string /\
        json_unescape (escaped line) = Some line
  | None => 1440 <= strlen (escaped line)
  end.
Proof.
  intros Ht. unfold sse_event. pose proof (event_prefix 3 t_s subsys Ht) as Hl.
  set (head := (with_quotes "data: {'t_s':" ++ _)%string) in *. unfold fits.
  assert (strlen head < EV_BYTES) as Hh by (unfold EV_BYTES; lia).
  rewrite (proj2 (Z.ltb_lt _ _) Hh). cbn [mbind option_bind]. unfold json_escape.
  change ((Z.to_nat EV_BYTES <? 8)%nat) with false. cbv iota.
  pose proof (escape_from_spec (Z.to_nat EV_BYTES) line (String.length head)) as He.
  destruct (escape_from _ _ _) as [e|] eqn:Ee; cbn [mbind option_bind].
  - subst e. apply escape_from_sound in Ee as [Hu _].
    rewrite room_fits. unfold fits. set (ev := ((head ++ escaped line) ++ _)%string).
    destruct (Z.ltb_spec (strlen ev) EV_BYTES) as [Hev|Hev].
    + split; [done|]. exists (head ++ escaped line ++ with_quotes "'}")%string. split_and!.
      * subst ev. by rewrite !sapp_assoc.
      * subst head. rewrite !all_chars_app, escaped_one_line, number_one_line. by destruct subsys.
      * subst head. cbn [print_json map commas fst snd]. unfold quoted. rewrite !sapp_assoc. reflexivity.
      * done.
    + subst ev. rewrite !strlen_app in Hev.
      change (strlen (with_quotes "'}")) with 2 in Hev. change (strlen (str1 LF)) with 1 in Hev.
      unfold EV_BYTES in *. lia.
  - pose proof (strlen_length head). pose proof (strlen_length (escaped line)). unfold EV_BYTES in *. lia.
Qed.

(** ** The theorems on a small run *)

Definition sample_respond : nat -> string -> Outcome := fun subs req =>
  (@api_respond abi_lp64 peer_ok sd_kind 0 "<html>" "" 1 0 subs sample_server req world_init).1.1.

Lemma sample_respond_bounded : bounded sample_respond.
Proof. intros subs req H. by eapply subscribe_bound. Qed.

Definition sample_get (path : string) : SlotPoll :=
  Build_SlotPoll false [map code (list_ascii_of_string ("GET " ++ path ++ " HTTP/1.0" ++ CRLF ++ CRLF))].

(** A subscriber, a page, an idle connection that expires, and a subscriber that does not keep
    up. *)
Definition sample_ops : list ClientOp := [
  OpAccept 7 0; OpAccept 8 0; OpServe 0 (sample_get "/events") sample_respond;
  OpServe 1 (sample_get "/health") sample_respond; OpAccept 8 100; OpExpire 5000000;
  OpAccept 8 5000000; OpLog (fun _ => 3) (sse_event f0 SUB_FEC "hello")].

Lemma sample_run_ok : run_ok sample_ops clients_init.
Proof.
  assert (forall fd cl, 0 <= fd -> bool_decide (fd ∉ open_fds (cl_slots cl)) = true ->
    0 <= fd /\ fd ∉ open_fds (cl_slots cl)) as Hfd.
  { intros fd cl H Hd. split; [done|]. by apply bool_decide_eq_true in Hd. }
  unfold sample_ops. cbn [run_ok op_ok].
  repeat match goal with
  | |- _ /\ run_ok _ _ => split
  | |- 0 <= _ /\ _ => apply Hfd; [done|vm_compute; reflexivity]
  | |- bounded _ => apply sample_respond_bounded
  | |- _ => exact I
  | |- run_ok _ _ => cbn [run_ok op_ok]
  | |- _ /\ _ => split
  end.
Qed.

Lemma connections_accounted_witness :
  let cl := client_run sample_ops clients_init in
  cl_accepted cl ≡ₚ open_fds (cl_slots cl) ++ cl_closed cl /\
  open_fds (cl_slots cl) = [8] /\ cl_closed cl = [8; 8; 7].
Proof.
  destruct (connections_accounted sample_ops sample_run_ok) as (_ & _ & H & _).
  split; [exact H|]. clear H. vm_compute. by split.
Defined.

Lemma log_event_sound_witness :
  match sse_event f0 SUB_MCS (str1 DQ) with Some ev => strlen ev < EV_BYTES | None => False end.
Proof.
  pose proof (log_event_sound f0 SUB_MCS (str1 DQ) I) as H.
  destruct (sse_event f0 SUB_MCS (str1 DQ)) as [ev|]; [by destruct H|].
  revert H. clear. vm_compute. intros H. by apply H.
Defined.
