(* ===== verification/Inputs.v ===== *)
(** * What the vehicle daemon reads

    The datagrams the main loop of [vehicle/link_controller.c] drains after [poll]:
    [wfb_tx] statistics, the vehicle's own uplink report, the recovery channel, the
    ground station's stream ([rx_ant]: commands, channel-switch frames, boundary-probe
    records and reception reports) and the encoder's sidecar.  A datagram is a list of
    bytes with the address it came from; a socket is the queue of its datagrams. *)

From S2P Require Import Prelude CFloat Config CString Io Net Fec Bitrate Scorer Selector Commit.
From S2P Require Import Wcmd.
From S2P Require Import Recovery Csa Daemon Api.

Record Dgram := Build_Dgram { dg_from : Z; dg_bytes : list Z }.

Definition field (name value : string) : string := quoted name ++ ":" ++ value.

Definition STATS_STALE_US : Z := 3000000.
Definition DRAIN_MAX : nat := 32.

(** One wakeup reads at most [DRAIN_MAX] datagrams and stops at an empty one. *)
Fixpoint drain {D : Type} (f : D -> Dgram -> IO D) (n : nat) (q : list Dgram) (d : D)
    : IO (list Dgram * D) :=
  match n, q with
  | S n, g :: q =>
      match dg_bytes g with
      | [] => io_ret (q, d)
      | _ => let! d := f d g in drain f n q d
      end
  | _, _ => io_ret (q, d)
  end.

Section Inputs.
Context {ABI : CAbi} {EV : Env} (log_start_us : Z).

(** ** Statistics of [wfb_tx] *)

(** The buffer holds 2047 bytes and the terminator. *)
Definition on_stats (d : Daemon) (g : Dgram) : IO Daemon :=
  let! now := now_us in
  let! (rc, s) := wfb_stats_handle_datagram (cstr (take 2047 (dg_bytes g))) (d_cfg d)
                    (Build_StatsState (d_radio d) (d_ctrl d) (d_lw d) (d_stats_seq d)) now in
  let d := d <| d_radio := ss_radio s |> <| d_ctrl := ss_ctrl s |> <| d_lw := ss_lw s |>
             <| d_stats_seq := ss_last_seq s |> in
  if negb (rc =? 0) then io_ret d
  else
    let! t := now_us in
    io_ret (d <| d_stats_us := t |> <| d_stats_stale := false |>).

Definition stale_tick (d : Daemon) : IO Daemon :=
  let f := cfg_fec (d_cfg d) in
  if fec_enabled f && negb (fec_wfb_stats_port f =? 0) && negb (d_stats_us d =? 0) then
    let! t := now_us in
    io_ret (if negb (d_stats_stale d) && (u64 (t - d_stats_us d) >? STATS_STALE_US)
            then d <| d_stats_stale := true |> else d)
  else io_ret d.

(** ** Reception reports *)

Record Report := Build_Report {
  rp_uniq : Z; rp_lost : Z; rp_recovered : Z; rp_diversity : Z; rp_adapters : Z
}.

(** The counters of a report: [Some None] when its ["pkt"] block is unusable. *)
Definition parse_report (text : string) : option (option Report) :=
  if negb (contains text (field "type" (quoted "rx_ant"))) then None
  else if negb (contains text (field "ver" "1")) then None
  else match strstr text (field "pkt" "") with
  | None => Some None
  | Some pkt =>
      let uniq := get_int_in_or (-1) pkt "uniq" in
      let uniq := if uniq <? 0 then get_int_in_or (-1) pkt "data" else uniq in
      if uniq <? 0 then Some None
      else
        let adapters := get_int_in_or (-1) pkt "adapters" in
        Some (Some (Build_Report uniq
          (get_int_in_or 0 pkt "lost") (get_int_in_or 0 pkt "fec_recovered")
          (get_int_in_or 0 pkt "diversity")
          (if adapters >=? 0 then i32 adapters else -1)))
  end.

Definition score_report (s : Scorer) (cfg : Config) (text : string) (r : Report) (now : Z)
    : Scorer * option Score :=
  scorer_update s cfg text (rp_uniq r) (rp_lost r) (rp_recovered r) (rp_diversity r)
    (rp_adapters r) now.

(** The uplink's report, a diagnostic. *)
Definition on_uplink (d : Daemon) (g : Dgram) : IO Daemon :=
  if (2048 <=? length (dg_bytes g))%nat then io_ret d
  else
    let text := cstr (dg_bytes g) in
    match parse_report text with
    | Some (Some r) =>
        let! now := now_us in
        let up := d_up d in
        let '(scorer, out) := score_report (up_scorer up) (d_cfg d) text r now in
        match out with
        | None => io_ret (d <| d_up := (up <| up_scorer := scorer |>) |>)
        | Some score =>
            let! t := now_us in
            io_ret (d <| d_up := Build_Uplink true t scorer score (rp_uniq r) (rp_lost r)
              (u64 (up_pkt_total up + rp_uniq r))
              (if rp_lost r >? 0 then u64 (up_lost_total up + rp_lost r)
               else up_lost_total up) |>)
        end
    | _ => io_ret d
    end.

(** ** The recovery channel *)

Definition on_recovery (d : Daemon) (g : Dgram) : IO Daemon :=
  match req_decode (take 512 (dg_bytes g)) with
  | None => io_ret d
  | Some req =>
      if negb (req_accepts req) then io_ret d
      else
        let! now := now_us in
        let! (resp, rv) := recovery_dispatch (d_cfg d) (d_rv d) req now in
        let! _ := io_log (EvReply (resp_encode resp)) in
        io_ret (d <| d_rv := rv |>)
  end.

(** ** Commands *)

(** A SET_RADIO the command just wrote becomes the daemon's own view of the radio. *)
Definition carry_pending (p : PendingMcsDown) (wb : RadioBody) : PendingMcsDown :=
  if pd_active p then
    p <| pd_pending_radio := (wb <| rb_mcs_index := rb_mcs_index (pd_pending_radio p) |>) |>
  else p.

Definition covered_by_pending (d : Daemon) (mcs : Z) : bool :=
  pd_active (d_pending d) && (pd_target_mcs (d_pending d) =? mcs).

Definition write_through (d : Daemon) : IO Daemon :=
  let wb := ws_radio_written_body (d_wcmd d) in
  let d := d <| d_wcmd := ((d_wcmd d) <| ws_radio_written := false |>) |>
             <| d_body := wb |> <| d_body_valid := true |>
             <| d_pending := carry_pending (d_pending d) wb |> in
  let rung := current_mcs (d_sel d) in
  let! d := (if mcs_enabled (cfg_mcs (d_cfg d)) && (rung >=? 0) &&
                negb (covered_by_pending d rung) && negb (rb_mcs_index wb =? rung)
             then
               let! now := now_us in
               let dir := if rb_mcs_index wb >? rung then SD_UP else SD_DOWN in
               let '(sel, _, adopted) :=
                 selector_commit (d_sel d) (d_cfg d) (rb_mcs_index wb) now dir in
               io_ret (d <| d_sel := sel |> <| d_emit_mcs := default (-1) adopted |>)
             else io_ret d) in
  let! now := now_us in
  io_ret (observe d wb now).

Definition on_command (d : Daemon) (req : WcmdReq) (from : Z) : IO Daemon :=
  let! now := now_us in
  let! (_, resp, px) := wcmd_dispatch log_start_us (Build_Proxy (d_cfg d) (d_wcmd d) (d_sync d))
                          req from now in
  let! _ := io_log (EvReply (resp_encode resp)) in
  let d := d <| d_cfg := px_cfg px |> <| d_wcmd := px_st px |> <| d_sync := px_sync px |> in
  if ws_radio_written (d_wcmd d) then write_through d else io_ret d.

(** ** Boundary-probe records *)

Definition per_milli (acc lost : Z) : Z :=
  if acc >? 0 then i32 (Z.quot (long_cast (lost * 1000 + Z.quot acc 2)) acc) else -1.

Definition ingest_probe (p : ProbeState) (text : string) (now : Z) : ProbeState :=
  let mcs := get_int_or (-1) text "mcs" in
  let acc := get_int_or (-1) text "accounted" in
  let lost := get_int_or 0 text "lost" in
  let ts := get_int_or (-1) text "ts_ms" in
  if (mcs >=? 0) && (mcs <? PROBE_MCS_MAX) then
    let i := Z.to_nat mcs in
    let old := ps_rung p !!! i in
    let r := Build_ProbeRung acc lost (per_milli acc lost) now (if ts >=? 0 then ts else 0)
               (u32 (pr_records old + 1)) true in
    p <| ps_rung := <[i := r]> (ps_rung p) |> <| ps_last_any_us := now |>
      <| ps_total_records := u32 (ps_total_records p + 1) |>
  else p <| ps_parse_errors := u32 (ps_parse_errors p + 1) |>.

(** ** The law, and what becomes of its decision *)

Definition note_failure (d : Daemon) (target : Z) : IO Daemon :=
  if negb (sf_state (d_sf d)) || negb (sf_target_mcs (d_sf d) =? target) then
    let! now := now_us in io_ret (d <| d_sf := Build_SendFail true now target |>)
  else io_ret d.

(** No decision: put the radio back on the committed rung if someone moved it. *)
Definition realign (d : Daemon) : IO Daemon :=
  let want := current_mcs (d_sel d) in
  if (want >=? 0) && d_body_valid d && negb (dry_run (d_cfg d)) then
    if negb (want =? rb_mcs_index (d_body d)) && negb (covered_by_pending d want) then
      let! now := now_us in
      let! (rc, d) := daemon_commit d want now in
      if rc =? 0 then
        let r := (d_body d) <| rb_mcs_index := u8 want |> in
        let! t := now_us in
        io_ret (sf_clear (observe (d <| d_body := r |> <| d_emit_mcs := want |>) r t))
      else if rc =? 1 then io_ret d
      else note_failure d want
    else io_ret d
  else io_ret d.

(** A decision: send it, or take the commit back ([snap] is the selector before). *)
Definition emit_decision (d : Daemon) (snap : Selector) (new_mcs : Z) : IO Daemon :=
  let! d := (if d_body_valid d then io_ret d
             else
               let! got := wfb_get_radio (wfb_host (d_cfg d)) (wfb_port (d_cfg d)) in
               io_ret (match got with
                       | Some b => d <| d_body := b |> <| d_body_valid := true |>
                       | None => d
                       end)) in
  if negb (d_body_valid d) then io_ret (d <| d_sel := snap |>)
  else
    let! now := now_us in
    let! (rc, d) := daemon_commit d new_mcs now in
    if rc <? 0 then note_failure (d <| d_sel := snap |>) new_mcs
    else if rc =? 1 then io_ret d
    else
      let d := sf_clear d in
      let! fresh := wfb_get_radio (wfb_host (d_cfg d)) (wfb_port (d_cfg d)) in
      let body := default ((d_body d) <| rb_mcs_index := u8 new_mcs |>) fresh in
      let! t := now_us in
      io_ret (observe (d <| d_body := body |> <| d_emit_mcs := new_mcs |>) body t).

Definition decide_mcs (d : Daemon) (score : Score) (now : Z) : IO Daemon :=
  let snap := d_sel d in
  let '(sel, sd, out) :=
    selector_update snap (d_cfg d) score (d_probe d) (tr_in_pressure (d_tr d)) now in
  let d := d <| d_sel := sel |> in
  let new_mcs := default (-1) out in
  if bool_decide (sd = SD_NONE) then realign d
  else if dry_run (d_cfg d) then io_ret (d <| d_emit_mcs := new_mcs |>)
  else emit_decision d snap new_mcs.

(** Anything on the stream that is not a command. *)
Definition on_text (d : Daemon) (text : string) : IO Daemon :=
  if contains text (field "type" (quoted "probe")) then
    let! now := now_us in
    io_ret (d <| d_probe := ingest_probe (d_probe d) text now |>)
  else match parse_report text with
  | Some (Some r) =>
      let! now := now_us in
      let '(scorer, out) := score_report (d_scorer d) (d_cfg d) text r now in
      let d := d <| d_scorer := scorer |> in
      match out with
      | None => io_ret d
      | Some score =>
          decide_mcs (d <| d_rx_ant_us := now |> <| d_score := score |>) score now
      end
  | _ => io_ret d
  end.

(** Text passes the channel-switch receiver first; [now] is the time of the loop's turn. *)
Definition on_report (now : Z) (d : Daemon) (text : string) : IO Daemon :=
  if csa_enabled (cfg_csa (d_cfg d)) then
    let '(consumed, s) := csa_feed (d_csa d) (d_csa_cfg d) text (now / 1000) in
    if consumed then io_ret (d <| d_csa := s |>)
    else on_text (d <| d_csa := (csa_link_alive s).2 |>) text
  else on_text d text.

(** The command a datagram carries, if it is one. *)
Definition command_of (g : Dgram) : option WcmdReq :=
  match req_decode (dg_bytes g) with
  | Some req => if req_accepts req then Some req else None
  | None => None
  end.

Definition on_rx_ant (now : Z) (d : Daemon) (g : Dgram) : IO Daemon :=
  if (2048 <=? length (dg_bytes g))%nat then io_ret d
  else match command_of g with
  | Some req => on_command d req (dg_from g)
  | None => on_report now d (cstr (dg_bytes g))
  end.

(** ** The encoder's sidecar *)

Definition SC_MAGIC : Z := 0x52545053.
Definition SC_VERSION : Z := 1.
Definition SC_MSG_FRAME : Z := 2.
Definition SidecarFrame_size : nat := 52.
Definition SidecarEncInfo_size : nat := 12.
Definition SidecarTransportInfo_size : nat := 16.
Definition has_enc_info (buf : list Z) : bool := Z.testbit (byte_at buf 7) 1.
Definition has_transport_info (buf : list Z) : bool := Z.testbit (byte_at buf 7) 2.

Definition frame_accepts (buf : list Z) : bool :=
  (SidecarFrame_size <=? length buf)%nat && (be32_at buf 0 =? SC_MAGIC) &&
  (byte_at buf 4 =? SC_VERSION) && (byte_at buf 5 =? SC_MSG_FRAME).

(** The transport trailer; the result says whether to skip the frame. *)
Definition transport_info (d : Daemon) (buf : list Z) : IO (bool * Daemon) :=
  let off := (SidecarFrame_size +
              if has_enc_info buf then SidecarEncInfo_size else 0)%nat in
  if has_transport_info buf && (off + SidecarTransportInfo_size <=? length buf)%nat then
    let tr := d_tr d in
    let pd_now := be32_at buf (off + 8) in
    let pd_delta := if tr_present tr && (pd_now >=? tr_pressure_drops tr)
                    then pd_now - tr_pressure_drops tr else 0 in
    let! now := now_us in
    let tr := tr <| tr_present := true |> <| tr_fill_pct := byte_at buf off |>
      <| tr_in_pressure := negb (byte_at buf (off + 1) =? 0) |>
      <| tr_drops := be32_at buf (off + 4) |> <| tr_pressure_drops := pd_now |>
      <| tr_pressure_drops_delta := pd_delta |> <| tr_packets_sent := be32_at buf (off + 12) |>
      <| tr_us := now |> in
    let f := cfg_fec (d_cfg d) in
    io_ret (fec_skip_on_backpressure f &&
            ((tr_fill_pct tr >=? fec_backpressure_fill_pct f) || (pd_delta >? 0)),
            d <| d_tr := tr |>)
  else io_ret (false, d).

(** A skipped frame: after enough of them in a row the safe bitrate is written again. *)
Definition on_skip (d : Daemon) : IO Daemon :=
  let d := d <| d_tr := ((d_tr d) <| tr_fec_skipped := u32 (tr_fec_skipped (d_tr d) + 1) |>) |> in
  let f := cfg_fec (d_cfg d) in
  if fec_skip_on_backpressure f && negb (dry_run (d_cfg d)) && fec_enabled f &&
     fec_safe_startup_enabled f && flt f0 (fec_backpressure_recover_s f)
  then
    let! now := now_us in
    let tr := d_tr d in
    let tr := if tr_skip_since_us tr =? 0 then tr <| tr_skip_since_us := now |> else tr in
    let stuck_s := us_to_secs (u64 (now - tr_skip_since_us tr)) in
    let due := (tr_recover_us tr =? 0) ||
      fle (fec_backpressure_recover_s f) (us_to_secs (u64 (now - tr_recover_us tr))) in
    if fle (fec_backpressure_recover_s f) stuck_s && due then
      let! _ := venc_apply_cfg (d_cfg d) (fec_safe_startup_bitrate_kbps f)
                  (fec_safe_startup_payload f) in
      io_ret (d <| d_tr := (tr <| tr_recover_us := now |>) |>)
    else io_ret (d <| d_tr := tr |>)
  else io_ret d.

(** A clean frame drives the FEC controller. *)
Definition on_frame (d : Daemon) (frame_size : Z) : IO Daemon :=
  let d := d <| d_tr := ((d_tr d) <| tr_skip_since_us := 0 |> <| tr_recover_us := 0 |>) |> in
  let! now := now_us in
  let '(ctrl, ring, out) :=
    controller_update (d_ctrl d) (d_cfg d) frame_size (d_ring d) now (fps_get (d_fps d))
      (lw_kbps (d_lw d)) in
  let d := d <| d_ctrl := ctrl |> <| d_ring := ring |> in
  match out with
  | None => io_ret d
  | Some p =>
      let! d := (if dry_run (d_cfg d) then io_ret d
                 else
                   let! rc := wfb_send_set_fec (wfb_host (d_cfg d)) (wfb_port (d_cfg d))
                                (fp_k p) (fp_n p) in
                   io_ret (if negb (rc =? 0) then d
                           else d <| d_lw := ((d_lw d) <| lw_fec_k := fp_k p |>
                                                       <| lw_fec_n := fp_n p |>) |>)) in
      let! (ctrl, lw) := bitrate_assert (d_radio d) (d_ctrl d) (d_cfg d) (d_lw d) now in
      io_ret (d <| d_ctrl := ctrl |> <| d_lw := lw |>)
  end.

(** The buffer holds 128 bytes. *)
Definition on_sidecar (d : Daemon) (g : Dgram) : IO Daemon :=
  let buf := take 128 (dg_bytes g) in
  if negb (frame_accepts buf) then io_ret d
  else
    let d := d <| d_fps := fps_feed (d_fps d) (be64_at buf 24) |> in
    let! (skip, d) := transport_info d buf in
    if negb (has_enc_info buf) ||
       (length buf <? SidecarFrame_size + SidecarEncInfo_size)%nat
    then io_ret d
    else
      let frame_size := be32_at buf SidecarFrame_size in
      if frame_size =? 0 then io_ret d
      else if skip then on_skip d
      else on_frame d frame_size.

(** ** One turn of the loop *)

(** The sockets, as far as requests and datagrams have arrived. *)
Record Sockets := Build_Sockets {
  sk_api : list string; sk_stats : list Dgram; sk_uplink : list Dgram; sk_recovery : list Dgram;
  sk_rx_ant : list Dgram; sk_sidecar : list Dgram
}.

Definition loop_inputs (now : Z) (d : Daemon) (q : Sockets) : IO (Sockets * Daemon) :=
  let! (api, d) := api_service log_start_us API_MAX_CLIENTS d (sk_api q) in
  let! (stats, d) := drain on_stats DRAIN_MAX (sk_stats q) d in
  let! d := stale_tick d in
  let! (uplink, d) := drain on_uplink DRAIN_MAX (sk_uplink q) d in
  let! (recovery, d) := drain on_recovery DRAIN_MAX (sk_recovery q) d in
  let! (rx_ant, d) := drain (on_rx_ant now) DRAIN_MAX (sk_rx_ant q) d in
  let! (sidecar, d) := drain on_sidecar 1 (sk_sidecar q) d in
  io_ret (Build_Sockets api stats uplink recovery rx_ant sidecar, d).

(** Between the two halves [poll] waits at most [poll_timeout_ms] for one of the sockets;
    what it found is [q]. *)
Definition loop_body (d : Daemon) (q : Sockets) : IO (Sockets * Daemon) :=
  let! (now, _, d) := loop_timers d in
  loop_inputs now d q.
End Inputs.
