(* ===== verification/Safety.v ===== *)
(** * The daemon as a whole

    What holds of the loop of [main] over any number of turns, any datagrams and any
    answers of the peers: the invariant of its variables, the bounds on the requests it
    sends, dry runs, the separation of the diagnostic and recovery channels, and what
    becomes of a decision, a deferred drop and an operator's write. *)

From S2P Require Import Prelude CFloat Config CString Io Net Fec Bitrate Scorer Selector Commit.
From S2P Require Import Wcmd.
From S2P Require Import Recovery Csa Daemon Api Inputs.

(** ** The invariant *)

(** The ranges of a usable configuration; rungs and blocks fit the bytes of the wire. *)
Record limits_ok (cfg : Config) : Prop := {
  lo_mcs : mcs_cfg_ok cfg;
  lo_mcs_byte : mcs_max (cfg_mcs cfg) <= 255;
  lo_fec : fec_windows_ok cfg;
  lo_fec_byte : fec_max_n (cfg_fec cfg) <= 255
}.

Definition rung_ok (cfg : Config) (mcs : Z) : Prop :=
  mcs_min (cfg_mcs cfg) <= mcs <= mcs_max (cfg_mcs cfg).

(** A deferred drop aims at a permitted rung, which its radio body carries; a dry run
    defers nothing. *)
Definition pending_ok (cfg : Config) (p : PendingMcsDown) : Prop :=
  pd_active p = true ->
  rung_ok cfg (pd_target_mcs p) /\ rb_mcs_index (pd_pending_radio p) = pd_target_mcs p /\
  dry_run cfg = false.

Definition fec_ok (cfg : Config) (c : Controller) : Prop :=
  have_current c = true -> fec_pair_ok cfg (current c).

Record daemon_ok (d : Daemon) : Prop := {
  dk_limits : limits_ok (d_cfg d);
  dk_sel : selector_ok (d_cfg d) (d_sel d);
  dk_pending : pending_ok (d_cfg d) (d_pending d);
  dk_ring : headroom_ring_ok (d_ring d);
  dk_fec : fec_ok (d_cfg d) (d_ctrl d);
  dk_csa : csa_ok (d_csa_cfg d) (d_csa d);
  dk_probe : length (ps_rung (d_probe d)) = 16%nat
}.

(** One configuration throughout. *)
Definition steady (cfg : Config) (d : Daemon) : Prop := daemon_ok d /\ d_cfg d = cfg.

(** ** The requests the daemon sends on its own account *)

(** What a dry run may do: read, switch the channel, start and stop the log. *)
Definition dry_event (e : Event) : Prop :=
  match e with EvIwChannel _ _ _ | EvLogger _ => True | _ => mutates e = false end.

Definition own_request (cfg : Config) (e : Event) : Prop :=
  match e with
  | EvCtl host port _ (CtlSetRadio b) =>
      host = wfb_host cfg /\ port = wfb_port cfg /\ rung_ok cfg (rb_mcs_index b)
  | EvCtl host port _ (CtlSetFec k n _) =>
      host = wfb_host cfg /\ port = wfb_port cfg /\
      fec_min_k (cfg_fec cfg) <= k <= fec_max_k (cfg_fec cfg) /\
      fec_min_n (cfg_fec cfg) <= n <= fec_max_n (cfg_fec cfg) /\ k < n
  | EvHttp host port _ => host = fec_venc_host (cfg_fec cfg) /\ port = fec_venc_port (cfg_fec cfg)
  | EvCtl _ _ _ (CtlSetPeek _) | EvIwTxpower _ _ | EvIpMtu _ _ | EvLogger _ => False
  | _ => True
  end.

Definition own_event (cfg : Config) (e : Event) : Prop :=
  own_request cfg e /\ (dry_run cfg = true -> dry_event e).

(** The retune of the probe: two rungs above the committed one, at most 7. *)
Definition retune (cfg : Config) (rung : Z) (e : Event) : Prop :=
  match e with
  | EvCtl host port _ (CtlSetRadio b) =>
      host = probe_host cfg /\ port = probe_port cfg /\ rb_mcs_index b = Z.min 7 (rung + 2)
  | _ => False
  end.

Definition turn_request (cfg : Config) (rung : Z) (e : Event) : Prop :=
  own_request cfg e \/ retune cfg rung e.

(** What a turn may do that begins with [rung] committed. *)
Definition turn_event (cfg : Config) (rung : Z) (e : Event) : Prop :=
  own_event cfg e \/ retune cfg rung e /\ dry_run cfg = false.

Lemma turn_request_of cfg rung e : turn_event cfg rung e -> turn_request cfg rung e.
Proof. intros [[H _]|[H _]]; [by left|by right]. Qed.

Lemma turn_dry cfg rung e : turn_event cfg rung e -> dry_run cfg = true -> dry_event e.
Proof. intros [[_ H]|[_ H]]; [done|congruence]. Qed.

Lemma own_read cfg e : own_request cfg e -> mutates e = false -> own_event cfg e.
Proof. intros H1 H2. split; [done|]. intros _. by destruct e. Qed.

(** Requests that only read. *)
#[local] Hint Extern 1 (own_event _ _) => by apply own_read : performs.

(** ** Steps *)

(** A change of variables the invariant does not mention. *)
Ltac keep_steady :=
  match goal with
  | H : steady _ _ |- steady _ _ =>
      let Hc := fresh in destruct H as [[] Hc]; split; [constructor; assumption|exact Hc]
  end.

Section Steps.
Context {ABI : CAbi} {EV : Env}.

Lemma performs_get_radio (P : Event -> Prop) host port :
  (forall id, P (EvCtl host port id CtlGetRadio)) -> performs P (wfb_get_radio host port).
Proof. intros H. apply performs_bind; [by apply performs_ctl|intros; apply performs_ret]. Qed.

Lemma own_now cfg : performs (own_event cfg) now_us.
Proof. apply performs_now. intros. by apply own_read. Qed.

Lemma own_get_radio cfg host port : performs (own_event cfg) (wfb_get_radio host port).
Proof. apply performs_get_radio. intros. by apply own_read. Qed.

(** *** Observations *)

Lemma observe_frame d b now : exists radio ctrl,
  observe d b now = (d <| d_radio := radio |> <| d_ctrl := ctrl |>) /\
  current ctrl = current (d_ctrl d) /\ have_current ctrl = have_current (d_ctrl d) /\
  radio_mcs radio = rb_mcs_index b.
Proof.
  unfold observe, radio_apply_observation, controller_arm_settle.
  eexists _, _. split; [reflexivity|]. cbv zeta.
  destruct (radio_valid _ && _ && _); [|done]. destruct (_ >? _); by split_and!.
Qed.

Lemma observe_steady cfg d b now : steady cfg d -> steady cfg (observe d b now).
Proof.
  destruct (observe_frame d b now) as (r & c & -> & E1 & E2 & _). intros [[] Hc].
  split; [|exact Hc]. constructor; try done. unfold fec_ok. cbn. by rewrite E1, E2.
Qed.

Lemma sf_clear_steady cfg d : steady cfg d -> steady cfg (sf_clear d).
Proof. intros H. unfold sf_clear. case_bool; keep_steady. Qed.

Lemma sf_note_steady cfg d t now : steady cfg d -> steady cfg (sf_note d t now).
Proof. intros H. unfold sf_note. case_bool; keep_steady. Qed.

(** *** Bitrate and radio writes *)

Lemma own_bitrate_write cfg kbps e :
  dry_run cfg = false -> is_bitrate_write cfg kbps e -> own_event cfg e.
Proof. intros Hd (pl & path & -> & _). split; [done|]. congruence. Qed.

Lemma bitrate_assert_own radio ctrl cfg lw now :
  ensures (own_event cfg) (fun r => current r.1 = current ctrl /\
    have_current r.1 = have_current ctrl) (bitrate_assert radio ctrl cfg lw now).
Proof.
  pose proof (fun w => bitrate_assert_cases radio ctrl cfg lw now w) as H. cbn zeta in H.
  split; intros w; specialize (H w);
    destruct (bitrate_assert radio ctrl cfg lw now w) as [[ctrl' lw'] w']; cbn.
  - destruct H as [(-> & -> & ->)|(_ & _ & _ & _ & _ & _ & _ & _ & _ & Hd & es & E & HF)].
    { exists []. by split. }
    destruct (dry_run cfg) eqn:Er; [destruct (Hd eq_refl) as [-> _]; exists []; by split|].
    exists es. split; [done|]. eapply Forall_impl; [exact HF|]. intros e.
    by apply own_bitrate_write.
  - by destruct H as [(-> & -> & ->)|(_ & _ & _ & _ & _ & _ & _ & _ & -> & _)].
Qed.

Lemma venc_own cfg kbps payload :
  dry_run cfg = false -> performs (own_event cfg) (venc_apply_cfg cfg kbps payload).
Proof.
  intros Hd. eapply performs_weaken; [apply performs_venc_cfg|]. intros e.
  by apply own_bitrate_write.
Qed.

Lemma set_radio_own cfg host port b :
  dry_run cfg = false -> (forall id, own_request cfg (EvCtl host port id (CtlSetRadio b))) ->
  performs (own_event cfg) (wfb_set_radio_at host port b).
Proof.
  intros Hd H. apply performs_bind; [|intros; apply performs_ret]. apply performs_ctl.
  intros id. split; [exact (H id)|congruence].
Qed.

Lemma rung_byte cfg m : limits_ok cfg -> rung_ok cfg m -> u8 m = m.
Proof. intros [[] ? _ _] []. apply u8_small. lia. Qed.

Lemma pre_drop_own cfg radio ctrl lw m now :
  ensures (own_event cfg) (fun r => current r.1 = current ctrl /\
    have_current r.1 = have_current ctrl)
    (commit_mcs_pre_drop_bitrate cfg radio ctrl lw m now).
Proof.
  unfold commit_mcs_pre_drop_bitrate. destruct (_ || _); [by apply ensures_ret|].
  set (ctrl1 := if _ >? _ then _ else ctrl).
  assert (current ctrl1 = current ctrl /\ have_current ctrl1 = have_current ctrl) as [E1 E2]
    by (subst ctrl1; by case_bool).
  clearbody ctrl1. eapply ensures_weaken; [apply bitrate_assert_own|done|].
  intros r. by rewrite E1, E2.
Qed.

Lemma commit_own d cfg m now :
  steady cfg d -> rung_ok cfg m ->
  ensures (own_event cfg) (fun r => steady cfg r.2 /\ d_sel r.2 = d_sel d /\
    (r.1 = 0 \/ r.1 = 1 \/ r.1 = -1)) (daemon_commit d m now).
Proof.
  intros [Hd Hc] Hm. destruct Hd as [L S P R F C B]. unfold daemon_commit, commit_mcs_change.
  rewrite Hc in *. set (body := d_body d <| rb_mcs_index := u8 m |>).
  assert (rb_mcs_index body = m) as Eb by (by apply (rung_byte cfg)).
  cbv zeta. destruct (_ && _ && _) eqn:Ed.
  - bool_hyps. eapply ensures_bind; [|intros r Hr; apply ensures_ret, Hr].
    eapply ensures_bind; [apply pre_drop_own|]. intros [c lw] [E1 E2].
    apply ensures_ret. cbn in *. split; [|by auto]. split; [|exact Hc].
    constructor; cbn; rewrite ?Hc; try done. unfold fec_ok. by rewrite E1, E2.
  - eapply ensures_bind; [|intros r Hr; apply ensures_ret, Hr].
    set (pending := if pd_active _ then _ else _).
    assert (pending_ok cfg pending) as Hp by (subst pending; by destruct (pd_active (d_pending d)) eqn:?).
    set (ctrl := if (_ >? _) && _ && _ then _ else _).
    assert (fec_ok cfg ctrl) as Hf by (subst ctrl; by case_bool).
    clearbody pending ctrl.
    assert (forall rc lw, rc = 0 \/ rc = -1 -> let r := Build_CommitResult rc pending ctrl lw in
      steady cfg (d <| d_pending := cr_pending r |> <| d_ctrl := cr_ctrl r |> <| d_lw := cr_lw r |>) /\
      d_sel d = d_sel d /\ (cr_rc r = 0 \/ cr_rc r = 1 \/ cr_rc r = -1)) as K.
    { intros rc lw Hrc r. split; [|cbn; tauto]. split; [|exact Hc].
      constructor; cbn; rewrite ?Hc; done. }
    destruct (dry_run cfg) eqn:Er; [apply ensures_ret, K; auto|].
    apply ensures_read; [|intros rc; apply ensures_ret, K; case_bool; auto].
    apply set_radio_own; [done|]. intros id. by split_and!; [..|rewrite Eb].
Qed.

(** *** The timed steps *)

Definition keeps (cfg : Config) (m : IO Daemon) : Prop :=
  ensures (own_event cfg) (steady cfg) m.

Lemma keeps_ret cfg d : steady cfg d -> keeps cfg (io_ret d).
Proof. apply ensures_ret. Qed.

Lemma keeps_bind cfg m (f : Daemon -> IO Daemon) :
  keeps cfg m -> (forall d, steady cfg d -> keeps cfg (f d)) -> keeps cfg (io_bind m f).
Proof. apply ensures_bind. Qed.

Lemma keeps_read {A} cfg (m : IO A) f :
  performs (own_event cfg) m -> (forall x, keeps cfg (f x)) -> keeps cfg (io_bind m f).
Proof. apply ensures_read. Qed.

Lemma keeps_now cfg f : (forall t, keeps cfg (f t)) -> keeps cfg (io_bind now_us f).
Proof. apply keeps_read, own_now. Qed.

Lemma steady_pending cfg d p :
  steady cfg d -> pending_ok cfg p -> steady cfg (d <| d_pending := p |>).
Proof. intros [[] Hc] Hp. split; [|exact Hc]. constructor; try done. cbn. by rewrite Hc. Qed.

Lemma pending_tick_own cfg d now : steady cfg d -> keeps cfg (pending_tick d now).
Proof.
  intros H. pose proof H as [[_ _ P _ _ _ _] Hc]. unfold pending_tick.
  destruct (pd_active (d_pending d) && _) eqn:E; [|by apply keeps_ret]. bool_hyps.
  rewrite Hc in *. destruct (P ltac:(done)) as (Hr & Hb & Hd).
  apply keeps_read.
  { apply set_radio_own; [done|]. intros id. by split_and!; [..|rewrite Hb]. }
  intros rc. apply keeps_ret. case_bool.
  - apply steady_pending; [|done]. apply sf_clear_steady, observe_steady. keep_steady.
  - apply steady_pending; [by apply sf_note_steady|]. intros _. by split_and!.
Qed.

Lemma probe_gate_steady cfg d now : steady cfg d -> steady cfg (probe_gate d now).
Proof. intros H. unfold probe_gate. case_bool; [keep_steady|done]. Qed.

Lemma probe_want_rung d : current_mcs (d_sel d) >= 0 ->
  rb_mcs_index (probe_want d) = Z.min 7 (current_mcs (d_sel d) + 2).
Proof.
  intros H. unfold probe_want. cbn. case_bool; rewrite u8_small; lia.
Qed.

(** Ahead of everything that can move the rung. *)
Lemma pending_tick_sel d now w : d_sel (pending_tick d now w).1 = d_sel d.
Proof.
  unfold pending_tick. destruct (_ && _); [|done]. unfold io_bind.
  destruct (wfb_set_radio _ _ _ w) as [rc w']. cbn [io_ret fst]. case_bool.
  - match goal with |- context [observe ?d1 ?b ?t] =>
      destruct (observe_frame d1 b t) as (r & c & -> & _) end.
    unfold sf_clear. by case_bool.
  - unfold sf_note. by case_bool.
Qed.

Lemma probe_retune_own cfg d now : steady cfg d ->
  ensures (turn_event cfg (current_mcs (d_sel d))) (steady cfg) (probe_retune d now).
Proof.
  intros H. pose proof H as [_ Hc]. unfold probe_retune, probe_on. rewrite Hc.
  destruct (_ && _ && _ && _) eqn:E; [|by apply ensures_ret]. bool_hyps.
  destruct (_ || _); [|by apply ensures_ret]. apply ensures_read.
  - apply performs_bind; [|intros; apply performs_ret]. apply performs_ctl. intros id.
    right. split; [|done]. split_and!; [done|done|]. apply probe_want_rung. lia.
  - intros rc. apply ensures_ret. keep_steady.
Qed.

Lemma probe_feed_own cfg d now : steady cfg d -> keeps cfg (probe_feed d now).
Proof.
  intros H. unfold probe_feed. destruct (_ && _ && _ && _); [|by apply keeps_ret].
  apply keeps_read; [|intros pt; apply keeps_ret; keep_steady].
  intros w. case_bool.
  - eexists [_]. split; [reflexivity|]. constructor; [by apply own_read|constructor].
  - exists []. by split.
Qed.

Lemma subscribe_own cfg d now : steady cfg d -> keeps cfg (subscribe_tick d now).
Proof.
  intros H. unfold subscribe_tick. destruct (_ && _); [|by apply keeps_ret].
  apply keeps_read; [apply performs_log; by apply own_read|]. intros _. apply keeps_ret.
  keep_steady.
Qed.

Lemma heartbeat_steady cfg d now : steady cfg d -> steady cfg (heartbeat_tick d now).
Proof. intros H. unfold heartbeat_tick. case_bool; [keep_steady|done]. Qed.

(** A new selector whose rung is what the decision says. *)
Lemma steady_sel cfg d sel :
  steady cfg d -> selector_ok cfg sel -> steady cfg (d <| d_sel := sel |>).
Proof. intros [[] Hc] Hs. split; [|exact Hc]. constructor; try done. cbn. by rewrite Hc. Qed.

Lemma commit_out cfg s t now r :
  mcs_cfg_ok cfg -> selector_ok cfg s ->
  exists m, (selector_commit s cfg t now r).2 = Some m /\ rung_ok cfg m.
Proof.
  intros Hc [_ C _]. destruct (commit_effect_spec s cfg t now r Hc C) as (s' & -> & _).
  exists (clamp_mcs cfg t). split; [done|]. by apply clamp_mcs_range.
Qed.

Lemma tick_out cfg s now :
  mcs_cfg_ok cfg -> selector_ok cfg s ->
  match (selector_tick_no_data s cfg now).2 with Some m => rung_ok cfg m | None => True end.
Proof.
  intros Hc [R C F]. unfold selector_tick_no_data. cbv zeta.
  destruct (expire_changes_spec s cfg now C) as (c & -> & C' & _).
  repeat case_bool; try done.
  match goal with |- context [selector_commit ?s1 _ ?t _ ?r] =>
    destruct (commit_out cfg s1 t now r Hc) as (m & -> & H); [by constructor|exact H] end.
Qed.

Lemma watchdog_decide_ok cfg d now :
  steady cfg d ->
  let '(sel, sd, out) := watchdog_decide d now in
  selector_ok cfg sel /\ match out with Some m => rung_ok cfg m | None => True end.
Proof.
  intros [[[Lm _ _ _] S _ _ _ _ _] Hc]. unfold watchdog_decide. rewrite Hc in *.
  match goal with |- context [if _ && _ then ?a else ?b] =>
    set (first := if _ && _ then a else b) end.
  assert (selector_ok cfg first.1.1 /\
    match first.2 with Some m => rung_ok cfg m | None => True end) as [H1 H2].
  { subst first. destruct (_ && _); [|done]. split; [by apply commit_selector_ok|].
    by edestruct (commit_out cfg (d_sel d)) as (m & -> & H). }
  destruct first as [[sel sd] out]. case_bool_decide; [|done].
  pose proof (Selector.tick_ok cfg sel now Lm H1) as K1. pose proof (tick_out cfg sel now Lm H1) as K2.
  by destruct (selector_tick_no_data sel cfg now) as [[sel' sd'] out'].
Qed.

Lemma adopt_steady cfg d m now : steady cfg d -> steady cfg (adopt_sent d m now).
Proof. intros H. apply sf_clear_steady, observe_steady. keep_steady. Qed.

Lemma watchdog_emit_own cfg d m now :
  steady cfg d -> rung_ok cfg m -> keeps cfg (watchdog_emit d m now).
Proof.
  intros H Hm. unfold watchdog_emit. apply keeps_bind.
  - destruct (_ && _); [|by apply keeps_ret]. apply keeps_read; [apply own_get_radio|].
    intros [b|]; apply keeps_ret; [keep_steady|done].
  - clear d H. intros d H. destruct (_ && _); [|apply keeps_ret; keep_steady].
    eapply ensures_bind; [by apply commit_own|]. intros [rc d'] (H' & _).
    apply keeps_ret. cbn in H'. repeat case_bool; [by apply adopt_steady|done|].
    by apply sf_note_steady.
Qed.

Lemma watchdog_own cfg d now : steady cfg d -> keeps cfg (watchdog_tick d now).
Proof.
  intros H. unfold watchdog_tick. destruct (_ && _); [|by apply keeps_ret].
  pose proof (watchdog_decide_ok cfg d now H) as K.
  destruct (watchdog_decide d now) as [[sel sd] out]. destruct K as [K1 K2].
  pose proof (steady_sel cfg d sel H K1) as H1. apply keeps_bind.
  - destruct out as [m|]; [|by apply keeps_ret]. case_bool; [by apply keeps_ret|].
    by apply watchdog_emit_own.
  - intros d' H'. apply keeps_ret. keep_steady.
Qed.

(** A new bitrate lock and bitrate. *)
Lemma steady_bitrate cfg d ctrl lw :
  steady cfg d -> current ctrl = current (d_ctrl d) /\ have_current ctrl = have_current (d_ctrl d) ->
  steady cfg (d <| d_ctrl := ctrl |> <| d_lw := lw |>).
Proof.
  intros [[] Hc] [E1 E2]. split; [|exact Hc]. constructor; try done.
  unfold fec_ok. cbn. by rewrite E1, E2.
Qed.

Lemma radio_poll_own cfg d now : steady cfg d -> keeps cfg (radio_poll d now).
Proof.
  intros H. unfold radio_poll. destruct (_ && _ && _); [|by apply keeps_ret].
  apply keeps_read; [apply own_get_radio|]. intros got.
  set (d1 := match got with Some b => _ | None => d end).
  assert (steady cfg d1) as H1 by (subst d1; destruct got; [by apply observe_steady|done]).
  clearbody d1. pose proof H1 as [_ Hc]. rewrite Hc.
  eapply ensures_bind; [apply bitrate_assert_own|]. intros [ctrl lw] HE.
  pose proof (steady_bitrate cfg d1 ctrl lw H1 HE) as H2. apply keeps_ret. keep_steady.
Qed.

Lemma csa_tick_own cfg s ccfg now : performs (own_event cfg) (csa_tick s ccfg now).
Proof.
  assert (forall i c h, own_event cfg (EvIwChannel i c h)) as K
    by (by split).
  unfold csa_tick. destruct (cs_st s); repeat case_bool; try apply performs_ret;
    (apply performs_bind; [by apply performs_run_iw|intros; repeat case_bool; apply performs_ret]).
Qed.

Lemma csa_step_own cfg d now :
  steady cfg d -> ensures (own_event cfg) (fun r => steady cfg r.2) (csa_step d now).
Proof.
  intros H. unfold csa_step. case_bool; [|by apply ensures_ret].
  eapply (ensures_bind _ (fun r => csa_ok (d_csa_cfg d) r.2)).
  - split; [apply csa_tick_own|]. intros w. apply Csa.csa_tick_ok, H.
  - intros [dl s] Hs. apply ensures_read; [apply own_now|]. intros t. apply ensures_ret.
    destruct H as [[] Hc]. split; [|exact Hc]. by constructor.
Qed.

(** An own step is a step of any turn. *)
Lemma of_own {A} cfg rung Q (m : IO A) :
  ensures (own_event cfg) Q m -> ensures (turn_event cfg rung) Q m.
Proof. intros H. eapply ensures_weaken; [exact H|by left|done]. Qed.

Lemma gate_sel d now : d_sel (probe_gate d now) = d_sel d.
Proof. unfold probe_gate. by case_bool. Qed.

Lemma loop_timers_own cfg d : steady cfg d ->
  ensures (turn_event cfg (current_mcs (d_sel d))) (fun r => steady cfg r.2) (loop_timers d).
Proof.
  intros H. unfold loop_timers. apply ensures_read; [eapply performs_weaken; [apply own_now|by left]|].
  intros now. eapply (ensures_bind _ (fun d' => steady cfg d' /\ d_sel d' = d_sel d)).
  { apply of_own. destruct (pending_tick_own cfg d now H) as [Hp Hk]. split; [exact Hp|].
    intros w. split; [apply Hk|apply pending_tick_sel]. }
  generalize (d_sel d) as sel. clear d H. intros sel d [H%(probe_gate_steady _ _ now) Es].
  rewrite <- (gate_sel d now) in Es. subst sel.
  eapply ensures_bind; [by apply probe_retune_own|].
  generalize (current_mcs (d_sel (probe_gate d now))) as rung. clear d H. intros rung d H. apply of_own.
  eapply ensures_bind; [by apply probe_feed_own|]. clear d H. intros d H.
  eapply ensures_bind; [by apply subscribe_own|]. clear d H. intros d H%(heartbeat_steady _ _ now).
  eapply ensures_bind; [by apply watchdog_own|]. clear d H. intros d H.
  eapply ensures_bind; [by apply radio_poll_own|]. clear d H. intros d H.
  by apply csa_step_own.
Qed.

(** *** The ground station's stream *)

Lemma update_out cfg s score probe p now :
  mcs_cfg_ok cfg -> selector_ok cfg s ->
  (selector_update s cfg score probe p now).1.2 <> SD_NONE ->
  exists m, (selector_update s cfg score probe p now).2 = Some m /\ rung_ok cfg m.
Proof.
  intros Hc Hs. destruct (Z.ltb_spec (current_mcs s) 0) as [Hn|H0].
  - unfold selector_update. cbv zeta.
    assert (current_mcs (selector_note s p now) = current_mcs s) as ->
      by (unfold selector_note; by repeat case_bool).
    rewrite (proj2 (Z.ltb_lt _ 0)) by done. intros _.
    apply commit_out; [done|]. by apply note_ok.
  - destruct (update_outcome cfg Hc s score probe p now Hs H0) as (s' & d & o & -> & Ho).
    pose proof (noted_rung cfg s score p now) as E. pose proof (so_rung cfg s Hs) as Hr.
    unfold rung_ok. destruct Ho as [|Hd _ _|n Hm _ _ _]; [done|intros _..]; rewrite E in *.
    + pose proof (can_demote_rung cfg _ now Hd). eexists; split; [reflexivity|]. lia.
    + eexists; split; [reflexivity|]. lia.
Qed.

Lemma note_failure_own cfg d t : steady cfg d -> keeps cfg (note_failure d t).
Proof.
  intros H. unfold note_failure. case_bool; [|by apply keeps_ret].
  apply keeps_now. intros now. apply keeps_ret. keep_steady.
Qed.

Lemma realign_own cfg d : steady cfg d -> keeps cfg (realign d).
Proof.
  intros H. unfold realign. destruct (_ && _ && _) eqn:E; [|by apply keeps_ret]. bool_hyps.
  destruct (_ && _); [|by apply keeps_ret]. apply keeps_now. intros now.
  eapply ensures_bind.
  - apply (commit_own _ cfg); [done|]. destruct H as [[_ S _ _ _ _ _] <-].
    destruct (so_rung _ _ S); unfold rung_ok; lia.
  - intros [rc d1] (Hd1 & _). cbn in Hd1.
    case_bool; [|case_bool; [by apply keeps_ret|by apply note_failure_own]].
    apply keeps_now. intros t. apply keeps_ret, sf_clear_steady, observe_steady. keep_steady.
Qed.

Lemma emit_decision_own cfg d snap m :
  steady cfg d -> selector_ok cfg snap -> rung_ok cfg m ->
  keeps cfg (emit_decision d snap m).
Proof.
  intros H Hs Hm. unfold emit_decision. apply keeps_bind.
  { case_bool; [by apply keeps_ret|]. apply keeps_read; [apply own_get_radio|].
    intros [b|]; apply keeps_ret; [keep_steady|done]. }
  clear d H. intros d H. case_bool; [by apply keeps_ret, steady_sel|].
  apply keeps_now. intros now. eapply ensures_bind; [by apply commit_own|].
  intros [rc d1] (H1 & _). cbn in H1.
  case_bool; [by apply note_failure_own, steady_sel|]. case_bool; [by apply keeps_ret|].
  apply keeps_read; [apply own_get_radio|]. intros fresh.
  apply keeps_now. intros t. apply keeps_ret, observe_steady.
  apply sf_clear_steady in H1. keep_steady.
Qed.

Lemma decide_own cfg d score now : steady cfg d -> keeps cfg (decide_mcs d score now).
Proof.
  intros H. pose proof H as [[[Lm _ _ _] S _ _ _ _ _] Hc]. unfold decide_mcs. rewrite Hc in *.
  pose proof (update_ok cfg (d_sel d) score (d_probe d) (tr_in_pressure (d_tr d)) now Lm S) as K.
  pose proof (update_out cfg (d_sel d) score (d_probe d) (tr_in_pressure (d_tr d)) now Lm S) as O.
  destruct (selector_update _ _ _ _ _ _) as [[sel sd] out]. cbn in K, O.
  pose proof (steady_sel cfg d sel H K) as H1. case_bool_decide; [by apply realign_own|].
  destruct (O ltac:(done)) as (m & -> & Hm). cbn [default].
  case_bool; [apply keeps_ret; keep_steady|by apply emit_decision_own].
Qed.

Lemma ingest_length p text now :
  length (ps_rung p) = 16%nat -> length (ps_rung (ingest_probe p text now)) = 16%nat.
Proof. intros H. unfold ingest_probe. case_bool; [|done]. cbn. by rewrite length_insert. Qed.

Lemma on_text_own cfg d text : steady cfg d -> keeps cfg (on_text d text).
Proof.
  intros H. unfold on_text. case_bool.
  { apply keeps_now. intros now. apply keeps_ret. destruct H as [[] Hc]. split; [|exact Hc].
    constructor; try done. by apply ingest_length. }
  destruct (parse_report text) as [[r|]|]; try by apply keeps_ret.
  apply keeps_now. intros now. destruct (score_report _ _ _ _ _) as [sc [score|]].
  - apply decide_own. keep_steady.
  - apply keeps_ret. keep_steady.
Qed.

Lemma steady_csa cfg d s :
  steady cfg d -> csa_ok (d_csa_cfg d) s -> steady cfg (d <| d_csa := s |>).
Proof. intros [[] Hc] Hs. split; [|exact Hc]. by constructor. Qed.

Lemma on_report_own cfg now d text : steady cfg d -> keeps cfg (on_report now d text).
Proof.
  intros H. unfold on_report. case_bool; [|by apply on_text_own].
  pose proof (feed_ok (d_csa_cfg d) (d_csa d) text (now / 1000) (dk_csa d (proj1 H))) as K.
  destruct (csa_feed _ _ _ _) as [consumed s]. cbn in K.
  case_bool; [by apply keeps_ret, steady_csa|]. apply on_text_own, steady_csa; [done|].
  by apply alive_ok.
Qed.

(** *** The other sockets *)

Lemma on_stats_own cfg d g : steady cfg d -> keeps cfg (on_stats d g).
Proof.
  intros H. unfold on_stats. apply keeps_now. intros now. pose proof H as [_ Hc]. rewrite Hc.
  eapply (ensures_bind _ (fun r => current (ss_ctrl r.2) = current (d_ctrl d) /\
    have_current (ss_ctrl r.2) = have_current (d_ctrl d))).
  - unfold wfb_stats_handle_datagram. case_bool; [by apply ensures_ret|].
    destruct (tx_stats_radio _) as [b|]; [|by apply ensures_ret].
    pose proof (observe_frame d b now) as (r & c & E & E1 & E2 & _).
    unfold observe in E. rewrite Hc in E. cbn [ss_radio ss_ctrl].
    destruct (radio_apply_observation _ _ _ _ _ _ _ _ _ _ _) as [r' c'].
    assert (c' = c) as ->.
    { change (d_ctrl (d <| d_radio := r' |> <| d_ctrl := c' |>) = c). by rewrite E. }
    eapply ensures_bind; [apply bitrate_assert_own|]. intros [c2 lw2] [K1 K2].
    apply ensures_ret. cbn in *. by rewrite K1, K2, E1, E2.
  - intros [rc st] [E1 E2]. cbn in E1, E2.
    set (d1 := _ <| d_stats_seq := _ |>).
    assert (steady cfg d1) as H1.
    { subst d1. destruct H as [[] ?]. split; [|done]. constructor; try done.
      unfold fec_ok. cbn. by rewrite E1, E2. }
    clearbody d1. clear dependent d. case_bool; [by apply keeps_ret|].
    apply keeps_now. intros t. apply keeps_ret. keep_steady.
Qed.

Lemma stale_own cfg d : steady cfg d -> keeps cfg (stale_tick d).
Proof.
  intros H. unfold stale_tick. destruct (_ && _ && _); [|by apply keeps_ret].
  apply keeps_now. intros t. apply keeps_ret. case_bool; [keep_steady|done].
Qed.

Lemma on_uplink_own cfg d g : steady cfg d -> keeps cfg (on_uplink d g).
Proof.
  intros H. unfold on_uplink. case_bool; [by apply keeps_ret|].
  destruct (parse_report _) as [[r|]|]; try by apply keeps_ret.
  apply keeps_now. intros now. destruct (score_report _ _ _ _ _) as [sc [score|]].
  - apply keeps_now. intros t. apply keeps_ret. keep_steady.
  - apply keeps_ret. keep_steady.
Qed.

Lemma recovery_own cfg st req now : performs (own_event cfg) (recovery_dispatch cfg st req now).
Proof.
  unfold recovery_dispatch. repeat (case_bool; [apply performs_ret|]). cbv zeta.
  apply performs_bind; [|intros; apply performs_ret]. apply performs_recovery_cmd.
  split; [done|congruence].
Qed.

Lemma on_recovery_own cfg d g : steady cfg d -> keeps cfg (on_recovery d g).
Proof.
  intros H. unfold on_recovery. destruct (req_decode _) as [req|]; [|by apply keeps_ret].
  case_bool; [by apply keeps_ret|]. apply keeps_now. intros now.
  pose proof H as [_ Hc]. rewrite Hc. apply keeps_read; [apply recovery_own|]. intros [resp rv].
  apply keeps_read; [apply performs_log; by apply own_read|]. intros _.
  apply keeps_ret. keep_steady.
Qed.

(** *** The sidecar *)

Lemma transport_own cfg d buf :
  steady cfg d -> ensures (own_event cfg) (fun r => steady cfg r.2) (transport_info d buf).
Proof.
  intros H. unfold transport_info. destruct (_ && _); [|by apply ensures_ret].
  apply ensures_read; [apply own_now|]. intros now. apply ensures_ret. cbn [snd]. keep_steady.
Qed.

Lemma on_skip_own cfg d : steady cfg d -> keeps cfg (on_skip d).
Proof.
  intros H. unfold on_skip. cbv zeta.
  set (d1 := d <| d_tr := _ |>). assert (steady cfg d1) as H1 by (subst d1; keep_steady).
  clearbody d1. clear dependent d. pose proof H1 as [_ Hc]. rewrite Hc.
  destruct (_ && _ && _ && _ && _) eqn:E; [|by apply keeps_ret]. bool_hyps.
  apply keeps_now. intros now.
  generalize (if tr_skip_since_us (d_tr d1) =? 0 then d_tr d1 <| tr_skip_since_us := now |>
              else d_tr d1) as tr. intros tr. destruct (_ && _).
  - apply keeps_read; [by apply venc_own|]. intros _. apply keeps_ret. keep_steady.
  - apply keeps_ret. keep_steady.
Qed.

Lemma set_fec_own cfg p :
  limits_ok cfg -> fec_pair_ok cfg p -> dry_run cfg = false ->
  performs (own_event cfg) (wfb_send_set_fec (wfb_host cfg) (wfb_port cfg) (fp_k p) (fp_n p)).
Proof.
  intros [_ _ Lf Lb] Hp Hd. apply performs_set_fec. intros id. split; [|congruence].
  unfold fec_windows_ok in Lf. unfold fec_pair_ok in Hp. cbn.
  rewrite !u8_small by lia. split_and!; [done|done|lia..].
Qed.

Lemma update_fec_ok c cfg size ring now fps kbps :
  fec_windows_ok cfg -> headroom_ring_ok ring -> fec_ok cfg c ->
  let '(c', ring', out) := controller_update c cfg size ring now fps kbps in
  headroom_ring_ok ring' /\ fec_ok cfg c' /\
  match out with Some p => fec_pair_ok cfg p | None => True end.
Proof.
  intros Hw Hr Hf. unfold controller_update.
  destruct (controller_measure c cfg size ring now) as [c1 ring1] eqn:Em.
  pose proof (measure_ring_ok _ _ _ _ _ _ _ Em Hr) as Hr1.
  destruct (controller_candidate c1 cfg ring1 fps kbps) as [cand ff] eqn:Ec.
  assert (fec_pair_ok cfg cand) as Hk.
  { unfold controller_candidate in Ec. injection Ec as <- _. by apply fec_pair_in_windows. }
  pose proof (decide_emits c1 cfg cand ff now kbps) as He.
  pose proof (decide_emits_candidate c1 cfg cand ff now kbps) as Hp.
  destruct (controller_decide c1 cfg cand ff now kbps) as [c2 out]. cbn in He, Hp.
  apply (measure_emits _ _ _ _ _ _ _ _ _ Em) in He. split; [done|]. destruct out as [p|].
  - rewrite (Hp p eq_refl) in *. destruct He as (E1 & E2 & _). split; [|done].
    intros _. by rewrite E1.
  - destruct He as (E1 & E2 & _). split; [|done]. unfold fec_ok. by rewrite E1, E2.
Qed.

Lemma on_frame_own cfg d size : steady cfg d -> keeps cfg (on_frame d size).
Proof.
  intros H. unfold on_frame. cbv zeta.
  set (d1 := d <| d_tr := _ |>). assert (steady cfg d1) as H1 by (subst d1; keep_steady).
  clearbody d1. clear dependent d. apply keeps_now. intros now.
  pose proof H1 as [[L S P R F C B] Hc]. rewrite Hc in *.
  pose proof (update_fec_ok (d_ctrl d1) cfg size (d_ring d1) now (fps_get (d_fps d1))
    (lw_kbps (d_lw d1)) (lo_fec cfg L) R F) as K.
  destruct (controller_update _ _ _ _ _ _ _) as [[ctrl ring] out].
  destruct K as (K1 & K2 & K3). set (d2 := d1 <| d_ctrl := ctrl |> <| d_ring := ring |>).
  assert (steady cfg d2) as H2 by (split; [constructor; cbn; rewrite ?Hc; done|exact Hc]).
  clearbody d2. clear dependent d1. destruct out as [p|]; [|by apply keeps_ret].
  apply keeps_bind.
  - pose proof H2 as [_ Hc]. rewrite Hc. case_bool; [by apply keeps_ret|].
    apply keeps_read; [by apply set_fec_own|]. intros rc. apply keeps_ret.
    case_bool; [done|keep_steady].
  - clear d2 H2. intros d H. pose proof H as [_ Hc]. rewrite Hc.
    eapply ensures_bind; [apply bitrate_assert_own|]. intros [c lw] HE.
    by apply keeps_ret, steady_bitrate.
Qed.

Lemma on_sidecar_own cfg d g : steady cfg d -> keeps cfg (on_sidecar d g).
Proof.
  intros H. unfold on_sidecar. cbv zeta. case_bool; [by apply keeps_ret|].
  eapply ensures_bind; [apply transport_own; keep_steady|]. clear d H. intros [skip d] H.
  cbn in H. destruct (_ || _); [by apply keeps_ret|]. case_bool; [by apply keeps_ret|].
  case_bool; [by apply on_skip_own|by apply on_frame_own].
Qed.

(** *** Commands *)

Lemma log_rel_dry start : performs dry_event (log_rel_s start).
Proof. apply performs_bind; [by apply performs_now|intros; apply performs_ret]. Qed.

Lemma action_dry px req resp now v :
  dry_run (px_cfg px) = true -> performs dry_event (dispatch_action px req resp now v).
Proof.
  intros Hd. unfold dispatch_action. cbv zeta.
  case_bool; [apply performs_ret|].
  case_bool.
  { unfold dispatch_peek. rewrite Hd. apply performs_bind; intros; [|destruct x]; apply performs_ret. }
  case_bool.
  { unfold dispatch_txpower. rewrite Hd. apply performs_bind; [|intros []; apply performs_ret].
    destruct (txpower_iface _); apply performs_ret. }
  case_bool.
  { unfold dispatch_wfb. rewrite Hd. apply performs_bind; intros; [|destruct x]; apply performs_ret. }
  unfold dispatch_venc. rewrite Hd. apply performs_bind; [|intros [? []]; apply performs_ret].
  destruct (wcmd_build_path _ _); apply performs_ret.
Qed.

(** In a dry run a command reads nothing and changes nothing outside but the log. *)
Lemma dispatch_dry start px req peer now :
  dry_run (px_cfg px) = true -> performs dry_event (wcmd_dispatch start px req peer now).
Proof.
  intros Hd. unfold wcmd_dispatch. cbv zeta.
  destruct (negb (cmd_enabled _)); [apply performs_ret|].
  destruct (cmd_loopback_only _ && _); [apply performs_ret|].
  destruct (_ || _); [apply performs_ret|].
  destruct (_ =? WCMD_KEY_LOG_SYNC).
  { apply performs_bind; [|intros []; apply performs_ret]. unfold dispatch_log_sync. cbv zeta.
    destruct (is_burst_dup _ _ _); [apply performs_ret|].
    apply performs_bind; [apply log_rel_dry|intros; apply performs_ret]. }
  destruct (_ =? WCMD_KEY_LOG_CONTROL).
  { apply performs_bind; [|intros []; apply performs_ret]. unfold dispatch_log_control. cbv zeta.
    destruct (is_burst_dup _ _ _); [apply performs_ret|].
    apply performs_bind; [by apply performs_log|intros; apply performs_ret]. }
  destruct (negb _); [apply performs_ret|].
  destruct (is_burst_dup _ _ _); [apply performs_ret|].
  destruct (_ =? WCMD_KEY_RETURN_APFPV).
  { apply performs_bind; [|intros []; apply performs_ret]. unfold dispatch_return_apfpv.
    cbv zeta. rewrite Hd. destruct (_ || _); apply performs_ret. }
  unfold dispatch_operator. cbv zeta.
  destruct (_ && cmd_tx_pwr_by_rate _); [apply performs_ret|].
  destruct (wcmd_clamp_value _ _ _) as [rc v]. destruct (rc <? 0); [apply performs_ret|].
  destruct (_ && _ && _); [apply performs_ret|]. by apply action_dry.
Qed.

Lemma switched_ok d cfg : daemon_ok d -> switched_from (d_cfg d) cfg -> daemon_ok (d <| d_cfg := cfg |>).
Proof.
  intros [[] [] ? ? ? ? ?] (fe & me & ->). constructor; try done; constructor; done.
Qed.

Lemma write_through_own cfg d : steady cfg d -> keeps cfg (write_through d).
Proof.
  intros H. unfold write_through. cbv zeta. set (wb := ws_radio_written_body _).
  set (d1 := _ <| d_pending := _ |>). assert (steady cfg d1) as H1.
  { subst d1. apply steady_pending; [keep_steady|]. destruct H as [[_ _ P _ _ _ _] <-].
    unfold carry_pending. cbn. destruct (pd_active (d_pending d)) eqn:E; [|intros ?; congruence].
    intros _. destruct (P E) as (Hp1 & Hp2 & Hp3). by split_and!. }
  clearbody d1 wb. apply keeps_bind.
  - case_bool; [|by apply keeps_ret]. apply keeps_now. intros now.
    pose proof H1 as [[[Lm _ _ _] S _ _ _ _ _] Hc]. rewrite Hc in *.
    match goal with |- context [selector_commit ?s _ ?t _ ?r] =>
      pose proof (commit_selector_ok cfg s t now r Lm S) as K;
      destruct (selector_commit s cfg t now r) as [[sel sd] out] end.
    apply keeps_ret. pose proof (steady_sel cfg d1 sel H1 K). keep_steady.
  - intros d2 H2. apply keeps_now. intros t. by apply keeps_ret, observe_steady.
Qed.

(** *** Whole turns *)

Definition guarded (dry : bool) (e : Event) : Prop := dry = true -> dry_event e.
Definition sound (dry : bool) (d : Daemon) : Prop := daemon_ok d /\ dry_run (d_cfg d) = dry.

Lemma keeps_runs {A} cfg (m : IO A) (f : A -> Daemon) :
  ensures (own_event cfg) (fun r => steady cfg (f r)) m ->
  ensures (guarded (dry_run cfg)) (fun r => sound (dry_run cfg) (f r)) m.
Proof.
  intros H. eapply ensures_weaken; [exact H|by intros e []|]. intros x [Hx <-]. done.
Qed.

Lemma timers_runs dry d : sound dry d ->
  ensures (guarded dry) (fun r => sound dry r.2) (loop_timers d).
Proof.
  intros [Hd <-]. eapply ensures_weaken; [by apply (loop_timers_own (d_cfg d))| |].
  - intros e He. unfold guarded. by eapply turn_dry.
  - by intros x [Hx <-].
Qed.

(** A step that keeps the configuration, in the form the loop uses. *)
Lemma step_runs dry (f : Daemon -> IO Daemon) :
  (forall cfg d, steady cfg d -> keeps cfg (f d)) ->
  forall d, sound dry d -> ensures (guarded dry) (sound dry) (f d).
Proof.
  intros H d [Hd <-]. apply (keeps_runs _ _ (fun d => d)). by apply H.
Qed.

Lemma dispatch_ensures start px req peer now :
  ensures (guarded (dry_run (px_cfg px))) (fun r => switched_from (px_cfg px) (px_cfg r.2))
    (wcmd_dispatch start px req peer now).
Proof.
  split.
  - destruct (dry_run (px_cfg px)) eqn:Hd.
    + eapply performs_weaken; [by apply dispatch_dry|]. by intros e H _.
    + intros w. destruct (dispatch_yields start px req peer now w) as (es & E & _).
      exists es. split; [done|]. by apply List.Forall_forall.
  - intros w. destruct (dispatch_yields start px req peer now w)
      as (es & _ & _ & _ & [-> | [_ ?]] & _); [apply switched_refl|done].
Qed.

Lemma on_command_runs start dry d req from :
  sound dry d -> ensures (guarded dry) (sound dry) (on_command start d req from).
Proof.
  intros [Hd <-]. unfold on_command.
  apply ensures_read; [by apply performs_now|]. intros now.
  eapply ensures_bind; [apply (dispatch_ensures start (Build_Proxy (d_cfg d) (d_wcmd d) (d_sync d)))|].
  intros [[rc resp] px] Hs. cbn [px_cfg snd] in Hs. change ((rc, resp, px).2) with px in Hs.
  apply ensures_read; [by apply performs_log|]. intros _. cbv zeta.
  set (d1 := _ <| d_sync := px_sync px |>).
  assert (daemon_ok d1) as H1 by (subst d1; destruct (switched_ok d _ Hd Hs); by constructor).
  assert (dry_run (d_cfg d1) = dry_run (d_cfg d)) as H2
    by (subst d1; cbn; by destruct Hs as (? & ? & ->)).
  clearbody d1. rewrite <- H2. case_bool; [|by apply ensures_ret].
  apply (keeps_runs _ _ (fun d => d)). by apply write_through_own.
Qed.

(** *** The API *)

(** The command of [/cmd], run on the daemon's variables. *)
Lemma api_cmd_runs start dry d qs :
  sound dry d -> ensures (guarded dry) (sound dry) (api_cmd start d qs).
Proof.
  intros [Hd <-]. unfold api_cmd. destruct (cmd_params qs) as [[key v]|]; [|by apply ensures_ret].
  apply ensures_read; [by apply performs_now|]. intros now.
  eapply ensures_bind; [apply (dispatch_ensures start (Build_Proxy (d_cfg d) (d_wcmd d) (d_sync d)))|].
  intros [[rc resp] px] Hs. cbn [px_cfg snd] in Hs. change ((rc, resp, px).2) with px in Hs.
  apply ensures_ret. split; [|cbn; by destruct Hs as (? & ? & ->)].
  destruct (switched_ok d _ Hd Hs). by constructor.
Qed.

Definition route (req : string) : string := default "" (fst <$> request_target req).

(** The request rewrites tunables. *)
Definition tunes (req : string) : bool := String.eqb (route req) "/set".

(** The request does something else than ask. *)
Definition acts (req : string) : bool :=
  bool_decide (route req ∈ ["/set"; "/cmd"; "/log/start"; "/log/stop"]).

Lemma api_runs start dry d req :
  tunes req = false -> sound dry d ->
  ensures (guarded dry) (sound dry) (api_handle_request start d req).
Proof.
  unfold tunes, route, api_handle_request. intros Ht Hd.
  destruct (request_target req) as [[path qs]|]; [|by apply ensures_ret]. cbn in Ht.
  rewrite Ht. case_bool; [by apply api_cmd_runs|].
  case_bool; [apply ensures_read; [by apply performs_log|intros _; by apply ensures_ret]|].
  case_bool; [apply ensures_read; [by apply performs_log|intros _; by apply ensures_ret]|].
  by apply ensures_ret.
Qed.

Lemma api_inert start d req : acts req = false -> api_handle_request start d req = io_ret d.
Proof.
  unfold acts, route, api_handle_request. intros Ha%bool_decide_eq_false.
  destruct (request_target req) as [[path qs]|]; [|done]. cbn in Ha.
  rewrite !not_elem_of_cons in Ha. destruct Ha as (H1 & H2 & H3 & H4 & _).
  by rewrite !(proj2 (String.eqb_neq _ _)).
Qed.

Lemma api_ensures (P : Event -> Prop) (Q : Daemon -> Prop) start n d reqs :
  (forall req d, In req reqs -> Q d -> ensures P Q (api_handle_request start d req)) ->
  Q d -> ensures P (fun r => Q r.2) (api_service start n d reqs).
Proof.
  revert n d. induction reqs as [|req reqs IH]; intros [|n] d Hf Hd; cbn [api_service];
    try (by apply ensures_ret).
  eapply ensures_bind; [apply Hf; [by left|done]|]. intros d' Hd'. apply IH; [|done].
  intros r d2 Hr. apply Hf. by right.
Qed.

Lemma drain_ensures {D} (P : Event -> Prop) (Q : D -> Prop) f n q d :
  (forall d g, In g q -> Q d -> ensures P Q (f d g)) -> Q d ->
  ensures P (fun r => Q r.2) (drain f n q d).
Proof.
  revert q d. induction n as [|n IH]; intros q d Hf Hd; cbn [drain]; [by apply ensures_ret|].
  destruct q as [|g q]; [by apply ensures_ret|]. destruct (dg_bytes g); [by apply ensures_ret|].
  eapply ensures_bind; [apply Hf; [by left|done]|]. intros d' Hd'. apply IH; [|done].
  intros d2 g2 Hg. apply Hf. by right.
Qed.

Lemma on_rx_ant_runs start now dry d g :
  sound dry d -> ensures (guarded dry) (sound dry) (on_rx_ant start now d g).
Proof.
  intros H. unfold on_rx_ant. case_bool; [by apply ensures_ret|].
  destruct (command_of g); [by apply on_command_runs|].
  revert d H. apply step_runs. intros. by apply on_report_own.
Qed.

(** A drained queue without commands: the configuration stays. *)
Lemma on_rx_ant_own start now cfg d g :
  command_of g = None -> steady cfg d -> keeps cfg (on_rx_ant start now d g).
Proof.
  intros Hg H. unfold on_rx_ant. case_bool; [by apply keeps_ret|]. rewrite Hg.
  by apply on_report_own.
Qed.

(** One turn from its parts. *)
Lemma loop_ensures (P : Event -> Prop) (Q : Daemon -> Prop) start q d :
  ensures P (fun r => Q r.2) (loop_timers d) ->
  (forall req d, In req (sk_api q) -> Q d -> ensures P Q (api_handle_request start d req)) ->
  (forall g d, Q d -> ensures P Q (on_stats d g)) ->
  (forall d, Q d -> ensures P Q (stale_tick d)) ->
  (forall g d, Q d -> ensures P Q (on_uplink d g)) ->
  (forall g d, Q d -> ensures P Q (on_recovery d g)) ->
  (forall now g d, In g (sk_rx_ant q) -> Q d -> ensures P Q (on_rx_ant start now d g)) ->
  (forall g d, Q d -> ensures P Q (on_sidecar d g)) ->
  ensures P (fun r => Q r.2) (loop_body start d q).
Proof.
  intros Ht Ha Hst Hs Hu Hr Hx Hc. unfold loop_body, loop_inputs.
  eapply ensures_bind; [exact Ht|]. clear d Ht. intros [[now next] d] H.
  eapply ensures_bind; [by apply api_ensures|]. clear d H. intros [q0 d] H.
  eapply ensures_bind; [by apply drain_ensures; auto|]. clear d H. intros [q1 d] H.
  eapply ensures_bind; [by apply Hs|]. clear d H. intros d H.
  eapply ensures_bind; [by apply drain_ensures; auto|]. clear d H. intros [q2 d] H.
  eapply ensures_bind; [by apply drain_ensures; auto|]. clear d H. intros [q3 d] H.
  eapply ensures_bind; [by apply drain_ensures; auto|]. clear d H. intros [q4 d] H.
  eapply ensures_bind; [by apply drain_ensures; auto|]. clear d H. intros [q5 d] H.
  by apply ensures_ret.
Qed.

Lemma loop_runs start dry d q :
  Forall (fun r => tunes r = false) (sk_api q) -> sound dry d -> ensures (guarded dry) (fun r => sound dry r.2) (loop_body start d q).
Proof.
  intros Hq H0. rewrite List.Forall_forall in Hq. apply loop_ensures; intros.
  - by apply timers_runs.
  - apply api_runs; auto.
  - revert d0 H. apply step_runs. intros. by apply on_stats_own.
  - revert d0 H. apply step_runs. intros. by apply stale_own.
  - revert d0 H. apply step_runs. intros. by apply on_uplink_own.
  - revert d0 H. apply step_runs. intros. by apply on_recovery_own.
  - by apply on_rx_ant_runs.
  - revert d0 H. apply step_runs. intros. by apply on_sidecar_own.
Qed.

(** No operator is at work in this turn. *)
Definition unattended (q : Sockets) : Prop :=
  Forall (fun g => command_of g = None) (sk_rx_ant q) /\
  Forall (fun r => acts r = false) (sk_api q).

Lemma loop_own start cfg d q :
  unattended q -> steady cfg d ->
  ensures (turn_event cfg (current_mcs (d_sel d))) (fun r => steady cfg r.2) (loop_body start d q).
Proof.
  intros [Hq Ha] H0. rewrite List.Forall_forall in Hq, Ha.
  apply loop_ensures; [by apply loop_timers_own|intros; apply of_own..].
  - rewrite api_inert by auto. by apply ensures_ret.
  - by apply on_stats_own.
  - by apply stale_own.
  - by apply on_uplink_own.
  - by apply on_recovery_own.
  - apply on_rx_ant_own; auto.
  - by apply on_sidecar_own.
Qed.

(** *** Startup *)

Lemma daemon_init_ok cfg ccfg boot : limits_ok cfg -> daemon_ok (daemon_init cfg ccfg boot).
Proof.
  intros H. constructor; try done.
  destruct (selector_init_ok cfg). by constructor.
Qed.

Definition boot_config (cfg : Config) : Config :=
  if negb (mcs_enabled (cfg_mcs cfg)) && cmd_enabled (cfg_cmd cfg)
  then cfg <| cfg_cmd := ((cfg_cmd cfg) <| cmd_enabled := false |>) |> else cfg.

Lemma boot_own cfg ccfg : limits_ok cfg -> keeps (boot_config cfg) (daemon_boot cfg ccfg).
Proof.
  intros H. assert (limits_ok (boot_config cfg)) as Hl
    by (unfold boot_config; case_bool; [destruct H; by constructor|done]).
  unfold daemon_boot. fold (boot_config cfg). generalize dependent (boot_config cfg).
  clear cfg H. intros cfg Hl. cbv zeta. apply keeps_read.
  { case_bool; [apply own_get_radio|apply performs_ret]. }
  intros body. apply keeps_now. intros boot.
  assert (steady cfg (daemon_init cfg ccfg boot)) as H by (split; [by apply daemon_init_ok|done]).
  revert H. generalize (daemon_init cfg ccfg boot) as d. intros d H. apply keeps_bind.
  { destruct body; [|by apply keeps_ret]. apply keeps_now. intros t.
    apply keeps_ret, observe_steady. keep_steady. }
  clear d H. intros d H. apply keeps_read.
  { destruct (_ && _ && _) eqn:E; [|apply performs_ret]. bool_hyps. by apply venc_own. }
  intros _. apply keeps_now. intros t1. apply keeps_now. intros t2. apply keeps_read.
  { case_bool; [|apply performs_ret]. apply performs_bind; [apply own_now|intros; apply performs_ret]. }
  intros wd. apply keeps_ret. keep_steady.
Qed.

(** *** Every run *)

(** The states the daemon can be in: after startup, and after any number of turns with
    any datagrams in its sockets and any API requests but [/set]. *)
Inductive daemon_reach (start : Z) : Daemon -> Prop :=
| daemon_reach_boot cfg ccfg w :
    limits_ok cfg -> csa_boot cfg = Some ccfg -> daemon_reach start (daemon_boot cfg ccfg w).1
| daemon_reach_turn d q w :
    daemon_reach start d -> Forall (fun r => tunes r = false) (sk_api q) ->
    daemon_reach start (loop_body start d q w).1.2.

Lemma reach_ok start d : daemon_reach start d -> daemon_ok d.
Proof.
  induction 1 as [cfg ccfg w Hl _|d q w _ IH Hq]; [apply (boot_own cfg ccfg Hl)|].
  by apply (loop_runs start (dry_run (d_cfg d)) d q Hq).
Qed.

(** (C1) Whatever arrives on its sockets, operator commands included, and whatever its peers
    answer, as long as no tunable is rewritten, the daemon never leaves its invariant: the committed rung and any deferred one stay in
    the configured range, the FEC pair in its windows, both rings well formed, an armed
    channel switch within the allow lists. *)
Theorem daemon_invariant start d : daemon_reach start d -> daemon_ok d.
Proof. apply reach_ok. Qed.

(** (C3) A turn without operator commands, from the ground or the API, sends nothing out of range:
    a SET_RADIO goes to the video transmitter with a permitted rung, or to the probe with two
    rungs above the one committed when the turn began, at most 7; a SET_FEC goes to the video
    transmitter with k and n each in its window and k below n; HTTP goes to the encoder only,
    and TX power, peek and the log are left alone. *)
Theorem own_requests_in_range start d q w :
  daemon_reach start d -> unattended q ->
  exists es, w_trace (loop_body start d q w).2 = (es ++ w_trace w)%list /\
    Forall (turn_request (d_cfg d) (current_mcs (d_sel d))) es.
Proof.
  intros Hd%reach_ok Hq.
  destruct (loop_own start (d_cfg d) d q Hq (conj Hd eq_refl)) as [Hp _].
  destruct (Hp w) as (es & E & HF). exists es. split; [done|].
  eapply Forall_impl; [exact HF|]. apply turn_request_of.
Qed.

(** (C5) A dry run changes nothing: under any input, operator commands included (but no rewriting
    of tunables, which can end the dry run), no turn
    writes to the transmitter or the encoder or runs a hook; what remains are readings,
    replies, the log switch and the channel-switch machine. *)
Theorem dry_run_inert start d q w :
  daemon_ok d -> dry_run (d_cfg d) = true ->
  Forall (fun r => tunes r = false) (sk_api q) ->
  exists es, w_trace (loop_body start d q w).2 = (es ++ w_trace w)%list /\ Forall dry_event es.
Proof.
  intros Hd Hr Hq. destruct (loop_runs start true d q Hq (conj Hd Hr)) as [Hp _].
  destruct (Hp w) as (es & E & HF). exists es. split; [done|].
  eapply Forall_impl; [exact HF|]. intros e He. by apply He.
Qed.
End Steps.

(** ** Concrete runs *)

Definition bytes_of (s : string) : list Z := map code (list_ascii_of_string s).

Definition reception_report : Dgram := Build_Dgram 0 (bytes_of (
  "{" +:+ field "type" (quoted "rx_ant") +:+ "," +:+ field "ver" "1" +:+ "," +:+
  field "pkt" ("{" +:+ field "uniq" "100" +:+ "," +:+ field "lost" "0" +:+ "},") +:+
  report_sample +:+ "}")).

Definition command (seq key value : Z) : Dgram :=
  Build_Dgram INADDR_LOOPBACK (req_encode (wcmd_req seq key value)).

(** A daemon that has been on rung 4 and knows what the radio carries. *)
Definition flying : Daemon :=
  let d := daemon_init config_defaults (Build_CsaCfg "" [] [] 0 false) 1 in
  d <| d_sel := ((d_sel d) <| current_mcs := 4 |>) |>
    <| d_body := Build_RadioBody 1 1 0 20 4 0 1 |> <| d_body_valid := true |>.


Definition socks (rx_ant : list Dgram) : Sockets := Build_Sockets [] [] [] [] rx_ant [].

(** A request without headers. *)
Definition http_get_line (target : string) : string := "GET " +:+ target +:+ " HTTP/1.0" +:+ CRLF.

Definition api_socks (targets : list string) (rx_ant : list Dgram) : Sockets :=
  Build_Sockets (map http_get_line targets) [] [] [] rx_ant [].

Lemma limits_defaults : limits_ok config_defaults.
Proof. constructor; vm_compute; intuition discriminate. Qed.

(** Startup with the default configuration against peers that accept everything. *)
Definition booted : Daemon :=
  (@daemon_boot peer_ok config_defaults (Build_CsaCfg "" [] [] 0 false) world_init).1.

Lemma booted_reach : @daemon_reach abi_lp64 peer_ok 0 booted.
Proof. apply (@daemon_reach_boot abi_lp64 peer_ok); [exact limits_defaults|reflexivity]. Qed.

Lemma daemon_invariant_witness :
  daemon_ok (@loop_body abi_lp64 peer_ok 0 booted
    (api_socks ["/cmd?key=8&value=40"; "/status"]
       [reception_report; command 1 WCMD_KEY_WFB_MCS 3]) world_init).1.2.
Proof.
  apply (@daemon_invariant abi_lp64 peer_ok 0). apply daemon_reach_turn.
  - exact booted_reach.
  - repeat constructor; vm_compute; reflexivity.
Defined.

Lemma own_requests_in_range_witness :
  exists es, w_trace (@loop_body abi_lp64 peer_ok 0 booted (socks [reception_report]) world_init).2
    = (es ++ [])%list /\ Forall (turn_request (d_cfg booted) (current_mcs (d_sel booted))) es.
Proof.
  apply (@own_requests_in_range abi_lp64 peer_ok 0 booted (socks [reception_report]) world_init).
  - exact booted_reach.
  - split; [constructor; [vm_compute; reflexivity|constructor]|constructor].
Defined.

Definition grounded : Daemon :=
  daemon_init (config_defaults <| dry_run := true |>) (Build_CsaCfg "" [] [] 0 false) 1.

Lemma dry_run_inert_witness :
  exists es, w_trace (@loop_body abi_lp64 peer_ok 0 grounded
    (socks [reception_report; command 1 WCMD_KEY_WFB_MCS 3]) world_init).2 = (es ++ [])%list /\
  Forall dry_event es.
Proof.
  apply (@dry_run_inert abi_lp64 peer_ok 0 grounded
    (socks [reception_report; command 1 WCMD_KEY_WFB_MCS 3]) world_init); [|reflexivity|constructor].
  apply daemon_init_ok. destruct limits_defaults. constructor; assumption.
Defined.
