(* ===== verification/LcMain.v ===== *)
(** * The command line and the start of the vehicle daemon

    [usage], the option loop of [link_controller_main], its checks, the MTU of the radio
    interfaces, the opening of the sockets, and the way into the loop
    ([vehicle/link_controller.c]).  [getopt_long] is the C library's: the loop is given the
    options it returned, in order, each with its argument; whether the kernel opens a socket
    is the class [SockEnv]. *)

From S2P Require Import Prelude CFloat CString Strtod Decimal NumText Config Io Net Tunables.
From S2P Require Import Fec Bitrate Scorer Selector Commit Wcmd Recovery Csa SdLog Daemon.
From S2P Require Import Api Inputs Safety.

Local Open Scope list_scope.
#[local] Arguments String.append !_ _ /.

(** ** Options *)

Inductive CliOpt :=
  | OPT_WFB | OPT_API_PORT | OPT_DRY_RUN | OPT_NO_FEC | OPT_SIDECAR | OPT_VENC
  | OPT_SAFE_STARTUP_BITRATE | OPT_BITRATE_MIN | OPT_MAX_PAYLOAD | OPT_PAYLOAD_MIN
  | OPT_AIRTIME_MAX_PCT | OPT_AIRTIME_PREAMBLE_US | OPT_NO_MCS | OPT_STATS
  | OPT_UPLINK_STATS | OPT_FAILSAFE | OPT_PROBE | OPT_PROBE_FEED | OPT_CSA_IFACE
  | OPT_WFB_IFACE | OPT_TX_PWR_BY_RATE | OPT_IFACE_MTU | OPT_LOG_DIR | OPT_NO_LOG
  | OPT_KEY_FILE | OPT_NO_RECOVERY | OPT_RECOVERY_PORT | OPT_RECOVERY_CMD
  | OPT_RECOVERY_ARM_COUNT | OPT_VERBOSE | OPT_HELP | OPT_UNKNOWN.

Definition longopts : list (string * bool * CliOpt) := [
  ("wfb", true, OPT_WFB);
  ("api-port", true, OPT_API_PORT);
  ("dry-run", false, OPT_DRY_RUN);
  ("no-fec", false, OPT_NO_FEC);
  ("sidecar", true, OPT_SIDECAR);
  ("venc", true, OPT_VENC);
  ("safe-startup-bitrate", true, OPT_SAFE_STARTUP_BITRATE);
  ("bitrate-min", true, OPT_BITRATE_MIN);
  ("max-payload", true, OPT_MAX_PAYLOAD);
  ("payload-min", true, OPT_PAYLOAD_MIN);
  ("airtime-max-pct", true, OPT_AIRTIME_MAX_PCT);
  ("airtime-preamble-us", true, OPT_AIRTIME_PREAMBLE_US);
  ("no-mcs", false, OPT_NO_MCS);
  ("stats", true, OPT_STATS);
  ("uplink-stats", true, OPT_UPLINK_STATS);
  ("failsafe", true, OPT_FAILSAFE);
  ("probe", true, OPT_PROBE);
  ("probe-feed", true, OPT_PROBE_FEED);
  ("csa-iface", true, OPT_CSA_IFACE);
  ("wfb-iface", true, OPT_WFB_IFACE);
  ("tx-pwr-by-rate", false, OPT_TX_PWR_BY_RATE);
  ("iface-mtu", true, OPT_IFACE_MTU);
  ("log-dir", true, OPT_LOG_DIR);
  ("no-log", false, OPT_NO_LOG);
  ("key-file", true, OPT_KEY_FILE);
  ("no-recovery", false, OPT_NO_RECOVERY);
  ("recovery-port", true, OPT_RECOVERY_PORT);
  ("recovery-cmd", true, OPT_RECOVERY_CMD);
  ("recovery-arm-count", true, OPT_RECOVERY_ARM_COUNT);
  ("verbose", false, OPT_VERBOSE);
  ("help", false, OPT_HELP)].

(** The text on the standard error stream. *)
Definition usage (prog : string) : string :=
  "Usage: " ++ prog ++ " [options]" ++ str1 LF ++
  str1 LF ++
  "The CLI carries wiring/topology only. All tuning is live via the" ++ str1 LF ++
  "HTTP API: GET /schema lists the operator-policy knobs (add ?all=1" ++ str1 LF ++
  "for the expert mechanics), GET/SET via /set?key=value." ++ str1 LF ++
  str1 LF ++
  "Common:" ++ str1 LF ++
  "  --wfb HOST:PORT          wfb_tx control endpoint (default 127.0.0.1:8000)" ++ str1 LF ++
  "  --api-port N             HTTP API + WebUI on :N (default 8765; 0 disables)" ++ str1 LF ++
  "  --dry-run                compute but do not send wfb_tx commands" ++ str1 LF ++
  "  --iface-mtu N            ip link set dev <iface> mtu N at startup on" ++ str1 LF ++
  "                           {csa-iface, wfb-iface}; range [576, 9000]" ++ str1 LF ++
  "  -v, --verbose            extra logs" ++ str1 LF ++
  str1 LF ++
  "FEC subsystem (disable with --no-fec):" ++ str1 LF ++
  "  --no-fec                 disable FEC subsystem" ++ str1 LF ++
  "  --sidecar HOST:PORT      venc sidecar (default 127.0.0.1:5602)" ++ str1 LF ++
  "  --venc HOST:PORT         venc HTTP API (default 127.0.0.1:80)" ++ str1 LF ++
  "  --safe-startup-bitrate N override safe-startup bitrate kbps (default 1500)" ++ str1 LF ++
  "  --bitrate-min N          adaptive bitrate floor kbps [100,200000] (default 2200)." ++ str1 LF ++
  "                           Bites only at MCS0 (its honest budget). Also live via" ++ str1 LF ++
  "                           /set fec.bitrate_min_kbps." ++ str1 LF ++
  "  --max-payload N          adaptive RTP payload ceiling bytes: 0=off (default)," ++ str1 LF ++
  "                           else [576,4000]. Drives venc outgoing.maxPayloadSize" ++ str1 LF ++
  "                           by bitrate tier. Also live via /set fec.payload_max." ++ str1 LF ++
  "  --payload-min N          adaptive RTP payload floor bytes [576,4000] (default 576)" ++ str1 LF ++
  "  --airtime-max-pct N      cap on-air airtime to N% of channel [0,100], 0=off" ++ str1 LF ++
  "                           (default 80). Per-MCS pps/airslot guard; also live" ++ str1 LF ++
  "                           via /set fec.airtime_max_pct." ++ str1 LF ++
  "  --airtime-preamble-us N  per-packet PHY preamble us for the airtime calc [0,200]" ++ str1 LF ++
  "                           (default 40)" ++ str1 LF ++
  str1 LF ++
  "MCS subsystem — unified PER-probe law (disable with --no-mcs):" ++ str1 LF ++
  "  Promotes when the V+2 probe rung reads clean; demotes on live" ++ str1 LF ++
  "  video PER, RSSI floor/fade guard-rails, or a failing V+2 rung." ++ str1 LF ++
  "  REQUIRES --probe (the V+2 producer) when enabled." ++ str1 LF ++
  "  --no-mcs                 disable MCS subsystem (FEC-only)" ++ str1 LF ++
  "  --stats HOST:PORT        UDP listener for wfb_rx -Y rx_ant JSON (default 127.0.0.1:5801)" ++ str1 LF ++
  "  --probe HOST:PORT        probe wfb_tx control endpoint (V+2 producer;" ++ str1 LF ++
  "                           retuned to min(video_mcs+2,7) on every commit)" ++ str1 LF ++
  "  --probe-feed HOST:PORT   probe wfb_tx udp input for the paced PRB feeder" ++ str1 LF ++
  "  --failsafe F             watchdog gap before forcing mcs_min (default 0.5;" ++ str1 LF ++
  "                           deployment-dependent — raise for lossy uplinks)" ++ str1 LF ++
  str1 LF ++
  "Uplink reception telemetry (diagnostic; independent of --no-mcs):" ++ str1 LF ++
  "  --uplink-stats PORT      UDP listener for the vehicle's OWN wfb_rx -Y" ++ str1 LF ++
  with_quotes "                           (GS->vehicle rx_ant). Surfaced under 'uplink_rx'" ++ str1 LF ++
  "                           in /status; never feeds the control loop. 0=off." ++ str1 LF ++
  str1 LF ++
  "CSA receiver (off unless --csa-iface set; reuses --stats listener):" ++ str1 LF ++
  "  --csa-iface NAME         enable CSA receiver on iface (e.g. wlan0)" ++ str1 LF ++
  str1 LF ++
  "WCMD proxy:" ++ str1 LF ++
  "  --wfb-iface NAME         iface for wfb_txpower writes" ++ str1 LF ++
  str1 LF ++
  "SD telemetry logger (in-process; replaces walkout_logger.sh):" ++ str1 LF ++
  "  --log-dir PATH           SD mount for sessions (default /mnt/mmcblk0p1);" ++ str1 LF ++
  "                           writes <PATH>/walkout/NNNNNN_<stamp>/{status.jsonl," ++ str1 LF ++
  "                           lc.log}, newest 10 kept. Inactive if PATH (under" ++ str1 LF ++
  "                           /mnt) is not a real mount — never logs to overlay." ++ str1 LF ++
  "                           Roll a fresh session: GET /log/start (or WCMD 19)." ++ str1 LF ++
  "  --no-log                 disable the SD telemetry logger entirely" ++ str1 LF ++
  str1 LF ++
  "  -h, --help               this message" ++ str1 LF.

(** What the options change: [cfg] and [g_logger]. *)
Record Cli := Build_Cli { cli_cfg : Config; cli_lg : SdLogger }.
#[export] Instance eta_Cli : Eta Cli := fun c => Build_Cli (cli_cfg c) (cli_lg c).

Definition cli_init : Cli := Build_Cli config_defaults sd_logger_init.

Definition on_cfg (f : Config -> Config) (c : Cli) : Cli := c <| cli_cfg := f (cli_cfg c) |>.
Definition on_fec (f : FecCfg -> FecCfg) : Cli -> Cli :=
  on_cfg (fun c => c <| cfg_fec := f (cfg_fec c) |>).
Definition on_mcs (f : McsCfg -> McsCfg) : Cli -> Cli :=
  on_cfg (fun c => c <| cfg_mcs := f (cfg_mcs c) |>).
Definition on_csa (f : CsaSect -> CsaSect) : Cli -> Cli :=
  on_cfg (fun c => c <| cfg_csa := f (cfg_csa c) |>).
Definition on_cmd (f : CmdCfg -> CmdCfg) : Cli -> Cli :=
  on_cfg (fun c => c <| cfg_cmd := f (cfg_cmd c) |>).
Definition on_recovery (f : RecoveryCfg -> RecoveryCfg) : Cli -> Cli :=
  on_cfg (fun c => c <| cfg_recovery := f (cfg_recovery c) |>).
Definition on_lg (f : SdLogger -> SdLogger) (c : Cli) : Cli := c <| cli_lg := f (cli_lg c) |>.

(** [snprintf] of a string into a buffer of [n] bytes. *)
Definition clip (n : nat) (s : string) : string := take_chars (n - 1) s.

Section Main.
Context {ABI : CAbi}.

Definition atol (s : string) : Z := match strtol s with Some (v, _) => v | None => 0 end.
Definition atof (s : string) : fp := match strtod s with Some (x, _) => x | None => F64.of_Z 0 end.

(** A number in its window, or the exit code 1. *)
Definition ranged (lo hi v : Z) (c : Cli) : Z + Cli :=
  if (v <? lo) || (v >? hi) then inl 1 else inr c.

(** A host with its port into fields of 64 bytes and 16 bits. *)
Definition endpoint (arg : string) (set : string -> Z -> Cli) : Z + Cli :=
  match parse_hostport arg 64 with Some (host, port) => inr (set host port) | None => inl 1 end.

(** One turn of the option loop; [inl] is the exit code. *)
Definition cli_step (opt : CliOpt) (arg : string) (c : Cli) : Z + Cli :=
  let i := atoi arg in
  let l := atol arg in
  match opt with
  | OPT_WFB => endpoint arg (fun h p => on_cfg (fun k => k <| wfb_host := h |> <| wfb_port := p |>) c)
  | OPT_API_PORT => ranged 0 65535 i (on_cfg (fun k => k <| api_port := i |>) c)
  | OPT_KEY_FILE => inr (on_cfg (fun k => k <| key_file := clip 256 arg |>) c)
  | OPT_NO_RECOVERY => inr (on_recovery (fun k => k <| recovery_enabled := false |>) c)
  | OPT_RECOVERY_PORT =>
      ranged 0 65535 i (on_recovery (fun k => k <| recovery_listen_port := i |>) c)
  | OPT_RECOVERY_CMD => inr (on_recovery (fun k => k <| recovery_apfpv_cmd := clip 256 arg |>) c)
  | OPT_RECOVERY_ARM_COUNT =>
      ranged 1 64 i (on_recovery (fun k => k <| recovery_arm_count := i |>) c)
  | OPT_DRY_RUN => inr (on_cfg (fun k => k <| dry_run := true |>) c)
  | OPT_NO_FEC => inr (on_fec (fun k => k <| fec_enabled := false |>) c)
  | OPT_NO_MCS => inr (on_mcs (fun k => k <| mcs_enabled := false |>) c)
  | OPT_SIDECAR => endpoint arg (fun h p =>
      on_fec (fun k => k <| fec_sidecar_host := h |> <| fec_sidecar_port := p |>) c)
  | OPT_VENC => endpoint arg (fun h p =>
      on_fec (fun k => k <| fec_venc_host := h |> <| fec_venc_port := p |>) c)
  | OPT_SAFE_STARTUP_BITRATE =>
      ranged 100 100000 l (on_fec (fun k => k <| fec_safe_startup_bitrate_kbps := l |>) c)
  | OPT_BITRATE_MIN => ranged 100 200000 l (on_fec (fun k => k <| fec_bitrate_min_kbps := l |>) c)
  | OPT_MAX_PAYLOAD =>
      if negb (i =? 0) && ((i <? 576) || (i >? 4000)) then inl 1
      else inr (on_fec (fun k => k <| fec_payload_max := i |>) c)
  | OPT_PAYLOAD_MIN => ranged 576 4000 i (on_fec (fun k => k <| fec_payload_min := i |>) c)
  | OPT_AIRTIME_MAX_PCT => ranged 0 100 i (on_fec (fun k => k <| fec_airtime_max_pct := i |>) c)
  | OPT_AIRTIME_PREAMBLE_US =>
      ranged 0 200 i (on_fec (fun k => k <| fec_airtime_preamble_us := i |>) c)
  | OPT_STATS => endpoint arg (fun h p =>
      on_mcs (fun k => k <| mcs_stats_host := h |> <| mcs_stats_port := p |>) c)
  | OPT_UPLINK_STATS => ranged 0 65535 i (on_cfg (fun k => k <| uplink_stats_port := u16 i |>) c)
  | OPT_FAILSAFE => inr (on_mcs (fun k => k <| mcs_failsafe_timeout_s := to_f32 (atof arg) |>) c)
  | OPT_PROBE => endpoint arg (fun h p =>
      on_cfg (fun k => k <| probe_host := h |> <| probe_port := p |>) c)
  | OPT_PROBE_FEED => endpoint arg (fun h p =>
      on_cfg (fun k => k <| probe_feed_host := h |> <| probe_feed_port := p |>) c)
  | OPT_CSA_IFACE =>
      inr (on_csa (fun k => k <| csa_iface := clip 16 arg |> <| csa_enabled := true |>) c)
  | OPT_WFB_IFACE => inr (on_cmd (fun k => k <| cmd_wfb_iface := clip 16 arg |>) c)
  | OPT_TX_PWR_BY_RATE => inr (on_cmd (fun k => k <| cmd_tx_pwr_by_rate := true |>) c)
  | OPT_IFACE_MTU => ranged 576 9000 i (on_cfg (fun k => k <| iface_mtu := i |>) c)
  | OPT_LOG_DIR => inr (on_lg (fun k => k <| sl_sd_dir := clip 256 arg |>) c)
  | OPT_NO_LOG => inr (on_lg (fun k => k <| sl_enabled := false |>) c)
  | OPT_VERBOSE => inr (on_cfg (fun k => k <| verbose := 1 |>) c)
  | OPT_HELP => inl 0
  | OPT_UNKNOWN => inl 1
  end.

Fixpoint cli_loop (opts : list (CliOpt * string)) (c : Cli) : Z + Cli :=
  match opts with
  | [] => inr c
  | (opt, arg) :: opts =>
      match cli_step opt arg c with inl code => inl code | inr c => cli_loop opts c end
  end.

(** The checks after the loop; [false]: exit code 1. *)
Definition cli_checks (cfg : Config) : bool :=
  let fec := fec_enabled (cfg_fec cfg) in
  let mcs := mcs_enabled (cfg_mcs cfg) in
  let csa := csa_enabled (cfg_csa cfg) in
  negb (mcs && (probe_port cfg =? 0)) && negb (negb fec && negb mcs && negb csa) &&
  negb (csa && negb mcs).

(** ** Interfaces and sockets *)

(** The interfaces [--iface-mtu] is applied to. *)
Definition mtu_ifaces (cfg : Config) : list string :=
  let a := csa_iface (cfg_csa cfg) in
  let b := cmd_wfb_iface (cfg_cmd cfg) in
  let first := if String.eqb a "" then [] else [a] in
  if negb (String.eqb b "") && (String.eqb a "" || negb (String.eqb b a)) then first ++ [b]
  else first.
Fixpoint set_mtus {EV : Env} (ifaces : list string) (mtu : Z) : IO unit :=
  match ifaces with
  | [] => io_ret tt
  | iface :: ifaces => let! _ := wfb_run_ip_link_mtu iface mtu in set_mtus ifaces mtu
  end.

Definition apply_iface_mtu {EV : Env} (cfg : Config) : IO unit :=
  if (iface_mtu cfg >? 0) && negb (dry_run cfg) then set_mtus (mtu_ifaces cfg) (iface_mtu cfg)
  else io_ret tt.

Inductive SockReq := RqSender | RqUdp (port : Z) | RqTcp (port : Z).

(** Whether a socket is opened, given those asked for before. *)
Class SockEnv := { sock_ok : list SockReq -> SockReq -> bool }.

(** The sockets that are open. *)
Record Sockets := Build_Sockets {
  so_sidecar : bool; so_wfb_stats : bool; so_rx_ant : bool; so_uplink : bool;
  so_recovery : bool; so_api : bool
}.

Context {SK : SockEnv}.

(** [want]: the socket is asked for; the kernel's answer, and what was asked so far. *)
Definition open_sock (want : bool) (r : SockReq) (h : list SockReq) : bool * list SockReq :=
  if want then (sock_ok h r, r :: h) else (false, h).

(** The sockets in their order; [None]: exit code 1. *)
Definition bring_up (cfg : Config) : option (Config * Sockets * list SockReq) :=
  let f := cfg_fec cfg in
  let '(sidecar, h) := open_sock (fec_enabled f) RqSender [] in
  if fec_enabled f && negb sidecar then None
  else if fec_enabled f && bool_decide (inet_pton4 (fec_sidecar_host f) = None) then None
  else
    let port := fec_wfb_stats_port f in
    let stats := fec_enabled f && negb (port =? 0) in
    let '(wst, h) := open_sock stats (RqUdp port) h in
    let cfg := (if stats && negb wst
                then cfg <| cfg_fec := ((cfg_fec cfg) <| fec_wfb_stats_port := 0 |>) |> else cfg) in
    let m := cfg_mcs cfg in
    let '(rx, h) := open_sock (mcs_enabled m) (RqUdp (mcs_stats_port m)) h in
    if mcs_enabled m && negb rx then None
    else
      let '(up, h) := open_sock (negb (uplink_stats_port cfg =? 0)) (RqUdp (uplink_stats_port cfg)) h in
      let r := cfg_recovery cfg in
      let port := recovery_listen_port r in
      let '(rec, h) := open_sock (recovery_enabled r && negb (port =? 0)) (RqUdp (u16 port)) h in
      Some (cfg, Build_Sockets sidecar wst rx up rec false, h).

(** The HTTP listener; its port is forgotten when it cannot be opened. *)
Definition listen_api (cfg : Config) (socks : Sockets) (h : list SockReq) : Config * Sockets :=
  let want := api_port cfg >? 0 in
  let '(api, _) := open_sock want (RqTcp (u16 (api_port cfg))) h in
  (if want && negb api then cfg <| api_port := 0 |> else cfg,
   Build_Sockets (so_sidecar socks) (so_wfb_stats socks) (so_rx_ant socks) (so_uplink socks)
     (so_recovery socks) api).

(** What the loop starts with. *)
Record Started := Build_Started {
  st_daemon : Daemon; st_lg : SdLogger; st_disk : Disk; st_socks : Sockets; st_log_start : Z
}.

(** [link_controller_main] up to the loop; [inl] is its exit code.  The clients of the API
    touch nothing the boot does, nor does the log session: they stand before and behind it. *)
Definition main_start {EV : Env} {SD : SdEnv} (opts : list (CliOpt * string))
    (stamp : string) (pid : Z) (disk : Disk) : IO (Z + Started) :=
  match cli_loop opts cli_init with
  | inl code => io_ret (inl code)
  | inr (Build_Cli cfg lg) =>
      if negb (cli_checks cfg) then io_ret (inl 1)
      else
        let! log_start := now_us in
        let! _ := apply_iface_mtu cfg in
        match bring_up cfg with
        | None => io_ret (inl 1)
        | Some (cfg, socks, h) =>
            match csa_boot cfg with
            | None => io_ret (inl 1)
            | Some csa_cfg =>
                let '(cfg, socks) := listen_api cfg socks h in
                let! d := daemon_boot cfg csa_cfg in
                let! now := (if sl_enabled lg then now_us else io_ret 0) in
                let '(_, lg, disk) := (if sl_enabled lg
                                       then logger_open_session stamp pid now lg disk
                                       else (0, lg, disk)) in
                io_ret (inr (Build_Started d lg disk socks log_start))
            end
        end
  end.
End Main.

(** ** What an accepted command line amounts to *)

(** The numbers the options set, in the windows of their options. *)
Record numbers_ok (cfg : Config) : Prop := {
  nu_safe_startup : 100 <= fec_safe_startup_bitrate_kbps (cfg_fec cfg) <= 100000;
  nu_bitrate_min : 100 <= fec_bitrate_min_kbps (cfg_fec cfg) <= 200000;
  nu_payload_max : fec_payload_max (cfg_fec cfg) = 0 \/ 576 <= fec_payload_max (cfg_fec cfg) <= 4000;
  nu_payload_min : 576 <= fec_payload_min (cfg_fec cfg) <= 4000;
  nu_airtime : 0 <= fec_airtime_max_pct (cfg_fec cfg) <= 100;
  nu_preamble : 0 <= fec_airtime_preamble_us (cfg_fec cfg) <= 200;
  nu_arm : 1 <= recovery_arm_count (cfg_recovery cfg) <= 64;
  nu_mtu : iface_mtu cfg = 0 \/ 576 <= iface_mtu cfg <= 9000;
  nu_verbose : 0 <= verbose cfg <= 1
}.

(** The fields the options and the start can set, put back to their defaults. *)
Definition untouched (c : Config) : Config :=
  c <| cfg_fec := (cfg_fec c)
         <| fec_sidecar_host := "127.0.0.1" |> <| fec_sidecar_port := 5602 |>
         <| fec_venc_host := "127.0.0.1" |> <| fec_venc_port := 80 |>
         <| fec_bitrate_min_kbps := 2200 |> <| fec_enabled := true |> <| fec_payload_max := 0 |>
         <| fec_payload_min := 576 |> <| fec_airtime_max_pct := 80 |>
         <| fec_airtime_preamble_us := 40 |> <| fec_safe_startup_bitrate_kbps := 1500 |> |>
    <| cfg_mcs := (cfg_mcs c)
         <| mcs_stats_host := "127.0.0.1" |> <| mcs_stats_port := 5801 |> <| mcs_enabled := true |>
         <| mcs_failsafe_timeout_s := mcs_failsafe_timeout_s mcs_defaults |> |>
    <| cfg_csa := (cfg_csa c) <| csa_iface := "" |> <| csa_enabled := csa_enabled csa_defaults |> |>
    <| cfg_cmd := (cfg_cmd c) <| cmd_enabled := cmd_enabled cmd_defaults |> <| cmd_wfb_iface := "" |>
         <| cmd_tx_pwr_by_rate := false |> |>
    <| cfg_recovery := (cfg_recovery c)
         <| recovery_enabled := recovery_enabled recovery_defaults |>
         <| recovery_listen_port := recovery_listen_port recovery_defaults |>
         <| recovery_arm_count := recovery_arm_count recovery_defaults |>
         <| recovery_apfpv_cmd := recovery_apfpv_cmd recovery_defaults |> |>
    <| wfb_host := "127.0.0.1" |> <| wfb_port := 8000 |>
    <| probe_host := "127.0.0.1" |> <| probe_port := 0 |>
    <| probe_feed_host := "127.0.0.1" |> <| probe_feed_port := 0 |>
    <| uplink_stats_port := 0 |> <| api_port := 8765 |> <| iface_mtu := 0 |>
    <| dry_run := false |> <| verbose := 0 |> <| key_file := "/etc/drone.key" |>.

(** The fields' widths and the windows of the options. *)
Record cli_sound (cfg : Config) : Prop := {
  cs_limits : limits_ok cfg;
  cs_hosts : Forall (fun s => strlen s < 64) [wfb_host cfg; fec_sidecar_host (cfg_fec cfg);
    fec_venc_host (cfg_fec cfg); mcs_stats_host (cfg_mcs cfg); probe_host cfg; probe_feed_host cfg];
  cs_texts : Forall (fun s => strlen s < 256) [key_file cfg; recovery_apfpv_cmd (cfg_recovery cfg)];
  cs_ifaces : Forall (fun s => strlen s < 16) [csa_iface (cfg_csa cfg); cmd_wfb_iface (cfg_cmd cfg)];
  cs_ports : Forall (fun p => 0 <= p <= 65535) [wfb_port cfg; fec_sidecar_port (cfg_fec cfg);
    fec_venc_port (cfg_fec cfg); mcs_stats_port (cfg_mcs cfg); probe_port cfg; probe_feed_port cfg;
    uplink_stats_port cfg; api_port cfg; recovery_listen_port (cfg_recovery cfg)];
  cs_numbers : numbers_ok cfg;
  cs_rest : untouched cfg = config_defaults
}.

Lemma clip_length n s : (0 < n)%nat -> strlen (clip n s) < Z.of_nat n.
Proof.
  intros Hn. unfold clip. pose proof (strlen_length (take_chars (n - 1) s)) as H.
  assert (String.length (take_chars (n - 1) s) <= n - 1)%nat; [|lia].
  clear. generalize (n - 1)%nat as k. intros k. revert s.
  induction k as [|k IH]; intros [|a s]; cbn; try lia. specialize (IH s). lia.
Qed.

Section Sound.
Context {ABI : CAbi}.

Lemma hostport_bounds s host port : parse_hostport s 64 = Some (host, port) ->
  strlen host < 64 /\ 0 <= port <= 65535.
Proof.
  unfold parse_hostport. destruct (split_last COLON s) as [[h p]|]; [|done].
  cbn [mbind option_bind]. pose proof (strlen_length h). case_bool; [done|].
  case_bool; [done|]. intros [= <- <-]. pose proof (strlen_nonneg h). split; lia.
Qed.

Ltac each := repeat (apply List.Forall_cons_iff; split); try apply List.Forall_nil.
Ltac each_in H := repeat (apply List.Forall_cons_iff in H; destruct H as [? H]); clear H.

Lemma cli_init_sound : cli_sound (cli_cfg cli_init).
Proof.
  split; each; [exact limits_defaults|..];
    first [vm_compute; reflexivity|cbn; lia|split; cbn; lia|done].
Qed.

(** An option of a number. *)
Lemma ranged_sound lo hi v c c' : ranged lo hi v c = inr c' -> c' = c /\ lo <= v <= hi.
Proof. unfold ranged. case_bool; [done|]. intros [= <-]. split; [done|lia]. Qed.

(** An option of an endpoint. *)
Lemma endpoint_sound arg set c' : endpoint arg set = inr c' ->
  exists host port, c' = set host port /\ strlen host < 64 /\ 0 <= port <= 65535.
Proof.
  unfold endpoint. destruct (parse_hostport arg 64) as [[host port]|] eqn:E; [|done].
  intros [= <-]. exists host, port. split; [done|]. by apply (hostport_bounds arg).
Qed.

(** Cases of an option that was accepted. *)
Ltac step_cases opt Hs :=
  destruct opt; cbn [cli_step] in Hs; try done;
    first [ apply endpoint_sound in Hs as (host & port & -> & ? & ?)
          | apply ranged_sound in Hs as [-> ?]
          | injection Hs as <-
          | (case_bool_in Hs; [done|]; injection Hs as <-) ].

Lemma cli_step_untouched opt arg c c' : cli_step opt arg c = inr c' ->
  untouched (cli_cfg c') = untouched (cli_cfg c).
Proof. intros Hs. step_cases opt Hs; reflexivity. Qed.

Lemma cli_step_numbers opt arg c c' : cli_step opt arg c = inr c' ->
  numbers_ok (cli_cfg c) -> numbers_ok (cli_cfg c').
Proof.
  intros Hs []. step_cases opt Hs; try by constructor.
  all: constructor; cbn; try assumption; lia.
Qed.

Lemma cli_step_sound opt arg c c' :
  cli_sound (cli_cfg c) -> cli_step opt arg c = inr c' -> cli_sound (cli_cfg c').
Proof.
  intros HS Hs.
  refine (Build_cli_sound _ _ _ _ _ _ (cli_step_numbers _ _ _ _ Hs (cs_numbers _ HS))
    (eq_trans (cli_step_untouched _ _ _ _ Hs) (cs_rest _ HS))); destruct HS as [L H T I P _ _].
  - destruct L. by step_cases opt Hs; split.
  - each_in H. step_cases opt Hs; by each.
  - each_in T. pose proof (clip_length 256 arg ltac:(lia)). step_cases opt Hs; by each.
  - each_in I. pose proof (clip_length 16 arg ltac:(lia)). step_cases opt Hs; by each.
  - each_in P. step_cases opt Hs; each; try assumption; cbn; try lia. rewrite u16_small; lia.
Qed.

(** The exit codes of the option loop. *)
Lemma cli_step_code opt arg c code : cli_step opt arg c = inl code -> code = 0 \/ code = 1.
Proof.
  assert (forall lo hi v k, ranged lo hi v k = inl code -> code = 1) as Hr.
  { intros lo hi v k. unfold ranged. case_bool; [by intros [= <-]|done]. }
  assert (forall set, endpoint arg set = inl code -> code = 1) as He.
  { intros set. unfold endpoint. by destruct (parse_hostport arg 64) as [[]|]; [|intros [= <-]]. }
  destruct opt; cbn [cli_step]; intros Hs;
    first [done|right; by eapply Hr|right; by eapply He|injection Hs as <-; auto|
           case_bool_in Hs; [injection Hs as <-; auto|done]].
Qed.

Lemma cli_loop_sound opts : forall c c',
  cli_sound (cli_cfg c) -> cli_loop opts c = inr c' -> cli_sound (cli_cfg c').
Proof.
  induction opts as [|[opt arg] opts IH]; intros c c' Hc; cbn [cli_loop]; [by intros [= <-]|].
  destruct (cli_step opt arg c) as [code|c1] eqn:E; [done|].
  apply IH. by apply (cli_step_sound opt arg c).
Qed.

Context {EV : Env} {SD : SdEnv} {SK : SockEnv}.

(** The parts of the configuration that sockets do not change. *)
Definition same_plan (cfg cfg' : Config) : Prop :=
  cfg_mcs cfg' = cfg_mcs cfg /\ cfg_csa cfg' = cfg_csa cfg /\ dry_run cfg' = dry_run cfg /\
  wfb_host cfg' = wfb_host cfg /\ wfb_port cfg' = wfb_port cfg /\
  cfg_fec cfg' <| fec_wfb_stats_port := 0 |> = cfg_fec cfg <| fec_wfb_stats_port := 0 |>.

(** What an open socket stands for. *)
Record wired (cfg : Config) (socks : Sockets) : Prop := {
  wi_sound : cli_sound cfg;
  wi_checks : cli_checks cfg = true;
  wi_sidecar : so_sidecar socks = fec_enabled (cfg_fec cfg);
  wi_rx_ant : so_rx_ant socks = mcs_enabled (cfg_mcs cfg);
  wi_stats : so_wfb_stats socks =
    fec_enabled (cfg_fec cfg) && negb (fec_wfb_stats_port (cfg_fec cfg) =? 0);
  wi_uplink : exists h, so_uplink socks =
    negb (uplink_stats_port cfg =? 0) && sock_ok h (RqUdp (uplink_stats_port cfg));
  wi_recovery : exists h, so_recovery socks =
    recovery_enabled (cfg_recovery cfg) && negb (recovery_listen_port (cfg_recovery cfg) =? 0) &&
    sock_ok h (RqUdp (recovery_listen_port (cfg_recovery cfg)))
}.

Lemma sock_answer want r h : want && sock_ok h r = (open_sock want r h).1.
Proof. by destruct want. Qed.

Lemma sock_open want r h : (open_sock want r h).1 = true -> want = true.
Proof. by destruct want. Qed.

Lemma stats_forgotten cfg : cli_sound cfg ->
  cli_sound (cfg <| cfg_fec := ((cfg_fec cfg) <| fec_wfb_stats_port := 0 |>) |>).
Proof.
  intros [[] ? ? ? ? [] E]. split; try assumption; try by split.
  transitivity (untouched cfg <| cfg_fec := cfg_fec (untouched cfg) <| fec_wfb_stats_port := 0 |> |>);
    [reflexivity|]. rewrite E. reflexivity.
Qed.

Lemma bring_up_wired cfg cfg' socks h : cli_sound cfg -> cli_checks cfg = true ->
  bring_up cfg = Some (cfg', socks, h) -> wired cfg' socks /\ same_plan cfg cfg'.
Proof.
  intros Hs Hc. unfold bring_up.
  destruct (open_sock _ RqSender []) as [side h0] eqn:E0.
  destruct (fec_enabled (cfg_fec cfg) && negb side) eqn:B0; [done|].
  destruct (_ && bool_decide _); [done|].
  set (stats := fec_enabled (cfg_fec cfg) && negb (fec_wfb_stats_port (cfg_fec cfg) =? 0)).
  destruct (open_sock stats _ _) as [wst h1] eqn:E1.
  set (cfg1 := if stats && negb wst then _ else cfg).
  assert (cfg1 = cfg \/ cfg1 = cfg <| cfg_fec := ((cfg_fec cfg) <| fec_wfb_stats_port := 0 |>) |>)
    as Hcase by (subst cfg1; destruct (stats && negb wst); auto).
  assert (wst = fec_enabled (cfg_fec cfg1) && negb (fec_wfb_stats_port (cfg_fec cfg1) =? 0)) as Hw.
  { pose proof (sock_open stats (RqUdp (fec_wfb_stats_port (cfg_fec cfg))) h0) as K.
    rewrite E1 in K. subst cfg1. destruct wst, stats eqn:Es; cbn [andb negb] in *;
      first [by specialize (K eq_refl)|by symmetry|cbn; by rewrite andb_false_r]. }
  assert (same_plan cfg cfg1 /\ cli_sound cfg1 /\ cli_checks cfg1 = true /\
    fec_enabled (cfg_fec cfg1) = fec_enabled (cfg_fec cfg)) as (Hp & Hs1 & Hc1 & Hf1).
  { destruct Hcase as [-> | ->]; [done|]. split; [done|]. split; [by apply stats_forgotten|done]. }
  clearbody cfg1. clear Hcase.
  destruct (open_sock (mcs_enabled _) _ _) as [rx h2] eqn:E2.
  destruct (mcs_enabled (cfg_mcs cfg1) && negb rx) eqn:B2; [done|].
  destruct (open_sock _ (RqUdp (uplink_stats_port cfg1)) _) as [up h3] eqn:E3.
  destruct (open_sock _ (RqUdp (u16 _)) _) as [rec h4] eqn:E4.
  intros [= <- <- _]. split; [|done].
  pose proof (f_equal fst E0) as F0. pose proof (f_equal fst E2) as F2.
  pose proof (f_equal fst E3) as F3. pose proof (f_equal fst E4) as F4. cbn [fst] in *.
  split; cbn; try done.
  - rewrite Hf1. destruct (fec_enabled (cfg_fec cfg)), side; cbn in *; congruence.
  - destruct (mcs_enabled (cfg_mcs cfg1)), rx; cbn in *; congruence.
  - exists h2. rewrite <- F3. symmetry. apply sock_answer.
  - exists h3. rewrite <- F4. assert (0 <= recovery_listen_port (cfg_recovery cfg1) <= 65535) as Hr.
    { pose proof (cs_ports _ Hs1) as P. each_in P. assumption. }
    rewrite u16_small by (clear - Hr; lia). symmetry. apply sock_answer.
Qed.

Lemma listen_api_wired cfg socks h cfg' socks' : wired cfg socks ->
  listen_api cfg socks h = (cfg', socks') ->
  wired cfg' socks' /\ same_plan cfg cfg' /\ so_api socks' = (0 <? api_port cfg') /\
  csa_boot cfg' = csa_boot cfg.
Proof.
  intros [Hs Hc H1 H2 H3 H4 H5]. unfold listen_api.
  destruct (open_sock _ _ h) as [api h1] eqn:E. intros [= <- <-].
  pose proof (f_equal fst E) as F. cbn [fst] in F.
  assert (cli_sound (cfg <| api_port := 0 |>)) as Hs'.
  { destruct Hs as [L ? ? ? P N Er]. apply Build_cli_sound; [by destruct L|assumption..| |by destruct N|exact Er].
    clear Er N. each_in P. each; try assumption. done. }
  destruct (api_port cfg >? 0) eqn:Ep; cbn [andb].
  - destruct api; cbn [negb]; (split; [by split|]); split_and!; try done;
      cbn; symmetry; by rewrite <- Z.gtb_ltb.
  - cbn in F. subst api. split; [by split|]. split_and!; try done; cbn; symmetry; by rewrite <- Z.gtb_ltb.
Qed.

(** *** What is asked of the world *)

(** The daemon's own requests, or the MTU of an interface it was given. *)
Definition start_event (cfg : Config) (e : Event) : Prop :=
  own_event cfg e \/
  exists iface, e = EvIpMtu iface (iface_mtu cfg) /\ In iface (mtu_ifaces cfg) /\
    576 <= iface_mtu cfg <= 9000 /\ dry_run cfg = false.

Lemma own_planned cfg cfg' e : same_plan cfg cfg' -> own_event (boot_config cfg') e ->
  own_event cfg e.
Proof.
  intros (Hm & _ & Hd & Hh & Hp & Hf) H.
  assert (own_event cfg' e) as H' by (revert H; unfold boot_config; by case_bool). clear H.
  pose proof (f_equal fec_min_n Hf) as F0. pose proof (f_equal fec_min_k Hf) as F1. pose proof (f_equal fec_max_k Hf) as F2.
  pose proof (f_equal fec_max_n Hf) as F3. pose proof (f_equal fec_venc_host Hf) as F4.
  pose proof (f_equal fec_venc_port Hf) as F5. cbn in F0, F1, F2, F3, F4, F5.
  destruct H' as [H1 H2]. split; [|by rewrite <- Hd]. revert H1. unfold own_request, rung_ok.
  by rewrite Hm, Hh, Hp, F0, F1, F2, F3, F4, F5.
Qed.

Lemma set_mtus_own (P : Event -> Prop) ifaces mtu :
  (forall iface, In iface ifaces -> P (EvIpMtu iface mtu)) -> performs P (set_mtus ifaces mtu).
Proof.
  induction ifaces as [|iface ifaces IH]; intros H; cbn [set_mtus]; [apply performs_ret|].
  apply performs_bind; [apply performs_ip_mtu, H; by left|]. intros _. apply IH. auto using in_cons.
Qed.

Lemma apply_mtu_own cfg : cli_sound cfg -> performs (start_event cfg) (apply_iface_mtu cfg).
Proof.
  intros H. unfold apply_iface_mtu. destruct ((iface_mtu cfg >? 0) && _) eqn:E; [|apply performs_ret].
  apply andb_prop in E as [E Ed]. apply negb_true_iff in Ed. pose proof (nu_mtu _ (cs_numbers _ H)) as Hm.
  apply set_mtus_own. intros iface Hin. right. exists iface. split_and!; try done; clear - Hm E; lia.
Qed.

Lemma mtu_ifaces_distinct cfg : NoDup (mtu_ifaces cfg) /\ ~ In EmptyString (mtu_ifaces cfg).
Proof.
  unfold mtu_ifaces. generalize (csa_iface (cfg_csa cfg)) as a, (cmd_wfb_iface (cfg_cmd cfg)) as b.
  intros a b. destruct (String.eqb_spec b ""), (String.eqb_spec a ""), (String.eqb_spec b a); cbn;
    (split; [|naive_solver]);
    first [apply NoDup_nil_2|apply NoDup_singleton|
           apply NoDup_cons; split; [intros H%list_elem_of_singleton; congruence|apply NoDup_singleton]].
Qed.

(** ** The start as a whole *)

(** A state the loop starts in. *)
Record started_ok (st : Started) : Prop := {
  sk_reach : forall start, daemon_reach start (st_daemon st);
  sk_ok : daemon_ok (st_daemon st);
  sk_wired : wired (d_cfg (st_daemon st)) (st_socks st);
  sk_proxy : cmd_enabled (cfg_cmd (d_cfg (st_daemon st))) = true -> so_rx_ant (st_socks st) = true;
  sk_api_port : so_api (st_socks st) = (0 <? api_port (d_cfg (st_daemon st)))
}.

Lemma wired_boot cfg socks : wired cfg socks -> wired (boot_config cfg) socks.
Proof.
  intros H. unfold boot_config. case_bool; [|done].
  destruct H as [[[] ? ? I ? N E] ? ? ? ? ? ?]. split; try assumption.
  apply Build_cli_sound; [by split|assumption|assumption| |assumption|by destruct N|exact E].
  clear E N. each_in I. by each.
Qed.

Lemma ensures_self {A} (P : Event -> Prop) (Q : A -> Prop) (m : IO A) :
  ensures P Q m -> ensures P (fun x => Q x /\ exists w, x = (m w).1) m.
Proof. intros [Hp Hq]. split; [done|]. intros w. split; [done|by exists w]. Qed.

Lemma bring_up_start_ok opts stamp pid disk c : cli_loop opts cli_init = inr c ->
  ensures (start_event (cli_cfg c))
    (fun r => match r with inl code => code = 1 | inr st => started_ok st end)
    (main_start opts stamp pid disk).
Proof.
  intros E. pose proof (cli_loop_sound opts _ _ cli_init_sound E) as Hs. unfold main_start. rewrite E.
  destruct c as [cfg lg]. cbn [cli_cfg] in *.
  destruct (cli_checks cfg) eqn:Hc; cbn [negb]; [|by apply ensures_ret].
  assert (performs (start_event cfg) now_us) as Hnow.
  { eapply performs_weaken; [apply (own_now cfg)|]. by left. }
  apply ensures_read; [exact Hnow|]. intros log_start.
  apply ensures_read; [by apply apply_mtu_own|]. intros _.
  destruct (bring_up cfg) as [[[cfg1 socks] h]|] eqn:Eb; [|by apply ensures_ret].
  destruct (bring_up_wired _ _ _ _ Hs Hc Eb) as [Hw Hp].
  destruct (csa_boot cfg1) as [ccfg|] eqn:Ec; [|by apply ensures_ret].
  destruct (listen_api cfg1 socks h) as [cfg2 socks2] eqn:El.
  destruct (listen_api_wired _ _ _ _ _ Hw El) as (Hw2 & Hp2 & Hapi & Hboot). rewrite Ec in Hboot.
  assert (same_plan cfg cfg2) as Hp3.
  { destruct Hp as (?&?&?&?&?&?), Hp2 as (?&?&?&?&?&?). repeat split; congruence. }
  clear Hw Hp Hp2 El Eb Ec. pose proof (cs_limits _ (wi_sound _ _ Hw2)) as Hl.
  eapply ensures_bind.
  { eapply ensures_weaken; [apply ensures_self, (boot_own cfg2 ccfg Hl)| |intros d Hd; exact Hd].
    intros e He. left. by apply (own_planned cfg cfg2). }
  intros d [[Hok Hcfg] [w Ew]]. apply ensures_read; [case_bool; [exact Hnow|apply performs_ret]|].
  intros now. destruct (if sl_enabled lg then _ else _) as [[rc lg'] disk'].
  apply ensures_ret. pose proof (wired_boot _ _ Hw2) as Hwb. split; cbn [st_daemon st_socks].
  - intros start. rewrite Ew. by apply daemon_reach_boot.
  - exact Hok.
  - by rewrite Hcfg.
  - rewrite Hcfg, (wi_rx_ant _ _ Hwb). unfold boot_config.
    destruct (mcs_enabled (cfg_mcs cfg2)) eqn:Em, (cmd_enabled (cfg_cmd cfg2)) eqn:Ecm; cbn; congruence.
  - rewrite Hapi, Hcfg. unfold boot_config. by case_bool.
Qed.

(** (C35) Whatever options the command line has and whatever the kernel opens, [main] either ends
    with code 0 or 1 or enters its loop in a state of the invariant: every number an option sets
    is in the window of the option, every other number and factor has its default, every text is
    inside its field, ports have 16 bits; only the failsafe time is taken as it is.  The selector
    runs only with a probe, the command proxy only with its socket; the sidecar, statistics,
    reception and API sockets are open exactly when the configuration the loop has asks for
    them, the uplink and recovery sockets exactly when it does and the kernel grants them. *)
Theorem every_start_sound opts stamp pid disk w :
  match (main_start opts stamp pid disk w).1 with
  | inl code => code = 0 \/ code = 1
  | inr st => started_ok st
  end.
Proof.
  destruct (cli_loop opts cli_init) as [code|c] eqn:E.
  - unfold main_start. rewrite E. cbn. clear - E. revert E. generalize cli_init.
    induction opts as [|[opt arg] opts IH]; intros c; cbn [cli_loop]; [done|].
    destruct (cli_step opt arg c) as [code'|c'] eqn:Es; [|apply IH]. intros [= <-]. clear IH.
    by apply (cli_step_code opt arg c).
  - destruct (bring_up_start_ok opts stamp pid disk c E) as [_ H]. specialize (H w).
    destruct (main_start _ _ _ _ w).1; [by right|exact H].
Qed.

(** The interfaces whose MTU was set. *)
Definition mtus (es : list Event) : list string :=
  omap (fun e => match e with EvIpMtu iface _ => Some iface | _ => None end) es.

Lemma mtus_app es es' : mtus (es ++ es') = mtus es ++ mtus es'.
Proof. apply omap_app. Qed.

Lemma own_no_mtu {A} cfg (m : IO A) : performs (own_event cfg) m -> yields m (fun _ es => mtus es = []).
Proof.
  intros H w. destruct (H w) as (es & E & F). exists es. split; [done|]. clear E.
  induction F as [|e es [He _] _ IH]; [done|]. by destruct e.
Qed.

Lemma set_mtus_yields ifaces mtu : NoDup ifaces ->
  yields (set_mtus ifaces mtu) (fun _ es => NoDup (mtus es) /\ forall x, In x (mtus es) -> In x ifaces).
Proof.
  induction 1 as [|iface ifaces Hn _ IH]; cbn [set_mtus].
  { apply yields_ret. split; [constructor|done]. }
  eapply yields_bind with (Q1 := fun _ es => mtus es = [] \/ mtus es = [iface]).
  { intros w. unfold wfb_run_ip_link_mtu. case_bool; [exists []; auto|].
    exists [EvIpMtu iface mtu]. cbn. auto. }
  intros _ es Hes. eapply yields_weaken; [exact IH|]. cbv beta. intros _ es' [Hd Hin].
  rewrite mtus_app. destruct Hes as [-> | ->].
  - rewrite app_nil_r. split; [done|]. intros x Hx. right. by apply Hin.
  - split.
    + apply NoDup_app. split; [done|]. split; [|apply NoDup_singleton].
      intros x Hx%list_elem_of_In%Hin Hy%list_elem_of_singleton. subst x. by apply Hn, list_elem_of_In.
    + intros x [Hx|[Hx|[]]]%in_app_iff; [right; by apply Hin|by left].
Qed.

Lemma start_mtus opts stamp pid disk :
  yields (main_start opts stamp pid disk) (fun _ es => NoDup (mtus es)).
Proof.
  unfold main_start. destruct (cli_loop opts cli_init) as [code|c] eqn:E; [by apply yields_ret; constructor|].
  pose proof (cli_loop_sound opts _ _ cli_init_sound E) as Hs. destruct c as [cfg lg]. cbn [cli_cfg] in *.
  destruct (cli_checks cfg) eqn:Hc; cbn [negb]; [|by apply yields_ret; constructor].
  eapply yields_bind; [exact (own_no_mtu cfg _ (own_now cfg))|]. cbv beta. intros log_start es0 H0.
  eapply yields_bind with (Q1 := fun _ es => NoDup (mtus es)).
  { unfold apply_iface_mtu. case_bool; [|by apply yields_ret; constructor].
    eapply yields_weaken; [apply set_mtus_yields, mtu_ifaces_distinct|]. by intros _ es []. }
  intros _ es1 H1.
  assert (forall es, mtus es = [] -> NoDup (mtus ((es ++ es1) ++ es0))) as Hend.
  { intros es He. by rewrite !mtus_app, H0, He, app_nil_r. }
  destruct (bring_up cfg) as [[[cfg1 socks] h]|] eqn:Eb; [|by apply yields_ret, (Hend [])].
  destruct (csa_boot cfg1) as [ccfg|]; [|by apply yields_ret, (Hend [])].
  destruct (bring_up_wired _ _ _ _ Hs Hc Eb) as [Hw _].
  destruct (listen_api cfg1 socks h) as [cfg2 socks2] eqn:El.
  destruct (listen_api_wired _ _ _ _ _ Hw El) as (Hw2 & _).
  destruct (boot_own cfg2 ccfg (cs_limits _ (wi_sound _ _ Hw2))) as [Hb _].
  eapply yields_bind; [exact (own_no_mtu _ _ Hb)|]. cbv beta. intros d es2 H2.
  eapply yields_bind with (Q1 := fun _ es => mtus es = []).
  { case_bool; [exact (own_no_mtu cfg _ (own_now cfg))|by apply yields_ret]. }
  intros now es3 H3. destruct (if sl_enabled lg then _ else _) as [[rc lg'] disk'].
  apply yields_ret. cbv beta. replace (_ ++ es0) with (((es3 ++ es2) ++ es1) ++ es0).
  - apply Hend. by rewrite mtus_app, H3, H2.
  - by rewrite <- !app_assoc.
Qed.

(** What the start does to the world: a refused command line does nothing at all; otherwise
    it reads, asks the transmitter for its radio, writes the safe bitrate to the encoder, and sets
    the MTU of the radio interfaces it was given, each at most once; and in a dry run it
    changes nothing. *)
Theorem start_requests opts stamp pid disk w :
  exists es, w_trace (main_start opts stamp pid disk w).2 = es ++ w_trace w /\ NoDup (mtus es) /\
  match cli_loop opts cli_init with
  | inl _ => es = []
  | inr c => Forall (start_event (cli_cfg c)) es /\ (cli_checks (cli_cfg c) = false -> es = [])
  end.
Proof.
  destruct (start_mtus opts stamp pid disk w) as (es & He & Hm). exists es. split; [done|].
  split; [done|]. destruct (cli_loop opts cli_init) as [code|c] eqn:E.
  { revert He. unfold main_start. rewrite E. cbn. intros He. by apply (app_inv_tail (w_trace w) es []). }
  split.
  - destruct (bring_up_start_ok opts stamp pid disk c E) as [H _]. destruct (H w) as (es' & He' & Hf).
    rewrite He in He'. by apply app_inv_tail in He' as ->.
  - intros Hc. revert He. unfold main_start. rewrite E. destruct c as [cfg lg]. cbn [cli_cfg] in *.
    rewrite Hc. cbn. intros He. by apply (app_inv_tail (w_trace w) es []).
Qed.

(** *** The command line and the registry *)

(** The row [name] has a value inside its bounds. *)
Definition row_set (c c' : Cli) (i : nat) (v : Value) : Prop :=
  exists t, TUNABLES !! i = Some t /\ values (cli_cfg c') = <[i := v]> (values (cli_cfg c)) /\
  (in_range t v \/ td_name t = "mcs.failsafe_timeout_s"%string).

Lemma int_in_range t lo hi v : td_lo t = F64.of_Z lo -> td_hi t = F64.of_Z hi ->
  0 <= lo <= v -> v <= hi < 2 ^ 31 -> in_range t (VInt v) /\ in_range t (VLong v).
Proof.
  intros Hl Hh Hv Hv'. assert (outside t (F64.of_Z v) = false) as H.
  { unfold outside. rewrite Hl, Hh, !flt_of_Z by lia.
    replace (v <? lo) with false by lia. replace (hi <? v) with false by lia. apply andb_false_r. }
  split; [split; [unfold INT_MIN, INT_MAX; lia|exact H]|exact H].
Qed.

(** An option that sets the integer row [i] to a value of its window. *)
Ltac row_number i lo hi :=
  eexists; split; [reflexivity|]; split;
  [apply (rows_frame_lookup 0 TUNABLES i _ all_rows_frame eq_refl)
  |left; by apply (int_in_range _ lo hi); [reflexivity|reflexivity|lia|lia]].

Ltac row_other i :=
  eexists; split; [reflexivity|]; split;
  [apply (rows_frame_lookup 0 TUNABLES i _ all_rows_frame eq_refl)|first [by left|by right]].

Lemma cli_step_rows opt arg c c' : cli_step opt arg c = inr c' ->
  values (cli_cfg c') = values (cli_cfg c) \/ exists i v, row_set c c' i v.
Proof.
  intros Hs.
  destruct opt; cbn [cli_step] in Hs; try done;
    first [ apply endpoint_sound in Hs as (host & port & -> & _ & _)
          | apply ranged_sound in Hs as [-> ?]
          | injection Hs as <-
          | (case_bool_in Hs; [done|]; injection Hs as <-) ];
    try (left; reflexivity); right.
  - exists 0%nat, (VInt (atoi arg)). row_number 0%nat 0 65535.
  - exists 1%nat, (VBool true). row_other 1%nat.
  - exists 3%nat, (VBool false). row_other 3%nat.
  - exists 21%nat, (VLong (atol arg)). row_number 21%nat 100 200000.
  - exists 28%nat, (VInt (atoi arg)). row_number 28%nat 0 4000.
  - exists 29%nat, (VInt (atoi arg)). row_number 29%nat 576 4000.
  - exists 30%nat, (VInt (atoi arg)). row_number 30%nat 0 100.
  - exists 31%nat, (VInt (atoi arg)). row_number 31%nat 0 200.
  - exists 38%nat, (VBool false). row_other 38%nat.
  - eexists 43%nat, (VFloat _). row_other 43%nat.
  - exists 86%nat, (VBool true). row_other 86%nat.
  - exists 2%nat, (VInt 1). row_number 2%nat 0 4.
Qed.

(** The command line respects the registry: after any accepted command line every
    registered parameter has its default or a value inside the bounds [/set] enforces, with the
    one exception of the failsafe time, which is taken as it is. *)
Theorem command_line_in_registry opts c i t : cli_loop opts cli_init = inr c ->
  TUNABLES !! i = Some t -> td_name t <> "mcs.failsafe_timeout_s"%string ->
  values (cli_cfg c) !! i = values config_defaults !! i \/
  exists v, values (cli_cfg c) !! i = Some v /\ in_range t v.
Proof.
  intros Hc Hi Hn.
  assert (forall opts c0 c, cli_loop opts c0 = inr c ->
    (values (cli_cfg c0) !! i = values config_defaults !! i \/
     exists v, values (cli_cfg c0) !! i = Some v /\ in_range t v) ->
    values (cli_cfg c) !! i = values config_defaults !! i \/
    exists v, values (cli_cfg c) !! i = Some v /\ in_range t v) as H; [|apply (H _ _ _ Hc); by left].
  clear opts c Hc. induction opts as [|[opt arg] opts IH]; intros c0 c Hc H0; cbn [cli_loop] in Hc.
  { by injection Hc as <-. }
  destruct (cli_step opt arg c0) as [|c1] eqn:Es; [done|]. apply (IH _ _ Hc). clear IH Hc.
  destruct (cli_step_rows _ _ _ _ Es) as [-> | (j & v & u & Hj & -> & Hv)]; [done|].
  destruct (decide (i = j)) as [<-|Hij]; [|by rewrite list_lookup_insert_ne].
  right. exists v. rewrite Hi in Hj. injection Hj as <-. split.
  - apply list_lookup_insert_eq. unfold values. rewrite length_map. by eapply lookup_lt_Some.
  - by destruct Hv.
Qed.
End Sound.

(** *** The options and their help *)

(** The options the usage text does not name. *)
Definition undocumented : list string :=
  List.filter (fun name => negb (contains (usage "") ("--" ++ name)%string))
    (map (fun r => r.1.1) longopts).

Example undocumented_options : undocumented =
  ["tx-pwr-by-rate"; "key-file"; "no-recovery"; "recovery-port"; "recovery-cmd"; "recovery-arm-count"]%string.
Proof. vm_compute. reflexivity. Qed.

(** ** The theorems on a concrete command line *)

Definition cli_sample : list (CliOpt * string) := [
  (OPT_PROBE, "127.0.0.1:8001"); (OPT_CSA_IFACE, "wlan0"); (OPT_WFB_IFACE, "wlan0");
  (OPT_IFACE_MTU, "4052"); (OPT_BITRATE_MIN, "3000"); (OPT_API_PORT, "0")]%string.

Definition kernel_kind : SockEnv := {| sock_ok := fun _ _ => true |}.
Definition sd_silent : SdEnv := {| sd_accepts := fun _ _ _ => false |}.

Definition sample_start : (Z + Started) * World :=
  @main_start abi_lp64 kernel_kind peer_ok sd_silent cli_sample "" 1 (Build_Disk None false None 0)
    world_init.

Example sample_started : match sample_start.1 with
  | inr st => fec_bitrate_min_kbps (cfg_fec (d_cfg (st_daemon st))) = 3000 /\
              mtus (w_trace sample_start.2) = ["wlan0"%string]
  | inl _ => False
  end.
Proof. vm_compute. by split. Qed.

(** Without a probe the daemon does not start. *)
Example probe_required :
  (@main_start abi_lp64 kernel_kind peer_ok sd_silent [] "" 1 (Build_Disk None false None 0)
     world_init).1 = inl 1.
Proof. vm_compute. reflexivity. Qed.

Lemma command_line_in_registry_witness : exists c v,
  @cli_loop abi_lp64 cli_sample cli_init = inr c /\ values (cli_cfg c) !! 21%nat = Some v /\
  v = VLong 3000 /\ (Some v = values config_defaults !! 21%nat \/
    exists u t, Some v = Some u /\ TUNABLES !! 21%nat = Some t /\ @in_range t u).
Proof.
  destruct (@cli_loop abi_lp64 cli_sample cli_init) as [code|c] eqn:E; [vm_compute in E; discriminate|].
  destruct (TUNABLES !! 21%nat) as [t|] eqn:Et; [|vm_compute in Et; discriminate].
  assert (td_name t <> "mcs.failsafe_timeout_s"%string) as Hn.
  { vm_compute in Et. injection Et as <-. vm_compute. discriminate. }
  pose proof (@command_line_in_registry abi_lp64 cli_sample c 21 t E Et Hn) as H.
  assert (values (cli_cfg c) !! 21%nat = Some (VLong 3000)) as Hv.
  { clear H. vm_compute in E. injection E as <-. vm_compute. reflexivity. }
  exists c, (VLong 3000). split; [done|]. split; [exact Hv|]. split; [done|]. rewrite Hv in H.
  destruct H as [H|(u & Hu & Hr)]; [by left|right]. exists u, t. by split_and!.
Defined.
