(* ===== verification/Outcomes.v ===== *)
(** * What becomes of each input

    Theorems about single steps of the loop: a deferred drop, a decision of the law, an
    operator's write, the diagnostic and recovery channels, probe records, and frames that
    arrive under back pressure. *)

From S2P Require Import Prelude CFloat Config CString Io Net Fec Bitrate Scorer Selector Commit.
From S2P Require Import Wcmd.
From S2P Require Import Recovery Csa Tunables Daemon Api Inputs Safety.

Section Outcomes.
Context {ABI : CAbi} {EV : Env}.

(** ** Deferred drops *)

Lemma sf_clear_frame d : exists sf, sf_clear d = (d <| d_sf := sf |>).
Proof.
  unfold sf_clear. case_bool; [by eexists|]. exists (d_sf d). by destruct d.
Qed.

Lemma sf_note_frame d t now : exists sf, sf_note d t now = (d <| d_sf := sf |>).
Proof.
  unfold sf_note. case_bool; [by eexists|]. exists (d_sf d). by destruct d.
Qed.

(** A deferred drop waits for its deadline; then the stored radio body, and nothing
    else, is sent, and either it is acknowledged, adopted and the deferral ends, or the
    same body stays scheduled 100 ms later. *)
Theorem deferred_drop d now w :
  pd_active (d_pending d) = true ->
  let p := d_pending d in
  let '(d', w') := pending_tick d now w in
  if now <? pd_deadline_us p then d' = d /\ w' = w
  else
    (exists es, w_trace w' = (es ++ w_trace w)%list /\
       Forall (is_set_radio (d_cfg d) (pd_pending_radio p)) es) /\
    d_sel d' = d_sel d /\
    (pd_active (d_pending d') = false /\ d_body d' = pd_pending_radio p /\
     d_emit_mcs d' = pd_target_mcs p /\
     radio_mcs (d_radio d') = rb_mcs_index (pd_pending_radio p) \/
     d_pending d' = (p <| pd_deadline_us := u64 (now + 100000) |>) /\
     d_body d' = d_body d /\ d_radio d' = d_radio d).
Proof.
  intros Ha. cbv zeta. unfold pending_tick. cbv zeta. rewrite Ha. cbn [andb].
  rewrite Z.geb_leb. destruct (Z.leb_spec (pd_deadline_us (d_pending d)) now) as [Hn|Hn].
  2: { rewrite (proj2 (Z.ltb_lt _ _)) by done. done. }
  rewrite (proj2 (Z.ltb_ge _ _)) by done. unfold io_bind.
  destruct (performs_set_radio (d_cfg d) (pd_pending_radio (d_pending d)) w) as (es & E & HF).
  destruct (wfb_set_radio _ _ _ w) as [rc w']. cbn in E. unfold io_ret. case_bool.
  - match goal with |- context [sf_clear (observe ?d1 ?b ?t)] =>
      destruct (sf_clear_frame (observe d1 b t)) as [sf ->];
      destruct (observe_frame d1 b t) as (r & c & -> & _ & _ & Hr) end.
    split; [by exists es|]. split; [done|]. by left.
  - destruct (sf_note_frame d (pd_target_mcs (d_pending d)) now) as [sf ->].
    split; [by exists es|]. split; [done|]. by right.
Qed.

(** ** Decisions *)

Lemma commit_cases d m now w :
  let '((rc, d'), w') := daemon_commit d m now w in
  (exists p c lw, d' = (d <| d_pending := p |> <| d_ctrl := c |> <| d_lw := lw |>)) /\
  (rc = 1 /\ pd_active (d_pending d') = true /\ pd_target_mcs (d_pending d') = m \/
   (rc = 0 \/ rc = -1) /\ pd_active (d_pending d') = false).
Proof.
  unfold daemon_commit, commit_mcs_change. cbv zeta. unfold io_bind.
  destruct (_ && _ && _).
  - destruct (commit_mcs_pre_drop_bitrate _ _ _ _ _ _ _) as [[c lw] w']. cbn.
    split; [by eexists _, _, _|]. by left.
  - set (p := if pd_active _ then _ else _).
    assert (pd_active p = false) as Hp by (subst p; by destruct (pd_active (d_pending d)) eqn:?).
    clearbody p. destruct (dry_run (d_cfg d)).
    + cbn. split; [by eexists _, _, _|]. auto.
    + destruct (wfb_set_radio _ _ _ _) as [rc w']. cbn.
      split; [by eexists _, _, _|]. right. split; [case_bool; auto|done].
Qed.

Lemma note_failure_spec d t w :
  let d' := (note_failure d t w).1 in
  (exists sf, d' = (d <| d_sf := sf |>)) /\
  sf_state (d_sf d') = true /\ sf_target_mcs (d_sf d') = t.
Proof.
  unfold note_failure. destruct (negb (sf_state (d_sf d)) || _) eqn:E.
  - cbn. by split; [eexists|].
  - bool_hyps. cbn. split; [exists (d_sf d); by destruct d|]. split; [done|lia].
Qed.

Lemma note_failure_trace d t w : exists es, w_trace (note_failure d t w).2 = (es ++ w_trace w)%list.
Proof. unfold note_failure. case_bool; [by eexists [_]|by exists []]. Qed.

(** Among the events [es] after [h] is a SET_RADIO with [body] to the video transmitter, and the
    transmitter acknowledged it. *)
Definition acknowledged (cfg : Config) (body : RadioBody) (h es : list Event) : Prop :=
  exists post id pre dgram reply,
    es = (post ++ EvCtl (wfb_host cfg) (wfb_port cfg) id (CtlSetRadio body) :: pre)%list /\
    env_ctl_reply (pre ++ h) (ctl_request id (CtlSetRadio body)) = Some dgram /\
    accept_reply id 8 dgram = Some reply.

Definition no_set_radio (e : Event) : Prop :=
  match e with EvCtl _ _ _ (CtlSetRadio _) => False | _ => True end.

Lemma acknowledged_later cfg body h es es0 es1 : acknowledged cfg body (es0 ++ h) es ->
  acknowledged cfg body h (es1 ++ es ++ es0).
Proof.
  intros (post & id & pre & dgram & reply & -> & H1 & H2).
  exists (es1 ++ post)%list, id, (pre ++ es0)%list, dgram, reply. split_and!; [|by rewrite <- app_assoc|done].
  by rewrite <- !app_assoc.
Qed.

Lemma set_radio_acked cfg body w :
  let '(rc, w') := wfb_set_radio (wfb_host cfg) (wfb_port cfg) body w in
  exists es, w_trace w' = (es ++ w_trace w)%list /\
    (rc = 0 /\ acknowledged cfg (norm_radio body) (w_trace w) es \/ rc = -1).
Proof.
  unfold wfb_set_radio, wfb_set_radio_at, io_bind, ctl_round_trip.
  destruct (env_open _ _); cbn [negb]; [|exists []; auto].
  destruct (env_ctl_sent _ _); cbn [negb io_ret]; [|eexists [_]; auto].
  destruct (env_ctl_reply _ _) as [dgram|] eqn:E; [|eexists [_]; auto].
  eexists [_]. split; [reflexivity|]. destruct (accept_reply _ _ _) as [reply|] eqn:Er; [|auto].
  left. split; [done|]. by exists [], (w_req_id w), [], dgram, reply.
Qed.

(** What a commit asks for, by its result. *)
Lemma commit_reaches d m now w : dry_run (d_cfg d) = false ->
  let body := d_body d <| rb_mcs_index := u8 m |> in
  let '((rc, d'), w') := daemon_commit d m now w in
  exists es, w_trace w' = (es ++ w_trace w)%list /\
    (rc = 1 /\ pd_pending_radio (d_pending d') = body /\ Forall no_set_radio es \/
     rc = 0 /\ acknowledged (d_cfg d) (norm_radio body) (w_trace w) es \/ rc = -1).
Proof.
  intros Hd. cbn zeta. unfold daemon_commit. unfold io_bind at 1.
  destruct (defers (d_cfg d) (d_body d) m) eqn:Ed.
  - pose proof (pre_drop_spec (d_cfg d) (d_radio d) (d_ctrl d) (d_lw d) m now w) as H.
    unfold defers in Ed. unfold commit_mcs_change. rewrite Ed. unfold io_bind.
    destruct (commit_mcs_pre_drop_bitrate _ _ _ _ _ _ _) as [[c lw] w']. cbn.
    destruct (steered _ _ _).
    + destruct H as (_ & _ & _ & es & E & HF). exists es. split; [done|]. left. split_and!; try done.
      eapply Forall_impl; [exact HF|]. by intros e [(pl & path & -> & _) _].
    + destruct H as (_ & _ & ->). exists []. split; [done|]. left. by split_and!; [..|constructor].
  - unfold defers in Ed. unfold commit_mcs_change. rewrite Ed, Hd. unfold io_bind.
    pose proof (set_radio_acked (d_cfg d) (d_body d <| rb_mcs_index := u8 m |>) w) as H.
    destruct (wfb_set_radio _ _ _ _) as [rc w']. destruct H as (es & E & H). exists es.
    split; [exact E|]. destruct H as [[-> H]| ->]; cbn; auto.
Qed.

(** How a decision to move to [m] ended, from [snap] and the selector [sel] that made it; [es]
    is what was asked for after [h]. *)
Definition settled (cfg : Config) (snap sel : Selector) (m : Z) (d' : Daemon) (h es : list Event)
    : Prop :=
  (d_sel d' = snap /\ d_body_valid d' = false /\ Forall (fun e => mutates e = false) es) \/
  (d_sel d' = snap /\ sf_state (d_sf d') = true /\ sf_target_mcs (d_sf d') = m) \/
  (d_sel d' = sel /\ pd_active (d_pending d') = true /\ pd_target_mcs (d_pending d') = m /\
   rb_mcs_index (pd_pending_radio (d_pending d')) = u8 m /\ Forall no_set_radio es) \/
  (d_sel d' = sel /\ pd_active (d_pending d') = false /\ d_emit_mcs d' = m /\
   sf_state (d_sf d') = false /\
   exists body, rb_mcs_index body = u8 m /\ acknowledged cfg body h es).

Lemma get_radio_reads host port w :
  exists es, w_trace (wfb_get_radio host port w).2 = (es ++ w_trace w)%list /\
    Forall (fun e => mutates e = false) es.
Proof. by apply performs_get_radio. Qed.

Lemma reads_no_set es : Forall (fun e => mutates e = false) es -> Forall no_set_radio es.
Proof. intros H. eapply Forall_impl; [exact H|]. intros e He. destruct e as [| | | | | | | | | |]; try done; by match goal with c : Ctl |- _ => destruct c end. Qed.

(** The radio body is read when it is not known. *)
Lemma body_known d w :
  let '(d1, w1) := (if d_body_valid d then io_ret d
       else let! got := wfb_get_radio (wfb_host (d_cfg d)) (wfb_port (d_cfg d)) in
            io_ret (match got with
                    | Some b => d <| d_body := b |> <| d_body_valid := true |>
                    | None => d
                    end)) w in
  d_sel d1 = d_sel d /\ d_cfg d1 = d_cfg d /\
  exists es, w_trace w1 = (es ++ w_trace w)%list /\ Forall (fun e => mutates e = false) es.
Proof.
  destruct (d_body_valid d); [cbn; split_and!; try done; by exists []|]. unfold io_bind.
  pose proof (get_radio_reads (wfb_host (d_cfg d)) (wfb_port (d_cfg d)) w) as H.
  by destruct (wfb_get_radio _ _ w) as [[b|] w1].
Qed.

Lemma cleared d : d_sel (sf_clear d) = d_sel d /\ sf_state (d_sf (sf_clear d)) = false /\
  d_pending (sf_clear d) = d_pending d.
Proof. unfold sf_clear. by destruct (sf_state (d_sf d)) eqn:E. Qed.

Lemma observe_keeps d b t : d_sel (observe d b t) = d_sel d /\
  d_pending (observe d b t) = d_pending d /\ d_emit_mcs (observe d b t) = d_emit_mcs d /\
  d_sf (observe d b t) = d_sf d.
Proof. by destruct (observe_frame d b t) as (r & c & -> & _). Qed.

Lemma emit_settled d snap m w : dry_run (d_cfg d) = false ->
  let '(d', w') := emit_decision d snap m w in
  exists es, w_trace w' = (es ++ w_trace w)%list /\
    settled (d_cfg d) snap (d_sel d) m d' (w_trace w) es.
Proof.
  intros Hd. unfold emit_decision. unfold io_bind at 1. pose proof (body_known d w) as H.
  set (first := if d_body_valid d then _ else _) in *.
  destruct (first w) as [d1 w1]. clear first. destruct H as (Es & Ec & es0 & E0 & H0).
  rewrite <- Es. rewrite <- Ec in *. clear Es Ec.
  destruct (d_body_valid d1) eqn:Hv; cbn [negb].
  2:{ exists es0. split; [exact E0|]. by left. }
  unfold io_bind at 1, now_us. set (now := env_now (w_trace w1)).
  set (w2 := w1 <| w_trace := _ |>). clearbody now.
  pose proof (commit_cases d1 m now w2) as K. pose proof (commit_reaches d1 m now w2 Hd) as R.
  cbn zeta in R. unfold io_bind at 1.
  destruct (daemon_commit d1 m _ w2) as [[rc d2] w3].
  destruct K as [(p & c & lw & ->) Hrc], R as (es & E & R).
  assert (w_trace w3 = (es ++ EvNow now :: es0) ++ w_trace w)%list as E3
    by (rewrite E, <- app_assoc; subst w2; cbn; by rewrite E0).
  case_bool.
  - match goal with |- context [note_failure ?d ?t] =>
      pose proof (note_failure_spec d t w3) as ((sf & Ef) & H1 & H2);
      pose proof (note_failure_trace d t w3) as (es4 & E4);
      destruct (note_failure d t w3) as [d4 w4] end.
    cbn [fst snd] in *. exists (es4 ++ es ++ EvNow now :: es0)%list.
    split; [by rewrite E4, E3, <- !app_assoc|]. right. left. by rewrite Ef in *.
  - destruct Hrc as [(-> & H1 & H2)|[[-> | ->] H1]]; [|cbn [Z.eqb]|done].
    + destruct R as [(_ & Hb & Hn)|[[? _]|?]]; [|done|done]. exists (es ++ EvNow now :: es0)%list.
      split; [exact E3|]. right. right. left. cbn in H1, H2, Hb |- *. rewrite Hb.
      split_and!; try done. apply Forall_app. split; [exact Hn|]. constructor; [done|by apply reads_no_set].
    + destruct R as [(? & _)|[[_ Ha]|?]]; [done| |done]. cbn in H1.
      pose proof (cleared (d1 <| d_pending := p |> <| d_ctrl := c |> <| d_lw := lw |>)) as Hc.
      destruct Hc as (C1 & C2 & C3).
      set (d3 := sf_clear _) in *. clearbody d3. cbn in C1, C3. unfold io_bind, now_us.
      pose proof (get_radio_reads (wfb_host (d_cfg d3)) (wfb_port (d_cfg d3)) w3) as (es5 & E5 & _).
      destruct (wfb_get_radio _ _ w3) as [fresh w4]. cbn [snd] in E5.
      match goal with |- context [observe ?a ?b ?t] =>
        pose proof (observe_keeps a b t) as (O1 & O2 & O3 & O4); set (d6 := observe a b t) in * end.
      clearbody d6. cbn in O1, O2, O3, O4. unfold io_ret.
      exists (EvNow (env_now (w_trace w4)) :: es5 ++ es ++ EvNow now :: es0)%list.
      split; [cbn; by rewrite E5, E3, <- !app_assoc|]. right. right. right.
      split; [by rewrite O1|]. split; [by rewrite O2, C3|]. split; [exact O3|].
      split; [by rewrite O4|]. exists (norm_radio (d_body d1 <| rb_mcs_index := u8 m |>)).
      split; [reflexivity|].
      apply (acknowledged_later _ _ _ _ (EvNow now :: es0) (EvNow (env_now (w_trace w4)) :: es5)).
      subst w2. cbn in Ha |- *. by rewrite E0 in Ha.
Qed.

(** (C15) A decision of the law is never left hanging: either the video transmitter
    acknowledged a SET_RADIO with the new rung, or its drop is scheduled with that rung in the
    radio body and no SET_RADIO went out yet, and in both cases the selector keeps the new
    rung; or the selector is put back to where it was before the report, with the failed
    request on record, or, when the radio body could not be read, with nothing asked for but
    that reading. *)
Theorem decision_settled d score now w :
  dry_run (d_cfg d) = false ->
  let '((sel, sd), out) :=
    selector_update (d_sel d) (d_cfg d) score (d_probe d) (tr_in_pressure (d_tr d)) now in
  sd <> SD_NONE ->
  let '(d', w') := decide_mcs d score now w in
  exists es, w_trace w' = (es ++ w_trace w)%list /\
    settled (d_cfg d) (d_sel d) sel (default (-1) out) d' (w_trace w) es.
Proof.
  intros Hd. unfold decide_mcs.
  destruct (selector_update _ _ _ _ _ _) as [[sel sd] out]. intros Hs. cbv zeta.
  rewrite bool_decide_eq_false_2 by done.
  change (dry_run (d_cfg (d <| d_sel := sel |>))) with (dry_run (d_cfg d)). rewrite Hd.
  exact (emit_settled (d <| d_sel := sel |>) (d_sel d) (default (-1) out) w Hd).
Qed.

(** ** A range rewritten in flight *)

Lemma emit_keeps_rung d m now w : d_sel (watchdog_emit d m now w).1 = d_sel d.
Proof.
  unfold watchdog_emit. unfold io_bind at 1. set (sync := if _ && _ then _ else _).
  assert (d_sel (sync w).1 = d_sel d) as <-.
  { subst sync. case_bool; [|done]. unfold io_bind. by destruct (wfb_get_radio _ _ w) as [[b|] w1]. }
  destruct (sync w) as [d1 w1]. cbn [fst]. clear d w sync. case_bool; [|done].
  unfold io_bind. pose proof (commit_cases d1 m now w1) as K.
  destruct (daemon_commit d1 m now w1) as [[rc d2] w2].
  destruct K as [(p & c & lw & ->) _]. unfold io_ret. repeat case_bool; cbn [fst]; [|done|].
  - unfold adopt_sent. match goal with |- context [sf_clear ?d] =>
      destruct (sf_clear_frame d) as [sf ->] end.
    match goal with |- context [observe ?a ?b ?t] =>
      destruct (observe_frame a b t) as (r & c' & -> & _) end. done.
  - match goal with |- context [sf_note ?d ?t ?n] => destruct (sf_note_frame d t n) as [sf ->] end.
    done.
Qed.

(** When the operator moves the permitted range away from under the committed rung,
    the next run of the watchdog brings the rung to the nearest bound: down to a lowered
    maximum, up to a raised minimum. *)
Theorem range_reclaimed d now w :
  let m := cfg_mcs (d_cfg d) in
  mcs_cfg_ok (d_cfg d) -> changes_ok (d_sel d) -> mcs_enabled m = true ->
  tm_watchdog_us (d_tm d) <= now -> 0 <= current_mcs (d_sel d) ->
  ~ rung_ok (d_cfg d) (current_mcs (d_sel d)) ->
  let '(sel, sd, out) := watchdog_decide d now in
  let rung := if current_mcs (d_sel d) >? mcs_max m then mcs_max m else mcs_min m in
  sd = (if current_mcs (d_sel d) >? mcs_max m then SD_DOWN else SD_UP) /\
  out = Some rung /\ current_mcs sel = rung /\ d_sel (watchdog_tick d now w).1 = sel.
Proof.
  cbv zeta. intros Hm Hc He Ht Hs Hr. unfold rung_ok in Hr. unfold watchdog_tick.
  rewrite He, Z.geb_leb, (proj2 (Z.leb_le _ _) Ht). cbn [andb].
  assert (exists sel sd rung, watchdog_decide d now = (sel, sd, Some rung) /\ sd <> SD_NONE /\
    sd = (if current_mcs (d_sel d) >? mcs_max (cfg_mcs (d_cfg d)) then SD_DOWN else SD_UP) /\
    rung = (if current_mcs (d_sel d) >? mcs_max (cfg_mcs (d_cfg d))
            then mcs_max (cfg_mcs (d_cfg d)) else mcs_min (cfg_mcs (d_cfg d))) /\
    current_mcs sel = rung) as (sel & sd & rung & -> & Hd & Esd & Er & Es).
  { unfold watchdog_decide. cbv zeta.
    assert ((current_mcs (d_sel d) >=? 0) &&
      ((current_mcs (d_sel d) <? mcs_min (cfg_mcs (d_cfg d))) ||
       (current_mcs (d_sel d) >? mcs_max (cfg_mcs (d_cfg d)))) = true) as -> by lia.
    destruct (commit_effect_spec (d_sel d) (d_cfg d) (current_mcs (d_sel d)) now
      (if current_mcs (d_sel d) >? mcs_max (cfg_mcs (d_cfg d)) then SD_DOWN else SD_UP) Hm Hc)
      as (s' & -> & He').
    rewrite bool_decide_eq_false_2 by (by case_bool).
    do 3 eexists. split; [reflexivity|]. split; [by case_bool|]. split; [done|].
    split; [|apply (ce_rung _ _ _ _ _ He')].
    unfold mcs_cfg_ok in Hm. unfold clamp_mcs. repeat case_bool; lia. }
  rewrite bool_decide_eq_false_2 by done. split_and!; [done|by subst|by subst|].
  unfold io_bind. pose proof (emit_keeps_rung (d <| d_sel := sel |>) rung now w) as K.
  destruct (watchdog_emit (d <| d_sel := sel |>) rung now w) as [d' w']. exact K.
Qed.

(** ** The switch of the law *)

(** A computation on the changed state does what it did, on the changed result. *)
Definition follows {A} (g : A -> A) (m m' : IO A) : Prop :=
  forall w, m' w = (g (m w).1, (m w).2).

Lemma follows_ret {A} (g : A -> A) x y : y = g x -> follows g (io_ret x) (io_ret y).
Proof. by intros -> w. Qed.

Lemma follows_bind {A B} (h : A -> A) (g : B -> B) (m m' : IO A) (k k' : A -> IO B) :
  follows h m m' -> (forall x, follows g (k x) (k' (h x))) ->
  follows g (io_bind m k) (io_bind m' k').
Proof.
  intros Hm Hk w. unfold io_bind. rewrite (Hm w). destruct (m w) as [x w1]. apply Hk.
Qed.

Lemma follows_read {A B} (g : B -> B) (m : IO A) (k k' : A -> IO B) :
  (forall x, follows g (k x) (k' x)) -> follows g (io_bind m k) (io_bind m k').
Proof. intros Hk w. unfold io_bind. destruct (m w) as [x w1]. apply Hk. Qed.

(** The MCS subsystem switched on or off. *)
Definition mcs_switched (b : bool) (cfg : Config) : Config :=
  cfg <| cfg_mcs := ((cfg_mcs cfg) <| mcs_enabled := b |>) |>.

Definition mcs_switch (b : bool) (d : Daemon) : Daemon := d <| d_cfg := mcs_switched b (d_cfg d) |>.

Lemma scan_switch b fuel cfg p a :
  scan_antennas fuel (mcs_switched b cfg) p a = scan_antennas fuel cfg p a.
Proof.
  revert p a. induction fuel as [|fuel IH]; intros p a; [done|]. cbn [scan_antennas].
  destruct (strstr p _) as [r|]; [|done]. destruct (json_get_int_in r "avg"); [|done].
  cbv zeta. destruct (strchr r (ch 125)); [|done]. apply IH.
Qed.

Lemma score_switch b s cfg text r now :
  score_report s (mcs_switched b cfg) text r now = score_report s cfg text r now.
Proof.
  unfold score_report, scorer_update, scan_report. cbv zeta. by rewrite scan_switch.
Qed.

Lemma select_switch b cfg s score probe p now :
  selector_update s (mcs_switched b cfg) score probe p now =
  selector_update s cfg score probe p now.
Proof.
  assert (forall s t now r,
    selector_commit s (mcs_switched b cfg) t now r = selector_commit s cfg t now r) as C
    by reflexivity.
  assert (forall s, selector_probe s (mcs_switched b cfg) score probe p now =
    selector_probe s cfg score probe p now) as P
    by (intros s'; unfold selector_probe; cbv zeta; by rewrite !C).
  unfold selector_update. cbv zeta. by rewrite !C, P.
Qed.

Lemma commit_switch b cfg p body m radio ctrl lw now :
  commit_mcs_change (mcs_switched b cfg) p body m radio ctrl lw now =
  commit_mcs_change cfg p body m radio ctrl lw now.
Proof.
  assert (forall radio ctrl lw now, bitrate_assert radio ctrl (mcs_switched b cfg) lw now =
    bitrate_assert radio ctrl cfg lw now) as H by reflexivity.
  unfold commit_mcs_change, commit_mcs_pre_drop_bitrate. cbv zeta.
  change (cfg_fec (mcs_switched b cfg)) with (cfg_fec cfg). by rewrite H.
Qed.

Lemma switch_clear b d : sf_clear (mcs_switch b d) = mcs_switch b (sf_clear d).
Proof. unfold sf_clear. cbn. by destruct (sf_state (d_sf d)). Qed.

Lemma switch_observe b d body t :
  observe (mcs_switch b d) body t = mcs_switch b (observe d body t).
Proof.
  unfold observe.
  change (radio_apply_observation (d_radio (mcs_switch b d)) (d_ctrl (mcs_switch b d))
    (d_cfg (mcs_switch b d))) with (radio_apply_observation (d_radio d) (d_ctrl d) (d_cfg d)).
  by destruct (radio_apply_observation _ _ _ _ _ _ _ _ _ _ _).
Qed.

Lemma switch_note b d t :
  follows (mcs_switch b) (note_failure d t) (note_failure (mcs_switch b d) t).
Proof.
  unfold note_failure. change (d_sf (mcs_switch b d)) with (d_sf d). case_bool.
  - apply follows_read. intros now. by apply follows_ret.
  - by apply follows_ret.
Qed.

Lemma switch_commit b d m now :
  follows (fun r => (r.1, mcs_switch b r.2)) (daemon_commit d m now)
    (daemon_commit (mcs_switch b d) m now).
Proof.
  unfold daemon_commit. change (d_cfg (mcs_switch b d)) with (mcs_switched b (d_cfg d)).
  rewrite commit_switch. apply follows_read. intros r. by apply follows_ret.
Qed.

Lemma switch_realign b d : follows (mcs_switch b) (realign d) (realign (mcs_switch b d)).
Proof.
  unfold realign. cbv zeta. change (d_sel (mcs_switch b d)) with (d_sel d).
  change (covered_by_pending (mcs_switch b d)) with (covered_by_pending d).
  change (d_body_valid (mcs_switch b d)) with (d_body_valid d).
  change (d_body (mcs_switch b d)) with (d_body d).
  change (dry_run (d_cfg (mcs_switch b d))) with (dry_run (d_cfg d)).
  case_bool; [|by apply follows_ret]. case_bool; [|by apply follows_ret].
  apply follows_read. intros now. eapply follows_bind; [apply switch_commit|].
  intros [rc d1]. cbn [fst snd]. case_bool.
  - apply follows_read. intros t. apply follows_ret.
    rewrite <- switch_clear, <- switch_observe. done.
  - case_bool; [by apply follows_ret|apply switch_note].
Qed.

Lemma switch_emit b d snap m :
  follows (mcs_switch b) (emit_decision d snap m) (emit_decision (mcs_switch b d) snap m).
Proof.
  unfold emit_decision. apply (follows_bind (mcs_switch b)).
  - change (d_body_valid (mcs_switch b d)) with (d_body_valid d). case_bool; [by apply follows_ret|].
    apply follows_read. intros got. apply follows_ret. by destruct got.
  - clear d. intros d. change (d_body_valid (mcs_switch b d)) with (d_body_valid d).
    case_bool; [by apply follows_ret|]. apply follows_read. intros now.
    eapply follows_bind; [apply switch_commit|]. intros [rc d1]. cbn [fst snd].
    case_bool; [exact (switch_note b (d1 <| d_sel := snap |>) m)|].
    case_bool; [by apply follows_ret|]. cbv zeta. rewrite switch_clear.
    apply follows_read. intros fresh. apply follows_read. intros t. apply follows_ret.
    rewrite <- switch_observe. done.
Qed.

(** The switch of the MCS subsystem does not reach the ground station's stream: whatever
    report arrives, the law decides, the radio is realigned and requests are sent exactly
    as they would be with the switch the other way. *)
Theorem mcs_switch_ignored b d text w :
  on_text (mcs_switch b d) text w =
    (mcs_switch b (on_text d text w).1, (on_text d text w).2).
Proof.
  revert w. change (follows (mcs_switch b) (on_text d text) (on_text (mcs_switch b d) text)).
  unfold on_text. case_bool.
  { apply follows_read. intros now. by apply follows_ret. }
  destruct (parse_report text) as [[r|]|]; [|by apply follows_ret..].
  apply follows_read. intros now.
  change (d_cfg (mcs_switch b d)) with (mcs_switched b (d_cfg d)). rewrite score_switch.
  change (d_scorer (mcs_switch b d)) with (d_scorer d).
  destruct (score_report _ _ _ _ _) as [scorer [score|]]; [|by apply follows_ret]. cbv zeta.
  set (d1 := d <| d_scorer := scorer |> <| d_rx_ant_us := now |> <| d_score := score |>).
  change (follows (mcs_switch b) (decide_mcs d1 score now) (decide_mcs (mcs_switch b d1) score now)).
  generalize d1. clear. intros d. unfold decide_mcs. cbv zeta.
  change (d_cfg (mcs_switch b d)) with (mcs_switched b (d_cfg d)). rewrite select_switch.
  change (d_sel (mcs_switch b d)) with (d_sel d). change (d_probe (mcs_switch b d)) with (d_probe d). change (d_tr (mcs_switch b d)) with (d_tr d).
  destruct (selector_update _ _ _ _ _ _) as [[sel sd] out].
  change (dry_run (d_cfg (mcs_switch b d <| d_sel := sel |>))) with (dry_run (d_cfg d)).
  change (dry_run (d_cfg (d <| d_sel := sel |>))) with (dry_run (d_cfg d)).
  case_bool; [exact (switch_realign b (d <| d_sel := sel |>))|].
  case_bool; [by apply follows_ret|]. exact (switch_emit b (d <| d_sel := sel |>) (d_sel d) (default (-1) out)).
Qed.

(** ** The operator's writes *)

(** Whether the law takes over the operator's rung. *)
Definition adopts (d : Daemon) (wb : RadioBody) : bool :=
  mcs_enabled (cfg_mcs (d_cfg d)) && (current_mcs (d_sel d) >=? 0) &&
  negb (covered_by_pending d (current_mcs (d_sel d))) &&
  negb (rb_mcs_index wb =? current_mcs (d_sel d)).

(** A radio write of the operator becomes the daemon's own view: the cache is the
    written body, a deferred drop keeps its rung and takes the other fields, and the law
    continues from the operator's rung, clamped to the configured range.  Nothing is sent. *)
Theorem operator_write_adopted d w :
  daemon_ok d ->
  let wb := ws_radio_written_body (d_wcmd d) in
  let '(d', w') := write_through d w in
  d_body d' = wb /\ d_body_valid d' = true /\ ws_radio_written (d_wcmd d') = false /\
  radio_mcs (d_radio d') = rb_mcs_index wb /\
  (pd_active (d_pending d) = true ->
   pd_target_mcs (d_pending d') = pd_target_mcs (d_pending d) /\
   pd_pending_radio (d_pending d') = (wb <| rb_mcs_index := pd_target_mcs (d_pending d) |>)) /\
  (if adopts d wb then current_mcs (d_sel d') = clamp_mcs (d_cfg d) (rb_mcs_index wb)
   else d_sel d' = d_sel d) /\
  exists es, w_trace w' = (es ++ w_trace w)%list /\ mutations es = 0%nat.
Proof.
  intros Hd. cbv zeta. unfold write_through, adopts. set (wb := ws_radio_written_body (d_wcmd d)).
  assert (pd_active (d_pending d) = true ->
    pd_target_mcs (carry_pending (d_pending d) wb) = pd_target_mcs (d_pending d) /\
    pd_pending_radio (carry_pending (d_pending d) wb) =
      (wb <| rb_mcs_index := pd_target_mcs (d_pending d) |>)) as Hp.
  { unfold carry_pending. intros E. rewrite E. cbn.
    destruct (dk_pending d Hd E) as (_ & E1 & _). by rewrite E1. }
  assert (covered_by_pending (d <| d_pending := carry_pending (d_pending d) wb |>)
    (current_mcs (d_sel d)) = covered_by_pending d (current_mcs (d_sel d))) as Hv.
  { unfold covered_by_pending, carry_pending. cbn.
    destruct (pd_active (d_pending d)) eqn:E; cbn; by rewrite ?E. }
  revert Hp Hv. generalize (carry_pending (d_pending d) wb) as p. intros p Hp Hv.
  cbv zeta. set (d1 := _ <| d_pending := p |>).
  change (covered_by_pending d1 (current_mcs (d_sel d1))) with
    (covered_by_pending (d <| d_pending := p |>) (current_mcs (d_sel d))).
  rewrite Hv. unfold io_bind at 1.
  change (mcs_enabled (cfg_mcs (d_cfg d1)) && (current_mcs (d_sel d1) >=? 0) && _ && _)
    with (adopts d wb).
  fold (adopts d wb). destruct (adopts d wb) eqn:Ea.
  - unfold io_bind at 1, now_us. cbv beta zeta. cbn [fst].
    match goal with |- context [selector_commit ?s ?c ?t ?n ?r] =>
      destruct (commit_effect_spec s c t n r (lo_mcs _ (dk_limits d Hd))
        (so_changes _ _ (dk_sel d Hd))) as (s' & -> & He) end.
    cbn [io_ret]. unfold io_bind, now_us. cbv beta zeta.
    match goal with |- context [observe ?a ?b ?t] =>
      destruct (observe_frame a b t) as (r & c & Eo & _ & _ & Hr) end.
    unfold io_ret. rewrite Eo. split_and!; try done; [apply (ce_rung _ _ _ _ _ He)|].
    by exists [EvNow (env_now (EvNow (env_now (w_trace w)) :: w_trace w)); EvNow (env_now (w_trace w))].
  - cbn [io_ret]. unfold io_bind, now_us. cbv beta zeta.
    match goal with |- context [observe ?a ?b ?t] =>
      destruct (observe_frame a b t) as (r & c & Eo & _ & _ & Hr) end.
    unfold io_ret. rewrite Eo. split_and!; try done.
    by exists [EvNow (env_now (w_trace w))].
Qed.

(** Only the ground's commands are handed over: after one of them no written body is left
    waiting, while a request to the API, [/cmd] included, touches the configuration and the
    command state and nothing else, so that a body [/cmd] has written to the radio stays out
    of the daemon's cache, its selector and its deferred drop. *)
Theorem local_write_unadopted start d w req cmd from :
  let '(d', _) := api_handle_request start d req w in
  d' = (d <| d_cfg := d_cfg d' |> <| d_wcmd := d_wcmd d' |> <| d_sync := d_sync d' |>
          <| d_local_seq := d_local_seq d' |>) /\
  ws_radio_written (d_wcmd (on_command start d cmd from w).1) = false.
Proof.
  assert (forall d0, d0 = (d0 <| d_cfg := d_cfg d0 |> <| d_wcmd := d_wcmd d0 |>
    <| d_sync := d_sync d0 |> <| d_local_seq := d_local_seq d0 |>)) as Eta by (by intros []).
  assert (ws_radio_written (d_wcmd (on_command start d cmd from w).1) = false) as Hc.
  { unfold on_command, io_bind, now_us, io_log. cbv beta zeta.
    destruct (wcmd_dispatch _ _ _ _ _ _) as [[[rc resp] px] w1].
    set (d1 := _ <| d_sync := px_sync px |>). destruct (ws_radio_written (d_wcmd d1)) eqn:E; [|exact E].
    unfold write_through, io_bind, now_us. cbv beta zeta.
    match goal with |- context [if ?b then _ else _] => destruct b end.
    - destruct (selector_commit _ _ _ _ _) as [[sel sd] out]. unfold io_ret. cbv beta zeta.
      match goal with |- context [observe ?a ?b ?t] =>
        destruct (observe_frame a b t) as (r & c & -> & _) end. reflexivity.
    - unfold io_ret. match goal with |- context [observe ?a ?b ?t] =>
        destruct (observe_frame a b t) as (r & c & -> & _) end. reflexivity. }
  unfold api_handle_request.
  destruct (request_target req) as [[path qs]|]; [|by split; [apply Eta|]].
  case_bool; [by split; [destruct d|]|]. case_bool.
  - unfold api_cmd. destruct (cmd_params qs) as [[key v]|]; [|by split; [apply Eta|]].
    unfold io_bind, now_us. cbv beta zeta.
    destruct (wcmd_dispatch _ _ _ _ _ _) as [[[rc resp] px] w1]. by split.
  - unfold io_bind, io_log, io_ret. repeat case_bool; by split; [apply Eta|].
Qed.

(** ** Separate channels *)

(** The vehicle's own reception report is a diagnostic: it changes the uplink record
    and nothing else, and makes the daemon do nothing but read the clock. *)
Theorem uplink_isolated d g w :
  let '(d', w') := on_uplink d g w in
  d' = (d <| d_up := d_up d' |>) /\
  exists es, w_trace w' = (es ++ w_trace w)%list /\ Forall (fun e => exists t, e = EvNow t) es.
Proof.
  assert (d = (d <| d_up := d_up d |>)) as Eta by (by destruct d).
  unfold on_uplink. destruct (2048 <=? _)%nat; [split; [exact Eta|by exists []]|].
  destruct (parse_report _) as [[r|]|]; try (split; [exact Eta|by exists []]).
  unfold io_bind at 1, now_us. cbv beta zeta.
  destruct (score_report _ _ _ _ _) as [sc [score|]].
  - unfold io_bind, io_ret. split; [done|]. eexists [_; _]. split; [reflexivity|].
    repeat constructor; eauto.
  - unfold io_ret. split; [done|]. eexists [_]. split; [reflexivity|]. repeat constructor; eauto.
Qed.

(** What the recovery channel may make the daemon do. *)
Definition recovery_event (cfg : Config) (e : Event) : Prop :=
  match e with
  | EvNow _ | EvReply _ => True
  | EvRecoveryCmd cmd => cmd = recovery_apfpv_cmd (cfg_recovery cfg)
  | _ => False
  end.

Lemma recovery_performs cfg st req now :
  performs (recovery_event cfg) (recovery_dispatch cfg st req now).
Proof.
  unfold recovery_dispatch. repeat (case_bool; [apply performs_ret|]). cbv zeta.
  apply performs_bind; [|intros; apply performs_ret]. by apply performs_recovery_cmd.
Qed.

(** The keyless recovery socket reaches its own state and the one configured hook,
    whatever bytes arrive on it: no other variable of the daemon changes and no other
    request is made. *)
Theorem recovery_isolated d g w :
  let '(d', w') := on_recovery d g w in
  d' = (d <| d_rv := d_rv d' |>) /\
  exists es, w_trace w' = (es ++ w_trace w)%list /\ Forall (recovery_event (d_cfg d)) es.
Proof.
  assert (d = (d <| d_rv := d_rv d |>)) as Eta by (by destruct d).
  unfold on_recovery. destruct (req_decode _) as [req|]; [|split; [exact Eta|by exists []]].
  destruct (negb _); [split; [exact Eta|by exists []]|].
  unfold io_bind at 1, now_us. set (now := env_now _). set (w1 := w <| w_trace := _ |>).
  destruct (recovery_performs (d_cfg d) (d_rv d) req now w1) as (es & E & HF).
  unfold io_bind, io_log, io_ret.
  destruct (recovery_dispatch _ _ _ _ w1) as [[resp rv] w2]. cbn in E. split; [done|].
  exists (EvReply (resp_encode resp) :: es ++ [EvNow now])%list. split.
  - cbn. by rewrite E, <- app_assoc.
  - constructor; [done|]. apply Forall_app. split; [done|]. by repeat constructor.
Qed.

(** ** Probe records *)

(** The error rate of a record is the lost fraction in parts per thousand, rounded to
    the nearest; a sane record gives a rate between 0 and 1000. *)
Theorem per_milli_nearest acc lost :
  0 < acc -> 0 <= lost <= acc -> acc * 1001 <= LONG_MAX ->
  2 * Z.abs (per_milli acc lost * acc - lost * 1000) <= acc /\ 0 <= per_milli acc lost <= 1000.
Proof.
  intros Ha Hl Hb. unfold per_milli. rewrite (proj2 (Z.gtb_lt _ _)) by lia.
  rewrite (Z.quot_div_nonneg acc 2) by lia.
  assert (0 <= acc / 2 /\ 2 * (acc / 2) <= acc /\ acc <= 2 * (acc / 2) + 1) as (B0 & B1 & B2)
    by (pose proof (Z.div_mod acc 2); pose proof (Z.mod_pos_bound acc 2); lia).
  assert (long_cast (lost * 1000 + acc / 2) = lost * 1000 + acc / 2) as ->.
  { pose proof LONG_MAX_ge. unfold long_cast. apply swrap_small.
    - destruct long_bits_ok as [-> | ->]; lia.
    - unfold LONG_MAX in *. destruct long_bits_ok as [Eb | Eb]; rewrite Eb in *; lia. }
  rewrite Z.quot_div_nonneg by lia.
  pose proof (Z.div_mod (lost * 1000 + acc / 2) acc ltac:(lia)) as D.
  pose proof (Z.mod_pos_bound (lost * 1000 + acc / 2) acc Ha) as M.
  revert D M. generalize ((lost * 1000 + acc / 2) / acc) as q.
  generalize ((lost * 1000 + acc / 2) mod acc) as r. intros r q D M.
  assert (0 <= q <= 1000) as Hq by nia.
  rewrite i32_small by (unfold INT_MIN, INT_MAX; lia). split; [|done].
  assert (q * acc - lost * 1000 = acc / 2 - r) as -> by lia. lia.
Qed.

(** ** Waiting *)

(** The timers of the loop besides the heartbeat, and whether they run. *)
Definition timers (d : Daemon) (csa_next_us : Z) : list (bool * Z) :=
  let cfg := d_cfg d in
  let tm := d_tm d in
  [(mcs_enabled (cfg_mcs cfg) && (tm_watchdog_us tm >? 0), tm_watchdog_us tm);
   (fec_enabled (cfg_fec cfg) && (tm_subscribe_us tm >? 0), tm_subscribe_us tm);
   (fec_enabled (cfg_fec cfg) && (fec_wfb_stats_port (cfg_fec cfg) =? 0) &&
    (tm_radio_us tm >? 0), tm_radio_us tm);
   (pd_active (d_pending d), pd_deadline_us (d_pending d));
   (csa_next_us >? 0, csa_next_us);
   (probe_on d && negb (probe_feed_port cfg =? 0) && (pt_next_feed_us (d_pt d) >? 0),
    pt_next_feed_us (d_pt d))].

Definition armed_timers (d : Daemon) (csa_next_us : Z) : list Z :=
  tm_heartbeat_us (d_tm d) :: map snd (List.filter fst (timers d csa_next_us)).

Lemma sooner_fold (l : list (bool * Z)) t0 :
  let r := fold_left (fun t p => sooner p.1 p.2 t) l t0 in
  In r (t0 :: map snd (List.filter fst l)) /\
  forall t, In t (t0 :: map snd (List.filter fst l)) -> r <= t.
Proof.
  cbv zeta. revert t0. induction l as [|[b x] l IH]; intros t0.
  { split; [by left|]. intros t [->|[]]. cbn. lia. }
  cbn [fold_left List.filter fst snd]. destruct (IH (sooner b x t0)) as [H1 H2].
  assert (sooner b x t0 = if b then Z.min x t0 else t0) as E
    by (unfold sooner; destruct b; cbn; [|done]; case_bool; lia).
  rewrite E in *. destruct b; cbn [map fst snd] in *.
  - split.
    + destruct H1 as [H1|H1]; [|by right; right].
      rewrite <- H1. destruct (Z.min_spec x t0) as [[_ ->]|[_ ->]]; [right; by left|by left].
    + intros t [->|[->|Ht]]; [..|apply H2; by right].
      all: pose proof (H2 _ (or_introl eq_refl)); lia.
  - split; [exact H1|exact H2].
Qed.

(** The loop never oversleeps and never spins: the wait is at most 100 ms, ends within
    a millisecond of the first timer to run out, is zero exactly when one already has, and
    this for every timer of the loop that is armed. *)
Theorem poll_wakes d csa_next_us now :
  let wait := poll_timeout_ms (poll_deadline d csa_next_us) now in
  0 <= wait <= 100 /\
  (forall t, In t (armed_timers d csa_next_us) -> now + wait * 1000 <= Z.max now (t + 1000)) /\
  (wait = 0 <-> exists t, In t (armed_timers d csa_next_us) /\ t <= now).
Proof.
  cbv zeta. set (r := poll_deadline d csa_next_us).
  assert (In r (armed_timers d csa_next_us) /\
    forall t, In t (armed_timers d csa_next_us) -> r <= t) as [H1 H2]
    by exact (sooner_fold (timers d csa_next_us) (tm_heartbeat_us (d_tm d))).
  clearbody r. generalize dependent (armed_timers d csa_next_us). intros l H1 H2.
  unfold poll_timeout_ms. rewrite Z.gtb_ltb. destruct (Z.ltb_spec now r) as [Hr|Hr].
  - pose proof (Z.div_mod (r - now) 1000 ltac:(lia)).
    pose proof (Z.mod_pos_bound (r - now) 1000 ltac:(lia)). split; [case_bool; lia|].
    split; [intros t Ht%H2; case_bool; lia|]. split; [case_bool; lia|].
    intros (t & Ht%H2 & ?). lia.
  - split; [lia|]. split; [intros t Ht%H2; lia|]. split; [|done]. intros _. by exists r.
Qed.

(** ** Back pressure *)

(** The trailer of a skipped frame, and the write it may cause. *)
Definition skip_since (d : Daemon) (now : Z) : Z :=
  if tr_skip_since_us (d_tr d) =? 0 then now else tr_skip_since_us (d_tr d).

(** The skips have lasted, and the last corrective write is as old. *)
Definition wedged (d : Daemon) (now : Z) : bool :=
  let s := fec_backpressure_recover_s (cfg_fec (d_cfg d)) in
  fle s (us_to_secs (u64 (now - skip_since d now))) &&
  ((tr_recover_us (d_tr d) =? 0) || fle s (us_to_secs (u64 (now - tr_recover_us (d_tr d))))).

Definition wedge_armed (cfg : Config) : bool :=
  let f := cfg_fec cfg in
  fec_skip_on_backpressure f && negb (dry_run cfg) && fec_enabled f &&
  fec_safe_startup_enabled f && flt f0 (fec_backpressure_recover_s f).

(** The wedge watchdog: a skipped frame is counted; when skips have gone on unbroken for
    the configured time, and no corrective write was made for as long, the safe bitrate is
    written once and the time of the write remembered; otherwise nothing is written. *)
Theorem wedge_watchdog d w :
  let now := env_now (w_trace w) in
  let '(d', w') := on_skip d w in
  (exists tr, d' = (d <| d_tr := tr |>)) /\
  tr_fec_skipped (d_tr d') = u32 (tr_fec_skipped (d_tr d) + 1) /\
  if wedge_armed (d_cfg d) then
    tr_skip_since_us (d_tr d') = skip_since d now /\
    if wedged d now then
      tr_recover_us (d_tr d') = now /\
      exists es, w_trace w' = (es ++ EvNow now :: w_trace w)%list /\
        Forall (is_bitrate_write (d_cfg d)
          (fec_safe_startup_bitrate_kbps (cfg_fec (d_cfg d)))) es
    else tr_recover_us (d_tr d') = tr_recover_us (d_tr d) /\ w_trace w' = EvNow now :: w_trace w
  else w' = w.
Proof.
  cbv zeta. unfold on_skip. cbv zeta.
  set (tr1 := d_tr d <| tr_fec_skipped := _ |>).
  change (d_cfg (d <| d_tr := tr1 |>)) with (d_cfg d). fold (wedge_armed (d_cfg d)).
  destruct (wedge_armed (d_cfg d)); [|by split; [eexists|]].
  unfold io_bind at 1, now_us. set (now := env_now (w_trace w)). cbv beta zeta.
  change (d_tr (d <| d_tr := tr1 |>)) with tr1.
  set (tr2 := if tr_skip_since_us tr1 =? 0 then _ else tr1).
  assert (tr_skip_since_us tr2 = skip_since d now /\ tr_recover_us tr2 = tr_recover_us (d_tr d) /\
    tr_fec_skipped tr2 = u32 (tr_fec_skipped (d_tr d) + 1)) as (E1 & E2 & E3).
  { unfold tr2, skip_since. change (tr_skip_since_us tr1) with (tr_skip_since_us (d_tr d)).
    by case_bool. }
  clearbody tr2. rewrite E1, E2. fold (wedged d now). destruct (wedged d now).
  - unfold io_bind. set (w1 := w <| w_trace := _ |>).
    destruct (performs_venc_cfg (d_cfg d) (fec_safe_startup_bitrate_kbps (cfg_fec (d_cfg d)))
      (fec_safe_startup_payload (cfg_fec (d_cfg d))) w1) as (es & E & HF).
    destruct (venc_apply_cfg _ _ _ w1) as [rc w2]. cbn in E. unfold io_ret.
    split_and!; [by eexists|exact E3|exact E1|done|by exists es].
  - unfold io_ret. split_and!; [by eexists|exact E3|exact E1|exact E2|done].
Qed.

Lemma on_skip_frame d w : exists tr, (on_skip d w).1 = (d <| d_tr := tr |>).
Proof.
  unfold on_skip. cbv zeta. destruct (_ && _ && _ && _ && _); [|by eexists].
  unfold io_bind, now_us. cbv beta zeta. destruct (_ && _); [|by eexists].
  destruct (venc_apply_cfg _ _ _ _). by eexists.
Qed.

(** A frame that arrives while the encoder's output queue is over its threshold changes
    the frame-rate estimate and the transport record and nothing else: the FEC controller,
    its ring, the radio view, the selector and the remembered writes stay. *)
Theorem backpressure_holds_fec d g w :
  let buf := take 128 (dg_bytes g) in
  let f := cfg_fec (d_cfg d) in
  has_enc_info buf = true -> has_transport_info buf = true -> (80 <= length buf)%nat ->
  fec_skip_on_backpressure f = true -> fec_backpressure_fill_pct f <= byte_at buf 64 ->
  exists fps tr, (on_sidecar d g w).1 = (d <| d_fps := fps |> <| d_tr := tr |>).
Proof.
  cbv zeta. intros He Ht Hl Hs Hf. unfold on_sidecar. set (buf := take 128 (dg_bytes g)) in *.
  clearbody buf. destruct (negb (frame_accepts buf)).
  { exists (d_fps d), (d_tr d). by destruct d. }
  set (d1 := d <| d_fps := _ |>). unfold io_bind at 1, transport_info. cbv zeta.
  pose proof (eq_refl : (SidecarFrame_size + SidecarEncInfo_size + SidecarTransportInfo_size = 80)%nat) as E80.
  pose proof (eq_refl : (SidecarFrame_size + SidecarEncInfo_size = 64)%nat) as E64.
  rewrite He, Ht, (proj2 (Nat.leb_le _ _)) by lia. cbn [andb].
  unfold io_bind at 1, now_us, io_ret at 1. cbv beta zeta. cbn [fst snd negb orb].
  rewrite (proj2 (Nat.ltb_ge _ _)) by lia.
  destruct (be32_at buf SidecarFrame_size =? 0); [by eexists _, _|].
  change (fec_skip_on_backpressure (cfg_fec (d_cfg d1)))
    with (fec_skip_on_backpressure (cfg_fec (d_cfg d))). rewrite Hs.
  match goal with |- context [Z.geb ?a (fec_backpressure_fill_pct (cfg_fec (d_cfg d1)))] =>
    assert ((a >=? fec_backpressure_fill_pct (cfg_fec (d_cfg d1))) = true) as ->
      by (rewrite Z.geb_leb; apply Z.leb_le; exact Hf) end.
  cbn [orb andb].
  match goal with |- context [on_skip ?d2 ?w2] => destruct (on_skip_frame d2 w2) as [tr ->] end.
  by eexists _, _.
Qed.
End Outcomes.

(** ** Concrete runs *)

(** The rungs of the SET_RADIO requests of a history, latest first. *)
Definition rungs_sent (es : list Event) : list Z :=
  omap (fun e => match e with EvCtl _ _ _ (CtlSetRadio b) => Some (rb_mcs_index b) | _ => None end) es.

(** The operator switches the law off and then pins rung 1. *)
Definition pin_then_report : list Dgram :=
  [command 1 WCMD_KEY_MCS_ENABLED 0; command 2 WCMD_KEY_WFB_MCS 1; reception_report].

(** A rung pinned by hand does not stay, although the law was switched off first as the
    protocol asks: the switch does not stop the realignment, so the next reception report
    puts the radio back on the law's rung. *)
Theorem manual_mcs_overwritten :
  let '((_, d), w) := @drain Daemon (@on_rx_ant abi_lp64 peer_ok 0 0) DRAIN_MAX
                        pin_then_report flying world_init in
  mcs_enabled (cfg_mcs (d_cfg d)) = false /\ rungs_sent (w_trace w) = [4; 1].
Proof. vm_compute. auto. Qed.

(** The same peers, ten seconds later. *)
Definition peer_late : Env := {|
  env_now := fun _ => 10000000; env_open := @env_open peer_ok;
  env_ctl_sent := @env_ctl_sent peer_ok; env_ctl_reply := @env_ctl_reply peer_ok;
  env_tcp := @env_tcp peer_ok; env_iw_txpower := @env_iw_txpower peer_ok;
  env_iw_channel := @env_iw_channel peer_ok; env_ip_mtu := @env_ip_mtu peer_ok;
  env_recovery_cmd := @env_recovery_cmd peer_ok |}.

Definition fec_pairs_sent (es : list Event) : list (Z * Z) :=
  omap (fun e => match e with EvCtl _ _ _ (CtlSetFec k n _) => Some (k, n) | _ => None end) es.

(** FEC switched off by command, after the start-up grace; then a frame of 12 kB. *)
Definition fec_off : Daemon :=
  let d := flying <| d_ctrl := ((d_ctrl flying) <| start_us := 1 |>) |> in
  (@on_rx_ant abi_lp64 peer_late 0 0 d (command 1 WCMD_KEY_FEC_ENABLED 0) world_init).1.

Definition sidecar_frame (flags fill size : Z) : Dgram := Build_Dgram 0
  (be32_bytes SC_MAGIC ++ [SC_VERSION; SC_MSG_FRAME; 0; flags] ++ replicate 44 0 ++
   be32_bytes size ++ replicate 8 0 ++ fill :: replicate 15 0)%list.

(** Switching FEC off does not hold the pair an operator pinned: frames of the sidecar
    still run the controller, and its pair is sent to the transmitter. *)
Theorem fec_switch_ignored :
  fec_enabled (cfg_fec (d_cfg fec_off)) = false /\
  fec_pairs_sent (w_trace (@on_sidecar abi_lp64 peer_late fec_off (sidecar_frame 2 0 12000)
    world_init).2) = [(9, 14)].
Proof. vm_compute. auto. Qed.

Definition bandwidths_sent (es : list Event) : list Z :=
  omap (fun e => match e with EvCtl _ _ _ (CtlSetRadio b) => Some (rb_bandwidth b) | _ => None end) es.

(** A report far under the floor. *)
Definition faded_report : Dgram := Build_Dgram 0 (bytes_of (
  "{" +:+ field "type" (quoted "rx_ant") +:+ "," +:+ field "ver" "1" +:+ "," +:+
  field "pkt" ("{" +:+ field "uniq" "100" +:+ "," +:+ field "lost" "0" +:+ "},") +:+
  "[{" +:+ quoted "id" +:+ ":1," +:+ quoted "rssi" +:+ ":{" +:+ quoted "avg" +:+ ":-95}}]}")).

(** One wakeup, half a second, and the deferred request it left behind. *)
Definition wakeup_then_drop (q : Sockets) : list Z :=
  let '((_, d), w) := @loop_inputs abi_lp64 peer_late 0 10000000 flying q world_init in
  bandwidths_sent (w_trace (@pending_tick peer_late d 10500000 w).2).

(** A radio write through the API's [/cmd] is not adopted: unlike the same command from
    the ground, it leaves the daemon's cached radio body as it was, so the next change of
    rung sends the old bandwidth again and undoes the operator's. *)
Theorem local_write_reverted :
  wakeup_then_drop (api_socks ["/cmd?key=8&value=40"] [faded_report]) = [20; 40] /\
  (let '((_, d), _) := @loop_inputs abi_lp64 peer_late 0 10000000 flying
                         (socks [command 1 WCMD_KEY_WFB_BANDWIDTH 40]) world_init in
   rb_bandwidth (d_body d) = 40) /\
  (let '((_, d), _) := @loop_inputs abi_lp64 peer_late 0 10000000 flying
                         (api_socks ["/cmd?key=8&value=40"] []) world_init in
   rb_bandwidth (d_body d) = 20 /\ ws_radio_written (d_wcmd d) = true).
Proof. vm_compute. auto. Qed.

(** ** Witnesses *)

(** The maximum lowered to 2 through the API, under rung 4. *)
Definition lowered : Daemon := @api_set abi_lp64 flying (Some "mcs.mcs_max=2").

Lemma range_reclaimed_witness :
  current_mcs (d_sel (@watchdog_tick abi_lp64 peer_ok lowered 9000000 world_init).1) = 2.
Proof.
  pose proof (@range_reclaimed abi_lp64 peer_ok lowered 9000000 world_init) as H. cbv zeta in H.
  destruct (watchdog_decide lowered 9000000) as [[sel sd] out].
  destruct H as (_ & _ & E & Es).
  1-6: vm_compute; try reflexivity; intuition discriminate.
  transitivity (current_mcs sel); [exact (f_equal current_mcs Es)|].
  transitivity (if current_mcs (d_sel lowered) >? mcs_max (cfg_mcs (d_cfg lowered))
    then mcs_max (cfg_mcs (d_cfg lowered)) else mcs_min (cfg_mcs (d_cfg lowered)));
    [exact E|vm_compute; reflexivity].
Defined.

Definition dropping : Daemon :=
  flying <| d_pending := Build_PendingMcsDown true 500 3 (Build_RadioBody 1 1 0 20 3 0 1) |>.

Lemma deferred_drop_witness :
  pd_active (d_pending dropping) = true /\
  let p := d_pending dropping in
  let '(d', w') := @pending_tick peer_ok dropping 600 world_init in
  if 600 <? pd_deadline_us p then d' = dropping /\ w' = world_init
  else
    (exists es, w_trace w' = (es ++ w_trace world_init)%list /\
       Forall (is_set_radio (d_cfg dropping) (pd_pending_radio p)) es) /\
    d_sel d' = d_sel dropping /\
    (pd_active (d_pending d') = false /\ d_body d' = pd_pending_radio p /\
     d_emit_mcs d' = pd_target_mcs p /\
     radio_mcs (d_radio d') = rb_mcs_index (pd_pending_radio p) \/
     d_pending d' = (p <| pd_deadline_us := u64 (600 + 100000) |>) /\
     d_body d' = d_body dropping /\ d_radio d' = d_radio dropping).
Proof. split; [reflexivity|]. apply (@deferred_drop peer_ok dropping 600 world_init). reflexivity. Defined.

(** A report with the signal under the floor takes a rung away. *)
Lemma decision_settled_witness :
  let '((sel, sd), out) :=
    selector_update (d_sel flying) (d_cfg flying) score_faded (d_probe flying)
      (tr_in_pressure (d_tr flying)) 9000000 in
  sd = SD_DOWN /\
  let '(d', w') := @decide_mcs abi_lp64 peer_ok flying score_faded 9000000 world_init in
  exists es, w_trace w' = (es ++ [])%list /\
    @settled peer_ok (d_cfg flying) (d_sel flying) sel (default (-1) out) d' [] es.
Proof.
  pose proof (@decision_settled abi_lp64 peer_ok flying score_faded 9000000 world_init eq_refl) as H.
  destruct (selector_update _ _ _ _ _ _) as [[sel sd] out] eqn:E.
  assert (sd = SD_DOWN) as Es.
  { transitivity ((sel, sd, out).1.2); [reflexivity|]. rewrite <- E. vm_compute. reflexivity. }
  split; [exact Es|]. apply H. rewrite Es. discriminate.
Defined.

Lemma flying_ok : daemon_ok flying.
Proof.
  destruct (daemon_init_ok config_defaults (Build_CsaCfg "" [] [] 0 false) 1 limits_defaults)
    as [L [] P R F C B].
  constructor; try done. constructor; [right; vm_compute; intuition discriminate|done|done].
Qed.

(** The operator's body on rung 2, waiting to be adopted. *)
Definition written : Daemon :=
  flying <| d_wcmd := ((d_wcmd flying) <| ws_radio_written := true |>
                       <| ws_radio_written_body := Build_RadioBody 0 1 0 40 2 0 1 |>) |>.

Lemma operator_write_adopted_witness :
  adopts written (ws_radio_written_body (d_wcmd written)) = true /\
  current_mcs (d_sel (@write_through peer_ok written world_init).1) = 2.
Proof.
  split; [vm_compute; reflexivity|].
  assert (daemon_ok written) as H by (destruct flying_ok; constructor; assumption).
  pose proof (@operator_write_adopted peer_ok written world_init H) as K.
  cbv zeta in K. destruct (write_through written world_init) as [d' w'].
  destruct K as (_ & _ & _ & _ & _ & K & _). exact K.
Defined.

Lemma per_milli_nearest_witness :
  @per_milli abi_armv7 3 1 = 333 /\
  2 * Z.abs (@per_milli abi_armv7 3 1 * 3 - 1 * 1000) <= 3 /\ 0 <= @per_milli abi_armv7 3 1 <= 1000.
Proof.
  split; [vm_compute; reflexivity|].
  apply (@per_milli_nearest abi_armv7 3 1); [lia|lia|vm_compute; discriminate].
Defined.

(** Flags for both trailers, a queue filled to 90 %. *)
Lemma backpressure_holds_fec_witness :
  exists fps tr, (@on_sidecar abi_lp64 peer_ok flying (sidecar_frame 6 90 12000) world_init).1 =
    (flying <| d_fps := fps |> <| d_tr := tr |>).
Proof.
  apply (@backpressure_holds_fec abi_lp64 peer_ok flying (sidecar_frame 6 90 12000) world_init);
    vm_compute; try reflexivity; try lia; discriminate.
Defined.
