(* ===== verification/GsText.v ===== *)
(** * Text of the ground supervisor

    The small parsers of [ground/gs_supervisor.c] and [ground/gs_supervisor_http.c]: query
    strings, percent-decoding, command lines, addresses, the JSON scrapers of the statistics
    drain, and the names of the command keys. *)

From S2P Require Import Prelude CString Decimal WfbJson.

Local Open Scope list_scope.

(** ** Query strings *)

Definition EQUALS : ascii := ch 61.
Definition PERCENT : ascii := ch 37.

(** [qs_get]: the pointer to the value and its length, which C computes in [size_t]; the
    two are meaningful together.  Every turn drops at least one character. *)
Fixpoint qs_get_from (fuel : nat) (p key : string) : option (string * Z) :=
  match fuel, p with
  | S fuel, String _ _ =>
      match strchr p EQUALS with
      | None => None
      | Some eq =>
          let amp := strchr p AMP in
          let kl := strlen p - strlen eq in
          let val := drop_chars 1 eq in
          let vl := match amp with
                    | Some a => strlen val - strlen a
                    | None => strlen val
                    end in
          if (kl =? strlen key) && starts_with key p then Some (val, vl)
          else match amp with
               | None => None
               | Some a => qs_get_from fuel (drop_chars 1 a) key
               end
      end
  | _, _ => None
  end.

Definition qs_get (qs : option string) (key : string) : option (string * Z) :=
  s ← qs; qs_get_from (S (String.length s)) s key.

(** The value as text. *)
Definition qs_value (r : string * Z) : string := take_chars (Z.to_nat r.2) r.1.

Section Ints.
Context `{!CAbi}.
Definition qs_get_int (qs : option string) (key : string) : option Z :=
  v ← qs_get qs key;
  if (v.2 =? 0) || (v.2 >? 10) then None
  else match strtol (qs_value v) with
       | Some (iv, EmptyString) => Some (i32 iv)
       | _ => None
       end.
End Ints.

Definition hexnib (c : ascii) : option Z :=
  let n := code c in
  if (48 <=? n) && (n <=? 57) then Some (n - 48)
  else if (97 <=? n) && (n <=? 102) then Some (n - 97 + 10)
  else if (65 <=? n) && (n <=? 70) then Some (n - 65 + 10)
  else None.

(** [qs_pct_decode]: the bytes written to [dst], of capacity [cap], before the final NUL. *)
Fixpoint qs_pct_decode (cap : nat) (src : string) : string :=
  match cap with
  | O | S O => EmptyString
  | S cap =>
      match src with
      | EmptyString => EmptyString
      | String c s =>
          let verbatim := String c (qs_pct_decode cap s) in
          match s with
          | String a (String b t) =>
              if aeq c PERCENT then
                match hexnib a, hexnib b with
                | Some h, Some l => String (ch (Z.lor (Z.shiftl h 4) l)) (qs_pct_decode cap t)
                | _, _ => verbatim
                end
              else verbatim
          | _ => verbatim
          end
      end
  end.

(** ** Command lines *)

Definition metachars : string :=
  ";|&<>$`(){}[]*?'" ++ String DQ (str1 BACKSLASH).
Definition is_meta (c : ascii) : bool :=
  match strchr metachars c with Some _ => true | None => false end.
Definition is_blank (c : ascii) : bool := aeq c SP || aeq c TAB.

Fixpoint any_char (f : ascii -> bool) (s : string) : bool :=
  match s with EmptyString => false | String a s => f a || any_char f s end.

(** The tokens of successive [strtok_r] calls; [cur] is the token being read. *)
Fixpoint strtok (f : ascii -> bool) (cur s : string) : list string :=
  match s with
  | EmptyString => match cur with EmptyString => [] | _ => [cur] end
  | String c s =>
      if f c then
        match cur with EmptyString => strtok f EmptyString s | _ => cur :: strtok f EmptyString s end
      else strtok f (cur ++ str1 c)%string s
  end.

Inductive TokenizeError := TokMeta | TokOverflow.

(** [tokenize_argv]: -1 and -2 are the errors. *)
Definition tokenize_argv (cmd : string) (max_argv : Z) : list string + TokenizeError :=
  if any_char is_meta cmd then inr TokMeta
  else
    let toks := strtok is_blank EmptyString cmd in
    if Z.of_nat (length toks) >=? max_argv then inr TokOverflow else inl toks.

(** ** Addresses *)

Section Addr.
Context `{!CAbi}.
(** [atoi]: undefined in C beyond [int]; the targets' [strtol] and a conversion. *)
Definition atoi (s : string) : Z :=
  match strtol s with Some (v, _) => i32 v | None => 0 end.

(** [parse_host_port]: address and port. *)
Definition parse_host_port (s : string) : option (Z * Z) :=
  '(host, tail) ← split_last COLON s;
  if (strlen host =? 0) || (strlen host >=? 64) then None
  else
    let port := atoi tail in
    if (port <=? 0) || (port >? 65535) then None
    else addr ← inet_pton4 host; Some (addr, port).
End Addr.

(** ** The JSON scrapers of the statistics drain

    They search a window of text for a quoted key.  [None] is -1. *)

Definition pick_space (c : ascii) : bool := aeq c SP || aeq c COLON.

(** The text after [key], its closing quote, and the spaces and colons that follow. *)
Definition after_key (s key : string) : option string :=
  match s with
  | String c s' =>
      if aeq c DQ && starts_with (key ++ str1 DQ) s' then
        Some (skip_while pick_space (drop_chars (S (String.length key)) s'))
      else None
  | EmptyString => None
  end.

Inductive Pick (A : Type) := PickNext | PickFail | PickOk (x : A).
Arguments PickNext {A}.
Arguments PickFail {A}.
Arguments PickOk {A} x.

(** The loop of the scrapers: a candidate with at least [need] characters from its opening
    quote on is given to [f]; [PickNext] is the [continue] of the source. *)
Fixpoint json_pick {A} (need : Z) (f : string -> Pick A) (key s : string) : option A :=
  match s with
  | EmptyString => None
  | String _ s' =>
      if need <? strlen s then
        match after_key s key with
        | Some v => match f v with
                    | PickNext => json_pick need f key s'
                    | PickFail => None
                    | PickOk x => Some x
                    end
        | None => json_pick need f key s'
        end
      else None
  end.

Definition pick_u32 (v : string) : Pick Z :=
  match v with
  | EmptyString => PickNext
  | String c _ =>
      if aeq c (ch 45) then PickFail
      else if isdigit c then
        let n := (read_digits v 0).1 in
        if n >? 0xFFFFFFFF then PickFail else PickOk n
      else PickNext
  end.

Definition json_pick_u32 (js key : string) : option Z :=
  json_pick (strlen key + 2) pick_u32 key js.

(** The accumulator is an [int64_t]; its overflow is left aside. *)
Definition pick_i32 (v : string) : Pick Z :=
  match v with
  | EmptyString => PickNext
  | String c v' =>
      let neg := aeq c (ch 45) in
      let d := if neg then v' else v in
      match d with
      | String e _ =>
          if isdigit e then
            let n := (read_digits d 0).1 in PickOk (i32 (if neg then - n else n))
          else PickNext
      | EmptyString => PickNext
      end
  end.

Definition json_pick_i32 (js key : string) : option Z :=
  json_pick (strlen key + 2) pick_i32 key js.

Definition pick_str (out_sz : nat) (v : string) : Pick string :=
  match v with
  | String c v' =>
      if aeq c DQ then PickOk (take_chars (out_sz - 1) (span_until (fun a => aeq a DQ) v').1)
      else PickNext
  | EmptyString => PickNext
  end.

Definition json_pick_str (js key : string) (out_sz : nat) : option string :=
  match out_sz with
  | O => None
  | _ => until_nul <$> json_pick (strlen key + 2) (pick_str out_sz) key js
  end.

(** The text up to the bracket that closes the first one. *)
Fixpoint balanced (op cl : ascii) (depth : Z) (s : string) : option string :=
  match s with
  | EmptyString => None
  | String c s =>
      let depth := if aeq c op then depth + 1 else depth in
      let depth := if aeq c cl then depth - 1 else depth in
      if depth =? 0 then Some (str1 c) else String c <$> balanced op cl depth s
  end.

Definition slice_value (v : string) : Pick string :=
  match v with
  | EmptyString => PickNext
  | String c _ =>
      let r := if aeq c BRACE_OPEN then balanced c BRACE_CLOSE 0 v
               else if aeq c BRACKET_OPEN then balanced c BRACKET_CLOSE 0 v
               else None in
      match r with Some t => PickOk t | None => PickFail end
  end.

Definition json_slice_object (js key : string) : option string :=
  json_pick (strlen key + 3) slice_value key js.

(** ** Query strings are lists of fields *)

#[local] Arguments String.append !_ _ /.

Lemma aeq_sym a b : aeq a b = aeq b a.
Proof. apply Ascii.eqb_sym. Qed.

Lemma strchr_span s a : strchr s a =
  match (span_until (fun c => aeq c a) s).2 with EmptyString => None | y => Some y end.
Proof.
  induction s as [|b s IH]; [done|]. cbn [strchr span_until]. rewrite aeq_sym.
  destruct (aeq b a); [done|]. rewrite IH. by destruct (span_until _ s).
Qed.

Lemma span_until_lacks a s : lacks a (span_until (fun c => aeq c a) s).1 = true.
Proof.
  unfold lacks. induction s as [|b s IH]; [done|]. cbn.
  destruct (aeq b a) eqn:E; [done|]. destruct (span_until _ s) as [x y]. cbn in *.
  by rewrite E, IH.
Qed.

Lemma span_until_stop f s :
  match (span_until f s).2 with EmptyString => True | String c _ => f c = true end.
Proof.
  induction s as [|b s IH]; [done|]. cbn. destruct (f b) eqn:E; [done|].
  by destruct (span_until f s).
Qed.

(** The three parts of a text around the first [a]. *)
Lemma strchr_parts s a t : strchr s a = Some t ->
  exists x y, t = String a y /\ s = (x ++ t)%string /\ lacks a x = true.
Proof.
  rewrite strchr_span. intros H.
  pose proof (span_until_app (fun c => aeq c a) s) as Hs.
  pose proof (span_until_lacks a s) as Hl. pose proof (span_until_stop (fun c => aeq c a) s) as Hst.
  destruct (span_until _ s) as [x [|b y]]; [done|]. cbn in *. injection H as <-.
  apply aeq_eq in Hst as ->. by exists x, y.
Qed.

Lemma strchr_none s a : strchr s a = None -> lacks a s = true.
Proof.
  rewrite strchr_span. intros H. pose proof (span_until_app (fun c => aeq c a) s) as Hs.
  pose proof (span_until_lacks a s) as Hl. destruct (span_until _ s) as [x [|b y]]; [|done].
  cbn in *. by rewrite Hs, sapp_nil_r.
Qed.

Lemma strchr_app x a y : lacks a x = true -> strchr (x ++ String a y) a = Some (String a y).
Proof.
  intros H. rewrite strchr_span. unfold lacks in H.
  rewrite span_until_all; [done|done|]. by rewrite aeq_refl.
Qed.

(** The fields between the [&]s, and the first one that reads [key=value]. *)
Fixpoint fields_from (fuel : nat) (s : string) : list string :=
  match fuel with
  | O => [s]
  | S fuel =>
      match span_until (fun c => aeq c AMP) s with
      | (f, EmptyString) => [f]
      | (f, String _ s) => f :: fields_from fuel s
      end
  end.
Definition qs_fields (s : string) : list string := fields_from (String.length s) s.

Definition field_value (key f : string) : option string :=
  match span_until (fun c => aeq c EQUALS) f with
  | (_, EmptyString) => None
  | (k, String _ v) => if String.eqb k key then Some v else None
  end.

Fixpoint first_value (key : string) (fs : list string) : option string :=
  match fs with
  | [] => None
  | f :: fs => match field_value key f with Some v => Some v | None => first_value key fs end
  end.

Lemma lacks_app a s t : lacks a (s ++ t) = lacks a s && lacks a t.
Proof. apply all_chars_app. Qed.

Lemma span_lacks a s : lacks a s = true -> span_until (fun c => aeq c a) s = (s, EmptyString).
Proof. intros H. rewrite <- (sapp_nil_r s) at 1. by apply span_until_all. Qed.

Lemma span_parts a x y : lacks a x = true ->
  span_until (fun c => aeq c a) (x ++ String a y) = (x, String a y).
Proof. intros H. apply span_until_all; [done|]. by rewrite aeq_refl. Qed.

Lemma field_value_lacks key f : lacks EQUALS f = true -> field_value key f = None.
Proof. intros H. unfold field_value. by rewrite span_lacks. Qed.

Lemma first_value_lacks key fuel s : lacks EQUALS s = true ->
  first_value key (fields_from fuel s) = None.
Proof.
  revert s. induction fuel as [|fuel IH]; intros s H; cbn [fields_from].
  { cbn [first_value]. by rewrite field_value_lacks. }
  pose proof (span_until_app (fun c => aeq c AMP) s) as Hs.
  destruct (span_until _ s) as [f [|b r]]; cbn [fst snd first_value] in *.
  - rewrite sapp_nil_r in Hs. subst f. by rewrite field_value_lacks.
  - rewrite Hs, lacks_app in H. apply andb_true_iff in H as [H1 H2].
    rewrite field_value_lacks by done. apply IH. unfold lacks in *. cbn in H2.
    by apply andb_true_iff in H2 as [_ H2].
Qed.

Lemma starts_with_prefix k x t : strlen x = strlen k -> starts_with k (x ++ t) = String.eqb x k.
Proof.
  revert x. induction k as [|a k IH]; intros [|b x] H; cbn [strlen] in H;
    try (pose proof (strlen_nonneg k)); try (pose proof (strlen_nonneg x)); try lia; [done|].
  cbn [String.append starts_with String.eqb]. rewrite IH by lia. unfold aeq.
  rewrite Ascii.eqb_sym. by destruct (Ascii.eqb b a).
Qed.

Lemma take_strlen_app v t : take_chars (Z.to_nat (strlen v)) (v ++ t) = v.
Proof. rewrite strlen_length, Nat2Z.id. apply take_chars_app. Qed.

Lemma strchr_skip a x t : lacks a x = true -> strchr (x ++ t) a = strchr t a.
Proof.
  unfold lacks. induction x as [|b x IH]; intros H; [done|]. cbn [all_chars] in H.
  apply andb_true_iff in H as [Hb H]. apply negb_true_iff in Hb.
  cbn [String.append strchr]. rewrite aeq_sym, Hb. by apply IH.
Qed.

(** The name before the [=] is the key, or it is not. *)
Lemma name_matches key x t :
  (strlen (x ++ t) - strlen t =? strlen key) && starts_with key (x ++ t) = String.eqb x key.
Proof.
  rewrite strlen_app, Z.add_simpl_r.
  destruct (Z.eqb_spec (strlen x) (strlen key)) as [E|E].
  - by rewrite starts_with_prefix.
  - destruct (String.eqb_spec x key) as [->|]; [lia|done].
Qed.

(** A name that reaches over an [&] is not the key. *)
Lemma name_beyond key f r e : lacks AMP key = true -> strchr (String AMP r) EQUALS = Some e ->
  (strlen (f ++ String AMP r) - strlen e =? strlen key) && starts_with key (f ++ String AMP r)
  = false.
Proof.
  intros Hkey He. cbn [strchr] in He. change (aeq EQUALS AMP) with false in He.
  destruct (strchr_parts _ _ _ He) as (u & v & -> & -> & _).
  assert ((f ++ String AMP (u ++ String EQUALS v) =
           (f ++ String AMP u) ++ String EQUALS v)%string) as -> by (by rewrite sapp_assoc).
  rewrite name_matches. apply String.eqb_neq. intros <-. revert Hkey.
  rewrite lacks_app. unfold lacks. cbn [all_chars]. rewrite aeq_refl. cbn.
  by rewrite andb_false_r.
Qed.

(** One turn of the loop on a first field [f] and what follows it. *)
Lemma qs_turn key fuel f t : lacks AMP key = true -> lacks AMP f = true ->
  (t = EmptyString \/ exists r, t = String AMP r) -> (f ++ t)%string <> EmptyString ->
  match field_value key f with
  | Some v => exists val, qs_get_from (S fuel) (f ++ t) key = Some (val, strlen v) /\
                          val = (v ++ t)%string
  | None => qs_get_from (S fuel) (f ++ t) key =
      match t with
      | EmptyString => None
      | String _ r => if lacks EQUALS (f ++ t) then None else qs_get_from fuel r key
      end
  end.
Proof.
  intros Hkey Hf Ht Hne. cbn [qs_get_from].
  destruct (f ++ t)%string as [|c0 s0] eqn:Es; [done|]. rewrite <- Es. clear Es c0 s0 Hne.
  assert (strchr (f ++ t) AMP = match t with EmptyString => None | _ => Some t end) as Hamp.
  { rewrite strchr_skip by done. by destruct Ht as [->|[r ->]]. }
  rewrite Hamp. destruct (strchr f EQUALS) as [g|] eqn:Ef.
  - destruct (strchr_parts _ _ _ Ef) as (x & v & -> & -> & Hx).
    unfold field_value. rewrite (span_parts EQUALS) by done.
    rewrite sapp_assoc. cbn [String.append]. rewrite strchr_app by done.
    rewrite name_matches. change (drop_chars 1 (String EQUALS (v ++ t))) with (v ++ t)%string.
    rewrite strlen_app. destruct (String.eqb x key).
    + eexists. split; [|reflexivity]. destruct Ht as [->|[r ->]]; cbn [strlen].
      * by rewrite Z.add_0_r.
      * by rewrite Z.add_simpl_r.
    + destruct Ht as [->|[r ->]]; [done|]. change (drop_chars 1 (String AMP r)) with r.
      unfold lacks. rewrite all_chars_app. cbn [all_chars]. rewrite aeq_refl. cbn.
      by rewrite andb_false_r.
  - apply strchr_none in Ef. rewrite field_value_lacks, strchr_skip by done.
    destruct Ht as [->|[r ->]]; [done|]. change (drop_chars 1 (String AMP r)) with r.
    rewrite lacks_app, Ef. cbn [andb].
    destruct (strchr (String AMP r) EQUALS) as [e|] eqn:Ee.
    + rewrite name_beyond by done.
      destruct (strchr_parts _ _ _ Ee) as (u & v & -> & -> & _). rewrite lacks_app.
      unfold lacks. cbn [all_chars]. rewrite aeq_refl. cbn. by rewrite andb_false_r.
    + by rewrite strchr_none.
Qed.

Lemma qs_get_from_fields key : lacks AMP key = true -> forall fuel fuel' s,
  (String.length s < fuel)%nat -> (String.length s <= fuel')%nat ->
  qs_value <$> qs_get_from fuel s key = first_value key (fields_from fuel' s) /\
  match qs_get_from fuel s key with Some r => 0 <= r.2 <= strlen r.1 | None => True end.
Proof.
  intros Hkey. induction fuel as [|fuel IH]; intros fuel' s Hf Hf'; [lia|].
  destruct (String.eqb_spec s EmptyString) as [->|Hne]; [by destruct fuel'|].
  destruct fuel' as [|fuel']; [by destruct s; cbn in Hf'; [|lia]|]. cbn [fields_from].
  pose proof (span_until_app (fun c => aeq c AMP) s) as Es.
  pose proof (span_until_lacks AMP s) as Hl.
  pose proof (span_until_stop (fun c => aeq c AMP) s) as Hst.
  destruct (span_until _ s) as [f t]. cbn [fst snd] in *.
  assert (t = EmptyString \/ exists r, t = String AMP r) as Ht.
  { destruct t as [|c r]; [by left|]. apply aeq_eq in Hst as ->. right. by exists r. }
  pose proof (qs_turn key fuel f t Hkey Hl Ht) as Hturn. rewrite <- Es in Hturn.
  specialize (Hturn Hne). destruct (field_value key f) as [v|] eqn:Ev.
  - destruct Hturn as (val & -> & ->). cbn [fmap option_fmap option_map]. unfold qs_value.
    cbn [fst snd]. rewrite take_strlen_app, strlen_app.
    pose proof (strlen_nonneg v). pose proof (strlen_nonneg t). split; [|lia].
    destruct t as [|c r]; cbn [first_value]; by rewrite Ev.
  - rewrite Hturn. destruct t as [|c r]; cbn [first_value]; rewrite Ev; [done|].
    destruct (lacks EQUALS s) eqn:Hq.
    + rewrite Es, lacks_app in Hq. apply andb_true_iff in Hq as [_ Hq].
      unfold lacks in Hq. cbn [all_chars] in Hq. apply andb_true_iff in Hq as [_ Hq].
      by rewrite first_value_lacks.
    + apply (f_equal String.length) in Es. rewrite length_append in Es. cbn in Es.
      apply IH; lia.
Qed.

(** [qs_get] reads a query string as the list of its fields between the [&]s: for any key
    without an [&] and any text, however the equal signs and the [&]s lie, it returns the
    value of the first field that reads [key=value], and nothing when there is none; the length
    it returns is inside the text. *)
Theorem qs_get_first_field qs key : lacks AMP key = true ->
  (qs_value <$> qs_get (Some qs) key = first_value key (qs_fields qs)) /\
  match qs_get (Some qs) key with Some r => 0 <= r.2 <= strlen r.1 | None => True end.
Proof. intros Hk. by apply qs_get_from_fields; [|lia|]. Qed.

Lemma qs_get_first_field_witness :
  qs_value <$> qs_get (Some "a&key=&chan=14&chan=3"%string) "chan" = Some "14"%string.
Proof.
  rewrite (proj1 (qs_get_first_field "a&key=&chan=14&chan=3" "chan" eq_refl)). reflexivity.
Defined.

(** ** Percent-decoding *)

(** [t] is a percent-encoding of [s]: each character stands for itself, unless it is [%],
    or is written as [%] and two hexadecimal digits. *)
Inductive pct_encodes : string -> string -> Prop :=
| pct_nil : pct_encodes EmptyString EmptyString
| pct_lit a s t : aeq a PERCENT = false -> pct_encodes s t -> pct_encodes (String a s) (String a t)
| pct_hex x y h l s t : hexnib x = Some h -> hexnib y = Some l -> pct_encodes s t ->
    pct_encodes (String (ch (Z.lor (Z.shiftl h 4) l)) s)
      (String PERCENT (String x (String y t))).

Lemma pct_decode_encoded s t : pct_encodes s t -> forall cap,
  (String.length s < cap)%nat -> qs_pct_decode cap t = s.
Proof.
  induction 1 as [|a s t Ha _ IH|x y h l s t Hx Hy _ IH]; intros cap Hc;
    (destruct cap as [|[|cap]]; cbn [String.length] in Hc; [lia|..]); try lia; try done.
  - assert (qs_pct_decode (S (S cap)) (String a t) = String a (qs_pct_decode (S cap) t)) as ->.
    { cbn [qs_pct_decode]. rewrite Ha. by destruct t as [|b [|c t]]. }
    rewrite IH; [done|lia].
  - assert (qs_pct_decode (S (S cap)) (String PERCENT (String x (String y t)))
      = String (ch (Z.lor (Z.shiftl h 4) l)) (qs_pct_decode (S cap) t)) as ->
      by (cbn [qs_pct_decode]; rewrite aeq_refl, Hx, Hy; reflexivity).
    rewrite IH; [done|lia].
Qed.

(** The buffer is never overrun. *)
Lemma pct_decode_bounded cap : forall src,
  (0 < cap)%nat -> (String.length (qs_pct_decode cap src) < cap)%nat.
Proof.
  induction cap as [|[|cap] IH]; intros src Hc; [lia|cbn; lia|].
  assert (forall a u, (String.length (String a (qs_pct_decode (S cap) u)) < S (S cap))%nat)
    as Hu by (intros a u; specialize (IH u); cbn [String.length]; lia).
  destruct src as [|c [|a [|b t]]]; [cbn; lia|exact (Hu c EmptyString)|exact (Hu c (str1 a))|].
  destruct (aeq c PERCENT) eqn:Ec.
  - destruct (hexnib a) as [h|] eqn:Ea, (hexnib b) as [l|] eqn:Eb;
      (eapply Nat.le_lt_trans; [|first [exact (Hu (ch (Z.lor (Z.shiftl h 4) l)) t)
                                       |exact (Hu c (String a (String b t)))]]);
      apply Nat.eq_le_incl; f_equal; cbn [qs_pct_decode]; by rewrite Ec, Ea, ?Eb.
  - eapply Nat.le_lt_trans; [|exact (Hu c (String a (String b t)))].
    apply Nat.eq_le_incl; f_equal; cbn [qs_pct_decode]; by rewrite Ec.
Qed.

(** ** Command lines *)

Definition word (f : ascii -> bool) (s : string) : Prop :=
  s <> EmptyString /\ all_chars (fun c => negb (f c)) s = true.

Lemma strtok_words f s : forall cur, all_chars (fun c => negb (f c)) cur = true ->
  Forall (word f) (strtok f cur s).
Proof.
  induction s as [|c s IH]; intros cur Hc; cbn [strtok].
  - destruct cur; [constructor|]. by repeat constructor.
  - destruct (f c) eqn:E.
    + destruct cur; [by apply IH|]. constructor; [by split|by apply IH].
    + apply IH. rewrite all_chars_app, Hc. cbn. by rewrite E.
Qed.

Lemma strtok_chars f g s : forall cur, all_chars g cur = true -> all_chars g s = true ->
  Forall (fun t => all_chars g t = true) (strtok f cur s).
Proof.
  induction s as [|c s IH]; intros cur Hc Hs; cbn [strtok all_chars] in *.
  - destruct cur; [constructor|]. by repeat constructor.
  - apply andb_true_iff in Hs as [Hg Hs]. destruct (f c).
    + destruct cur; [by apply IH|]. constructor; [done|by apply IH].
    + apply IH; [|done]. rewrite all_chars_app, Hc. cbn. by rewrite Hg.
Qed.

Lemma any_char_all f s : any_char f s = negb (all_chars (fun c => negb (f c)) s).
Proof.
  induction s as [|c s IH]; [done|]. cbn. rewrite IH. by destruct (f c), (all_chars _ s).
Qed.

(** What a successful [tokenize_argv] hands to [execvp]. *)
Lemma tokenize_sound cmd max args :
  tokenize_argv cmd max = inl args ->
  Z.of_nat (length args) < max /\
  Forall (fun a => word is_blank a /\ all_chars (fun c => negb (is_meta c)) a = true) args.
Proof.
  unfold tokenize_argv. rewrite any_char_all.
  destruct (all_chars _ cmd) eqn:Hm; cbn [negb]; [|done].
  destruct (Z.geb_spec (Z.of_nat (length (strtok is_blank EmptyString cmd))) max); [done|].
  intros [= <-]. split; [done|]. apply Forall_and. split.
  - by apply strtok_words.
  - by apply strtok_chars.
Qed.

Lemma strtok_word f w s : forall cur, all_chars (fun c => negb (f c)) w = true ->
  strtok f cur (w ++ s) = strtok f (cur ++ w) s.
Proof.
  induction w as [|c w IH]; intros cur H; cbn [String.append all_chars] in *.
  { by rewrite sapp_nil_r. }
  apply andb_true_iff in H as [Hc H]. apply negb_true_iff in Hc. cbn [strtok]. rewrite Hc, IH by done.
  by rewrite sapp_assoc.
Qed.

(** Words joined by single spaces. *)
Fixpoint unwords (l : list string) : string :=
  match l with
  | [] => EmptyString
  | [w] => w
  | w :: l => (w ++ str1 SP ++ unwords l)%string
  end.

Lemma strtok_unwords l : Forall (word is_blank) l -> strtok is_blank EmptyString (unwords l) = l.
Proof.
  induction 1 as [|w l [Hne Hw] _ IH]; [done|]. destruct l as [|v l].
  - cbn [unwords]. rewrite <- (sapp_nil_r w) at 1. rewrite strtok_word by done. by destruct w.
  - change (unwords (w :: v :: l)) with (w ++ str1 SP ++ unwords (v :: l))%string.
    rewrite strtok_word by done. cbn [str1 String.append strtok].
    change (is_blank SP) with true. rewrite IH. by destruct w.
Qed.

Lemma unwords_chars g l : g SP = true -> Forall (fun w => all_chars g w = true) l ->
  all_chars g (unwords l) = true.
Proof.
  intros Hg. induction 1 as [|w l Hw _ IH]; [done|]. destruct l as [|v l]; [done|].
  change (unwords (w :: v :: l)) with (w ++ str1 SP ++ unwords (v :: l))%string.
  rewrite !all_chars_app, Hw, IH. cbn. by rewrite Hg.
Qed.

Lemma tokenize_unwords max l :
  Forall (fun a => word is_blank a /\ all_chars (fun c => negb (is_meta c)) a = true) l ->
  Z.of_nat (length l) < max -> tokenize_argv (unwords l) max = inl l.
Proof.
  intros Hl Hm. apply Forall_and in Hl as [Hw Hc]. unfold tokenize_argv.
  rewrite any_char_all, unwords_chars by done. cbn [negb]. rewrite strtok_unwords by done.
  destruct (Z.geb_spec (Z.of_nat (length l)) max); [lia|done].
Qed.
