(* ===== verification/KeySeed.v ===== *)
(** * Link keys

    [multicall/wfb_keyseed.c]: the key files of the two ends, derived from a passphrase, drawn
    at random or uploaded as hexadecimal digits, replaced through a temporary file, and told
    apart by a fingerprint of the pair.  The primitives of libsodium are an interface; what the
    file relies on are its laws.  A byte sequence is a string, a file system maps paths to
    files, and an operation is the list of the changes it makes. *)

From S2P Require Import Prelude CString Decimal WfbJson Tunables ConfigEnv GsText.
From stdpp Require Import strings gmap.

Local Open Scope list_scope.
Local Open Scope Z_scope.
#[local] Arguments String.append !_ _ /.

(** ** The primitives *)

Class Sodium := {
  sodium_init : bool;
  (** 64 bytes from a passphrase, with the salt and the limits of [derive_pair]. *)
  crypto_pwhash_argon2i : string -> option string;
  (** The public and the secret key. *)
  crypto_box_seed_keypair : string -> option (string * string);
  crypto_scalarmult_base : string -> option string;
  (** 16 bytes. *)
  crypto_generichash : string -> string }.

(** Keys have 32 bytes, and the public key is the secret one times the base point. *)
Definition valid_keypair `{Sodium} (pk sk : string) : Prop :=
  String.length pk = 32%nat /\ String.length sk = 32%nat /\ crypto_scalarmult_base sk = Some pk.

Class SodiumLaws (S : Sodium) := {
  pwhash_length seed k : crypto_pwhash_argon2i seed = Some k -> String.length k = 64%nat;
  seed_keypair_valid seed pk sk : String.length seed = 32%nat ->
    crypto_box_seed_keypair seed = Some (pk, sk) -> valid_keypair pk sk;
  generichash_length m : String.length (crypto_generichash m) = 16%nat }.

(** ** Files *)

Record Node := Build_Node { nd_mode : Z; nd_data : string }.

Inductive FsOp :=
  | FsCreate (p : string)
  | FsChmod (p : string) (mode : Z)
  | FsAppend (p bytes : string)
  | FsRename (p q : string)
  | FsUnlink (p : string).

Definition fs_apply (op : FsOp) (fs : gmap string Node) : gmap string Node :=
  match op with
  | FsCreate p => <[p := Build_Node 384 EmptyString]> fs
  | FsChmod p mode => alter (fun n => Build_Node mode (nd_data n)) p fs
  | FsAppend p bytes => alter (fun n => Build_Node (nd_mode n) (nd_data n ++ bytes)) p fs
  | FsRename p q => match fs !! p with Some n => <[q := n]> (delete p fs) | None => fs end
  | FsUnlink p => delete p fs
  end.

Definition fs_run (ops : list FsOp) (fs : gmap string Node) : gmap string Node := foldl (fun fs op => fs_apply op fs) fs ops.

(** [dirname(3)]. *)
Definition SLASH : ascii := ch 47.
Definition strip_slashes (s : string) : string :=
  String.rev (skip_while (fun c => aeq c SLASH) (String.rev s)).
Definition dirname (path : string) : string :=
  match path, strip_slashes path with
  | EmptyString, _ => "."
  | _, EmptyString => str1 SLASH
  | _, s =>
      match split_last SLASH s with
      | None => "."
      | Some (d, _) => match strip_slashes d with EmptyString => str1 SLASH | d => d end
      end
  end.

Example dirname_samples :
  map dirname ["/etc/gs.key"; "gs.key"; "/gs.key"; "/etc//gs.key"; "a/b/"; "//"]%string =
  ["/etc"; "."; "/"; "/etc"; "a"; "/"]%string.
Proof. reflexivity. Qed.

(** What the system answers while a file is replaced: whether [strdup] has memory, the six
    characters [mkstemp] chooses, [None] when it fails, and how each later call ends.
    [we_write k] is the answer of the [k]-th [write].  The list of operations is what a process
    sees of the files: there is no [fsync], so a power cut can lose bytes of a file whose
    renaming it keeps ([power_cut_empties]). *)
Record WriteEnv := Build_WriteEnv {
  we_strdup : bool; we_mkstemp : option string; we_fchmod : bool;
  we_write : nat -> Z; we_close : bool; we_rename : bool;
  we_unlink : bool }.

(** The turns of the loop over [write]; each takes at least one byte and at most what it was
    offered, so [fuel], the length, is enough. *)
Fixpoint write_loop (fuel k : nat) (answer : nat -> Z) (tmp buf : string) : list FsOp * bool :=
  match buf with
  | EmptyString => ([], true)
  | _ =>
      match fuel with
      | O => ([], false)
      | S fuel =>
          let w := Z.min (answer k) (strlen buf) in
          if w <=? 0 then ([], false)
          else
            let n := Z.to_nat w in
            let '(ops, ok) := write_loop fuel (S k) answer tmp (drop_chars n buf) in
            (FsAppend tmp (take_chars n buf) :: ops, ok)
      end
  end.

Definition write_atomic (e : WriteEnv) (path buf : string) : list FsOp * Z :=
  if negb (we_strdup e) then ([], -1)
  else if strlen (dirname path ++ "/.wfbkey.XXXXXX") >=? 1024 then ([], -1)
  else match we_mkstemp e with
  | None => ([], -1)
  | Some six =>
      let tmp := (dirname path ++ "/.wfbkey." ++ six)%string in
      let chmod := if we_fchmod e then [FsChmod tmp 384] else [] in
      let '(writes, ok) :=
        if we_fchmod e then write_loop (String.length buf) 0 (we_write e) tmp buf else ([], false) in
      let ok := ok && we_close e in
      if ok && we_rename e then (FsCreate tmp :: chmod ++ writes ++ [FsRename tmp path], 0)
      else (FsCreate tmp :: chmod ++ writes ++ (if we_unlink e then [FsUnlink tmp] else []), -1)
  end.

Definition exists_at (fs : gmap string Node) (path : string) : bool :=
  match fs !! path with Some _ => true | None => false end.

(** ** Writing keys *)

Definition WFB_KEY_DEFAULT_SEED : string := "Waybeam".

(** The drone's secret and public key, then the ground's. *)
Record Pair := Build_Pair { dsk : string; dpk : string; gsk : string; gpk : string }.

Section Keys.
Context `{Sodium}.

Definition derive_pair (seed : string) : option Pair :=
  if negb sodium_init then None
  else
    kseed ← crypto_pwhash_argon2i seed;
    '(dpk, dsk) ← crypto_box_seed_keypair (take_chars 32 kseed);
    '(gpk, gsk) ← crypto_box_seed_keypair (drop_chars 32 kseed);
    Some (Build_Pair dsk dpk gsk gpk).

(** The key file of a role. *)
Definition role_file (role : Z) (p : Pair) : string :=
  if role =? WFB_ROLE_GS then (gsk p ++ dpk p)%string else (dsk p ++ gpk p)%string.

Definition write_role_file (e : WriteEnv) (path : string) (role : Z) (p : Pair) : list FsOp * Z :=
  write_atomic e path (role_file role p).

(** An empty passphrase stands for the built-in one. *)
Definition seed_or_default (seed : string) : string :=
  match seed with EmptyString => WFB_KEY_DEFAULT_SEED | _ => seed end.

Definition wfb_write_key_seed (e : WriteEnv) (path : string) (role : Z) (seed : string)
    : list FsOp * Z :=
  match path with
  | EmptyString => ([], -1)
  | _ =>
      match derive_pair (seed_or_default seed) with
      | None => ([], -1)
      | Some p => write_role_file e path role p
      end
  end.

Definition wfb_ensure_key (e : WriteEnv) (fs : gmap string Node) (path : string) (role : Z) (seed : string)
    : list FsOp * Z :=
  match path with
  | EmptyString => ([], -1)
  | _ =>
      if exists_at fs path then ([], 0)
      else match derive_pair (seed_or_default seed) with
           | None => ([], -1)
           | Some p =>
               let '(ops, rc) := write_role_file e path role p in
               if rc =? 0 then (ops, 0) else (ops, -1)
           end
  end.

(** [drone] and [gs] are what [crypto_box_keypair] leaves, public key first. *)
Definition wfb_write_key_random (e : WriteEnv) (path : string) (role : Z)
    (drone gs : option (string * string)) : list FsOp * Z :=
  match path with
  | EmptyString => ([], -1)
  | _ =>
      if negb sodium_init then ([], -1)
      else match drone, gs with
           | Some (dpk, dsk), Some (gpk, gsk) =>
               write_role_file e path role (Build_Pair dsk dpk gsk gpk)
           | _, _ => ([], -1)
           end
  end.

Definition wfb_write_key_raw (e : WriteEnv) (path buf : string) : list FsOp * Z :=
  match path with EmptyString => ([], -1) | _ => write_atomic e path buf end.

(** ** Hexadecimal digits *)

Definition MINUS_SIGN : ascii := ch 45.
Definition PLUS_SIGN : ascii := ch 43.

Fixpoint read_xdigits (s : string) (acc : Z) : Z * string :=
  match s with
  | String a s' => match hexnib a with Some d => read_xdigits s' (16 * acc + d) | None => (acc, s) end
  | EmptyString => (acc, s)
  end.

Definition is_xdigit (a : ascii) : bool := match hexnib a with Some _ => true | None => false end.

(** [0x], when a digit is behind it. *)
Definition skip_0x (s : string) : string :=
  match s with
  | String z (String x (String d t)) =>
      if aeq z (ch 48) && (aeq x (ch 120) || aeq x (ch 88)) && is_xdigit d then String d t else s
  | _ => s
  end.

(** [strtol(s, &end, 16)] of a text too short to saturate; [None] when it finds no number. *)
Definition strtol16 (s : string) : option (Z * string) :=
  let s := skip_while isspace s in
  let '(neg, s) :=
    match s with
    | String a t => if aeq a MINUS_SIGN then (true, t)
                    else if aeq a PLUS_SIGN then (false, t) else (false, s)
    | EmptyString => (false, s)
    end in
  let s := skip_0x s in
  match s with
  | String a _ =>
      if is_xdigit a then let '(v, e) := read_xdigits s 0 in Some (if neg then - v else v, e)
      else None
  | EmptyString => None
  end.

Definition blank (c : ascii) : bool := aeq c SP || aeq c TAB || aeq c LF || aeq c CR.

(** The turns of the loop: the bytes read and the text left; [None] is its early return. *)
Fixpoint hex_pairs (n : nat) (hex : string) : option (string * string) :=
  match n, hex with
  | S n, String a (String b t) =>
      match strtol16 (String a (str1 b)) with
      | Some (v, EmptyString) =>
          if (v <? 0) || (v >? 255) then None
          else '(bytes, rest) ← hex_pairs n t; Some (String (ch v) bytes, rest)
      | _ => None
      end
  | _, _ => Some (EmptyString, hex)
  end.

Definition WFB_KEY_BYTES : nat := 64.

(** The 64 bytes; [None] is the return value -1. *)
Definition wfb_hex_to_key (hex : string) : option string :=
  '(bytes, rest) ← hex_pairs WFB_KEY_BYTES (skip_while blank hex);
  match skip_while blank rest with
  | EmptyString => if (String.length bytes =? WFB_KEY_BYTES)%nat then Some bytes else None
  | _ => None
  end.

(** ** The fingerprint *)

(** [%02x]. *)
Definition hex2 (a : ascii) : string :=
  String (hex_digit (Z.shiftr (code a) 4)) (str1 (hex_digit (Z.land (code a) 15))).

Fixpoint hex_of (s : string) : string :=
  match s with EmptyString => EmptyString | String a s => (hex2 a ++ hex_of s)%string end.

(** The drone's public key, then the ground's, from the file of either. *)
Definition pair_keys (role : Z) (own_pk peer_pk : string) : string :=
  if role =? WFB_ROLE_GS then (peer_pk ++ own_pk)%string else (own_pk ++ peer_pk)%string.

(** The return value and the text left in [out]; a capacity below 9 leaves it alone, and a
    larger one holds every answer. *)
Definition wfb_key_fingerprint (fs : gmap string Node) (path : string) (role : Z) (cap : Z)
    : Z * option string :=
  if cap <? 9 then (-1, None)
  else match fs !! path with
  | None => (0, Some "none"%string)
  | Some n =>
      let kf := take_chars WFB_KEY_BYTES (nd_data n) in
      if negb (String.length kf =? WFB_KEY_BYTES)%nat then (-1, Some "invalid"%string)
      else if negb sodium_init then (-1, Some EmptyString)
      else match crypto_scalarmult_base (take_chars 32 kf) with
           | None => (-1, Some EmptyString)
           | Some own_pk =>
               let h := crypto_generichash (pair_keys role own_pk (drop_chars 32 kf)) in
               (0, Some (hex_of (take_chars 4 h)))
           end
  end.

(** ** The applet [keygen-ensure] *)

Record KeygenArgs := Build_KeygenArgs {
  ka_seed : string; ka_path : option string; ka_role : Z; ka_force : bool }.

(** [inl]: the exit code of a bad command line. *)
Fixpoint keygen_args (args : list string) (a : KeygenArgs) : Z + KeygenArgs :=
  match args with
  | [] => inr a
  | x :: args =>
      let other :=
        if String.eqb x "--force" then
          keygen_args args (Build_KeygenArgs (ka_seed a) (ka_path a) (ka_role a) true)
        else if starts_with "-" x then inl 2
        else match ka_path a with
             | None => keygen_args args (Build_KeygenArgs (ka_seed a) (Some x) (ka_role a) (ka_force a))
             | Some _ => inl 2
             end in
      match args with
      | y :: args' =>
          if String.eqb x "--seed" then
            keygen_args args' (Build_KeygenArgs y (ka_path a) (ka_role a) (ka_force a))
          else if String.eqb x "--role" then
            if String.eqb y "drone" then
              keygen_args args' (Build_KeygenArgs (ka_seed a) (ka_path a) WFB_ROLE_DRONE (ka_force a))
            else if String.eqb y "gs" then
              keygen_args args' (Build_KeygenArgs (ka_seed a) (ka_path a) WFB_ROLE_GS (ka_force a))
            else inl 2
          else other
      | [] => other
      end
  end.

Definition wfb_keygen_ensure_main (e : WriteEnv) (fs : gmap string Node) (args : list string) (default_role : Z)
    : list FsOp * Z :=
  match keygen_args args (Build_KeygenArgs WFB_KEY_DEFAULT_SEED None default_role false) with
  | inl rc => ([], rc)
  | inr a =>
      match ka_path a with
      | None => ([], 2)
      | Some path =>
          let '(ops, rc) :=
            if ka_force a then wfb_write_key_seed e path (ka_role a) (ka_seed a)
            else wfb_ensure_key e fs path (ka_role a) (ka_seed a) in
          (ops, if negb (rc =? 0) then 1 else 0)
      end
  end.
End Keys.

(** ** Replacing a file *)

(** The operation works on the file [tmp] alone. *)
Definition op_at (tmp : string) (op : FsOp) : Prop :=
  match op with
  | FsCreate p | FsChmod p _ | FsAppend p _ => p = tmp
  | FsRename _ _ | FsUnlink _ => False
  end.

Definition temp_name (path six : string) : string := (dirname path ++ "/.wfbkey." ++ six)%string.

(** [mkstemp] creates a file that was not there. *)
Definition fresh_temp (e : WriteEnv) (fs : gmap string Node) (path : string) : Prop :=
  forall six, we_mkstemp e = Some six ->
    fs !! temp_name path six = None /\ temp_name path six <> path.

Lemma fs_run_app xs ys fs : fs_run (xs ++ ys) fs = fs_run ys (fs_run xs fs).
Proof. apply foldl_app. Qed.

Lemma fs_run_cons op ops fs : fs_run (op :: ops) fs = fs_run ops (fs_apply op fs).
Proof. done. Qed.

Lemma fs_run_other tmp ops q : q <> tmp -> Forall (op_at tmp) ops ->
  forall fs, fs_run ops fs !! q = fs !! q.
Proof.
  intros Hq. induction 1 as [|op ops Hop _ IH]; intros fs; [done|].
  rewrite fs_run_cons, IH.
  destruct op; cbn [op_at] in Hop; try done; subst; cbn [fs_apply].
  - by rewrite lookup_insert_ne.
  - by rewrite lookup_alter_ne.
  - by rewrite lookup_alter_ne.
Qed.

Lemma take_drop_chars n s : (take_chars n s ++ drop_chars n s)%string = s.
Proof. revert s. induction n as [|n IH]; intros [|a s]; cbn; [done..|]. by rewrite IH. Qed.

(** The loop over [write] appends a prefix, and all of the bytes when it succeeds. *)
Lemma write_loop_spec answer tmp fuel : forall k buf ops ok,
  (String.length buf <= fuel)%nat -> write_loop fuel k answer tmp buf = (ops, ok) ->
  Forall (op_at tmp) ops /\
  (ok = true -> forall (fs : gmap string Node) m d,
    fs_run ops (<[tmp := Build_Node m d]> fs) = <[tmp := Build_Node m (d ++ buf)]> fs).
Proof.
  induction fuel as [|fuel IH]; intros k [|a buf] ops ok Hf; cbn [write_loop String.length] in *; try lia.
  - intros [= <- <-]. split; [done|]. intros _ fs m d. by rewrite sapp_nil_r.
  - intros [= <- <-]. split; [done|]. intros _ fs m d. by rewrite sapp_nil_r.
  - set (w := Z.min _ _). set (s := String a buf) in *.
    destruct (Z.leb_spec w 0) as [|Hw]; [by intros [= <- <-]|].
    destruct (write_loop fuel _ _ _ (drop_chars (Z.to_nat w) s)) as [ops' ok'] eqn:E. intros [= <- <-].
    apply IH in E as [Ha Hr].
    + split; [by constructor|]. intros Hok fs m d. rewrite fs_run_cons. cbn [fs_apply].
      rewrite alter_insert_eq. cbn [nd_mode nd_data]. rewrite Hr by done. by rewrite sapp_assoc, take_drop_chars.
    + rewrite drop_chars_length. subst s. cbn [String.length]. lia.
Qed.

(** The file system after a call that failed: as it was, but for the temporary file when it
    could not be removed. *)
Definition left_behind (e : WriteEnv) (path : string) (fs fs' : gmap string Node) : Prop :=
  (we_unlink e = true -> fs' = fs) /\
  forall q, temp_name path <$> we_mkstemp e <> Some q -> fs' !! q = fs !! q.

Lemma left_same e path fs : left_behind e path fs fs.
Proof. by split. Qed.

(** Whatever happens meanwhile, the file is the old one or the whole new one. *)
Lemma write_atomic_spec e fs path buf ops rc :
  fresh_temp e fs path -> write_atomic e path buf = (ops, rc) ->
  (rc = 0 /\ fs_run ops fs = <[path := Build_Node 384 buf]> fs \/
   rc = -1 /\ left_behind e path fs (fs_run ops fs)) /\
  forall k, fs_run (take k ops) fs !! path = fs !! path \/
            fs_run (take k ops) fs !! path = Some (Build_Node 384 buf).
Proof.
  intros Hfresh. unfold write_atomic.
  assert (forall x : list FsOp * Z, x = ([], -1) -> x = (ops, rc) ->
    (rc = 0 /\ fs_run ops fs = <[path := Build_Node 384 buf]> fs \/
     rc = -1 /\ left_behind e path fs (fs_run ops fs)) /\
    forall k, fs_run (take k ops) fs !! path = fs !! path \/
              fs_run (take k ops) fs !! path = Some (Build_Node 384 buf)) as Hnone.
  { intros x -> [= <- <-]. split; [right; split; [done|apply left_same]|]. intros k. rewrite take_nil. by left. }
  destruct (negb _); [by apply Hnone|]. destruct (_ >=? _); [by apply Hnone|].
  destruct (we_mkstemp e) as [six|] eqn:Em; [|by apply Hnone]. clear Hnone.
  destruct (Hfresh _ Em) as [Hno Hne]. fold (temp_name path six). set (tmp := temp_name path six) in *.
  destruct (if we_fchmod e then _ else _) as [writes ok] eqn:Ew.
  set (pre := FsCreate tmp :: (if we_fchmod e then [FsChmod tmp 384] else []) ++ writes).
  assert (Forall (op_at tmp) pre /\ (ok = true ->
    fs_run pre fs = <[tmp := Build_Node 384 buf]> fs)) as [Hat Hpre].
  { subst pre. destruct (we_fchmod e).
    - apply write_loop_spec in Ew as [Ha Hr]; [|lia]. split; [by repeat constructor|].
      intros Hok. cbn [app]. rewrite !fs_run_cons. cbn [fs_apply].
      rewrite alter_insert_eq. cbn [nd_data]. by rewrite Hr.
    - injection Ew as <- <-. split; [by repeat constructor|done]. }
  assert (forall x k, fs_run (take k (pre ++ [x])) fs !! path = fs !! path \/
    fs_run (take k (pre ++ [x])) fs = fs_run (pre ++ [x]) fs) as Htake.
  { intros x k. destruct (le_lt_dec k (length pre)) as [Hk|Hk].
    - left. rewrite take_app_le by done. apply (fs_run_other tmp); [done|by apply Forall_take].
    - right. rewrite take_ge; [done|]. rewrite length_app. change (length [x]) with 1%nat. clear -Hk. lia. }
  destruct (ok && we_close e && we_rename e) eqn:Eok; intros [= <- <-].
  - apply andb_prop in Eok as [[Hok _]%andb_prop _]. rewrite app_assoc. change (FsCreate tmp :: (?l ++ ?r)) with ((FsCreate tmp :: l) ++ r).
    fold pre. assert (fs_run (pre ++ [FsRename tmp path]) fs = <[path := Build_Node 384 buf]> fs) as Hend.
    { rewrite fs_run_app, Hpre by done. rewrite fs_run_cons. cbn [fs_apply].
      rewrite lookup_insert_eq, delete_insert_id by done. reflexivity. }
    split; [by left|]. intros k. destruct (Htake (FsRename tmp path) k) as [->| ->]; [by left|].
    right. by rewrite Hend, lookup_insert_eq.
  - rewrite app_assoc. change (FsCreate tmp :: (?l ++ ?r)) with ((FsCreate tmp :: l) ++ r). fold pre.
    assert (forall q, q <> tmp -> fs_run pre fs !! q = fs !! q) as Hother.
    { intros q Hq. by apply (fs_run_other tmp). }
    destruct (we_unlink e) eqn:Eun.
    2:{ rewrite app_nil_r. split; [right; split; [done|]|].
        - split; [congruence|]. intros q Hq. apply Hother. intros ->. by rewrite Em in Hq.
        - intros k. left. apply (fs_run_other tmp); [done|by apply Forall_take]. }
    assert (fs_run (pre ++ [FsUnlink tmp]) fs = fs) as Hend.
    { rewrite fs_run_app. change (delete tmp (fs_run pre fs) = fs). apply map_eq. intros q.
      destruct (decide (q = tmp)) as [->|Hq]; [by rewrite lookup_delete_eq|].
      by rewrite lookup_delete_ne, (fs_run_other tmp). }
    split; [right; split; [done|rewrite Hend; apply left_same]|].
    intros k. destruct (Htake (FsUnlink tmp) k) as [->| ->]; [by left|].
    left. by rewrite Hend.
Qed.

(** ** Keys *)

Section Pairs.
Context `{!Sodium, !SodiumLaws _}.

(** The secret key of each file belongs to the public key in the other. *)
Definition matched (air gnd : string) : Prop :=
  String.length air = 64%nat /\ String.length gnd = 64%nat /\
  crypto_scalarmult_base (take_chars 32 air) = Some (drop_chars 32 gnd) /\
  crypto_scalarmult_base (take_chars 32 gnd) = Some (drop_chars 32 air).

Definition valid_pair (p : Pair) : Prop :=
  valid_keypair (dpk p) (dsk p) /\ valid_keypair (gpk p) (gsk p).

Lemma derive_pair_valid seed p : derive_pair seed = Some p -> valid_pair p /\ sodium_init = true.
Proof.
  unfold derive_pair. destruct sodium_init eqn:Ei; [|done]. cbn [negb].
  destruct (crypto_pwhash_argon2i seed) as [k|] eqn:Ek; [|done]. cbn [mbind option_bind].
  apply pwhash_length in Ek.
  destruct (crypto_box_seed_keypair (take_chars 32 k)) as [[dpk dsk]|] eqn:Ed; [|done]. cbn [mbind option_bind].
  destruct (crypto_box_seed_keypair (drop_chars 32 k)) as [[gpk gsk]|] eqn:Eg; [|done]. cbn [mbind option_bind].
  intros [= <-]. split; [|done]. split; cbn [KeySeed.dpk KeySeed.dsk KeySeed.gpk KeySeed.gsk].
  - apply seed_keypair_valid in Ed; [done|]. rewrite take_chars_len; lia.
  - apply seed_keypair_valid in Eg; [done|]. rewrite drop_chars_length. lia.
Qed.

Lemma take_chars_app_at n s t : String.length s = n -> take_chars n (s ++ t) = s.
Proof. intros <-. apply take_chars_app. Qed.

Lemma drop_chars_app_at n s t : String.length s = n -> drop_chars n (s ++ t) = t.
Proof. intros <-. apply drop_chars_app. Qed.

Lemma role_file_length role p : valid_pair p -> String.length (role_file role p) = 64%nat.
Proof.
  intros [(Hd & Hd' & _) (Hg & Hg' & _)]. unfold role_file.
  destruct (role =? WFB_ROLE_GS); rewrite length_append; lia.
Qed.

Lemma role_files_matched p : valid_pair p ->
  matched (role_file WFB_ROLE_DRONE p) (role_file WFB_ROLE_GS p).
Proof.
  intros Hv. unfold matched. rewrite !role_file_length by done. destruct Hv as [(? & ? & ?) (? & ? & ?)].
  unfold role_file. cbn [Z.eqb WFB_ROLE_DRONE WFB_ROLE_GS Pos.eqb].
  by rewrite !take_chars_app_at, !drop_chars_app_at by done.
Qed.

(** The fingerprint of a matched pair, from either of its files. *)
Definition pair_print (air gnd : string) : string :=
  hex_of (take_chars 4 (crypto_generichash (drop_chars 32 gnd ++ drop_chars 32 air))).

Lemma fingerprint_file fs path role n own : fs !! path = Some n -> sodium_init = true ->
  String.length (nd_data n) = 64%nat ->
  crypto_scalarmult_base (take_chars 32 (nd_data n)) = Some own ->
  wfb_key_fingerprint fs path role 16 =
    (0, Some (hex_of (take_chars 4 (crypto_generichash (pair_keys role own (drop_chars 32 (nd_data n))))))).
Proof.
  intros Hn Hi Hl Hb. unfold wfb_key_fingerprint. cbn [Z.ltb Z.compare Pos.compare Pos.compare_cont].
  rewrite Hn. assert (take_chars WFB_KEY_BYTES (nd_data n) = nd_data n) as ->.
  { rewrite <- (sapp_nil_r (nd_data n)) at 1. by apply take_chars_app_at. }
  by rewrite Hl, Nat.eqb_refl, Hi, Hb.
Qed.

Lemma matched_prints air gnd fsa fsg pa pg na ng : matched air gnd -> sodium_init = true ->
  fsa !! pa = Some na -> fsg !! pg = Some ng -> nd_data na = air -> nd_data ng = gnd ->
  wfb_key_fingerprint fsa pa WFB_ROLE_DRONE 16 = (0, Some (pair_print air gnd)) /\
  wfb_key_fingerprint fsg pg WFB_ROLE_GS 16 = (0, Some (pair_print air gnd)).
Proof.
  intros (Hla & Hlg & Ha & Hg) Hi Hpa Hpg <- <-.
  split; erewrite fingerprint_file by done; reflexivity.
Qed.

Lemma length_hex_of s : String.length (hex_of s) = (2 * String.length s)%nat.
Proof. induction s as [|a s IH]; [done|]. cbn [hex_of hex2 String.append String.length str1]. rewrite IH. lia. Qed.

Lemma pair_print_length air gnd : String.length (pair_print air gnd) = 8%nat.
Proof. unfold pair_print. rewrite length_hex_of, take_chars_len; [done|]. rewrite generichash_length. lia. Qed.

(** The operations that write the key file [path]. *)
Inductive key_operation (e : WriteEnv) (fs : gmap string Node) (path : string) : list FsOp * Z -> Prop :=
| ko_ensure role seed : key_operation e fs path (wfb_ensure_key e fs path role seed)
| ko_seed role seed : key_operation e fs path (wfb_write_key_seed e path role seed)
| ko_random role dpk dsk gpk gsk : valid_keypair dpk dsk -> valid_keypair gpk gsk ->
    key_operation e fs path (wfb_write_key_random e path role (Some (dpk, dsk)) (Some (gpk, gsk)))
| ko_raw buf : String.length buf = 64%nat -> key_operation e fs path (wfb_write_key_raw e path buf)
| ko_applet args role a : ka_path a = Some path ->
    keygen_args args (Build_KeygenArgs WFB_KEY_DEFAULT_SEED None role false) = inr a ->
    key_operation e fs path (wfb_keygen_ensure_main e fs args role).

(** Nothing happened, or the file was to be replaced by one of 64 bytes. *)
Lemma write_key_seed_cases e path role seed :
  wfb_write_key_seed e path role seed = ([], -1) \/
  exists p, derive_pair (seed_or_default seed) = Some p /\
    wfb_write_key_seed e path role seed = write_atomic e path (role_file role p).
Proof.
  unfold wfb_write_key_seed, write_role_file. destruct path; [by left|].
  destruct (derive_pair _) as [p|]; [right|by left]. by exists p.
Qed.

Lemma write_atomic_rc e path buf : (write_atomic e path buf).2 = 0 \/ (write_atomic e path buf).2 = -1.
Proof.
  unfold write_atomic. repeat case_match; simplify_eq; cbn [snd]; (by left) || (by right).
Qed.

Lemma ensure_cases e fs path role seed :
  wfb_ensure_key e fs path role seed = ([], -1) \/
  wfb_ensure_key e fs path role seed = ([], 0) /\ exists_at fs path = true \/
  exists_at fs path = false /\ exists p, derive_pair (seed_or_default seed) = Some p /\
    wfb_ensure_key e fs path role seed = write_atomic e path (role_file role p).
Proof.
  unfold wfb_ensure_key, write_role_file. destruct path; [by left|].
  destruct (exists_at _ _); [by right; left|]. destruct (derive_pair _) as [p|]; [|by left].
  right. right. split; [done|]. exists p. split; [done|].
  destruct (write_atomic_rc e (String a path) (role_file role p)) as [Hr|Hr];
    destruct (write_atomic _ _ _) as [ops rc]; cbn [snd] in Hr; by subst.
Qed.
(** A passphrase that was written. *)
Lemma write_key_seed_done e fs path role seed : fresh_temp e fs path ->
  (wfb_write_key_seed e path role seed).2 = 0 ->
  exists p, derive_pair (seed_or_default seed) = Some p /\
    fs_run (wfb_write_key_seed e path role seed).1 fs = <[path := Build_Node 384 (role_file role p)]> fs.
Proof.
  intros Hf Hrc. destruct (write_key_seed_cases e path role seed) as [E|(p & Hp & E)]; rewrite E in *; [done|].
  exists p. split; [done|]. destruct (write_atomic _ _ _) as [ops rc] eqn:Ew. cbn [fst snd] in *.
  apply (write_atomic_spec _ _ _ _ _ _ Hf) in Ew as [[[_ Hr]|[-> _]] _]; done.
Qed.

(** Nothing was to be done, or one replacement; [rc] reports how it ended. *)
Definition one_replacement (e : WriteEnv) (fs : gmap string Node) (path : string)
    (ops : list FsOp) (rc : Z) : Prop :=
  ops = [] /\ (rc = 0 -> exists_at fs path = true) \/
  exists buf rc', String.length buf = 64%nat /\ write_atomic e path buf = (ops, rc') /\
    (rc = 0 <-> rc' = 0).

Lemma write_key_seed_one e fs path role seed ops rc rc' :
  wfb_write_key_seed e path role seed = (ops, rc') -> (rc = 0 <-> rc' = 0) ->
  one_replacement e fs path ops rc.
Proof.
  intros Hw Hrc. destruct (write_key_seed_cases e path role seed) as [E|(p & Hp & E)]; rewrite E in Hw.
  - injection Hw as <- <-. left. split; [done|]. lia.
  - right. exists (role_file role p), rc'. by split; [eapply role_file_length, derive_pair_valid|].
Qed.

Lemma ensure_one e fs path role seed ops rc rc' :
  wfb_ensure_key e fs path role seed = (ops, rc') -> (rc = 0 <-> rc' = 0) ->
  one_replacement e fs path ops rc.
Proof.
  intros Hw Hrc. destruct (ensure_cases e fs path role seed) as [E|[[E Hex]|(_ & p & Hp & E)]]; rewrite E in Hw.
  - injection Hw as <- <-. left. split; [done|]. lia.
  - injection Hw as <- <-. by left.
  - right. exists (role_file role p), rc'. by split; [eapply role_file_length, derive_pair_valid|].
Qed.

Lemma key_operation_one e fs path ops rc : key_operation e fs path (ops, rc) ->
  one_replacement e fs path ops rc.
Proof.
  inversion 1 as [role seed Ho|role seed Ho|role dpk dsk gpk gsk Hd Hg Ho|buf Hb Ho|args role a Hp Ha Ho].
  - by eapply ensure_one.
  - by eapply write_key_seed_one.
  - revert Ho. unfold wfb_write_key_random. destruct path as [|c path]; [intros [= <- <-]; by left|].
    destruct sodium_init; [|intros [= <- <-]; by left]. cbn [negb]. intros Ho. right.
    exists (role_file role (Build_Pair dsk dpk gsk gpk)), rc. split; [by apply role_file_length|]. by split.
  - revert Ho. unfold wfb_write_key_raw. destruct path as [|c path]; [intros [= <- <-]; by left|].
    intros Ho. right. exists buf, rc. by split_and!.
  - revert Ho. unfold wfb_keygen_ensure_main. rewrite Ha, Hp. destruct (ka_force a).
    + destruct (wfb_write_key_seed _ _ _ _) as [ops' rc'] eqn:E. intros [= <- <-].
      eapply write_key_seed_one; [done|]. destruct (Z.eqb_spec rc' 0); cbn; lia.
    + destruct (wfb_ensure_key _ _ _ _ _) as [ops' rc'] eqn:E. intros [= <- <-].
      eapply ensure_one; [done|]. destruct (Z.eqb_spec rc' 0); cbn; lia.
Qed.

(** (C30) The key file is whole whenever a process looks: whichever operation writes it (the
    first-boot derivation, a passphrase, a random pair, an upload, the applet) and wherever the
    writing process is stopped, by a failing call or by its end between two calls, the file is
    the old one or a new one of 64 bytes that its owner alone can read.  An operation that
    reports success leaves a key file and changes no other; one that reports an error leaves
    every file as it was, but for the temporary one when it cannot be removed.  A power cut is
    not covered: nothing makes the bytes reach the disk before the name does. *)
Theorem key_file_whole e fs path ops rc :
  key_operation e fs path (ops, rc) -> fresh_temp e fs path ->
  (forall k, fs_run (take k ops) fs !! path = fs !! path \/
             exists buf, fs_run (take k ops) fs !! path = Some (Build_Node 384 buf) /\ String.length buf = 64%nat) /\
  (rc <> 0 -> left_behind e path fs (fs_run ops fs)) /\
  (rc = 0 -> exists_at (fs_run ops fs) path = true /\
             forall q, q <> path -> fs_run ops fs !! q = fs !! q).
Proof.
  intros Ho Hf. destruct (key_operation_one _ _ _ _ _ Ho) as [[-> Hex]|(buf & rc' & Hl & Hw & Hrc)].
  - split_and!; [|intros _; apply left_same|by auto]. intros k. rewrite take_nil. by left.
  - destruct (write_atomic_spec _ _ _ _ _ _ Hf Hw) as [Hend Hk]. split_and!.
    + intros k. destruct (Hk k) as [E|E]; [by left|]. right. by exists buf.
    + intros Hn. destruct Hend as [[-> _]|[_ E]]; [|done]. by destruct Hn; apply Hrc.
    + intros ->. destruct Hend as [[_ E]|[-> _]]; [|lia].
      rewrite E. unfold exists_at. rewrite lookup_insert_eq. split; [done|].
      intros q Hq. by rewrite lookup_insert_ne.
Qed.
End Pairs.

(** ** Hexadecimal texts *)

(** [s] writes the bytes [k], two digits a byte, in either case. *)
Inductive hex_text : string -> string -> Prop :=
| hex_text_nil : hex_text EmptyString EmptyString
| hex_text_cons x y h l s k : hexnib x = Some h -> hexnib y = Some l -> hex_text s k ->
    hex_text (String x (String y s)) (String (ch (16 * h + l)) k).

Lemma hexnib_facts x h : hexnib x = Some h ->
  0 <= h < 16 /\ isspace x = false /\ aeq x MINUS_SIGN = false /\ aeq x PLUS_SIGN = false /\ blank x = false.
Proof.
  destruct x as [[] [] [] [] [] [] [] []]; vm_compute; intros [= <-]; split_and!; congruence.
Qed.

Lemma strtol16_pair x y h l : hexnib x = Some h -> hexnib y = Some l ->
  strtol16 (String x (str1 y)) = Some (16 * h + l, EmptyString).
Proof.
  intros Hx Hy. destruct (hexnib_facts _ _ Hx) as (_ & Hs & Hm & Hp & _). unfold strtol16, str1.
  cbn [skip_while]. rewrite Hs, Hm, Hp. cbn [skip_0x]. unfold is_xdigit. rewrite Hx.
  cbn [read_xdigits]. by rewrite Hx, Hy.
Qed.

Lemma hex_pairs_text s k rest : hex_text s k ->
  hex_pairs (String.length k) (s ++ rest) = Some (k, rest).
Proof.
  induction 1 as [|x y h l s k Hx Hy _ IH]; [done|].
  cbn [String.length String.append hex_pairs]. rewrite (strtol16_pair _ _ _ _ Hx Hy).
  apply hexnib_facts in Hx as [Hx _]. apply hexnib_facts in Hy as [Hy _].
  destruct (Z.ltb_spec (16 * h + l) 0); [lia|]. destruct (Z.gtb_spec (16 * h + l) 255); [lia|].
  cbn [orb]. by rewrite IH.
Qed.

Lemma skip_blanks pre t : all_chars blank pre = true ->
  match t with EmptyString => true | String a _ => negb (blank a) end = true ->
  skip_while blank (pre ++ t) = t.
Proof.
  intros Hp Ht. induction pre as [|a pre IH]; cbn [String.append all_chars skip_while] in *.
  - destruct t as [|a t]; [done|]. cbn. apply negb_true_iff in Ht. by rewrite Ht.
  - apply andb_prop in Hp as [-> Hp]. by apply IH.
Qed.

(** An uploaded key is the key meant: 64 bytes written as 128 hexadecimal digits of either
    case, with blanks before and behind, are read back exactly; the digits the program
    prints are such a text; and whatever text is accepted gives 64 bytes. *)
Theorem hex_key_roundtrip pre s k post :
  hex_text s k -> String.length k = WFB_KEY_BYTES ->
  all_chars blank pre = true -> all_chars blank post = true ->
  wfb_hex_to_key (pre ++ s ++ post) = Some k /\ hex_text (hex_of k) k /\
  forall text key, wfb_hex_to_key text = Some key -> String.length key = WFB_KEY_BYTES.
Proof.
  intros Hs Hk Hpre Hpost. split_and!.
  - unfold wfb_hex_to_key. rewrite skip_blanks; [|done|].
    + rewrite <- Hk, hex_pairs_text by done. cbn [mbind option_bind].
      rewrite <- (sapp_nil_r post), skip_blanks by done. by rewrite Nat.eqb_refl.
    + destruct Hs as [|x y h l s k Hx]; [done|]. cbn.
      apply hexnib_facts in Hx as (_ & _ & _ & _ & ->). done.
  - clear. induction k as [|a k IH]; [constructor|]. cbn [hex_of].
    pose proof (hex_text_cons (hex_digit (Z.shiftr (code a) 4)) (hex_digit (Z.land (code a) 15))
      (Z.shiftr (code a) 4) (Z.land (code a) 15) (hex_of k) k) as H.
    replace (ch (16 * Z.shiftr (code a) 4 + Z.land (code a) 15)) with a in H
      by (clear; by destruct a as [[] [] [] [] [] [] [] []]).
    apply H; [clear; by destruct a as [[] [] [] [] [] [] [] []]..|done].
  - clear. intros text key. unfold wfb_hex_to_key.
    destruct (hex_pairs _ _) as [[bytes rest]|]; [|done]. cbn [mbind option_bind].
    destruct (skip_while blank rest); [|done].
    destruct (Nat.eqb_spec (String.length bytes) WFB_KEY_BYTES); [|done]. by intros [= <-].
Qed.

Fixpoint repeat_str (n : nat) (s : string) : string :=
  match n with O => EmptyString | S n => (s ++ repeat_str n s)%string end.

Lemma hex_key_roundtrip_witness :
  wfb_hex_to_key (" " ++ repeat_str 64 "aF" ++ str1 LF) = Some (repeat_str 64 (str1 (ch 175))).
Proof.
  refine (proj1 (hex_key_roundtrip " " (repeat_str 64 "aF") (repeat_str 64 (str1 (ch 175))) (str1 LF) _ eq_refl eq_refl eq_refl)).
  cbn [repeat_str String.append str1].
  repeat first [exact hex_text_nil | refine (hex_text_cons "a"%char "F"%char 10 15 _ _ eq_refl eq_refl _)].
Defined.

(** Signs and blanks pass for digits: [strtol] reads both characters of a pair, not only
    hexadecimal ones. *)
Example signs_pass :
  wfb_hex_to_key (repeat_str 64 "+1") = Some (repeat_str 64 (str1 (ch 1))) /\
  wfb_hex_to_key (repeat_str 32 ("ff" ++ " 1")) = Some (repeat_str 32 (String (ch 255) (str1 (ch 1)))).
Proof. split; reflexivity. Qed.

(** *** Primitives to try the operations on *)

#[local] Instance toy_sodium : Sodium := {|
  sodium_init := true;
  crypto_pwhash_argon2i seed := Some (take_chars 64 (seed ++ repeat_str 64 "x"));
  crypto_box_seed_keypair seed := Some (seed, seed);
  crypto_scalarmult_base sk := Some sk;
  crypto_generichash m := take_chars 16 (m ++ repeat_str 16 "y") |}.

#[local] Instance toy_laws : SodiumLaws toy_sodium.
Proof.
  split.
  - cbn [toy_sodium crypto_pwhash_argon2i]. intros seed k H. apply (inj Some) in H as <-.
    rewrite take_chars_len; [done|]. rewrite length_append.
    change (String.length (repeat_str 64 "x")) with 64%nat. lia.
  - intros seed pk sk Hl [= <- <-]. by split_and!.
  - cbn [toy_sodium crypto_generichash]. intros m. rewrite take_chars_len; [done|].
    rewrite length_append. change (String.length (repeat_str 16 "y")) with 16%nat. lia.
Qed.

(** The system takes 40 bytes a call. *)
Definition toy_env : WriteEnv := Build_WriteEnv true (Some "a1B2c3"%string) true (fun _ => 40) true true true.

(** What a power cut can leave of the operations when the file system puts names on the disk
    before bytes: the appended bytes are lost. *)
Definition bytes_lost (ops : list FsOp) : list FsOp :=
  List.filter (fun op => match op with FsAppend _ _ => false | _ => true end) ops.

(** The key file is then there and empty, and the next start takes it for a key. *)
Example power_cut_empties :
  let fs := fs_run (bytes_lost (wfb_ensure_key toy_env ∅ "/etc/gs.key" WFB_ROLE_GS "").1) ∅ in
  fs !! "/etc/gs.key"%string = Some (Build_Node 384 EmptyString) /\
  wfb_ensure_key toy_env fs "/etc/gs.key" WFB_ROLE_GS "" = ([], 0).
Proof. split; vm_compute; reflexivity. Qed.

Lemma key_file_whole_witness : exists ops,
  wfb_ensure_key toy_env ∅ "/etc/gs.key" WFB_ROLE_GS "" = (ops, 0) /\
  exists_at (fs_run ops ∅) "/etc/gs.key" = true.
Proof.
  destruct (wfb_ensure_key toy_env ∅ "/etc/gs.key" WFB_ROLE_GS "") as [ops rc] eqn:E.
  assert (rc = 0) as Hrc by (vm_compute in E; congruence).
  exists ops. split; [by rewrite Hrc|].
  refine (proj1 (proj2 (proj2 (key_file_whole toy_env ∅ "/etc/gs.key" ops rc _ _)) Hrc)).
  - rewrite <- E. constructor.
  - intros six [= <-]. split; [done|]. vm_compute. discriminate.
Defined.
