(* ===== verification/KeysApi.v ===== *)
(** * The key pages of both ends

    [/keys] of [vehicle/link_controller.c] and [/api/v1/keys] of
    [ground/gs_supervisor_http.c], as the binary that carries the key module compiles them:
    state, re-keying by passphrase, at random or by upload, over [KeySeed]. *)

From S2P Require Import Prelude CString Decimal WfbJson JsonForest JsonText Tunables ConfigEnv GsText KeySeed.
From stdpp Require Import strings gmap.

Local Open Scope list_scope.
Local Open Scope Z_scope.
#[local] Arguments String.append !_ _ /.

(** ** Query strings on the vehicle *)

(** The bytes written to [out], of capacity [cap], before the final NUL. *)
Fixpoint qp_decode (cap : nat) (v : string) : string :=
  match cap with
  | O | S O => EmptyString
  | S cap =>
      match v with
      | EmptyString => EmptyString
      | String c t =>
          if aeq c AMP then EmptyString
          else
            let other := String (if aeq c PLUS_SIGN then SP else c) (qp_decode cap t) in
            match t with
            | String x (String y u) =>
                if aeq c PERCENT && is_xdigit x && is_xdigit y then
                  String (ch (default 0 (fst <$> strtol16 (String x (str1 y))))) (qp_decode cap u)
                else other
            | _ => other
            end
      end
  end.

Fixpoint qparam_str_from (fuel : nat) (bound : bool) (s name : string) (cap : nat) : option string :=
  match fuel with
  | O => None
  | S fuel =>
      if starts_with name s then
        let after := drop_chars (String.length name) s in
        let last_amp := match last (list_ascii_of_string name) with
                        | Some a => aeq a AMP | None => false end in
        match after with
        | String a v =>
            if bound && aeq a EQUALS then Some (qp_decode cap v)
            else qparam_str_from fuel last_amp after name cap
        | EmptyString => None
        end
      else match s with
           | String a s => qparam_str_from fuel (aeq a AMP) s name cap
           | EmptyString => None
           end
  end.

(** [qparam_str]: the text left in [out], up to its first NUL; [None] when [name] is absent. *)
Definition qparam_str (qs : option string) (name : string) (cap : nat) : option string :=
  s ← qs; until_nul <$> qparam_str_from (S (String.length s)) true s name cap.

(** ** The pages *)

(** What a request did to the files, its answer, and whether the stack is restarted. *)
Record KeysReply := Build_KeysReply {
  kr_ops : list FsOp; kr_status : Z; kr_body : string; kr_restart : bool }.

(** What the handler has found out when it writes the answer: the changes, the return code
    and the message. *)
Record KeysAct := Build_KeysAct { kt_ops : list FsOp; kt_rc : Z; kt_err : option string }.

Definition tf (b : bool) : string := if b then "true" else "false".

Definition written (r : list FsOp * Z) : KeysAct :=
  Build_KeysAct r.1 r.2 (if r.2 =? 0 then None else Some "write failed"%string).

Definition keys_body (role path fp hint : string) (act : KeysAct) (action : string) (fs : gmap string Node)
    : string :=
  let ok := kt_rc act =? 0 in
  (with_quotes "{'ok':" ++ tf ok ++ "," ++
   match kt_err act with
   | Some e => with_quotes "'error':'" ++ e ++ with_quotes "',"
   | None => EmptyString
   end ++
   with_quotes "'role':'" ++ role ++ with_quotes "','path':'" ++ path ++ with_quotes "','exists':" ++
   tf (exists_at fs path) ++ with_quotes ",'fingerprint':'" ++ fp ++ with_quotes "','changed':" ++
   tf (ok && negb (String.eqb action "")) ++ with_quotes ",'seed_default':'Waybeam'" ++ hint ++ "}")%string.

Section Pages.
Context `{Sodium}.

(** The answer to an action; the fingerprint is read back from the file. *)
Definition keys_reply (fs : gmap string Node) (path : string) (role : Z) (role_name hint action : string)
    (act : KeysAct) : KeysReply :=
  let fs := fs_run (kt_ops act) fs in
  let fp := default EmptyString (wfb_key_fingerprint fs path role 16).2 in
  Build_KeysReply (kt_ops act) (if kt_rc act =? 0 then 200 else 400)
    (keys_body role_name path fp hint act action fs) false.

(** *** [link_controller]: [/keys] *)

Definition air_seed (qs : option string) : string :=
  match qparam_str qs "seed" 128 with
  | Some (String c s) => String c s
  | _ => WFB_KEY_DEFAULT_SEED
  end.

Definition air_action (e : WriteEnv) (drone gs : option (string * string)) (path action : string)
    (qs : option string) : KeysAct :=
  if String.eqb action "" then Build_KeysAct [] 0 None
  else if String.eqb action "seed" then written (wfb_write_key_seed e path WFB_ROLE_DRONE (air_seed qs))
  else if String.eqb action "random" then written (wfb_write_key_random e path WFB_ROLE_DRONE drone gs)
  else if String.eqb action "upload" then
    match (hex ← qparam_str qs "hex" 160; wfb_hex_to_key hex) with
    | None => Build_KeysAct [] (-1) (Some "bad key (need 128 hex chars)"%string)
    | Some kb => written (wfb_write_key_raw e path kb)
    end
  else Build_KeysAct [] (-1) (Some "unknown action"%string).

(** [drone] and [gs] are the random pairs drawn. *)
Definition keys_page (e : WriteEnv) (drone gs : option (string * string)) (fs : gmap string Node)
    (path : string) (qs : option string) : KeysReply :=
  let action := default EmptyString (qparam_str qs "action" 32) in
  if String.eqb action "restart" then
    Build_KeysReply [] 200 (with_quotes "{'ok':true,'restarting':true}") true
  else keys_reply fs path WFB_ROLE_DRONE "drone" "" action (air_action e drone gs path action qs).

(** *** [gs_supervisor]: [/api/v1/keys] *)

(** A passphrase that is absent, empty or too long leaves the built-in one. *)
Definition gs_seed (qs : option string) : string :=
  match qs_get qs "seed" with
  | Some r => if negb (r.2 =? 0) && (r.2 <? 128) then until_nul (qs_pct_decode 128 (qs_value r))
              else WFB_KEY_DEFAULT_SEED
  | None => WFB_KEY_DEFAULT_SEED
  end.

Definition gs_action (e : WriteEnv) (drone gs : option (string * string)) (path action : string)
    (qs : option string) : KeysAct :=
  if String.eqb action "" then Build_KeysAct [] 0 None
  else if String.eqb action "seed" then written (wfb_write_key_seed e path WFB_ROLE_GS (gs_seed qs))
  else if String.eqb action "random" then written (wfb_write_key_random e path WFB_ROLE_GS drone gs)
  else if String.eqb action "upload" then
    match qs_get qs "hex" with
    | Some r =>
        if r.2 >=? 160 then Build_KeysAct [] (-1) (Some "missing/long hex"%string)
        else match wfb_hex_to_key (qs_value r) with
             | None => Build_KeysAct [] (-1) (Some "bad key (need 128 hex chars)"%string)
             | Some kb => written (wfb_write_key_raw e path kb)
             end
    | None => Build_KeysAct [] (-1) (Some "missing/long hex"%string)
    end
  else Build_KeysAct [] (-1) (Some "unknown action"%string).

Definition gs_keys_page (e : WriteEnv) (drone gs : option (string * string)) (fs : gmap string Node)
    (path : string) (qs : option string) : KeysReply :=
  let action := match qs_get qs "action" with
                | Some r => if r.2 <? 32 then qs_value r else EmptyString
                | None => EmptyString
                end in
  keys_reply fs path WFB_ROLE_GS "gs" (with_quotes ",'apply_hint':'/api/v1/system/reinit'") action
    (gs_action e drone gs path action qs).
End Pages.

(** ** One passphrase, both ends *)

Lemma hex_value x y h l : hexnib x = Some h -> hexnib y = Some l ->
  Z.lor (Z.shiftl h 4) l = 16 * h + l.
Proof.
  intros [Hh _]%hexnib_facts [Hl _]%hexnib_facts.
  assert (forallb (fun h => forallb (fun l => Z.lor (Z.shiftl (Z.of_nat h) 4) (Z.of_nat l) =?
    16 * Z.of_nat h + Z.of_nat l) (seq 0 16)) (seq 0 16) = true) as H by reflexivity.
  rewrite forallb_forall in H. specialize (H (Z.to_nat h)). rewrite forallb_forall in H.
  rewrite !Z2Nat.id in H by lia. specialize (H ltac:(apply in_seq; lia) (Z.to_nat l)).
  rewrite !Z2Nat.id in H by lia. apply Z.eqb_eq, H, in_seq. lia.
Qed.

(** Without a plus sign both decoders read the same text. *)
Lemma qp_decode_encoded d s : pct_encodes d s -> lacks AMP s = true -> lacks PLUS_SIGN s = true ->
  forall cap, (String.length d < cap)%nat -> qp_decode cap s = d.
Proof.
  unfold lacks. induction 1 as [|a d s Ha _ IH|x y h l d s Hx Hy _ IH]; cbn [all_chars];
    intros Hamp Hplus cap Hc; (destruct cap as [|[|cap]]; cbn [String.length] in Hc; [lia|..]); try lia; try done.
  - apply andb_prop in Hamp as [Hna%negb_true_iff Hamp]. apply andb_prop in Hplus as [Hnp%negb_true_iff Hplus].
    assert (qp_decode (S (S cap)) (String a s) = String a (qp_decode (S cap) s)) as ->.
    { cbn [qp_decode]. rewrite Hna, Hnp, Ha. by destruct s as [|b [|c s]]. }
    rewrite IH; [done..|lia].
  - apply andb_prop in Hamp as [_ Hamp]. apply andb_prop in Hamp as [_ Hamp]. apply andb_prop in Hamp as [_ Hamp].
    apply andb_prop in Hplus as [_ Hplus]. apply andb_prop in Hplus as [_ Hplus]. apply andb_prop in Hplus as [_ Hplus].
    assert (qp_decode (S (S cap)) (String PERCENT (String x (String y s))) =
      String (ch (16 * h + l)) (qp_decode (S cap) s)) as ->.
    { cbn [qp_decode]. change (aeq PERCENT AMP) with false. unfold is_xdigit. rewrite aeq_refl, Hx, Hy.
      by rewrite (strtol16_pair _ _ _ _ Hx Hy). }
    rewrite IH by (done || lia). by rewrite (hex_value _ _ _ _ Hx Hy).
Qed.

Lemma pct_encodes_length d s : pct_encodes d s -> (String.length d <= String.length s)%nat.
Proof. induction 1; cbn [String.length]; lia. Qed.

(** The request of the key page. *)
Definition seed_query (s : string) : option string := Some ("action=seed&seed=" ++ s)%string.

Lemma air_query s : qparam_str (seed_query s) "action" 32 = Some "seed"%string /\
  qparam_str (seed_query s) "seed" 128 = Some (until_nul (qp_decode 128 s)).
Proof. split; reflexivity. Qed.

Lemma qs_get_field qs key v : lacks AMP key = true -> first_value key (qs_fields qs) = Some v ->
  exists r, qs_get (Some qs) key = Some r /\ qs_value r = v /\ r.2 = strlen v.
Proof.
  intros Hk Hv. destruct (qs_get_from_fields key Hk (S (String.length qs)) (String.length qs) qs) as [He Hl]; [lia..|].
  unfold qs_fields in Hv. rewrite Hv in He. unfold qs_get. cbn [mbind option_bind].
  destruct (qs_get_from _ _ _) as [r|]; [|done]. apply (inj Some) in He. exists r. split_and!; [done..|].
  rewrite <- He. unfold qs_value. rewrite !strlen_length in *. rewrite take_chars_len; lia.
Qed.

Lemma gs_query s : lacks AMP s = true ->
  (exists r, qs_get (seed_query s) "action" = Some r /\ qs_value r = "seed"%string /\ r.2 = 4) /\
  (exists r, qs_get (seed_query s) "seed" = Some r /\ qs_value r = s /\ r.2 = strlen s).
Proof.
  intros Hs. split.
  - by apply (qs_get_field _ _ "seed").
  - apply qs_get_field; [done|]. unfold qs_fields.
    change (first_value "seed" (fields_from (S (S (15 + String.length s)))
      ("action=seed" ++ String AMP ("seed=" ++ s))) = Some s).
    cbn [fields_from]. rewrite span_parts by done. rewrite span_lacks; [reflexivity|].
    unfold lacks in *. by rewrite all_chars_app.
Qed.

(** Both ends take the same passphrase from the request. *)
Lemma seeds_agree d s : pct_encodes d s -> lacks AMP s = true -> lacks PLUS_SIGN s = true -> strlen s < 128 ->
  seed_or_default (air_seed (seed_query s)) = seed_or_default (until_nul d) /\
  seed_or_default (gs_seed (seed_query s)) = seed_or_default (until_nul d).
Proof.
  intros Hd Ha Hp Hl. rewrite strlen_length in Hl. pose proof (pct_encodes_length _ _ Hd) as Hle. split.
  - unfold air_seed. rewrite (proj2 (air_query s)), (qp_decode_encoded _ _ Hd Ha Hp) by lia.
    by destruct (until_nul d).
  - destruct (gs_query s Ha) as [_ (r & Hr & Hv & Hn)]. unfold gs_seed. rewrite Hr, Hn, Hv.
    rewrite (pct_decode_encoded _ _ Hd) by lia. rewrite strlen_length.
    destruct (Z.eqb_spec (Z.of_nat (String.length s)) 0) as [H0|H0]; cbn [negb andb].
    + destruct s; [|cbn in H0; lia]. by inversion Hd.
    + by destruct (Z.ltb_spec (Z.of_nat (String.length s)) 128); [|lia].
Qed.

Section Rekey.
Context `{!Sodium, !SodiumLaws _}.

(** The document of a successful re-keying. *)
Definition keys_doc (role path fp : string) (hint : list (string * json)) : json :=
  JObj ([("ok", JBool true); ("role", JString role); ("path", JString path); ("exists", JBool true);
         ("fingerprint", JString fp); ("changed", JBool true); ("seed_default", JString "Waybeam")]%string ++ hint).

(** The page did what the return code says. *)
Lemma reply_done fs path role role_name hint r n : r.2 = 0 -> fs_run r.1 fs !! path = Some n ->
  keys_reply fs path role role_name hint "seed" (written r) =
  Build_KeysReply r.1 200
    (keys_body role_name path (default EmptyString (wfb_key_fingerprint (fs_run r.1 fs) path role 16).2) hint
       (Build_KeysAct r.1 0 None) "seed" (fs_run r.1 fs)) false.
Proof. intros Hr Hn. unfold keys_reply, written. cbn [kt_ops kt_rc]. by rewrite Hr. Qed.

Lemma keys_body_doc role path fp ops fs n : fs !! path = Some n ->
  keys_body role path fp "" (Build_KeysAct ops 0 None) "seed" fs = print_json (keys_doc role path fp []) /\
  keys_body role path fp (with_quotes ",'apply_hint':'/api/v1/system/reinit'") (Build_KeysAct ops 0 None) "seed" fs =
    print_json (keys_doc role path fp [("apply_hint", JString "/api/v1/system/reinit")]%string).
Proof.
  intros Hn. unfold keys_body, exists_at. rewrite Hn. unfold keys_doc.
  split; cbn [print_json map commas app fst snd tf kt_rc kt_err]; unfold quoted; rewrite ?sapp_assoc; reflexivity.
Qed.

(** (C29) A passphrase typed at both ends pairs them: when the key pages of the vehicle and of the
    ground get the same request with a passphrase of at most 127 encoded bytes in which a plus
    sign is written as [%2B], and both answer 200, each end holds a file of its own 64 bytes, private to
    its owner, derived from that passphrase; the secret key of each file belongs to the public
    key in the other; and both answers are JSON documents that show the same fingerprint, of
    eight digits. *)
Theorem rekey_pairs ea eg fsa fsg pa pg s d ra rg :
  pct_encodes d s -> lacks AMP s = true -> lacks PLUS_SIGN s = true -> strlen s < 128 ->
  fresh_temp ea fsa pa -> fresh_temp eg fsg pg ->
  keys_page ea None None fsa pa (seed_query s) = ra -> kr_status ra = 200 ->
  gs_keys_page eg None None fsg pg (seed_query s) = rg -> kr_status rg = 200 ->
  exists p fp, derive_pair (seed_or_default (until_nul d)) = Some p /\
    let fa := role_file WFB_ROLE_DRONE p in
    let fg := role_file WFB_ROLE_GS p in
    matched fa fg /\ String.length fp = 8%nat /\
    fs_run (kr_ops ra) fsa = <[pa := Build_Node 384 fa]> fsa /\
    fs_run (kr_ops rg) fsg = <[pg := Build_Node 384 fg]> fsg /\
    kr_body ra = print_json (keys_doc "drone" pa fp []) /\
    kr_body rg = print_json (keys_doc "gs" pg fp [("apply_hint", JString "/api/v1/system/reinit")]%string).
Proof.
  intros Hd Hamp Hplus Hl Hfa Hfg <- Ha <- Hg.
  destruct (seeds_agree _ _ Hd Hamp Hplus Hl) as [Hsa Hsg].
  destruct (gs_query s Hamp) as [(r & Hr & Hv & Hn) _].
  unfold keys_page in *. rewrite (proj1 (air_query s)) in *.
  unfold gs_keys_page in *. rewrite Hr, Hv, Hn in *. cbn [default from_option] in *.
  change (String.eqb "seed" "restart") with false in *. change (4 <? 32) with true in *.
  unfold air_action, gs_action in *. change (String.eqb "seed" "") with false in *.
  change (String.eqb "seed" "seed") with true in *. cbv iota in *.
  set (xa := wfb_write_key_seed ea pa WFB_ROLE_DRONE _) in *.
  set (xg := wfb_write_key_seed eg pg WFB_ROLE_GS _) in *.
  assert (xa.2 = 0) as Hxa by (revert Ha; cbn; by destruct (Z.eqb_spec xa.2 0)).
  assert (xg.2 = 0) as Hxg by (revert Hg; cbn; by destruct (Z.eqb_spec xg.2 0)).
  destruct (write_key_seed_done _ _ _ _ _ Hfa Hxa) as (p & Hp & Hra). fold xa in Hra. rewrite Hsa in Hp.
  destruct (write_key_seed_done _ _ _ _ _ Hfg Hxg) as (p' & Hp' & Hrg). fold xg in Hrg. rewrite Hsg, Hp in Hp'.
  apply (inj Some) in Hp' as <-. destruct (derive_pair_valid _ _ Hp) as [Hval Hinit].
  assert (fs_run xa.1 fsa !! pa = Some (Build_Node 384 (role_file WFB_ROLE_DRONE p))) as Hna
    by (by rewrite Hra, lookup_insert_eq).
  assert (fs_run xg.1 fsg !! pg = Some (Build_Node 384 (role_file WFB_ROLE_GS p))) as Hng
    by (by rewrite Hrg, lookup_insert_eq).
  pose proof (role_files_matched _ Hval) as Hm.
  destruct (matched_prints _ _ _ _ _ _ _ _ Hm Hinit Hna Hng eq_refl eq_refl) as [Hpa Hpg].
  exists p, (pair_print (role_file WFB_ROLE_DRONE p) (role_file WFB_ROLE_GS p)).
  rewrite (reply_done _ _ _ _ _ _ _ Hxa Hna), (reply_done _ _ _ _ _ _ _ Hxg Hng), Hpa, Hpg.
  cbn [kr_ops kr_body snd default from_option]. split_and!; try done.
  - apply pair_print_length.
  - by eapply (proj1 (keys_body_doc _ _ _ _ _ _ Hna)).
  - by eapply (proj2 (keys_body_doc _ _ _ _ _ _ Hng)).
Qed.
End Rekey.

Lemma rekey_pairs_witness : exists p fp,
  derive_pair (H := toy_sodium) "my key" = Some p /\ String.length fp = 8%nat /\
  kr_body (keys_page (H := toy_sodium) toy_env None None ∅ "/etc/drone.key" (seed_query "my%20key")) =
    print_json (keys_doc "drone" "/etc/drone.key" fp []).
Proof.
  destruct (@rekey_pairs toy_sodium toy_laws toy_env toy_env ∅ ∅ "/etc/drone.key" "/etc/gs.key" "my%20key" "my key" _ _
    ltac:(do 2 (apply pct_lit; [reflexivity|]); apply (pct_hex "2" "0" 2 0); [reflexivity..|];
          do 3 (apply pct_lit; [reflexivity|]); constructor)
    eq_refl eq_refl eq_refl
    ltac:(intros six [= <-]; split; [reflexivity|vm_compute; discriminate])
    ltac:(intros six [= <-]; split; [reflexivity|vm_compute; discriminate])
    eq_refl ltac:(vm_compute; reflexivity) eq_refl ltac:(vm_compute; reflexivity))
    as (p & fp & Hp & _ & Hl & _ & _ & Hb & _).
  exists p, fp. split; [exact Hp|]. split; [exact Hl|exact Hb].
Defined.

(** A bare plus sign is a blank to the vehicle and a plus sign to the ground; a passphrase of 128
    encoded bytes is cut to 127 by the vehicle, and replaced by the built-in one by the ground. *)
Example seeds_differ :
  air_seed (seed_query "a+b") = "a b"%string /\ gs_seed (seed_query "a+b") = "a+b"%string /\
  air_seed (seed_query (repeat_str 128 "k")) = repeat_str 127 "k" /\
  gs_seed (seed_query (repeat_str 128 "k")) = "Waybeam"%string.
Proof. split_and!; vm_compute; reflexivity. Qed.

(** The long passphrase gets the answer of a re-keying that worked. *)
Example long_seed_is_public :
  let r := gs_keys_page (H := toy_sodium) toy_env None None ∅ "/etc/gs.key" (seed_query (repeat_str 128 "k")) in
  kr_status r = 200 /\
  Some (fs_run (kr_ops r) ∅) =
    (fun p => <["/etc/gs.key"%string := Build_Node 384 (role_file WFB_ROLE_GS p)]> ∅) <$>
      derive_pair (H := toy_sodium) "Waybeam".
Proof. split; vm_compute; reflexivity. Qed.
