(* ===== verification/GsNet.v ===== *)
(** * The surroundings of the ground supervisor

    What [ground/gs_supervisor*.c] asks of the kernel and of its children: the clocks, [fork]
    and [waitpid], signals, sockets, and the files of [/sys].  The answers are functions of
    what happened before, the class [GsEnv]; a computation [GIO GEvent] records every call.

    Loops that wait for time to pass are given [ge_patience] turns per millisecond of their
    deadline, and record [GStuck] if that is not enough.  [time_passes] says that it is
    enough; [never_stuck] theorems are the termination of those loops. *)

From S2P Require Import Prelude CString Io Net.

Local Open Scope list_scope.

(** ** Events *)

(** The states a child is reaped in. *)
Inductive WStatus := WExited (code : Z) | WSignaled (sig : Z) | WOther.

Inductive KillResult := KillOk | KillEsrch | KillErr.
Inductive PollResult := PollIntr | PollFail | PollZero | PollReady.
Inductive ReadResult := ReadAgain | ReadFail | ReadEof | ReadData (s : string).

(** A socket address, in host order. *)
Definition Addr : Type := Z * Z.
Definition INADDR_LOOPBACK : Z := 0x7F000001.
Definition loopback (port : Z) : Addr := (INADDR_LOOPBACK, u16 port).

Definition SIGKILL : Z := 9.
Definition SIGTERM : Z := 15.

Inductive GEvent :=
  | GNow
  | GRealtime
  | GPipe
  | GFork (argv : list string)
  | GReap
  | GWait (pid : Z)
  | GWaitBlocking (pid : Z)
  | GKill (pid sig : Z)
  | GSleepMs (ms : Z)
  | GPollFd (timeout_ms : Z)
  | GRead (cap : Z)
  | GReadFile (path : string)
  | GOpenStats
  | GSocket
  | GSend (dst : Addr) (bytes : list Z)
  | GSendText (dst : Addr) (text : string)
  | GDrain (fd : Z)
  | GCtl (port req_id : Z) (c : Ctl)
  | GCtlRecv
  | GReply (code : Z)
  | GStuck.

(** ** Answers

    The history given to an answer contains the call itself.  [ge_clock_us] is
    [CLOCK_MONOTONIC] in microseconds, [ge_clock_ns] what is below one, [ge_realtime_ms]
    [CLOCK_REALTIME]; [ge_open_stats] the descriptor and port of a bound listener;
    [ge_socket] and [ge_send] answer the [errno] of a failure; [ge_drain] is what successive
    [recv] calls return until the queue is empty, [ge_reap] what successive
    [waitpid(-1, ..., WNOHANG)] calls return until no child has terminated. *)
Class GsEnv := {
  ge_clock_us : list GEvent -> Z;
  ge_realtime_ms : list GEvent -> Z;
  ge_pipe : list GEvent -> bool;
  ge_fork : list GEvent -> option Z;
  ge_reap : list GEvent -> list (Z * WStatus);
  ge_wait : list GEvent -> Z * WStatus;
  ge_kill : list GEvent -> KillResult;
  ge_poll : list GEvent -> PollResult;
  ge_read : list GEvent -> ReadResult;
  ge_file : list GEvent -> option string;
  ge_open_stats : list GEvent -> option (Z * Z);
  ge_socket : list GEvent -> option Z;
  ge_send : list GEvent -> option Z;
  ge_drain : list GEvent -> list string;
  ge_ctl_sent : list GEvent -> bool;
  ge_ctl_reply : list GEvent -> option (list Z);
  ge_patience : nat
}.

Abbreviation GW := (GWorld GEvent).
Abbreviation GS := (GIO GEvent).

(** A call: it is recorded, and answered from the history. *)
Definition call {A} (e : GEvent) (answer : list GEvent -> A) : GS A := fun w =>
  let w := w <| w_trace := e :: w_trace w |> in (answer (w_trace w), w).

Section Calls.
Context {EV : GsEnv}.

(** The clock starts at boot: its [uint64_t] of microseconds is taken not to wrap. *)
Definition now_us : GS Z := call GNow ge_clock_us.
Definition now_ms : GS Z := let! t := now_us in io_ret (t `quot` 1000).
Definition realtime_ms : GS Z := call GRealtime ge_realtime_ms.
Definition fork_exec (argv : list string) : GS (option Z) := call (GFork argv) ge_fork.
Definition kill (pid sig : Z) : GS KillResult := call (GKill pid sig) ge_kill.
Definition waitpid_nohang (pid : Z) : GS (Z * WStatus) := call (GWait pid) ge_wait.
Definition waitpid_blocking (pid : Z) : GS unit := io_log (GWaitBlocking pid).
Definition sleep_ms (ms : Z) : GS unit := io_log (GSleepMs ms).
Definition open_socket : GS (option Z) := call GSocket ge_socket.
Definition send_bytes (dst : Addr) (bs : list Z) : GS (option Z) :=
  call (GSend dst bs) ge_send.
Definition send_text (dst : Addr) (s : string) : GS (option Z) :=
  call (GSendText dst s) ge_send.
Definition drain_fd (fd : Z) : GS (list string) := call (GDrain fd) ge_drain.
Definition read_file (path : string) : GS (option string) := call (GReadFile path) ge_file.
Definition reply (code : Z) : GS unit := io_log (GReply code).

(** ** Time *)

Definition turns (deadline_ms : Z) : nat := (ge_patience * Z.to_nat (deadline_ms + 2))%nat.

(** The clock does not go back, and any [ge_patience] calls take at least a millisecond. *)
Record time_passes : Prop := {
  clock_range h : 0 <= ge_clock_us h;
  clock_monotone h es : ge_clock_us h <= ge_clock_us (es ++ h);
  clock_advances h es : (ge_patience <= length es)%nat ->
    ge_clock_us h + 1000 <= ge_clock_us (es ++ h)
}.
End Calls.
