(* ===== verification/GsConfig.v ===== *)
(** * Configuration of the ground supervisor

    [ground/gs_supervisor.h] (the structs [Tunnel] and [Config]) and the loader of
    [ground/gs_supervisor.c]: [cfg_parse_tunnel], [cfg_expand_profile], [cfg_load], the overlay
    [cfg_apply_wfb_link_overlay] and the two argument builders. *)

From S2P Require Import Prelude CString Decimal WfbJson GsText GsNet.

Local Open Scope list_scope.

Definition GS_MAX_TUNNELS : Z := 8.
Definition GS_MAX_IFACES : Z := 4.
Definition GS_MAX_EXTRA_ARGS : Z := 16.
Definition GS_MAX_SYSTEM_CMDS : Z := 32.
Definition GS_NAME_MAX : Z := 32.
Definition GS_PATH_MAX : Z := 256.
Definition GS_ARG_MAX : Z := 128.
Definition GS_ARGV_MAX : Z := 64.
Definition GS_ARGV_BUF : Z := 1536.
Definition IFNAMSIZ : Z := 16.

(** ** A tunnel *)

Inductive TunnelState := TS_STOPPED | TS_STARTING | TS_RUNNING | TS_BACKOFF | TS_FAILED.

#[export] Instance TunnelState_eq_dec : EqDecision TunnelState.
Proof. solve_decision. Defined.

(** One bucket of [probe_bucket]. *)
Record ProbeBucket := Build_ProbeBucket { pb_uniq : Z; pb_lost : Z; pb_rssi : Z }.

#[export] Instance eta_ProbeBucket : Eta ProbeBucket := fun b =>
  Build_ProbeBucket (pb_uniq b) (pb_lost b) (pb_rssi b).

(** The fields of [Tunnel] that [stats_drain] keeps: the [probe_*] accumulator, and the
    [st_*] snapshot of the last reports. *)
Record ProbeAcc := Build_ProbeAcc {
  probe_win_start_us : Z; probe_bucket : list ProbeBucket;
  probe_emit_count : Z; probe_drop_count : Z
}.

#[export] Instance eta_ProbeAcc : Eta ProbeAcc := fun p => Build_ProbeAcc
  (probe_win_start_us p) (probe_bucket p) (probe_emit_count p) (probe_drop_count p).

Record RxStats := Build_RxStats {
  st_pkt_all : Z; st_pkt_lost : Z; st_pkt_fec : Z; st_pkt_outgoing : Z; st_pkt_dec_err : Z;
  st_pkt_bytes : Z; st_pkt_uniq : Z; st_ant_count : Z; st_rssi_best : Z;
  st_mcs_win : list (list Z); st_mcs_win_sec : list Z
}.

#[export] Instance eta_RxStats : Eta RxStats := fun s => Build_RxStats
  (st_pkt_all s) (st_pkt_lost s) (st_pkt_fec s) (st_pkt_outgoing s) (st_pkt_dec_err s)
  (st_pkt_bytes s) (st_pkt_uniq s) (st_ant_count s) (st_rssi_best s)
  (st_mcs_win s) (st_mcs_win_sec s).

Record TxStats := Build_TxStats {
  st_tx_pkts_in : Z; st_tx_pkts_out : Z; st_tx_bytes_in : Z; st_tx_bytes_out : Z;
  st_tx_drop : Z; st_tx_trunc : Z; st_tx_fec_timeouts : Z
}.

#[export] Instance eta_TxStats : Eta TxStats := fun s => Build_TxStats
  (st_tx_pkts_in s) (st_tx_pkts_out s) (st_tx_bytes_in s) (st_tx_bytes_out s)
  (st_tx_drop s) (st_tx_trunc s) (st_tx_fec_timeouts s).

(** What the configuration says about a tunnel. *)
Record TunnelCfg := Build_TunnelCfg {
  tc_name : string; tc_role : string; tc_binary : string; tc_link_id : Z; tc_radio_port : Z;
  tc_ifaces : list string;
  tc_udp_out_ip : string; tc_udp_out_port : Z; tc_stats_out : string; tc_stats_tap : string;
  tc_probe : bool; tc_probe_window_ms : Z;
  tc_udp_in_port : Z; tc_control_port : Z;
  tc_extra_args : list string; tc_keyless : bool; tc_autostart : bool
}.

#[export] Instance eta_TunnelCfg : Eta TunnelCfg := fun t => Build_TunnelCfg
  (tc_name t) (tc_role t) (tc_binary t) (tc_link_id t) (tc_radio_port t) (tc_ifaces t)
  (tc_udp_out_ip t) (tc_udp_out_port t) (tc_stats_out t) (tc_stats_tap t)
  (tc_probe t) (tc_probe_window_ms t) (tc_udp_in_port t) (tc_control_port t)
  (tc_extra_args t) (tc_keyless t) (tc_autostart t).

(** The transmit parameters: configured, then refreshed from the running [wfb_tx]. *)
Record TxParams := Build_TxParams {
  tp_fec_k : Z; tp_fec_n : Z; tp_bandwidth_mhz : Z; tp_mcs_index : Z; tp_stbc : Z; tp_ldpc : Z;
  tp_short_gi : Z; tp_vht_mode : Z; tp_vht_nss : Z; tp_fec_timeout_ms : Z;
  tp_radio_cache_have : bool; tp_fec_cache_have : bool; tp_radio_cache_us : Z
}.

#[export] Instance eta_TxParams : Eta TxParams := fun p => Build_TxParams
  (tp_fec_k p) (tp_fec_n p) (tp_bandwidth_mhz p) (tp_mcs_index p) (tp_stbc p) (tp_ldpc p)
  (tp_short_gi p) (tp_vht_mode p) (tp_vht_nss p) (tp_fec_timeout_ms p)
  (tp_radio_cache_have p) (tp_fec_cache_have p) (tp_radio_cache_us p).

(** [t_fwd] and [t_tap] are [stats_fwd_addr] and [stats_tap_addr] while they are active. *)
Record Tunnel := Build_Tunnel {
  t_cfg : TunnelCfg; t_tx : TxParams;
  t_state : TunnelState; t_pid : Z; t_started_us : Z; t_exited_us : Z; t_exit_code : Z;
  t_restart_count : Z; t_backoff_idx : Z; t_next_start_ms : Z; t_autostart_on_exit : bool;
  t_stop_deadline_ms : Z; t_tx_init_query_after_us : Z;
  t_stats_fd : Z; t_stats_port : Z; t_stats_arg : string;
  t_fwd : option Addr; t_tap : option Addr;
  t_probe_acc : ProbeAcc;
  t_first_us : Z; t_last_us : Z; t_interval_ms : Z; t_msg_count : Z;
  t_rx_stats : RxStats; t_tx_stats : TxStats
}.

#[export] Instance eta_Tunnel : Eta Tunnel := fun t => Build_Tunnel
  (t_cfg t) (t_tx t) (t_state t) (t_pid t) (t_started_us t) (t_exited_us t) (t_exit_code t)
  (t_restart_count t) (t_backoff_idx t) (t_next_start_ms t) (t_autostart_on_exit t)
  (t_stop_deadline_ms t) (t_tx_init_query_after_us t) (t_stats_fd t) (t_stats_port t)
  (t_stats_arg t) (t_fwd t) (t_tap t) (t_probe_acc t) (t_first_us t) (t_last_us t)
  (t_interval_ms t) (t_msg_count t) (t_rx_stats t) (t_tx_stats t).

Definition is_rx (t : Tunnel) : bool := String.eqb (tc_role (t_cfg t)) "rx".
Definition is_tx (t : Tunnel) : bool := String.eqb (tc_role (t_cfg t)) "tx".

(** ** The whole configuration *)

Inductive SystemState := SYS_DOWN | SYS_UP | SYS_UP_FAILED.

#[export] Instance SystemState_eq_dec : EqDecision SystemState.
Proof. solve_decision. Defined.

Record WfbLogConfig := Build_WfbLogConfig {
  lg_enabled : bool; lg_db : string; lg_bind : string; lg_listen_port : Z;
  lg_max_duration : Z; lg_source : string; lg_channel : Z; lg_tx_power : string;
  lg_antenna_cfg : string; lg_drop_empty : bool
}.

#[export] Instance eta_WfbLogConfig : Eta WfbLogConfig := fun l => Build_WfbLogConfig
  (lg_enabled l) (lg_db l) (lg_bind l) (lg_listen_port l) (lg_max_duration l) (lg_source l)
  (lg_channel l) (lg_tx_power l) (lg_antenna_cfg l) (lg_drop_empty l).

Record GConfig := Build_GConfig {
  gc_key_file : string; gc_http_bind : string; gc_http_port : Z;
  gc_system_up : list string; gc_system_down : list string;
  gc_tunnels : list Tunnel;
  gc_venc_enabled : bool; gc_venc_uplink : string; gc_venc_rate_limit_ms : Z;
  gc_recovery_enabled : bool; gc_recovery_tunnel : string;
  gc_telemetry : WfbLogConfig; gc_system_state : SystemState
}.

#[export] Instance eta_GConfig : Eta GConfig := fun c => Build_GConfig
  (gc_key_file c) (gc_http_bind c) (gc_http_port c) (gc_system_up c) (gc_system_down c)
  (gc_tunnels c) (gc_venc_enabled c) (gc_venc_uplink c) (gc_venc_rate_limit_ms c)
  (gc_recovery_enabled c) (gc_recovery_tunnel c) (gc_telemetry c) (gc_system_state c).

(** ** Defaults *)

Definition probe_acc_zero : ProbeAcc :=
  Build_ProbeAcc 0 (replicate 16 (Build_ProbeBucket 0 0 0)) 0 0.

(** The counters [tunnel_spawn] clears, which are also their first values. *)
Definition rx_stats_zero : RxStats :=
  Build_RxStats 0 0 0 0 0 0 0 0 INT_MIN (replicate 10 (replicate 16 0)) (replicate 10 0).
Definition tx_stats_zero : TxStats := Build_TxStats 0 0 0 0 0 0 0.

Definition tunnel_init_defaults : Tunnel := {|
  t_cfg := {| tc_name := ""; tc_role := ""; tc_binary := ""; tc_link_id := 0; tc_radio_port := 0;
              tc_ifaces := []; tc_udp_out_ip := ""; tc_udp_out_port := 0; tc_stats_out := "";
              tc_stats_tap := ""; tc_probe := false; tc_probe_window_ms := 0;
              tc_udp_in_port := 0; tc_control_port := 0; tc_extra_args := [];
              tc_keyless := false; tc_autostart := true |};
  t_tx := {| tp_fec_k := 0; tp_fec_n := 0; tp_bandwidth_mhz := 0; tp_mcs_index := -1;
             tp_stbc := -1; tp_ldpc := -1; tp_short_gi := -1; tp_vht_mode := -1;
             tp_vht_nss := -1; tp_fec_timeout_ms := -1; tp_radio_cache_have := false;
             tp_fec_cache_have := false; tp_radio_cache_us := 0 |};
  t_state := TS_STOPPED; t_pid := 0; t_started_us := 0; t_exited_us := 0; t_exit_code := 0;
  t_restart_count := 0; t_backoff_idx := 0; t_next_start_ms := 0; t_autostart_on_exit := false;
  t_stop_deadline_ms := 0; t_tx_init_query_after_us := 0;
  t_stats_fd := -1; t_stats_port := 0; t_stats_arg := ""; t_fwd := None; t_tap := None;
  t_probe_acc := probe_acc_zero;
  t_first_us := 0; t_last_us := 0; t_interval_ms := 0; t_msg_count := 0;
  t_rx_stats := rx_stats_zero; t_tx_stats := tx_stats_zero |}.

Definition wfb_logger_defaults : WfbLogConfig := {|
  lg_enabled := false; lg_db := "wfb.sqlite"; lg_bind := "127.0.0.1"; lg_listen_port := 6700;
  lg_max_duration := 1200; lg_source := "live-gs"; lg_channel := 0; lg_tx_power := "";
  lg_antenna_cfg := ""; lg_drop_empty := true |}.

Definition GS_DEFAULT_HTTP_PORT : Z := 9080.

Definition config_zero : GConfig := {|
  gc_key_file := ""; gc_http_bind := "0.0.0.0"; gc_http_port := GS_DEFAULT_HTTP_PORT;
  gc_system_up := []; gc_system_down := []; gc_tunnels := [];
  gc_venc_enabled := false; gc_venc_uplink := ""; gc_venc_rate_limit_ms := 50;
  gc_recovery_enabled := true; gc_recovery_tunnel := "recovery";
  gc_telemetry := wfb_logger_defaults; gc_system_state := SYS_DOWN |}.

(** Fields of the parts of a tunnel. *)
Definition on_cfg (f : TunnelCfg -> TunnelCfg) (t : Tunnel) : Tunnel :=
  t <| t_cfg := f (t_cfg t) |>.
Definition on_tx (f : TxParams -> TxParams) (t : Tunnel) : Tunnel :=
  t <| t_tx := f (t_tx t) |>.

(** ** The loader *)

Section Load.
Context `{!CAbi}.

Section Fields.
Variables (js : string) (toks : list JTok).

Definition str_at (cap : Z) (v : nat) : option string := jstr js (tok_at toks v) cap.
Definition int_at (v : nat) : option Z := i32 <$> jint js (tok_at toks v).
Definition bool_at (v : nat) : option bool := jbool js (tok_at toks v).

(** [if ((v = jfind(...)) >= 0) { if (parse < 0) return -1; assign }]. *)
Definition opt_field {A S} (obj : nat) (key : string) (parse : nat -> option A)
    (set : A -> S -> S) (s : S) : option S :=
  match jfind js toks obj key with
  | None => Some s
  | Some v => x ← parse v; Some (set x s)
  end.

(** The same with the failure of [parse] ignored. *)
Definition lax_field {A S} (obj : nat) (key : string) (parse : nat -> option A)
    (set : A -> S -> S) (s : S) : S :=
  match jfind js toks obj key with
  | None => s
  | Some v => match parse v with Some x => set x s | None => s end
  end.

Definition req_field {A} (obj : nat) (key : string) (parse : nat -> option A) : option A :=
  v ← jfind js toks obj key; parse v.

(** The value of [key] when it has the type [ty]. *)
Definition typed (obj : nat) (key : string) (ty : JTokType) : option nat :=
  v ← jfind js toks obj key;
  if bool_decide (jt_type (tok_at toks v) = ty) then Some v else None.

(** [kids] strings from the token [ci] on. *)
Fixpoint str_array (cap : Z) (kids ci : nat) : option (list string) :=
  match kids with
  | O => Some []
  | S kids => s ← str_at cap ci; l ← str_array cap kids (jskip toks ci); Some (s :: l)
  end.

(** A failing [jstr] leaves an empty string. *)
Definition str_lax (cap : Z) (v : nat) : option string := Some (default EmptyString (str_at cap v)).

Fixpoint lax_array (cap : Z) (kids ci : nat) : list string :=
  match kids with
  | O => []
  | S kids => default EmptyString (str_at cap ci) :: lax_array cap kids (jskip toks ci)
  end.

Definition kids_of (v : nat) : Z := jt_size (tok_at toks v).

(** *** [cfg_parse_tunnel] *)

Definition parse_ifaces (t_idx : nat) : option (list string) :=
  v ← typed t_idx "interfaces" JT_ARR;
  let kids := kids_of v in
  if (kids <? 1) || (kids >? GS_MAX_IFACES) then None
  else str_array IFNAMSIZ (Z.to_nat kids) (S v).

Definition parse_extra_args (t_idx : nat) : option (list string) :=
  match typed t_idx "extra_args" JT_ARR with
  | None => Some []
  | Some v =>
      let kids := kids_of v in
      if kids >? GS_MAX_EXTRA_ARGS then None
      else str_array GS_ARG_MAX (Z.to_nat kids) (S v)
  end.

Definition parse_udp_out (v : nat) : option (string * Z) :=
  tmp ← str_at GS_ARG_MAX v;
  let '(ip, tail) := span_until (fun c => aeq c COLON) tmp in
  match tail with
  | EmptyString => None
  | String _ p =>
      let port := atoi p in
      if (port <=? 0) || (port >? 65535) then None else Some (ip, port)
  end.

Definition parse_rx (t_idx : nat) (t : TunnelCfg) : option TunnelCfg :=
  t ← opt_field t_idx "udp_out" parse_udp_out
        (fun a t => t <| tc_udp_out_ip := a.1 |> <| tc_udp_out_port := a.2 |>) t;
  t ← opt_field t_idx "stats_out" (str_at GS_ARG_MAX) (fun s t => t <| tc_stats_out := s |>) t;
  t ← opt_field t_idx "stats_tap" (str_at GS_ARG_MAX) (fun s t => t <| tc_stats_tap := s |>) t;
  t ← opt_field t_idx "probe" bool_at (fun b t => t <| tc_probe := b |>) t;
  let t := t <| tc_probe_window_ms := 500 |> in
  opt_field t_idx "probe_window_ms"
    (fun v => lv ← jint js (tok_at toks v);
              if (lv <? 100) || (lv >? 10000) then None else Some lv)
    (fun n t => t <| tc_probe_window_ms := n |>) t.

Definition opt_obj {S} (t_idx : nat) (key : string) (f : nat -> S -> option S) (s : S) : option S :=
  match typed t_idx key JT_OBJ with None => Some s | Some o => f o s end.

Definition parse_tx_params (t_idx : nat) (t : TxParams) : option TxParams :=
  t ← opt_obj t_idx "fec" (fun o t =>
        t ← opt_field o "k" int_at (fun n t => t <| tp_fec_k := n |>) t;
        opt_field o "n" int_at (fun n t => t <| tp_fec_n := n |>) t) t;
  opt_obj t_idx "radio" (fun o t =>
        t ← opt_field o "bandwidth_mhz" int_at (fun n t => t <| tp_bandwidth_mhz := n |>) t;
        t ← opt_field o "mcs_index" int_at (fun n t => t <| tp_mcs_index := n |>) t;
        t ← opt_field o "stbc" int_at (fun n t => t <| tp_stbc := n |>) t;
        opt_field o "ldpc" int_at (fun n t => t <| tp_ldpc := n |>) t) t.

Definition parse_tx (t_idx : nat) (t : TunnelCfg) : option TunnelCfg :=
  port ← req_field t_idx "udp_in_port" int_at;
  opt_field t_idx "control_port" int_at (fun n t => t <| tc_control_port := n |>)
    (t <| tc_udp_in_port := port |>).

Definition cfg_parse_tunnel (t_idx : nat) : option Tunnel :=
  let t := t_cfg tunnel_init_defaults in
  name ← req_field t_idx "name" (str_at GS_NAME_MAX);
  role ← req_field t_idx "role" (str_at 4);
  if negb (String.eqb role "rx") && negb (String.eqb role "tx") then None
  else
    link ← req_field t_idx "link_id" int_at;
    let t := t <| tc_name := name |> <| tc_role := role |> <| tc_link_id := link |> in
    t ← opt_field t_idx "radio_port" int_at (fun n t => t <| tc_radio_port := n |>) t;
    ifaces ← parse_ifaces t_idx;
    extra ← parse_extra_args t_idx;
    let t := t <| tc_ifaces := ifaces |> <| tc_extra_args := extra |> in
    t ← opt_field t_idx "autostart" bool_at (fun b t => t <| tc_autostart := b |>) t;
    t ← opt_field t_idx "keyless" bool_at (fun b t => t <| tc_keyless := b |>) t;
    t ← opt_field t_idx "binary" (str_at GS_PATH_MAX) (fun s t => t <| tc_binary := s |>) t;
    let rx := String.eqb role "rx" in
    t ← (if rx then parse_rx t_idx t else parse_tx t_idx t);
    tx ← (if rx then Some (t_tx tunnel_init_defaults)
          else parse_tx_params t_idx (t_tx tunnel_init_defaults));
    Some (tunnel_init_defaults <| t_cfg := t |> <| t_tx := tx |>
            <| t_state := TS_STOPPED |> <| t_pid := -1 |>).

(** *** [cfg_expand_profile] *)

Definition PROFILE_VIDEO_LINK : Z := 207.
Definition PROFILE_PROBE_LINK : Z := 50.
Definition PROFILE_PROBE_PORT : Z := 50.
Definition PROFILE_UPLINK_LINK : Z := 208.
Definition PROFILE_STATS_FANIN : string := "127.0.0.1:6600".
Definition PROFILE_UPLINK_UDP_IN : Z := 6600.
Definition PROFILE_UPLINK_CTRL : Z := 8000.
Definition PROFILE_PROBE_SINK_IP : string := "127.0.0.1".
Definition PROFILE_PROBE_SINK_PORT : Z := 5751.

Definition profile_push_cmd (cmd : string) (cmds : list string) : option (list string) :=
  if Z.of_nat (length cmds) >=? GS_MAX_SYSTEM_CMDS then None
  else if strlen cmd >=? GS_PATH_MAX then None
  else Some (cmds ++ [cmd]).

Fixpoint push_all (new cmds : list string) : option (list string) :=
  match new with
  | [] => Some cmds
  | c :: new => cmds ← profile_push_cmd c cmds; push_all new cmds
  end.

Definition profile_set_binary (bin_dir name : string) : string :=
  match bin_dir with
  | EmptyString => EmptyString
  | _ => take_chars 255 (bin_dir ++ "/" ++ name)
  end.

Definition is_ht (ht : string) : bool :=
  String.eqb ht "HT20" || String.eqb ht "HT40+" || String.eqb ht "HT40-".

(** The commands that bring one adapter up. *)
Definition iface_up_cmds (ifc : string) (channel : Z) (ht : string) (mbm : Z) : list string :=
  ["ip link set " ++ ifc ++ " down";
   "iw dev " ++ ifc ++ " set monitor otherbss";
   "sleep 0.5";
   "ip link set " ++ ifc ++ " up";
   "sleep 0.5";
   "iw dev " ++ ifc ++ " set channel " ++ pretty channel ++ " " ++ ht]%string ++
  (if 0 <? mbm then ["sleep 0.5"; "iw dev " ++ ifc ++ " set txpower fixed " ++ pretty mbm]%string
   else []).

Definition profile_ifaces (p_idx : nat) : option (list string) :=
  v ← typed p_idx "ifaces" JT_ARR;
  if (kids_of v <? 1) || (kids_of v >? GS_MAX_IFACES) then None
  else str_array IFNAMSIZ (Z.to_nat (kids_of v)) (S v).

Definition profile_uplink (p_idx : nat) (ifaces : list string) : option string :=
  opt_field p_idx "uplink_iface"
    (fun v => u ← str_at IFNAMSIZ v; if bool_decide (u ∈ ifaces) then Some u else None)
    (fun u _ => u) (default EmptyString (last ifaces)).

Definition profile_channel (p_idx : nat) : option Z :=
  lv ← req_field p_idx "channel" (fun v => jint js (tok_at toks v));
  if (lv <? 1) || (lv >? 200) then None else Some (i32 lv).

Definition profile_ht (p_idx : nat) : option string :=
  opt_field p_idx "ht" (fun v => h ← str_at 8 v; if is_ht h then Some h else None)
    (fun h _ => h) "HT20"%string.

Definition profile_txpower (p_idx : nat) : option Z :=
  opt_field p_idx "txpower_mbm"
    (fun v => m ← jint js (tok_at toks v);
              if (m <? 0) || (m >? 4000) then None else Some m)
    (fun m _ => m) 0.

Definition profile_rx (bin_dir name : string) (link port : Z) (ifaces : list string) : Tunnel :=
  on_cfg (fun t => t <| tc_name := name |> <| tc_role := "rx"%string |>
    <| tc_binary := profile_set_binary bin_dir "wfb_rx" |> <| tc_link_id := link |>
    <| tc_radio_port := port |> <| tc_ifaces := ifaces |>
    <| tc_stats_out := PROFILE_STATS_FANIN |> <| tc_probe_window_ms := 500 |>
    <| tc_extra_args := ["-x"; "-l"; "100"]%string |>) tunnel_init_defaults.

Definition profile_tunnels (bin_dir uplink : string) (ifaces : list string) : list Tunnel :=
  [profile_rx bin_dir "video" PROFILE_VIDEO_LINK 0 ifaces;
   on_cfg (fun t => t <| tc_udp_out_ip := PROFILE_PROBE_SINK_IP |>
       <| tc_udp_out_port := PROFILE_PROBE_SINK_PORT |> <| tc_probe := true |>)
     (profile_rx bin_dir "probe" PROFILE_PROBE_LINK PROFILE_PROBE_PORT ifaces);
   on_tx (fun t => t <| tp_fec_k := 1 |> <| tp_fec_n := 2 |>)
     (on_cfg (fun t => t <| tc_name := "uplink"%string |> <| tc_role := "tx"%string |>
       <| tc_binary := profile_set_binary bin_dir "wfb_tx" |>
       <| tc_link_id := PROFILE_UPLINK_LINK |> <| tc_radio_port := 0 |>
       <| tc_ifaces := [uplink] |> <| tc_udp_in_port := PROFILE_UPLINK_UDP_IN |>
       <| tc_control_port := PROFILE_UPLINK_CTRL |>
       <| tc_extra_args := ["-T"; "1"]%string |>) tunnel_init_defaults)].

Definition cfg_expand_profile (p_idx : nat) (c : GConfig) : option GConfig :=
  ifaces ← profile_ifaces p_idx;
  uplink ← profile_uplink p_idx ifaces;
  channel ← profile_channel p_idx;
  ht ← profile_ht p_idx;
  mbm ← profile_txpower p_idx;
  bin_dir ← opt_field p_idx "wfb_bin_dir" (str_at GS_PATH_MAX) (fun s _ => s) EmptyString;
  up ← push_all (concat (map (fun ifc => iface_up_cmds ifc channel ht mbm) ifaces)) [];
  up ← push_all (gc_system_up c) up;
  down ← push_all (map (fun ifc => "ip link set " ++ ifc ++ " down")%string ifaces)
           (gc_system_down c);
  let c := c <| gc_system_up := up |> <| gc_system_down := down |>
             <| gc_tunnels := profile_tunnels bin_dir uplink ifaces |> in
  Some (match gc_venc_uplink c with
        | EmptyString => c <| gc_venc_enabled := true |> <| gc_venc_uplink := "uplink"%string |>
        | _ => c
        end).

(** *** [cfg_load] *)

Definition system_cmds (sys : nat) (key : string) (old : list string) : option (list string) :=
  match typed sys key JT_ARR with
  | None => Some old
  | Some v =>
      if kids_of v >? GS_MAX_SYSTEM_CMDS then None
      else Some (lax_array GS_PATH_MAX (Z.to_nat (kids_of v)) (S v))
  end.

Definition load_http (c : GConfig) : GConfig :=
  match typed 0 "http" JT_OBJ with
  | None => c
  | Some o =>
      let c := lax_field o "bind" (str_lax 64) (fun s c => c <| gc_http_bind := s |>) c in
      lax_field o "port" (fun v => jint js (tok_at toks v))
        (fun n c => c <| gc_http_port := u16 n |>) c
  end.

Definition load_system (c : GConfig) : option GConfig :=
  opt_obj 0 "system" (fun o c =>
    up ← system_cmds o "up" (gc_system_up c);
    down ← system_cmds o "down" (gc_system_down c);
    Some (c <| gc_system_up := up |> <| gc_system_down := down |>)) c.

Definition load_venc (c : GConfig) : GConfig :=
  match typed 0 "venc_cmd" JT_OBJ with
  | None => c
  | Some o =>
      let c := lax_field o "enabled" bool_at (fun b c => c <| gc_venc_enabled := b |>) c in
      let c := lax_field o "uplink_tunnel" (str_lax GS_NAME_MAX)
                 (fun s c => c <| gc_venc_uplink := s |>) c in
      lax_field o "rate_limit_ms" int_at (fun n c => c <| gc_venc_rate_limit_ms := n |>) c
  end.

Definition load_recovery (c : GConfig) : GConfig :=
  match typed 0 "recovery_cmd" JT_OBJ with
  | None => c
  | Some o =>
      let c := lax_field o "enabled" bool_at (fun b c => c <| gc_recovery_enabled := b |>) c in
      lax_field o "tunnel" (str_lax GS_NAME_MAX) (fun s c => c <| gc_recovery_tunnel := s |>) c
  end.

Definition load_telemetry (l : WfbLogConfig) : WfbLogConfig :=
  match typed 0 "telemetry" JT_OBJ with
  | None => l
  | Some o =>
      let l := lax_field o "enabled" bool_at (fun b l => l <| lg_enabled := b |>) l in
      let l := lax_field o "drop_empty" bool_at (fun b l => l <| lg_drop_empty := b |>) l in
      let l := lax_field o "db" (str_lax 512) (fun s l => l <| lg_db := s |>) l in
      let l := lax_field o "bind" (str_lax 64) (fun s l => l <| lg_bind := s |>) l in
      let l := lax_field o "listen" int_at (fun n l => l <| lg_listen_port := n |>) l in
      let l := lax_field o "max_duration" int_at (fun n l => l <| lg_max_duration := n |>) l in
      let l := lax_field o "source" (str_lax 32) (fun s l => l <| lg_source := s |>) l in
      let l := lax_field o "channel" int_at (fun n l => l <| lg_channel := n |>) l in
      let l := lax_field o "tx_power" (str_lax 32) (fun s l => l <| lg_tx_power := s |>) l in
      lax_field o "antenna_cfg" (str_lax 64) (fun s l => l <| lg_antenna_cfg := s |>) l
  end.

Fixpoint parse_tunnels (kids ci : nat) : option (list Tunnel) :=
  match kids with
  | O => Some []
  | S kids =>
      t ← cfg_parse_tunnel ci; l ← parse_tunnels kids (jskip toks ci); Some (t :: l)
  end.

Definition load_tunnels (c : GConfig) : option GConfig :=
  match jfind js toks 0 "profile", jfind js toks 0 "tunnels" with
  | Some _, Some _ => None
  | Some p, None =>
      if bool_decide (jt_type (tok_at toks p) = JT_OBJ) then cfg_expand_profile p c else None
  | None, None => None
  | None, Some v =>
      if negb (bool_decide (jt_type (tok_at toks v) = JT_ARR)) then None
      else if (kids_of v <? 1) || (kids_of v >? GS_MAX_TUNNELS) then None
      else
        ts ← parse_tunnels (Z.to_nat (kids_of v)) (S v);
        Some (c <| gc_tunnels := ts |>)
  end.

Definition load_fields (c : GConfig) : option GConfig :=
  let c := lax_field 0 "key_file" (str_lax GS_PATH_MAX) (fun s c => c <| gc_key_file := s |>) c in
  let c := load_http c in
  c ← load_system c;
  let c := load_venc c in
  let c := load_recovery c in
  let c := c <| gc_telemetry := load_telemetry (gc_telemetry c) |> in
  load_tunnels c.
End Fields.

(** Where the decoded payload of an rx tunnel goes: [wfb_rx] forwards to 5600, the video
    port, unless told otherwise. *)
Definition forward_port (t : Tunnel) : Z :=
  match tc_udp_out_ip (t_cfg t) with EmptyString => 5600 | _ => tc_udp_out_port (t_cfg t) end.

(** The test of the forward-port block; what else it does is a warning. *)
Definition forward_ok (t : Tunnel) : bool :=
  negb (is_rx t && tc_probe (t_cfg t) &&
        (String.eqb (tc_udp_out_ip (t_cfg t)) "" || (forward_port t =? 5600))).

(** The tokens of a file that [open], [fstat] and [read] delivered, when it is an object. *)
Definition file_object (content : option string) : option (string * list JTok) :=
  buf ← content;
  if (strlen buf <=? 0) || (strlen buf >? 256 * 1024) then None
  else
    toks ← json_parse buf JSON_MAX_TOKS;
    if (length toks <? 1)%nat || negb (bool_decide (jt_type (tok_at toks 0) = JT_OBJ)) then None
    else Some (buf, toks).

Definition cfg_load (content : option string) : option GConfig :=
  '(buf, toks) ← file_object content;
  c ← load_fields buf toks config_zero;
  if forallb forward_ok (gc_tunnels c) then Some c else None.

(** *** The overlay *)

Definition cfg_tunnel_by_name (ts : list Tunnel) (name : string) : option nat :=
  fst <$> list_find (fun t => tc_name (t_cfg t) = name) ts.

Definition set_link_id (name : string) (id : Z) (c : GConfig) : GConfig :=
  match cfg_tunnel_by_name (gc_tunnels c) name with
  | None => c
  | Some i => c <| gc_tunnels :=
                alter (on_cfg (fun t => t <| tc_link_id := id |>)) i (gc_tunnels c) |>
  end.

(** [if (x >= 0) field = x] for a value found or -1. *)
Definition keep_pos (x : option Z) (old : Z) : Z :=
  match x with Some n => if 0 <=? n then n else old | None => old end.

Definition overlay_tx (k n mcs bw : option Z) (t : Tunnel) : Tunnel :=
  if is_tx t then
    on_tx (fun p => p <| tp_fec_k := keep_pos k (tp_fec_k p) |>
      <| tp_fec_n := keep_pos n (tp_fec_n p) |>
      <| tp_mcs_index := keep_pos mcs (tp_mcs_index p) |>
      <| tp_bandwidth_mhz := keep_pos bw (tp_bandwidth_mhz p) |>) t
  else t.

(** One command of [system.up] with its channel width replaced. *)
Definition rewrite_ht (htmode cmd : string) : string :=
  match strstr cmd "set channel " with
  | None => cmd
  | Some p =>
      let p := drop_chars 12 p in
      let chan := (span_until (fun c => aeq c SP) p).1 in
      if (strlen chan <=? 0) || (strlen chan >=? 8) then cmd
      else
        let prefix := take_chars (String.length cmd - String.length p) cmd in
        let nb := (prefix ++ chan ++ " " ++ htmode)%string in
        if strlen nb <? GS_PATH_MAX then nb else cmd
  end.

Definition int_in (js : string) (toks : list JTok) (sec : option nat) (key : string) : option Z :=
  o ← sec; v ← jfind js toks o key; int_at js toks v.

Definition overlay_links (js : string) (toks : list JTok) (c : GConfig) : GConfig :=
  fold_left (fun c name =>
    match int_in js toks (typed js toks 0 "links" JT_OBJ) name with
    | Some id => set_link_id name id c
    | None => c
    end) ["video"; "uplink"; "probe"]%string c.

Definition overlay_fields (js : string) (toks : list JTok) (c : GConfig) : GConfig :=
  let sec key := typed js toks 0 key JT_OBJ in
  let str_in sec key := o ← sec; typed js toks o key JT_STR in
  let c := match str_in (sec "key"%string) "file"%string with
           | Some v => c <| gc_key_file := default EmptyString (str_at js toks GS_PATH_MAX v) |>
           | None => c
           end in
  let c := overlay_links js toks c in
  let fec := sec "fec"%string in
  let radio := sec "radio"%string in
  let c := c <| gc_tunnels := map (overlay_tx (int_in js toks fec "k") (int_in js toks fec "n")
      (int_in js toks (sec "mcs"%string) "boot") (int_in js toks radio "bw")) (gc_tunnels c) |> in
  match str_in radio "htmode"%string with
  | None => c
  | Some v =>
      let ht := default EmptyString (str_at js toks 8 v) in
      if is_ht ht then c <| gc_system_up := map (rewrite_ht ht) (gc_system_up c) |> else c
  end.

Definition cfg_apply_wfb_link_overlay (content : option string) (c : GConfig) : GConfig :=
  match file_object content with
  | Some (buf, toks) => overlay_fields buf toks c
  | None => c
  end.
End Load.

(** ** Argument vectors *)

(** [buf] is the room its position leaves; [argc] is the length of [argv]. *)
Record ArgvBuilder := Build_ArgvBuilder { ab_pos : Z; ab_argv : list string }.

Definition ab_empty : ArgvBuilder := Build_ArgvBuilder 0 [].

Definition ab_push (s : string) (ab : ArgvBuilder) : option ArgvBuilder :=
  if Z.of_nat (length (ab_argv ab)) >=? GS_ARGV_MAX - 1 then None
  else if ab_pos ab >=? GS_ARGV_BUF then None
  else if strlen s >=? GS_ARGV_BUF - ab_pos ab then None
  else Some (Build_ArgvBuilder (ab_pos ab + strlen s + 1) (ab_argv ab ++ [s])).

Definition ab_opt (flag : string) (v : string) (ab : ArgvBuilder) : option ArgvBuilder :=
  ab ← ab_push flag ab; ab_push v ab.

Definition ab_when (b : bool) (f : ArgvBuilder -> option ArgvBuilder) (ab : ArgvBuilder)
    : option ArgvBuilder := if b then f ab else Some ab.

Fixpoint ab_each (l : list string) (ab : ArgvBuilder) : option ArgvBuilder :=
  match l with [] => Some ab | s :: l => ab ← ab_push s ab; ab_each l ab end.

Definition nonempty (s : string) : bool := match s with EmptyString => false | _ => true end.
Definition or_else (s d : string) : string := if nonempty s then s else d.

Definition build_argv_rx (t : Tunnel) (key_file : string) (ab : ArgvBuilder)
    : option ArgvBuilder :=
  let c := t_cfg t in
  ab ← ab_push (or_else (tc_binary c) "wfb_rx") ab;
  ab ← ab_when (nonempty key_file && negb (tc_keyless c)) (ab_opt "-K" key_file) ab;
  ab ← ab_when (nonempty (tc_udp_out_ip c)) (ab_opt "-c" (tc_udp_out_ip c)) ab;
  ab ← ab_when (nonempty (tc_udp_out_ip c)) (ab_opt "-u" (pretty (tc_udp_out_port c))) ab;
  ab ← ab_opt "-i" (pretty (tc_link_id c)) ab;
  ab ← ab_opt "-p" (pretty (tc_radio_port c)) ab;
  ab ← (if nonempty (t_stats_arg t) then ab_opt "-Y" (t_stats_arg t) ab
        else ab_when (nonempty (tc_stats_out c)) (ab_opt "-Y" (tc_stats_out c)) ab);
  ab ← ab_each (tc_extra_args c) ab;
  ab_each (tc_ifaces c) ab.

Definition build_argv_tx (t : Tunnel) (key_file : string) (ab : ArgvBuilder)
    : option ArgvBuilder :=
  let c := t_cfg t in
  let p := t_tx t in
  ab ← ab_push (or_else (tc_binary c) "wfb_tx") ab;
  ab ← ab_when (nonempty key_file) (ab_opt "-K" key_file) ab;
  ab ← ab_opt "-i" (pretty (tc_link_id c)) ab;
  ab ← ab_opt "-p" (pretty (tc_radio_port c)) ab;
  ab ← ab_opt "-u" (pretty (tc_udp_in_port c)) ab;
  ab ← ab_when (0 <? tc_control_port c) (ab_opt "-C" (pretty (tc_control_port c))) ab;
  ab ← ab_when (0 <? tp_fec_k p) (ab_opt "-k" (pretty (tp_fec_k p))) ab;
  ab ← ab_when (0 <? tp_fec_n p) (ab_opt "-n" (pretty (tp_fec_n p))) ab;
  ab ← ab_when (0 <? tp_bandwidth_mhz p) (ab_opt "-B" (pretty (tp_bandwidth_mhz p))) ab;
  ab ← ab_when (0 <=? tp_mcs_index p) (ab_opt "-M" (pretty (tp_mcs_index p))) ab;
  ab ← ab_when (0 <=? tp_stbc p) (ab_opt "-S" (pretty (tp_stbc p))) ab;
  ab ← ab_when (0 <=? tp_ldpc p) (ab_opt "-L" (pretty (tp_ldpc p))) ab;
  ab ← ab_when (nonempty (t_stats_arg t)) (ab_opt "-Y" (t_stats_arg t)) ab;
  ab ← ab_each (tc_extra_args c) ab;
  ab_each (tc_ifaces c) ab.

(** ** A small configuration, for examples *)

Definition sample_text : string := with_quotes (
  "{'key_file':'/etc/drone.key','profile':{'ifaces':['wlan0','wlan1'],'uplink_iface':'wlan1'," ++
  "'channel':161,'ht':'HT20'}}").

Definition sample : GConfig := default config_zero (@cfg_load abi_lp64 (Some sample_text)).
