(* ===== verification/GsLoad.v ===== *)
(** * What an accepted configuration guarantees

    The loader of [GsConfig] accepts a text only if every string fits its buffer, every list
    its array and every port its range, and no boundary-probe tunnel forwards to the video
    port; the argument vectors built from it are the lists they are meant to be. *)

From S2P Require Import Prelude CString Decimal WfbJson GsText GsNet GsConfig.

Local Open Scope list_scope.
#[local] Arguments String.append !_ _ /.
Arguments strlen : simpl never.

(** ** Argument vectors are lists *)

(** The declared vectors. *)
Definition opt_arg (b : bool) (flag v : string) : list string := if b then [flag; v] else [].

Definition stats_arg (t : Tunnel) : list string :=
  let own := t_stats_arg t in
  let out := tc_stats_out (t_cfg t) in
  opt_arg (nonempty (or_else own out)) "-Y" (or_else own out).

Definition rx_args (t : Tunnel) (key_file : string) : list string :=
  let c := t_cfg t in
  or_else (tc_binary c) "wfb_rx" ::
  opt_arg (nonempty key_file && negb (tc_keyless c)) "-K" key_file ++
  opt_arg (nonempty (tc_udp_out_ip c)) "-c" (tc_udp_out_ip c) ++
  opt_arg (nonempty (tc_udp_out_ip c)) "-u" (pretty (tc_udp_out_port c)) ++
  ["-i"; pretty (tc_link_id c); "-p"; pretty (tc_radio_port c)] ++
  stats_arg t ++ tc_extra_args c ++ tc_ifaces c.

Definition pos_arg (lo : Z) (flag : string) (v : Z) : list string := opt_arg (lo <=? v) flag (pretty v).

Definition tx_args (t : Tunnel) (key_file : string) : list string :=
  let c := t_cfg t in
  let p := t_tx t in
  or_else (tc_binary c) "wfb_tx" ::
  opt_arg (nonempty key_file) "-K" key_file ++
  ["-i"; pretty (tc_link_id c); "-p"; pretty (tc_radio_port c); "-u"; pretty (tc_udp_in_port c)] ++
  pos_arg 1 "-C" (tc_control_port c) ++ pos_arg 1 "-k" (tp_fec_k p) ++
  pos_arg 1 "-n" (tp_fec_n p) ++ pos_arg 1 "-B" (tp_bandwidth_mhz p) ++
  pos_arg 0 "-M" (tp_mcs_index p) ++ pos_arg 0 "-S" (tp_stbc p) ++ pos_arg 0 "-L" (tp_ldpc p) ++
  opt_arg (nonempty (t_stats_arg t)) "-Y" (t_stats_arg t) ++ tc_extra_args c ++ tc_ifaces c.

(** The bytes a vector takes, with the terminators. *)
Definition argv_bytes (l : list string) : Z := foldr (fun s n => strlen s + 1 + n) 0 l.
Definition argv_fits (l : list string) : bool :=
  (Z.of_nat (length l) <=? GS_ARGV_MAX - 1) && (argv_bytes l <=? GS_ARGV_BUF).

Lemma argv_bytes_app l k : argv_bytes (l ++ k) = argv_bytes l + argv_bytes k.
Proof. induction l as [|s l IH]; cbn [argv_bytes foldr app]; [done|]. unfold argv_bytes in *. lia. Qed.

Lemma argv_bytes_nonneg l : 0 <= argv_bytes l.
Proof.
  induction l as [|s l IH]; [done|]. pose proof (strlen_nonneg s).
  unfold argv_bytes in *. cbn [foldr]. lia.
Qed.

Lemma ab_each_app l k ab : ab_each (l ++ k) ab = (ab ← ab_each l ab; ab_each k ab).
Proof.
  revert ab. induction l as [|s l IH]; intros ab; [done|].
  cbn [app ab_each]. destruct (ab_push s ab); [|done]. apply IH.
Qed.

Lemma ab_opt_each f v ab : ab_opt f v ab = ab_each [f; v] ab.
Proof. unfold ab_opt. cbn. destruct (ab_push f ab); [|done]. cbn. by destruct (ab_push v _). Qed.

Lemma ab_when_each b f v ab : ab_when b (ab_opt f v) ab = ab_each (opt_arg b f v) ab.
Proof. destruct b; [apply ab_opt_each|done]. Qed.

Lemma ab_push_each s ab : ab_push s ab = ab_each [s] ab.
Proof. cbn. by destruct (ab_push s ab). Qed.

Lemma bind_assoc {A B C} (m : option A) (f : A -> option B) (g : B -> option C) :
  (x ← (y ← m; f y); g x) = (y ← m; x ← f y; g x).
Proof. by destruct m. Qed.

Lemma bind_ext {A B} (m : option A) (f g : A -> option B) :
  (forall x, f x = g x) -> (x ← m; f x) = (x ← m; g x).
Proof. intros H. destruct m; [apply H|done]. Qed.

Lemma build_rx_each t key ab : build_argv_rx t key ab = ab_each (rx_args t key) ab.
Proof.
  unfold build_argv_rx, rx_args. rewrite ab_push_each.
  match goal with |- _ = ab_each (?x :: ?l) _ => change (x :: l) with ([x] ++ l) end.
  rewrite ab_each_app; apply bind_ext; intros ab1. rewrite ab_when_each.
  rewrite ab_each_app; apply bind_ext; intros ab2. rewrite ab_when_each.
  rewrite ab_each_app; apply bind_ext; intros ab3. rewrite ab_when_each.
  rewrite ab_each_app; apply bind_ext; intros ab4. rewrite ab_opt_each.
  match goal with |- _ = ab_each (?l ++ _) _ =>
    change l with (["-i"; pretty (tc_link_id (t_cfg t))] ++ ["-p"; pretty (tc_radio_port (t_cfg t))]) end.
  rewrite <- app_assoc, ab_each_app; apply bind_ext; intros ab5. rewrite ab_opt_each.
  rewrite ab_each_app; apply bind_ext; intros ab6.
  rewrite ab_each_app. unfold stats_arg, or_else.
  destruct (nonempty (t_stats_arg t)) eqn:E.
  - rewrite E, ab_opt_each. cbn [opt_arg]. apply bind_ext; intros ab7. by rewrite ab_each_app.
  - rewrite ab_when_each. apply bind_ext; intros ab7. by rewrite ab_each_app.
Qed.

Lemma build_tx_each t key ab : build_argv_tx t key ab = ab_each (tx_args t key) ab.
Proof.
  unfold build_argv_tx, tx_args, pos_arg. rewrite ab_push_each.
  assert (forall x, (0 <? x) = (1 <=? x)) as E by (intros; lia).
  match goal with |- _ = ab_each (?x :: ?k ++ ?l ++ ?r) _ =>
    change (x :: k ++ l ++ r) with ([x] ++ k ++ (["-i"; pretty (tc_link_id (t_cfg t))] ++
      (["-p"; pretty (tc_radio_port (t_cfg t))] ++ (["-u"; pretty (tc_udp_in_port (t_cfg t))] ++ r)))) end.
  do 14 (rewrite ab_each_app; apply bind_ext; intros ?;
         rewrite ?ab_when_each, ?ab_opt_each, ?E).
  done.
Qed.

Lemma ab_each_fits l : forall done pos, pos = argv_bytes done ->
  ab_each l (Build_ArgvBuilder pos done) =
  if argv_fits (done ++ l) || match l with [] => true | _ => false end
  then Some (Build_ArgvBuilder (argv_bytes (done ++ l)) (done ++ l)) else None.
Proof.
  induction l as [|s l IH]; intros dn pos ->; cbn [ab_each].
  { by rewrite app_nil_r, orb_true_r. }
  rewrite orb_false_r. pose proof (argv_bytes_nonneg l) as Hl. pose proof (strlen_nonneg s) as Hs.
  assert (argv_bytes (dn ++ s :: l) = argv_bytes dn + strlen s + 1 + argv_bytes l) as Eb.
  { rewrite argv_bytes_app. unfold argv_bytes. cbn [foldr]. fold (argv_bytes l). lia. }
  unfold ab_push. cbn [ab_argv ab_pos]. unfold argv_fits. rewrite length_app, Eb.
  cbn [length]. unfold GS_ARGV_MAX, GS_ARGV_BUF.
  destruct (Z.geb_spec (Z.of_nat (length dn)) (64 - 1)).
  { destruct (_ <=? 64 - 1) eqn:F; [lia|done]. }
  destruct (Z.geb_spec (argv_bytes dn) 1536).
  { destruct (_ + _ <=? 1536) eqn:F; [lia|]. by rewrite andb_false_r. }
  destruct (Z.geb_spec (strlen s) (1536 - argv_bytes dn)).
  { destruct (_ + _ <=? 1536) eqn:F; [lia|]. by rewrite andb_false_r. }
  cbn [mbind option_bind]. rewrite IH.
  2:{ rewrite argv_bytes_app. unfold argv_bytes at 3. cbn [foldr]. lia. }
  rewrite <- app_assoc. cbn [app]. unfold argv_fits. rewrite length_app, Eb. cbn [length].
  unfold GS_ARGV_MAX, GS_ARGV_BUF. destruct l as [|s' l].
  - rewrite orb_true_r. change (argv_bytes []) with 0. destruct (_ && _) eqn:F; [done|]. cbn in F. lia.
  - by rewrite orb_false_r.
Qed.

Lemma ab_each_empty s l :
  ab_each (s :: l) ab_empty = if argv_fits (s :: l)
    then Some (Build_ArgvBuilder (argv_bytes (s :: l)) (s :: l)) else None.
Proof. unfold ab_empty. rewrite ab_each_fits by done. by rewrite orb_false_r. Qed.

(** [build_argv_rx] and [build_argv_tx] build exactly the declared vector of the tunnel
    when it fits 63 arguments and 1536 bytes, and fail otherwise. *)
Theorem build_argv_refines t key :
  (ab_argv <$> build_argv_rx t key ab_empty =
     if argv_fits (rx_args t key) then Some (rx_args t key) else None) /\
  (ab_argv <$> build_argv_tx t key ab_empty =
     if argv_fits (tx_args t key) then Some (tx_args t key) else None).
Proof.
  rewrite build_rx_each, build_tx_each. unfold rx_args, tx_args. rewrite !ab_each_empty.
  split; by destruct (argv_fits _).
Qed.

(** ** Well-formed configurations *)

Definition fits (cap : Z) (s : string) : Prop := strlen s < cap.

Definition c_int (z : Z) : Prop := INT_MIN <= z <= INT_MAX.

(** The arrays and buffers of [Tunnel] as far as the configuration fills them. *)
Record tcfg_ok (t : TunnelCfg) : Prop := {
  ok_role : tc_role t = "rx"%string \/ tc_role t = "tx"%string;
  ok_name : fits GS_NAME_MAX (tc_name t);
  ok_binary : fits GS_PATH_MAX (tc_binary t);
  ok_iface_count : 1 <= Z.of_nat (length (tc_ifaces t)) <= GS_MAX_IFACES;
  ok_ifaces : Forall (fits IFNAMSIZ) (tc_ifaces t);
  ok_extra_count : Z.of_nat (length (tc_extra_args t)) <= GS_MAX_EXTRA_ARGS;
  ok_extra : Forall (fits GS_ARG_MAX) (tc_extra_args t);
  ok_udp_ip : fits GS_ARG_MAX (tc_udp_out_ip t);
  ok_udp_port : tc_udp_out_ip t <> EmptyString -> 1 <= tc_udp_out_port t <= 65535;
  ok_stats_out : fits GS_ARG_MAX (tc_stats_out t);
  ok_stats_tap : fits GS_ARG_MAX (tc_stats_tap t);
  ok_ints : Forall c_int [tc_link_id t; tc_radio_port t; tc_udp_in_port t; tc_control_port t]
}.

Definition window_ok (t : TunnelCfg) : Prop :=
  tc_role t = "rx"%string -> 100 <= tc_probe_window_ms t <= 10000.

(** The run-time fields have their first values. *)
Definition fresh (t : Tunnel) : Prop :=
  t_pid t <= 0 /\
  t = tunnel_init_defaults <| t_cfg := t_cfg t |> <| t_tx := t_tx t |> <| t_pid := t_pid t |>.

(** A freshly loaded tunnel: well formed, idle, and not a probe on the video port. *)
Record tunnel_ok (t : Tunnel) : Prop := {
  ok_cfg : tcfg_ok (t_cfg t);
  ok_window : window_ok (t_cfg t);
  ok_idle : fresh t;
  ok_forward : forward_ok t = true
}.

Definition cmds_ok (l : list string) : Prop :=
  Z.of_nat (length l) <= GS_MAX_SYSTEM_CMDS /\ Forall (fits GS_PATH_MAX) l.

Definition telemetry_ok (l : WfbLogConfig) : Prop :=
  fits 512 (lg_db l) /\ fits 64 (lg_bind l) /\ fits 32 (lg_source l) /\
  fits 32 (lg_tx_power l) /\ fits 64 (lg_antenna_cfg l) /\
  Forall c_int [lg_listen_port l; lg_max_duration l; lg_channel l].

(** What every part of the loader keeps. *)
Definition sides_ok (c : GConfig) : Prop :=
  fits 64 (gc_http_bind c) /\ fits GS_NAME_MAX (gc_recovery_tunnel c) /\
  c_int (gc_venc_rate_limit_ms c) /\ telemetry_ok (gc_telemetry c).

Record gconfig_ok (c : GConfig) : Prop := {
  ok_tunnel_count : 1 <= Z.of_nat (length (gc_tunnels c)) <= GS_MAX_TUNNELS;
  ok_tunnels : Forall tunnel_ok (gc_tunnels c);
  ok_up : cmds_ok (gc_system_up c);
  ok_down : cmds_ok (gc_system_down c);
  ok_key_file : fits GS_PATH_MAX (gc_key_file c);
  ok_port : 0 <= gc_http_port c < 65536;
  ok_uplink : fits GS_NAME_MAX (gc_venc_uplink c);
  ok_sides : sides_ok c
}.

(** *** Strings fit *)

Lemma take_chars_length n s : (String.length (take_chars n s) <= n)%nat.
Proof.
  revert s. induction n as [|n IH]; intros [|a s]; cbn [take_chars String.length]; [lia..|].
  specialize (IH s). lia.
Qed.

Lemma span_until_fst_length f s : (String.length (span_until f s).1 <= String.length s)%nat.
Proof.
  rewrite (span_until_app f s) at 2. rewrite length_append. lia.
Qed.

Lemma jstr_fits js t cap s : 0 < cap -> jstr js t cap = Some s -> fits cap s.
Proof.
  intros Hc. unfold jstr, fits. destruct (negb _); [done|]. intros [= <-].
  rewrite strlen_length. unfold until_nul, text_at.
  set (slen := if _ || _ then cap - 1 else _).
  assert (0 <= slen < cap) as Hs by (subst slen; destruct (_ || _) eqn:E; lia).
  match goal with |- context [take_chars ?n ?u] =>
    pose proof (span_until_fst_length (fun c => aeq c NUL) (take_chars n u));
    pose proof (take_chars_length n u) end.
  lia.
Qed.

Lemma str_at_fits js toks cap v s : 0 < cap -> str_at js toks cap v = Some s -> fits cap s.
Proof. intros. by eapply jstr_fits. Qed.

Lemma str_lax_fits js toks cap v s : 0 < cap -> str_lax js toks cap v = Some s -> fits cap s.
Proof.
  intros Hc. unfold str_lax. intros [= <-]. destruct (str_at js toks cap v) eqn:E; [|done].
  by eapply str_at_fits.
Qed.

Lemma str_array_fits js toks cap kids : 0 < cap -> forall ci l,
  str_array js toks cap kids ci = Some l -> length l = kids /\ Forall (fits cap) l.
Proof.
  intros Hc. induction kids as [|kids IH]; intros ci l; cbn [str_array].
  { intros [= <-]. by split. }
  intros (s & Hs & (l' & Hl & [= <-])%bind_Some)%bind_Some.
  apply IH in Hl as [<- Hl]. split; [done|]. constructor; [|done]. by eapply str_at_fits.
Qed.

Lemma lax_array_fits js toks cap kids : 0 < cap -> forall ci,
  length (lax_array js toks cap kids ci) = kids /\ Forall (fits cap) (lax_array js toks cap kids ci).
Proof.
  intros Hc. induction kids as [|kids IH]; intros ci; cbn [lax_array]; [by split|].
  destruct (IH (jskip toks ci)) as [E H]. split; [cbn [length]; by rewrite E|].
  constructor; [|done]. destruct (str_at js toks cap ci) eqn:Es; [|done]. by eapply str_at_fits.
Qed.

(** The constants among them. *)
Lemma c_int_small z : 0 <= z <= 65535 -> c_int z.
Proof. unfold c_int, INT_MIN, INT_MAX. lia. Qed.

Ltac c_ints :=
  cbn; rewrite ?Forall_cons, ?Forall_nil; split_and?; try done; apply c_int_small; cbn; lia.

Lemma int_at_int {ABI : CAbi} js toks v n : int_at js toks v = Some n -> c_int n.
Proof.
  unfold int_at. destruct (jint _ _) as [z|]; cbn; [|done]. intros [= <-]. apply i32_range.
Qed.

(** *** Fields *)

Lemma opt_field_inv {A S} (P : S -> Prop) js toks obj key parse (set : A -> S -> S) s s' :
  opt_field js toks obj key parse set s = Some s' -> P s ->
  (forall v x, parse v = Some x -> P s -> P (set x s)) -> P s'.
Proof.
  unfold opt_field. intros H Hs Hset. destruct (jfind js toks obj key) as [v|].
  - apply bind_Some in H as (x & Hx & [= <-]). by eapply Hset.
  - by injection H as <-.
Qed.

Lemma lax_field_inv {A S} (P : S -> Prop) js toks obj key parse (set : A -> S -> S) s :
  P s -> (forall v x, parse v = Some x -> P s -> P (set x s)) ->
  P (lax_field js toks obj key parse set s).
Proof.
  unfold lax_field. intros Hs Hset. destruct (jfind js toks obj key) as [v|]; [|done].
  destruct (parse v) eqn:E; [|done]. by eapply Hset.
Qed.

Section Wf.
Context {ABI : CAbi}.
Variables (js : string) (toks : list JTok).

Lemma parse_udp_out_ok v ip port : parse_udp_out js toks v = Some (ip, port) ->
  fits GS_ARG_MAX ip /\ 1 <= port <= 65535.
Proof.
  unfold parse_udp_out. intros (tmp & Ht & H)%bind_Some.
  apply str_at_fits in Ht; [|done]. unfold fits in *.
  pose proof (span_until_fst_length (fun c => aeq c COLON) tmp) as Hl.
  destruct (span_until _ tmp) as [ip' [|c p]]; [done|].
  destruct (_ || _) eqn:E; [done|]. injection H as <- <-.
  rewrite strlen_length in *. cbn [fst] in Hl. split; [unfold GS_ARG_MAX in *; lia|].
  apply orb_false_iff in E. lia.
Qed.

(** One field of a well-formed tunnel changed to a value that fits. *)
Ltac solve_tcfg :=
  match goal with
  | |- tcfg_ok _ -> tcfg_ok _ =>
      intros []; constructor; cbn in *; auto; rewrite ?Forall_cons in *; tauto
  end.

Lemma parse_rx_ok t_idx t t' : parse_rx js toks t_idx t = Some t' -> tcfg_ok t ->
  tcfg_ok t' /\ 100 <= tc_probe_window_ms t' <= 10000.
Proof.
  unfold parse_rx. intros (t1 & H1 & H)%bind_Some Ht.
  apply (opt_field_inv tcfg_ok) in H1; [|done|].
  2:{ intros v [ip port] Hx. apply parse_udp_out_ok in Hx as [Hi Hp]. by solve_tcfg. }
  apply bind_Some in H as (t2 & H2 & H). apply (opt_field_inv tcfg_ok) in H2; [|done|].
  2:{ intros v x Hx. apply str_at_fits in Hx; [|done]. solve_tcfg. }
  apply bind_Some in H as (t3 & H3 & H). apply (opt_field_inv tcfg_ok) in H3; [|done|].
  2:{ intros v x Hx. apply str_at_fits in Hx; [|done]. solve_tcfg. }
  apply bind_Some in H as (t4 & H4 & H). apply (opt_field_inv tcfg_ok) in H4; [|done|].
  2:{ intros v x _. solve_tcfg. }
  apply (opt_field_inv (fun t => tcfg_ok t /\ 100 <= tc_probe_window_ms t <= 10000)) in H; [done|..].
  - split; [|cbn; lia]. revert H4. solve_tcfg.
  - intros v x (lv & _ & Hx)%bind_Some [Hok _]. destruct (_ || _) eqn:E; [done|].
    injection Hx as <-. split; [revert Hok; solve_tcfg|]. cbn. lia.
Qed.

Lemma parse_tx_ok t_idx t t' : parse_tx js toks t_idx t = Some t' -> tcfg_ok t -> tcfg_ok t'.
Proof.
  unfold parse_tx, req_field. intros (port & (v0 & _ & Hp%int_at_int)%bind_Some & H)%bind_Some Ht.
  apply (opt_field_inv tcfg_ok) in H; [done|revert Ht; solve_tcfg|].
  intros v x Hx%int_at_int. solve_tcfg.
Qed.

(** The role is not touched after it has been read. *)
Lemma parse_role_kept t_idx (rx : bool) t t' :
  (if rx then parse_rx js toks t_idx t else parse_tx js toks t_idx t) = Some t' ->
  tc_role t' = tc_role t.
Proof.
  destruct rx; [unfold parse_rx|unfold parse_tx]; intros H.
  - apply bind_Some in H as (t1 & H1 & H). apply bind_Some in H as (t2 & H2 & H).
    apply bind_Some in H as (t3 & H3 & H). apply bind_Some in H as (t4 & H4 & H).
    apply (opt_field_inv (fun u => tc_role u = tc_role t)) in H1; [|done|done].
    apply (opt_field_inv (fun u => tc_role u = tc_role t)) in H2; [|done|done].
    apply (opt_field_inv (fun u => tc_role u = tc_role t)) in H3; [|done|done].
    apply (opt_field_inv (fun u => tc_role u = tc_role t)) in H4; [|done|done].
    by apply (opt_field_inv (fun u => tc_role u = tc_role t)) in H.
  - apply bind_Some in H as (port & _ & H).
    by apply (opt_field_inv (fun u => tc_role u = tc_role t)) in H.
Qed.

Lemma parse_ifaces_ok t_idx l : parse_ifaces js toks t_idx = Some l ->
  1 <= Z.of_nat (length l) <= GS_MAX_IFACES /\ Forall (fits IFNAMSIZ) l.
Proof.
  unfold parse_ifaces. intros (v & _ & H)%bind_Some. destruct (_ || _) eqn:E; [done|].
  apply str_array_fits in H as [H1 H2]; [|done]. split; [|done]. rewrite H1. lia.
Qed.

Lemma parse_extra_ok t_idx l : parse_extra_args js toks t_idx = Some l ->
  Z.of_nat (length l) <= GS_MAX_EXTRA_ARGS /\ Forall (fits GS_ARG_MAX) l.
Proof.
  unfold parse_extra_args. destruct (typed _ _ _ _ _) as [v|]; [|by intros [= <-]].
  destruct (_ >? _) eqn:E; [done|]. intros H.
  apply str_array_fits in H as [H1 H2]; [|done]. split; [|done]. unfold GS_MAX_EXTRA_ARGS in *. lia.
Qed.

Lemma parse_tunnel_ok t_idx t : cfg_parse_tunnel js toks t_idx = Some t -> forward_ok t = true ->
  tunnel_ok t.
Proof.
  unfold cfg_parse_tunnel, req_field.
  intros (name & (v1 & _ & Hn)%bind_Some & H)%bind_Some Hf.
  apply str_at_fits in Hn; [|done].
  apply bind_Some in H as (role & _ & H). destruct (_ && _) eqn:Er; [done|].
  assert (role = "rx"%string \/ role = "tx"%string) as Hr.
  { apply andb_false_iff in Er as [Er|Er]; apply negb_false_iff, String.eqb_eq in Er; auto. }
  apply bind_Some in H as (link & (v2 & _ & Hl%int_at_int)%bind_Some & H).
  apply bind_Some in H as (t1 & H1 & H).
  apply bind_Some in H as (ifs & Hi & H). apply parse_ifaces_ok in Hi as [Hi1 Hi2].
  apply bind_Some in H as (ex & He & H). apply parse_extra_ok in He as [He1 He2].
  assert (tcfg_ok (t1 <| tc_ifaces := ifs |> <| tc_extra_args := ex |>) /\ tc_role t1 = role)
    as [Hok Hr1].
  { apply (opt_field_inv (fun u => tcfg_ok (u <| tc_ifaces := ifs |> <| tc_extra_args := ex |>)
      /\ tc_role u = role)) in H1; [done|..].
    - split; [|done]. constructor; try done. c_ints.
    - intros v x Hx%int_at_int [Hok E]. split; [|done]. revert Hok. solve_tcfg. }
  apply bind_Some in H as (t2 & H2 & H).
  apply (opt_field_inv (fun u => tcfg_ok u /\ tc_role u = role)) in H2 as [Hok2 Hr2]; [|done|].
  2:{ intros v x _ [Hu E]. split; [revert Hu; solve_tcfg|done]. }
  apply bind_Some in H as (t3 & H3 & H).
  apply (opt_field_inv (fun u => tcfg_ok u /\ tc_role u = role)) in H3 as [Hok3 Hr3]; [|done|].
  2:{ intros v x _ [Hu E]. split; [revert Hu; solve_tcfg|done]. }
  apply bind_Some in H as (t4 & H4 & H).
  apply (opt_field_inv (fun u => tcfg_ok u /\ tc_role u = role)) in H4 as [Hok4 Hr4]; [|done|].
  2:{ intros v x Hx [Hu E]. apply str_at_fits in Hx; [|done]. split; [revert Hu; solve_tcfg|done]. }
  apply bind_Some in H as (t5 & H5 & H). apply bind_Some in H as (tx & _ & [= <-]).
  pose proof (parse_role_kept _ _ _ _ H5) as Hr5.
  assert (tcfg_ok t5 /\ window_ok t5) as [Hok5 Hw].
  { unfold window_ok. rewrite Hr5, Hr4. destruct (String.eqb_spec role "rx") as [_|Hne].
    - apply parse_rx_ok in H5 as [? ?]; [|done]. by split.
    - apply parse_tx_ok in H5; [|done]. by split. }
  constructor; [done|done|split; [cbn; lia|reflexivity]|done].
Qed.

Lemma parse_tunnels_ok kids : forall ci ts, parse_tunnels js toks kids ci = Some ts ->
  forallb forward_ok ts = true -> length ts = kids /\ Forall tunnel_ok ts.
Proof.
  induction kids as [|kids IH]; intros ci ts; cbn [parse_tunnels].
  { intros [= <-] _. by split. }
  intros (t & Ht & (l & Hl & [= <-])%bind_Some)%bind_Some Hf.
  cbn [forallb] in Hf. apply andb_true_iff in Hf as [Hf1 Hf2].
  apply IH in Hl as [<- Hl]; [|done]. split; [done|]. constructor; [|done].
  by eapply parse_tunnel_ok.
Qed.

(** *** Profiles *)

Lemma push_all_ok new : forall cmds up, push_all new cmds = Some up -> cmds_ok cmds -> cmds_ok up.
Proof.
  induction new as [|c new IH]; intros cmds up; cbn [push_all]; [by intros [= <-]|].
  intros (cmds' & Hp & H)%bind_Some [Hc1 Hc2]. apply (IH cmds' up H).
  unfold profile_push_cmd in Hp. destruct (_ >=? _) eqn:E1; [done|].
  destruct (_ >=? GS_PATH_MAX) eqn:E2; [done|]. injection Hp as <-. split.
  - rewrite length_app. cbn [length]. lia.
  - apply Forall_app. split; [done|]. constructor; [|done]. unfold fits. lia.
Qed.

Lemma profile_binary_fits dir name : fits GS_PATH_MAX (profile_set_binary dir name).
Proof.
  unfold fits, profile_set_binary. destruct dir as [|a s]; [done|]. rewrite strlen_length.
  match goal with |- context [take_chars 255 ?x] => pose proof (take_chars_length 255 x) end.
  unfold GS_PATH_MAX. lia.
Qed.

Lemma profile_tunnels_ok dir up ifaces :
  1 <= Z.of_nat (length ifaces) <= GS_MAX_IFACES -> Forall (fits IFNAMSIZ) ifaces ->
  fits IFNAMSIZ up -> Forall tunnel_ok (profile_tunnels dir up ifaces).
Proof.
  intros Hc Hi Hu. unfold profile_tunnels, profile_rx.
  pose proof (profile_binary_fits dir "wfb_rx") as Hb1.
  pose proof (profile_binary_fits dir "wfb_tx") as Hb2.
  set (rx := profile_set_binary dir "wfb_rx") in *. set (tx := profile_set_binary dir "wfb_tx") in *.
  clearbody rx tx.
  assert (Forall (fits GS_ARG_MAX) ["-x"; "-l"; "100"]%string) by (by repeat constructor).
  assert (Forall (fits GS_ARG_MAX) ["-T"; "1"]%string) by (by repeat constructor).
  constructor; [|constructor; [|constructor; [|constructor]]].
  all: constructor; [| |split; [cbn; lia|lazy; reflexivity]|reflexivity].
  1, 2, 3, 4, 6: repeat constructor; cbn; auto; try lia; done.
  constructor; [by right|..]; repeat constructor; cbn; auto; try lia; done.
Qed.

Lemma profile_uplink_fits p_idx ifaces up : Forall (fits IFNAMSIZ) ifaces ->
  profile_uplink js toks p_idx ifaces = Some up -> fits IFNAMSIZ up.
Proof.
  intros Hi Hu. apply (opt_field_inv (fits IFNAMSIZ)) in Hu; [done|..].
  - destruct (last ifaces) as [x|] eqn:E; [|done]. rewrite Forall_forall in Hi.
    by apply Hi, last_Some_elem_of.
  - intros v x (u & Hs & H)%bind_Some _. apply str_at_fits in Hs; [|done].
    destruct (bool_decide _); [by injection H as <-|done].
Qed.

Lemma expand_profile_ok p_idx c c' : cfg_expand_profile js toks p_idx c = Some c' ->
  cmds_ok (gc_system_up c) -> cmds_ok (gc_system_down c) -> fits GS_PATH_MAX (gc_key_file c) ->
  0 <= gc_http_port c < 65536 -> fits GS_NAME_MAX (gc_venc_uplink c) -> sides_ok c -> gconfig_ok c'.
Proof.
  intros H Hup Hdn Hk Hp Hv Hsd. unfold cfg_expand_profile in H.
  apply bind_Some in H as (ifs & Hi & H). apply bind_Some in H as (up & Hu & H).
  apply bind_Some in H as (chan & _ & H). apply bind_Some in H as (ht & _ & H).
  apply bind_Some in H as (mbm & _ & H). apply bind_Some in H as (dir & _ & H).
  apply bind_Some in H as (u1 & Hu1 & H). apply bind_Some in H as (u2 & Hu2 & H).
  apply bind_Some in H as (d1 & Hd1 & H). cbn zeta in H.
  assert (1 <= Z.of_nat (length ifs) <= GS_MAX_IFACES /\ Forall (fits IFNAMSIZ) ifs) as [Hc Hf].
  { unfold profile_ifaces in Hi. apply bind_Some in Hi as (v & _ & Hi).
    destruct (_ || _) eqn:E; [done|]. apply str_array_fits in Hi as [E' ?]; [|done].
    split; [|done]. rewrite E'. lia. }
  apply profile_uplink_fits in Hu; [|done].
  apply push_all_ok in Hu1; [|by split].
  assert (cmds_ok u2) by (by eapply push_all_ok).
  assert (cmds_ok d1) by (by eapply push_all_ok).
  pose proof (profile_tunnels_ok dir up ifs Hc Hf Hu).
  injection H as <-. cbn. destruct (gc_venc_uplink c) eqn:E; constructor; cbn; auto; try done;
    try lia.
Qed.

(** *** The whole file *)

(** What the fields before the tunnels establish. *)
Definition head_ok (c : GConfig) : Prop :=
  cmds_ok (gc_system_up c) /\ cmds_ok (gc_system_down c) /\ fits GS_PATH_MAX (gc_key_file c) /\
  0 <= gc_http_port c < 65536 /\ fits GS_NAME_MAX (gc_venc_uplink c) /\ sides_ok c.

Lemma system_cmds_ok sys key old l : system_cmds js toks sys key old = Some l -> cmds_ok old ->
  cmds_ok l.
Proof.
  unfold system_cmds. destruct (typed _ _ _ _ _) as [v|]; [|by intros [= <-]].
  destruct (_ >? _) eqn:E; [done|]. intros [= <-] _.
  destruct (lax_array_fits js toks GS_PATH_MAX (Z.to_nat (kids_of toks v)) ltac:(done) (S v))
    as [El Hl]. split; [|done]. rewrite El. unfold GS_MAX_SYSTEM_CMDS in *. lia.
Qed.

(** The assignments of the loader keep it. *)
Lemma head_key_file s c : fits GS_PATH_MAX s -> head_ok c -> head_ok (c <| gc_key_file := s |>).
Proof. unfold head_ok. intros. cbn. tauto. Qed.

Lemma head_port n c : head_ok c -> head_ok (c <| gc_http_port := u16 n |>).
Proof.
  unfold head_ok. intros. cbn. pose proof (wrap_bound 16 n ltac:(lia)). unfold u16.
  change (2 ^ 16) with 65536 in *. tauto.
Qed.

Lemma head_cmds up dn c : cmds_ok up -> cmds_ok dn -> head_ok c ->
  head_ok (c <| gc_system_up := up |> <| gc_system_down := dn |>).
Proof. unfold head_ok. intros. cbn. tauto. Qed.

Lemma head_uplink s c : fits GS_NAME_MAX s -> head_ok c -> head_ok (c <| gc_venc_uplink := s |>).
Proof. unfold head_ok. intros. cbn. tauto. Qed.

(** The fields beside. *)
Lemma head_sides c c' : sides_ok c' -> gc_system_up c' = gc_system_up c ->
  gc_system_down c' = gc_system_down c -> gc_key_file c' = gc_key_file c ->
  gc_http_port c' = gc_http_port c -> gc_venc_uplink c' = gc_venc_uplink c ->
  head_ok c -> head_ok c'.
Proof. unfold head_ok. intros H -> -> -> -> ->. tauto. Qed.

Ltac side :=
  match goal with
  | H : head_ok ?c |- head_ok _ =>
      apply (head_sides c); try done; destruct H as (_ & _ & _ & _ & _ & (? & ? & ? & ?));
      split_and!; cbn; done
  end.

Lemma load_http_ok c : head_ok c -> head_ok (load_http js toks c).
Proof.
  intros Hc. unfold load_http. destruct (typed _ _ _ _ _); [|done].
  apply lax_field_inv; [|intros; by apply head_port]. apply lax_field_inv; [done|].
  intros v s Hs Hh. apply str_lax_fits in Hs; [|done]. side.
Qed.

Lemma load_system_ok c c' : load_system js toks c = Some c' -> head_ok c -> head_ok c'.
Proof.
  unfold load_system, opt_obj. intros H Hc.
  destruct (typed _ _ _ _ _); [|by injection H as <-].
  apply bind_Some in H as (up & Hu & H). apply bind_Some in H as (dn & Hd & [= <-]).
  apply head_cmds; [..|done].
  - eapply system_cmds_ok; [exact Hu|]. by destruct Hc.
  - eapply system_cmds_ok; [exact Hd|]. by destruct Hc as (_ & ? & _).
Qed.

Lemma load_venc_ok c : head_ok c -> head_ok (load_venc js toks c).
Proof.
  intros Hc. unfold load_venc. destruct (typed _ _ _ _ _); [|done].
  apply lax_field_inv; [|intros v x Hx%int_at_int Hh; side].
  apply lax_field_inv; [by apply lax_field_inv|].
  intros v x Hx. apply str_lax_fits in Hx; [|done]. by apply head_uplink.
Qed.

Lemma load_recovery_ok c : head_ok c -> head_ok (load_recovery js toks c).
Proof.
  intros Hc. unfold load_recovery. destruct (typed _ _ _ _ _); [|done].
  apply lax_field_inv; [by apply lax_field_inv|]. intros v s Hs Hh.
  apply str_lax_fits in Hs; [|done]. side.
Qed.

Lemma load_telemetry_ok l : telemetry_ok l -> telemetry_ok (load_telemetry js toks l).
Proof.
  intros Hl. unfold load_telemetry. destruct (typed _ _ _ _ _); [|done]. cbn zeta.
  repeat (apply lax_field_inv; [|
    intros v x Hx;
    first [apply int_at_int in Hx|apply str_lax_fits in Hx; [|done]|clear Hx];
    unfold telemetry_ok; cbn; rewrite ?Forall_cons; tauto]).
  done.
Qed.

Lemma head_telemetry c : head_ok c ->
  head_ok (c <| gc_telemetry := load_telemetry js toks (gc_telemetry c) |>).
Proof.
  intros Hh. pose proof Hh as (_ & _ & _ & _ & _ & (? & ? & ? & ?%load_telemetry_ok)).
  by apply (head_sides c).
Qed.

Lemma load_tunnels_ok c c' : load_tunnels js toks c = Some c' -> head_ok c ->
  forallb forward_ok (gc_tunnels c') = true -> gconfig_ok c'.
Proof.
  unfold load_tunnels. intros H (?&?&?&?&?&?) Hf.
  destruct (jfind js toks 0 "profile") as [p|], (jfind js toks 0 "tunnels") as [v|]; try done.
  - destruct (bool_decide _); [|done]. by eapply expand_profile_ok.
  - destruct (negb _); [done|]. destruct (_ || _) eqn:E; [done|].
    apply bind_Some in H as (ts & Ht & [= <-]). cbn in Hf.
    apply parse_tunnels_ok in Ht as [El Ht]; [|done].
    constructor; cbn; auto. rewrite El. unfold GS_MAX_TUNNELS in *. lia.
Qed.
End Wf.

Section Loaded.
Context {ABI : CAbi}.

Lemma head_zero : head_ok config_zero.
Proof.
  assert (sides_ok config_zero) by (split; [done|]; split; [done|]; split; [c_ints|]; unfold telemetry_ok; c_ints).
  split; [by repeat constructor|]. split; [by repeat constructor|]. by split_and!.
Qed.

Lemma cfg_load_ok content c : cfg_load content = Some c -> gconfig_ok c.
Proof.
  unfold cfg_load. intros ([buf toks] & _ & (c1 & Hl & H)%bind_Some)%bind_Some.
  destruct (forallb _ _) eqn:Hf; [|done]. injection H as <-.
  unfold load_fields in Hl. apply bind_Some in Hl as (c2 & H2 & Hl).
  apply load_system_ok in H2.
  2:{ apply load_http_ok, lax_field_inv; [apply head_zero|]. intros v x Hx.
      apply str_lax_fits in Hx; [|done]. by apply head_key_file. }
  eapply load_tunnels_ok; [exact Hl| |done].
  exact (head_telemetry _ _ _ (load_recovery_ok _ _ _ (load_venc_ok _ _ _ H2))).
Qed.

(** *** The overlay *)

(** The overlay changes link ids, transmit parameters, the key file and the widths in
    [system.up]. *)
Lemma tunnel_ok_link id t : c_int id -> tunnel_ok t -> tunnel_ok (on_cfg (fun c => c <| tc_link_id := id |>) t).
Proof.
  intros Hid [[] Hw [Hp Hi] Hf].
  constructor; [|exact Hw|split; [exact Hp|by rewrite Hi]|exact Hf].
  constructor; cbn in *; auto. rewrite !Forall_cons in *. tauto.
Qed.

Lemma tunnel_ok_tx k n m b t : tunnel_ok t -> tunnel_ok (overlay_tx k n m b t).
Proof.
  intros [Hc Hw [Hp Hi] Hf]. unfold overlay_tx. destruct (is_tx t); [|by constructor].
  constructor; [exact Hc|exact Hw|split; [exact Hp|by rewrite Hi]|exact Hf].
Qed.


Lemma rewrite_ht_fits ht cmd : fits GS_PATH_MAX cmd -> fits GS_PATH_MAX (rewrite_ht ht cmd).
Proof.
  intros Hc. unfold rewrite_ht. destruct (strstr _ _); [|done]. destruct (_ || _); [done|].
  cbn zeta. destruct (_ <? GS_PATH_MAX) eqn:E; [|done]. unfold fits. lia.
Qed.

Lemma gconfig_links js toks c : gconfig_ok c -> gconfig_ok (overlay_links js toks c).
Proof.
  intros Hc. unfold overlay_links. set (names := ["video"; "uplink"; "probe"]%string).
  clearbody names. revert c Hc. induction names as [|n names IH]; intros c Hc; [done|].
  cbn [fold_left]. apply IH. destruct (int_in _ _ _ _) as [id|] eqn:Eid; [|done].
  assert (c_int id) as Hid.
  { unfold int_in in Eid. apply bind_Some in Eid as (o & _ & (v & _ & Hv%int_at_int)%bind_Some). exact Hv. }
  unfold set_link_id. destruct (cfg_tunnel_by_name _ _) as [i|]; [|done].
  destruct Hc as [H1 H2 H3 H4 H5 H6 H7 H8]. constructor; cbn; auto.
  - by rewrite length_alter.
  - apply Forall_alter; [done|intros x _; by apply tunnel_ok_link].
Qed.

Lemma gconfig_overlay content c : gconfig_ok c -> gconfig_ok (cfg_apply_wfb_link_overlay content c).
Proof.
  intros Hc. unfold cfg_apply_wfb_link_overlay. destruct (file_object content) as [[js toks]|]; [|done].
  unfold overlay_fields. cbn zeta. set (c1 := match _ with Some v => c <| gc_key_file := _ |> | None => c end).
  assert (gconfig_ok c1) as H1.
  { subst c1. case_match; [|done]. destruct Hc. constructor; cbn; auto.
    match goal with |- fits _ (default _ ?x) => destruct x eqn:E end; [|done].
    by eapply str_at_fits. }
  clearbody c1. apply (gconfig_links js toks) in H1. set (c2 := overlay_links js toks c1) in *.
  clearbody c2. set (c3 := c2 <| gc_tunnels := _ |>). assert (gconfig_ok c3) as H3.
  { destruct H1. constructor; cbn; auto; [by rewrite length_map|]. apply Forall_map.
    eapply Forall_impl; [done|]. intros t. apply tunnel_ok_tx. }
  clearbody c3. case_match; [|done]. case_match; [|done].
  destruct H3 as [? ? [Hu1 Hu2] ? ? ? ? ?]. constructor; cbn; auto. split; [by rewrite length_map|].
  apply Forall_map. eapply Forall_impl; [done|]. intros s. apply rewrite_ht_fits.
Qed.

(** (C22) Every configuration the supervisor starts with, loaded and overlaid from any two
    files, is well formed: every string fits the buffer of its field, those of the API, the
    recovery channel and the telemetry included, and every list its array; every tunnel is an
    idle rx or tx tunnel; the API's port has 16 bits, the forward port of a receiver that names
    one is 1 to 65535 and a probe's is not 5600, its window 100 ms to 10 s; the other ports and
    ids, which the loader does not check, are at least values of an [int]. *)
Theorem config_well_formed content overlay c :
  cfg_load content = Some c -> gconfig_ok (cfg_apply_wfb_link_overlay overlay c).
Proof. intros H. by apply gconfig_overlay, (cfg_load_ok content). Qed.

(** *** The command line as a receiver reads it

    [getopt] over the words after the program's name, for the option letters that take an
    argument: letters may be joined, an argument may be joined to its letter, words that are
    no options are passed over and [--] ends the options.  The result lists the options in
    order; a later one overrides an earlier one of the same letter. *)
Section Getopt.
Variable has_arg : ascii -> bool.

Fixpoint cluster (s : string) : list (ascii * string) * option (ascii * string) :=
  match s with
  | EmptyString => ([], None)
  | String c r =>
    if has_arg c then ([], Some (c, r))
    else let '(l, a) := cluster r in ((c, EmptyString) :: l, a)
  end.

Fixpoint getopt (pending : option ascii) (argv : list string) : list (ascii * string) :=
  match argv with
  | [] => []
  | w :: rest =>
    match pending, w with
    | Some c, _ => (c, w) :: getopt None rest
    | None, String "-" (String c s as o) =>
      if (w =? "--")%string then []
      else let '(l, a) := cluster o in
        l ++ match a with
             | None => getopt None rest
             | Some (c, EmptyString) => getopt (Some c) rest
             | Some (c, v) => (c, v) :: getopt None rest
             end
    | None, _ => getopt None rest
    end
  end.

(** The value the last option of a letter gives. *)
Definition option_value (c : ascii) (opts : list (ascii * string)) : option string :=
  snd <$> last (filter (fun o => o.1 = c) opts).

Definition mentions (c : ascii) (w : string) : bool :=
  existsb (fun x => aeq x c) (list_ascii_of_string w).

(** The word may give the option [c]. *)
Definition may_give (c : ascii) (w : string) : bool :=
  match w with String "-" s => mentions c s | _ => false end.

Lemma cluster_letters c s : mentions c s = false ->
  Forall (fun o => o.1 <> c) (cluster s).1 /\
  match (cluster s).2 with Some (d, _) => d <> c | None => True end.
Proof.
  induction s as [|d s IH]; intros H; cbn [cluster]; [by split; [constructor|]|].
  cbn in H. apply orb_false_iff in H as [Hd H]. fold (mentions c s) in H.
  assert (d <> c) as Hne by (intros ->; unfold aeq in Hd; by rewrite Ascii.eqb_refl in Hd).
  destruct (has_arg d); [by split; [constructor|]|].
  destruct (IH H) as [H1 H2]. destruct (cluster s) as [l a]. split; [by constructor|done].
Qed.

(** Words that may not give [c] do not. *)
Lemma getopt_without c argv : Forall (fun w => may_give c w = false) argv ->
  forall pending, pending <> Some c -> Forall (fun o => o.1 <> c) (getopt pending argv).
Proof.
  induction 1 as [|w argv Hw _ IH]; intros pending Hp; [constructor|].
  cbn [getopt]. destruct pending as [d|].
  { constructor; [cbn; intros ->; by apply Hp|by apply IH]. }
  repeat case_match; try by apply IH. all: subst; try constructor.
  all: cbn [may_give] in Hw.
  all: match goal with E : cluster ?s = _ |- _ =>
    destruct (cluster_letters c s Hw) as [Hl Ha]; rewrite E in Hl, Ha; cbn [fst snd] in Hl, Ha end.
  all: apply Forall_app; split; [done|].
  all: first [by apply IH|apply IH; congruence|constructor; [done|by apply IH]].
Qed.

Lemma option_value_last c v l r : Forall (fun o => o.1 <> c) r ->
  option_value c (l ++ (c, v) :: r) = Some v.
Proof.
  intros H. unfold option_value. rewrite filter_app, filter_cons_True by done.
  replace (filter _ r) with (@nil (ascii * string)); [by rewrite last_snoc|].
  induction H as [|o r Ho _ IH]; [done|]. by rewrite filter_cons_False.
Qed.

Lemma option_value_none c l : Forall (fun o => o.1 <> c) l -> option_value c l = None.
Proof.
  unfold option_value. induction 1 as [|o r Ho _ IH]; [done|]. by rewrite filter_cons_False.
Qed.

(** An option of the vector's own, with its argument in the next word. *)
Lemma getopt_opt b c v rest : has_arg c = true -> c <> "-"%char ->
  getopt None (opt_arg b (String "-" (String c EmptyString)) v ++ rest) =
  (if b then [(c, v)] else []) ++ getopt None rest.
Proof.
  intros Hc Hd. destruct b; [|done]. cbn [opt_arg app getopt].
  destruct (String.eqb_spec (String "-" (String c EmptyString)) "--") as [E|_].
  { by injection E as ->. }
  cbn [cluster]. by rewrite Hc.
Qed.

(** The options of a receiver's vector: those the supervisor passes, then the ones the extra
    arguments and the interface names give. *)
Lemma rx_options t key : forallb has_arg ["K"; "c"; "u"; "i"; "p"; "Y"]%char = true ->
  tc_udp_out_ip (t_cfg t) <> EmptyString ->
  let c := t_cfg t in
  let stats := or_else (t_stats_arg t) (tc_stats_out c) in
  getopt None (tail (rx_args t key)) =
  (if nonempty key && negb (tc_keyless c) then [("K"%char, key)] else []) ++
  [("c"%char, tc_udp_out_ip c)] ++
  ("u"%char, pretty (tc_udp_out_port c)) ::
  [("i"%char, pretty (tc_link_id c)); ("p"%char, pretty (tc_radio_port c))] ++
  (if nonempty stats then [("Y"%char, stats)] else []) ++
  getopt None (tc_extra_args c ++ tc_ifaces c).
Proof.
  intros Ha Hip c stats. cbn [forallb] in Ha. rewrite !andb_true_iff in Ha.
  destruct Ha as (HK & Hc & Hu & Hi & Hp & HY & _).
  unfold rx_args, stats_arg. fold c. cbn [tail].
  change (["-i"; pretty (tc_link_id c); "-p"; pretty (tc_radio_port c)]%string)
    with (opt_arg true "-i" (pretty (tc_link_id c)) ++ opt_arg true "-p" (pretty (tc_radio_port c))).
  assert (nonempty (tc_udp_out_ip c) = true) as -> by (subst c; by destruct (tc_udp_out_ip (t_cfg t))).
  rewrite <- !app_assoc. by rewrite !getopt_opt.
Qed.
End Getopt.

(** (C23) No probe payload reaches the video decoder: whatever the two files say and whatever
    the tunnel's run-time state, a receiver that reads the command line of a probe tunnel with
    [getopt], the letters the supervisor passes with an argument taking one, forwards to the
    port the configuration names, which is 1 to 65535 and not 5600.  The extra arguments and
    the interface names must not be options with the letter [u] or [U], which nothing
    checks. *)
Theorem probe_never_video content overlay c t key ab has_arg :
  cfg_load content = Some c ->
  t ∈ gc_tunnels (cfg_apply_wfb_link_overlay overlay c) ->
  is_rx t = true -> tc_probe (t_cfg t) = true ->
  forallb has_arg ["K"; "c"; "u"; "i"; "p"; "Y"]%char = true ->
  Forall (fun w => may_give "u" w = false /\ may_give "U" w = false)
    (tc_extra_args (t_cfg t) ++ tc_ifaces (t_cfg t)) ->
  forall t', t_cfg t' = t_cfg t -> build_argv_rx t' key ab_empty = Some ab ->
  1 <= tc_udp_out_port (t_cfg t) <= 65535 /\ tc_udp_out_port (t_cfg t) <> 5600 /\
  let opts := getopt has_arg None (tail (ab_argv ab)) in
  option_value "u" opts = Some (pretty (tc_udp_out_port (t_cfg t))) /\
  option_value "U" opts = None.
Proof.
  intros Hl Ht Hrx Hp Ha Hx t' Et Hb.
  pose proof (ok_tunnels _ (gconfig_overlay overlay c (cfg_load_ok _ _ Hl))) as Hok.
  rewrite Forall_forall in Hok. specialize (Hok t Ht) as [Hc _ _ Hf].
  unfold forward_ok, forward_port in Hf. rewrite Hrx, Hp in Hf. cbn [andb] in Hf.
  apply negb_true_iff, orb_false_iff in Hf as [Hf1 Hf2]. apply String.eqb_neq in Hf1.
  pose proof (ok_udp_port _ Hc Hf1) as Hport. split; [done|]. split; [destruct (tc_udp_out_ip (t_cfg t)); [done|lia]|].
  rewrite build_rx_each in Hb.
  assert (ab_argv ab = rx_args t' key) as ->.
  { unfold rx_args in *. rewrite ab_each_empty in Hb. destruct (argv_fits _); [|done]. by injection Hb as <-. }
  apply Forall_and in Hx as [Hu HU]. rewrite rx_options, Et by (rewrite ?Et; done).
  apply (getopt_without has_arg) with (pending := None) in Hu, HU; [|done..]. cbv zeta.
  rewrite app_assoc. split.
  - apply option_value_last. repeat constructor; try done. apply Forall_app. split; [|done].
    destruct (nonempty _); by repeat constructor.
  - apply option_value_none. repeat (apply Forall_app; split); try done.
    all: repeat case_match; by repeat constructor.
Qed.
End Loaded.

(** ** Examples *)

Lemma sample_loaded : @cfg_load abi_lp64 (Some sample_text) = Some sample.
Proof. vm_compute. reflexivity. Qed.

Lemma config_well_formed_witness :
  gconfig_ok (@cfg_apply_wfb_link_overlay abi_lp64 (Some sample_text) sample).
Proof. exact (@config_well_formed abi_lp64 _ _ _ sample_loaded). Defined.

(** The probe tunnel of the sample, and its command line. *)
Definition sample_probe : Tunnel :=
  default tunnel_init_defaults (List.find (fun t => tc_probe (t_cfg t))
    (gc_tunnels (@cfg_apply_wfb_link_overlay abi_lp64 None sample))).
Definition sample_probe_argv : ArgvBuilder :=
  default ab_empty (build_argv_rx sample_probe "/etc/drone.key" ab_empty).

(** The letters of [wfb_rx] that take an argument, as far as the vector uses them. *)
Definition sample_letters (c : ascii) : bool :=
  existsb (aeq c) ["K"; "c"; "u"; "i"; "p"; "Y"; "l"]%char.

Lemma probe_never_video_witness :
  let opts := getopt sample_letters None (tail (ab_argv sample_probe_argv)) in
  option_value "u" opts = Some (pretty (tc_udp_out_port (t_cfg sample_probe))) /\
  option_value "U" opts = None.
Proof.
  refine (proj2 (proj2 (@probe_never_video abi_lp64 (Some sample_text) None sample sample_probe
    "/etc/drone.key" sample_probe_argv sample_letters sample_loaded _ _ _ _ _ sample_probe
    eq_refl _))).
  - apply (list_elem_of_lookup_2 _ 1%nat). vm_compute. reflexivity.
  - vm_compute. reflexivity.
  - vm_compute. reflexivity.
  - vm_compute. reflexivity.
  - vm_compute. repeat constructor.
  - vm_compute. reflexivity.
Defined.
