(* ===== verification/GsProc.v ===== *)
(** * Child processes and adapters

    The bounded [fork] helpers of [ground/gs_supervisor.c] ([waitpid_deadline],
    [run_iw_set_channel], [run_system_cmd], [run_capture]), the cache of adapter states, and
    [wait_iface_state]. *)

From S2P Require Import Prelude CFloat CString Strtod Decimal WfbJson.
From S2P Require Import Io Net GsText GsNet GsConfig.

Local Open Scope list_scope.

Definition GS_FORK_DEADLINE_MS : Z := 1000.
Definition GS_SYSTEM_CMD_DEADLINE_MS : Z := 10000.
Definition GS_SYSTEM_CMD_MAX_ARGV : Z := 32.
Definition GS_MAX_GLOBAL_IFACES : Z := 32.
Definition GS_IFACE_REFRESH_US : Z := 2000000.

(** ** Adapter states *)

Record IfaceState := Build_IfaceState {
  if_name : string; if_chan : Z; if_freq_mhz : Z; if_ht : string; if_txpower_mbm : Z;
  if_last_query_us : Z; if_last_rc : Z
}.

#[export] Instance eta_IfaceState : Eta IfaceState := fun s => Build_IfaceState
  (if_name s) (if_chan s) (if_freq_mhz s) (if_ht s) (if_txpower_mbm s) (if_last_query_us s)
  (if_last_rc s).

(** [g_iface_state] and the static [rr_idx] of [iface_state_refresh_one]. *)
Record IfaceCache := Build_IfaceCache { ic_states : list IfaceState; ic_rr : nat }.

#[export] Instance eta_IfaceCache : Eta IfaceCache := fun c =>
  Build_IfaceCache (ic_states c) (ic_rr c).

Definition iface_cache_zero : IfaceCache := Build_IfaceCache [] 0.

(** [if (x) f(x)]. *)
Definition io_when {E A} (b : bool) (m : GIO E A) (x : A) : GIO E A := if b then m else io_ret x.

Section Proc.
Context {EV : GsEnv} {ABI : CAbi}.

(** ** Waiting for a child *)

Definition wait_rc (st : WStatus) : Z := match st with WExited c => c | _ => -1 end.

(** The turns after the SIGKILL. *)
Fixpoint reap_killed (n : nat) (pid : Z) : GS unit :=
  match n with
  | O => io_ret tt
  | S n =>
      let! r := waitpid_nohang pid in
      if (r.1 =? pid) || (r.1 <? 0) then io_ret tt
      else let! _ := sleep_ms 5 in reap_killed n pid
  end.

Fixpoint wait_loop (fuel : nat) (pid fin : Z) : GS Z :=
  match fuel with
  | O => let! _ := io_log GStuck in io_ret (-3)
  | S fuel =>
      let! r := waitpid_nohang pid in
      if r.1 =? pid then io_ret (wait_rc r.2)
      else if r.1 <? 0 then io_ret (-3)
      else
        let! t := now_ms in
        if fin <=? t then
          let! _ := kill pid SIGKILL in
          let! _ := reap_killed 50 pid in
          io_ret (-2)
        else let! _ := sleep_ms 5 in wait_loop fuel pid fin
  end.

Definition waitpid_deadline (pid deadline_ms : Z) : GS Z :=
  let! t := now_ms in wait_loop (turns deadline_ms) pid (t + deadline_ms).

(** The child tries [/usr/sbin/iw] first, then [iw] on the path. *)
Definition iw_channel_argv (iface : string) (chan : Z) (ht : string) : list string :=
  ["iw"; "dev"; iface; "set"; "channel"; take_chars 15 (pretty chan); ht]%string.

Definition run_iw_set_channel (iface : string) (chan : Z) (ht : string) : GS Z :=
  match iface with
  | EmptyString => io_ret (-1)
  | _ =>
      let! r := fork_exec (iw_channel_argv iface chan ht) in
      match r with
      | None => io_ret (-1)
      | Some pid => waitpid_deadline pid GS_FORK_DEADLINE_MS
      end
  end.

(** ** System commands *)

Definition run_system_cmd (cmd_const : string) : GS Z :=
  match tokenize_argv (take_chars 255 cmd_const) GS_SYSTEM_CMD_MAX_ARGV with
  | inr _ => io_ret (-1)
  | inl [] => io_ret 0
  | inl argv =>
      let! r := fork_exec argv in
      match r with
      | None => io_ret (-1)
      | Some pid =>
          let! rc := waitpid_deadline pid GS_SYSTEM_CMD_DEADLINE_MS in
          io_ret (if rc =? -2 then -1 else rc)
      end
  end.

Fixpoint run_system_block (cmds : list string) : GS unit :=
  match cmds with
  | [] => io_ret tt
  | c :: cmds =>
      let! _ := (if nonempty c then run_system_cmd c else io_ret 0) in
      run_system_block cmds
  end.

(** ** [run_capture] *)

(** The loop: whether it timed out, and what was read; [cap] characters with the NUL. *)
Fixpoint capture_loop (fuel : nat) (cap deadline : Z) (out : string) : GS (bool * string) :=
  if strlen out + 1 <? cap then
    match fuel with
    | O => let! _ := io_log GStuck in io_ret (true, out)
    | S fuel =>
        let! now := now_ms in
        if deadline <=? now then io_ret (true, out)
        else
          let! p := call (GPollFd (deadline - now)) ge_poll in
          match p with
          | PollIntr => capture_loop fuel cap deadline out
          | PollFail => io_ret (false, out)
          | PollZero => io_ret (true, out)
          | PollReady =>
              let room := cap - 1 - strlen out in
              let! r := call (GRead room) ge_read in
              match r with
              | ReadAgain => capture_loop fuel cap deadline out
              | ReadFail | ReadEof => io_ret (false, out)
              | ReadData s => capture_loop fuel cap deadline (out ++ take_chars (Z.to_nat room) s)
              end
          end
    end
  else io_ret (false, out).

(** The exit status, and the output up to its first NUL. *)
Definition run_capture (argv : list string) (cap : Z) : GS (Z * string) :=
  let! ok := call GPipe ge_pipe in
  if negb ok then io_ret (-1, EmptyString)
  else
    let! r := fork_exec argv in
    match r with
    | None => io_ret (-1, EmptyString)
    | Some pid =>
        let! t := now_ms in
        let! c := capture_loop (turns GS_FORK_DEADLINE_MS) cap (t + GS_FORK_DEADLINE_MS) EmptyString in
        let out := until_nul c.2 in
        if c.1 : bool then
          let! _ := kill pid SIGKILL in
          let! _ := waitpid_deadline pid 250 in
          io_ret (-1, out)
        else
          let! rc := waitpid_deadline pid GS_FORK_DEADLINE_MS in
          io_ret (if rc <? 0 then -1 else rc, out)
    end.

Definition iw_info_argv (iface : string) : list string := ["iw"; "dev"; iface; "info"]%string.

Definition iface_is_monitor (iface : string) : GS Z :=
  let! r := run_capture (iw_info_argv iface) 1024 in
  io_ret (if negb (r.1 =? 0) then -1 else if contains r.2 "type monitor" then 0 else -1).

(** [fscanf(f, "%lx", &flags)]: a hexadecimal number with optional sign and prefix; it
    saturates at the largest [unsigned long], whose low bit is set. *)
Definition scan_hex (s : string) : option Z :=
  let s := skip_while isspace s in
  let '(neg, s) :=
    match s with
    | String a s' => if aeq a (ch 45) then (true, s') else if aeq a (ch 43) then (false, s') else (false, s)
    | EmptyString => (false, s)
    end in
  let s := if starts_with_nocase "0x" s then drop_chars 2 s else s in
  let '(v, n, _) := digits hex_val 16 s 0 0 in
  let umax := 2 ^ long_bits - 1 in
  if n =? 0 then None
  else Some (if v >? umax then umax else if neg then wrap long_bits (- v) else v).

Definition iface_is_admin_up (iface : string) : GS Z :=
  let path := ("/sys/class/net/" ++ iface ++ "/flags")%string in
  if strlen path >=? 128 then io_ret (-1)
  else
    let! f := read_file path in
    io_ret (match f ≫= scan_hex with
            | Some flags => if Z.testbit flags 0 then 0 else -1
            | None => -1
            end).

(** ** The cache *)

Definition iface_state_find (name : string) (l : list IfaceState) : option nat :=
  fst <$> list_find (fun s => if_name s = name) l.

(** The index of the state of [name], entered if there is room. *)
Definition iface_state_intern (name : string) (l : list IfaceState)
    : option nat * list IfaceState :=
  match iface_state_find name l with
  | Some i => (Some i, l)
  | None =>
      if Z.of_nat (length l) >=? GS_MAX_GLOBAL_IFACES then (None, l)
      else (Some (length l),
            l ++ [Build_IfaceState (take_chars 15 name) (-1) (-1) EmptyString (-1) 0 0])
  end.

(** A literal of a [scanf] format without blanks, and a [%d] after optional blanks. *)
Definition scan_lit (p s : string) : option string :=
  if starts_with p s then Some (drop_chars (String.length p) s) else None.
Definition scan_int (s : string) : option (Z * string) :=
  '(v, e) ← strtol s; Some (i32 v, e).

(** [sscanf(p, "channel %d (%d MHz)", &ch, &freq)]. *)
Definition scan_channel (p : string) : option (Z * option Z) :=
  s ← scan_lit "channel" p;
  '(chn, s) ← scan_int s;
  Some (chn, s ← scan_lit "(" (skip_while isspace s); '(f, _) ← scan_int s; Some f).

Definition scan_after (label s : string) (default_ : Z) : Z :=
  default default_ (s ← scan_lit label s; '(v, _) ← scan_int s; Some v).

Definition absorb_channel (st : IfaceState) (p : string) : IfaceState :=
  let st := match scan_channel p with
            | Some (chn, f) =>
                let st := st <| if_chan := chn |> in
                match f with
                | Some f => if 0 <? f then st <| if_freq_mhz := f |> else st
                | None => st
                end
            | None => st
            end in
  match strstr p "width:" with
  | None => st
  | Some w =>
      let width := scan_after "width:" w 20 in
      if width <=? 20 then st <| if_ht := "HT20"%string |>
      else if width =? 40 then
        let center1 := match strstr p "center1:" with
                       | Some cn => scan_after "center1:" cn 0
                       | None => 0
                       end in
        if (0 <? center1) && (0 <? if_freq_mhz st) then
          st <| if_ht := if center1 >? if_freq_mhz st then "HT40+"%string else "HT40-"%string |>
        else st <| if_ht := "HT40+"%string |>
      else if width <? 1000 then st <| if_ht := ("HT" ++ pretty width)%string |>
      else st
  end.

Definition iface_state_absorb_line (st : IfaceState) (line : string) : IfaceState :=
  let st := match strstr line "channel " with Some p => absorb_channel st p | None => st end in
  match strstr line "txpower " with
  | None => st
  | Some p =>
      match strtod (drop_chars 8 p) with
      | Some (dbm, _) =>
          st <| if_txpower_mbm := f_to_int (F64.add (F64.mul dbm (F64.of_Z 100)) (F64.lit 1 2)) |>
      | None => st
      end
  end.

(** The lines of the output, the last one with or without its newline. *)
Fixpoint absorb_lines (fuel : nat) (st : IfaceState) (p : string) : IfaceState :=
  match fuel, p with
  | S fuel, String _ _ =>
      let '(line, rest) := span_until (fun c => aeq c LF) p in
      let st := iface_state_absorb_line st line in
      match rest with EmptyString => st | String _ rest => absorb_lines fuel st rest end
  | _, _ => st
  end.

Definition iface_state_query (st : IfaceState) : GS IfaceState :=
  let! t := now_us in
  let st := st <| if_last_query_us := t |> <| if_chan := -1 |> <| if_freq_mhz := -1 |>
               <| if_ht := EmptyString |> <| if_txpower_mbm := -1 |> in
  let! r := run_capture (iw_info_argv (if_name st)) 1024 in
  let st := st <| if_last_rc := r.1 |> in
  io_ret (if negb (r.1 =? 0) then st else absorb_lines (String.length r.2) st r.2).

(** [iface_state_query] on the entry [i]. *)
Definition iface_query_at (i : nat) (c : IfaceCache) : GS IfaceCache :=
  match ic_states c !! i with
  | None => io_ret c
  | Some st => let! st := iface_state_query st in io_ret (c <| ic_states := <[i := st]> (ic_states c) |>)
  end.

(** [if (ist = iface_state_find(name)) iface_state_query(ist)]. *)
Definition iface_requery (name : string) (c : IfaceCache) : GS IfaceCache :=
  match iface_state_find name (ic_states c) with
  | None => io_ret c
  | Some i => iface_query_at i c
  end.

Fixpoint iface_init_names (names : list string) (c : IfaceCache) : GS IfaceCache :=
  match names with
  | [] => io_ret c
  | n :: names =>
      let '(i, l) := iface_state_intern n (ic_states c) in
      let c := c <| ic_states := l |> in
      let! c := match i with Some i => iface_query_at i c | None => io_ret c end in
      iface_init_names names c
  end.

Definition all_ifaces (c : GConfig) : list string :=
  concat (map (fun t => tc_ifaces (t_cfg t)) (gc_tunnels c)).

Definition iface_state_init (c : GConfig) (ic : IfaceCache) : GS IfaceCache :=
  iface_init_names (all_ifaces c) ic.

Fixpoint refresh_loop (tries : nat) (now : Z) (c : IfaceCache) : GS IfaceCache :=
  match tries with
  | O => io_ret c
  | S tries =>
      let i := ic_rr c in
      let c := c <| ic_rr := ((i + 1) mod length (ic_states c))%nat |> in
      match ic_states c !! i with
      | Some st =>
          if GS_IFACE_REFRESH_US <=? u64 (now - if_last_query_us st) then iface_query_at i c
          else refresh_loop tries now c
      | None => io_ret c
      end
  end.

Definition iface_state_refresh_one (now : Z) (c : IfaceCache) : GS IfaceCache :=
  refresh_loop (length (ic_states c)) now c.

(** ** Readiness *)

(** The test of one adapter; the second question is asked only if the first is answered. *)
Definition iface_bad (ifc : string) : GS bool :=
  let! up := iface_is_admin_up ifc in
  if negb (up =? 0) then io_ret true
  else let! mon := iface_is_monitor ifc in io_ret (negb (mon =? 0)).

Fixpoint count_bad (names : list string) : GS Z :=
  match names with
  | [] => io_ret 0
  | n :: names => let! b := iface_bad n in let! k := count_bad names in
      io_ret (if b : bool then 1 + k else k)
  end.

(** [prev_bad] only decides what is logged; the last report asks about every adapter once
    more. *)
Fixpoint ready_loop (fuel : nat) (names : list string) (deadline interval_ms : Z) : GS Z :=
  match fuel with
  | O => let! _ := io_log GStuck in io_ret (-1)
  | S fuel =>
      let! bad := count_bad names in
      if bad =? 0 then io_ret 0
      else
        let! t := now_ms in
        if deadline <=? t then let! _ := count_bad names in io_ret (-1)
        else let! _ := sleep_ms interval_ms in ready_loop fuel names deadline interval_ms
  end.

Definition wait_iface_state (c : GConfig) (timeout_ms interval_ms : Z) : GS Z :=
  let! t := now_ms in
  ready_loop (turns timeout_ms) (all_ifaces c) (t + timeout_ms) interval_ms.
End Proc.
