(* ===== verification/GsState.v ===== *)
(** * State of the ground supervisor

    The singletons of [ground/gs_supervisor*.c] besides the configuration: the channel-switch
    orchestrator [g_csa], the scanner [g_scan], the counters of the command uplink, and the
    record [Gs] that gathers them. *)

From S2P Require Import Prelude CString GsNet GsConfig GsProc.

Local Open Scope list_scope.

Inductive CsaPhase := CSA_IDLE | CSA_BURST | CSA_ARMED | CSA_VERIFY.

#[export] Instance CsaPhase_eq_dec : EqDecision CsaPhase.
Proof. solve_decision. Defined.

(** [CsaState], with [g_csa_seq_in_burst] and [g_csa_send_fd]; [iface_count] is the length of
    [ifaces]. *)
Record CsaState := Build_CsaState {
  cs_phase : CsaPhase; cs_sess : Z; cs_t_switch_us : Z; cs_t_revert_us : Z;
  cs_next_frame_us : Z; cs_frames_sent : Z; cs_frames_total : Z;
  cs_target_chan : Z; cs_target_ht : string; cs_prev_chan : Z; cs_prev_ht : string;
  cs_ifaces : list string; cs_baseline_pkt_us : Z; cs_baseline_pkt_all : Z;
  cs_baseline_rx_idx : Z; cs_no_revert : bool; cs_seq_in_burst : Z; cs_send_open : bool
}.

#[export] Instance eta_CsaState : Eta CsaState := fun s => Build_CsaState
  (cs_phase s) (cs_sess s) (cs_t_switch_us s) (cs_t_revert_us s) (cs_next_frame_us s)
  (cs_frames_sent s) (cs_frames_total s) (cs_target_chan s) (cs_target_ht s) (cs_prev_chan s)
  (cs_prev_ht s) (cs_ifaces s) (cs_baseline_pkt_us s) (cs_baseline_pkt_all s)
  (cs_baseline_rx_idx s) (cs_no_revert s) (cs_seq_in_burst s) (cs_send_open s).

Definition csa_zero : CsaState := {|
  cs_phase := CSA_IDLE; cs_sess := 0; cs_t_switch_us := 0; cs_t_revert_us := 0;
  cs_next_frame_us := 0; cs_frames_sent := 0; cs_frames_total := 0; cs_target_chan := 0;
  cs_target_ht := ""; cs_prev_chan := 0; cs_prev_ht := ""; cs_ifaces := [];
  cs_baseline_pkt_us := 0; cs_baseline_pkt_all := 0; cs_baseline_rx_idx := 0;
  cs_no_revert := false; cs_seq_in_burst := 0; cs_send_open := false |}.

Inductive ScanPhase := SCAN_IDLE | SCAN_RUNNING | SCAN_FOUND | SCAN_STOPPED.

#[export] Instance ScanPhase_eq_dec : EqDecision ScanPhase.
Proof. solve_decision. Defined.

(** [ScanState]; the steps are the pairs of [chans] and [hts]. *)
Record ScanState := Build_ScanState {
  sc_phase : ScanPhase; sc_sess : Z; sc_ifaces : list string; sc_steps : list (Z * string);
  sc_cur_step : Z; sc_step_started_us : Z; sc_step_dwell_us : Z; sc_baseline_rx_idx : Z;
  sc_step_saw_traffic : bool; sc_found_chan : Z; sc_found_ht : string; sc_hops_done : Z
}.

#[export] Instance eta_ScanState : Eta ScanState := fun s => Build_ScanState
  (sc_phase s) (sc_sess s) (sc_ifaces s) (sc_steps s) (sc_cur_step s) (sc_step_started_us s)
  (sc_step_dwell_us s) (sc_baseline_rx_idx s) (sc_step_saw_traffic s) (sc_found_chan s)
  (sc_found_ht s) (sc_hops_done s).

Definition scan_zero : ScanState := {|
  sc_phase := SCAN_IDLE; sc_sess := 0; sc_ifaces := []; sc_steps := []; sc_cur_step := 0;
  sc_step_started_us := 0; sc_step_dwell_us := 0; sc_baseline_rx_idx := 0;
  sc_step_saw_traffic := false; sc_found_chan := 0; sc_found_ht := ""; sc_hops_done := 0 |}.

(** [g_wcmd_*], [g_logsync_emit_total], [g_recovery_emit_*] and the static [logsync_next_ms].
    [em_oob] records a store beyond the end of [g_wcmd_last_send_ms], undefined in C. *)
Record Emit := Build_Emit {
  em_seq : Z; em_last_send_ms : list Z;
  em_total : Z; em_frames : Z; em_rate_limit : Z; em_failed : Z;
  em_logsync_total : Z; em_logsync_next_ms : Z;
  em_recovery_total : Z; em_recovery_failed : Z; em_oob : bool
}.

#[export] Instance eta_Emit : Eta Emit := fun e => Build_Emit
  (em_seq e) (em_last_send_ms e) (em_total e) (em_frames e) (em_rate_limit e) (em_failed e)
  (em_logsync_total e) (em_logsync_next_ms e) (em_recovery_total e) (em_recovery_failed e)
  (em_oob e).

Definition emit_zero : Emit := Build_Emit 0 (replicate 17 0) 0 0 0 0 0 0 0 0 false.

Record Gs := Build_Gs {
  gs_cfg : GConfig; gs_ifaces : IfaceCache; gs_csa : CsaState; gs_scan : ScanState; gs_emit : Emit
}.

#[export] Instance eta_Gs : Eta Gs := fun g => Build_Gs
  (gs_cfg g) (gs_ifaces g) (gs_csa g) (gs_scan g) (gs_emit g).

Definition gs_start (c : GConfig) : Gs := Build_Gs c iface_cache_zero csa_zero scan_zero emit_zero.

Definition gs_tunnels (g : Gs) : list Tunnel := gc_tunnels (gs_cfg g).
Definition set_tunnels (ts : list Tunnel) (g : Gs) : Gs :=
  g <| gs_cfg := gs_cfg g <| gc_tunnels := ts |> |>.
