(* ===== verification/GsStats.v ===== *)
(** * Statistics of the ground tunnels

    [stats_drain] of [ground/gs_supervisor.c]: every report of a [wfb_rx] or [wfb_tx] is
    forwarded, read into the tunnel's snapshot, and, on a probe tunnel, folded into the
    packet-error records sent to the vehicle ([probe_accumulate], [probe_window_flush]). *)

From S2P Require Import Prelude CFloat CString Strtod WfbJson Io.
From S2P Require Import GsText GsNet GsConfig GsProc GsState.

Local Open Scope list_scope.

Section Stats.
Context {EV : GsEnv}.

(** ** The probe producer *)

Definition bucket_zero : ProbeBucket := Build_ProbeBucket 0 0 INT_MIN.

Definition probe_buckets_reset (now : Z) (a : ProbeAcc) : ProbeAcc :=
  a <| probe_bucket := replicate 16 bucket_zero |> <| probe_win_start_us := now |>.

(** The record of one bucket. *)
Definition key_is (key value : string) : string := (quoted key ++ ":" ++ value)%string.
Fixpoint commas (l : list string) : string :=
  match l with
  | [] => EmptyString
  | [s] => s
  | s :: l => (s ++ "," ++ commas l)%string
  end.

Definition probe_record (ts_ms radio_port mcs u l rssi win_us : Z) : string :=
  let acc := u32 (u + l) in
  ("{" ++ commas
     [key_is "type" (quoted "probe"); key_is "ts_ms" (pretty ts_ms);
      key_is "radio_port" (pretty radio_port); key_is "mcs" (pretty mcs);
      key_is "per" (printf_f 4 (F64.div (F64.of_Z l) (F64.of_Z acc)));
      key_is "recv" (pretty u); key_is "lost" (pretty l); key_is "accounted" (pretty acc);
      key_is "rssi" (if (rssi =? INT_MIN)%Z then "null" else pretty rssi);
      key_is "window_s" (printf_f 3 (F64.div (F64.of_Z win_us) (F64.of_Z 1000000)))] ++
   "}" ++ str1 LF)%string.

(** [if (fwd_active) sendto(...)], the result ignored. *)
Definition forward (dst : option Addr) (text : string) : GS unit :=
  match dst with
  | Some a => let! _ := send_text a text in io_ret tt
  | None => io_ret tt
  end.

Fixpoint flush_buckets (ts_ms win_us : Z) (t : Tunnel) (m : Z) (bs : list ProbeBucket)
    (emitted : Z) : GS Z :=
  match bs with
  | [] => io_ret emitted
  | b :: bs =>
      if u32 (pb_uniq b + pb_lost b) =? 0 then flush_buckets ts_ms win_us t (m + 1) bs emitted
      else
        let rec := probe_record ts_ms (tc_radio_port (t_cfg t)) m (pb_uniq b) (pb_lost b)
                     (pb_rssi b) win_us in
        let! _ := (if strlen rec <? 256 then forward (t_fwd t) rec else io_ret tt) in
        flush_buckets ts_ms win_us t (m + 1) bs (u32 (emitted + 1))
  end.

Definition probe_window_flush (now : Z) (t : Tunnel) : GS Tunnel :=
  let a := t_probe_acc t in
  let! ts_ms := realtime_ms in
  let! n := flush_buckets ts_ms (u64 (now - probe_win_start_us a)) t 0 (probe_bucket a)
              (probe_emit_count a) in
  io_ret (t <| t_probe_acc := probe_buckets_reset now (a <| probe_emit_count := n |>) |>).

Definition bucket_add (uniq lost rssi : Z) (b : ProbeBucket) : ProbeBucket :=
  let b := b <| pb_uniq := u32 (pb_uniq b + uniq) |> <| pb_lost := u32 (pb_lost b + lost) |> in
  if negb (rssi =? INT_MIN) && ((pb_rssi b =? INT_MIN) || (rssi >? pb_rssi b))
  then b <| pb_rssi := rssi |> else b.

(** The accumulator before the flush. *)
Definition probe_fold (win_us uniq lost mcs rssi now : Z) (a : ProbeAcc) : ProbeAcc :=
  let a := if probe_win_start_us a =? 0 then probe_buckets_reset now a else a in
  let a := if u64 (now - probe_win_start_us a) >? u64 (4 * win_us)
           then (probe_buckets_reset now a) <| probe_drop_count := u32 (probe_drop_count a + 1) |>
           else a in
  if (0 <=? mcs) && (mcs <? 16) then
    a <| probe_bucket := array_write (bucket_add uniq lost rssi) mcs (probe_bucket a) |>
  else a.

Definition probe_accumulate (uniq lost mcs rssi now : Z) (t : Tunnel) : GS Tunnel :=
  let win_us := u64 (tc_probe_window_ms (t_cfg t) * 1000) in
  let t := t <| t_probe_acc := probe_fold win_us uniq lost mcs rssi now (t_probe_acc t) |> in
  if win_us <=? u64 (now - probe_win_start_us (t_probe_acc t)) then probe_window_flush now t
  else io_ret t.

(** ** The antenna list *)

(** The texts of the objects at depth 0; [start] is the text from [obj_start] on, [len] how
    much of it has been passed. *)
Fixpoint ant_objects (depth : Z) (start : string) (len : nat) (s : string) : list string :=
  match s with
  | EmptyString => []
  | String c s' =>
      if aeq c BRACE_OPEN then
        if depth =? 0 then ant_objects (depth + 1) s 1 s'
        else ant_objects (depth + 1) start (S len) s'
      else if aeq c BRACE_CLOSE then
        if depth - 1 =? 0 then
          take_chars (S len) start :: ant_objects (depth - 1) start (S len) s'
        else ant_objects (depth - 1) start (S len) s'
      else ant_objects depth start (S len) s'
  end.

(** The local variables of the walk. *)
Record AntWalk := Build_AntWalk {
  aw_count : Z; aw_seen : list string; aw_best_rssi : Z; aw_mcs : Z; aw_hist : list Z
}.

#[export] Instance eta_AntWalk : Eta AntWalk := fun a =>
  Build_AntWalk (aw_count a) (aw_seen a) (aw_best_rssi a) (aw_mcs a) (aw_hist a).

Definition ant_step (a : AntWalk) (o : string) : AntWalk :=
  let a := match json_slice_object o "rssi" ≫= (fun r => json_pick_i32 r "avg") with
           | Some avg => if avg >? aw_best_rssi a then a <| aw_best_rssi := avg |> else a
           | None => a
           end in
  let a := match json_pick_i32 o "mcs" with
           | Some am =>
               let a := a <| aw_mcs := am |> in
               if (0 <=? am) && (am <? 16) then
                 match json_pick_i32 o "pkts" with
                 | Some ap => if 0 <? ap then
                     a <| aw_hist := array_write (fun h => u32 (h + ap)) am (aw_hist a) |>
                     else a
                 | None => a
                 end
               else a
           | None => a
           end in
  let a := a <| aw_count := aw_count a + 1 |> in
  match json_pick_str o "id" 24 with
  | Some id =>
      if negb (bool_decide (id ∈ aw_seen a)) && (length (aw_seen a) <? 16)%nat
      then a <| aw_seen := aw_seen a ++ [id] |> else a
  | None => a
  end.

Definition ant_walk (ant : option string) : AntWalk :=
  let objs := match ant with
              | Some s => if 2 <=? strlen s then ant_objects 0 s 0 s else []
              | None => []
              end in
  fold_left ant_step objs (Build_AntWalk 0 [] INT_MIN (-1) (replicate 16 0)).

(** ** One report *)

(** [if (json_pick(js, key, &u) == 0) field = u]. *)
Definition pick_to {A S} (pick : option A) (set : A -> S -> S) (s : S) : S :=
  match pick with Some x => set x s | None => s end.

Definition pick_pkt (pkt : string) (s : RxStats) : RxStats :=
  let s := pick_to (json_pick_u32 pkt "all") (fun u s => s <| st_pkt_all := u |>) s in
  let s := pick_to (json_pick_u32 pkt "lost") (fun u s => s <| st_pkt_lost := u |>) s in
  let s := pick_to (json_pick_u32 pkt "fec_recovered") (fun u s => s <| st_pkt_fec := u |>) s in
  let s := pick_to (json_pick_u32 pkt "outgoing") (fun u s => s <| st_pkt_outgoing := u |>) s in
  let s := pick_to (json_pick_u32 pkt "dec_err") (fun u s => s <| st_pkt_dec_err := u |>) s in
  let s := pick_to (json_pick_u32 pkt "outgoing_bytes") (fun u s => s <| st_pkt_bytes := u |>) s in
  pick_to (json_pick_u32 pkt "uniq") (fun u s => s <| st_pkt_uniq := u |>) s.

(** The scanner's look at a report; the clock is read only when it matters. *)
Definition scan_note (t : Tunnel) (uniq : option Z) (sc : ScanState) : GS ScanState :=
  match uniq with
  | Some u =>
      if (0 <? u) && bool_decide (sc_phase sc = SCAN_RUNNING) && is_rx t then
        let! now := now_us in
        io_ret (if u64 (sc_step_started_us sc + 200000) <=? now
                then sc <| sc_step_saw_traffic := true |> else sc)
      else io_ret sc
  | None => io_ret sc
  end.

Definition mcs_window (nsec : Z) (hist : list Z) (s : RxStats) : RxStats :=
  let w := nsec mod 10 in
  let s := if nth (Z.to_nat w) (st_mcs_win_sec s) 0 =? nsec then s
           else s <| st_mcs_win := array_write (fun _ => replicate 16 0) w (st_mcs_win s) |>
                  <| st_mcs_win_sec := array_write (fun _ => nsec) w (st_mcs_win_sec s) |> in
  s <| st_mcs_win := array_write (fun row => zip_with (fun x h => u32 (x + h)) row hist) w
                       (st_mcs_win s) |>.

Definition on_rx (f : RxStats -> RxStats) (t : Tunnel) : Tunnel :=
  t <| t_rx_stats := f (t_rx_stats t) |>.

Definition drain_rx_ant (buf : string) (t : Tunnel) (sc : ScanState) : GS (Tunnel * ScanState) :=
  let pkt := json_slice_object buf "pkt" in
  let t := pick_to pkt (fun p => on_rx (pick_pkt p)) t in
  let uniq := p ← pkt; json_pick_u32 p "uniq" in
  let lost := p ← pkt; json_pick_u32 p "lost" in
  let! sc := scan_note t uniq sc in
  let a := ant_walk (json_slice_object buf "ant") in
  let t := on_rx (fun s => s <| st_ant_count :=
      match aw_seen a with [] => aw_count a | l => Z.of_nat (length l) end |>) t in
  let t := if aw_best_rssi a =? INT_MIN then t
           else on_rx (fun s => s <| st_rssi_best := aw_best_rssi a |>) t in
  let! now := now_us in
  let t := on_rx (mcs_window (now `quot` 1000000) (aw_hist a)) t in
  if tc_probe (t_cfg t) then
    let! now := now_us in
    let! t := probe_accumulate (default 0 uniq) (default 0 lost) (aw_mcs a) (aw_best_rssi a) now t in
    io_ret (t, sc)
  else io_ret (t, sc).

Definition pick_tx (tx : string) (s : TxStats) : TxStats :=
  let s := pick_to (json_pick_u32 tx "pkts_in") (fun u s => s <| st_tx_pkts_in := u |>) s in
  let s := pick_to (json_pick_u32 tx "pkts_out") (fun u s => s <| st_tx_pkts_out := u |>) s in
  let s := pick_to (json_pick_u32 tx "bytes_in") (fun u s => s <| st_tx_bytes_in := u |>) s in
  let s := pick_to (json_pick_u32 tx "bytes_out") (fun u s => s <| st_tx_bytes_out := u |>) s in
  let s := pick_to (json_pick_u32 tx "pkts_drop") (fun u s => s <| st_tx_drop := u |>) s in
  let s := pick_to (json_pick_u32 tx "pkts_trunc") (fun u s => s <| st_tx_trunc := u |>) s in
  pick_to (json_pick_u32 tx "fec_timeouts") (fun u s => s <| st_tx_fec_timeouts := u |>) s.

Definition pick_fec (tx : string) (p : TxParams) : TxParams :=
  let p := pick_to (json_pick_i32 tx "fec_k")
             (fun s p => p <| tp_fec_k := s |> <| tp_fec_cache_have := true |>) p in
  pick_to (json_pick_i32 tx "fec_n")
    (fun s p => p <| tp_fec_n := s |> <| tp_fec_cache_have := true |>) p.

Definition pick_radio (r : string) (p : TxParams) : TxParams :=
  let p := pick_to (json_pick_i32 r "mcs") (fun s p => p <| tp_mcs_index := s |>) p in
  let p := pick_to (json_pick_i32 r "bw") (fun s p => p <| tp_bandwidth_mhz := s |>) p in
  let p := pick_to (json_pick_i32 r "short_gi") (fun s p => p <| tp_short_gi := s |>) p in
  let p := pick_to (json_pick_i32 r "stbc") (fun s p => p <| tp_stbc := s |>) p in
  let p := pick_to (json_pick_i32 r "ldpc") (fun s p => p <| tp_ldpc := s |>) p in
  let p := pick_to (json_pick_i32 r "vht_mode") (fun s p => p <| tp_vht_mode := s |>) p in
  pick_to (json_pick_i32 r "vht_nss") (fun s p => p <| tp_vht_nss := s |>) p.

Definition drain_tx_stats (buf : string) (t : Tunnel) : GS Tunnel :=
  let t := pick_to (json_slice_object buf "tx")
    (fun tx t => on_tx (pick_fec tx) (t <| t_tx_stats := pick_tx tx (t_tx_stats t) |>)) t in
  match json_slice_object buf "radio" with
  | None => io_ret t
  | Some r =>
      let! now := now_us in
      io_ret (on_tx (fun p => (pick_radio r p) <| tp_radio_cache_have := true |>
                                 <| tp_radio_cache_us := now |>) t)
  end.

Definition type_tag (ty : string) : string := key_is "type" (quoted ty).

(** The body of [stats_drain]'s loop; [got] is what [recv] wrote. *)
Definition drain_one (got : string) (t : Tunnel) (sc : ScanState) : GS (Tunnel * ScanState) :=
  let buf := take_chars 4095 got in
  if nonempty buf then
    let! _ := (if tc_probe (t_cfg t) then io_ret tt else forward (t_fwd t) buf) in
    let! _ := (if tc_probe (t_cfg t) then io_ret tt else forward (t_tap t) buf) in
    let t := pick_to (json_pick_u32 buf "interval_ms") (fun u t => t <| t_interval_ms := u |>) t in
    let is_rx_ant := contains (until_nul buf) (type_tag "rx_ant") in
    let is_tx_stats := contains (until_nul buf) (type_tag "tx_stats") in
    if negb is_rx_ant && negb is_tx_stats then io_ret (t, sc)
    else
      let! r := (if is_rx_ant then drain_rx_ant buf t sc else io_ret (t, sc)) in
      let '(t, sc) := r in
      let! t := (if is_tx_stats then drain_tx_stats buf t else io_ret t) in
      let! now := now_us in
      let t := if t_msg_count t =? 0 then t <| t_first_us := now |> else t in
      io_ret (t <| t_last_us := now |> <| t_msg_count := u32 (t_msg_count t + 1) |>, sc)
  else io_ret (t, sc).

Fixpoint drain_list (l : list string) (t : Tunnel) (sc : ScanState) : GS (Tunnel * ScanState) :=
  match l with
  | [] => io_ret (t, sc)
  | got :: l => let! r := drain_one got t sc in drain_list l r.1 r.2
  end.

Definition stats_drain (t : Tunnel) (sc : ScanState) : GS (Tunnel * ScanState) :=
  let! l := drain_fd (t_stats_fd t) in drain_list l t sc.
End Stats.
