(* ===== verification/GsEmit.v ===== *)
(** * The command uplink of the ground supervisor

    [ground/gs_supervisor.c]: the names of the operator keys, and the three senders of command
    frames, [wcmd_emit], [logsync_emit] and [recovery_emit], each a burst of identical
    datagrams into the input port of a transmitting tunnel. *)

From S2P Require Import Prelude CString Io Net GsText GsNet GsConfig GsState.

Local Open Scope list_scope.

(** ** Keys *)

Definition WCMD_MAGIC : Z := 0x57434D44.
Definition WCMD_VERSION : Z := 1.
Definition WCMD_MSG_REQ : Z := 1.
Definition WCMD_KEY_BITRATE_KBPS : Z := 1.
Definition WCMD_KEY_FPS : Z := 2.
Definition WCMD_KEY_PAYLOAD_BYTES : Z := 3.
Definition WCMD_KEY_FORCE_IDR : Z := 4.
Definition WCMD_KEY_WFB_FEC_K : Z := 5.
Definition WCMD_KEY_WFB_FEC_N : Z := 6.
Definition WCMD_KEY_WFB_MCS : Z := 7.
Definition WCMD_KEY_WFB_BANDWIDTH : Z := 8.
Definition WCMD_KEY_WFB_LDPC : Z := 9.
Definition WCMD_KEY_WFB_STBC : Z := 10.
Definition WCMD_KEY_WFB_SHORT_GI : Z := 11.
Definition WCMD_KEY_FEC_ENABLED : Z := 12.
Definition WCMD_KEY_MCS_ENABLED : Z := 13.
Definition WCMD_KEY_WFB_TXPOWER : Z := 14.
Definition WCMD_KEY_RECORD : Z := 15.
Definition WCMD_KEY_PEEK_ENABLED : Z := 16.
Definition WCMD_KEY_MAX : Z := 16.
Definition WCMD_KEY_LOG_SYNC : Z := 18.
Definition WCMD_KEY_LOG_CONTROL : Z := 19.
Definition WCMD_KEY_RETURN_APFPV : Z := 20.
Definition WCMD_KEY_RECOVERY_APFPV : Z := 64.
Definition WCMD_BURST_FRAMES : nat := 3.
Definition WCMD_RECOVERY_BURST_FRAMES : nat := 8.

(** [n == len && !strncmp(s, name, len)]: the first [n] characters are [name]. *)
Definition is_key (name s : string) (n : Z) : bool := (n =? strlen name) && starts_with name s.

Definition wcmd_key_from_str (s : string) (n : Z) : Z :=
  if is_key "bitrate_kbps" s n then WCMD_KEY_BITRATE_KBPS
  else if is_key "fps" s n then WCMD_KEY_FPS
  else if is_key "payload_bytes" s n then WCMD_KEY_PAYLOAD_BYTES
  else if is_key "force_idr" s n then WCMD_KEY_FORCE_IDR
  else if is_key "wfb_fec_k" s n then WCMD_KEY_WFB_FEC_K
  else if is_key "wfb_fec_n" s n then WCMD_KEY_WFB_FEC_N
  else if is_key "wfb_mcs" s n then WCMD_KEY_WFB_MCS
  else if is_key "wfb_bandwidth" s n then WCMD_KEY_WFB_BANDWIDTH
  else if is_key "wfb_ldpc" s n then WCMD_KEY_WFB_LDPC
  else if is_key "wfb_stbc" s n then WCMD_KEY_WFB_STBC
  else if is_key "wfb_short_gi" s n then WCMD_KEY_WFB_SHORT_GI
  else if is_key "fec_enabled" s n then WCMD_KEY_FEC_ENABLED
  else if is_key "mcs_enabled" s n then WCMD_KEY_MCS_ENABLED
  else if is_key "wfb_txpower" s n then WCMD_KEY_WFB_TXPOWER
  else if is_key "record" s n then WCMD_KEY_RECORD
  else if is_key "peek_enabled" s n then WCMD_KEY_PEEK_ENABLED
  else if is_key "return_apfpv" s n then WCMD_KEY_RETURN_APFPV
  else -1.

Definition wcmd_key_name (key : Z) : string :=
  if key =? WCMD_KEY_BITRATE_KBPS then "bitrate_kbps"
  else if key =? WCMD_KEY_FPS then "fps"
  else if key =? WCMD_KEY_PAYLOAD_BYTES then "payload_bytes"
  else if key =? WCMD_KEY_FORCE_IDR then "force_idr"
  else if key =? WCMD_KEY_WFB_FEC_K then "wfb_fec_k"
  else if key =? WCMD_KEY_WFB_FEC_N then "wfb_fec_n"
  else if key =? WCMD_KEY_WFB_MCS then "wfb_mcs"
  else if key =? WCMD_KEY_WFB_BANDWIDTH then "wfb_bandwidth"
  else if key =? WCMD_KEY_WFB_LDPC then "wfb_ldpc"
  else if key =? WCMD_KEY_WFB_STBC then "wfb_stbc"
  else if key =? WCMD_KEY_WFB_SHORT_GI then "wfb_short_gi"
  else if key =? WCMD_KEY_FEC_ENABLED then "fec_enabled"
  else if key =? WCMD_KEY_MCS_ENABLED then "mcs_enabled"
  else if key =? WCMD_KEY_WFB_TXPOWER then "wfb_txpower"
  else if key =? WCMD_KEY_RECORD then "record"
  else if key =? WCMD_KEY_PEEK_ENABLED then "peek_enabled"
  else if key =? WCMD_KEY_RETURN_APFPV then "return_apfpv"
  else "?".

(** ** Frames *)

(** The 16 bytes of a [WcmdReq] as filled by the senders. *)
Definition wcmd_frame (seq key value : Z) : list Z :=
  be32_bytes WCMD_MAGIC ++ [WCMD_VERSION; WCMD_MSG_REQ] ++ be16_bytes seq ++
  [u8 key; 0] ++ [0; 0] ++ be32_bytes (u32 value).

(** The input port of the tunnel named [name]. *)
Definition tx_port (name : string) (ts : list Tunnel) : option Z :=
  match list_find (fun t => tc_name (t_cfg t) = name /\ is_tx t = true) ts with
  | Some (_, t) => let p := tc_udp_in_port (t_cfg t) in if p <=? 0 then None else Some p
  | None => None
  end.

Section Emit.
Context {EV : GsEnv}.

(** [n] copies: how many went out, and the last error. *)
Fixpoint send_burst (n : nat) (dst : Addr) (frame : list Z) (sent last_err : Z) : GS (Z * Z) :=
  match n with
  | O => io_ret (sent, last_err)
  | S n =>
      let! r := send_bytes dst frame in
      match r with
      | None => send_burst n dst frame (sent + 1) last_err
      | Some e => send_burst n dst frame sent e
      end
  end.

Definition next_seq (e : Emit) : Emit := e <| em_seq := u16 (em_seq e + 1) |>.

(** The result of [wcmd_emit] and [recovery_emit]: 0, [errno], or -1. *)
Definition burst_rc (last_err : Z) : Z := if last_err =? 0 then -1 else last_err.

(** [wcmd_emit]: the return value, the sequence number when one was taken, the counters. *)
Definition wcmd_emit (c : GConfig) (key value : Z) (e : Emit) : GS (Z * option Z * Emit) :=
  if negb (gc_venc_enabled c) then io_ret (-1, None, e)
  else match tx_port (gc_venc_uplink c) (gc_tunnels c) with
  | None => io_ret (-1, None, e)
  | Some port =>
      let! s := open_socket in
      match s with
      | Some err => io_ret (err, None, e)
      | None =>
          let e := next_seq e in
          let! r := send_burst WCMD_BURST_FRAMES (loopback port)
                      (wcmd_frame (em_seq e) key value) 0 0 in
          let '(sent, err) := r in
          if 0 <? sent then
            io_ret (0, Some (em_seq e), e <| em_total := u64 (em_total e + 1) |>
                                         <| em_frames := u64 (em_frames e + sent) |>)
          else io_ret (burst_rc err, Some (em_seq e), e <| em_failed := u64 (em_failed e + 1) |>)
      end
  end.

(** [logsync_emit]; [time(NULL)] is the realtime clock in seconds. *)
Definition logsync_emit (c : GConfig) (e : Emit) : GS Emit :=
  if negb (gc_venc_enabled c) then io_ret e
  else match tx_port (gc_venc_uplink c) (gc_tunnels c) with
  | None => io_ret e
  | Some port =>
      let! s := open_socket in
      match s with
      | Some _ => io_ret e
      | None =>
          let e := next_seq e in
          let! t := realtime_ms in
          let! r := send_burst WCMD_BURST_FRAMES (loopback port)
                      (wcmd_frame (em_seq e) WCMD_KEY_LOG_SYNC (i32 (t / 1000))) 0 0 in
          io_ret (if 0 <? r.1 then e <| em_logsync_total := u64 (em_logsync_total e + 1) |> else e)
      end
  end.

Definition recovery_emit (c : GConfig) (e : Emit) : GS (Z * option Z * Emit) :=
  if negb (gc_recovery_enabled c) then io_ret (-1, None, e)
  else match tx_port (gc_recovery_tunnel c) (gc_tunnels c) with
  | None => io_ret (-1, None, e)
  | Some port =>
      let! s := open_socket in
      match s with
      | Some err => io_ret (err, None, e)
      | None =>
          let e := next_seq e in
          let! r := send_burst WCMD_RECOVERY_BURST_FRAMES (loopback port)
                      (wcmd_frame (em_seq e) WCMD_KEY_RECOVERY_APFPV 0) 0 0 in
          let '(sent, err) := r in
          if 0 <? sent then
            io_ret (0, Some (em_seq e), e <| em_recovery_total := u64 (em_recovery_total e + 1) |>)
          else io_ret (burst_rc err, Some (em_seq e),
                       e <| em_recovery_failed := u64 (em_recovery_failed e + 1) |>)
      end
  end.
End Emit.

(** ** Names and keys *)

(** The names of the operator keys and [wcmd_key_from_str] are inverse: a name given with
    its length is read back, and a text is accepted as a key only if its first [n] characters
    are that key's name. *)
Theorem key_name_roundtrip s n k :
  (0 < wcmd_key_from_str s n ->
     exists t, s = (wcmd_key_name (wcmd_key_from_str s n) ++ t)%string /\
       n = strlen (wcmd_key_name (wcmd_key_from_str s n))) /\
  (wcmd_key_name k <> "?"%string ->
     wcmd_key_from_str (wcmd_key_name k ++ s) (strlen (wcmd_key_name k)) = k).
Proof.
  split.
  - assert (forall name, is_key name s n = true -> exists t, s = (name ++ t)%string /\ n = strlen name)
      as Hk.
    { intros name H. apply andb_true_iff in H as [H1 H2].
      apply starts_with_split in H2 as [t ->]. exists t. split; [done|lia]. }
    unfold wcmd_key_from_str.
    repeat match goal with
    | |- context [if is_key ?x s n then _ else _] =>
        destruct (is_key x s n) eqn:?; [intros _; apply Hk; assumption|]
    end. intros H. discriminate H.
  - unfold wcmd_key_name.
    repeat match goal with
    | |- context [if k =? ?x then _ else _] =>
        destruct (Z.eqb_spec k x) as [->|_]; [intros _; reflexivity|]
    end. intros H. destruct (H eq_refl).
Qed.

Lemma key_name_roundtrip_witness :
  wcmd_key_from_str "wfb_mcs&value=3" 7 = WCMD_KEY_WFB_MCS /\
  exists t, "fps&value=60"%string = ("fps" ++ t)%string.
Proof.
  split.
  - refine (proj2 (key_name_roundtrip "&value=3" 0 WCMD_KEY_WFB_MCS) _). discriminate.
  - destruct (proj1 (key_name_roundtrip "fps&value=60" 3 0) eq_refl) as [t [H _]].
    exists t. exact H.
Defined.
