(* ===== verification/GsRadio.v ===== *)
(** * Channel switch and channel scan on the ground

    [ground/gs_supervisor_csa.c]: the announcement burst, the switch at its time, and the
    verification that ends in a commit or a revert.  [ground/gs_supervisor_scan.c]: the sweep
    over channels until a report shows traffic. *)

From S2P Require Import Prelude CString Io Net GsText GsNet GsConfig GsProc GsState GsStats GsEmit.

Local Open Scope list_scope.

Section Radio.
Context {EV : GsEnv} {ABI : CAbi}.

(** ** The switch *)

(** The announcement; [dt_ms] is filled in when it is sent. *)
Definition csa_commit_text (s : CsaState) (dt_ms t_revert_ms : Z) : string :=
  ("{" ++ commas
     [key_is "type" (quoted "csa_commit"); key_is "ver" "1";
      key_is "sess" (pretty (cs_sess s)); key_is "seq" (pretty (cs_seq_in_burst s));
      key_is "src" (quoted "ground"); key_is "target_chan" (pretty (cs_target_chan s));
      key_is "target_ht" (quoted (cs_target_ht s)); key_is "dt_to_switch_ms" (pretty dt_ms);
      key_is "t_revert_ms" (pretty t_revert_ms); key_is "prev_chan" (pretty (cs_prev_chan s));
      key_is "prev_ht" (quoted (cs_prev_ht s))] ++
   "}" ++ str1 LF)%string.

(** The time left, and the time the receiver has to come back. *)
Definition csa_dt_ms (s : CsaState) (now : Z) : Z :=
  if cs_t_switch_us s >? now then i32 (u64 (cs_t_switch_us s - now) `quot` 1000) else 0.
Definition csa_revert_ms (s : CsaState) : Z :=
  i32 (u64 (cs_t_revert_us s - cs_t_switch_us s) `quot` 1000).

(** The return value, and the state with the advanced sequence number. *)
Definition csa_send_commit_frame (c : GConfig) (s : CsaState) : GS (Z * CsaState) :=
  match tx_port (gc_venc_uplink c) (gc_tunnels c) with
  | None => io_ret (-1, s)
  | Some port =>
      let! now := now_us in
      let buf := csa_commit_text s (csa_dt_ms s now) (csa_revert_ms s) in
      let s := s <| cs_seq_in_burst := u32 (cs_seq_in_burst s + 1) |> in
      if strlen buf >=? 320 then io_ret (-1, s)
      else
        let! r := (if cs_send_open s then io_ret None else open_socket) in
        match r with
        | Some err => io_ret (err, s)
        | None =>
            let s := s <| cs_send_open := true |> in
            let! w := send_text (loopback port) buf in
            io_ret (match w with None => 0 | Some err => err end, s)
        end
  end.

Definition csa_pick_rx_tunnel_idx (c : GConfig) : Z :=
  match list_find (fun t => is_rx t = true) (gc_tunnels c) with
  | Some (i, _) => Z.of_nat i
  | None => -1
  end.

(** [c->tunnels[idx].st_pkt_all]. *)
Definition pkt_all_at (c : GConfig) (idx : Z) : Z :=
  match gc_tunnels c !! Z.to_nat idx with Some t => st_pkt_all (t_rx_stats t) | None => 0 end.

(** The adapters hop, and the cache is refreshed. *)
Fixpoint hop_all (ifaces : list string) (chan : Z) (ht : string) (ic : IfaceCache)
    : GS IfaceCache :=
  match ifaces with
  | [] => io_ret ic
  | i :: ifaces =>
      let! _ := run_iw_set_channel i chan ht in
      let! ic := iface_requery i ic in
      hop_all ifaces chan ht ic
  end.

Definition csa_burst (t_us : Z) (c : GConfig) (s : CsaState) : GS CsaState :=
  if bool_decide (cs_phase s = CSA_BURST) && (cs_next_frame_us s <=? t_us) &&
     (cs_frames_sent s <? cs_frames_total s) then
    let! r := csa_send_commit_frame c s in
    let '(rc, s) := r in
    if negb (rc =? 0) then io_ret (s <| cs_phase := CSA_IDLE |>)
    else
      let s := s <| cs_frames_sent := cs_frames_sent s + 1 |>
                 <| cs_next_frame_us := u64 (t_us + 20000) |> in
      io_ret (if cs_frames_total s <=? cs_frames_sent s then s <| cs_phase := CSA_ARMED |> else s)
  else io_ret s.

Definition csa_switch (t_us : Z) (c : GConfig) (s : CsaState) (ic : IfaceCache)
    : GS (CsaState * IfaceCache) :=
  if bool_decide (cs_phase s = CSA_ARMED) && (cs_t_switch_us s <=? t_us) then
    let idx := csa_pick_rx_tunnel_idx c in
    let s := s <| cs_baseline_rx_idx := idx |>
               <| cs_baseline_pkt_all := if 0 <=? idx then pkt_all_at c idx else 0 |>
               <| cs_baseline_pkt_us := t_us |> in
    let! ic := hop_all (cs_ifaces s) (cs_target_chan s) (cs_target_ht s) ic in
    io_ret (s <| cs_phase := CSA_VERIFY |>, ic)
  else io_ret (s, ic).

Definition csa_alive (c : GConfig) (s : CsaState) : bool :=
  (0 <=? cs_baseline_rx_idx s) &&
  negb (pkt_all_at c (cs_baseline_rx_idx s) =? cs_baseline_pkt_all s).

Definition csa_verify (t_us : Z) (c : GConfig) (s : CsaState) (ic : IfaceCache)
    : GS (CsaState * IfaceCache) :=
  if bool_decide (cs_phase s = CSA_VERIFY) && (cs_t_revert_us s <=? t_us) then
    let! ic := (if csa_alive c s || cs_no_revert s then io_ret ic
                else hop_all (cs_ifaces s) (cs_prev_chan s) (cs_prev_ht s) ic) in
    io_ret (s <| cs_phase := CSA_IDLE |>, ic)
  else io_ret (s, ic).

Definition csa_tick (t_us : Z) (g : Gs) : GS Gs :=
  let c := gs_cfg g in
  let! s := csa_burst t_us c (gs_csa g) in
  let! r := csa_switch t_us c s (gs_ifaces g) in
  let! r := csa_verify t_us c r.1 r.2 in
  io_ret (g <| gs_csa := r.1 |> <| gs_ifaces := r.2 |>).

(** ** The scan *)

Fixpoint hop_quiet (ifaces : list string) (chan : Z) (ht : string) : GS unit :=
  match ifaces with
  | [] => io_ret tt
  | i :: ifaces => let! _ := run_iw_set_channel i chan ht in hop_quiet ifaces chan ht
  end.

(** Reports from before the hop are passed on unread. *)
Fixpoint forward_all (dst : option Addr) (l : list string) : GS unit :=
  match l with
  | [] => io_ret tt
  | s :: l =>
      let s := take_chars 4096 s in
      if nonempty s then let! _ := forward dst s in forward_all dst l else io_ret tt
  end.

Definition scan_drain (c : GConfig) (idx : Z) : GS unit :=
  if 0 <=? idx then
    match gc_tunnels c !! Z.to_nat idx with
    | Some rx =>
        if 0 <=? t_stats_fd rx then
          let! l := drain_fd (t_stats_fd rx) in forward_all (t_fwd rx) l
        else io_ret tt
    | None => io_ret tt
    end
  else io_ret tt.

Definition scan_apply_step_drained (c : GConfig) (i : Z) (s : ScanState) : GS ScanState :=
  if i <? 0 then io_ret s
  else match sc_steps s !! Z.to_nat i with
  | None => io_ret s
  | Some (chan, ht) =>
      let! _ := hop_quiet (sc_ifaces s) chan ht in
      let s := s <| sc_cur_step := i |> <| sc_step_saw_traffic := false |> in
      let! _ := scan_drain c (sc_baseline_rx_idx s) in
      let! now := now_us in
      io_ret (s <| sc_step_started_us := now |>)
  end.

Fixpoint requery_all (ifaces : list string) (ic : IfaceCache) : GS IfaceCache :=
  match ifaces with
  | [] => io_ret ic
  | i :: ifaces => let! ic := iface_requery i ic in requery_all ifaces ic
  end.

Definition scan_tick (t_us : Z) (g : Gs) : GS Gs :=
  let s := gs_scan g in
  if negb (bool_decide (sc_phase s = SCAN_RUNNING)) then io_ret g
  else if t_us <? u64 (sc_step_started_us s + sc_step_dwell_us s) then io_ret g
  else
    let s := s <| sc_hops_done := sc_hops_done s + 1 |> in
    if sc_step_saw_traffic s then
      let found := default (0, EmptyString) (sc_steps s !! Z.to_nat (sc_cur_step s)) in
      let s := s <| sc_found_chan := found.1 |> <| sc_found_ht := found.2 |>
                 <| sc_phase := SCAN_FOUND |> in
      let! ic := requery_all (sc_ifaces s) (gs_ifaces g) in
      io_ret (g <| gs_scan := s |> <| gs_ifaces := ic |>)
    else
      let next := sc_cur_step s + 1 in
      if Z.of_nat (length (sc_steps s)) <=? next then
        let s := s <| sc_phase := SCAN_STOPPED |> in
        let! ic := requery_all (sc_ifaces s) (gs_ifaces g) in
        io_ret (g <| gs_scan := s |> <| gs_ifaces := ic |>)
      else
        let! s := scan_apply_step_drained (gs_cfg g) next s in
        io_ret (g <| gs_scan := s <| sc_step_saw_traffic := false |> |>).
End Radio.
