(* ===== verification/GsTunnel.v ===== *)
(** * Lifecycle of the tunnels

    [ground/gs_supervisor.c]: [stats_listener_open], [tunnel_spawn], [tunnel_request_stop],
    [tunnel_on_exit], [supervisor_reap], [supervisor_stop_all_tunnels], [supervisor_bring_up]
    and [supervisor_take_down]; the [wfb_cmd_*] queries of a running [wfb_tx]; and the part of
    [supervisor_tick] that concerns one tunnel. *)

From S2P Require Import Prelude CString Decimal WfbJson Io Net GsText GsNet GsConfig GsProc.

Local Open Scope list_scope.

Definition GS_BACKOFF_MS : list Z := [500; 1000; 2000; 4000; 8000; 16000; 30000].
Definition GS_BACKOFF_LEN : Z := 7.
Definition GS_STOP_GRACE_MS : Z := 1500.

Section Tunnels.
Context {EV : GsEnv} {ABI : CAbi}.

(** ** The listener of a tunnel's statistics *)

(** [socket], [bind] and [getsockname] fail alike. *)
Definition stats_listener_open (t : Tunnel) : GS Tunnel :=
  if 0 <=? t_stats_fd t then io_ret t
  else
    let! r := call GOpenStats ge_open_stats in
    io_ret match r with
      | None => t
      | Some (fd, port) =>
          t <| t_stats_fd := fd |> <| t_stats_port := u16 port |>
            <| t_stats_arg := ("127.0.0.1:" ++ pretty (u16 port))%string |>
            <| t_fwd := if nonempty (tc_stats_out (t_cfg t))
                        then parse_host_port (tc_stats_out (t_cfg t)) else None |>
            <| t_tap := if nonempty (tc_stats_tap (t_cfg t))
                        then parse_host_port (tc_stats_tap (t_cfg t)) else None |>
      end.

(** ** Start *)

(** The counters that a new process restarts. *)
Definition reset_counters (t : Tunnel) : Tunnel :=
  let t := t <| t_msg_count := 0 |> <| t_interval_ms := 0 |> <| t_first_us := 0 |>
             <| t_last_us := 0 |> in
  if is_rx t then t <| t_rx_stats := rx_stats_zero |> else t <| t_tx_stats := tx_stats_zero |>.

Definition build_argv (t : Tunnel) (key_file : string) : option (list string) :=
  ab_argv <$> (if is_rx t then build_argv_rx t key_file ab_empty
               else build_argv_tx t key_file ab_empty).

(** The parent's side after a successful [fork]. *)
Definition tunnel_started (pid now : Z) (t : Tunnel) : Tunnel :=
  let t := t <| t_pid := pid |> <| t_state := TS_STARTING |> <| t_started_us := now |>
             <| t_autostart_on_exit := true |> <| t_stop_deadline_ms := 0 |> in
  let t := if is_tx t && (0 <? tc_control_port (t_cfg t))
           then t <| t_tx_init_query_after_us := u64 (now + 500000) |> else t in
  let t := reset_counters t in
  t <| t_state := TS_RUNNING |> <| t_restart_count := t_restart_count t + 1 |>.

Definition tunnel_spawn (key_file : string) (t : Tunnel) : GS (Z * Tunnel) :=
  let! t := stats_listener_open t in
  match build_argv t key_file with
  | None => io_ret (-1, t <| t_state := TS_FAILED |>)
  | Some argv =>
      let! r := fork_exec argv in
      match r with
      | None => io_ret (-1, t <| t_state := TS_FAILED |>)
      | Some pid => let! now := now_us in io_ret (0, tunnel_started pid now t)
      end
  end.

(** ** Stop and exit *)

Definition tunnel_request_stop (t : Tunnel) : GS Tunnel :=
  if t_pid t <=? 0 then io_ret (t <| t_state := TS_STOPPED |> <| t_autostart_on_exit := false |>)
  else
    let! now := now_ms in
    let t := t <| t_autostart_on_exit := false |>
               <| t_stop_deadline_ms := u64 (now + GS_STOP_GRACE_MS) |> in
    let! _ := kill (t_pid t) SIGTERM in
    io_ret t.

Definition exit_code_of (st : WStatus) : Z :=
  match st with WExited c => c | WSignaled s => - s | WOther => -1 end.

Definition backoff_ms (idx : Z) : Z := nth (Z.to_nat idx) GS_BACKOFF_MS 0.

Definition tunnel_on_exit (st : WStatus) (t : Tunnel) : GS Tunnel :=
  let! now := now_us in
  let t := t <| t_exited_us := now |> <| t_exit_code := exit_code_of st |> <| t_pid := -1 |>
             <| t_stop_deadline_ms := 0 |> in
  if negb (t_autostart_on_exit t) then
    io_ret (t <| t_state := TS_STOPPED |> <| t_backoff_idx := 0 |>)
  else
    let idx := if t_backoff_idx t >=? GS_BACKOFF_LEN then GS_BACKOFF_LEN - 1 else t_backoff_idx t in
    let! now := now_ms in
    let t := t <| t_next_start_ms := u64 (now + backoff_ms idx) |> in
    let t := if t_backoff_idx t <? GS_BACKOFF_LEN - 1
             then t <| t_backoff_idx := t_backoff_idx t + 1 |> else t in
    io_ret (t <| t_state := TS_BACKOFF |>).

(** [tunnels[i] = f(tunnels[i])]. *)
Definition update_at {A} (i : nat) (f : A -> GS A) (l : list A) : GS (list A) :=
  match l !! i with
  | None => io_ret l
  | Some x => let! y := f x in io_ret (<[i := y]> l)
  end.

(** The tunnel a reaped process belonged to. *)
Definition reap_one (pid : Z) (st : WStatus) (ts : list Tunnel) : GS (list Tunnel) :=
  match list_find (fun t => t_pid t = pid) ts with
  | None => io_ret ts
  | Some (i, _) => update_at i (tunnel_on_exit st) ts
  end.

(** The loop over the terminated children. *)
Fixpoint reap_list (l : list (Z * WStatus)) (ts : list Tunnel) : GS (list Tunnel) :=
  match l with
  | [] => io_ret ts
  | (pid, st) :: l =>
      if pid <=? 0 then io_ret ts
      else let! ts := reap_one pid st ts in reap_list l ts
  end.

Definition supervisor_reap (ts : list Tunnel) : GS (list Tunnel) :=
  let! l := call GReap ge_reap in reap_list l ts.

(** ** Stopping everything *)

Fixpoint map_io {A} (f : A -> GS A) (l : list A) : GS (list A) :=
  match l with
  | [] => io_ret []
  | x :: l => let! y := f x in let! l := map_io f l in io_ret (y :: l)
  end.

Definition term_tunnel (t : Tunnel) : GS Tunnel :=
  if 0 <? t_pid t then
    let t := t <| t_autostart_on_exit := false |> in
    let! r := kill (t_pid t) SIGTERM in
    match r with
    | KillOk =>
        let! now := now_ms in io_ret (t <| t_stop_deadline_ms := u64 (now + GS_STOP_GRACE_MS) |>)
    | _ => io_ret t
    end
  else io_ret t.

Fixpoint stop_wait (fuel : nat) (deadline : Z) (ts : list Tunnel) : GS (list Tunnel) :=
  match fuel with
  | O => let! _ := io_log GStuck in io_ret ts
  | S fuel =>
      let! t := now_ms in
      if t <? deadline then
        if existsb (fun t => 0 <? t_pid t) ts then
          let! ts := supervisor_reap ts in
          let! _ := sleep_ms 50 in
          stop_wait fuel deadline ts
        else io_ret ts
      else io_ret ts
  end.

Definition kill_survivor (t : Tunnel) : GS Tunnel :=
  if 0 <? t_pid t then
    let! _ := kill (t_pid t) SIGKILL in
    let! _ := waitpid_blocking (t_pid t) in
    io_ret (t <| t_pid := -1 |>)
  else io_ret t.

Definition supervisor_stop_all_tunnels (c : GConfig) : GS GConfig :=
  let! ts := map_io term_tunnel (gc_tunnels c) in
  let! t := now_ms in
  let! ts := stop_wait (turns (GS_STOP_GRACE_MS + 500))
               (u64 (t + (GS_STOP_GRACE_MS + 500))) ts in
  let! ts := map_io kill_survivor ts in
  io_ret (c <| gc_tunnels := ts |>).

Definition supervisor_bring_up (c : GConfig) (ic : IfaceCache) : GS (Z * GConfig * IfaceCache) :=
  let! _ := run_system_block (gc_system_up c) in
  let! r := wait_iface_state c 5000 100 in
  if negb (r =? 0) then
    let! _ := run_system_block (gc_system_down c) in
    io_ret (-1, c <| gc_system_state := SYS_UP_FAILED |>, ic)
  else
    let! ic := iface_state_init c ic in
    io_ret (0, c <| gc_system_state := SYS_UP |>, ic).

Definition supervisor_take_down (c : GConfig) : GS GConfig :=
  let! c := supervisor_stop_all_tunnels c in
  let! _ := run_system_block (gc_system_down c) in
  io_ret (c <| gc_system_state := SYS_DOWN |>).

(** ** Queries of the transmitter *)

Definition wfb_cmd_next_req_id : GS Z := fun w =>
  let id := u32 (w_req_id w + 1) in (id, w <| w_req_id := id |>).

(** The return value of [wfb_cmd_round_trip], with the bytes received and [*out_rc]. *)
Definition wfb_cmd_round_trip (control_port req_id : Z) (c : Ctl) (resp_cap : nat)
    : GS (Z * list Z * Z) :=
  let! s := open_socket in
  match s with
  | Some _ => io_ret (-1, [], 0xFFFFFFFF)
  | None =>
      let! ok := call (GCtl (u16 control_port) req_id c) ge_ctl_sent in
      if negb ok then io_ret (-1, [], 0xFFFFFFFF)
      else
        let! r := call GCtlRecv ge_ctl_reply in
        match take resp_cap <$> r with
        | None | Some [] => io_ret (0, [], 0xFFFFFFFF)
        | Some bs =>
            io_ret (Z.of_nat (length bs), bs,
                    if (8 <=? length bs)%nat then be32_at bs 4 else 0xFFFFFFFF)
        end
  end.

Definition wfb_cmd_refresh_radio (t : Tunnel) : GS (Z * Tunnel) :=
  if tc_control_port (t_cfg t) <=? 0 then io_ret (-1, t)
  else
    let! id := wfb_cmd_next_req_id in
    let! r := wfb_cmd_round_trip (tc_control_port (t_cfg t)) id CtlGetRadio 64 in
    let '(n, bs, rc) := r in
    if (n <? 15) || negb (rc =? 0) then io_ret (-1, t)
    else
      let b := radio_of_bytes (drop 8 bs) in
      let! now := now_us in
      io_ret (0, on_tx (fun p => p <| tp_stbc := rb_stbc b |> <| tp_ldpc := rb_ldpc b |>
        <| tp_short_gi := rb_short_gi b |> <| tp_bandwidth_mhz := rb_bandwidth b |>
        <| tp_mcs_index := rb_mcs_index b |> <| tp_vht_mode := rb_vht_mode b |>
        <| tp_vht_nss := rb_vht_nss b |> <| tp_radio_cache_have := true |>
        <| tp_radio_cache_us := now |>) t).

Definition wfb_cmd_refresh_fec (t : Tunnel) : GS (Z * Tunnel) :=
  if tc_control_port (t_cfg t) <=? 0 then io_ret (-1, t)
  else
    let! id := wfb_cmd_next_req_id in
    let! r := wfb_cmd_round_trip (tc_control_port (t_cfg t)) id CtlGetFec 64 in
    let '(n, bs, rc) := r in
    if (n <? 12) || negb (rc =? 0) then io_ret (-1, t)
    else
      io_ret (0, on_tx (fun p => p <| tp_fec_k := byte_at bs 8 |> <| tp_fec_n := byte_at bs 9 |>
        <| tp_fec_timeout_ms := be16_at bs 10 |> <| tp_fec_cache_have := true |>) t).

(** ** One tunnel's turn of [supervisor_tick] *)

Definition tick_kill (t_ms : Z) (t : Tunnel) : GS Tunnel :=
  if negb (t_stop_deadline_ms t =? 0) && (t_stop_deadline_ms t <=? t_ms) && (0 <? t_pid t) then
    let! _ := kill (t_pid t) SIGKILL in io_ret (t <| t_stop_deadline_ms := 0 |>)
  else io_ret t.

Definition tick_respawn (key_file : string) (t_ms : Z) (t : Tunnel) : GS Tunnel :=
  if bool_decide (t_state t = TS_BACKOFF) && (t_next_start_ms t <=? t_ms) then
    let! r := tunnel_spawn key_file t in io_ret r.2
  else io_ret t.

Definition tick_query (t_us : Z) (t : Tunnel) : GS Tunnel :=
  if negb (t_tx_init_query_after_us t =? 0) && (t_tx_init_query_after_us t <=? t_us) &&
     (0 <? t_pid t) && bool_decide (t_state t = TS_RUNNING) then
    let t := t <| t_tx_init_query_after_us := 0 |> in
    let! r := wfb_cmd_refresh_radio t in
    let t := if r.1 =? 0 then r.2 else r.2 <| t_tx_init_query_after_us := u64 (t_us + 1000000) |> in
    let! r := wfb_cmd_refresh_fec t in
    io_ret r.2
  else io_ret t.

Definition tick_tunnel (key_file : string) (t_ms t_us : Z) (t : Tunnel) : GS Tunnel :=
  let! t := tick_kill t_ms t in
  let! t := tick_respawn key_file t_ms t in
  tick_query t_us t.
End Tunnels.
