(* ===== verification/GsJson.v ===== *)
(** * The status documents of the ground supervisor

    [json_emit_tunnel] and [json_emit_status] of [ground/gs_supervisor_http.c], and the bodies
    of the read-only routes.  A document that does not fit its buffer is [None], the return
    value -1 of [APP]; the clock readings after such an overflow are the only difference. *)

From S2P Require Import Prelude CFloat CString Strtod Decimal Io Net.
From S2P Require Import GsText GsNet GsConfig GsProc GsState GsStats GsTunnel GsEmit.

Local Open Scope list_scope.

Definition tunnel_state_name (s : TunnelState) : string :=
  match s with
  | TS_STOPPED => "stopped" | TS_STARTING => "starting" | TS_RUNNING => "running"
  | TS_BACKOFF => "backoff" | TS_FAILED => "failed"
  end.

Definition system_state_name (s : SystemState) : string :=
  match s with SYS_DOWN => "down" | SYS_UP => "up" | SYS_UP_FAILED => "up_failed" end.

Definition key_int (key : string) (v : Z) : string := key_is key (pretty v).
Definition key_str (key v : string) : string := key_is key (quoted v).
Definition bool_text (b : bool) : string := if b then "true" else "false".
Definition obj (fields : list string) : string := ("{" ++ commas fields ++ "}")%string.
Definition arr (items : list string) : string := ("[" ++ commas items ++ "]")%string.
Definition key_obj (key : string) (fields : list string) : string := key_is key (obj fields).

(** [%.1f] of [(double)us / 1e6]. *)
Definition seconds_text (us : Z) : string := printf_f 1 (F64.div (F64.of_Z us) (F64.of_Z 1000000)).

(** The received-MCS histogram of the last ten seconds. *)
Definition mcs_sum (nsec : Z) (s : RxStats) : list Z :=
  fold_left (fun win sl =>
    let sec := nth sl (st_mcs_win_sec s) 0 in
    if (sec =? 0) || (10 <=? u64 (nsec - sec)) then win
    else zip_with (fun w x => u32 (w + x)) win (nth sl (st_mcs_win s) []))
  (seq 0 10) (replicate 16 0).

Definition mcs_hist (win : list Z) : list string :=
  let items := omap (fun m => let w := nth m win 0 in
      if w =? 0 then None else Some (key_int (pretty (Z.of_nat m)) w)) (seq 0 16) in
  match items with [] => [] | _ => [key_obj "mcs_hist" items] end.

Definition only (b : bool) (fields : list string) : list string := if b then fields else [].

(** The fields shown only in full. *)
Definition full_fields (t : Tunnel) : list string :=
  let c := t_cfg t in
  let p := t_tx t in
  only (nonempty (tc_binary c)) [key_str "binary" (tc_binary c)] ++
  (if is_rx t then
     only (nonempty (tc_udp_out_ip c))
       [key_str "udp_out" (tc_udp_out_ip c ++ ":" ++ pretty (tc_udp_out_port c))] ++
     only (nonempty (tc_stats_out c)) [key_str "stats_out" (tc_stats_out c)]
   else
     [key_int "udp_in_port" (tc_udp_in_port c); key_int "control_port" (tc_control_port c);
      key_obj "fec" [key_int "k" (tp_fec_k p); key_int "n" (tp_fec_n p);
        key_int "timeout_ms" (tp_fec_timeout_ms p); key_is "have" (bool_text (tp_fec_cache_have p))];
      key_obj "radio" [key_int "bw" (tp_bandwidth_mhz p); key_int "mcs" (tp_mcs_index p);
        key_int "stbc" (tp_stbc p); key_int "ldpc" (tp_ldpc p); key_int "short_gi" (tp_short_gi p);
        key_int "vht_mode" (tp_vht_mode p); key_int "vht_nss" (tp_vht_nss p);
        key_is "have" (bool_text (tp_radio_cache_have p))]]) ++
  [key_is "autostart" (bool_text (tc_autostart c))].

Definition rx_stat_fields (t : Tunnel) (nsec : Z) : list string :=
  let s := t_rx_stats t in
  let a := t_probe_acc t in
  [key_int "pkt_all" (st_pkt_all s); key_int "pkt_lost" (st_pkt_lost s);
   key_int "pkt_fec_recovered" (st_pkt_fec s); key_int "pkt_outgoing" (st_pkt_outgoing s);
   key_int "pkt_dec_err" (st_pkt_dec_err s); key_int "pkt_uniq" (st_pkt_uniq s);
   key_int "outgoing_bytes" (st_pkt_bytes s); key_int "ant_count" (st_ant_count s)] ++
  only (negb (st_rssi_best s =? INT_MIN)) [key_int "rssi_best" (st_rssi_best s)] ++
  mcs_hist (mcs_sum nsec s) ++
  only (tc_probe (t_cfg t))
    [key_obj "probe" [key_int "window_ms" (tc_probe_window_ms (t_cfg t));
       key_int "emitted" (probe_emit_count a); key_int "stale_dropped" (probe_drop_count a)]].

Definition tx_stat_fields (s : TxStats) : list string :=
  [key_int "pkts_in" (st_tx_pkts_in s); key_int "pkts_out" (st_tx_pkts_out s);
   key_int "bytes_in" (st_tx_bytes_in s); key_int "bytes_out" (st_tx_bytes_out s);
   key_int "pkts_drop" (st_tx_drop s); key_int "pkts_trunc" (st_tx_trunc s);
   key_int "fec_timeouts" (st_tx_fec_timeouts s)].

(** A document in a buffer of [cap] bytes. *)
Definition in_buffer (cap : Z) (s : string) : option string := if strlen s <? cap then Some s else None.

Section Json.
Context {EV : GsEnv}.

Definition uptime_us (t : Tunnel) : GS Z :=
  if negb (t_started_us t =? 0) && (0 <? t_pid t) then
    let! now := now_us in io_ret (u64 (now - t_started_us t))
  else io_ret 0.

Definition age_ms (t : Tunnel) : GS Z :=
  if t_last_us t =? 0 then io_ret 0
  else
    let! now := now_us in
    io_ret (if now >? t_last_us t then u64 (now - t_last_us t) `quot` 1000 else 0).

Definition json_emit_tunnel (cap : Z) (t : Tunnel) (full : bool) : GS (option string) :=
  let c := t_cfg t in
  let! up := uptime_us t in
  let! age := age_ms t in
  let! nsec := (if is_rx t then let! now := now_us in io_ret (now `quot` 1000000) else io_ret 0) in
  io_ret (in_buffer cap (obj (
    [key_str "name" (tc_name c); key_str "role" (tc_role c);
     key_str "state" (tunnel_state_name (t_state t)); key_int "pid" (t_pid t);
     key_int "restarts" (t_restart_count t); key_int "link_id" (tc_link_id c);
     key_int "radio_port" (tc_radio_port c); key_is "interfaces" (arr (map quoted (tc_ifaces c)))] ++
    only (negb (t_started_us t =? 0)) [key_is "uptime_s" (seconds_text up)] ++
    only (negb (t_exit_code t =? 0) || negb (t_exited_us t =? 0)) [key_int "last_exit" (t_exit_code t)] ++
    only full (full_fields t) ++
    [key_obj "stats" (
       [key_int "msg_count" (t_msg_count t); key_int "interval_ms" (t_interval_ms t)] ++
       (if is_rx t then rx_stat_fields t nsec else tx_stat_fields (t_tx_stats t)) ++
       [key_int "age_ms" age] ++
       only (negb (t_stats_port t =? 0)) [key_int "listen_port" (t_stats_port t)])]))).

(** The tunnels of a list into the room that is left; each is preceded by a comma but the
    first. *)
Fixpoint emit_tunnels (room : Z) (first full : bool) (ts : list Tunnel) : GS (option string) :=
  match ts with
  | [] => io_ret (Some EmptyString)
  | t :: ts =>
      let sep := (if first then EmptyString else ",")%string in
      let! d := json_emit_tunnel (room - strlen sep) t full in
      match d with
      | None => io_ret None
      | Some d =>
          let s := (sep ++ d)%string in
          let! r := emit_tunnels (room - strlen s) false full ts in
          io_ret ((fun r => s ++ r)%string <$> r)
      end
  end.

Definition status_head (c : GConfig) (e : Emit) (up_us : Z) : string :=
  ("{" ++ commas
     [key_is "uptime_s" (seconds_text up_us);
      key_str "system_state" (system_state_name (gc_system_state c));
      key_obj "wcmd" [key_int "emit_total" (em_total e); key_int "emit_frames" (em_frames e);
        key_int "rate_limited" (em_rate_limit e); key_int "emit_failed" (em_failed e);
        key_int "burst_frames" (Z.of_nat WCMD_BURST_FRAMES)];
      key_obj "recovery" [key_int "emit_total" (em_recovery_total e);
        key_int "emit_failed" (em_recovery_failed e);
        key_int "burst_frames" (Z.of_nat WCMD_RECOVERY_BURST_FRAMES)];
      quoted "tunnels" ++ ":["])%string.

Definition json_emit_status (cap : Z) (c : GConfig) (e : Emit) (up_us : Z) : GS (option string) :=
  match in_buffer cap (status_head c e up_us) with
  | None => io_ret None
  | Some h =>
      let! ts := emit_tunnels (cap - strlen h) true false (gc_tunnels c) in
      io_ret (s ← ts; in_buffer cap (h ++ s ++ "]}"))
  end.

(** ** The read-only routes *)

Definition API_BODY : Z := 8192.

Definition shown (d : option string) : Z := match d with Some _ => 200 | None => 500 end.

Definition show_status (c : GConfig) (e : Emit) (startup_us : Z) : GS Z :=
  let! now := now_us in
  let! d := json_emit_status API_BODY c e (u64 (now - startup_us)) in
  io_ret (shown d).

Definition show_tunnels (c : GConfig) : GS Z :=
  let! d := emit_tunnels (API_BODY - 1) true true (gc_tunnels c) in
  io_ret (shown d).

Definition show_tunnel (t : Tunnel) : GS Z :=
  let! d := json_emit_tunnel API_BODY t true in
  io_ret (shown d).

(** *** The reports of a scan and of a channel switch

    Their pieces are appended with [p += snprintf(body + p, sizeof(body) - p, ...)], which nobody
    checks: a report that does not fit its buffer would be written past its end. *)

Definition scan_phase_num (p : ScanPhase) : Z :=
  match p with SCAN_IDLE => 0 | SCAN_RUNNING => 1 | SCAN_FOUND => 2 | SCAN_STOPPED => 3 end.

Definition csa_phase_num (p : CsaPhase) : Z :=
  match p with CSA_IDLE => 0 | CSA_BURST => 1 | CSA_ARMED => 2 | CSA_VERIFY => 3 end.

(** [(double)((int64_t)until - (int64_t)now) / 1000.0]. *)
Definition ms_left (until now : Z) : fp :=
  F64.div (F64.of_Z (i64 (i64 until - i64 now))) (F64.of_Z 1000).

(** [/api/v1/scan]. *)
Definition SCAN_BODY : Z := 768.
Definition scan_report (now : Z) (s : ScanState) : string :=
  let left := if bool_decide (sc_phase s = SCAN_RUNNING)
              then ms_left (u64 (sc_step_started_us s + sc_step_dwell_us s)) now else f0 in
  let cur := default (-1, EmptyString) (sc_steps s !! Z.to_nat (sc_cur_step s)) in
  obj [key_int "phase" (scan_phase_num (sc_phase s)); key_int "sess" (sc_sess s);
       key_int "cur_step" (sc_cur_step s); key_int "step_count" (Z.of_nat (length (sc_steps s)));
       key_int "hops_done" (sc_hops_done s); key_is "dwell_left_ms" (printf_f 0 left);
       key_int "cur_chan" cur.1; key_str "cur_ht" cur.2; key_int "found_chan" (sc_found_chan s);
       key_str "found_ht" (sc_found_ht s); key_is "ifaces" (arr (map quoted (sc_ifaces s)));
       key_is "chans" (arr (map (fun st => pretty st.1) (sc_steps s)))].

(** [/api/v1/csa]. *)
Definition CSA_BODY : Z := 400.
Definition csa_report (now : Z) (s : CsaState) : string :=
  let to_switch := if bool_decide (cs_phase s = CSA_BURST) || bool_decide (cs_phase s = CSA_ARMED)
                   then ms_left (cs_t_switch_us s) now else f0 in
  let to_revert := if bool_decide (cs_phase s = CSA_VERIFY) then ms_left (cs_t_revert_us s) now
                   else f0 in
  obj [key_int "phase" (csa_phase_num (cs_phase s)); key_int "sess" (cs_sess s);
       key_int "frames_sent" (cs_frames_sent s); key_int "frames_total" (cs_frames_total s);
       key_int "target_chan" (cs_target_chan s); key_str "target_ht" (cs_target_ht s);
       key_int "prev_chan" (cs_prev_chan s); key_str "prev_ht" (cs_prev_ht s);
       key_is "ifaces" (arr (map quoted (cs_ifaces s)));
       key_is "t_to_switch_ms" (printf_f 1 to_switch); key_is "t_to_revert_ms" (printf_f 1 to_revert);
       key_is "no_revert" (bool_text (cs_no_revert s))].

(** The answer to [/api/v1/system/csa], from the state it armed. *)
Definition csa_answer (lead_ms t_revert_ms : Z) (s : CsaState) : string :=
  obj [key_is "ok" "true"; key_int "sess" (cs_sess s); key_int "chan" (cs_target_chan s);
       key_str "ht" (cs_target_ht s); key_is "ifaces" (arr (map quoted (cs_ifaces s)));
       key_int "lead_ms" lead_ms; key_int "t_revert_ms" t_revert_ms;
       key_int "prev_chan" (cs_prev_chan s); key_str "prev_ht" (cs_prev_ht s);
       key_is "no_revert" (bool_text (cs_no_revert s))].

(** The code of a report written into [cap] bytes; -1 stands for running past the end, by the
    next piece or by the sending of more bytes than there are. *)
Definition reported (cap : Z) (s : string) : Z := if strlen s <? cap then 200 else -1.

Definition show_scan (s : ScanState) : GS Z :=
  let! now := now_us in io_ret (reported SCAN_BODY (scan_report now s)).

Definition show_csa (s : CsaState) : GS Z :=
  let! now := now_us in io_ret (reported CSA_BODY (csa_report now s)).

(** [/api/v1/ifaces], one adapter. *)
Definition iface_json (now : Z) (s : IfaceState) : string :=
  let age := if if_last_query_us s =? 0 then F64.of_Z (-1)
             else F64.div (F64.of_Z (u64 (now - if_last_query_us s))) (F64.of_Z 1000) in
  obj [key_str "name" (if_name s); key_int "chan" (if_chan s); key_int "freq_mhz" (if_freq_mhz s);
       key_str "ht" (if_ht s); key_int "txpower_mbm" (if_txpower_mbm s);
       key_is "age_ms" (printf_f 0 age); key_int "iw_rc" (if_last_rc s)].
End Json.
