(* ===== verification/GsApi.v ===== *)
(** * The HTTP interface of the ground supervisor

    [api_handle] of [ground/gs_supervisor_http.c]: the request line, and every route that acts
    on the supervisor.  A route returns the status code of its answer and the new state; the
    bodies of the read-only routes are in [GsJson]. *)

From S2P Require Import Prelude CString WfbJson Io Net GsText GsNet GsConfig GsProc.
From S2P Require Import GsState GsStats GsEmit GsRadio GsTunnel GsJson.

Local Open Scope list_scope.

Definition GS_CSA_MAX_IFACES : nat := 4.
Definition SCAN_MAX_STEPS : nat := 32.

(** ** The request line *)

(** Path and query string, or the status code of the refusal. *)
Definition parse_request (buf : string) : (string * option string) + Z :=
  if negb (starts_with "GET " buf) then inr 405
  else
    let '(line, tail) := span_until (fun c => aeq c SP) (drop_chars 4 buf) in
    match tail with
    | EmptyString => inr 400
    | _ =>
        let '(path, q) := span_until (fun c => aeq c (ch 63)) line in
        let qstr := match q with EmptyString => None | String _ s => Some s end in
        inl (if String.eqb path "/request/idr" then ("/api/v1/cmd", Some "key=force_idr")
             else (path, qstr))%string
    end.

(** ** Lists in query strings *)

Fixpoint split_commas (max : nat) (bad : string -> bool) (s : string) : option (list string) :=
  match s with
  | EmptyString => Some []
  | _ =>
      match max with
      | O => None
      | S max =>
          let '(w, rest) := span_until (fun c => aeq c COMMA) s in
          if bad w then None
          else l ← split_commas max bad (drop_chars 1 rest); Some (w :: l)
      end
  end.

(** The same without a complaint about what follows the last place. *)
Fixpoint split_commas_upto (max : nat) (bad : string -> bool) (s : string)
    : option (list string) :=
  match s, max with
  | EmptyString, _ | _, O => Some []
  | _, S max =>
      let '(w, rest) := span_until (fun c => aeq c COMMA) s in
      if bad w then None
      else l ← split_commas_upto max bad (drop_chars 1 rest); Some (w :: l)
  end.

Definition bad_len (cap : Z) (w : string) : bool := (strlen w =? 0) || (strlen w >=? cap).
Definition iface_list (s : string) : option (list string) :=
  split_commas GS_CSA_MAX_IFACES (bad_len IFNAMSIZ) s.

Section Api.
Context {EV : GsEnv} {ABI : CAbi}.

(** A channel is read from at most seven characters; the character after them is skipped. *)
Fixpoint chan_list (max : nat) (s : string) : option (list Z) :=
  match s with
  | EmptyString => Some []
  | _ =>
      match max with
      | O => None
      | S max =>
          let tok := (span_until (fun c => aeq c COMMA) (take_chars 7 s)).1 in
          let rest := drop_chars (String.length tok) s in
          match strtol tok with
          | Some (v, _) =>
              if (v <? 1) || (v >? 200) then None
              else l ← chan_list max (drop_chars 1 rest); Some (i32 v :: l)
          | None => None
          end
      end
  end.

Definition known_iface (c : GConfig) (ifc : string) : bool :=
  existsb (fun t => bool_decide (ifc ∈ tc_ifaces (t_cfg t))) (gc_tunnels c).

(** [int x = d; (void)qs_get_int(qstr, key, &x)]. *)
Definition qs_int_or (d : Z) (qs : option string) (key : string) : Z :=
  default d (qs_get_int qs key).

(** ** Lifecycle of the system *)

(** The tunnels to start after a bring-up, and how many started. *)
Fixpoint spawn_autostart (key_file : string) (ts : list Tunnel) : GS (Z * list Tunnel) :=
  match ts with
  | [] => io_ret (0, [])
  | t :: ts =>
      let! r := (if tc_autostart (t_cfg t) && (t_pid t <=? 0) then
                   tunnel_spawn key_file (t <| t_backoff_idx := 0 |> <| t_next_start_ms := 0 |>)
                 else io_ret (-1, t)) in
      let! rs := spawn_autostart key_file ts in
      io_ret ((if r.1 =? 0 then 1 else 0) + rs.1, r.2 :: rs.2)
  end.

Definition bring_up_and_spawn (c : GConfig) (g : Gs) : GS (Z * Gs) :=
  let! r := supervisor_bring_up c (gs_ifaces g) in
  let '(rc, c, ic) := r in
  let g := g <| gs_cfg := c |> <| gs_ifaces := ic |> in
  if negb (rc =? 0) then io_ret (503, g)
  else
    let! s := spawn_autostart (gc_key_file c) (gc_tunnels c) in
    io_ret (200, set_tunnels s.2 g).

Definition route_reinit (g : Gs) : GS (Z * Gs) :=
  let! c := supervisor_stop_all_tunnels (gs_cfg g) in
  let! _ := run_system_block (gc_system_down c) in
  bring_up_and_spawn c g.

Definition route_system_up (g : Gs) : GS (Z * Gs) :=
  if bool_decide (gc_system_state (gs_cfg g) = SYS_UP) then io_ret (409, g)
  else bring_up_and_spawn (gs_cfg g) g.

Definition route_system_down (g : Gs) : GS (Z * Gs) :=
  let! c := supervisor_take_down (gs_cfg g) in
  io_ret (200, g <| gs_cfg := c |>).

(** ** Commands *)

(** [g_wcmd_last_send_ms[key] = t], an array of [WCMD_KEY_MAX + 1] entries. *)
Definition store_last (key t : Z) (e : Emit) : Emit :=
  if key <=? WCMD_KEY_MAX
  then e <| em_last_send_ms := <[Z.to_nat key := t]> (em_last_send_ms e) |>
  else e <| em_oob := true |>.

Definition rate_limited (c : GConfig) (key : Z) (e : Emit) : GS bool :=
  if (0 <? gc_venc_rate_limit_ms c) && (1 <=? key) && (key <=? WCMD_KEY_MAX) then
    let! t := now_ms in
    let last := nth (Z.to_nat key) (em_last_send_ms e) 0 in
    io_ret (negb (last =? 0) && (i32 (u64 (t - last)) <? gc_venc_rate_limit_ms c))
  else io_ret false.

Definition emit_code (rc : Z) : Z := if rc =? -1 then 503 else if rc =? 0 then 200 else 502.

Definition cmd_value (key : Z) (qs : option string) : option Z :=
  match qs_get_int qs "value" with
  | Some v => Some v
  | None => if (key =? WCMD_KEY_FORCE_IDR) || (key =? WCMD_KEY_RETURN_APFPV) then Some 0 else None
  end.

Definition route_cmd (qs : option string) (g : Gs) : GS (Z * Gs) :=
  match qs_get qs "key" with
  | None => io_ret (400, g)
  | Some (kstr, kl) =>
      let key := wcmd_key_from_str kstr kl in
      if key <? 0 then io_ret (400, g)
      else match cmd_value key qs with
      | None => io_ret (400, g)
      | Some value =>
          let! limited := rate_limited (gs_cfg g) key (gs_emit g) in
          if limited : bool then
            io_ret (429, g <| gs_emit := gs_emit g
                                 <| em_rate_limit := u64 (em_rate_limit (gs_emit g) + 1) |> |>)
          else
            let! r := wcmd_emit (gs_cfg g) key value (gs_emit g) in
            let '(rc, _, e) := r in
            if rc =? 0 then
              let! t := now_ms in
              io_ret (200, g <| gs_emit := store_last key t e |>)
            else io_ret (emit_code rc, g <| gs_emit := e |>)
      end
  end.

Definition route_logctl (qs : option string) (g : Gs) : GS (Z * Gs) :=
  let value := if qs_int_or 1 qs "value" =? 0 then 0 else 1 in
  let! r := wcmd_emit (gs_cfg g) WCMD_KEY_LOG_CONTROL value (gs_emit g) in
  let '(rc, _, e) := r in
  io_ret (emit_code rc, g <| gs_emit := e |>).

Definition route_recovery (g : Gs) : GS (Z * Gs) :=
  let! r := recovery_emit (gs_cfg g) (gs_emit g) in
  let '(rc, _, e) := r in
  io_ret (emit_code rc, g <| gs_emit := e |>).

(** ** Scan *)

(** [0 < len] of a value. *)
Definition qs_text (qs : option string) (key : string) : option string :=
  v ← qs_get qs key; if v.2 =? 0 then None else Some (qs_value v).

Definition scan_hts (qs : option string) (n : nat) : option (list string) :=
  hts ← match qs_text qs "hts" with
        | Some s =>
            l ← split_commas_upto SCAN_MAX_STEPS (bad_len 8) s;
            let l := map (qs_pct_decode 8) l in
            if (length l =? 1)%nat && (1 <? n)%nat then Some (replicate n (nth 0 l EmptyString))
            else if (length l =? n)%nat then Some l else None
        | None =>
            match qs_text qs "ht" with
            | Some s => Some (replicate n (if strlen s <? 8 then qs_pct_decode 8 s else "HT20"%string))
            | None => Some (replicate n "HT20"%string)
            end
        end;
  if forallb is_ht hts then Some hts else None.

Definition clamp_int (lo hi v : Z) : Z :=
  let v := if v <? lo then lo else v in if v >? hi then hi else v.

(** The armed scan: [memset], then [sess++]. *)
Definition scan_armed (c : GConfig) (ifaces : list string) (steps : list (Z * string))
    (dwell_ms : Z) : ScanState :=
  scan_zero <| sc_sess := 1 |> <| sc_ifaces := ifaces |> <| sc_steps := steps |>
    <| sc_step_dwell_us := dwell_ms * 1000 |>
    <| sc_baseline_rx_idx := csa_pick_rx_tunnel_idx c |>
    <| sc_found_chan := -1 |> <| sc_phase := SCAN_RUNNING |>.

Definition route_scan (qs : option string) (g : Gs) : GS (Z * Gs) :=
  if negb (bool_decide (cs_phase (gs_csa g) = CSA_IDLE)) then io_ret (409, g)
  else if bool_decide (sc_phase (gs_scan g) = SCAN_RUNNING) then io_ret (409, g)
  else match qs_text qs "iface", qs_text qs "chans" with
  | Some istr, Some cstr =>
      match iface_list istr with
      | None | Some [] => io_ret (400, g)
      | Some ifaces =>
          if negb (forallb (known_iface (gs_cfg g)) ifaces) then io_ret (404, g)
          else match chan_list SCAN_MAX_STEPS cstr with
          | None | Some [] => io_ret (400, g)
          | Some chans =>
              match scan_hts qs (length chans) with
              | None => io_ret (400, g)
              | Some hts =>
                  let dwell := clamp_int 100 10000 (qs_int_or 600 qs "dwell_ms") in
                  let s := scan_armed (gs_cfg g) ifaces (zip chans hts) dwell in
                  let! s := scan_apply_step_drained (gs_cfg g) 0 s in
                  io_ret (200, g <| gs_scan := s |>)
              end
          end
      end
  | _, _ => io_ret (400, g)
  end.

Definition route_scan_cancel (g : Gs) : GS (Z * Gs) :=
  io_ret (200, if bool_decide (sc_phase (gs_scan g) = SCAN_RUNNING)
               then g <| gs_scan := gs_scan g <| sc_phase := SCAN_STOPPED |> |> else g).

(** ** Channel switch *)

Definition csa_prev_ht (qs : option string) : string :=
  match qs_text qs "prev_ht" with
  | Some s => if strlen s <? 8 then qs_pct_decode 8 s else "HT20"%string
  | None => "HT20"%string
  end.

Definition csa_lead (qs : option string) : Z := clamp_int 100 5000 (qs_int_or 500 qs "lead_ms").
Definition csa_revert (qs : option string) : Z := clamp_int 500 30000 (qs_int_or 3000 qs "t_revert_ms").

Definition csa_armed (now chan : Z) (ht : string) (ifaces : list string) (qs : option string)
    (s : CsaState) : CsaState :=
  let lead := csa_lead qs in
  let revert := csa_revert qs in
  let t_switch := u64 (now + lead * 1000) in
  s <| cs_sess := u32 (cs_sess s + 1) |> <| cs_t_switch_us := t_switch |>
    <| cs_t_revert_us := u64 (t_switch + revert * 1000) |> <| cs_next_frame_us := now |>
    <| cs_frames_sent := 0 |> <| cs_frames_total := 5 |> <| cs_target_chan := chan |>
    <| cs_target_ht := ht |> <| cs_prev_chan := qs_int_or chan qs "prev_chan" |>
    <| cs_prev_ht := csa_prev_ht qs |> <| cs_ifaces := ifaces |>
    <| cs_no_revert := negb (qs_int_or 0 qs "no_revert" =? 0) |> <| cs_seq_in_burst := 0 |>
    <| cs_phase := CSA_BURST |>.

Definition route_csa (qs : option string) (g : Gs) : GS (Z * Gs) :=
  if negb (bool_decide (cs_phase (gs_csa g) = CSA_IDLE)) then io_ret (409, g)
  else if bool_decide (sc_phase (gs_scan g) = SCAN_RUNNING) then io_ret (409, g)
  else match qs_get_int qs "chan" with
  | None => io_ret (400, g)
  | Some chan =>
      if (chan <? 1) || (chan >? 200) then io_ret (400, g)
      else match qs_text qs "iface", qs_text qs "ht" with
      | Some istr, Some hstr =>
          if strlen hstr >=? 8 then io_ret (400, g)
          else match iface_list istr with
          | None | Some [] => io_ret (400, g)
          | Some ifaces =>
              if negb (forallb (known_iface (gs_cfg g)) ifaces) then io_ret (404, g)
              else
                let ht := qs_pct_decode 8 hstr in
                if negb (is_ht ht) then io_ret (400, g)
                else match tx_port (gc_venc_uplink (gs_cfg g)) (gs_tunnels g) with
                | None => io_ret (503, g)
                | Some _ =>
                    let! now := now_us in
                    let s := csa_armed now chan ht ifaces qs (gs_csa g) in
                    io_ret (reported CSA_BODY (csa_answer (csa_lead qs) (csa_revert qs) s),
                            g <| gs_csa := s |>)
                end
          end
      | _, _ => io_ret (400, g)
      end
  end.

(** ** Transmit power *)

Definition iw_txpower_argv (iface : string) (mbm : Z) : list string :=
  ["iw"; "dev"; iface; "set"; "txpower"; "fixed"; pretty mbm]%string.

Definition route_txpower (qs : option string) (g : Gs) : GS (Z * Gs) :=
  match qs_get qs "iface", qs_get qs "mbm" with
  | Some i, Some _ =>
      let iface := qs_value i in
      if (i.2 =? 0) || (i.2 >=? IFNAMSIZ) then io_ret (400, g)
      else if negb (known_iface (gs_cfg g) iface) then io_ret (404, g)
      else match qs_get_int qs "mbm" with
      | None => io_ret (400, g)
      | Some mbm =>
          if (mbm <? 50) || (mbm >? 3000) then io_ret (400, g)
          else
            let! p := fork_exec (iw_txpower_argv iface mbm) in
            let! rc := match p with
                       | Some pid => waitpid_deadline pid GS_FORK_DEADLINE_MS
                       | None => io_ret (-1)
                       end in
            let! ic := iface_requery iface (gs_ifaces g) in
            io_ret (if rc =? 0 then 200 else 502, g <| gs_ifaces := ic |>)
      end
  | _, _ => io_ret (400, g)
  end.

(** ** One tunnel *)

Definition tunnel_start (key_file : string) (t : Tunnel) : GS (Z * Tunnel) :=
  if 0 <? t_pid t then io_ret (200, t)
  else
    let! r := tunnel_spawn key_file (t <| t_backoff_idx := 0 |> <| t_next_start_ms := 0 |>) in
    io_ret (200, r.2).

Definition tunnel_stop (t : Tunnel) : GS (Z * Tunnel) :=
  let! t := tunnel_request_stop t in io_ret (200, t).

Definition tunnel_restart (t : Tunnel) : GS (Z * Tunnel) :=
  let! t := tunnel_request_stop t in
  let t := t <| t_autostart_on_exit := true |> <| t_backoff_idx := 0 |> in
  if t_pid t <=? 0 then
    let! now := now_ms in
    io_ret (200, t <| t_state := TS_BACKOFF |> <| t_next_start_ms := now |>)
  else io_ret (200, t).

(** The answer to a control request: the length of the reply decides. *)
Definition control_code (rlen : Z) : Z := if rlen <? 0 then 502 else if rlen =? 0 then 504 else 200.

Definition control_set_fec (qs : option string) (t : Tunnel) : GS (Z * Tunnel) :=
  match qs_get_int qs "k", qs_get_int qs "n" with
  | Some k, Some n =>
      if (k <? 0) || (k >? 255) || (n <? 0) || (n >? 255) then io_ret (400, t)
      else
        let arg := qs_get_int qs "fec_timeout_ms" in
        let to := default WFB_FEC_TIMEOUT_KEEP arg in
        if match arg with Some a => (a <? 0) || (a >? 0xFFFE) | None => false end
        then io_ret (400, t)
        else
          let! id := wfb_cmd_next_req_id in
          let! r := wfb_cmd_round_trip (tc_control_port (t_cfg t)) id (CtlSetFec k n to) 64 in
          let '(rlen, _, rc) := r in
          let t := if (0 <? rlen) && (rc =? 0) then
                     on_tx (fun p => p <| tp_fec_k := k |> <| tp_fec_n := n |>
                       <| tp_fec_timeout_ms := if to =? WFB_FEC_TIMEOUT_KEEP
                                               then tp_fec_timeout_ms p else to |>
                       <| tp_fec_cache_have := true |>) t
                   else t in
          io_ret (control_code rlen, t)
  | _, _ => io_ret (400, t)
  end.

(** The parameters a partial [set_radio] starts from: the live ones, or the cached ones with
    defaults for what is unknown. *)
Definition radio_base (fresh : bool) (p : TxParams) : RadioBody :=
  let pos d v := if fresh || (0 <=? v) then v else d in
  let pos1 d v := if fresh || (0 <? v) then v else d in
  {| rb_stbc := pos 0 (tp_stbc p); rb_ldpc := pos 0 (tp_ldpc p);
     rb_short_gi := pos 0 (tp_short_gi p); rb_bandwidth := pos1 20 (tp_bandwidth_mhz p);
     rb_mcs_index := pos 1 (tp_mcs_index p); rb_vht_mode := pos 0 (tp_vht_mode p);
     rb_vht_nss := pos1 1 (tp_vht_nss p) |}.

Definition radio_override (qs : option string) (b : RadioBody) : RadioBody :=
  {| rb_stbc := qs_int_or (rb_stbc b) qs "stbc"; rb_ldpc := qs_int_or (rb_ldpc b) qs "ldpc";
     rb_short_gi := qs_int_or (rb_short_gi b) qs "short_gi";
     rb_bandwidth := qs_int_or (rb_bandwidth b) qs "bandwidth";
     rb_mcs_index := qs_int_or (rb_mcs_index b) qs "mcs_index";
     rb_vht_mode := qs_int_or (rb_vht_mode b) qs "vht_mode";
     rb_vht_nss := qs_int_or (rb_vht_nss b) qs "vht_nss" |}.

(** What is sent: every field is a byte. *)
Definition radio_wire (b : RadioBody) : RadioBody :=
  {| rb_stbc := u8 (rb_stbc b); rb_ldpc := norm_flag (rb_ldpc b);
     rb_short_gi := norm_flag (rb_short_gi b); rb_bandwidth := u8 (rb_bandwidth b);
     rb_mcs_index := u8 (rb_mcs_index b); rb_vht_mode := norm_flag (rb_vht_mode b);
     rb_vht_nss := u8 (rb_vht_nss b) |}.

(** What is remembered: the flags are normalised, the other fields are not cut. *)
Definition radio_cache (b : RadioBody) (now : Z) (p : TxParams) : TxParams :=
  p <| tp_stbc := rb_stbc b |> <| tp_ldpc := norm_flag (rb_ldpc b) |>
    <| tp_short_gi := norm_flag (rb_short_gi b) |> <| tp_bandwidth_mhz := rb_bandwidth b |>
    <| tp_mcs_index := rb_mcs_index b |> <| tp_vht_mode := norm_flag (rb_vht_mode b) |>
    <| tp_vht_nss := rb_vht_nss b |> <| tp_radio_cache_have := true |> <| tp_radio_cache_us := now |>.

Definition control_set_radio (qs : option string) (t : Tunnel) : GS (Z * Tunnel) :=
  let! r := wfb_cmd_refresh_radio t in
  let '(got, t) := r in
  let b := radio_override qs (radio_base (got =? 0) (t_tx t)) in
  let! id := wfb_cmd_next_req_id in
  let! r := wfb_cmd_round_trip (tc_control_port (t_cfg t)) id (CtlSetRadio (radio_wire b)) 64 in
  let '(rlen, _, rc) := r in
  if (0 <? rlen) && (rc =? 0) then
    let! now := now_us in io_ret (control_code rlen, on_tx (radio_cache b now) t)
  else io_ret (control_code rlen, t).

Definition control_get_fec (t : Tunnel) : GS (Z * Tunnel) :=
  let! id := wfb_cmd_next_req_id in
  let! r := wfb_cmd_round_trip (tc_control_port (t_cfg t)) id CtlGetFec 64 in
  let '(rlen, bs, rc) := r in
  let t := if (0 <? rlen) && (rc =? 0) && (12 <=? rlen) then
             on_tx (fun p => p <| tp_fec_k := byte_at bs 8 |> <| tp_fec_n := byte_at bs 9 |>
               <| tp_fec_timeout_ms := be16_at bs 10 |> <| tp_fec_cache_have := true |>) t
           else t in
  io_ret (control_code rlen, t).

Definition control_get_radio (t : Tunnel) : GS (Z * Tunnel) :=
  let! id := wfb_cmd_next_req_id in
  let! r := wfb_cmd_round_trip (tc_control_port (t_cfg t)) id CtlGetRadio 64 in
  let '(rlen, bs, rc) := r in
  if (0 <? rlen) && (rc =? 0) && (15 <=? rlen) then
    let b := radio_of_bytes (drop 8 bs) in
    let! now := now_us in
    io_ret (control_code rlen,
      on_tx (fun p => p <| tp_stbc := rb_stbc b |> <| tp_ldpc := rb_ldpc b |>
        <| tp_short_gi := rb_short_gi b |> <| tp_bandwidth_mhz := rb_bandwidth b |>
        <| tp_mcs_index := rb_mcs_index b |> <| tp_vht_mode := rb_vht_mode b |>
        <| tp_vht_nss := rb_vht_nss b |> <| tp_radio_cache_have := true |>
        <| tp_radio_cache_us := now |>) t)
  else io_ret (control_code rlen, t).

Definition tunnel_control (qs : option string) (t : Tunnel) : GS (Z * Tunnel) :=
  if negb (is_tx t) then io_ret (400, t)
  else if tc_control_port (t_cfg t) <=? 0 then io_ret (409, t)
  else match qs_get qs "cmd" with
  | None => io_ret (400, t)
  | Some (cmd, cl) =>
      if is_key "set_fec" cmd cl then control_set_fec qs t
      else if is_key "set_radio" cmd cl then control_set_radio qs t
      else if is_key "get_fec" cmd cl then control_get_fec t
      else if is_key "get_radio" cmd cl then control_get_radio t
      else io_ret (400, t)
  end.

Definition tunnel_action (key_file action : string) (qs : option string) (t : Tunnel)
    : GS (Z * Tunnel) :=
  if String.eqb action "" then let! code := show_tunnel t in io_ret (code, t)
  else if String.eqb action "start" then tunnel_start key_file t
  else if String.eqb action "stop" then tunnel_stop t
  else if String.eqb action "restart" then tunnel_restart t
  else if String.eqb action "control" then tunnel_control qs t
  else io_ret (404, t).

Definition cfg_find_tunnel (ts : list Tunnel) (name : string) : option nat :=
  fst <$> list_find (fun t => tc_name (t_cfg t) = name) ts.

(** [/api/v1/tunnels/<name>[/<action>]]; [rest] is what follows the prefix. *)
Definition route_tunnel (rest : string) (qs : option string) (g : Gs) : GS (Z * Gs) :=
  let '(name, slash) := span_until (fun c => aeq c (ch 47)) rest in
  if bad_len GS_NAME_MAX name then io_ret (400, g)
  else match cfg_find_tunnel (gs_tunnels g) name with
  | None => io_ret (404, g)
  | Some i =>
      match gs_tunnels g !! i with
      | None => io_ret (404, g)
      | Some t =>
          let! r := tunnel_action (gc_key_file (gs_cfg g)) (drop_chars 1 slash) qs t in
          io_ret (r.1, set_tunnels (<[i := r.2]> (gs_tunnels g)) g)
      end
  end.

(** ** The dispatcher *)

(** The telemetry pages work on the logger and its store, not on the supervisor ([GsTele]): here
    [tele] is what they answer, after any history, [None] for a path that is not theirs.  The build
    without the radio code answers the route of the key file with 501. *)
Definition TelePages : Type := list GEvent -> string -> option string -> option Z.

Definition tele_answer (tele : TelePages) (path : string) (qs : option string) : GS (option Z) :=
  fun w => (tele (w_trace w) path qs, w).

Definition api_route (tele : TelePages) (startup_us : Z) (path : string)
    (qs : option string) (g : Gs) : GS (Z * Gs) :=
  let show (m : GS Z) := let! code := m in io_ret (code, g) in
  if String.eqb path "/" then io_ret (200, g)
  else let! page := tele_answer tele path qs in
  match page with Some code => io_ret (code, g) | None =>
  if String.eqb path "/api/v1/health" then io_ret (200, g)
  else if String.eqb path "/api/v1/ifaces" then show (let! _ := now_us in io_ret 200)
  else if String.eqb path "/api/v1/status" then show (show_status (gs_cfg g) (gs_emit g) startup_us)
  else if String.eqb path "/api/v1/tunnels" then show (show_tunnels (gs_cfg g))
  else if String.eqb path "/api/v1/system/reinit" then route_reinit g
  else if String.eqb path "/api/v1/system/up" then route_system_up g
  else if String.eqb path "/api/v1/system/down" then route_system_down g
  else if String.eqb path "/api/v1/cmd" then route_cmd qs g
  else if String.eqb path "/api/v1/logctl" then route_logctl qs g
  else if String.eqb path "/api/v1/recovery" then route_recovery g
  else if String.eqb path "/api/v1/system/scan" then route_scan qs g
  else if String.eqb path "/api/v1/system/scan/cancel" then route_scan_cancel g
  else if String.eqb path "/api/v1/scan" then show (show_scan (gs_scan g))
  else if String.eqb path "/api/v1/system/csa" then route_csa qs g
  else if String.eqb path "/api/v1/csa" then show (show_csa (gs_csa g))
  else if String.eqb path "/api/v1/system/txpower" then route_txpower qs g
  else match scan_lit "/api/v1/tunnels/" path with
  | Some rest => route_tunnel rest qs g
  | None => if String.eqb path "/api/v1/keys" then io_ret (501, g) else io_ret (404, g)
  end end.

Definition api_handle (tele : TelePages) (startup_us : Z) (buf : string) (g : Gs)
    : GS (Z * Gs) :=
  match parse_request (until_nul buf) with
  | inr code => io_ret (code, g)
  | inl (path, qs) => api_route tele startup_us path qs g
  end.
End Api.
