(* ===== verification/GsLoop.v ===== *)
(** * The main loop of the ground supervisor

    [supervisor_tick] and [main] of [ground/gs_supervisor.c]: the start-up, the wait, and one
    turn of the loop as a function of what [poll] reported. *)

From S2P Require Import Prelude CString WfbJson Io Net GsText GsNet GsConfig GsProc.
From S2P Require Import GsState GsStats GsEmit GsRadio GsTunnel GsJson GsApi.

Local Open Scope list_scope.

Definition GS_LOGSYNC_INTERVAL_MS : Z := 10000.
Definition API_MAX_CLIENTS : nat := 8.
Definition API_BUF_BYTES : Z := 2048.
Definition API_CLIENT_IDLE_US : Z := 5000000.

(** ** Clients *)

Record ApiClient := Build_ApiClient { cl_fd : Z; cl_accepted_us : Z; cl_buf : string }.

#[export] Instance eta_ApiClient : Eta ApiClient := fun c =>
  Build_ApiClient (cl_fd c) (cl_accepted_us c) (cl_buf c).

(** The state of [main]: the supervisor and the slots of [clients]. *)
Record Main := Build_Main { mn_gs : Gs; mn_clients : list (option ApiClient); mn_startup_us : Z }.

#[export] Instance eta_Main : Eta Main := fun m =>
  Build_Main (mn_gs m) (mn_clients m) (mn_startup_us m).

(** What a turn learns from the kernel.  A client's [recv] gives [None] when nothing is there,
    [Some ""] at the end of the stream or on an error. *)
Inductive Ready :=
  | RClient (slot : nat) (data : option string)
  | RStats (tunnel : nat).

Inductive Polled :=
  | PErr (intr : bool)
  | PNone
  | PSome (accepted : option Z) (ready : list Ready).

Section Loop.
Context {EV : GsEnv} {ABI : CAbi}.
Variable tele : TelePages.

(** ** The tick *)

Definition logsync_tick (t_ms : Z) (g : Gs) : GS Gs :=
  if em_logsync_next_ms (gs_emit g) <=? t_ms then
    let e := gs_emit g <| em_logsync_next_ms := u64 (t_ms + GS_LOGSYNC_INTERVAL_MS) |> in
    let! e := logsync_emit (gs_cfg g) e in
    io_ret (g <| gs_emit := e |>)
  else io_ret g.

Definition supervisor_tick (g : Gs) : GS Gs :=
  let! t_ms := now_ms in
  let! t_us := now_us in
  let! ic := iface_state_refresh_one t_us (gs_ifaces g) in
  let g := g <| gs_ifaces := ic |> in
  let! ts := map_io (tick_tunnel (gc_key_file (gs_cfg g)) t_ms t_us) (gs_tunnels g) in
  let g := set_tunnels ts g in
  let! g := csa_tick t_us g in
  let! g := scan_tick t_us g in
  logsync_tick t_ms g.

(** ** The wait *)

Definition until_ms (next now : Z) : Z :=
  if next >? now then i32 (u64 (u64 (next - now) + 999) `quot` 1000) else 1.

Definition poll_timeout (g : Gs) : GS Z :=
  let s := gs_csa g in
  let sc := gs_scan g in
  let! t := (if bool_decide (cs_phase s = CSA_BURST) || bool_decide (cs_phase s = CSA_ARMED) then
               let! now := now_us in
               let next := if bool_decide (cs_phase s = CSA_BURST) &&
                              (cs_frames_sent s <? cs_frames_total s)
                           then cs_next_frame_us s else cs_t_switch_us s in
               io_ret (Z.min 250 (Z.max 5 (until_ms next now)))
             else if bool_decide (cs_phase s = CSA_VERIFY) then io_ret 50 else io_ret 250) in
  if bool_decide (sc_phase sc = SCAN_RUNNING) then
    let! now := now_us in
    let wait := Z.max 25 (until_ms (u64 (sc_step_started_us sc + sc_step_dwell_us sc)) now) in
    io_ret (Z.min t wait)
  else io_ret t.

(** ** The turn *)

Definition drop_idle (now : Z) (c : option ApiClient) : option ApiClient :=
  match c with
  | Some cl => if u64 (now - cl_accepted_us cl) >? API_CLIENT_IDLE_US then None else c
  | None => None
  end.

Definition accept_client (fd : Z) (m : Main) : GS Main :=
  match list_find (fun c => c = None) (mn_clients m) with
  | None => io_ret m
  | Some (slot, _) =>
      let! now := now_us in
      io_ret (m <| mn_clients := <[slot := Some (Build_ApiClient fd now EmptyString)]> (mn_clients m) |>)
  end.

Definition complete (buf : string) : bool :=
  contains (until_nul buf) (CRLF ++ CRLF) || contains (until_nul buf) (String LF (str1 LF)).

Definition close_client (slot : nat) (m : Main) : Main :=
  m <| mn_clients := <[slot := None]> (mn_clients m) |>.

(** [recv(fd, buf + pos, sizeof(buf) - pos - 1, 0)] and the terminator: nothing when that
    would end behind the buffer. *)
Definition recv_at (buf : string) (room : Z) (got : string) : option string :=
  let buf := (buf ++ take_chars (Z.to_nat room) got)%string in
  if strlen buf <? API_BUF_BYTES then Some buf else None.

Definition on_client (slot : nat) (data : option string) (m : Main) : GS Main :=
  match mn_clients m !! slot with
  | Some (Some cl) =>
      match data with
      | None => io_ret m
      | Some EmptyString => io_ret (close_client slot m)
      | Some got =>
          match recv_at (cl_buf cl) (API_BUF_BYTES - strlen (cl_buf cl) - 1) got with
          | None => io_ret (m <| mn_clients := [] |>)
          | Some buf =>
              if complete buf then
                let! r := api_handle tele (mn_startup_us m) buf (mn_gs m) in
                let! _ := reply r.1 in
                io_ret (close_client slot (m <| mn_gs := r.2 |>))
              else if API_BUF_BYTES - 1 <=? strlen buf then
                let! _ := reply 400 in io_ret (close_client slot m)
              else io_ret (m <| mn_clients :=
                             <[slot := Some (cl <| cl_buf := buf |>)]> (mn_clients m) |>)
          end
      end
  | _ => io_ret m
  end.

Definition on_stats (i : nat) (m : Main) : GS Main :=
  let g := mn_gs m in
  match gs_tunnels g !! i with
  | Some t =>
      if t_stats_fd t <? 0 then io_ret m
      else
        let! r := stats_drain t (gs_scan g) in
        let g := set_tunnels (<[i := r.1]> (gs_tunnels g)) g in
        io_ret (m <| mn_gs := g <| gs_scan := r.2 |> |>)
  | None => io_ret m
  end.

Definition on_ready (r : Ready) (m : Main) : GS Main :=
  match r with
  | RClient slot data => on_client slot data m
  | RStats i => on_stats i m
  end.

Fixpoint on_all (rs : list Ready) (m : Main) : GS Main :=
  match rs with
  | [] => io_ret m
  | r :: rs => let! m := on_ready r m in on_all rs m
  end.

(** One turn: what precedes [poll], the ticks after it, and the events.  The result says
    whether the loop goes on. *)
Definition loop_turn (p : Polled) (sigchld : bool) (m : Main) : GS (bool * Main) :=
  let! timeout := poll_timeout (mn_gs m) in
  let! _ := io_log (GPollFd timeout) in
  let! ts := (if sigchld then supervisor_reap (gs_tunnels (mn_gs m))
              else io_ret (gs_tunnels (mn_gs m))) in
  let! g := supervisor_tick (set_tunnels ts (mn_gs m)) in
  let! now := now_us in
  let m := m <| mn_gs := g |> <| mn_clients := map (drop_idle now) (mn_clients m) |> in
  match p with
  | PErr intr => io_ret (intr, m)
  | PNone => io_ret (true, m)
  | PSome accepted ready =>
      let! m := match accepted with Some fd => accept_client fd m | None => io_ret m end in
      let! m := on_all ready m in
      io_ret (true, m)
  end.

(** ** Start and end *)

(** The configuration the supervisor works with, [None] when the file is refused. *)
Definition main_config (content overlay : option string) (port_override : Z) : option GConfig :=
  c ← cfg_load content;
  let c := cfg_apply_wfb_link_overlay overlay c in
  Some (if (0 <? port_override) && (port_override <? 65536)
        then c <| gc_http_port := port_override |> else c).

(** Start-up: [None] for an exit before the loop. *)
Definition main_start (content overlay : option string) (port_override : Z) (listening : bool)
    : GS (option Main) :=
  match main_config content overlay port_override with
  | None => io_ret None
  | Some c =>
      let! r := supervisor_bring_up c iface_cache_zero in
      let '(rc, c, ic) := r in
      if negb listening then io_ret None
      else
        let! startup := now_us in
        let! ts := (if rc =? 0
                    then map_io (fun t => if tc_autostart (t_cfg t)
                           then let! r := tunnel_spawn (gc_key_file c) t in io_ret r.2
                           else io_ret t) (gc_tunnels c)
                    else io_ret (gc_tunnels c)) in
        io_ret (Some (Build_Main (set_tunnels ts (gs_start c <| gs_ifaces := ic |>))
                        (replicate API_MAX_CLIENTS None) startup))
  end.

Definition stats_listener_close (t : Tunnel) : Tunnel :=
  if 0 <=? t_stats_fd t then t <| t_stats_fd := -1 |> else t.

(** After the loop. *)
Definition main_end (m : Main) : GS Main :=
  let g := mn_gs m in
  let! c := supervisor_stop_all_tunnels (gs_cfg g) in
  let c := c <| gc_tunnels := map stats_listener_close (gc_tunnels c) |> in
  let! _ := (if bool_decide (gc_system_state c = SYS_UP) then run_system_block (gc_system_down c)
             else io_ret tt) in
  io_ret (m <| mn_gs := g <| gs_cfg := c |> |> <| mn_clients := replicate API_MAX_CLIENTS None |>).
End Loop.
