(* ===== verification/GsRow.v ===== *)
(** * The columns of a telemetry record

    [derive] and [derived_is_empty] of [ground/wfb_logger.c]: what the logger stores beside the
    text of a datagram, and which datagrams it takes for idle.  An absent column is [None]; the
    source pairs a zero with a flag. *)

From S2P Require Import Prelude CFloat CString Strtod WfbJson.

Local Open Scope list_scope.

Definition WFB_LOG_MAX_TOKS : Z := 768.

Record Derived := Build_Derived {
  dv_ts_ms : Z; dv_seq : option Z; dv_mcs : option Z; dv_rssi_comb : option fp;
  dv_rssi_spread : option fp; dv_snr_avg : option fp; dv_pkt_all : option Z;
  dv_pkt_uniq : option Z; dv_pkt_lost : option Z; dv_fec_rec : option Z;
  dv_dec_err : option Z; dv_per : option fp; dv_is_rx_ant : bool
}.

(** What the walk over the antennas keeps: least and greatest RSSI, the sum of the SNRs with
    their count, and the first sixteen rungs. *)
Record Chains := Build_Chains {
  ch_rssi : option (fp * fp); ch_snr_sum : fp; ch_snr_cnt : Z; ch_mcs : list Z
}.

#[export] Instance eta_Chains : Eta Chains := fun c =>
  Build_Chains (ch_rssi c) (ch_snr_sum c) (ch_snr_cnt c) (ch_mcs c).

Definition chains_zero : Chains := Build_Chains None f0 0 [].

Section Row.
Context `{!CAbi}.
Variables (js : string) (toks : list JTok).

Definition jdbl (t : JTok) : option fp :=
  if negb (bool_decide (jt_type t = JT_PRIM)) then None
  else
    let slen := jt_end t - jt_start t in
    if (slen <=? 0) || (slen >=? 48) then None
    else match strtod (until_nul (tok_text js t)) with
         | Some (v, EmptyString) => Some v
         | Some _ => None
         | None => match until_nul (tok_text js t) with EmptyString => Some f0 | _ => None end
         end.

Definition sub_int (obj : nat) (key : string) : option Z :=
  v ← jfind js toks obj key; jint js (tok_at toks v).

Definition sub_avg (obj : nat) (key : string) : option fp :=
  s ← jfind js toks obj key;
  if negb (bool_decide (jt_type (tok_at toks s) = JT_OBJ)) then None
  else v ← jfind js toks s "avg"; jdbl (tok_at toks v).

(** The array of rungs has room for sixteen. *)
Definition MCS_VALS : nat := 16.

Definition add_rssi (r : fp) (c : Chains) : Chains :=
  c <| ch_rssi := Some match ch_rssi c with
                       | None => (r, r)
                       | Some (lo, hi) => (if flt r lo then r else lo, if flt hi r then r else hi)
                       end |>.

Definition add_snr (s : fp) (c : Chains) : Chains :=
  c <| ch_snr_sum := F64.add (ch_snr_sum c) s |> <| ch_snr_cnt := ch_snr_cnt c + 1 |>.

Definition add_mcs (m : Z) (c : Chains) : Chains :=
  if (length (ch_mcs c) <? MCS_VALS)%nat then c <| ch_mcs := ch_mcs c ++ [i32 m] |> else c.

Definition with_some {A S} (x : option A) (f : A -> S -> S) (s : S) : S :=
  match x with Some a => f a s | None => s end.

(** One element of [ant]. *)
Definition chain_step (ci : nat) (c : Chains) : Chains :=
  if bool_decide (jt_type (tok_at toks ci) = JT_OBJ) then
    with_some (sub_int ci "mcs") add_mcs
      (with_some (sub_avg ci "snr") add_snr (with_some (sub_avg ci "rssi") add_rssi c))
  else c.

Fixpoint chain_walk (kids ci : nat) (c : Chains) : Chains :=
  match kids with
  | O => c
  | S kids => chain_walk kids (jskip toks ci) (chain_step ci c)
  end.

Definition chains : Chains :=
  match jfind js toks 0 "ant" with
  | Some ant =>
      if bool_decide (jt_type (tok_at toks ant) = JT_ARR)
      then chain_walk (Z.to_nat (jt_size (tok_at toks ant))) (S ant) chains_zero
      else chains_zero
  | None => chains_zero
  end.

(** The most frequent rung, the first of them on a tie. *)
Definition occurrences (m : Z) (l : list Z) : Z := Z.of_nat (length (List.filter (Z.eqb m) l)).

Fixpoint mode_loop (l all : list Z) (best best_n : Z) : Z :=
  match l with
  | [] => best
  | m :: l =>
      let c := occurrences m all in
      if best_n <? c then mode_loop l all m c else mode_loop l all best best_n
  end.

Definition mode (l : list Z) : option Z :=
  match l with [] => None | m :: _ => Some (mode_loop l l m 0) end.

Definition is_rx_ant : bool :=
  match jfind js toks 0 "type" with
  | Some tv => match jstr js (tok_at toks tv) 16 with
               | Some ty => String.eqb ty "rx_ant"
               | None => false
               end
  | None => false
  end.

(** A counter of the [pkt] block. *)
Definition pkt_int (key : string) : option Z :=
  pkt ← jfind js toks 0 "pkt";
  if bool_decide (jt_type (tok_at toks pkt) = JT_OBJ) then sub_int pkt key else None.

(** The sum is a [long] in the source; its overflow is left aside. *)
Definition loss_share (uniq lost : Z) : fp :=
  let denom := uniq + lost in
  if denom >? 0 then F64.div (F64.of_Z lost) (F64.of_Z denom) else f0.

Definition derive : Derived :=
  let c := chains in
  {| dv_ts_ms := default 0 (sub_int 0 "ts_ms");
     dv_seq := sub_int 0 "seq";
     dv_mcs := mode (ch_mcs c);
     dv_rssi_comb := snd <$> ch_rssi c;
     dv_rssi_spread := (fun r => F64.sub r.2 r.1) <$> ch_rssi c;
     dv_snr_avg := if ch_snr_cnt c >? 0
                   then Some (F64.div (ch_snr_sum c) (F64.of_Z (ch_snr_cnt c))) else None;
     dv_pkt_all := pkt_int "all"; dv_pkt_uniq := pkt_int "uniq"; dv_pkt_lost := pkt_int "lost";
     dv_fec_rec := pkt_int "fec_recovered"; dv_dec_err := pkt_int "dec_err";
     dv_per := u ← pkt_int "uniq"; l ← pkt_int "lost"; Some (loss_share u l);
     dv_is_rx_ant := is_rx_ant |}.
End Row.

Definition absent {A} (x : option A) : bool := match x with None => true | Some _ => false end.
Definition zero_count (x : option Z) : bool := default 0 x =? 0.

(** The pure-idle record: nothing received, every counter zero or absent. *)
Definition derived_is_empty (d : Derived) : bool :=
  dv_is_rx_ant d && absent (dv_rssi_comb d) && absent (dv_snr_avg d) && absent (dv_mcs d) &&
  zero_count (dv_pkt_all d) && zero_count (dv_pkt_uniq d) && zero_count (dv_pkt_lost d) &&
  zero_count (dv_fec_rec d) && zero_count (dv_dec_err d).

(** ** Examples *)

Definition row_of (s : string) : option Derived :=
  toks ← json_parse s WFB_LOG_MAX_TOKS; Some (@derive abi_lp64 s toks).

Example row_sample :
  let s := with_quotes ("{'type':'rx_ant','ts_ms':5,'ant':[{'mcs':3,'rssi':{'avg':-60.5}}," ++
    "{'mcs':4,'rssi':{'avg':-52}},{'mcs':4}],'pkt':{'uniq':90,'lost':10}}") in
  (fun d => (dv_mcs d, dv_rssi_comb d, dv_rssi_spread d, dv_per d, derived_is_empty d)) <$> row_of s =
  Some (Some 4, Some (F64.of_Z (-52)), Some (F64.lit 17 2), Some (F64.lit 1 10), false).
Proof. vm_compute. reflexivity. Qed.

Example row_idle :
  derived_is_empty <$> row_of (with_quotes "{'type':'rx_ant','ant':[],'pkt':{'all':0}}") = Some true /\
  derived_is_empty <$> row_of (with_quotes "{'type':'tx_stats','ant':[]}") = Some false.
Proof. vm_compute. split; reflexivity. Qed.
