(* ===== verification/GsLog.v ===== *)
(** * The telemetry logger of the ground station

    [ground/wfb_logger.c]: a thread receives the datagrams of the statistics tap and stores
    them in SQLite; the HTTP thread starts, stops and rolls it through variables behind a
    mutex.  [Logger] is the static variable [L], [Cap] the local variables of [capture_run].

    The statements given to SQLite are events; what it, the clock and the kernel answer is the
    class [LogEnv].  The times of day in [started_at] and [ended_at] are left out. *)

From S2P Require Import Prelude CFloat CString Io WfbJson GsConfig GsRow.

Local Open Scope list_scope.

Definition WFB_LOG_COMMIT_EVERY : Z := 20.
Definition WFB_LOG_COMMIT_SECS : fp := F64.of_Z 2.

(** The columns of a new row of [sessions]; [None] is NULL. *)
Record SessionRow := Build_SessionRow {
  sr_source : string; sr_channel : option Z; sr_tx_power : option string;
  sr_antenna_cfg : option string
}.

Inductive LEvent :=
  | LClock
  | LOpenDb (path : string) | LInitStore | LPrepare | LSocket | LBind (ip : string) (port : Z)
  | LThread
  | LBegin | LCommit | LRollback
  | LNewSession (row : SessionRow)
  | LInsert (session_id : Z) (d : Derived) (raw : string)
  | LSeal (session_id : Z)
  | LReadFile (path : string).

(** [le_mono] is [CLOCK_MONOTONIC] in seconds and nanoseconds; [le_session] the row id of an
    accepted [INSERT INTO sessions], [le_insert] whether an [INSERT INTO records] is accepted. *)
Class LogEnv := {
  le_mono : list LEvent -> Z * Z;
  le_open : list LEvent -> bool;
  le_init : list LEvent -> bool;
  le_prepare : list LEvent -> bool;
  le_socket : list LEvent -> bool;
  le_bind : list LEvent -> bool;
  le_thread : list LEvent -> bool;
  le_session : list LEvent -> option Z;
  le_insert : list LEvent -> bool;
  le_file : list LEvent -> option string
}.

Abbreviation LW := (GWorld LEvent).
Abbreviation LG := (GIO LEvent).

(** [L]; [lo_pending_duration] is -2 for none, [lo_session_id] -1 for none. *)
Record Logger := Build_Logger {
  lo_cfg : WfbLogConfig; lo_started : bool; lo_stop : bool; lo_roll : bool;
  lo_pending_duration : Z; lo_running : bool; lo_bind_error : bool; lo_db_error : bool;
  lo_session_id : Z; lo_session_start : fp; lo_records : Z; lo_bad : Z; lo_dropped : Z;
  lo_max_duration : Z
}.

#[export] Instance eta_Logger : Eta Logger := fun l => Build_Logger
  (lo_cfg l) (lo_started l) (lo_stop l) (lo_roll l) (lo_pending_duration l) (lo_running l)
  (lo_bind_error l) (lo_db_error l) (lo_session_id l) (lo_session_start l) (lo_records l)
  (lo_bad l) (lo_dropped l) (lo_max_duration l).

(** The local variables of [capture_run]. *)
Record Cap := Build_Cap {
  cp_session_id : Z; cp_records : Z; cp_bad : Z; cp_dropped : Z; cp_idle_run : bool;
  cp_session_start : fp; cp_in_txn : bool; cp_pend : Z; cp_last_commit : fp
}.

#[export] Instance eta_Cap : Eta Cap := fun c => Build_Cap
  (cp_session_id c) (cp_records c) (cp_bad c) (cp_dropped c) (cp_idle_run c)
  (cp_session_start c) (cp_in_txn c) (cp_pend c) (cp_last_commit c).

Definition cap_zero (now : fp) : Cap := Build_Cap (-1) 0 0 0 false f0 false 0 now.

Section Log.
Context {ABI : CAbi} {EV : LogEnv}.

Definition mono_s : LG fp :=
  let! t := ask LClock le_mono in
  io_ret (F64.add (F64.of_Z t.1) (F64.div (F64.of_Z t.2) (F64.of_Z 1000000000))).

(** ** The store *)

Definition or_null (s : string) : option string := if nonempty s then Some s else None.

Definition session_row (c : WfbLogConfig) : SessionRow :=
  Build_SessionRow (or_else (lg_source c) "live-gs")
    (if lg_channel c >? 0 then Some (lg_channel c) else None)
    (or_null (lg_tx_power c)) (or_null (lg_antenna_cfg c)).

(** -1 when the statement fails. *)
Definition store_create_session (c : WfbLogConfig) : LG Z :=
  let! r := ask (LNewSession (session_row c)) le_session in io_ret (default (-1) r).

(** A refused row is only reported on the terminal. *)
Definition store_insert (session_id : Z) (d : Derived) (raw : string) : LG unit :=
  let! _ := ask (LInsert session_id d raw) le_insert in io_ret tt.

Definition store_close_session (session_id : Z) : LG unit := io_log (LSeal session_id).

(** ** The capture thread *)

(** [BEGIN_TXN]. *)
Definition begin_txn (c : Cap) : LG Cap :=
  if cp_in_txn c then io_ret c
  else let! _ := io_log LBegin in io_ret (c <| cp_in_txn := true |>).

(** [COMMIT_TXN]. *)
Definition commit_txn (c : Cap) : LG Cap :=
  let! c := (if cp_in_txn c then let! _ := io_log LCommit in io_ret (c <| cp_in_txn := false |>)
             else io_ret c) in
  let! now := mono_s in
  io_ret (c <| cp_last_commit := now |>).

Definition status_set_session (id : Z) (start : fp) (records bad dropped : Z) (l : Logger)
    : Logger :=
  l <| lo_session_id := id |> <| lo_session_start := start |> <| lo_records := records |>
    <| lo_bad := bad |> <| lo_dropped := dropped |>.

(** [CLOSE_SESSION]. *)
Definition close_session (l : Logger) (c : Cap) : LG (Logger * Cap) :=
  if cp_session_id c >=? 0 then
    let! c := commit_txn c in
    let! _ := store_close_session (cp_session_id c) in
    io_ret (status_set_session (-1) f0 (cp_records c) (cp_bad c) (cp_dropped c) l,
            c <| cp_session_id := -1 |>)
  else io_ret (l, c).

(** A session is opened for the first record. *)
Definition open_session (l : Logger) (c : Cap) : LG (Logger * Cap) :=
  if cp_session_id c >=? 0 then io_ret (l, c)
  else
    let! c := begin_txn c in
    let! id := store_create_session (lo_cfg l) in
    let c := c <| cp_session_id := id |> in
    if id <? 0 then let! c := commit_txn c in io_ret (l, c)
    else
      let! now := mono_s in
      io_ret (status_set_session id now 0 0 0 l,
              c <| cp_session_start := now |> <| cp_records := 0 |> <| cp_bad := 0 |>
                <| cp_dropped := 0 |> <| cp_idle_run := false |>).

(** A record of an open session: an idle one that follows an idle one is dropped. *)
Definition store_record (cfg : WfbLogConfig) (d : Derived) (raw : string) (c : Cap) : LG Cap :=
  let empty := lg_drop_empty cfg && derived_is_empty d in
  if empty && cp_idle_run c then io_ret (c <| cp_dropped := cp_dropped c + 1 |>)
  else
    let! c := begin_txn c in
    let! _ := store_insert (cp_session_id c) d raw in
    io_ret (c <| cp_records := cp_records c + 1 |> <| cp_pend := cp_pend c + 1 |>
              <| cp_idle_run := empty |>).

(** The tokens of a datagram that is a JSON object. *)
Definition record_tokens (buf : string) : option (list JTok) :=
  toks ← json_parse buf WFB_LOG_MAX_TOKS;
  if (length toks <? 1)%nat || negb (bool_decide (jt_type (tok_at toks 0) = JT_OBJ)) then None
  else Some toks.

Definition publish (l : Logger) (c : Cap) : Logger :=
  status_set_session (cp_session_id c) (cp_session_start c) (cp_records c) (cp_bad c)
    (cp_dropped c) l.

Definition on_datagram (buf : string) (l : Logger) (c : Cap) : LG (Logger * Cap) :=
  let! r := match record_tokens buf with
            | None => io_ret (l, c <| cp_bad := cp_bad c + 1 |>)
            | Some toks =>
                let! r := open_session l c in
                let '(l, c) := r in
                if cp_session_id c >=? 0 then
                  let! c := store_record (lo_cfg l) (derive buf toks) buf c in io_ret (l, c)
                else io_ret (l, c)
            end in
  io_ret (publish r.1 r.2, r.2).

(** The deadline of the session. *)
Definition expired (now : fp) (l : Logger) (c : Cap) : bool :=
  (cp_session_id c >=? 0) && (lo_max_duration l >? 0) &&
  fle (F64.of_Z (lo_max_duration l)) (F64.sub now (cp_session_start c)).

Definition commit_due (now : fp) (c : Cap) : bool :=
  (cp_pend c >=? WFB_LOG_COMMIT_EVERY) ||
  fle WFB_LOG_COMMIT_SECS (F64.sub now (cp_last_commit c)).

(** The signals, read and cleared under the lock: stop, roll, and the duration to set. *)
Definition take_signals (l : Logger) : bool * bool * Z * Logger :=
  (lo_stop l, lo_roll l, lo_pending_duration l,
   if lo_roll l then l <| lo_roll := false |> <| lo_pending_duration := -2 |> else l).

(** The parts of a turn: what [recvfrom] delivered within its second, a roll, the deadline,
    and the commit of a batch. *)
Definition receive (got : option string) (l : Logger) (c : Cap) : LG (Logger * Cap) :=
  match got with
  | Some buf => if nonempty buf then on_datagram buf l c else io_ret (l, c)
  | None => io_ret (l, c)
  end.

Definition roll_session (want_roll : bool) (pend_dur : Z) (l : Logger) (c : Cap)
    : LG (Logger * Cap) :=
  if want_roll then
    close_session (if pend_dur >=? 0 then l <| lo_max_duration := pend_dur |> else l) c
  else io_ret (l, c).

Definition close_expired (now : fp) (l : Logger) (c : Cap) : LG (Logger * Cap) :=
  if expired now l c then close_session l c else io_ret (l, c).

Definition commit_batch (now : fp) (c : Cap) : LG Cap :=
  if commit_due now c then
    if cp_pend c =? 0 then io_ret (c <| cp_last_commit := now |>)
    else let! c := commit_txn c in io_ret (c <| cp_pend := 0 |>)
  else io_ret c.

(** One turn of the loop.  [None] is the [break].  The other thread touches [lo_stop],
    [lo_roll] and [lo_pending_duration] only, which the turn reads once at its start: its steps
    can be taken between the turns. *)
Definition capture_turn (got : option string) (l : Logger) (c : Cap)
    : LG (Logger * option Cap) :=
  let '(want_stop, want_roll, pend_dur, l) := take_signals l in
  if want_stop then io_ret (l, None)
  else
    let! r := receive got l c in
    let! now := mono_s in
    let! r := roll_session want_roll pend_dur r.1 r.2 in
    let! r := close_expired now r.1 r.2 in
    let! c := commit_batch now r.2 in
    io_ret (r.1, Some c).

(** The clean shutdown behind the loop. *)
Definition capture_end (l : Logger) (c : Cap) : LG Logger :=
  let! c := (if cp_pend c =? 0 then io_ret c else commit_txn c) in
  let! r := close_session l c in
  io_ret (r.1 <| lo_running := false |>).

(** [capture_run] up to the loop; [None] when the thread has returned. *)
Definition capture_begin (l : Logger) : LG (Logger * option Cap) :=
  let cfg := lo_cfg l in
  let! ok := ask (LOpenDb (lg_db cfg)) le_open in
  if negb ok then io_ret (l <| lo_running := false |> <| lo_db_error := true |>, None)
  else
    let! ok := ask LInitStore le_init in
    if negb ok then io_ret (l, None)
    else
      let! ok := ask LPrepare le_prepare in
      if negb ok then io_ret (l, None)
      else
        let! ok := ask LSocket le_socket in
        if negb ok then io_ret (l, None)
        else
          let! ok := ask (LBind (lg_bind cfg) (u16 (lg_listen_port cfg))) le_bind in
          if negb ok then io_ret (l <| lo_bind_error := true |> <| lo_running := false |>, None)
          else
            let! now := mono_s in
            io_ret (l <| lo_running := true |>, Some (cap_zero now)).

(** ** The calls of the HTTP thread *)

Definition armed (l : Logger) : Logger :=
  l <| lo_started := true |> <| lo_stop := false |> <| lo_roll := false |>
    <| lo_pending_duration := -2 |> <| lo_session_id := -1 |> <| lo_running := false |>
    <| lo_bind_error := false |> <| lo_db_error := false |> <| lo_records := 0 |>
    <| lo_bad := 0 |> <| lo_dropped := 0 |> <| lo_max_duration := lg_max_duration (lo_cfg l) |>.

(** The return value, whether a thread was created, and [L]. *)
Definition logger_spawn (l : Logger) : LG (Z * bool * Logger) :=
  if lo_started l then io_ret (0, false, l)
  else
    let! ok := ask LThread le_thread in
    if ok then io_ret (0, true, armed l)
    else io_ret (-1, false, armed l <| lo_started := false |>).

Definition with_defaults (l : Logger) : Logger :=
  if nonempty (lg_db (lo_cfg l)) then l else l <| lo_cfg := wfb_logger_defaults |>.

Definition wfb_logger_start (cfg : WfbLogConfig) (l : Logger) : LG (Z * bool * Logger) :=
  let l := with_defaults (l <| lo_cfg := cfg |>) in
  if lg_enabled (lo_cfg l) then logger_spawn l else io_ret (0, false, l).

(** The calls of [wfb_logger_stop]: the request, and what follows [pthread_join]. *)
Definition stop_request (l : Logger) : Logger :=
  if lo_started l then l <| lo_stop := true |> else l.
Definition stop_joined (l : Logger) : Logger := l <| lo_started := false |>.

(** What [wfb_logger_runtime_stop] returns, after the two of them when it is 0. *)
Definition wfb_logger_runtime_stop (l : Logger) : Z := if lo_started l then 0 else 1.

Definition enable (c : WfbLogConfig) : WfbLogConfig :=
  Build_WfbLogConfig true (lg_db c) (lg_bind c) (lg_listen_port c) (lg_max_duration c)
    (lg_source c) (lg_channel c) (lg_tx_power c) (lg_antenna_cfg c) (lg_drop_empty c).

Definition wfb_logger_runtime_start (l : Logger) : LG (Z * bool * Logger) :=
  if lo_started l then io_ret (1, false, l)
  else
    let l := with_defaults l in
    logger_spawn (l <| lo_cfg := enable (lo_cfg l) |>).

Definition wfb_logger_roll (duration : Z) (l : Logger) : Logger :=
  l <| lo_roll := true |> <| lo_pending_duration := if duration >=? 0 then duration else -2 |>.

Record WfbLogStatus := Build_WfbLogStatus {
  ws_running : bool; ws_started : bool; ws_bind_error : bool; ws_db_error : bool;
  ws_session_id : Z; ws_records : Z; ws_bad : Z; ws_dropped : Z; ws_age_s : fp;
  ws_max_duration : Z; ws_listen_port : Z
}.

Definition wfb_logger_status (l : Logger) : LG WfbLogStatus :=
  let! age := (if lo_session_id l >=? 0 then
                 let! now := mono_s in io_ret (F64.sub now (lo_session_start l))
               else io_ret f0) in
  io_ret (Build_WfbLogStatus (lo_running l) (lo_started l) (lo_bind_error l) (lo_db_error l)
    (lo_session_id l) (lo_records l) (lo_bad l) (lo_dropped l) age (lo_max_duration l)
    (lg_listen_port (lo_cfg l))).

(** ** The import of a JSONL file *)

(** What successive calls of [getline] deliver, terminators included. *)
Fixpoint getlines (s : string) : list string :=
  match s with
  | EmptyString => []
  | String c s =>
      if aeq c LF then str1 LF :: getlines s
      else match getlines s with [] => [str1 c] | l :: ls => String c l :: ls end
  end.

(** Without the line feeds and carriage returns at the end. *)
Fixpoint chomp (s : string) : string :=
  match s with
  | EmptyString => EmptyString
  | String c s =>
      match chomp s with
      | EmptyString => if aeq c LF || aeq c CR then EmptyString else str1 c
      | t => String c t
      end
  end.

Definition import_source (jsonl_path : string) (source : option string) : string :=
  take_chars 31
    (match source with
     | Some (String _ _ as s) => s
     | _ => "import:" ++ match split_last (ch 47) jsonl_path with
                         | Some (_, base) => base
                         | None => jsonl_path
                         end
     end).

Definition import_config (src : string) : WfbLogConfig :=
  Build_WfbLogConfig false "" "" 0 0 src 0 "" "" false.

(** The number of records; lines that are empty or no JSON object are skipped. *)
Fixpoint import_lines (sid : Z) (lines : list string) (n : Z) : LG Z :=
  match lines with
  | [] => io_ret n
  | line :: lines =>
      let line := chomp line in
      if negb (nonempty line) then import_lines sid lines n
      else match record_tokens line with
           | None => import_lines sid lines n
           | Some toks =>
               let! _ := store_insert sid (derive line toks) line in
               import_lines sid lines (n + 1)
           end
  end.

Definition wfb_logger_import_jsonl (db_path jsonl_path : string) (source : option string) : LG Z :=
  let src := import_source jsonl_path source in
  let! file := ask (LReadFile jsonl_path) le_file in
  match file with
  | None => io_ret (-1)
  | Some text =>
      let! ok := ask (LOpenDb db_path) le_open in
      if negb ok then io_ret (-1)
      else
        let! ok := ask LInitStore le_init in
        if negb ok then io_ret (-1)
        else
          let! ok := ask LPrepare le_prepare in
          if negb ok then io_ret (-1)
          else
            let! _ := io_log LBegin in
            let! sid := store_create_session (import_config src) in
            if sid <? 0 then let! _ := io_log LRollback in io_ret (-1)
            else
              let! n := import_lines sid (getlines text) 0 in
              let! _ := io_log LCommit in
              let! _ := store_close_session sid in
              io_ret n
  end.

(** The arguments behind the program's name: file, database and tag. *)
Fixpoint import_args (args : list string) (jsonl : option string) (db : string)
    (source : option string) : option (option string * string * option string) :=
  match args with
  | [] => Some (jsonl, db, source)
  | a :: rest =>
      match a, rest with
      | "--db"%string, v :: rest => import_args rest jsonl v source
      | "--source"%string, v :: rest => import_args rest jsonl db (Some v)
      | _, _ => if starts_with "-" a then None else import_args rest (Some a) db source
      end
  end.

Definition wfb_telemetry_import_main (args : list string) : LG Z :=
  match import_args args None "wfb.sqlite" None with
  | Some (Some jsonl, db, source) =>
      let! n := wfb_logger_import_jsonl db jsonl source in io_ret (if n <? 0 then 1 else 0)
  | _ => io_ret 2
  end.
End Log.

Example import_text_lines :
  map chomp (getlines ("a" ++ CRLF ++ str1 LF ++ "b")) = ["a"; ""; "b"]%string.
Proof. vm_compute. reflexivity. Qed.

Example import_arguments :
  import_args ["x"; "--db"; "y"; "--source"; "z"]%string None "wfb.sqlite" None =
    Some (Some "x"%string, "y"%string, Some "z"%string) /\
  import_args ["x"; "--db"]%string None "wfb.sqlite" None = None.
Proof. vm_compute. split; reflexivity. Qed.
