(* ===== verification/GsStore.v ===== *)
(** * What the telemetry store holds

    SQLite as the logger sees it is an automaton over the statements ([db_step]): transactions
    do not nest, a row goes to the open session inside a transaction, a session is sealed
    outside one.  Every state the logger reaches, with the steps of the capture thread and the
    calls of the HTTP thread in any order ([reachable]), has a trace the automaton accepts, and
    its variables say what the store was given ([logger_store_protocol]).  Besides: what a
    session stores of what was received, when sessions end, that stopping comes to an end, and what an
    import leaves behind. *)

From S2P Require Import Prelude CFloat CString Io WfbJson GsConfig GsRow GsLog.

Local Open Scope list_scope.

(** ** The store *)

Abbreviation StoreRow := (Derived * string)%type.

(** [db_rows] are the rows given to SQLite for the open session, oldest first, and [db_kept]
    those it accepted; no COMMIT followed the last [db_loose] of them.  [db_done] are the sealed
    sessions, the latest first, with the rows given for them.  The logger does not look at the
    results of BEGIN, COMMIT and UPDATE, so [db_txn] and [db_open] are what its statements ask
    for. *)
Record Db := Build_Db {
  db_txn : bool; db_open : option Z; db_rows : list StoreRow; db_kept : list StoreRow;
  db_loose : nat;
  db_done : list (Z * list StoreRow)
}.

#[export] Instance eta_Db : Eta Db := fun d =>
  Build_Db (db_txn d) (db_open d) (db_rows d) (db_kept d) (db_loose d) (db_done d).

Definition db_empty : Db := Build_Db false None [] [] 0 [].

(** [None] is a statement SQLite, or the sense of the store, would not accept; [created] is the
    answer to [INSERT INTO sessions] and [took] that to [INSERT INTO records]. *)
Definition db_step (created : option Z) (took : bool) (e : LEvent) (d : Db) : option Db :=
  match e with
  | LBegin => if db_txn d then None else Some (d <| db_txn := true |>)
  | LCommit => if db_txn d then Some (d <| db_txn := false |> <| db_loose := 0%nat |>) else None
  | LRollback =>
      if db_txn d && absent (db_open d) then Some (d <| db_txn := false |>) else None
  | LNewSession _ =>
      if db_txn d && absent (db_open d) then
        Some match created with
             | Some id => if id >=? 0 then d <| db_open := Some id |> <| db_rows := [] |> <| db_kept := [] |>
                             else d
             | None => d
             end
      else None
  | LInsert id row raw =>
      if db_txn d && bool_decide (db_open d = Some id) then
        Some (d <| db_rows := db_rows d ++ [(row, raw)] |>
                <| db_kept := db_kept d ++ if took then [(row, raw)] else [] |>
                <| db_loose := S (db_loose d) |>)
      else None
  | LSeal id =>
      if negb (db_txn d) && bool_decide (db_open d = Some id) then
        Some (d <| db_open := None |> <| db_rows := [] |> <| db_kept := [] |>
                <| db_done := (id, db_rows d) :: db_done d |>)
      else None
  | _ => Some d
  end.

(** ** What a session makes of what it is given *)

Record Tally := Build_Tally {
  ta_idle : bool; ta_rows : list StoreRow; ta_bad : Z; ta_dropped : Z
}.

(** A record is kept unless it is idle behind an idle one. *)
Definition tally_row (cfg : WfbLogConfig) (d : Derived) (raw : string) (t : Tally) : Tally :=
  let idle := lg_drop_empty cfg && derived_is_empty d in
  if idle && ta_idle t then Build_Tally (ta_idle t) (ta_rows t) (ta_bad t) (ta_dropped t + 1)
  else Build_Tally idle (ta_rows t ++ [(d, raw)]) (ta_bad t) (ta_dropped t).

(** ** The two threads

    The thread [pthread_create] made, from its start to its join; [sy_joining] is the HTTP
    thread's waiting in [pthread_join]. *)
Inductive Thread := NoThread | Spawned | Capturing (c : Cap) | Ended.

Record Sys := Build_Sys {
  sy_log : Logger; sy_thread : Thread; sy_joining : bool; sy_world : LW
}.

#[export] Instance eta_Sys : Eta Sys := fun s =>
  Build_Sys (sy_log s) (sy_thread s) (sy_joining s) (sy_world s).

(** The static initialiser of [L]. *)
Definition logger_zero : Logger :=
  Build_Logger (import_config "") false false false (-2) false false false (-1) f0 0 0 0 0.

(** What the threads do: the capture thread begins and takes turns, the HTTP thread calls. *)
Inductive Act :=
  | ABegin | ATurn (got : option string)
  | AStart | AStop | AJoin | ARoll (duration : Z) | AStatus.

Section Store.
Context {ABI : CAbi} {EV : LogEnv}.

Fixpoint db_run (tr : list LEvent) : option Db :=
  match tr with
  | [] => Some db_empty
  | e :: tr' => d ← db_run tr'; db_step (le_session tr) (le_insert tr) e d
  end.

(** ** The store behind the trace *)
Definition holds (D : Db -> Prop) (tr : list LEvent) : Prop := exists d, db_run tr = Some d /\ D d.

Lemma holds_cons e D (Q : list LEvent -> Prop) tr :
  holds D tr ->
  (forall d, D d -> exists d', db_step (le_session (e :: tr)) (le_insert (e :: tr)) e d = Some d' /\
                               (db_run (e :: tr) = Some d' -> Q (e :: tr))) ->
  Q (e :: tr).
Proof.
  intros (d & Hd & HD) H. destruct (H d HD) as (d' & Hs & HQ). apply HQ.
  cbn [db_run]. rewrite Hd. exact Hs.
Qed.

Lemma holds_step e D D' tr :
  holds D tr ->
  (forall d, D d -> exists d', db_step (le_session (e :: tr)) (le_insert (e :: tr)) e d = Some d' /\ D' d') ->
  holds D' (e :: tr).
Proof.
  intros H K. eapply holds_cons; [done|]. intros d Hd. destruct (K d Hd) as (d' & E & Hd').
  exists d'. split; [done|]. intros E'. by exists d'.
Qed.

Lemma triple_clock D : triple (holds D) mono_s (fun _ => holds D).
Proof.
  eapply triple_bind with (R := fun _ => holds D).
  - apply triple_ask. intros tr H. eapply holds_cons; [done|]. intros d Hd. exists d.
    split; [done|]. intros E. by exists d.
  - intros t. by apply triple_ret.
Qed.

(** ** The session and the store *)

(** The variables of the thread say what the store holds. *)
Record agree (c : Cap) (d : Db) : Prop := {
  ag_txn : db_txn d = cp_in_txn c;
  ag_open : db_open d = if cp_session_id c >=? 0 then Some (cp_session_id c) else None;
  ag_rows : cp_session_id c >= 0 -> Z.of_nat (length (db_rows d)) = cp_records c;
  ag_loose : Z.of_nat (db_loose d) <= cp_pend c;
  ag_settled : db_txn d = false -> db_loose d = 0%nat
}.

(** The rows of the open session and the sealed sessions. *)
Definition stored (c : Cap) (R : list StoreRow) (S : list (Z * list StoreRow)) :
  list LEvent -> Prop := holds (fun d => agree c d /\ db_rows d = R /\ db_done d = S).

(** What [wfb_logger_status] tells is what the thread has. *)
Record shown (l : Logger) (c : Cap) : Prop := {
  sh_id : lo_session_id l = cp_session_id c;
  sh_records : lo_records l = cp_records c;
  sh_bad : lo_bad l = cp_bad c;
  sh_dropped : lo_dropped l = cp_dropped c;
  sh_start : cp_session_id c >= 0 -> lo_session_start l = cp_session_start c
}.

(** The statement [e] takes the store from one description to another. *)
Lemma stored_step e c R S c' R' S' tr :
  stored c R S tr ->
  (forall d, agree c d -> db_rows d = R -> db_done d = S ->
     exists d', db_step (le_session (e :: tr)) (le_insert (e :: tr)) e d = Some d' /\
                agree c' d' /\ db_rows d' = R' /\ db_done d' = S') ->
  stored c' R' S' (e :: tr).
Proof.
  intros H K. eapply holds_cons; [done|]. intros d (Ha & Hr & Hs).
  destruct (K d Ha Hr Hs) as (d' & E & Ha' & Hr' & Hs'). exists d'. split; [done|].
  intros E'. by exists d'.
Qed.

Lemma begin_txn_stored c R S :
  triple (stored c R S) (begin_txn c)
    (fun c' tr => stored c' R S tr /\ c' = c <| cp_in_txn := true |>).
Proof.
  unfold begin_txn. destruct (cp_in_txn c) eqn:E.
  - apply triple_ret. intros tr H. split; [done|]. destruct c; cbn in *; by subst.
  - eapply triple_bind with (R := fun _ => stored (c <| cp_in_txn := true |>) R S).
    + apply triple_log. intros tr H. eapply stored_step; [done|]. intros d [] Hr Hs.
      cbn [db_step]. rewrite ag_txn0, E. eexists. split; [done|]. by repeat split.
    + intros []. by apply triple_ret.
Qed.

Lemma commit_txn_stored c R S :
  triple (stored c R S) (commit_txn c)
    (fun c' tr => stored c' R S tr /\
       exists now, c' = c <| cp_in_txn := false |> <| cp_last_commit := now |>).
Proof.
  unfold commit_txn.
  eapply triple_bind with
    (R := fun c' tr => stored c' R S tr /\ c' = c <| cp_in_txn := false |>).
  - destruct (cp_in_txn c) eqn:E.
    + eapply triple_bind with (R := fun _ => stored (c <| cp_in_txn := false |>) R S).
      * apply triple_log. intros tr H. eapply stored_step; [done|]. intros d [] Hr Hs.
        cbn [db_step]. rewrite ag_txn0, E. eexists. split; [done|].
        repeat split; cbn; auto. lia.
      * intros []. by apply triple_ret.
    + apply triple_ret. intros tr H. split; [done|]. destruct c; cbn in *; by subst.
  - intros c'. eapply triple_bind with
      (R := fun _ tr => stored c' R S tr /\ c' = c <| cp_in_txn := false |>).
    + intros w [H ->]. split; [|done]. by apply triple_clock.
    + intros now. apply triple_ret. intros tr [(d & Hd & [] & Hr & Hs) ->].
      split; [|by exists now]. exists d. split; [done|]. by repeat split.
Qed.

(** Whatever the calls do to their variables, the next of the session stays. *)
Lemma stored_cap c c' R S tr :
  stored c R S tr ->
  cp_in_txn c' = cp_in_txn c -> cp_session_id c' = cp_session_id c ->
  cp_records c' = cp_records c -> cp_pend c <= cp_pend c' ->
  stored c' R S tr.
Proof.
  intros (d & Hd & [] & Hr & Hs) E1 E2 E3 E4. exists d. split; [done|].
  repeat split; auto; rewrite ?E1, ?E2, ?E3; auto. lia.
Qed.

Definition sealed (c : Cap) (R : list StoreRow) (S : list (Z * list StoreRow)) :=
  if cp_session_id c >=? 0 then (cp_session_id c, R) :: S else S.
Definition left_open (c : Cap) (R : list StoreRow) :=
  if cp_session_id c >=? 0 then [] else R.

(** [CLOSE_SESSION] leaves no session and, if there was one, nothing uncommitted. *)
Lemma close_session_stored l c R S :
  triple (stored c R S) (close_session l c)
    (fun r tr => stored r.2 (left_open c R) (sealed c R S) tr /\
       (shown l c -> shown r.1 r.2) /\ cp_session_id r.2 < 0 /\
       r.2 = (if cp_session_id c >=? 0
              then c <| cp_in_txn := false |> <| cp_last_commit := cp_last_commit r.2 |>
                     <| cp_session_id := -1 |>
              else c) /\
       r.1 = (if cp_session_id c >=? 0
              then status_set_session (-1) f0 (cp_records c) (cp_bad c) (cp_dropped c) l
              else l)).
Proof.
  unfold close_session, left_open, sealed. destruct (cp_session_id c >=? 0) eqn:E.
  - eapply triple_bind; [apply commit_txn_stored|]. intros c1.
    eapply triple_bind with (R := fun _ tr =>
      stored (c1 <| cp_session_id := -1 |>) [] ((cp_session_id c, R) :: S) tr /\
      exists now, c1 = c <| cp_in_txn := false |> <| cp_last_commit := now |>).
    + apply triple_log. intros tr [H [now ->]]. split; [|by exists now].
      eapply stored_step; [exact H|]. intros d [] Hr Hs. cbn in *.
      rewrite ag_txn0, ag_open0, E. rewrite bool_decide_eq_true_2 by done. cbn.
      eexists. split; [done|]. rewrite Hr, Hs. repeat split; cbn; auto. lia.
    + intros []. apply triple_ret. intros tr [H [now ->]].
      split; [exact H|]. split; [intros []; constructor; cbn; try done; lia|].
      by split; [cbn; lia|].
  - apply triple_ret. intros tr H. split; [done|]. split; [done|]. by split; [cbn; lia|].
Qed.

(** Between the statements of a turn a transaction is open only for a session. *)
Definition quiet (c : Cap) : Prop := cp_session_id c < 0 -> cp_in_txn c = false.

Lemma open_session_stored l c R S :
  triple (stored c R S) (open_session l c)
    (fun r tr => 0 <= cp_pend c ->
       (0 <= cp_session_id c /\ r = (l, c) /\ stored c R S tr) \/
       (cp_session_id c < 0 /\ 0 <= cp_session_id r.2 /\ cp_in_txn r.2 = true /\
          cp_pend r.2 = cp_pend c /\ cp_idle_run r.2 = false /\ stored r.2 [] S tr) \/
       (cp_session_id c < 0 /\ cp_in_txn r.2 = false /\ cp_pend r.2 = cp_pend c /\
          stored r.2 R S tr)).
Proof.
  unfold open_session. destruct (cp_session_id c >=? 0) eqn:E.
  - apply triple_ret. intros tr H _. left. split; [lia|done].
  - eapply triple_bind; [apply begin_txn_stored|]. intros c1.
    eapply triple_bind with (R := fun id tr => c1 = c <| cp_in_txn := true |> /\
      stored (c1 <| cp_session_id := id |> <| cp_records := if id >=? 0 then 0 else cp_records c |>)
        (if id >=? 0 then [] else R) S tr).
    + eapply triple_bind with (R := fun r tr => c1 = c <| cp_in_txn := true |> /\
        let id := default (-1) r in
        stored (c1 <| cp_session_id := id |> <| cp_records := if id >=? 0 then 0 else cp_records c |>)
          (if id >=? 0 then [] else R) S tr).
      * apply triple_ask. intros tr [H ->]. split; [done|]. eapply stored_step; [exact H|].
        intros d [] Hr Hs. cbn in *. rewrite E in ag_open0. rewrite ag_txn0, ag_open0. cbn.
        eexists. split; [done|].
        destruct (le_session _) as [id|]; cbn; [destruct (id >=? 0) eqn:Eid|]; cbn;
          repeat split; cbn; rewrite ?Eid; auto; try congruence; lia.
      * intros r. by apply triple_ret.
    + intros id. destruct (id <? 0) eqn:Eid.
      * assert (Hid : (id >=? 0) = false) by lia. rewrite !Hid.
        eapply triple_bind with (R := fun c' tr => stored c' R S tr /\
          cp_in_txn c' = false /\ cp_pend c' = cp_pend c).
        -- intros w [-> H].
           destruct (commit_txn_stored (c <| cp_in_txn := true |> <| cp_session_id := id |>)
                       R S w) as (H' & now & E'); [by destruct c|].
           split; [exact H'|]. by rewrite E'.
        -- intros c'. apply triple_ret. intros tr (H & ? & <-) _. right; right. cbn.
           repeat split; auto; lia.
      * assert (Hid : (id >=? 0) = true) by lia. rewrite !Hid.
        eapply triple_bind with (R := fun _ tr => c1 = c <| cp_in_txn := true |> /\
          stored (c1 <| cp_session_id := id |> <| cp_records := 0 |>) [] S tr).
        -- intros w [-> H]. split; [done|]. by apply triple_clock.
        -- intros now. apply triple_ret. intros tr [-> H] _. right; left. cbn.
           repeat split; try lia; auto. eapply stored_cap; [exact H|..]; cbn; auto. lia.
Qed.

Definition tally_step (cfg : WfbLogConfig) (buf : string) (t : Tally) : Tally :=
  match record_tokens buf with
  | None => Build_Tally (ta_idle t) (ta_rows t) (ta_bad t + 1) (ta_dropped t)
  | Some toks => tally_row cfg (derive buf toks) buf t
  end.

Definition tally_of (c : Cap) (R : list StoreRow) : Tally :=
  Build_Tally (cp_idle_run c) R (cp_bad c) (cp_dropped c).

Lemma store_record_stored cfg d raw c R S :
  0 <= cp_session_id c ->
  triple (stored c R S) (store_record cfg d raw c)
    (fun c' tr => let t := tally_row cfg d raw (tally_of c R) in
       stored c' (ta_rows t) S tr /\ tally_of c' (ta_rows t) = t /\
       cp_session_id c' = cp_session_id c /\ cp_session_start c' = cp_session_start c /\
       cp_pend c <= cp_pend c' <= cp_pend c + 1).
Proof.
  intros Hid. unfold store_record, tally_row. cbn [ta_idle tally_of].
  destruct (_ && cp_idle_run c) eqn:E.
  - apply triple_ret. intros tr H. repeat split; cbn; try lia.
    eapply stored_cap; [exact H|..]; cbn; auto. lia.
  - eapply triple_bind; [apply begin_txn_stored|]. intros c1.
    eapply triple_bind with (R := fun _ tr => c1 = c <| cp_in_txn := true |> /\
      stored (c1 <| cp_records := cp_records c1 + 1 |> <| cp_pend := cp_pend c1 + 1 |>)
        (R ++ [(d, raw)]) S tr).
    + apply triple_log. intros tr [H ->]. split; [done|].
      eapply stored_step; [exact H|]. intros x [] Hr Hs. cbn in *.
      assert (Eid : (cp_session_id c >=? 0) = true) by lia. rewrite Eid in ag_open0.
      rewrite ag_txn0, ag_open0, bool_decide_eq_true_2 by done. cbn.
      eexists. split; [done|]. subst. repeat split; cbn; rewrite ?Eid; auto; try lia.
      intros. rewrite length_app. cbn. lia.
    + intros []. apply triple_ret. intros tr [-> H]. cbn in *. repeat split; try lia.
      eapply stored_cap; [exact H|..]; cbn; auto. lia.
Qed.

(** The part of [L] a datagram leaves alone. *)
Definition control (l : Logger) :=
  (lo_cfg l, lo_started l, (lo_stop l, lo_roll l, lo_pending_duration l),
   (lo_running l, lo_bind_error l, lo_db_error l), lo_max_duration l).

Lemma open_session_control l c :
  triple (fun _ => True) (open_session l c) (fun r _ => control r.1 = control l).
Proof.
  unfold open_session. destruct (_ >=? 0); [by apply triple_ret|].
  intros w _. unfold io_bind. destruct (begin_txn c w) as [c1 w1].
  destruct (store_create_session _ w1) as [id w2]. destruct (id <? 0).
  - by destruct (commit_txn _ w2).
  - by destruct (mono_s w2).
Qed.

Lemma publish_shown l c : shown (publish l c) c.
Proof. by constructor. Qed.

(** A datagram, whatever it holds. *)
Lemma on_datagram_stored buf l c R S :
  triple (stored c R S) (on_datagram buf l c)
    (fun r tr => 0 <= cp_pend c ->
       control r.1 = control l /\ shown r.1 r.2 /\
       cp_pend c <= cp_pend r.2 <= cp_pend c + 1 /\ (exists R' S', stored r.2 R' S' tr) /\
       (quiet c -> quiet r.2) /\
       (0 <= cp_session_id c ->
        let t := tally_step (lo_cfg l) buf (tally_of c R) in
        stored r.2 (ta_rows t) S tr /\ tally_of r.2 (ta_rows t) = t /\
        cp_session_id r.2 = cp_session_id c /\ cp_session_start r.2 = cp_session_start c)).
Proof.
  unfold on_datagram, tally_step. destruct (record_tokens buf) as [toks|].
  - intros w H Hp.
    pose proof (open_session_stored l c R S w H Hp) as Ho.
    pose proof (open_session_control l c w I) as Hc.
    unfold io_bind. destruct (open_session l c w) as [[l1 c1] w1]. cbn in Ho, Hc.
    assert (exists R1, stored c1 R1 S (w_trace w1) /\ cp_pend c1 = cp_pend c /\
              (quiet c -> quiet c1) /\ (0 <= cp_session_id c -> l1 = l /\ c1 = c /\ R1 = R))
      as (R1 & H1 & Hp1 & Hq & Hid).
    { unfold quiet. destruct Ho as [(? & [= -> ->] & ?)|[(? & ? & ? & ? & ? & ?)|(? & ? & ? & ?)]].
      - by exists R.
      - exists []. repeat split; auto; lia.
      - exists R. repeat split; auto; lia. }
    destruct (cp_session_id c1 >=? 0) eqn:E1.
    + pose proof (store_record_stored (lo_cfg l1) (derive buf toks) buf c1 R1 S
                    ltac:(lia) w1 H1) as H2.
      destruct (store_record _ _ _ _ w1) as [c2 w2]. cbn in *.
      destruct H2 as (H2 & Ht & E2 & E3 & Hp2).
      split; [done|]. split; [apply publish_shown|]. split; [lia|].
      split; [by eexists _, _|]. split; [intros _ ?; lia|].
      intros Hpos. by destruct (Hid Hpos) as (-> & -> & ->).
    + cbn. split; [done|]. split; [apply publish_shown|]. split; [lia|].
      split; [by exists R1, S|]. split; [done|].
      intros Hpos. destruct (Hid Hpos) as (-> & -> & ->). lia.
  - intros w H Hp. cbn. split; [done|]. split; [by constructor|]. split; [lia|].
    assert (stored (c <| cp_bad := cp_bad c + 1 |>) R S (w_trace w)) as H'.
    { eapply stored_cap; [exact H|..]; cbn; auto. lia. }
    split; [by exists R, S|]. split; [done|]. intros _. by repeat split.
Qed.

(** ** A turn *)

Lemma shown_control l l' c : shown l c ->
  lo_session_id l' = lo_session_id l -> lo_records l' = lo_records l -> lo_bad l' = lo_bad l ->
  lo_dropped l' = lo_dropped l -> lo_session_start l' = lo_session_start l -> shown l' c.
Proof. intros [] ? ? ? ? ?. constructor; try congruence. intros. rewrite H3. auto. Qed.

(** What outlives a turn: all but the duration, the roll and the status. *)
Definition steady (l : Logger) :=
  (lo_cfg l, lo_started l, lo_stop l, (lo_running l, lo_bind_error l, lo_db_error l)).

Lemma steady_control l l' : control l = control l' -> steady l = steady l'.
Proof. unfold control, steady. congruence. Qed.

(** The part of a turn behind the datagram, at the time [now] it read. *)
Definition settle (now : fp) (want_roll : bool) (pend_dur : Z) (l : Logger) (c : Cap)
    : LG (Logger * option Cap) :=
  let! r := roll_session want_roll pend_dur l c in
  let! r := close_expired now r.1 r.2 in
  let! c := commit_batch now r.2 in
  io_ret (r.1, Some c).

(** The uncommitted rows came after the last commit, which is less than two seconds ago. *)
Definition recent (now : fp) (c : Cap) (d : Db) : Prop :=
  db_loose d = 0%nat \/ fle WFB_LOG_COMMIT_SECS (F64.sub now (cp_last_commit c)) = false.

Lemma commit_batch_stored now c R S :
  triple (stored c R S) (commit_batch now c)
    (fun c' tr => 0 <= cp_pend c ->
       stored c' R S tr /\ 0 <= cp_pend c' < WFB_LOG_COMMIT_EVERY /\ holds (recent now c') tr /\
       (quiet c -> quiet c') /\
       c' = c <| cp_in_txn := cp_in_txn c' |> <| cp_pend := cp_pend c' |>
              <| cp_last_commit := cp_last_commit c' |>).
Proof.
  unfold commit_batch. destruct (commit_due now c) eqn:E; [destruct (cp_pend c =? 0) eqn:Ep|].
  - apply triple_ret. intros tr H Hp. unfold WFB_LOG_COMMIT_EVERY. cbn.
    split; [|split; [lia|split; [|split; [done|by destruct c]]]].
    + eapply stored_cap; [exact H|..]; cbn; auto. lia.
    + destruct H as (d & Hd & [] & ? & ?). exists d. split; [done|]. left. lia.
  - eapply triple_bind; [apply commit_txn_stored|]. intros c1. apply triple_ret.
    intros tr [(d & Hd & [] & Hr & Hs) [t ->]] Hp. unfold WFB_LOG_COMMIT_EVERY. cbn in *.
    specialize (ag_settled0 ag_txn0).
    split; [|split; [lia|split; [|split; [done|by destruct c]]]].
    + exists d. split; [done|]. repeat split; cbn; auto. lia.
    + exists d. split; [done|]. by left.
  - apply triple_ret. intros tr H Hp. unfold commit_due in E.
    apply orb_false_iff in E as [E1 E2].
    split; [done|]. split; [lia|]. split; [|split; [done|by destruct c]].
    destruct H as (d & Hd & _). exists d. split; [done|]. by right.
Qed.

Lemma close_if_stored (b : bool) l c R S :
  triple (stored c R S) (if b then close_session l c else io_ret (l, c))
    (fun r tr => shown l c ->
       (exists R' S', stored r.2 R' S' tr) /\ shown r.1 r.2 /\ cp_pend r.2 = cp_pend c /\
       control r.1 = control l /\ (quiet c -> quiet r.2) /\
       (if b then cp_session_id r.2 < 0 else r = (l, c) /\ stored c R S tr)).
Proof.
  destruct b.
  - eapply triple_weaken; [apply close_session_stored|].
    intros [l' c'] tr (H & Hsh & Hid & Hc & Hl) Hs. cbn in *.
    split; [by eexists _, _|]. split; [auto|].
    split; [rewrite Hc; by destruct (_ >=? 0)|].
    split; [rewrite Hl; by destruct (_ >=? 0)|]. split; [|exact Hid].
    intros Hq _. rewrite Hc. destruct (cp_session_id c >=? 0) eqn:E; [done|]. apply Hq. lia.
  - apply triple_ret. intros tr H Hs. split; [by eexists _, _|]. auto 6.
Qed.

Lemma settle_stored now want dur l c R S :
  triple (stored c R S) (settle now want dur l c)
    (fun r tr => 0 <= cp_pend c -> shown l c ->
       exists c', r.2 = Some c' /\ (exists R' S', stored c' R' S' tr) /\ shown r.1 c' /\
         0 <= cp_pend c' < WFB_LOG_COMMIT_EVERY /\ holds (recent now c') tr /\
         expired now r.1 c' = false /\ steady r.1 = steady l /\ (quiet c -> quiet c') /\
         (want = false -> expired now l c = false ->
            r.1 = l /\ stored c' R S tr /\
            c' = c <| cp_in_txn := cp_in_txn c' |> <| cp_pend := cp_pend c' |>
                   <| cp_last_commit := cp_last_commit c' |>)).
Proof.
  intros w H Hp Hsh. unfold settle.
  set (l0 := if want then if dur >=? 0 then l <| lo_max_duration := dur |> else l else l).
  assert (Hsh0 : shown l0 c).
  { subst l0. destruct want, (dur >=? 0); [by eapply shown_control|done..]. }
  assert (Hst0 : steady l0 = steady l) by (subst l0; by destruct want, (dur >=? 0)).
  assert (E0 : roll_session want dur l c = if want then close_session l0 c else io_ret (l0, c))
    by (subst l0; by destruct want).
  rewrite E0. clear E0. unfold io_bind.
  pose proof (close_if_stored want l0 c R S w H Hsh0) as H1.
  destruct ((if want then close_session l0 c else io_ret (l0, c)) w) as [[l1 c1] w1].
  cbn in H1. destruct H1 as ((R1 & S1 & H1) & Hsh1 & Hp1 & Hc1 & Hq1 & Hw1). unfold close_expired.
  cbn [fst snd].
  pose proof (fun R S H => close_if_stored (expired now l1 c1) l1 c1 R S w1 H Hsh1) as K2.
  destruct ((if expired now l1 c1 then close_session l1 c1 else io_ret (l1, c1)) w1)
    as [[l2 c2] w2].
  cbn in K2. destruct (K2 R1 S1 H1) as ((R2 & S2 & H2) & Hsh2 & Hp2 & Hc2 & Hq2 & Hw2).
  specialize (K2 R S). cbn [fst snd].
  pose proof (fun R S H => commit_batch_stored now c2 R S w2 H ltac:(lia)) as H3.
  assert (Hexp : expired now l2 c2 = false).
  { destruct (expired now l1 c1) eqn:E; [|by destruct Hw2 as [[= -> ->] _]].
    unfold expired. by replace (cp_session_id c2 >=? 0) with false by lia. }
  destruct (commit_batch now c2 w2) as [c3 w3]. cbn in H3 |- *.
  pose proof (H3 R S) as H4. destruct (H3 R2 S2 H2) as (H3' & Hp3 & Hr & Hq3 & E3). clear H3.
  exists c3. split; [done|]. split; [by exists R2, S2|].
  split; [rewrite E3; destruct Hsh2; by constructor|]. split; [done|]. split; [done|].
  split; [rewrite E3; exact Hexp|].
  split; [rewrite <- Hst0; apply steady_control; congruence|]. split; [auto|].
  intros -> He. destruct Hw1 as [[= -> ->] Hw1]. cbn in *. subst l0. rewrite He in Hw2, K2.
  destruct Hw2 as [[= -> ->] _], (K2 Hw1) as (_ & _ & _ & _ & _ & _ & Hw2).
  split; [done|]. split; [|done]. by apply H4.
Qed.

Lemma receive_stored got l c R S :
  triple (stored c R S) (receive got l c)
    (fun r tr => 0 <= cp_pend c -> shown l c ->
       control r.1 = control l /\ shown r.1 r.2 /\ cp_pend c <= cp_pend r.2 /\
       (exists R' S', stored r.2 R' S' tr) /\ (quiet c -> quiet r.2)).
Proof.
  unfold receive. destruct got as [buf|]; [destruct (nonempty buf)|].
  - eapply triple_weaken; [apply on_datagram_stored|]. intros r tr H Hp Hsh.
    destruct (H Hp) as (? & ? & ? & ? & ? & _). split_and!; auto; lia.
  - apply triple_ret. intros tr H Hp Hsh. split_and!; eauto; cbn; lia.
  - apply triple_ret. intros tr H Hp Hsh. split_and!; eauto; cbn; lia.
Qed.

(** The thread between two turns. *)
Record poised (l : Logger) (c : Cap) (tr : list LEvent) : Prop := {
  po_stored : exists R S, stored c R S tr;
  po_shown : shown l c;
  po_pend : 0 <= cp_pend c < WFB_LOG_COMMIT_EVERY;
  po_quiet : quiet c
}.

Lemma poised_signals l l' c tr : poised l c tr ->
  lo_session_id l' = lo_session_id l -> lo_records l' = lo_records l -> lo_bad l' = lo_bad l ->
  lo_dropped l' = lo_dropped l -> lo_session_start l' = lo_session_start l -> poised l' c tr.
Proof. intros [] ? ? ? ? ?. split; auto. by eapply shown_control. Qed.

(** The monotonic clock, read last in the trace. *)
Definition clock_at (tr : list LEvent) : fp :=
  F64.add (F64.of_Z (le_mono tr).1) (F64.div (F64.of_Z (le_mono tr).2) (F64.of_Z 1000000000)).

Abbreviation grows := (performs (fun _ : LEvent => True)).

Ltac grow := repeat
  lazymatch goal with
  | |- performs _ (io_ret _) => apply performs_ret
  | |- performs _ (io_bind _ _) => apply performs_bind; [|intros ?]
  | |- performs _ (ask _ _) => by apply performs_ask
  | |- performs _ (io_log _) => by apply performs_log
  | |- performs _ (if ?b then _ else _) => destruct b
  | |- performs _ (match ?x with _ => _ end) => destruct x
  end.

Lemma commit_grows c : grows (commit_txn c).
Proof. unfold commit_txn, mono_s. grow. Qed.
Lemma close_grows l c : grows (close_session l c).
Proof. unfold close_session. grow; [apply commit_grows|unfold store_close_session; grow]. Qed.
Lemma receive_grows got l c : grows (receive got l c).
Proof.
  unfold receive, on_datagram, open_session, store_record, begin_txn, store_create_session,
    store_insert, mono_s. grow; apply commit_grows.
Qed.
Lemma settle_grows now want dur l c : grows (settle now want dur l c).
Proof.
  unfold settle, roll_session, close_expired, commit_batch.
  grow; try apply close_grows; apply commit_grows.
Qed.

Lemma turn_poised got l c w : poised l c (w_trace w) ->
  let '(r, w') := capture_turn got l c w in
  steady r.1 = steady l /\
  match r.2 with
  | None => lo_stop l = true /\ poised r.1 c (w_trace w')
  | Some c' => lo_stop l = false /\ poised r.1 c' (w_trace w') /\
      exists later earlier, let tr := LClock :: earlier ++ w_trace w in
        w_trace w' = later ++ tr /\ expired (clock_at tr) r.1 c' = false /\
        holds (recent (clock_at tr) c') (w_trace w')
  end.
Proof.
  intros [(R & S & H) Hsh Hp Hq]. unfold capture_turn, take_signals.
  set (l0 := if lo_roll l then _ else l).
  assert (Hst : steady l0 = steady l) by (subst l0; by destruct (lo_roll l)).
  assert (Hsh0 : shown l0 c).
  { subst l0. destruct (lo_roll l); [by eapply shown_control|done]. }
  destruct (lo_stop l).
  { cbn. split; [done|]. split; [done|]. split; eauto. }
  pose proof (receive_stored got l0 c R S w H ltac:(lia) Hsh0) as H1.
  destruct (receive got l0 c w) as [[l1 c1] w1] eqn:E1. rewrite (bind_run _ _ _ _ _ E1).
  destruct (receive_grows got l0 c w) as (es & Et1 & _). rewrite E1 in Et1. cbn in H1, Et1.
  destruct H1 as (Hc1 & Hsh1 & Hp1 & (R1 & S1 & H1) & Hq1).
  pose proof (triple_clock _ w1 H1) as H2.
  destruct (mono_s w1) as [now w2] eqn:E2. rewrite (bind_run _ _ _ _ _ E2).
  cbn [fst snd] in H2 |- *.
  assert (Et2 : w_trace w2 = LClock :: es ++ w_trace w /\ now = clock_at (w_trace w2)).
  { injection E2 as <- <-. cbn. by rewrite Et1. }
  destruct Et2 as [Et2 ->].
  destruct (settle_grows (clock_at (w_trace w2)) (lo_roll l) (lo_pending_duration l) l1 c1 w2)
    as (fs & Et3 & _).
  destruct (settle_stored (clock_at (w_trace w2)) (lo_roll l) (lo_pending_duration l) l1 c1 R1 S1 w2 H2
              ltac:(lia) Hsh1) as (c' & E & Hs & Hsh' & Hp' & Hr & He & Hst' & Hq' & _).
  change (io_bind _ _ w2) with
    (settle (clock_at (w_trace w2)) (lo_roll l) (lo_pending_duration l) l1 c1 w2).
  destruct (settle _ _ _ _ _ w2) as [[l2 oc] w3]. cbn in *. subst oc.
  split; [rewrite Hst', <- Hst; by apply steady_control|]. cbn. split; [done|].
  split; [by split; auto|]. exists fs, es. rewrite <- Et2. auto.
Qed.

(** Nothing open, nothing uncommitted. *)
Definition at_rest (d : Db) : Prop := db_txn d = false /\ db_open d = None /\ db_loose d = 0%nat.

Lemma end_at_rest l c :
  triple (poised l c) (capture_end l c)
    (fun l' tr => holds at_rest tr /\ lo_session_id l' < 0 /\ lo_running l' = false /\
       lo_started l' = lo_started l /\ lo_stop l' = lo_stop l /\
       lo_records l' = cp_records c /\ lo_bad l' = cp_bad c /\ lo_dropped l' = cp_dropped c).
Proof.
  intros w [(R & S & H) Hsh Hp Hq]. unfold capture_end.
  set (m := if cp_pend c =? 0 then io_ret c else commit_txn c).
  assert (Hm : stored (m w).1 R S (w_trace (m w).2) /\ exists now,
            ((m w).1 = c \/ (m w).1 = c <| cp_in_txn := false |> <| cp_last_commit := now |>)).
  { subst m. destruct (cp_pend c =? 0).
    - split; [done|]. exists f0. by left.
    - destruct (commit_txn_stored c R S w H) as [? [now ?]]. split; [done|]. exists now. by right. }
  destruct (m w) as [c1 w1] eqn:E1. rewrite (bind_run _ _ _ _ _ E1). cbn in Hm. destruct Hm as (H1 & now & Ec).
  assert (Hsh1 : shown l c1) by (destruct Ec as [->| ->]; [done|destruct Hsh; by constructor]).
  assert (Hq1 : quiet c1) by (destruct Ec as [->| ->]; [done|intros _; done]).
  destruct (close_session_stored l c1 R S w1 H1) as (H2 & Hsh2 & Hid & Hc & Hl).
  destruct (close_session l c1 w1) as [[l2 c2] w2] eqn:E2. rewrite (bind_run _ _ _ _ _ E2).
  cbn in *.
  specialize (Hsh2 Hsh1). split.
  { destruct H2 as (d & Hd & [] & _ & _). exists d. split; [done|].
    assert (Etxn : db_txn d = false).
    { rewrite ag_txn0, Hc. destruct (cp_session_id c1 >=? 0) eqn:E; [done|]. apply Hq1. lia. }
    split; [done|]. split; [|auto].
    rewrite ag_open0. by replace (cp_session_id c2 >=? 0) with false by lia. }
  destruct Hsh2.
  assert (Er : cp_records c2 = cp_records c /\ cp_bad c2 = cp_bad c /\ cp_dropped c2 = cp_dropped c)
    by (rewrite Hc; destruct (cp_session_id c1 >=? 0), Ec as [->| ->]; done).
  repeat split; try lia; rewrite Hl; by destruct (cp_session_id c1 >=? 0).
Qed.

(** ** The two threads together *)

Definition on_world {A} (s : Sys) (m : LG A) (k : A -> Sys -> Sys) : Sys :=
  let '(x, w) := m (sy_world s) in k x (s <| sy_world := w |>).

Definition spawned (r : Z * bool * Logger) (s : Sys) : Sys :=
  s <| sy_log := r.2 |> <| sy_thread := if r.1.2 then Spawned else sy_thread s |>.

(** [None]: the thread is not there, or the HTTP thread waits. *)
Definition sys_act (a : Act) (s : Sys) : option Sys :=
  let l := sy_log s in
  match a, sy_thread s with
  | ABegin, Spawned => Some (on_world s (capture_begin l) (fun r s =>
      s <| sy_log := r.1 |>
        <| sy_thread := match r.2 with Some c => Capturing c | None => Ended end |>))
  | ATurn got, Capturing c => Some (on_world s (capture_turn got l c) (fun r s =>
      match r.2 with
      | Some c => s <| sy_log := r.1 |> <| sy_thread := Capturing c |>
      | None => on_world s (capture_end r.1 c) (fun l s =>
                  s <| sy_log := l |> <| sy_thread := Ended |>)
      end))
  | AJoin, Ended =>
      if sy_joining s then
        Some (s <| sy_log := stop_joined l |> <| sy_thread := NoThread |> <| sy_joining := false |>)
      else None
  | AStart, _ => if sy_joining s then None else Some (on_world s (wfb_logger_runtime_start l) spawned)
  | AStop, _ =>
      if sy_joining s then None
      else Some (s <| sy_log := stop_request l |> <| sy_joining := lo_started l |>)
  | ARoll dur, _ => if sy_joining s then None else Some (s <| sy_log := wfb_logger_roll dur l |>)
  | AStatus, _ =>
      if sy_joining s then None else Some (on_world s (wfb_logger_status l) (fun _ s => s))
  | _, _ => None
  end.

Inductive reachable : Sys -> Prop :=
| reach_start cfg n :
    reachable (on_world (Build_Sys logger_zero NoThread false (Build_World n []))
                 (wfb_logger_start cfg logger_zero) spawned)
| reach_act a s s' : reachable s -> sys_act a s = Some s' -> reachable s'.

(** No session, for the thread and for the status. *)
Record resting (l : Logger) (tr : list LEvent) : Prop := {
  re_store : holds at_rest tr;
  re_id : lo_session_id l < 0;
  re_running : lo_running l = false
}.

Definition sys_inv (s : Sys) : Prop :=
  let l := sy_log s in let tr := w_trace (sy_world s) in
  (sy_joining s = true -> lo_stop l = true) /\
  match sy_thread s with
  | NoThread => lo_started l = false /\ sy_joining s = false /\ resting l tr
  | Spawned => lo_started l = true /\ resting l tr /\
               lo_session_id l = -1 /\ lo_records l = 0 /\ lo_bad l = 0 /\ lo_dropped l = 0
  | Capturing c => lo_started l = true /\ poised l c tr /\ lo_running l = true
  | Ended => lo_started l = true /\ resting l tr
  end.

Lemma holds_skip D e tr : holds D tr ->
  (forall c k d, db_step c k e d = Some d) -> holds D (e :: tr).
Proof. intros H E. eapply holds_cons; [done|]. intros d Hd. exists d. split; [auto|by exists d]. Qed.

Lemma holds_weaken D D' tr : holds D tr -> (forall d, D d -> D' d) -> holds D' tr.
Proof. intros (d & Hd & HD) H. exists d. auto. Qed.

Lemma begin_inv l :
  triple (fun tr => resting l tr /\
            lo_session_id l = -1 /\ lo_records l = 0 /\ lo_bad l = 0 /\ lo_dropped l = 0)
    (capture_begin l)
    (fun r tr => lo_started r.1 = lo_started l /\ lo_stop r.1 = lo_stop l /\
       match r.2 with
       | Some c => poised r.1 c tr /\ lo_running r.1 = true
       | None => resting r.1 tr
       end).
Proof.
  intros w ([H Hid Hr] & E0 & E1 & E2 & E3). unfold capture_begin.
  assert (Hask : forall e (f : list LEvent -> bool) w, holds at_rest (w_trace w) ->
            (forall c k d, db_step c k e d = Some d) ->
            exists w', ask e f w = (f (e :: w_trace w), w') /\ holds at_rest (w_trace w')).
  { intros e f v Hv He. eexists. split; [done|]. by apply holds_skip. }
  destruct (Hask (LOpenDb (lg_db (lo_cfg l))) le_open w H ltac:(done)) as (w1 & A1 & H1).
  rewrite (bind_run _ _ _ _ _ A1). destruct (negb _); [done|].
  destruct (Hask LInitStore le_init w1 H1 ltac:(done)) as (w2 & A2 & H2).
  rewrite (bind_run _ _ _ _ _ A2). destruct (negb _); [done|].
  destruct (Hask LPrepare le_prepare w2 H2 ltac:(done)) as (w3 & A3 & H3).
  rewrite (bind_run _ _ _ _ _ A3). destruct (negb _); [done|].
  destruct (Hask LSocket le_socket w3 H3 ltac:(done)) as (w4 & A4 & H4).
  rewrite (bind_run _ _ _ _ _ A4). destruct (negb _); [done|].
  destruct (Hask (LBind (lg_bind (lo_cfg l)) (u16 (lg_listen_port (lo_cfg l)))) le_bind w4 H4
              ltac:(done)) as (w5 & A5 & H5).
  rewrite (bind_run _ _ _ _ _ A5). destruct (negb _); [done|].
  pose proof (triple_clock _ w5 H5) as H6. destruct (mono_s w5) as [now w6] eqn:A6.
  rewrite (bind_run _ _ _ _ _ A6). cbn in *.
  repeat (split; [done|]). split; [|done]. destruct H6 as (d & Hd & Htx & Hop & Hlo). split.
  - exists (db_rows d), (db_done d), d. split; [done|]. repeat split; cbn; auto; lia.
  - constructor; cbn; lia.
  - unfold WFB_LOG_COMMIT_EVERY. cbn. lia.
  - done.
Qed.

Lemma resting_log l l' tr : resting l tr ->
  lo_session_id l' < 0 -> lo_running l' = false -> resting l' tr.
Proof. intros []. by split. Qed.

Lemma spawn_inv l l0 w : lo_started l = false -> holds at_rest (w_trace w) ->
  sys_inv (on_world (Build_Sys l0 NoThread false w) (logger_spawn l) spawned).
Proof.
  intros E H. unfold on_world, logger_spawn. rewrite E. cbn.
  assert (H' : holds at_rest (LThread :: w_trace w)) by by apply holds_skip.
  destruct (le_thread _); cbn; (split; [done|]); cbn; split_and!; auto; split; cbn; auto; lia.
Qed.

Lemma start_inv cfg n :
  sys_inv (on_world (Build_Sys logger_zero NoThread false (Build_World n []))
             (wfb_logger_start cfg logger_zero) spawned).
Proof.
  assert (H : holds at_rest []) by (exists db_empty; done).
  unfold wfb_logger_start, with_defaults.
  destruct (lg_enabled _); [apply spawn_inv; [by destruct (nonempty _)|exact H]|].
  unfold on_world. cbn. split; [done|]. cbn.
  destruct (nonempty _); split_and!; auto; by split.
Qed.

Lemma roll_inv dur s : sys_inv s -> sys_inv (s <| sy_log := wfb_logger_roll dur (sy_log s) |>).
Proof.
  intros [Hj H]. split; [done|]. cbn. destruct (sy_thread s).
  - destruct H as (? & ? & []). split_and!; auto. by split.
  - destruct H as (? & [] & ?). split_and!; auto; try tauto. by split.
  - destruct H as (? & H & ?). split_and!; auto. by eapply poised_signals.
  - destruct H as (? & []). split_and!; auto. by split.
Qed.

Lemma stop_inv s : sys_inv s ->
  sys_inv (s <| sy_log := stop_request (sy_log s) |> <| sy_joining := lo_started (sy_log s) |>).
Proof.
  intros [Hj H]. unfold stop_request. split; cbn.
  { by destruct (lo_started (sy_log s)). }
  destruct (sy_thread s).
  - destruct H as (E & ? & []). rewrite E. split_and!; auto. by split.
  - destruct H as (E & [] & ?). rewrite E. split_and!; auto; try tauto. by split.
  - destruct H as (E & H & ?). rewrite E. split_and!; auto. by eapply poised_signals.
  - destruct H as (E & []). rewrite E. split_and!; auto. by split.
Qed.

Lemma status_inv l s : sys_inv s -> sys_inv (on_world s (wfb_logger_status l) (fun _ s => s)).
Proof.
  intros H. unfold on_world, wfb_logger_status. destruct (_ >=? 0); [|by destruct s].
  assert (Hc : forall D, holds D (w_trace (sy_world s)) ->
            holds D (w_trace (mono_s (sy_world s)).2)) by (intros D; apply triple_clock).
  unfold io_bind. destruct (mono_s (sy_world s)) as [t w]. cbn in *.
  destruct H as [Hj H]. split; [done|]. cbn. destruct (sy_thread s).
  - destruct H as (? & ? & []). split_and!; auto. split; auto.
  - destruct H as (? & [] & ?). split_and!; auto; try tauto. split; auto.
  - destruct H as (? & [(R & S & HS)] & ?). split_and!; auto. split; auto. exists R, S. by apply Hc.
  - destruct H as (? & []). split_and!; auto. split; auto.
Qed.

Lemma act_inv a s s' : sys_inv s -> sys_act a s = Some s' -> sys_inv s'.
Proof.
  intros H E. destruct a; cbn [sys_act] in E.
  - destruct (sy_thread s) eqn:T; try done. injection E as <-. destruct H as [Hj H].
    rewrite T in H. destruct H as (Hst & Hr & Hz).
    pose proof (begin_inv (sy_log s) (sy_world s) (conj Hr Hz)) as Hb. unfold on_world.
    destruct (capture_begin _ _) as [[l oc] w]. cbn in *. destruct Hb as (E1 & E2 & Hb).
    split; cbn; [by rewrite E2|]. destruct oc; cbn; rewrite E1; tauto.
  - destruct (sy_thread s) as [| |c|] eqn:T; try done. injection E as <-. destruct H as [Hj H].
    rewrite T in H. destruct H as (Hst & Hp & Hr).
    pose proof (turn_poised got (sy_log s) c (sy_world s) Hp) as Ht. unfold on_world.
    destruct (capture_turn _ _ _ _) as [[l oc] w]. cbn [fst snd] in Ht. destruct Ht as (Es & Ht).
    unfold steady in Es. injection Es as _ Es1 Es2 Es3 _ _. destruct oc as [c'|].
    + destruct Ht as (Hs & Ht & _). split; cbn; [by rewrite Es2|].
      split; [congruence|]. split; [done|congruence].
    + destruct Ht as (Hs & Ht). cbn.
      pose proof (end_at_rest l c w Ht) as He.
      destruct (capture_end l c w) as [l' w']. cbn in He.
      destruct He as (He & Hid & Hrun & E1 & E2 & _). split; cbn; [congruence|].
      split; [congruence|]. by split.
  - destruct (sy_joining s) eqn:J; [destruct (sy_thread s); discriminate|].
    assert (E' : Some (on_world s (wfb_logger_runtime_start (sy_log s)) spawned) = Some s')
      by (by destruct (sy_thread s)). clear E. injection E' as <-.
    unfold wfb_logger_runtime_start. destruct (lo_started (sy_log s)) eqn:St.
    + unfold on_world. cbn. by destruct s.
    + destruct H as [Hj H]. destruct (sy_thread s) eqn:T;
        [|destruct H; congruence..]. destruct H as (_ & _ & []).
      destruct s as [l th j w]. cbn in *. subst. apply spawn_inv; [|done].
      unfold with_defaults. by destruct (nonempty _).
  - destruct (sy_joining s) eqn:J; [destruct (sy_thread s); discriminate|].
    apply stop_inv in H. destruct (sy_thread s); by injection E as <-.
  - destruct (sy_thread s) eqn:T; try done. destruct (sy_joining s) eqn:J; [|done].
    injection E as <-. destruct H as [Hj H]. rewrite T in H. destruct H as (? & []).
    split; cbn; [done|]. split_and!; auto. by split.
  - destruct (sy_joining s) eqn:J; [destruct (sy_thread s); discriminate|].
    apply (roll_inv duration) in H. destruct (sy_thread s); by injection E as <-.
  - destruct (sy_joining s) eqn:J; [destruct (sy_thread s); discriminate|].
    apply (status_inv (sy_log s)) in H. destruct (sy_thread s); by injection E as <-.
Qed.

Lemma reachable_inv s : reachable s -> sys_inv s.
Proof. induction 1; [apply start_inv|by eapply act_inv]. Qed.

(** ** What a session stores *)

Definition tally_got (cfg : WfbLogConfig) (t : Tally) (got : option string) : Tally :=
  match got with
  | Some buf => if nonempty buf then tally_step cfg buf t else t
  | None => t
  end.

Fixpoint capture_turns (gots : list (option string)) (l : Logger) (c : Cap)
    : LG (Logger * option Cap) :=
  match gots with
  | [] => io_ret (l, Some c)
  | got :: gots =>
      let! r := capture_turn got l c in
      match r.2 with Some c => capture_turns gots r.1 c | None => io_ret r end
  end.

(** The datagrams received, and the rows of those that are records. *)
Definition received (gots : list (option string)) : list string :=
  List.filter nonempty (omap id gots).
Definition record_of (buf : string) : option StoreRow :=
  (fun toks => (derive buf toks, buf)) <$> record_tokens buf.
Definition records (gots : list (option string)) : list StoreRow :=
  omap record_of (received gots).

Definition live (r : StoreRow) : bool := negb (derived_is_empty r.1).

Lemma received_cons got gots : received (got :: gots) = received [got] ++ received gots.
Proof. unfold received. destruct got as [buf|]; cbn; [destruct (nonempty buf)|]; done. Qed.

Lemma records_cons got gots : records (got :: gots) = records [got] ++ records gots.
Proof. unfold records. by rewrite received_cons, omap_app. Qed.

Definition tally_sum (t : Tally) : Z := Z.of_nat (length (ta_rows t)) + ta_bad t + ta_dropped t.

(** [t'] keeps every row with reception behind those of [t], every row at all without the
    suppression, and counts what it does not keep. *)
Record tallied (cfg : WfbLogConfig) (gots : list (option string)) (t t' : Tally) : Prop := {
  td_live : List.filter live (ta_rows t') = List.filter live (ta_rows t ++ records gots);
  td_all : lg_drop_empty cfg = false -> ta_rows t' = ta_rows t ++ records gots;
  td_sum : tally_sum t' = tally_sum t + Z.of_nat (length (received gots))
}.

Lemma tally_got_tallied cfg t got : tallied cfg [got] t (tally_got cfg t got).
Proof.
  assert (Hnone : forall u, ta_rows u = ta_rows t -> records [got] = [] ->
    tally_sum u = tally_sum t + Z.of_nat (length (received [got])) -> tallied cfg [got] t u).
  { intros u Hu Hr Hs. split; rewrite ?Hr, ?app_nil_r, ?Hu; done. }
  destruct got as [buf|]; [|apply Hnone; cbn; [done..|lia]].
  unfold tally_got. destruct (nonempty buf) eqn:E;
    [|apply Hnone; unfold records, received; cbn; rewrite ?E; cbn; [done..|lia]].
  assert (Er : received [Some buf] = [buf]) by (unfold received; cbn; by rewrite E).
  unfold tally_step. destruct (record_tokens buf) as [toks|] eqn:Et.
  2:{ apply Hnone; rewrite ?Er; [done| |unfold tally_sum; cbn; lia].
      unfold records. rewrite Er. cbn. unfold record_of. by rewrite Et. }
  assert (Ec : records [Some buf] = [(derive buf toks, buf)]).
  { unfold records. rewrite Er. cbn. unfold record_of. by rewrite Et. }
  unfold tally_row. destruct (_ && ta_idle t) eqn:Ei; split; rewrite ?Ec; auto.
  - rewrite List.filter_app. cbn. unfold live at 3. cbn.
    apply andb_true_iff in Ei as [Ei _]. apply andb_true_iff in Ei as [_ ->]. cbn.
    by rewrite app_nil_r.
  - intros Hd. by rewrite Hd in Ei.
  - rewrite Er. unfold tally_sum. cbn. lia.
  - rewrite Er. unfold tally_sum. cbn. rewrite length_app. cbn. lia.
Qed.

Lemma tally_gots_tallied cfg gots : forall t,
  tallied cfg gots t (fold_left (tally_got cfg) gots t).
Proof.
  induction gots as [|got gots IH]; intros t; cbn [fold_left].
  - split; rewrite ?app_nil_r; auto. unfold received. cbn. lia.
  - destruct (IH (tally_got cfg t got)) as [H1 H2 H3].
    destruct (tally_got_tallied cfg t got) as [K1 K2 K3].
    split; rewrite ?(records_cons got gots).
    + by rewrite H1, app_assoc, !(List.filter_app _ _ (records gots)), K1.
    + intros Hd. rewrite H2, K2, app_assoc by done. done.
    + rewrite H3, K3, (received_cons got gots), length_app. lia.
Qed.

(** A turn with no signal while the session has no deadline. *)
Lemma turn_open got l c R S w :
  stored c R S (w_trace w) -> shown l c -> 0 <= cp_pend c -> 0 <= cp_session_id c ->
  lo_stop l = false -> lo_roll l = false -> lo_max_duration l <= 0 ->
  let '(r, w') := capture_turn got l c w in
  let t := tally_got (lo_cfg l) (tally_of c R) got in
  exists c', r.2 = Some c' /\ stored c' (ta_rows t) S (w_trace w') /\
    tally_of c' (ta_rows t) = t /\ cp_session_id c' = cp_session_id c /\
    shown r.1 c' /\ 0 <= cp_pend c' /\ lo_cfg r.1 = lo_cfg l /\
    lo_stop r.1 = false /\ lo_roll r.1 = false /\ lo_max_duration r.1 <= 0.
Proof.
  intros H Hsh Hp Hid Hstop Hroll Hmax. unfold capture_turn, take_signals. rewrite Hstop, Hroll.
  assert (Hr : let r := receive got l c w in let t := tally_got (lo_cfg l) (tally_of c R) got in
    control r.1.1 = control l /\ shown r.1.1 r.1.2 /\ 0 <= cp_pend r.1.2 /\
    stored r.1.2 (ta_rows t) S (w_trace r.2) /\ tally_of r.1.2 (ta_rows t) = t /\
    cp_session_id r.1.2 = cp_session_id c).
  { unfold receive, tally_got. destruct got as [buf|]; [destruct (nonempty buf)|];
      [|cbn; by split_and!..].
    destruct (on_datagram_stored buf l c R S w H Hp) as (? & ? & ? & _ & _ & Ho).
    destruct (Ho Hid) as (? & ? & ? & ?). split_and!; auto; lia. }
  destruct (receive got l c w) as [[l1 c1] w1] eqn:E1. rewrite (bind_run _ _ _ _ _ E1).
  cbn [fst snd] in Hr. destruct Hr as (Hc1 & Hsh1 & Hp1 & Hs1 & Ht1 & Hid1).
  pose proof (triple_clock _ w1 Hs1) as H2.
  destruct (mono_s w1) as [now w2] eqn:E2. rewrite (bind_run _ _ _ _ _ E2).
  cbn [fst snd] in H2 |- *.
  destruct (settle_stored now false (lo_pending_duration l) l1 c1 _ _ w2 H2 Hp1 Hsh1)
    as (c' & E & _ & Hsh' & Hp' & _ & _ & _ & _ & Hk).
  unfold control in Hc1. injection Hc1 as Ec1 _ Ec2 Ec3 _ _ _ _ Ec4.
  destruct Hk as (El & Hs' & Ec'); [done| |].
  { unfold expired. rewrite Ec4. replace (lo_max_duration l >? 0) with false by lia.
    by rewrite andb_false_r. }
  change (io_bind _ _ w2) with (settle now false (lo_pending_duration l) l1 c1 w2).
  destruct (settle _ _ _ _ _ w2) as [[l2 oc] w3]. cbn in E, El, Hs', Hsh'. subst oc l2.
  exists c'. cbn [fst snd]. split_and!; auto; try congruence; try lia.
  - rewrite <- Ht1. rewrite Ec'. done.
  - rewrite Ec'. done.
Qed.

(** ** The import *)

Definition import_rows (text : string) : list StoreRow :=
  omap record_of (List.filter nonempty (map chomp (getlines text))).

(** A session being filled in one transaction. *)
Definition filling (sid : Z) (R : list StoreRow) (S : list (Z * list StoreRow)) (d : Db) : Prop :=
  db_txn d = true /\ db_open d = Some sid /\ db_rows d = R /\ db_done d = S.

Lemma import_lines_rows sid S lines : forall R n,
  triple (holds (filling sid R S)) (import_lines sid lines n)
    (fun m => let new := omap record_of (List.filter nonempty (map chomp lines)) in
       fun tr => m = n + Z.of_nat (length new) /\ holds (filling sid (R ++ new) S) tr).
Proof.
  induction lines as [|line lines IH]; intros R n; cbn [import_lines map].
  - apply triple_ret. intros tr H. cbn. rewrite app_nil_r. split; [lia|done].
  - cbn [List.filter]. destruct (nonempty (chomp line)) eqn:E; cbn [negb]; [|apply IH].
    cbn [omap list_omap].
    assert (Er : record_of (chomp line) =
      (fun toks => (derive (chomp line) toks, chomp line)) <$> record_tokens (chomp line)) by done.
    rewrite Er. destruct (record_tokens (chomp line)) as [toks|]; [|apply IH]. cbn. clear Er.
    eapply triple_bind with
      (R := fun _ => holds (filling sid (R ++ [(derive (chomp line) toks, chomp line)]) S)).
    + apply triple_log. intros tr H. eapply holds_cons; [done|]. intros d (H1 & H2 & H3 & H4).
      cbn [db_step]. rewrite H1, H2, bool_decide_eq_true_2 by done. eexists. split; [done|].
      intros Hd. eexists. split; [done|]. repeat split; cbn; congruence.
    + intros []. eapply triple_weaken; [apply IH|]. intros m tr [-> H]. cbn.
      rewrite <- app_assoc in H. split; [lia|done].
Qed.

(** At rest, with these sessions sealed. *)
Definition resting_with (S : list (Z * list StoreRow)) (d : Db) : Prop := at_rest d /\ db_done d = S.

Lemma ask_bool_rest {B} e (f : list LEvent -> bool) (k : bool -> LG B) D Q :
  (forall c k d, db_step c k e d = Some d) ->
  (forall b, triple (holds D) (k b) Q) -> triple (holds D) (io_bind (ask e f) k) Q.
Proof.
  intros He Hk. eapply triple_bind with (R := fun _ => holds D); [|exact Hk].
  apply triple_ask. intros tr H. by apply holds_skip.
Qed.

Lemma import_stored db path source S w :
  holds (resting_with S) (w_trace w) ->
  let '(n, w') := wfb_logger_import_jsonl db path source w in
  (n = -1 /\ holds (resting_with S) (w_trace w')) \/
  exists sid text, le_file (LReadFile path :: w_trace w) = Some text /\
    0 <= sid /\ n = Z.of_nat (length (import_rows text)) /\
    holds (resting_with ((sid, import_rows text) :: S)) (w_trace w').
Proof.
  intros H. unfold wfb_logger_import_jsonl.
  destruct (ask (LReadFile path) le_file w) as [file w1] eqn:E1. rewrite (bind_run _ _ _ _ _ E1).
  injection E1 as E1 Ew. destruct file as [text|]; [|left; cbn; split; [done|]; subst; by apply holds_skip].
  assert (H1 : holds (resting_with S) (w_trace w1)) by (subst w1; by apply holds_skip).
  clear Ew H.
  pose (Q := fun (n : Z) (tr : list LEvent) =>
    (n = -1 /\ holds (resting_with S) tr) \/
    exists sid, 0 <= sid /\ n = Z.of_nat (length (import_rows text)) /\
      holds (resting_with ((sid, import_rows text) :: S)) tr).
  match goal with |- let '(_, _) := ?m w1 in _ => assert (T : triple (holds (resting_with S)) m Q) end.
  { assert (Tfail : triple (holds (resting_with S)) (io_ret (-1)) Q) by (apply triple_ret; by left).
    do 3 (apply ask_bool_rest; [done|]; intros []; cbn [negb]; [|exact Tfail]).
    eapply triple_bind with (R := fun _ => holds (fun d => db_txn d = true /\ db_open d = None /\
      db_loose d = 0%nat /\ db_done d = S)).
    { apply triple_log. intros tr H. eapply holds_step; [exact H|].
      intros d [(Ht & Ho & Hl) Hd]. cbn. rewrite Ht. by eexists. }
    intros []. eapply triple_bind with (R := fun sid tr => if sid <? 0
      then holds (fun d => db_txn d = true /\ db_open d = None /\ db_loose d = 0%nat /\ db_done d = S) tr
      else holds (filling sid [] S) tr).
    { unfold store_create_session.
      eapply triple_bind with (R := fun r tr => if default (-1) r <? 0
        then holds (fun d => db_txn d = true /\ db_open d = None /\ db_loose d = 0%nat /\ db_done d = S) tr
        else holds (filling (default (-1) r) [] S) tr); [|intros r; by apply triple_ret].
      apply triple_ask. intros tr H.
      destruct (le_session _) as [sid|] eqn:E; cbn [from_option]; [destruct (id sid <? 0) eqn:En|change (-1 <? 0) with true];
        (eapply holds_step; [exact H|]); intros d (Ht & Ho & Hl & Hd);
          rewrite E; cbn; rewrite Ht, Ho; cbn.
      - replace (sid >=? 0) with false by (unfold id in En; lia). by eexists.
      - replace (sid >=? 0) with true by (unfold id in En; lia). by eexists.
      - by eexists. }
    intros sid. destruct (sid <? 0) eqn:Es.
    - eapply triple_bind with (R := fun _ => holds (resting_with S)); [|intros []; exact Tfail].
      apply triple_log. intros tr H. eapply holds_step; [exact H|].
      intros d (Ht & Ho & Hl & Hd). cbn. rewrite Ht, Ho. by eexists.
    - eapply triple_bind; [apply import_lines_rows|]. intros n. cbv zeta. cbn [app].
      eapply triple_bind with (R := fun _ tr => n = Z.of_nat (length (import_rows text)) /\
        holds (fun d => db_txn d = false /\ db_loose d = 0%nat /\ db_open d = Some sid /\
                        db_rows d = import_rows text /\ db_done d = S) tr).
      { apply triple_log. intros tr [-> H]. split; [done|]. eapply holds_step; [exact H|].
        intros d (Ht & Ho & Hr & Hd). cbn. rewrite Ht. by eexists. }
      intros []. eapply triple_bind with (R := fun _ tr => n = Z.of_nat (length (import_rows text)) /\
        holds (resting_with ((sid, import_rows text) :: S)) tr).
      { apply triple_log. intros tr [-> H]. split; [done|]. eapply holds_step; [exact H|].
        intros d (Ht & Hl & Ho & Hr & Hd). cbn. rewrite Ht, Ho, bool_decide_eq_true_2 by done.
        eexists. split; [done|]. unfold resting_with, at_rest. cbn. by rewrite Hr, Hd. }
      intros []. apply triple_ret. intros tr [-> H]. right. exists sid. split; [lia|done]. }
  specialize (T w1 H1).
  match goal with |- let '(_, _) := ?m w1 in _ => destruct (m w1) as [n w'] end. destruct T as [T|(sid & T)]; [by left|right].
  exists sid, text. by rewrite <- E1.
Qed.

(** Nothing refuses the import. *)
Record willing : Prop := {
  wi_file : forall tr, exists text, le_file tr = Some text;
  wi_open : forall tr, le_open tr = true;
  wi_init : forall tr, le_init tr = true;
  wi_prepare : forall tr, le_prepare tr = true;
  wi_session : forall tr, exists sid, 0 <= sid /\ le_session tr = Some sid
}.

Lemma import_lines_ge sid lines : forall n w, n <= (import_lines sid lines n w).1.
Proof.
  induction lines as [|line lines IH]; intros n w; cbn [import_lines]; [done|].
  destruct (negb _); [apply IH|]. destruct (record_tokens _) as [toks|]; [|apply IH].
  unfold io_bind, store_insert, io_log. cbn. etransitivity; [|apply IH]. lia.
Qed.

Lemma import_willing db path source w :
  willing -> 0 <= (wfb_logger_import_jsonl db path source w).1.
Proof.
  intros []. unfold wfb_logger_import_jsonl, store_create_session, ask, io_bind. cbn -[import_lines].
  destruct (wi_file0 (LReadFile path :: w_trace w)) as [text ->].
  rewrite wi_open0. cbn -[import_lines]. rewrite wi_init0. cbn -[import_lines].
  rewrite wi_prepare0. cbn -[import_lines].
  match goal with |- context [le_session ?tr] => destruct (wi_session0 tr) as (sid & Hs & ->) end.
  cbn -[import_lines]. replace (sid <? 0) with false by lia.
  match goal with |- context [import_lines ?a ?b 0 ?c] =>
    pose proof (import_lines_ge a b 0 c) as Hge; destruct (import_lines a b 0 c) as [n v] end.
  exact Hge.
Qed.

(** ** Runs *)

Definition sys_start (cfg : WfbLogConfig) (n : Z) : Sys :=
  on_world (Build_Sys logger_zero NoThread false (Build_World n []))
    (wfb_logger_start cfg logger_zero) spawned.

Fixpoint sys_run (acts : list Act) (s : Sys) : option Sys :=
  match acts with [] => Some s | a :: acts => s' ← sys_act a s; sys_run acts s' end.

Lemma sys_run_reachable acts : forall s s',
  reachable s -> sys_run acts s = Some s' -> reachable s'.
Proof.
  induction acts as [|a acts IH]; intros s s' H E; [by injection E as <-|].
  cbn in E. destruct (sys_act a s) as [s1|] eqn:E1; [|done]. eapply IH; [|exact E].
  by eapply reach_act.
Qed.

(** The one action of the capture thread, or the join. *)
Definition next_act (got : option string) (t : Thread) : Act :=
  match t with Spawned => ABegin | Capturing _ => ATurn got | _ => AJoin end.

Definition thread_rank (t : Thread) : nat :=
  match t with Spawned => 3 | Capturing _ => 2 | Ended => 1 | NoThread => 0 end.

Lemma joining_progress s got :
  sys_inv s -> sy_joining s = true -> exists s',
    sys_act (next_act got (sy_thread s)) s = Some s' /\
    (thread_rank (sy_thread s') < thread_rank (sy_thread s))%nat /\
    (sy_thread s' = NoThread \/ sy_joining s' = true).
Proof.
  intros [Hj H] J. specialize (Hj J). destruct (sy_thread s) as [| |c|] eqn:T; cbn [next_act sys_act].
  - destruct H as (_ & ? & _). congruence.
  - rewrite T. eexists. split; [done|]. unfold on_world.
    destruct (capture_begin _ _) as [[l oc] w]. cbn. split; [|by right].
    destruct oc; cbn; lia.
  - rewrite T. eexists. split; [done|]. unfold on_world, capture_turn, take_signals. rewrite Hj. cbn.
    destruct (capture_end _ _ _) as [l w]. cbn. split; [lia|by right].
  - rewrite T, J. eexists. split; [done|]. cbn. split; [lia|by left].
Qed.

(** Until the join, with what the socket delivers on the way. *)
Fixpoint stop_run (gots : list (option string)) (s : Sys) : option Sys :=
  match sy_thread s with
  | NoThread => Some s
  | t => match gots with
         | [] => None
         | got :: gots => s' ← sys_act (next_act got t) s; stop_run gots s'
         end
  end.

Lemma stop_run_ends gots : forall s,
  sys_inv s -> sy_thread s = NoThread \/ sy_joining s = true ->
  (thread_rank (sy_thread s) <= length gots)%nat ->
  exists s', stop_run gots s = Some s' /\ sy_thread s' = NoThread /\ sys_inv s'.
Proof.
  induction gots as [|got gots IH]; intros s H Hj Hr.
  - destruct (sy_thread s) eqn:T; cbn in Hr; try lia. exists s. cbn. by rewrite T.
  - destruct (decide (thread_rank (sy_thread s) = 0%nat)) as [E|E].
    { exists s. cbn. by destruct (sy_thread s). }
    destruct Hj as [Hj|Hj]; [by rewrite Hj in E|].
    destruct (joining_progress s got H Hj) as (s1 & E1 & Hlt & Hj1).
    destruct (IH s1) as (s' & E' & K); [by eapply act_inv|done|cbn in Hr; lia|].
    exists s'. split; [|done]. cbn [stop_run].
    destruct (sy_thread s) eqn:T; cbn in E; [done|..]; by rewrite E1.
Qed.

(** The rows SQLite accepted, among those it was given. *)
Lemma run_kept tr : forall d, db_run tr = Some d ->
  sublist (db_kept d) (db_rows d) /\
  ((forall tr, le_insert tr = true) -> db_kept d = db_rows d).
Proof.
  induction tr as [|e tr IH]; intros d; cbn [db_run].
  { intros [= <-]. by split. }
  intros (d0 & H0 & H)%bind_Some. destruct (IH d0 H0) as [Hs Ha]. clear IH H0.
  destruct e; cbn [db_step] in H; repeat case_match; try done; injection H as <-; try by split.
  all: cbn; split; [|intros Ht; rewrite ?Ha by done; try by rewrite Ht in *].
  all: first [done|by apply sublist_app|congruence
             |by rewrite app_nil_r; apply sublist_inserts_r].
Qed.

(** ** The properties *)

(** (C24) Whatever the two threads do, in any order, the statements the logger gives to SQLite
    are in protocol: transactions do not nest, every row goes to the open session inside a
    transaction, no session is opened before the last one is sealed.  The status agrees with
    them: the session id is the open session, or negative when there is none; the record count
    is the number of rows given for it, whether SQLite accepted them or not, so the session has
    at most that many, in their order, and just those when SQLite accepts every row; while the
    logger is not running nothing is open.  At any moment between turns at most 19 rows were
    given after the last COMMIT. *)
Theorem logger_store_protocol s :
  reachable s ->
  exists d, db_run (w_trace (sy_world s)) = Some d /\
    (if lo_running (sy_log s) then
       db_open d = (if lo_session_id (sy_log s) >=? 0 then Some (lo_session_id (sy_log s))
                    else None) /\
       (0 <= lo_session_id (sy_log s) ->
        lo_records (sy_log s) = Z.of_nat (length (db_rows d))) /\
       (db_open d = None -> db_txn d = false)
     else db_open d = None /\ db_txn d = false) /\
    sublist (db_kept d) (db_rows d) /\
    ((forall tr, le_insert tr = true) -> db_kept d = db_rows d) /\
    Z.of_nat (db_loose d) < WFB_LOG_COMMIT_EVERY.
Proof.
  intros Hs. apply reachable_inv in Hs as [_ H].
  assert (Hrest : resting (sy_log s) (w_trace (sy_world s)) ->
    exists d, db_run (w_trace (sy_world s)) = Some d /\ at_rest d /\ lo_running (sy_log s) = false).
  { intros [(d & ? & ?)]. by exists d. }
  destruct (sy_thread s) as [| |c|]; try (destruct Hrest as (d & Hd & (? & ? & Hl) & ->);
    [tauto|exists d; rewrite Hl; destruct (run_kept _ _ Hd); split_and!; auto; done]).
  destruct H as (_ & [(R & S & d & Hd & [] & _) [] Hp Hq] & ->). exists d. rewrite sh_id0, sh_records0.
  split; [done|]. destruct (run_kept _ _ Hd). split; [|split_and!; auto; lia]. split; [done|]. split; [intros; symmetry; apply ag_rows0; lia|].
  rewrite ag_open0. destruct (cp_session_id c >=? 0) eqn:E; [done|]. intros _.
  rewrite ag_txn0. apply Hq. lia.
Qed.

(** A session without a deadline keeps what it receives: through any sequence of
    datagrams and timeouts it stays open and gives to SQLite, in order, every record with
    reception; without idle suppression it gives every record; with it, only idle records are left out;
    and rows, dropped and bad together count every datagram.  The status shows the counts. *)
Theorem session_keeps_signal gots : forall l c R S w,
  stored c R S (w_trace w) -> shown l c -> 0 <= cp_pend c -> 0 <= cp_session_id c ->
  lo_stop l = false -> lo_roll l = false -> lo_max_duration l <= 0 ->
  let '(r, w') := capture_turns gots l c w in
  exists c' R', r.2 = Some c' /\ stored c' R' S (w_trace w') /\ shown r.1 c' /\
    cp_session_id c' = cp_session_id c /\
    tally_of c' R' = fold_left (tally_got (lo_cfg l)) gots (tally_of c R) /\
    tallied (lo_cfg l) gots (tally_of c R) (tally_of c' R').
Proof.
  intros l c R S w H Hsh Hp Hid Hs Hr Hm.
  assert (K : let '(r, w') := capture_turns gots l c w in
    exists c', r.2 = Some c' /\
      let t := fold_left (tally_got (lo_cfg l)) gots (tally_of c R) in
      stored c' (ta_rows t) S (w_trace w') /\ tally_of c' (ta_rows t) = t /\
      shown r.1 c' /\ cp_session_id c' = cp_session_id c).
  { revert l c R w H Hsh Hp Hid Hs Hr Hm.
    induction gots as [|got gots IH]; intros l c R w H Hsh Hp Hid Hs Hr Hm; cbn [capture_turns].
    - cbn. by exists c.
    - pose proof (turn_open got l c R S w H Hsh Hp Hid Hs Hr Hm) as Ht.
      destruct (capture_turn got l c w) as [r w1] eqn:E. rewrite (bind_run _ _ _ _ _ E).
      destruct Ht as (c1 & -> & H1 & Et & Hid1 & Hsh1 & Hp1 & Ec & Hs1 & Hr1 & Hm1).
      specialize (IH r.1 c1 _ w1 H1 Hsh1 Hp1 ltac:(lia) Hs1 Hr1 Hm1).
      rewrite Et, Ec in IH. rewrite Hid1 in IH. exact IH. }
  destruct (capture_turns gots l c w) as [r w']. destruct K as (c' & E & H' & Et & Hsh' & Hid').
  eexists c', _. split_and!; [done|exact H'|done..|]. rewrite Et. apply tally_gots_tallied.
Qed.

(** Every turn enforces the deadlines by the clock it reads: afterwards the open session
    is younger than its maximal duration, and whatever is not yet committed came after a
    commit, or an idle moment, less than two seconds before. *)
Theorem logger_turn_deadlines s s' got c :
  reachable s -> sys_act (ATurn got) s = Some s' -> sy_thread s' = Capturing c ->
  exists later earlier,
    let tr := LClock :: earlier ++ w_trace (sy_world s) in
    w_trace (sy_world s') = later ++ tr /\
    (0 <= lo_session_id (sy_log s') -> 0 < lo_max_duration (sy_log s') ->
     fle (F64.of_Z (lo_max_duration (sy_log s')))
       (F64.sub (clock_at tr) (lo_session_start (sy_log s'))) = false) /\
    exists d, db_run (w_trace (sy_world s')) = Some d /\ recent (clock_at tr) c d.
Proof.
  intros Hs E Hc. apply reachable_inv in Hs as [_ H]. cbn [sys_act] in E.
  destruct (sy_thread s) as [| |c0|]; try done. injection E as <-.
  destruct H as (_ & Hp & _). pose proof (turn_poised got (sy_log s) c0 (sy_world s) Hp) as Ht.
  unfold on_world in *. destruct (capture_turn _ _ _ _) as [[l oc] w]. cbn [fst snd] in Ht, Hc |- *.
  destruct oc as [c'|]; [|by destruct (capture_end _ _ _)]. injection Hc as <-.
  destruct Ht as (_ & _ & [_ [] _ _] & later & earlier & Etr & He & Hr).
  exists later, earlier. cbn. split; [exact Etr|]. split; [|exact Hr].
  intros Hid Hmax. unfold expired in He. rewrite sh_id0 in Hid. rewrite sh_start0 by lia.
  replace (cp_session_id c' >=? 0) with true in He by lia.
  by replace (lo_max_duration l >? 0) with true in He by lia.
Qed.

(** Stopping comes to an end: when the HTTP thread waits in [wfb_logger_stop], then after
    at most the thread's start-up, one turn and the join, whatever the socket delivers
    meanwhile, the call has returned; the session is sealed, everything is committed, and the
    logger can be started again. *)
Theorem logger_stop_returns s got1 got2 got3 :
  reachable s -> sy_joining s = true ->
  exists s', stop_run [got1; got2; got3] s = Some s' /\ sy_thread s' = NoThread /\
    sy_joining s' = false /\ lo_started (sy_log s') = false /\ lo_running (sy_log s') = false /\
    lo_session_id (sy_log s') < 0 /\ holds at_rest (w_trace (sy_world s')).
Proof.
  intros Hs Hj. apply reachable_inv in Hs.
  destruct (stop_run_ends [got1; got2; got3] s Hs) as (s' & E & T & H); [by right| |].
  { destruct (sy_thread s); cbn; lia. }
  exists s'. destruct H as [_ H]. rewrite T in H. destruct H as (? & ? & []). by split_and!.
Qed.

(** Importing a file fills one session or none: on success there is one session more,
    sealed, given in order exactly the lines of the file that are JSON objects, and their
    number is returned; on failure -1 is returned and no session is there.  It succeeds when
    the file and the database can be opened and the session is accepted. *)
Theorem import_fills_session db path source S w :
  holds (resting_with S) (w_trace w) ->
  let '(n, w') := wfb_logger_import_jsonl db path source w in
  ((n = -1 /\ holds (resting_with S) (w_trace w')) \/
   exists sid text, le_file (LReadFile path :: w_trace w) = Some text /\ 0 <= sid /\
     n = Z.of_nat (length (import_rows text)) /\
     holds (resting_with ((sid, import_rows text) :: S)) (w_trace w')) /\
  (willing -> 0 <= n).
Proof.
  intros H. pose proof (import_stored db path source S w H) as H1.
  pose proof (import_willing db path source w) as H2.
  destruct (wfb_logger_import_jsonl db path source w) as [n w']. done.
Qed.
End Store.

(** ** At concrete inputs *)

Definition demo_line : string :=
  with_quotes "{'type':'rx_ant','ts_ms':5,'ant':[{'mcs':3,'rssi':{'avg':-60}}],'pkt':{'uniq':9,'lost':1}}".
Definition demo_idle : string := with_quotes "{'type':'rx_ant','ant':[],'pkt':{'all':0}}".

(** A second passes at every statement. *)
#[local] Instance demo_env : LogEnv := {
  le_mono tr := (Z.of_nat (length tr), 0);
  le_open _ := true; le_init _ := true; le_prepare _ := true; le_socket _ := true;
  le_bind _ := true; le_thread _ := true;
  le_session tr := Some (Z.of_nat (length tr)); le_insert _ := true;
  le_file _ := Some (demo_line ++ CRLF ++ "junk" ++ str1 LF ++ demo_idle)%string
}.

#[local] Instance demo_abi : CAbi := abi_lp64.

Definition demo_cfg (dur : Z) : WfbLogConfig :=
  Build_WfbLogConfig true "wfb.sqlite" "127.0.0.1" 6700 dur "live-gs" 0 "" "" true.

Definition demo_sys (dur : Z) (acts : list Act) : Sys :=
  default (sys_start (demo_cfg dur) 0) (sys_run acts (sys_start (demo_cfg dur) 0)).

Definition demo_cap (s : Sys) : Cap :=
  match sy_thread s with Capturing c => c | _ => cap_zero f0 end.

Lemma demo_reachable dur acts : reachable (demo_sys dur acts).
Proof.
  unfold demo_sys. destruct (sys_run _ _) eqn:E; [|apply reach_start].
  eapply sys_run_reachable; [apply reach_start|exact E].
Qed.

Definition demo_db (s : Sys) : Db := default db_empty (db_run (w_trace (sy_world s))).

Lemma demo_db_run s : absent (db_run (w_trace (sy_world s))) = false ->
  db_run (w_trace (sy_world s)) = Some (demo_db s).
Proof. unfold demo_db. by destruct (db_run _). Qed.

Lemma logger_store_protocol_witness :
  let s := demo_sys 0 [ABegin; ATurn (Some demo_line); ARoll 30; ATurn (Some demo_idle);
                       AStatus; ATurn (Some demo_line)] in
  lo_running (sy_log s) = true /\ lo_records (sy_log s) = 1 /\
  exists d, db_run (w_trace (sy_world s)) = Some d /\
    db_open d = Some (lo_session_id (sy_log s)) /\ length (db_rows d) = 1%nat.
Proof.
  destruct (logger_store_protocol _ (demo_reachable 0
    [ABegin; ATurn (Some demo_line); ARoll 30; ATurn (Some demo_idle);
     AStatus; ATurn (Some demo_line)])) as (d & Hd & H & _).
  split; [vm_compute; reflexivity|]. split; [vm_compute; reflexivity|]. exists d.
  split; [exact Hd|].
  assert (Hr : lo_running (sy_log (demo_sys 0 [ABegin; ATurn (Some demo_line); ARoll 30;
    ATurn (Some demo_idle); AStatus; ATurn (Some demo_line)])) = true) by (vm_compute; reflexivity).
  rewrite Hr in H. destruct H as (Ho & Hn & _). split.
  - rewrite Ho. vm_compute. reflexivity.
  - apply Nat2Z.inj. rewrite <- Hn; vm_compute; [reflexivity|discriminate].
Defined.

Lemma session_keeps_signal_witness :
  let s := demo_sys 0 [ABegin; ATurn (Some demo_line)] in
  let gots := [Some demo_idle; None; Some demo_idle; Some "junk"%string; Some demo_line] in
  exists c' (R' : list StoreRow), (capture_turns gots (sy_log s) (demo_cap s) (sy_world s)).1.2 = Some c' /\
    length R' = 3%nat /\ cp_bad c' = 1 /\ cp_dropped c' = 1.
Proof.
  intros s gots. pose (d := demo_db s).
  assert (Hd : db_run (w_trace (sy_world s)) = Some d)
    by (apply (demo_db_run s); vm_compute; reflexivity).
  pose proof (session_keeps_signal gots (sy_log s) (demo_cap s) (db_rows d) (db_done d)
                (sy_world s)) as K.
  destruct (capture_turns gots (sy_log s) (demo_cap s) (sy_world s)) as [r w'] eqn:E.
  destruct K as (c' & R' & Hc & _ & _ & _ & Ht & _).
  - exists d. split; [exact Hd|]. split; [|split; reflexivity].
    clear. split; vm_compute; [reflexivity|reflexivity|reflexivity|discriminate|reflexivity].
  - split; vm_compute; reflexivity.
  - clear. vm_compute. discriminate.
  - clear. vm_compute. discriminate.
  - vm_compute. reflexivity.
  - vm_compute. reflexivity.
  - clear. vm_compute. discriminate.
  - exists c', R'. split; [exact Hc|].
    pose proof (f_equal (fun t => length (ta_rows t)) Ht) as E1.
    pose proof (f_equal ta_bad Ht) as E2. pose proof (f_equal ta_dropped Ht) as E3.
    cbn [tally_of ta_rows ta_bad ta_dropped] in E1, E2, E3. rewrite E1, E2, E3.
    split; [vm_compute; reflexivity|]. split; vm_compute; reflexivity.
Defined.

Definition demo_next (a : Act) (s : Sys) : Sys := default s (sys_act a s).

Lemma logger_turn_deadlines_witness :
  let s := demo_sys 30 [ABegin; ATurn (Some demo_line)] in
  let s' := demo_next (ATurn (Some demo_line)) s in
  lo_records (sy_log s') = 2 /\
  exists later earlier, w_trace (sy_world s') = later ++ LClock :: earlier ++ w_trace (sy_world s).
Proof.
  intros s s'. split; [vm_compute; reflexivity|].
  destruct (logger_turn_deadlines s s' (Some demo_line) (demo_cap s') (demo_reachable _ _))
    as (later & earlier & Etr & _).
  - vm_compute. reflexivity.
  - vm_compute. reflexivity.
  - exists later, earlier. exact Etr.
Defined.

Lemma logger_stop_returns_witness :
  let s := demo_sys 0 [ABegin; ATurn (Some demo_line); AStop] in
  exists s', stop_run [Some demo_line; None; None] s = Some s' /\ sy_thread s' = NoThread /\
    lo_started (sy_log s') = false.
Proof.
  destruct (logger_stop_returns (demo_sys 0 [ABegin; ATurn (Some demo_line); AStop])
              (Some demo_line) None None (demo_reachable _ _)) as (s' & E & T & _ & Hst & _).
  - vm_compute. reflexivity.
  - exists s'. split; [exact E|]. split; [exact T|exact Hst].
Defined.

Lemma import_fills_session_witness :
  let r := wfb_logger_import_jsonl "db" "log/a.jsonl" None (Build_World 0 []) in
  r.1 = 2 /\ exists d, db_run (w_trace r.2) = Some d /\ at_rest d /\ length (db_done d) = 1%nat.
Proof.
  pose proof (import_fills_session "db" "log/a.jsonl" None [] (Build_World 0 [])) as K.
  destruct (wfb_logger_import_jsonl "db" "log/a.jsonl" None (Build_World 0 [])) as [n w'] eqn:E.
  destruct K as [[[Hn _]|(sid & text & Hf & _ & Hn & d & Hd & Hrest & Hdone)] _].
  - exists db_empty. split; [vm_compute; reflexivity|]. repeat split.
  - vm_compute in E. injection E as <- _. discriminate.
  - cbn. split; [vm_compute in E; by injection E as <- _|]. exists d.
    split; [exact Hd|]. split; [exact Hrest|]. by rewrite Hdone.
Defined.
