(* ===== verification/GsPage.v ===== *)
(** * Text of the telemetry pages

    What [ground/gs_supervisor_telemetry.c] writes its replies with: the growing buffer [SB],
    string literals with their escapes, percent-decoding of query values, the counting of
    packets per rung in a stored datagram, and the date stamped on a label ([gmtime_r] with
    [strftime]).  The documents are written piece by piece; [writes] says which text a piece
    adds. *)

From S2P Require Import Prelude CString Strtod Decimal WfbJson JsonForest JsonText Tunables GsText.

Local Open Scope list_scope.
Local Open Scope Z_scope.
#[local] Arguments String.append !_ _ /.

(** ** The buffer *)

(** [sb->len] is the length of [sb_text]; [sb->buf] is NULL while [sb_cap] is 0. *)
Record SB := Build_SB { sb_text : string; sb_cap : Z; sb_err : bool }.

#[export] Instance eta_SB : Eta SB := fun s => Build_SB (sb_text s) (sb_cap s) (sb_err s).

Definition sb_zero : SB := Build_SB EmptyString 0 false.

(** [while (nc < need) nc *= 2;] *)
Fixpoint sb_grow (fuel : nat) (nc need : Z) : Z :=
  if nc <? need then match fuel with O => nc | S fuel => sb_grow fuel (nc * 2) need end else nc.

Section Buffer.
(** [alloc n]: [realloc] to [n] bytes succeeds.  Within one buffer no size is asked for twice. *)
Variable alloc : Z -> bool.

Definition sb_need (extra : Z) (s : SB) : SB :=
  if sb_err s then s
  else
    let need := strlen (sb_text s) + extra + 1 in
    if need <=? sb_cap s then s
    else
      let nc := sb_grow (Z.to_nat (Z.log2 need)) (if sb_cap s =? 0 then 16384 else sb_cap s) need in
      if alloc nc then s <| sb_cap := nc |> else s <| sb_err := true |>.

Definition sb_putc (c : ascii) (s : SB) : SB :=
  let s := sb_need 1 s in
  if sb_err s then s else s <| sb_text := (sb_text s ++ str1 c)%string |>.

Definition sb_puts (t : string) (s : SB) : SB :=
  let s := sb_need (strlen t) s in
  if sb_err s then s else s <| sb_text := (sb_text s ++ t)%string |>.

(** [t] is the formatted text. *)
Definition sb_printf (t : string) (s : SB) : SB :=
  if sb_err s then s
  else
    let s := sb_need (strlen t) s in
    if sb_err s then s else s <| sb_text := (sb_text s ++ t)%string |>.

(** One character of a literal. *)
Definition sb_jchar (c : ascii) (s : SB) : SB :=
  if aeq c DQ then sb_puts (String BACKSLASH (str1 DQ)) s
  else if aeq c BACKSLASH then sb_puts (String BACKSLASH (str1 BACKSLASH)) s
  else if aeq c LF then sb_puts (String BACKSLASH "n") s
  else if aeq c CR then sb_puts (String BACKSLASH "r") s
  else if aeq c TAB then sb_puts (String BACKSLASH "t") s
  else if code c <? 0x20 then sb_printf (u_escape (code c)) s
  else sb_putc c s.

Fixpoint sb_jchars (v : string) (s : SB) : SB :=
  match v with
  | EmptyString => s
  | String c v => if aeq c NUL then s else sb_jchars v (sb_jchar c s)
  end.

(** [None] is the NULL pointer. *)
Definition sb_jstr (v : option string) (s : SB) : SB :=
  match v with
  | None => sb_puts "null" s
  | Some v => sb_putc DQ (sb_jchars v (sb_putc DQ s))
  end.

(** The pieces of a loop; the second argument says that it is the first turn. *)
Fixpoint sb_each {A} (first : bool) (w : bool -> A -> SB -> SB) (l : list A) (s : SB) : SB :=
  match l with
  | [] => s
  | x :: l => sb_each false w l (w first x s)
  end.

(** Pieces in order. *)
Definition sb_all (ws : list (SB -> SB)) (s : SB) : SB := fold_left (fun s w => w s) ws s.
End Buffer.

(** ** Query values *)

Definition hexv (c : ascii) : option Z :=
  let n := code c in
  if (48 <=? n) && (n <=? 57) then Some (n - 48)
  else if (97 <=? n) && (n <=? 102) then Some (n - 97 + 10)
  else if (65 <=? n) && (n <=? 70) then Some (n - 65 + 10)
  else None.

(** The bytes written before the final NUL; [s] has the [n] bytes of the value. *)
Fixpoint url_decode (cap : nat) (s : string) : string :=
  match cap with
  | O | S O => EmptyString
  | S cap =>
      match s with
      | EmptyString => EmptyString
      | String c s =>
          let verbatim := String c (url_decode cap s) in
          if aeq c (ch 43) then String SP (url_decode cap s)
          else if aeq c PERCENT then
            match s with
            | String a (String b t) =>
                match hexv a, hexv b with
                | Some hi, Some lo => String (ch (hi * 16 + lo)) (url_decode cap t)
                | _, _ => verbatim
                end
            | _ => verbatim
            end
          else verbatim
      end
  end.

(** [None]: absent, with [out] empty. *)
Definition qparam_dec (qs : option string) (key : string) (cap : nat) : option string :=
  v ← qs_get qs key; Some (until_nul (url_decode cap (qs_value v))).

Example url_decoded :
  (url_decode 256 "a+b%20c%2", url_decode 256 "%41%6a%zz", url_decode 4 "abcdef")
  = ("a b c%2", "Aj%zz", "abc")%string.
Proof. vm_compute. reflexivity. Qed.

(** ** Packets per rung *)

Section Dist.
Context `{!CAbi}.
Variables (raw : string) (toks : list JTok).

Definition dist_step (ci : nat) (out : list Z) : list Z :=
  if bool_decide (jt_type (tok_at toks ci) = JT_OBJ) then
    match (mv ← jfind raw toks ci "mcs"; jint raw (tok_at toks mv)) with
    | Some m =>
        if (0 <=? m) && (m <? 8) then
          let p := default 0 (pv ← jfind raw toks ci "pkts"; jint raw (tok_at toks pv)) in
          if i32 p >? nth (Z.to_nat m) out 0 then <[Z.to_nat m := i32 p]> out else out
        else out
    | None => out
    end
  else out.

Fixpoint dist_walk (kids ci : nat) (out : list Z) : list Z :=
  match kids with
  | O => out
  | S kids => dist_walk kids (jskip toks ci) (dist_step ci out)
  end.
End Dist.

Definition dist_zero : list Z := replicate 8 0.

Definition mcs_dist_from_raw `{!CAbi} (raw : option string) : list Z :=
  match raw with
  | None | Some EmptyString => dist_zero
  | Some raw =>
      match json_parse raw 768 with
      | None => dist_zero
      | Some toks =>
          if (length toks <? 1)%nat || negb (bool_decide (jt_type (tok_at toks 0) = JT_OBJ))
          then dist_zero
          else match jfind raw toks 0 "ant" with
          | Some ant =>
              if bool_decide (jt_type (tok_at toks ant) = JT_ARR)
              then dist_walk raw toks (Z.to_nat (jt_size (tok_at toks ant))) (S ant) dist_zero
              else dist_zero
          | None => dist_zero
          end
      end
  end.

Example dist_sample :
  @mcs_dist_from_raw abi_lp64 (Some (with_quotes
    "{'ant':[{'mcs':2,'pkts':5},{'mcs':2,'pkts':9},{'mcs':2,'pkts':4},{'mcs':9,'pkts':3},{'mcs':7,'pkts':1}]}"))
  = [0; 0; 9; 0; 0; 0; 0; 1].
Proof. vm_compute. reflexivity. Qed.

(** ** The date *)

Definition is_leap (y : Z) : bool := (y mod 4 =? 0) && (negb (y mod 100 =? 0) || (y mod 400 =? 0)).

Definition year_length (y : Z) : Z := if is_leap y then 366 else 365.

Definition month_length (y m : Z) : Z :=
  if m =? 2 then (if is_leap y then 29 else 28)
  else if (m =? 4) || (m =? 6) || (m =? 9) || (m =? 11) then 30 else 31.

(** The year of a day counted from the first of year [y], and the day in that year. *)
Fixpoint year_of (fuel : nat) (y day : Z) : Z * Z :=
  match fuel with
  | O => (y, day)
  | S fuel => if day <? year_length y then (y, day) else year_of fuel (y + 1) (day - year_length y)
  end.

(** Month and day of a day counted from the first of month [m], with [n] months to follow. *)
Fixpoint month_of (n : nat) (y m day : Z) : Z * Z :=
  match n with
  | O => (m, day + 1)
  | S n => if day <? month_length y m then (m, day + 1)
           else month_of n y (m + 1) (day - month_length y m)
  end.

(** Year, month and day of a day counted from 1 January 1970, as [gmtime_r] breaks it down. *)
Definition civil (day : Z) : Z * Z * Z :=
  let '(y, d) := year_of (S (Z.to_nat (day / 365))) 1970 day in
  let '(m, d) := month_of 11 y 1 d in (y, m, d).

(** [%0nd] of a number that is not negative. *)
Definition padded (n : nat) (v : Z) : string :=
  let t := pretty v in (pad_zeros (n - String.length t) t)%string.

(** [%Y-%m-%dT%H:%M:%S+00:00] of seconds since 1970. *)
Definition utc_text (t : Z) : string :=
  let '(y, m, d) := civil (t / 86400) in
  let s := t mod 86400 in
  (pretty y ++ "-" ++ padded 2 m ++ "-" ++ padded 2 d ++ "T" ++ padded 2 (s / 3600) ++ ":" ++
   padded 2 (s / 60 mod 60) ++ ":" ++ padded 2 (s mod 60) ++ "+00:00")%string.

Example utc_samples :
  (utc_text 0, utc_text 951827696, utc_text 1735689599)
  = ("1970-01-01T00:00:00+00:00", "2000-02-29T12:34:56+00:00", "2024-12-31T23:59:59+00:00")%string.
Proof. vm_compute. reflexivity. Qed.

(** ** What the pieces write *)

Lemma sb_grow_enough fuel : forall nc need,
  0 < nc -> need <= nc * 2 ^ Z.of_nat fuel -> need <= sb_grow fuel nc need /\ nc <= sb_grow fuel nc need.
Proof.
  induction fuel as [|fuel IH]; intros nc need Hn H; cbn [sb_grow].
  - destruct (Z.ltb_spec nc need); cbn in H; lia.
  - destruct (Z.ltb_spec nc need); [|lia].
    rewrite Nat2Z.inj_succ, Z.pow_succ_r in H by lia. destruct (IH (nc * 2) need); lia.
Qed.

(** Text and final zero fit into the memory that was granted. *)
Definition sb_fits (s : SB) : Prop :=
  (sb_cap s = 0 /\ sb_text s = EmptyString) \/ (16384 <= sb_cap s /\ strlen (sb_text s) < sb_cap s).

Section Writes.
Variable alloc : Z -> bool.

(** [f] adds [t], or fails for want of memory. *)
Record writes (f : SB -> SB) (t : string) : Prop := {
  wr_fits : forall s, sb_fits s -> sb_fits (f s);
  wr_text : forall s, sb_fits s -> sb_err (f s) = false ->
    sb_err s = false /\ sb_text (f s) = (sb_text s ++ t)%string;
  wr_fine : (forall n, alloc n = true) -> forall s, sb_err s = false -> sb_err (f s) = false
}.

Lemma sb_need_spec n s : 0 <= n -> sb_fits s ->
  sb_fits (sb_need alloc n s) /\ sb_text (sb_need alloc n s) = sb_text s /\
  (sb_err (sb_need alloc n s) = false ->
     sb_err s = false /\ strlen (sb_text s) + n < sb_cap (sb_need alloc n s) /\
     16384 <= sb_cap (sb_need alloc n s)).
Proof.
  intros Hn Hf. pose proof (strlen_nonneg (sb_text s)) as Hl. unfold sb_need.
  destruct (sb_err s) eqn:He; [by rewrite He|].
  set (need := strlen (sb_text s) + n + 1).
  destruct (Z.leb_spec need (sb_cap s)).
  { split_and!; [done|done|]. intros _. split_and!; [done|lia|].
    destruct Hf as [[Hc Ht]|[]]; [lia|done]. }
  set (base := if sb_cap s =? 0 then 16384 else sb_cap s).
  assert (16384 <= base) by (subst base; destruct (Z.eqb_spec (sb_cap s) 0), Hf as [[]|[]]; lia).
  destruct (sb_grow_enough (Z.to_nat (Z.log2 need)) base need) as [H1 H2]; [lia|..].
  { rewrite Z2Nat.id by apply Z.log2_nonneg.
    assert (0 < need) as Hp by lia. apply Z.log2_spec in Hp as [_ Hp].
    rewrite Z.pow_succ_r in Hp by apply Z.log2_nonneg.
    pose proof (Z.pow_nonneg 2 (Z.log2 need)). nia. }
  destruct (alloc _); cbn.
  - split_and!; [right; cbn; lia|done|]. intros _. lia.
  - split_and!; [|done|done]. destruct Hf as [[]|[]]; [left|right]; done.
Qed.

Lemma sb_need_fine n s : (forall n, alloc n = true) -> sb_err s = false ->
  sb_err (sb_need alloc n s) = false.
Proof.
  intros Ha He. unfold sb_need. rewrite He. destruct (_ <=? _); [done|]. by rewrite Ha.
Qed.

Lemma writes_puts t : writes (sb_puts alloc t) t.
Proof.
  split; unfold sb_puts.
  - intros s Hf. destruct (sb_need_spec (strlen t) s (strlen_nonneg t) Hf) as (H & Ht & Hc).
    destruct (sb_err (sb_need alloc (strlen t) s)) eqn:E; [done|]. destruct Hc as (_ & ? & ?); [done|].
    right. cbn. rewrite Ht, strlen_app. lia.
  - intros s Hf. destruct (sb_need_spec (strlen t) s (strlen_nonneg t) Hf) as (H & Ht & Hc).
    destruct (sb_err (sb_need alloc (strlen t) s)) eqn:E; [by rewrite E|]. cbn. rewrite Ht, E.
    intros _. by destruct Hc as (? & _).
  - intros Ha s He. rewrite (sb_need_fine _ _ Ha He). cbn. by apply sb_need_fine.
Qed.

Lemma writes_ext f g t : writes f t -> (forall s, g s = f s) -> writes g t.
Proof. intros [H1 H2 H3] E. split; intros; rewrite E in *; auto. Qed.

Lemma writes_eq f t u : writes f t -> t = u -> writes f u.
Proof. by intros ? <-. Qed.

Lemma writes_putc c : writes (sb_putc alloc c) (str1 c).
Proof. eapply writes_ext; [apply writes_puts|done]. Qed.

Lemma writes_printf t : writes (sb_printf alloc t) t.
Proof.
  eapply writes_ext; [apply (writes_puts t)|]. intros s. unfold sb_printf, sb_puts.
  destruct (sb_err s) eqn:E; [|done]. unfold sb_need. by rewrite E, E.
Qed.

Lemma writes_id : writes (fun s => s) EmptyString.
Proof. split; [done| |done]. intros s _ E. by rewrite sapp_nil_r. Qed.

Lemma writes_seq f g t u : writes f t -> writes g u -> writes (fun s => g (f s)) (t ++ u).
Proof.
  intros [F1 F2 F3] [G1 G2 G3]. split; [auto| |auto].
  intros s Hf E. destruct (G2 (f s)) as [E1 ->]; [auto|done|].
  destruct (F2 s Hf E1) as [? ->]. split; [done|]. by rewrite sapp_assoc.
Qed.

Lemma writes_jchar c : writes (sb_jchar alloc c) (escape_char c).
Proof.
  unfold sb_jchar, escape_char, BACKSLASH, Tunables.BACKSLASH, WfbJson.BACKSLASH.
  destruct (aeq c DQ) eqn:E1.
  { apply Ascii.eqb_eq in E1 as ->. apply writes_puts. }
  destruct (aeq c (ch 92)) eqn:E2.
  { apply Ascii.eqb_eq in E2 as ->. apply writes_puts. }
  cbn [orb]. repeat (case_match; [first [apply writes_puts|apply writes_printf]|]).
  apply writes_putc.
Qed.

(** A C string in a literal. *)
Fixpoint jescape (v : string) : string :=
  match v with
  | EmptyString => EmptyString
  | String c v => if aeq c NUL then EmptyString else (escape_char c ++ jescape v)%string
  end.

Lemma writes_jchars v : writes (sb_jchars alloc v) (jescape v).
Proof.
  induction v as [|c v IH]; cbn [sb_jchars jescape]; [apply writes_id|].
  destruct (aeq c NUL); [apply writes_id|]. by apply (writes_seq _ _ _ _ (writes_jchar c)).
Qed.

Definition jstr_text (v : option string) : string :=
  match v with None => "null" | Some v => quoted (jescape v) end.

Lemma writes_jstr v : writes (sb_jstr alloc v) (jstr_text v).
Proof.
  destruct v as [v|]; [|apply writes_puts]. unfold jstr_text, quoted.
  eapply writes_ext; [|by intros s].
  exact (writes_seq _ _ _ _ (writes_putc DQ) (writes_seq _ _ _ _ (writes_jchars v) (writes_putc DQ))).
Qed.

Lemma writes_nil : writes (sb_all []) EmptyString.
Proof. apply writes_id. Qed.

Lemma writes_cons w ws t u : writes w t -> writes (sb_all ws) u -> writes (sb_all (w :: ws)) (t ++ u).
Proof. intros H K. exact (writes_seq _ _ _ _ H K). Qed.

(** A loop whose pieces are separated by commas. *)
Lemma writes_items {A} (w : bool -> A -> SB -> SB) (item : A -> string) l :
  (forall b x, writes (w b x) ((if b then "" else ",") ++ item x)) ->
  writes (sb_each true w l) (commas (map item l)).
Proof.
  intros Hw.
  assert (forall l, writes (sb_each false w l)
            (match l with [] => "" | _ => "," ++ commas (map item l) end)%string) as Hrest.
  { clear l. induction l as [|x l IH]; [apply writes_id|]. cbn [sb_each map].
    eapply writes_eq; [exact (writes_seq _ _ _ _ (Hw false x) IH)|].
    destruct l as [|y l]; [by rewrite sapp_nil_r|]. cbn [commas map]. by rewrite !sapp_assoc. }
  destruct l as [|x l]; [apply writes_id|]. cbn [sb_each map].
  eapply writes_eq; [exact (writes_seq _ _ _ _ (Hw true x) (Hrest l))|].
  destruct l as [|y l]; cbn [commas map]; [by rewrite sapp_nil_r|done].
Qed.
End Writes.

(** ** Reading a literal back

    [read_literal] is the reader RFC 8259 asks for, after the opening quote, for the escapes of
    single bytes. *)

Definition short_escape (c : ascii) : option ascii :=
  if aeq c DQ || aeq c BACKSLASH || aeq c (ch 47) then Some c
  else if aeq c (ch 98) then Some (ch 8)
  else if aeq c (ch 102) then Some (ch 12)
  else if aeq c (ch 110) then Some LF
  else if aeq c (ch 114) then Some CR
  else if aeq c (ch 116) then Some TAB
  else None.

Definition hex_byte (h1 h2 h3 h4 : ascii) : option ascii :=
  a ← hexv h1; b ← hexv h2; c ← hexv h3; d ← hexv h4;
  let n := ((a * 16 + b) * 16 + c) * 16 + d in if n <? 128 then Some (ch n) else None.

Fixpoint read_literal (s : string) : option (string * string) :=
  match s with
  | EmptyString => None
  | String c s =>
      if aeq c DQ then Some (EmptyString, s)
      else if aeq c BACKSLASH then
        match s with
        | String e s =>
            if aeq e (ch 117) then
              match s with
              | String h1 (String h2 (String h3 (String h4 s))) =>
                  b ← hex_byte h1 h2 h3 h4; r ← read_literal s; Some (String b r.1, r.2)
              | _ => None
              end
            else b ← short_escape e; r ← read_literal s; Some (String b r.1, r.2)
        | EmptyString => None
        end
      else if code c <? 32 then None
      else r ← read_literal s; Some (String c r.1, r.2)
  end.

Definition all_bytes : list ascii := map (fun n => ch (Z.of_nat n)) (List.seq 0 256).

Lemma all_bytes_all c : In c all_bytes.
Proof.
  unfold all_bytes. apply in_map_iff. exists (Ascii.nat_of_ascii c). split.
  - unfold ch. rewrite Nat2Z.id. apply Ascii.ascii_nat_embedding.
  - apply in_seq. pose proof (Ascii.nat_ascii_bounded c). lia.
Qed.

(** A claim about a byte is checked on all 256. *)
Lemma byte_forall (P : ascii -> bool) : forallb P all_bytes = true -> forall c, P c = true.
Proof. intros H c. rewrite forallb_forall in H. apply H, all_bytes_all. Qed.

Lemma u_escape_byte : forall c, (32 <=? code c) ||
  match hex_byte (ch 48) (ch 48) (hex_digit (Z.shiftr (code c) 4)) (hex_digit (Z.land (code c) 15)) with
  | Some b => Ascii.eqb b c
  | None => false
  end = true.
Proof. apply byte_forall. vm_compute. reflexivity. Qed.

Lemma read_escape c t : c <> NUL ->
  read_literal (escape_char c ++ t) = (r ← read_literal t; Some (String c r.1, r.2)).
Proof.
  intros Hn. unfold escape_char.
  destruct (aeq c DQ) eqn:E1; [by apply Ascii.eqb_eq in E1 as ->|].
  destruct (aeq c Tunables.BACKSLASH) eqn:E2; [by apply Ascii.eqb_eq in E2 as ->|].
  cbn [orb].
  destruct (aeq c LF) eqn:E3; [by apply Ascii.eqb_eq in E3 as ->|].
  destruct (aeq c CR) eqn:E4; [by apply Ascii.eqb_eq in E4 as ->|].
  destruct (aeq c TAB) eqn:E5; [by apply Ascii.eqb_eq in E5 as ->|].
  destruct (Z.ltb_spec (code c) 32) as [Hc|Hc].
  - assert (hex_byte (ch 48) (ch 48) (hex_digit (Z.shiftr (code c) 4)) (hex_digit (Z.land (code c) 15))
            = Some c) as Hb.
    { pose proof (u_escape_byte c) as K. apply orb_true_iff in K as [K|K]; [lia|].
      destruct (hex_byte _ _ _ _) as [b|]; [|done]. by apply Ascii.eqb_eq in K as ->. }
    revert Hb. unfold u_escape. generalize (hex_digit (Z.shiftr (code c) 4)), (hex_digit (Z.land (code c) 15)).
    intros h l Hb. cbn [String.append read_literal str1]. aeq_consts.
    change (aeq Tunables.BACKSLASH BACKSLASH) with true. cbn iota. by rewrite Hb.
  - cbn [str1 String.append read_literal]. rewrite E1. unfold BACKSLASH.
    unfold Tunables.BACKSLASH in E2. rewrite E2. by destruct (Z.ltb_spec (code c) 32); [lia|].
Qed.

(** What [sb_jstr] writes for a C string is read back as that string. *)
Theorem literal_read_back v t : lacks NUL v = true ->
  read_literal (jescape v ++ String DQ t) = Some (v, t).
Proof.
  induction v as [|c v IH]; intros Hv; [done|].
  unfold lacks in Hv. cbn [all_chars] in Hv. apply andb_true_iff in Hv as [Hc Hv].
  apply negb_true_iff in Hc. cbn [jescape]. rewrite Hc, sapp_assoc, read_escape.
  - by rewrite IH.
  - intros ->. by vm_compute in Hc.
Qed.

(** ** Percent-encoding is undone *)

Definition pct (c : ascii) : string :=
  String PERCENT (String (hex_digit (Z.shiftr (code c) 4)) (str1 (hex_digit (Z.land (code c) 15)))).

Lemma pct_byte : forall c,
  match hexv (hex_digit (Z.shiftr (code c) 4)), hexv (hex_digit (Z.land (code c) 15)) with
  | Some h, Some l => Ascii.eqb (ch (h * 16 + l)) c
  | _, _ => false
  end = true.
Proof. apply byte_forall. vm_compute. reflexivity. Qed.

Fixpoint url_encode (s : string) : string :=
  match s with EmptyString => EmptyString | String c s => (pct c ++ url_encode s)%string end.

Theorem url_decode_encode s : forall cap, (String.length s < cap)%nat -> url_decode cap (url_encode s) = s.
Proof.
  induction s as [|c s IH]; intros cap Hc; cbn [url_encode].
  { by destruct cap as [|[|cap]]. }
  destruct cap as [|[|cap]]; cbn [String.length] in Hc; [lia|lia|].
  pose proof (pct_byte c) as K. revert K. unfold pct.
  generalize (hex_digit (Z.shiftr (code c) 4)), (hex_digit (Z.land (code c) 15)). intros h l K.
  cbn [String.append str1 url_decode]. aeq_consts.
  destruct (hexv h) as [hi|]; [|done]. destruct (hexv l) as [lo|]; [|done].
  apply Ascii.eqb_eq in K. rewrite K.
  f_equal. apply (IH (S cap)). lia.
Qed.

(** ** The count per rung is a maximum *)

Section DistSpec.
Context `{!CAbi}.
Variables (raw : string) (toks : list JTok).

(** What one element of [ant] reports: its rung and its packets. *)
Definition rung_pkts (ci : nat) : option (Z * Z) :=
  if bool_decide (jt_type (tok_at toks ci) = JT_OBJ) then
    mv ← jfind raw toks ci "mcs"; m ← jint raw (tok_at toks mv);
    Some (m, i32 (default 0 (pv ← jfind raw toks ci "pkts"; jint raw (tok_at toks pv))))
  else None.

(** The elements the walk visits. *)
Fixpoint elements (kids ci : nat) : list nat :=
  match kids with O => [] | S kids => ci :: elements kids (jskip toks ci) end.

(** The packets reported for a rung, by the elements that report any. *)
Definition reports_of (m : Z) (cis : list nat) : list Z :=
  omap (fun ci => '(r, p) ← rung_pkts ci; if r =? m then Some p else None) cis.

Lemma dist_step_spec m ci out : length out = 8%nat -> 0 <= m < 8 ->
  length (dist_step raw toks ci out) = 8%nat /\
  nth (Z.to_nat m) (dist_step raw toks ci out) 0 =
    fold_left Z.max (reports_of m [ci]) (nth (Z.to_nat m) out 0).
Proof.
  intros Hl Hm. unfold dist_step, reports_of, rung_pkts. cbn [omap list_omap].
  destruct (bool_decide _); [|done]. cbn [mbind option_bind].
  destruct (jfind raw toks ci "mcs") as [mv|]; [|done]. cbn [mbind option_bind].
  destruct (jint raw (tok_at toks mv)) as [r|]; [|done]. cbn [mbind option_bind].
  set (p := i32 _). destruct ((0 <=? r) && (r <? 8)) eqn:Hr.
  - apply andb_true_iff in Hr as [H1 H2]. apply Z.leb_le in H1. apply Z.ltb_lt in H2.
    assert (Hn : forall v, nth (Z.to_nat m) (<[Z.to_nat r := v]> out) 0 =
                    if r =? m then v else nth (Z.to_nat m) out 0).
    { intros v. rewrite !nth_lookup. destruct (Z.eqb_spec r m) as [->|Hne].
      - rewrite list_lookup_insert_eq by (rewrite Hl; lia). done.
      - rewrite list_lookup_insert_ne by lia. done. }
    rewrite Z.gtb_ltb. destruct (Z.ltb_spec (nth (Z.to_nat r) out 0) p) as [Hp|Hp].
    + rewrite length_insert, Hn. split; [done|].
      destruct (Z.eqb_spec r m) as [->|_]; [|done]. cbn. lia.
    + split; [done|]. destruct (Z.eqb_spec r m) as [->|_]; [|done]. cbn. lia.
  - split; [done|]. destruct (Z.eqb_spec r m) as [->|_]; [|done]. exfalso.
    apply andb_false_iff in Hr as [Hr|Hr]; lia.
Qed.

Lemma dist_walk_spec m kids : forall ci out, length out = 8%nat -> 0 <= m < 8 ->
  length (dist_walk raw toks kids ci out) = 8%nat /\
  nth (Z.to_nat m) (dist_walk raw toks kids ci out) 0 =
    fold_left Z.max (reports_of m (elements kids ci)) (nth (Z.to_nat m) out 0).
Proof.
  induction kids as [|kids IH]; intros ci out Hl Hm; [done|]. cbn [dist_walk elements].
  destruct (dist_step_spec m ci out Hl Hm) as [Hl1 E1].
  destruct (IH (jskip toks ci) _ Hl1 Hm) as [Hl2 E2]. split; [done|]. rewrite E2, E1.
  unfold reports_of. change (ci :: elements kids (jskip toks ci)) with ([ci] ++ elements kids (jskip toks ci)).
  by rewrite omap_app, fold_left_app.
Qed.
End DistSpec.

(** Every element of the antennas of a stored datagram counts, and only they: a rung's entry is
    the greatest number of packets reported for it, or 0. *)
Theorem mcs_dist_is_max `{!CAbi} raw toks ant m :
  raw <> EmptyString -> json_parse raw 768 = Some toks -> jt_type (tok_at toks 0) = JT_OBJ ->
  (0 < length toks)%nat -> jfind raw toks 0 "ant" = Some ant -> jt_type (tok_at toks ant) = JT_ARR ->
  0 <= m < 8 ->
  nth (Z.to_nat m) (mcs_dist_from_raw (Some raw)) 0 =
    fold_left Z.max
      (reports_of raw toks m (elements toks (Z.to_nat (jt_size (tok_at toks ant))) (S ant))) 0.
Proof.
  intros Hr Hp H0 Hn Ha Ht Hm. unfold mcs_dist_from_raw. destruct raw as [|c raw]; [done|].
  rewrite Hp, H0, Ha, Ht. destruct (Nat.ltb_spec (length toks) 1); [lia|].
  rewrite !bool_decide_eq_true_2 by done. cbn [negb orb].
  destruct (dist_walk_spec (String c raw) toks m (Z.to_nat (jt_size (tok_at toks ant))) (S ant) dist_zero)
    as [_ ->]; [done|done|]. f_equal.
  destruct Hm as [HA HB]. clear -HA HB. assert (Z.to_nat m < 8)%nat as H by lia. revert H.
  generalize (Z.to_nat m) as n. intros n H. do 8 (destruct n as [|n]; [done|]). lia.
Qed.

(** ** The calendar *)

Definition next_date (d : Z * Z * Z) : Z * Z * Z :=
  let '(y, m, d) := d in
  if d <? month_length y m then (y, m, d + 1)
  else if m <? 12 then (y, m + 1, 1) else (y + 1, 1, 1).

Fixpoint months_length (n : nat) (y m : Z) : Z :=
  match n with O => month_length y m | S n => month_length y m + months_length n y (m + 1) end.

Lemma month_length_pos y m : 28 <= month_length y m.
Proof. unfold month_length. repeat case_match; lia. Qed.

Lemma year_months y : months_length 11 y 1 = year_length y.
Proof.
  unfold year_length. cbn [months_length]. unfold month_length.
  repeat match goal with |- context [?a =? ?b] => let v := eval vm_compute in (a =? b) in change (a =? b) with v end.
  cbn [orb]. destruct (is_leap y); lia.
Qed.

Lemma month_of_first n y m : month_of n y m 0 = (m, 1).
Proof. destruct n; cbn; [done|]. pose proof (month_length_pos y m). by destruct (Z.ltb_spec 0 (month_length y m)); [|lia]. Qed.

Lemma month_of_next n y : forall m day, 0 <= day -> day + 1 < months_length n y m ->
  month_of n y m (day + 1) =
    let r := month_of n y m day in
    if r.2 <? month_length y r.1 then (r.1, r.2 + 1) else (r.1 + 1, 1).
Proof.
  induction n as [|n IH]; intros m day Hd H; cbn [month_of months_length] in *.
  - cbn. destruct (Z.ltb_spec (day + 1) (month_length y m)); [done|lia].
  - destruct (Z.ltb_spec day (month_length y m)) as [Hs|Hs]; cbn.
    + destruct (Z.ltb_spec (day + 1) (month_length y m)); [done|].
      replace (day + 1 - month_length y m) with 0 by lia. apply month_of_first.
    + destruct (Z.ltb_spec (day + 1) (month_length y m)); [lia|].
      replace (day + 1 - month_length y m) with (day - month_length y m + 1) by lia.
      apply IH; lia.
Qed.

Lemma month_of_last n y : forall m, month_of n y m (months_length n y m - 1) =
  (m + Z.of_nat n, month_length y (m + Z.of_nat n)).
Proof.
  induction n as [|n IH]; intros m; cbn [month_of months_length].
  - rewrite Z.add_0_r. f_equal. lia.
  - assert (28 <= months_length n y (m + 1)) as Hp.
    { clear IH. revert m. induction n as [|n IH]; intros m; cbn; [apply month_length_pos|].
      pose proof (month_length_pos y (m + 1)). specialize (IH (m + 1)). lia. }
    destruct (Z.ltb_spec (month_length y m + months_length n y (m + 1) - 1) (month_length y m)); [lia|].
    replace (month_length y m + months_length n y (m + 1) - 1 - month_length y m)
      with (months_length n y (m + 1) - 1) by lia.
    rewrite IH. replace (m + 1 + Z.of_nat n) with (m + Z.of_nat (S n)) by lia. done.
Qed.

Lemma month_of_range n y m day : m <= (month_of n y m day).1 <= m + Z.of_nat n.
Proof.
  revert m day. induction n as [|n IH]; intros m day; cbn; [lia|].
  case_match; cbn; [lia|]. specialize (IH (m + 1) (day - month_length y m)). lia.
Qed.

(** A day that falls into the last month. *)
Lemma month_of_end n y m day : (month_of n y m day).1 = m + Z.of_nat n ->
  day + 1 = months_length n y m - month_length y (m + Z.of_nat n) + (month_of n y m day).2.
Proof.
  revert m day. induction n as [|n IH]; intros m day; cbn [month_of months_length].
  - cbn. rewrite Z.add_0_r. lia.
  - case_match; cbn [fst snd]; [lia|]. intros Hm.
    specialize (IH (m + 1) (day - month_length y m)).
    replace (m + 1 + Z.of_nat n) with (m + Z.of_nat (S n)) in IH by lia. specialize (IH Hm). lia.
Qed.

Lemma year_length_pos y : 365 <= year_length y <= 366.
Proof. unfold year_length. case_match; lia. Qed.

(** The fuel is enough: the day is one of the year. *)
Lemma year_of_in fuel : forall y day, 0 <= day -> day < 365 * Z.of_nat fuel ->
  let r := year_of fuel y day in 0 <= r.2 < year_length r.1.
Proof.
  induction fuel as [|fuel IH]; intros y day H0 H; [lia|]. cbn [year_of].
  pose proof (year_length_pos y). destruct (Z.ltb_spec day (year_length y)); [cbn; lia|].
  apply IH; lia.
Qed.

(** More fuel does not matter. *)
Lemma year_of_more fuel : forall more y day, 0 <= day -> day < 365 * Z.of_nat fuel ->
  year_of (fuel + more) y day = year_of fuel y day.
Proof.
  induction fuel as [|fuel IH]; intros more y day H0 H; [lia|]. cbn [year_of Nat.add].
  pose proof (year_length_pos y). destruct (Z.ltb_spec day (year_length y)); [done|].
  apply IH; lia.
Qed.

Lemma year_of_next fuel : forall y day, 0 <= day -> day + 1 < 365 * Z.of_nat fuel ->
  year_of fuel y (day + 1) =
    let r := year_of fuel y day in
    if r.2 + 1 <? year_length r.1 then (r.1, r.2 + 1) else (r.1 + 1, 0).
Proof.
  induction fuel as [|fuel IH]; intros y day H0 H; [lia|]. cbn [year_of].
  pose proof (year_length_pos y). destruct (Z.ltb_spec day (year_length y)) as [Hs|Hs]; cbn.
  - destruct (Z.ltb_spec (day + 1) (year_length y)); [done|].
    replace (day + 1 - year_length y) with 0 by lia.
    destruct fuel; [lia|]. cbn. pose proof (year_length_pos (y + 1)).
    by destruct (Z.ltb_spec 0 (year_length (y + 1))); [|lia].
  - destruct (Z.ltb_spec (day + 1) (year_length y)); [lia|].
    replace (day + 1 - year_length y) with (day - year_length y + 1) by lia. apply IH; lia.
Qed.

(** The days from 1 January 1970 on have the dates of the Gregorian calendar, one after the
    other. *)
Theorem civil_follows day : 0 <= day ->
  civil 0 = (1970, 1, 1) /\ civil (day + 1) = next_date (civil day).
Proof.
  intros H0. split; [done|].
  set (F := S (Z.to_nat ((day + 1) / 365))).
  assert (Hf : forall d, 0 <= d <= day + 1 -> year_of (S (Z.to_nat (d / 365))) 1970 d = year_of F 1970 d).
  { intros d Hd. pose proof (Z.div_mod d 365). pose proof (Z.mod_pos_bound d 365).
    pose proof (Z.div_le_mono d (day + 1) 365).
    replace F with (S (Z.to_nat (d / 365)) + (Z.to_nat ((day + 1) / 365) - Z.to_nat (d / 365)))%nat by lia.
    symmetry. apply year_of_more; lia. }
  assert (Hb : day + 1 < 365 * Z.of_nat F).
  { subst F. pose proof (Z.div_mod (day + 1) 365). pose proof (Z.mod_pos_bound (day + 1) 365). lia. }
  unfold civil. rewrite !Hf, year_of_next by lia. clearbody F.
  pose proof (year_of_in F 1970 day H0 ltac:(lia)) as Hr. cbn zeta in Hr |- *.
  destruct (year_of F 1970 day) as [y d]. cbn [fst snd] in *. rewrite <- year_months in *.
  destruct (Z.ltb_spec (d + 1) (months_length 11 y 1)) as [Hn|Hn].
  - rewrite month_of_next by lia. cbn zeta. pose proof (month_of_range 11 y 1 d) as Hm.
    destruct (month_of 11 y 1 d) as [m dd] eqn:E. cbn [fst snd next_date] in *.
    destruct (Z.ltb_spec dd (month_length y m)) as [|Hl]; [done|].
    destruct (Z.ltb_spec m 12); [done|]. exfalso.
    assert (m = 12) as -> by lia.
    pose proof (month_of_end 11 y 1 d) as He. rewrite E in He. cbn [fst snd] in He.
    specialize (He eq_refl). change (1 + Z.of_nat 11) with 12 in He. lia.
  - replace d with (months_length 11 y 1 - 1) by lia. rewrite month_of_last, month_of_first.
    cbn. by rewrite Z.ltb_irrefl.
Qed.
