(* ===== verification/GsTele.v ===== *)
(** * The telemetry pages of the ground station

    [ground/gs_supervisor_telemetry.c]: the HTTP routes that show and edit the store of
    [wfb_logger.c].  Each opens a connection of its own.  The calls of SQLite are events; what
    it answers is the class [TeleEnv], and the logger's calls are the class [Recorder], which
    [GsStore]'s pair of threads implements.  The embedded pages are blobs, named here. *)

From S2P Require Import Prelude CFloat CString Strtod Decimal NumText Io WfbJson JsonForest JsonText.
From S2P Require Import Tunables GsText GsConfig GsRow GsLog GsStore GsPage.

Local Open Scope list_scope.
Local Open Scope Z_scope.
#[local] Arguments String.append !_ _ /.

(** ** SQLite *)

(** What the [sqlite3_column_] functions return for one column of a row: whether its type is
    NULL, its value as [int64] and as [double], and its text, NULL or so many bytes. *)
Record Col := Build_Col { cl_null : bool; cl_int : Z; cl_real : fp; cl_text : option string }.

Definition col_none : Col := Build_Col true 0 f0 None.
Definition Row : Type := list Col.
Definition column (r : Row) (i : nat) : Col := nth i r col_none.

(** The parameters of a statement, in the order of its question marks. *)
Inductive Bind := BInt (v : Z) | BText (v : string) | BNull.

Inductive Asset := index_html | session_html | app_js | app_css | uplot_js | uplot_css.

(** [TRun]: the parameters are bound and the statement is stepped to its end. *)
Inductive TEvent :=
  | TOpen (path : string) | TExec (sql : string) | TPrepare (sql : string)
  | TRun (binds : list Bind) | TFinalize | TClose | TRowid | TTime
  | TReply (code : Z) (ctype body : string)
  | TBlob (ctype : string) (a : Asset).

(** [sqlite3_open_v2]: done, or failed with or without a handle to close. *)
Inductive OpenAnswer := Opened | OpenFailed (handle : bool).

(** [te_rows]: the rows stepped through; [te_done]: the step ends with [SQLITE_DONE];
    [te_alloc]: [realloc] of the reply's buffer; [te_rows_alloc]: of the array of rows. *)
Class TeleEnv := {
  te_open : list TEvent -> OpenAnswer;
  te_exec : list TEvent -> bool;
  te_prepare : list TEvent -> bool;
  te_rows : list TEvent -> list Row;
  te_done : list TEvent -> bool;
  te_rowid : list TEvent -> Z;
  te_time : list TEvent -> Z;
  te_alloc : list TEvent -> Z -> bool;
  te_rows_alloc : list TEvent -> Z -> bool
}.

(** The logger as the pages use it. *)
Class Recorder (R : Type) := {
  rec_start : R -> R;
  rec_stop : R -> R;
  rec_roll : Z -> R -> R;
  rec_status : R -> WfbLogStatus * R;
  rec_path : R -> string
}.

Abbreviation TG := (GIO TEvent).

(** ** Rows of the chart *)

Record SRow := Build_SRow {
  rw_ts_ms : fp; rw_rssi_comb : option fp; rw_uplink_rssi : option fp; rw_rssi_spread : option fp;
  rw_snr_avg : option fp; rw_per : option fp; rw_mcs : option Z; rw_pkt_lost : option Z;
  rw_fec_rec : option Z; rw_mcs_pkts : list Z
}.

Section Rows.
Context `{!CAbi}.

(** [COLD] and [COLI]; the flag of the source says that the field is there. *)
Definition col_double (c : Col) : option fp := if cl_null c then None else Some (cl_real c).
Definition col_long (c : Col) : option Z := if cl_null c then None else Some (long_cast (cl_int c)).

Definition series_row (r : Row) : SRow := {|
  rw_ts_ms := F64.of_Z (cl_int (column r 0));
  rw_rssi_comb := col_double (column r 1);
  rw_uplink_rssi := col_double (column r 2);
  rw_rssi_spread := col_double (column r 3);
  rw_snr_avg := col_double (column r 4);
  rw_per := col_double (column r 5);
  rw_mcs := col_long (column r 6);
  rw_pkt_lost := col_long (column r 7);
  rw_fec_rec := col_long (column r 8);
  rw_mcs_pkts := mcs_dist_from_raw (cl_text (column r 9)) |}.
End Rows.

(** The rows that are kept: reading ends where the array cannot grow. *)
Fixpoint collect_rows (can : Z -> bool) (cap n : Z) (l : list Row) : list Row :=
  match l with
  | [] => []
  | r :: l =>
      if n >=? cap then
        let cap := if cap =? 0 then 1024 else cap * 2 in
        if can cap then r :: collect_rows can cap (n + 1) l else []
      else r :: collect_rows can cap (n + 1) l
  end.

(** ** The bodies *)

Section Bodies.
Context `{!CAbi}.
Variable alloc : Z -> bool.

Definition sb_col_text (c : Col) : SB -> SB :=
  if cl_null c then sb_puts alloc "null" else sb_jstr alloc (cl_text c).

Definition sb_col_int (c : Col) : SB -> SB :=
  if cl_null c then sb_puts alloc "null" else sb_printf alloc (pretty (cl_int c)).

Definition put_key (k : string) : SB -> SB := sb_puts alloc (with_quotes (",'" ++ k ++ "':")).

Definition session_item (first : bool) (r : Row) : SB -> SB := sb_all [
  (if first then fun s => s else sb_putc alloc COMMA);
  sb_printf alloc (with_quotes "{'id':" ++ pretty (cl_int (column r 0)) ++ with_quotes ",'source':");
  sb_col_text (column r 1);
  put_key "started_at"; sb_col_text (column r 2);
  put_key "ended_at"; sb_col_text (column r 3);
  put_key "location"; sb_col_text (column r 4);
  put_key "scenario"; sb_col_text (column r 5);
  put_key "notes"; sb_col_text (column r 6);
  put_key "n_records"; sb_col_int (column r 7);
  put_key "first_ts"; sb_col_int (column r 8);
  put_key "last_ts"; sb_col_int (column r 9);
  sb_putc alloc BRACE_CLOSE].

Definition sessions_body (rows : list Row) : SB := sb_all [
  sb_putc alloc BRACKET_OPEN; sb_each true session_item rows; sb_putc alloc BRACKET_CLOSE] sb_zero.

Definition session_body (r : Row) : SB := sb_all [
  sb_printf alloc (with_quotes "{'id':" ++ pretty (cl_int (column r 0)) ++ with_quotes ",'source':");
  sb_col_text (column r 1);
  put_key "started_at"; sb_col_text (column r 2);
  put_key "ended_at"; sb_col_text (column r 3);
  put_key "location"; sb_col_text (column r 4);
  put_key "antenna_cfg"; sb_col_text (column r 5);
  put_key "tx_power"; sb_col_text (column r 6);
  put_key "channel"; sb_col_int (column r 7);
  put_key "scenario"; sb_col_text (column r 8);
  put_key "weather"; sb_col_text (column r 9);
  put_key "notes"; sb_col_text (column r 10);
  sb_putc alloc BRACE_CLOSE] sb_zero.

(** Milliseconds as seconds after [t0]. *)
Definition since (t0 ms : Z) : fp := F64.div (F64.of_Z (i64 (ms - t0))) (F64.of_Z 1000).

Definition label_item (t0 : Z) (first : bool) (r : Row) : SB -> SB := sb_all [
  (if first then fun s => s else sb_putc alloc COMMA);
  sb_printf alloc (with_quotes "{'id':" ++ pretty (cl_int (column r 0)) ++
    with_quotes ",'t0_s':" ++ printf_f 3 (since t0 (cl_int (column r 1))) ++
    with_quotes ",'t1_s':" ++ printf_f 3 (since t0 (cl_int (column r 2))) ++ with_quotes ",'kind':");
  sb_col_text (column r 3);
  put_key "value"; sb_col_text (column r 4);
  put_key "author"; sb_col_text (column r 5);
  sb_putc alloc BRACE_CLOSE].

Definition labels_body (t0 : Z) (rows : list Row) : SB := sb_all [
  sb_putc alloc BRACKET_OPEN; sb_each true (label_item t0) rows; sb_putc alloc BRACKET_CLOSE] sb_zero.

(** [EMIT_DBL] and [EMIT_INT]. *)
Definition emit (name : string) (text : SRow -> option string) (rows : list SRow) : SB -> SB := sb_all [
  sb_puts alloc (with_quotes (",'" ++ name ++ "':["));
  sb_each true (fun first r => sb_all [
    (if first then fun s => s else sb_putc alloc COMMA);
    match text r with Some t => sb_printf alloc t | None => sb_puts alloc "null" end]) rows;
  sb_putc alloc BRACKET_CLOSE].

Definition g_text (x : option fp) : option string := printf_g <$> x.
Definition d_text (x : option Z) : option string := pretty <$> x.

Definition comma_if (later : bool) : string := if later then "," else "".

(** The packets of one rung. *)
Definition dist_rung (rows : list SRow) (m : nat) : SB -> SB := sb_all [
  sb_printf alloc (comma_if (0 <? m)%nat ++ with_quotes "'" ++ pretty (Z.of_nat m) ++ with_quotes "':[");
  sb_each true (fun first r =>
    sb_printf alloc (comma_if (negb first) ++ pretty (nth m (rw_mcs_pkts r) 0))) rows;
  sb_putc alloc BRACKET_CLOSE].

Definition overlay_item (t0 : Z) (first : bool) (r : Row) : SB -> SB := sb_all [
  (if first then fun s => s else sb_putc alloc COMMA);
  sb_printf alloc (with_quotes "{'x0':" ++ printf_f 3 (since t0 (cl_int (column r 0))) ++
    with_quotes ",'x1':" ++ printf_f 3 (since t0 (cl_int (column r 1))) ++ with_quotes ",'kind':");
  sb_col_text (column r 2);
  put_key "value"; sb_col_text (column r 3);
  put_key "author"; sb_col_text (column r 4);
  sb_putc alloc BRACE_CLOSE].

(** Seconds of a row after [t0], both as [double]. *)
Definition row_seconds (t0 : Z) (r : SRow) : fp :=
  F64.div (F64.sub (rw_ts_ms r) (F64.of_Z t0)) (F64.of_Z 1000).

Definition series_body (t0 : Z) (rows : list SRow) (labels : list Row) : SB := sb_all [
  sb_puts alloc (with_quotes "{'series':{'t':[");
  sb_each true (fun first r =>
    sb_printf alloc (comma_if (negb first) ++ printf_f 3 (row_seconds t0 r))) rows;
  sb_putc alloc BRACKET_CLOSE;
  emit "rssi_comb" (fun r => g_text (rw_rssi_comb r)) rows;
  emit "uplink_rssi" (fun r => g_text (rw_uplink_rssi r)) rows;
  emit "rssi_spread" (fun r => g_text (rw_rssi_spread r)) rows;
  emit "snr_avg" (fun r => g_text (rw_snr_avg r)) rows;
  emit "per" (fun r => g_text (rw_per r)) rows;
  emit "mcs" (fun r => d_text (rw_mcs r)) rows;
  emit "pkt_lost" (fun r => d_text (rw_pkt_lost r)) rows;
  emit "fec_rec" (fun r => d_text (rw_fec_rec r)) rows;
  sb_puts alloc (with_quotes ",'tier1_state':[");
  sb_each true (fun first _ => sb_puts alloc (if first then "null" else ",null")) rows;
  sb_puts alloc "]}";
  sb_puts alloc (with_quotes ",'mcs_dist':{");
  sb_all (map (dist_rung rows) (List.seq 0 8));
  sb_putc alloc BRACE_CLOSE;
  sb_puts alloc (with_quotes ",'overlays':[");
  sb_each true (overlay_item t0) labels;
  sb_putc alloc BRACKET_CLOSE;
  sb_printf alloc (with_quotes ",'is_vehicle':false,'vehicle_extra':null,'model_ver':null,'n':" ++
    pretty (Z.of_nat (length rows)) ++ "}")] sb_zero.

Definition bool_text (b : bool) : string := if b then "true" else "false".

Definition capture_body (s : WfbLogStatus) (path : string) : SB := sb_all [
  sb_printf alloc (with_quotes "{'running':" ++ bool_text (ws_running s) ++
    with_quotes ",'started':" ++ bool_text (ws_started s) ++
    with_quotes ",'bind_error':" ++ bool_text (ws_bind_error s) ++
    with_quotes ",'db_error':" ++ bool_text (ws_db_error s) ++
    with_quotes ",'session_id':" ++ pretty (ws_session_id s) ++
    with_quotes ",'records':" ++ pretty (ws_records s) ++
    with_quotes ",'bad':" ++ pretty (ws_bad s) ++
    with_quotes ",'dropped':" ++ pretty (ws_dropped s) ++
    with_quotes ",'age':" ++ printf_f 1 (ws_age_s s) ++
    with_quotes ",'max_duration':" ++ pretty (ws_max_duration s) ++
    with_quotes ",'listen':" ++ pretty (ws_listen_port s) ++ with_quotes ",'db':");
  sb_jstr alloc (Some path);
  sb_putc alloc BRACE_CLOSE] sb_zero.
End Bodies.

(** ** The statements *)

Definition SQL_PRAGMA : string := "PRAGMA busy_timeout=3000; PRAGMA journal_mode=WAL;".
Definition SQL_SESSIONS : string :=
  "SELECT s.id, s.source, s.started_at, s.ended_at, s.location, s.scenario, s.notes, COUNT(r.id), MIN(r.ts_ms), MAX(r.ts_ms) FROM sessions s LEFT JOIN records r ON r.session_id = s.id GROUP BY s.id ORDER BY s.id DESC".
Definition SQL_SESSION : string :=
  "SELECT id, source, started_at, ended_at, location, antenna_cfg, tx_power, channel, scenario, weather, notes FROM sessions WHERE id=?".
Definition SQL_FIRST_TS : string := "SELECT MIN(ts_ms) FROM records WHERE session_id=?".
Definition SQL_LABELS : string :=
  "SELECT id, t0_ms, t1_ms, kind, value, author FROM labels WHERE session_id=? ORDER BY t0_ms, id".
Definition SQL_RECORDS : string :=
  "SELECT ts_ms, rssi_comb, uplink_rssi, rssi_spread, snr_avg, per, mcs, pkt_lost, fec_rec, raw_json FROM records WHERE session_id=? ORDER BY ts_ms, id".
Definition SQL_OVERLAYS : string :=
  "SELECT t0_ms, t1_ms, kind, value, author FROM labels WHERE session_id=? ORDER BY t0_ms".
Definition SQL_LABEL_ADD : string :=
  "INSERT INTO labels (session_id,t0_ms,t1_ms,kind,value,author,created_at) VALUES (?,?,?,?,?,?,?)".
Definition SQL_LABEL_DEL : string := "DELETE FROM labels WHERE id=?".
Definition SQL_ACTIVE : string := "SELECT source, ended_at FROM sessions WHERE id=?".

(** [F] of [tele_meta]. *)
Definition META_FIELDS : list string :=
  ["location"; "antenna_cfg"; "tx_power"; "channel"; "scenario"; "weather"; "notes"].

(** The assignments of the fields that are present; the buffer has 512 bytes. *)
Fixpoint meta_sets (first : bool) (fields : list (string * option string)) : string :=
  match fields with
  | [] => EmptyString
  | (_, None) :: fs => meta_sets first fs
  | (f, Some _) :: fs => ((if first then "" else ", ") ++ f ++ "=?" ++ meta_sets false fs)%string
  end.

Definition meta_sql (fields : list (string * option string)) : string :=
  take_chars 511 ("UPDATE sessions SET " ++ meta_sets true fields ++ " WHERE id=?").

(** [DELS], each cut off at the 160 bytes of [q]. *)
Definition delete_sql (sid : Z) : list string := map (take_chars 159) [
  "DELETE FROM predictions WHERE record_id IN (SELECT id FROM records WHERE session_id=" ++ pretty sid ++ ")";
  "DELETE FROM records WHERE session_id=" ++ pretty sid;
  "DELETE FROM labels WHERE session_id=" ++ pretty sid;
  "DELETE FROM sessions WHERE id=" ++ pretty sid]%string.

#[local] Arguments delete_sql : simpl never.

(** ** The handlers *)

Definition JSON_TYPE : string := "application/json".

Section Handlers.
Context {ABI : CAbi} {TE : TeleEnv}.

Definition sqlite3_exec (sql : string) : TG bool := ask (TExec sql) te_exec.
Definition sqlite3_close : TG unit := io_log TClose.

(** [wfb_logger_open]: whether there is a connection. *)
Definition wfb_logger_open (path : string) : TG bool :=
  if negb (nonempty path) then io_ret false
  else
    let! a := ask (TOpen path) te_open in
    match a with
    | Opened => let! _ := sqlite3_exec SQL_PRAGMA in io_ret true
    | OpenFailed handle => let! _ := (if handle then sqlite3_close else io_ret tt) in io_ret false
    end.

(** Prepare, bind, step through the rows, finalize; [None] when it cannot be prepared. *)
Definition with_rows (sql : string) (binds : list Bind) : TG (option (list Row)) :=
  let! ok := ask (TPrepare sql) te_prepare in
  if ok then
    let! rows := ask (TRun binds) te_rows in
    let! _ := io_log TFinalize in io_ret (Some rows)
  else io_ret None.

(** The same for a statement without rows: whether it was done. *)
Definition with_done (sql : string) (binds : list Bind) : TG bool :=
  let! ok := ask (TPrepare sql) te_prepare in
  if ok then
    let! d := ask (TRun binds) te_done in
    let! _ := io_log TFinalize in io_ret d
  else io_ret false.

(** An [INSERT] with the row id it gave, -1 when it was not done. *)
Definition insert_row (sql : string) (binds : list Bind) : TG Z :=
  let! ok := ask (TPrepare sql) te_prepare in
  if ok then
    let! d := ask (TRun binds) te_done in
    let! lid := (if d then ask TRowid te_rowid else io_ret (-1)) in
    let! _ := io_log TFinalize in io_ret lid
  else io_ret (-1).

(** The memory of the reply being written. *)
Definition allocator : TG (Z -> bool) := fun w => (te_alloc (w_trace w), w).
Definition rows_allocator : TG (Z -> bool) := fun w => (te_rows_alloc (w_trace w), w).

Definition api_send (code : Z) (ctype body : string) : TG unit := io_log (TReply code ctype body).
Definition send_json (code : Z) (body : string) : TG unit := api_send code JSON_TYPE (with_quotes body).

Definition sb_finish (s : SB) : TG unit :=
  if sb_err s || (sb_cap s =? 0)
  then api_send 500 "text/plain" ("telemetry: out of memory" ++ str1 LF)
  else api_send 200 JSON_TYPE (sb_text s).

Definition tele_sessions (path : string) : TG unit :=
  let! ok := wfb_logger_open path in
  if negb ok then send_json 200 "[]"
  else
    let! rows := with_rows SQL_SESSIONS [] in
    let! mem := allocator in
    let! _ := sqlite3_close in
    sb_finish (sessions_body mem (default [] rows)).

Definition tele_session_one (path : string) (sid : Z) : TG unit :=
  let! ok := wfb_logger_open path in
  if negb ok then send_json 404 "{'error':'no db'}"
  else
    let! rows := with_rows SQL_SESSION [BInt sid] in
    let! mem := allocator in
    let! _ := sqlite3_close in
    match rows with
    | Some (r :: _) => sb_finish (session_body mem r)
    | _ => send_json 404 "{'error':'no session'}"
    end.

(** [MIN(ts_ms)] of the session's records, 0 without any. *)
Definition first_ts (sid : Z) : TG Z :=
  let! rows := with_rows SQL_FIRST_TS [BInt sid] in
  io_ret match rows with
         | Some (r :: _) => if cl_null (column r 0) then 0 else cl_int (column r 0)
         | _ => 0
         end.

Definition tele_labels (path : string) (sid : Z) : TG unit :=
  let! ok := wfb_logger_open path in
  if negb ok then send_json 200 "[]"
  else
    let! t0 := first_ts sid in
    let! rows := with_rows SQL_LABELS [BInt sid] in
    let! mem := allocator in
    let! _ := sqlite3_close in
    sb_finish (labels_body mem t0 (default [] rows)).

Definition tele_series (path : string) (sid : Z) : TG unit :=
  let! ok := wfb_logger_open path in
  if negb ok then send_json 404 "{'error':'no db'}"
  else
    let! rows := with_rows SQL_RECORDS [BInt sid] in
    let! can := rows_allocator in
    let kept := collect_rows can 0 0 (default [] rows) in
    let t0 := match kept with r :: _ => cl_int (column r 0) | [] => 0 end in
    let! labels := with_rows SQL_OVERLAYS [BInt sid] in
    let! mem := allocator in
    let! _ := sqlite3_close in
    sb_finish (series_body mem t0 (map series_row kept) (default [] labels)).

(** [long], so that a 32-bit target keeps the low half. *)
Definition tele_first_ts (sid : Z) : TG Z :=
  let! t := first_ts sid in io_ret (long_cast t).

(** [strtod(s, NULL)]. *)
Definition strtod_or_zero (s : string) : fp := match strtod s with Some (v, _) => v | None => f0 end.

(** [(long long)(strtod(s) * 1000.0 + 0.5) + t0]. *)
Definition label_ms (s : string) (t0 : Z) : Z :=
  i64 (fp_to_Z (- 2 ^ 63) (2 ^ 63 - 1)
         (F64.add (F64.mul (strtod_or_zero s) (F64.of_Z 1000)) (F64.lit 1 2)) + t0).

Definition tele_label_add (path : string) (sid : Z) (qs : option string) : TG unit :=
  let text key cap := default EmptyString (qparam_dec qs key cap) in
  let t0s := text "t0" 32%nat in
  let t1s := text "t1" 32%nat in
  let kind := or_else (text "kind" 24%nat) "event" in
  let value := text "value" 256%nat in
  let author := or_else (text "author" 64%nat) "human:web" in
  let! ok := wfb_logger_open path in
  if negb ok then send_json 500 "{'ok':false}"
  else
    let! t0 := tele_first_ts sid in
    let a := label_ms t0s t0 in
    let b := label_ms t1s t0 in
    let '(t0_ms, t1_ms) := if b <? a then (b, a) else (a, b) in
    let! now := ask TTime te_time in
    let! lid := insert_row SQL_LABEL_ADD
                  [BInt sid; BInt t0_ms; BInt t1_ms; BText kind; BText value; BText author;
                   BText (utc_text now)] in
    let! _ := sqlite3_close in
    if lid >=? 0 then send_json 200 ("{'id':" ++ pretty lid ++ "}")
    else send_json 500 "{'ok':false,'error':'insert failed'}".

Definition tele_label_del (path : string) (qs : option string) : TG unit :=
  match qs_get_int qs "label_id" with
  | Some lid =>
      if lid <=? 0 then send_json 400 "{'ok':false,'error':'missing label_id'}"
      else
        let! ok := wfb_logger_open path in
        if negb ok then send_json 500 "{'ok':false}"
        else
          let! _ := with_done SQL_LABEL_DEL [BInt lid] in
          let! _ := sqlite3_close in
          send_json 200 "{'ok':true}"
  | None => send_json 400 "{'ok':false,'error':'missing label_id'}"
  end.

(** The parameters of the fields that are present. *)
Definition meta_bind (f : string * option string) : option Bind :=
  v ← f.2;
  Some (if negb (nonempty v) then BNull
        else if String.eqb f.1 "channel" then BInt (atoi v) else BText v).

Definition meta_fields (qs : option string) : list (string * option string) :=
  map (fun f => (f, qparam_dec qs f 256)) META_FIELDS.

Definition tele_meta (path : string) (sid : Z) (qs : option string) : TG unit :=
  let fields := meta_fields qs in
  let binds := omap meta_bind fields in
  if (length binds =? 0)%nat then send_json 200 "{'ok':true,'changed':0}"
  else
    let! ok := wfb_logger_open path in
    if negb ok then send_json 500 "{'ok':false}"
    else
      let! ok := with_done (meta_sql fields) (binds ++ [BInt sid]) in
      let! _ := sqlite3_close in
      if ok then send_json 200 "{'ok':true}" else send_json 500 "{'ok':false}".

(** An open session of the live capture. *)
Definition is_active (r : Row) : bool :=
  match cl_text (column r 0) with
  | Some src => starts_with "live" (until_nul src) && cl_null (column r 1)
  | None => false
  end.

(** The statements one after the other, until one fails. *)
Fixpoint exec_each (sqls : list string) : TG bool :=
  match sqls with
  | [] => io_ret true
  | sql :: sqls => let! ok := sqlite3_exec sql in if ok then exec_each sqls else io_ret false
  end.

Definition tele_session_delete (path : string) (sid : Z) : TG unit :=
  let! ok := wfb_logger_open path in
  if negb ok then send_json 500 "{'ok':false}"
  else
    let! rows := with_rows SQL_ACTIVE [BInt sid] in
    match rows with
    | Some (r :: _) =>
        if is_active r then
          let! _ := sqlite3_close in
          send_json 409 "{'ok':false,'error':'refusing to delete the active capture — roll a new session first'}"
        else
          let! _ := sqlite3_exec "BEGIN" in
          let! ok := exec_each (delete_sql sid) in
          let! _ := sqlite3_exec (if ok then "COMMIT" else "ROLLBACK")%string in
          let! _ := sqlite3_close in
          if ok then send_json 200 ("{'ok':true,'deleted':" ++ pretty sid ++ "}")
          else send_json 500 "{'ok':false,'error':'delete failed'}"
    | _ => let! _ := sqlite3_close in send_json 404 "{'ok':false,'error':'no session'}"
    end.

(** ** The routes *)

(** [qs_get] finds exactly [v]. *)
Definition action_is (v : string) (qs : option string) : bool :=
  match qs_get qs "action" with
  | Some a => (a.2 =? strlen v) && starts_with v a.1
  | None => false
  end.

(** The positive [id] of the query. *)
Definition query_id (qs : option string) : option Z :=
  id ← qs_get_int qs "id"; if id <=? 0 then None else Some id.

Definition with_id (qs : option string) (missing : string) (f : Z -> TG unit) : TG unit :=
  match query_id qs with Some id => f id | None => send_json 400 missing end.

Definition MISSING : string := "{'error':'missing id'}".
Definition MISSING_OK : string := "{'ok':false,'error':'missing id'}".

Section Routes.
Context {R : Type} {RC : Recorder R}.

Definition tele_capture_status (r : R) : TG R :=
  let '(s, r) := rec_status r in
  let! mem := allocator in
  let! _ := sb_finish (capture_body mem s (rec_path r)) in io_ret r.

Definition tele_capture_set (start : bool) (r : R) : TG R :=
  tele_capture_status (if start then rec_start r else rec_stop r).

Definition tele_capture_roll (qs : option string) (r : R) : TG R :=
  let r := rec_roll (default (-1) (qs_get_int qs "duration")) r in
  let! _ := send_json 200 "{'ok':true}" in io_ret r.

Definition tele_static (a : string) : TG unit :=
  let blob ctype asset := io_log (TBlob ctype asset) in
  if String.eqb a "app.js" then blob "application/javascript"%string app_js
  else if String.eqb a "app.css" then blob "text/css"%string app_css
  else if String.eqb a "uPlot.iife.min.js" then blob "application/javascript"%string uplot_js
  else if String.eqb a "uPlot.min.css" then blob "text/css"%string uplot_css
  else api_send 404 "text/plain" ("no such asset" ++ str1 LF).

(** Whether the path is one of the telemetry pages. *)
Definition tele_route (path : string) (qs : option string) (r : R) : TG (bool * R) :=
  let db := rec_path r in
  let own (m : TG unit) := let! _ := m in io_ret (true, r) in
  let drives (m : TG R) := let! r := m in io_ret (true, r) in
  let html a := own (io_log (TBlob "text/html; charset=utf-8" a)) in
  if String.eqb path "/telemetry" || String.eqb path "/telemetry/" then html index_html
  else if String.eqb path "/telemetry/session" then html session_html
  else if starts_with "/telemetry/static/" path then own (tele_static (drop_chars 18 path))
  else if String.eqb path "/api/v1/telemetry/sessions" then own (tele_sessions db)
  else if String.eqb path "/api/v1/telemetry/capture" then
    if action_is "roll" qs then drives (tele_capture_roll qs r)
    else if action_is "start" qs then drives (tele_capture_set true r)
    else if action_is "stop" qs then drives (tele_capture_set false r)
    else drives (tele_capture_status r)
  else if String.eqb path "/api/v1/telemetry/session" then
    own (with_id qs MISSING (fun id =>
      if action_is "delete" qs then tele_session_delete db id else tele_session_one db id))
  else if String.eqb path "/api/v1/telemetry/series" then own (with_id qs MISSING (tele_series db))
  else if String.eqb path "/api/v1/telemetry/meta" then
    own (with_id qs MISSING_OK (fun id => tele_meta db id qs))
  else if String.eqb path "/api/v1/telemetry/labels" then
    if action_is "add" qs then own (with_id qs MISSING_OK (fun id => tele_label_add db id qs))
    else if action_is "del" qs then own (tele_label_del db qs)
    else own (with_id qs MISSING (tele_labels db))
  else io_ret (false, r).
End Routes.
End Handlers.
