(* ===== verification/GsPages.v ===== *)
(** * What the telemetry pages do

    Theorems about [GsTele]: the protocol with SQLite, what a deletion did, the documents the
    replies are, and the pages at work on the logger. *)

From S2P Require Import Prelude CFloat CString Strtod Decimal NumText Io WfbJson JsonForest JsonText.
From S2P Require Import Tunables GsText GsConfig GsRow GsLog GsStore GsPage GsTele.

Local Open Scope list_scope.
Local Open Scope Z_scope.
#[local] Arguments String.append !_ _ /.
#[local] Arguments delete_sql : simpl never.

(** ** Connections, statements and replies

    [served tr c n]: behind the trace [tr] the connection is in state [c] and [n] requests are
    answered.  The rules are the protocol of SQLite and of HTTP: one connection at a time, closed
    before the reply; statements prepared, bound with a value for every question mark, run and
    finalized; and texts of statements from a fixed set, in which no text of a request occurs. *)

Fixpoint holes (sql : string) : nat :=
  match sql with
  | EmptyString => O
  | String c s => ((if aeq c (ch 63) then 1 else 0) + holes s)%nat
  end.

(** The presence of the seven fields. *)
Fixpoint masks (n : nat) : list (list bool) :=
  match n with
  | O => [[]]
  | S n => map (cons false) (masks n) ++ map (cons true) (masks n)
  end.

Definition mask_fields (m : list bool) : list (string * option string) :=
  zip_with (fun f (b : bool) => (f, if b then Some EmptyString else None)) META_FIELDS m.

Definition PREPARED : list string :=
  [SQL_SESSIONS; SQL_SESSION; SQL_FIRST_TS; SQL_LABELS; SQL_RECORDS; SQL_OVERLAYS; SQL_LABEL_ADD;
   SQL_LABEL_DEL; SQL_ACTIVE] ++ map (fun m => meta_sql (mask_fields m)) (masks 7).

Definition executed (sql : string) : Prop :=
  In sql [SQL_PRAGMA; "BEGIN"; "COMMIT"; "ROLLBACK"]%string \/
  exists sid, 0 < sid <= INT_MAX /\ In sql (delete_sql sid).

Inductive Conn := Closed | Spoiled | Ready | Prepared (sql : string) | Ran.

Section Served.
Context {ABI : CAbi} {TE : TeleEnv}.

Inductive served : list TEvent -> Conn -> nat -> Prop :=
| served_start : served [] Closed 0
| served_open p tr n : served tr Closed n -> p <> EmptyString ->
    served (TOpen p :: tr)
      match te_open (TOpen p :: tr) with
      | Opened => Ready | OpenFailed true => Spoiled | OpenFailed false => Closed
      end n
| served_exec sql tr n : served tr Ready n -> executed sql -> served (TExec sql :: tr) Ready n
| served_prepare sql tr n : served tr Ready n -> In sql PREPARED ->
    served (TPrepare sql :: tr) (if te_prepare (TPrepare sql :: tr) then Prepared sql else Ready) n
| served_run sql binds tr n : served tr (Prepared sql) n -> length binds = holes sql ->
    served (TRun binds :: tr) Ran n
| served_rowid tr n : served tr Ran n -> served (TRowid :: tr) Ran n
| served_finalize tr n : served tr Ran n -> served (TFinalize :: tr) Ready n
| served_close tr n : served tr Ready n -> served (TClose :: tr) Closed n
| served_give_up tr n : served tr Spoiled n -> served (TClose :: tr) Closed n
| served_time tr n : served tr Ready n -> served (TTime :: tr) Ready n
| served_reply code ty body tr n : served tr Closed n -> served (TReply code ty body :: tr) Closed (S n)
| served_blob ty a tr n : served tr Closed n -> served (TBlob ty a :: tr) Closed (S n).

Definition at_conn (c : Conn) (n : nat) (tr : list TEvent) : Prop := served tr c n.

Lemma triple_if {A} P (b : bool) (m k : TG A) Q : triple P m Q -> triple P k Q ->
  triple P (if b then m else k) Q.
Proof. by destruct b. Qed.

Lemma reply_served n code ty body :
  triple (at_conn Closed n) (api_send code ty body) (fun _ => at_conn Closed (S n)).
Proof. apply triple_log. intros tr. apply served_reply. Qed.

Lemma json_served n code body :
  triple (at_conn Closed n) (send_json code body) (fun _ => at_conn Closed (S n)).
Proof. apply reply_served. Qed.

Lemma blob_served n ty a : triple (at_conn Closed n) (io_log (TBlob ty a)) (fun _ => at_conn Closed (S n)).
Proof. apply triple_log. intros tr. apply served_blob. Qed.

Lemma finish_served n s : triple (at_conn Closed n) (sb_finish s) (fun _ => at_conn Closed (S n)).
Proof. unfold sb_finish. apply triple_if; apply reply_served. Qed.

Lemma close_served n : triple (at_conn Ready n) sqlite3_close (fun _ => at_conn Closed n).
Proof. apply triple_log. intros tr. apply served_close. Qed.

Lemma exec_served n sql : executed sql ->
  triple (at_conn Ready n) (sqlite3_exec sql) (fun _ => at_conn Ready n).
Proof. intros H. apply triple_ask. intros tr Htr. by apply served_exec. Qed.

Lemma open_served n path :
  triple (at_conn Closed n) (wfb_logger_open path)
    (fun ok => at_conn (if ok then Ready else Closed) n).
Proof.
  unfold wfb_logger_open. destruct path as [|c p]; cbn [nonempty negb]; [by apply triple_ret|].
  eapply triple_bind with (R := fun a => at_conn match a with
    | Opened => Ready | OpenFailed true => Spoiled | OpenFailed false => Closed end n).
  - apply triple_ask. intros tr Htr. by apply served_open.
  - intros [|[]].
    + eapply triple_bind; [apply exec_served; left; by left|]. intros ?. by apply triple_ret.
    + eapply triple_bind with (R := fun _ => at_conn Closed n).
      * apply triple_log. intros tr. apply served_give_up.
      * intros ?. by apply triple_ret.
    + eapply triple_bind with (R := fun _ => at_conn Closed n); intros; by apply triple_ret.
Qed.

(** A statement, with what is done between its run and its end. *)
Lemma statement_served {A B} n sql binds (f : list TEvent -> A) (k : A -> TG B) (d : B) :
  In sql PREPARED -> length binds = holes sql ->
  (forall x, triple (at_conn Ran n) (k x) (fun _ => at_conn Ran n)) ->
  triple (at_conn Ready n)
    (let! ok := ask (TPrepare sql) te_prepare in
     if ok then let! x := ask (TRun binds) f in let! y := k x in let! _ := io_log TFinalize in io_ret y
     else io_ret d)
    (fun _ => at_conn Ready n).
Proof.
  intros Hs Hb Hk.
  eapply triple_bind with (R := fun ok => at_conn (if ok : bool then Prepared sql else Ready) n).
  { apply triple_ask. intros tr Htr. by apply served_prepare. }
  intros []; [|by apply triple_ret].
  eapply triple_bind with (R := fun _ => at_conn Ran n).
  { apply triple_ask. intros tr Htr. by eapply served_run. }
  intros x. eapply triple_bind; [apply Hk|]. intros y.
  eapply triple_bind with (R := fun _ => at_conn Ready n).
  { apply triple_log. intros tr. apply served_finalize. }
  intros ?. by apply triple_ret.
Qed.

Lemma triple_same {A} P (m m' : TG A) Q : triple P m Q -> (forall w, m' w = m w) -> triple P m' Q.
Proof. intros H E w Hw. rewrite E. by apply H. Qed.

Lemma rows_served n sql binds : In sql PREPARED -> length binds = holes sql ->
  triple (at_conn Ready n) (with_rows sql binds) (fun _ => at_conn Ready n).
Proof.
  intros Hs Hb.
  eapply triple_same; [apply (statement_served n sql binds te_rows (fun r => io_ret (Some r)) None Hs Hb)|].
  - intros x. by apply triple_ret.
  - intros w. unfold with_rows, io_bind. destruct (ask _ te_prepare w) as [[] w1]; [|done].
    by destruct (ask _ te_rows w1).
Qed.

Lemma done_served n sql binds : In sql PREPARED -> length binds = holes sql ->
  triple (at_conn Ready n) (with_done sql binds) (fun _ => at_conn Ready n).
Proof.
  intros Hs Hb.
  eapply triple_same; [apply (statement_served n sql binds te_done io_ret false Hs Hb)|].
  - intros x. by apply triple_ret.
  - intros w. unfold with_done, io_bind. destruct (ask _ te_prepare w) as [[] w1]; [|done].
    by destruct (ask _ te_done w1).
Qed.

Lemma insert_served n sql binds : In sql PREPARED -> length binds = holes sql ->
  triple (at_conn Ready n) (insert_row sql binds) (fun _ => at_conn Ready n).
Proof.
  intros Hs Hb. apply statement_served; [done|done|]. intros []; [|by apply triple_ret].
  apply triple_ask. intros tr. apply served_rowid.
Qed.

Lemma time_served n : triple (at_conn Ready n) (ask TTime te_time) (fun _ => at_conn Ready n).
Proof. apply triple_ask. intros tr. apply served_time. Qed.

Lemma silent_served {A} P (m : TG A) : (forall w, (m w).2 = w) -> triple P m (fun _ => P).
Proof. intros H w Hw. by rewrite H. Qed.

(** *** The texts of [UPDATE] *)

Definition mask_of (q : string -> option string) (fs : list string) : list bool :=
  map (fun f => bool_decide (is_Some (q f))) fs.

Lemma meta_sets_mask q fs : forall first,
  meta_sets first (map (fun f => (f, q f)) fs) =
  meta_sets first (zip_with (fun f (b : bool) => (f, if b then Some EmptyString else None)) fs (mask_of q fs)).
Proof.
  induction fs as [|f fs IH]; intros first; [done|]. cbn [map mask_of zip_with].
  destruct (q f) as [v|]; cbn [meta_sets].
  - rewrite bool_decide_eq_true_2 by eauto. cbn [meta_sets]. by rewrite IH.
  - rewrite bool_decide_eq_false_2 by (intros []; done). cbn [meta_sets]. by rewrite IH.
Qed.

Lemma in_masks m : forall n, length m = n -> In m (masks n).
Proof.
  induction m as [|b m IH]; intros [|n] H; cbn in H |- *; try lia; [by left|].
  apply in_or_app. destruct b; [right|left]; apply in_map, IH; lia.
Qed.

Lemma meta_binds_count q fs :
  length (omap meta_bind (map (fun f => (f, q f)) fs)) = count_occ Bool.bool_dec (mask_of q fs) true.
Proof.
  induction fs as [|f fs IH]; [done|]. cbn [map mask_of]. cbn [omap list_omap].
  unfold meta_bind at 1. cbn [fst snd]. destruct (q f) as [v|]; cbn [mbind option_bind].
  - rewrite bool_decide_eq_true_2 by eauto. cbn [length count_occ].
    destruct (Bool.bool_dec true true); [|done]. f_equal. apply IH.
  - rewrite bool_decide_eq_false_2 by (intros []; done). cbn [count_occ].
    destruct (Bool.bool_dec false true); [done|]. apply IH.
Qed.

Lemma meta_holes : forallb (fun m =>
  (holes (meta_sql (mask_fields m)) =? S (count_occ Bool.bool_dec m true))%nat) (masks 7) = true.
Proof. vm_compute. reflexivity. Qed.

Lemma meta_statement qs : let fields := meta_fields qs in
  In (meta_sql fields) PREPARED /\ holes (meta_sql fields) = S (length (omap meta_bind fields)).
Proof.
  intros fields. set (q := fun f => qparam_dec qs f 256).
  assert (E : meta_sql fields = meta_sql (mask_fields (mask_of q META_FIELDS))).
  { unfold meta_sql, fields, meta_fields. f_equal. f_equal. f_equal.
    apply (meta_sets_mask q META_FIELDS true). }
  assert (Hm : In (mask_of q META_FIELDS) (masks 7)) by (by apply in_masks).
  rewrite E. split.
  - unfold PREPARED. apply in_or_app. right.
    apply (in_map (fun m => meta_sql (mask_fields m)) _ _ Hm).
  - pose proof meta_holes as H. rewrite forallb_forall in H. specialize (H _ Hm).
    apply Nat.eqb_eq in H. rewrite H. f_equal. symmetry. apply (meta_binds_count q META_FIELDS).
Qed.

(** *** The handlers *)

Lemma query_id_range qs id : query_id qs = Some id -> 0 < id <= INT_MAX.
Proof.
  unfold query_id. destruct (qs_get_int qs "id") as [v|] eqn:E; [|done]. cbn.
  destruct (Z.leb_spec v 0); [done|]. intros [= <-]. split; [done|].
  unfold qs_get_int in E. destruct (qs_get qs "id") as [a|]; [|done]. cbn in E.
  case_match; [done|]. case_match; [|done]. case_match. case_match; [|done].
  injection E as <-. apply i32_range.
Qed.

Ltac holes_ok := vm_compute; reflexivity.
Ltac prepared_ok := cbn; tauto.

Lemma first_ts_served n sid : triple (at_conn Ready n) (first_ts sid) (fun _ => at_conn Ready n).
Proof.
  unfold first_ts. eapply triple_bind; [apply rows_served; [prepared_ok|holes_ok]|].
  intros ?. by apply triple_ret.
Qed.

Lemma exec_each_served n sqls : (forall s, In s sqls -> executed s) ->
  triple (at_conn Ready n) (exec_each sqls) (fun _ => at_conn Ready n).
Proof.
  induction sqls as [|s sqls IH]; intros H; cbn [exec_each]; [by apply triple_ret|].
  eapply triple_bind; [apply exec_served, H; by left|]. intros ok.
  apply triple_if; [apply IH; intros; apply H; by right|by apply triple_ret].
Qed.

(** The steps between opening and reply. *)
Ltac serve :=
  repeat first
    [ apply json_served | apply reply_served | apply blob_served | apply finish_served
    | apply triple_if
    | eapply triple_bind;
        [ solve [ apply rows_served; [prepared_ok|holes_ok]
                | apply done_served; [prepared_ok|holes_ok]
                | apply insert_served; [prepared_ok|holes_ok]
                | apply close_served
                | apply first_ts_served
                | apply exec_served; left; cbn; tauto
                | apply time_served
                | by apply silent_served ]
        | intros ? ] ].

(** A handler that opens a connection. *)
Lemma opened_served {A} n path (refused : TG A) (k : TG A) :
  triple (at_conn Closed n) refused (fun _ => at_conn Closed (S n)) ->
  triple (at_conn Ready n) k (fun _ => at_conn Closed (S n)) ->
  triple (at_conn Closed n)
    (let! ok := wfb_logger_open path in if negb ok then refused else k)
    (fun _ => at_conn Closed (S n)).
Proof. intros H1 H2. eapply triple_bind; [apply open_served|]. by intros []. Qed.

Lemma sessions_served n path :
  triple (at_conn Closed n) (tele_sessions path) (fun _ => at_conn Closed (S n)).
Proof. apply opened_served; serve. Qed.

Lemma session_one_served n path sid :
  triple (at_conn Closed n) (tele_session_one path sid) (fun _ => at_conn Closed (S n)).
Proof. apply opened_served; serve. destruct x as [[|r l]|]; serve. Qed.

Lemma labels_served n path sid :
  triple (at_conn Closed n) (tele_labels path sid) (fun _ => at_conn Closed (S n)).
Proof. apply opened_served; serve. Qed.

Lemma series_served n path sid :
  triple (at_conn Closed n) (tele_series path sid) (fun _ => at_conn Closed (S n)).
Proof. apply opened_served; serve. Qed.

Lemma label_add_served n path sid qs :
  triple (at_conn Closed n) (tele_label_add path sid qs) (fun _ => at_conn Closed (S n)).
Proof.
  apply opened_served; [serve|]. unfold tele_first_ts.
  eapply triple_bind with (R := fun _ => at_conn Ready n).
  { eapply triple_bind; [apply first_ts_served|]. intros ?. by apply triple_ret. }
  intros t0. destruct (label_ms _ t0 <? label_ms _ t0); cbn beta iota; serve.
Qed.

Lemma label_del_served n path qs :
  triple (at_conn Closed n) (tele_label_del path qs) (fun _ => at_conn Closed (S n)).
Proof.
  unfold tele_label_del. destruct (qs_get_int qs "label_id"); [|serve].
  apply triple_if; [serve|]. apply opened_served; serve.
Qed.

Lemma meta_served n path sid qs :
  triple (at_conn Closed n) (tele_meta path sid qs) (fun _ => at_conn Closed (S n)).
Proof.
  unfold tele_meta. apply triple_if; [serve|]. apply opened_served; [serve|].
  destruct (meta_statement qs) as [Hp Hh].
  eapply triple_bind; [apply done_served; [done|]|intros ?; serve].
  rewrite length_app, Hh. cbn. lia.
Qed.

Lemma delete_served n path sid : 0 < sid <= INT_MAX ->
  triple (at_conn Closed n) (tele_session_delete path sid) (fun _ => at_conn Closed (S n)).
Proof.
  intros Hs. apply opened_served; [serve|].
  eapply triple_bind; [apply rows_served; [prepared_ok|holes_ok]|].
  intros [[|r l]|]; [serve| |serve]. apply triple_if; [serve|].
  eapply triple_bind; [apply exec_served; left; cbn; tauto|]. intros ?.
  eapply triple_bind; [apply exec_each_served; intros; right; eauto|]. intros ok.
  eapply triple_bind; [apply exec_served; left; destruct ok; cbn; tauto|]. intros ?. serve.
Qed.

(** *** The routes *)

Section RouteServed.
Context {R : Type} {RC : Recorder R}.

Lemma own_served n (m : TG unit) (r : R) :
  triple (at_conn Closed n) m (fun _ => at_conn Closed (S n)) ->
  triple (at_conn Closed n) (let! _ := m in io_ret (true, r))
    (fun o => at_conn Closed (if o.1 : bool then S n else n)).
Proof. intros H. eapply triple_bind; [exact H|]. intros ?. by apply triple_ret. Qed.

Lemma drives_served n (m : TG R) :
  triple (at_conn Closed n) m (fun _ => at_conn Closed (S n)) ->
  triple (at_conn Closed n) (let! r := m in io_ret (true, r))
    (fun o => at_conn Closed (if o.1 : bool then S n else n)).
Proof. intros H. eapply triple_bind; [exact H|]. intros ?. by apply triple_ret. Qed.

Lemma status_served n (r : R) :
  triple (at_conn Closed n) (tele_capture_status r) (fun _ => at_conn Closed (S n)).
Proof.
  unfold tele_capture_status. destruct (rec_status r) as [s r'].
  eapply triple_bind; [by apply silent_served|]. intros mem.
  eapply triple_bind; [apply finish_served|]. intros ?. by apply triple_ret.
Qed.

Lemma with_id_served n qs missing (f : Z -> TG unit) :
  (forall id, 0 < id <= INT_MAX -> triple (at_conn Closed n) (f id) (fun _ => at_conn Closed (S n))) ->
  triple (at_conn Closed n) (with_id qs missing f) (fun _ => at_conn Closed (S n)).
Proof.
  intros H. unfold with_id. destruct (query_id qs) as [id|] eqn:E; [|apply json_served].
  eapply H, query_id_range, E.
Qed.

Lemma route_served n path qs (r : R) :
  triple (at_conn Closed n) (tele_route path qs r)
    (fun o => at_conn Closed (if o.1 : bool then S n else n)).
Proof.
  unfold tele_route.
  apply triple_if; [apply own_served, blob_served|].
  apply triple_if; [apply own_served, blob_served|].
  apply triple_if.
  { apply own_served. unfold tele_static. repeat (apply triple_if; [apply blob_served|]).
    apply reply_served. }
  apply triple_if; [apply own_served, sessions_served|].
  apply triple_if.
  { apply triple_if.
    - apply drives_served. unfold tele_capture_roll. eapply triple_bind; [apply json_served|].
      intros ?. by apply triple_ret.
    - repeat (apply triple_if; [apply drives_served, status_served|]). apply drives_served, status_served. }
  apply triple_if.
  { apply own_served, with_id_served. intros id Hid.
    apply triple_if; [by apply delete_served|apply session_one_served]. }
  apply triple_if; [apply own_served, with_id_served; intros; apply series_served|].
  apply triple_if; [apply own_served, with_id_served; intros; apply meta_served|].
  apply triple_if; [|by apply triple_ret].
  apply triple_if; [apply own_served, with_id_served; intros; apply label_add_served|].
  apply triple_if; [apply own_served, label_del_served|].
  apply own_served, with_id_served. intros. apply labels_served.
Qed.
End RouteServed.

(** *** What a deletion did *)

(** The texts that delete the session [sid] with what belongs to it. *)
Definition deletions (sid : Z) : list string := [
  "DELETE FROM predictions WHERE record_id IN (SELECT id FROM records WHERE session_id=" ++ pretty sid ++ ")";
  "DELETE FROM records WHERE session_id=" ++ pretty sid;
  "DELETE FROM labels WHERE session_id=" ++ pretty sid;
  "DELETE FROM sessions WHERE id=" ++ pretty sid]%string.

(** The row of an open live session: its source begins with "live" and it has no end. *)
Definition live_open (r : Row) : Prop :=
  cl_null (column r 1) = true /\ exists name, cl_text (column r 0) = Some ("live" ++ name)%string.

(** How a request ends; [begun] and [committed] are the answers to [BEGIN] and [COMMIT]. *)
Inductive Deletion :=
  | DelNoDb | DelNoSession | DelActive | DelDone (begun committed : bool) | DelFailed (begun : bool).

Definition deletion_reply (sid : Z) (o : Deletion) : TEvent :=
  match o with
  | DelNoDb => TReply 500 JSON_TYPE (with_quotes "{'ok':false}")
  | DelNoSession => TReply 404 JSON_TYPE (with_quotes "{'ok':false,'error':'no session'}")
  | DelActive => TReply 409 JSON_TYPE (with_quotes
      "{'ok':false,'error':'refusing to delete the active capture — roll a new session first'}")
  | DelDone _ _ => TReply 200 JSON_TYPE (with_quotes ("{'ok':true,'deleted':" ++ pretty sid ++ "}"))
  | DelFailed _ => TReply 500 JSON_TYPE (with_quotes "{'ok':false,'error':'delete failed'}")
  end.

(** The texts executed, in order. *)
Definition execs (es : list TEvent) : list string :=
  omap (fun e => match e with TExec sql => Some sql | _ => None end) (rev es).

(** The row that decides is the one read for [SQL_ACTIVE]. *)
Definition row_read (sid : Z) (es : list TEvent) (tr : list TEvent) (r : Row) : Prop :=
  exists pre post rows, es = post ++ TRun [BInt sid] :: TPrepare SQL_ACTIVE :: pre /\
    te_rows (TRun [BInt sid] :: TPrepare SQL_ACTIVE :: pre ++ tr) = r :: rows.

Definition answered (sql : string) (ok : bool) (es tr : list TEvent) : Prop :=
  exists post pre, es = post ++ TExec sql :: pre /\ te_exec (TExec sql :: pre ++ tr) = ok.

(** What stays of the texts executed: those SQLite accepted, less those of a transaction that
    is rolled back or that the end of the connection meets open. *)
Record Effect := Build_Effect { ef_txn : bool; ef_pending : list string; ef_kept : list string }.

Definition effect_step (e : TEvent) (ok : bool) (x : Effect) : Effect :=
  match e with
  | TClose => Build_Effect false [] (ef_kept x)
  | TExec sql =>
    if negb ok || String.eqb sql SQL_PRAGMA then x
    else if String.eqb sql "BEGIN" then Build_Effect true [] (ef_kept x)
    else if String.eqb sql "COMMIT" then Build_Effect false [] (ef_kept x ++ ef_pending x)
    else if String.eqb sql "ROLLBACK" then Build_Effect false [] (ef_kept x)
    else if ef_txn x then Build_Effect true (ef_pending x ++ [sql]) (ef_kept x)
    else Build_Effect false (ef_pending x) (ef_kept x ++ [sql])
  | _ => x
  end.

Fixpoint effect (x : Effect) (es tr : list TEvent) : Effect :=
  match es with
  | [] => x
  | e :: es => effect_step e (te_exec (e :: es ++ tr)) (effect x es tr)
  end.

Definition kept (es tr : list TEvent) : list string := ef_kept (effect (Build_Effect false [] []) es tr).

Definition deletion_log (sid : Z) (o : Deletion) (es tr : list TEvent) : Prop :=
  match o with
  | DelNoDb => execs es = []
  | DelNoSession => execs es = [SQL_PRAGMA]
  | DelActive => execs es = [SQL_PRAGMA] /\ exists r, row_read sid es tr r /\ live_open r
  | DelDone begun committed =>
      execs es = SQL_PRAGMA :: "BEGIN"%string :: deletions sid ++ ["COMMIT"%string] /\
      (exists r, row_read sid es tr r /\ ~ live_open r) /\
      answered "BEGIN" begun es tr /\ answered "COMMIT" committed es tr /\
      kept es tr = if begun && negb committed then [] else deletions sid
  | DelFailed begun =>
      (exists r, row_read sid es tr r /\ ~ live_open r) /\ answered "BEGIN" begun es tr /\
      exists done failed rest, deletions sid = done ++ failed :: rest /\
        execs es = SQL_PRAGMA :: "BEGIN"%string :: done ++ [failed; "ROLLBACK"%string] /\
        answered failed false es tr /\ kept es tr = if begun then [] else done
  end.

(** The buffer of 160 bytes takes every text. *)
Lemma delete_sql_texts sid : 0 < sid <= INT_MAX -> delete_sql sid = deletions sid.
Proof.
  intros H. pose proof (pretty_length sid 10 ltac:(lia)) as Hl.
  rewrite strlen_length in Hl. assert (String.length (pretty sid) <= 11)%nat as Hn.
  { unfold INT_MAX in H. change (10 ^ 10) with 10000000000 in Hl. lia. }
  assert (E : forall s, (String.length s <= 159)%nat -> take_chars 159 s = s).
  { intros s Hs. by apply take_chars_all. }
  unfold delete_sql, deletions. cbn [map]. rewrite !E; [done|..];
    rewrite ?length_append; cbn [String.length]; lia.
Qed.

Lemma live_prefix src : starts_with "live" (until_nul src) = true <->
  exists name, src = ("live" ++ name)%string.
Proof.
  split.
  - intros (t & H)%starts_with_split. unfold until_nul in H.
    pose proof (span_until_app (fun c => aeq c NUL) src) as E. rewrite H in E.
    eexists. exact E.
  - intros [name ->]. unfold until_nul. cbn. by destruct (span_until _ name).
Qed.

Lemma is_active_spec r : is_active r = true <-> live_open r.
Proof.
  unfold is_active, live_open. destruct (cl_text (column r 0)) as [src|].
  2:{ split; [done|]. by intros (_ & ? & ?). }
  rewrite andb_true_iff, live_prefix. split.
  - intros [[name ->] ?]. split; [done|]. by exists name.
  - intros (? & name & [= ->]). split; [by exists name|done].
Qed.

Lemma effect_app x a b tr : effect x (a ++ b) tr = effect (effect x b tr) a (b ++ tr).
Proof. induction a as [|e a IH]; [done|]. cbn. by rewrite IH, <- app_assoc. Qed.

(** A text that changes rows. *)
Definition changes (sql : string) : bool :=
  forallb (fun t => negb (String.eqb sql t)) [SQL_PRAGMA; "BEGIN"; "COMMIT"; "ROLLBACK"]%string.

Lemma deletions_change sid : Forall (fun sql => changes sql = true) (deletions sid).
Proof. by repeat constructor. Qed.

Definition with_texts (sqls : list string) (x : Effect) : Effect :=
  if ef_txn x then Build_Effect true (ef_pending x ++ sqls) (ef_kept x)
  else Build_Effect false (ef_pending x) (ef_kept x ++ sqls).

Lemma effect_texts sqls : Forall (fun sql => changes sql = true) sqls -> forall x tr,
  (forall k, (k < length sqls)%nat -> te_exec (rev (map TExec (take (S k) sqls)) ++ tr) = true) ->
  effect x (rev (map TExec sqls)) tr = with_texts sqls x.
Proof.
  induction 1 as [|sql sqls Hs _ IH]; intros x tr Hk.
  { unfold with_texts. destruct x as [[] p k]; cbn; by rewrite app_nil_r. }
  cbn [map rev]. rewrite effect_app, IH.
  - cbn [effect app]. specialize (Hk 0%nat ltac:(cbn; lia)). change (te_exec (TExec sql :: tr) = true) in Hk. rewrite Hk.
    unfold changes in Hs. cbn [forallb] in Hs. rewrite !andb_true_iff, !negb_true_iff in Hs.
    destruct Hs as (H1 & H2 & H3 & H4 & _). unfold effect_step. rewrite H1, H2, H3, H4. cbn.
    unfold with_texts. destruct x as [[] p k]; cbn; by rewrite <- app_assoc.
  - intros k Hlt. specialize (Hk (S k) ltac:(cbn; lia)). cbn [take map rev] in Hk.
    by rewrite <- app_assoc in Hk.
Qed.

Lemma exec_each_log sqls : forall w,
  let o := exec_each sqls w in
  let tried dn := forall k, (k < length dn)%nat ->
    te_exec (rev (map TExec (take (S k) dn)) ++ w_trace w) = true in
  (o.1 = true /\ w_trace o.2 = rev (map TExec sqls) ++ w_trace w /\ tried sqls) \/
  (o.1 = false /\ exists done failed rest, sqls = done ++ failed :: rest /\
     w_trace o.2 = TExec failed :: rev (map TExec done) ++ w_trace w /\
     te_exec (w_trace o.2) = false /\ tried done).
Proof.
  induction sqls as [|sql sqls IH]; intros w; cbn zeta.
  { left. split_and!; [done|done|]. cbn. lia. }
  cbn [exec_each]. unfold io_bind, sqlite3_exec.
  destruct (ask (TExec sql) te_exec w) as [ok w1] eqn:Ew. destruct (ask_run _ _ _ _ _ Ew) as [Et Eo].
  destruct ok.
  - assert (Hcons : forall dn,
      (forall k, (k < length dn)%nat -> te_exec (rev (map TExec (take (S k) dn)) ++ w_trace w1) = true) ->
      forall k, (k < length (sql :: dn))%nat ->
        te_exec (rev (map TExec (take (S k) (sql :: dn))) ++ w_trace w) = true).
    { intros dn Hd [|k] Hk; [change (te_exec (TExec sql :: w_trace w) = true); by rewrite <- Et|].
      cbn [length] in Hk. specialize (Hd k ltac:(lia)). cbn [take map rev].
      rewrite <- app_assoc. rewrite Et in Hd. exact Hd. }
    destruct (IH w1) as [(H1 & H2 & H3)|(H1 & dn & f & rest & H2 & H3 & H4 & H5)].
    + left. split_and!; [done|by rewrite H2, Et; cbn; rewrite <- app_assoc|by apply Hcons].
    + right. split; [done|]. exists (sql :: dn), f, rest. split_and!; [by rewrite H2| |done|by apply Hcons].
      rewrite H3, Et. cbn. by rewrite <- app_assoc.
  - right. split; [done|]. exists [], sql, sqls. rewrite Eo. split_and!; [done|by rewrite Et|done|].
    cbn. lia.
Qed.

Lemma execs_app a b : execs (a ++ b) = execs b ++ execs a.
Proof. unfold execs. by rewrite rev_app_distr, omap_app. Qed.

Lemma execs_texts sqls : execs (rev (map TExec sqls)) = sqls.
Proof. unfold execs. rewrite rev_involutive. induction sqls as [|x l IH]; [done|]. cbn. by f_equal. Qed.

Lemma answered_head sql post pre tr : answered sql (te_exec (TExec sql :: pre ++ tr)) (post ++ TExec sql :: pre) tr.
Proof. by exists post, pre. Qed.

(** The transaction of a deletion on a connection where nothing is open. *)
Lemma run_deletions sqls (k : bool -> TG unit) base tr w :
  w_trace w = base ++ tr -> Forall (fun sql => changes sql = true) sqls ->
  effect (Build_Effect false [] []) base tr = Build_Effect false [] [] ->
  exists (ok b : bool) es v,
    (let! _ := sqlite3_exec "BEGIN" in
     let! ok := exec_each sqls in
     let! _ := sqlite3_exec (if ok then "COMMIT" else "ROLLBACK")%string in
     let! _ := sqlite3_close in
     k ok) w = k ok v /\
    w_trace v = es ++ base ++ tr /\ answered "BEGIN" b (es ++ base) tr /\
    if ok then
      execs (es ++ base) = execs base ++ "BEGIN"%string :: sqls ++ ["COMMIT"%string] /\
      exists c, answered "COMMIT" c (es ++ base) tr /\
        kept (es ++ base) tr = if b && negb c then [] else sqls
    else exists done failed rest, sqls = done ++ failed :: rest /\
      execs (es ++ base) = execs base ++ "BEGIN"%string :: done ++ [failed; "ROLLBACK"%string] /\
      answered failed false (es ++ base) tr /\ kept (es ++ base) tr = if b then [] else done.
Proof.
  intros Hw Hs Hbase. destruct (sqlite3_exec "BEGIN" w) as [b w1] eqn:E1.
  rewrite (bind_run _ _ _ _ _ E1). unfold sqlite3_exec in E1. apply ask_run in E1 as [E1 Eb].
  pose proof (exec_each_log sqls w1) as Hx. cbn zeta in Hx.
  destruct (exec_each sqls w1) as [ok w2] eqn:E2. rewrite (bind_run _ _ _ _ _ E2). cbn [fst snd] in Hx.
  match goal with |- context [sqlite3_exec ?q] =>
    destruct (sqlite3_exec q w2) as [c w3] eqn:E3; rewrite (bind_run _ _ _ _ _ E3) end.
  unfold sqlite3_exec in E3. apply ask_run in E3 as [E3 Ec].
  set (pre := TExec "BEGIN" :: base). rewrite Hw in E1. rewrite E1 in Eb.
  assert (Hpre : effect (Build_Effect false [] []) pre tr = Build_Effect b [] []).
  { subst pre. cbn [effect app]. rewrite Hbase, <- Eb. unfold effect_step. by destruct b. }
  exists ok, b. destruct Hx as [(-> & Hx & Ht)|(-> & dn & f & rest & Hd & Hx & Hf & Ht)];
    rewrite E1 in Hx, Ht.
  - exists ([TClose; TExec "COMMIT"] ++ rev (map TExec sqls) ++ [TExec "BEGIN"]).
    eexists. split; [reflexivity|]. split; [cbn; by rewrite E3, Hx, <- !app_assoc|].
    rewrite <- !app_assoc. change ([TExec "BEGIN"] ++ base) with pre. split.
    { exists ([TClose; TExec "COMMIT"] ++ rev (map TExec sqls)), base. by rewrite <- app_assoc. }
    split.
    { rewrite !execs_app, execs_texts. change pre with ([TExec "BEGIN"] ++ base). rewrite execs_app.
      rewrite <- !app_assoc. done. }
    exists c. rewrite E3, Hx in Ec. split.
    { exists [TClose], (rev (map TExec sqls) ++ pre). split; [done|]. by rewrite <- app_assoc. }
    unfold kept. rewrite (effect_app _ [_; _]), effect_app, effect_texts, Hpre; [|done|exact Ht].
    cbn [effect app]. rewrite <- !app_assoc. change (pre ++ tr) with (TExec "BEGIN" :: base ++ tr).
    rewrite <- Ec. unfold with_texts, effect_step. by destruct b, c; cbn; rewrite ?app_nil_r.
  - exists ([TClose; TExec "ROLLBACK"; TExec f] ++ rev (map TExec dn) ++ [TExec "BEGIN"]).
    eexists. split; [reflexivity|]. split; [cbn; by rewrite E3, Hx, <- !app_assoc|].
    rewrite <- !app_assoc. change ([TExec "BEGIN"] ++ base) with pre. split.
    { exists ([TClose; TExec "ROLLBACK"; TExec f] ++ rev (map TExec dn)), base. by rewrite <- app_assoc. }
    exists dn, f, rest. split; [done|]. split.
    { rewrite !execs_app, execs_texts. change pre with ([TExec "BEGIN"] ++ base). rewrite execs_app.
      rewrite <- !app_assoc. done. }
    rewrite Hx in Hf. split.
    { exists [TClose; TExec "ROLLBACK"], (rev (map TExec dn) ++ pre). split; [done|]. by rewrite <- app_assoc. }
    unfold kept. rewrite (effect_app _ [_; _; _]), effect_app, effect_texts, Hpre; [| |exact Ht].
    2:{ rewrite Hd in Hs. by apply Forall_app in Hs as [? _]. }
    cbn [effect app]. rewrite <- !app_assoc. change (pre ++ tr) with (TExec "BEGIN" :: base ++ tr).
    rewrite Hf. unfold with_texts, effect_step. destruct b, (te_exec (TExec "ROLLBACK" :: _)); cbn; done.
Qed.

(** (C27) Deleting a session, of any number a request can name, ends in one of five ways, and
    the answer says which.  A session
    whose row, read just before, has no end and a source that begins with "live" is refused and
    no deletion is executed.  "Done" is answered only if the four texts for this session were
    executed in order behind [BEGIN] and each was accepted, and nothing else ran but [COMMIT];
    when one is refused, the ones behind it are not tried, [ROLLBACK] follows and the answer is
    an error.  The answers to [BEGIN] and [COMMIT] are not looked at: what stays of the
    deletions is all or nothing if [BEGIN] was accepted, all for "done" unless [COMMIT] was
    refused and nothing for the error; without it all stays for "done", and for the error what
    was accepted before the refusal. *)
Theorem session_delete_outcome path sid w : 0 < sid <= INT_MAX -> exists o es,
  w_trace (tele_session_delete path sid w).2 = deletion_reply sid o :: es ++ w_trace w /\
  deletion_log sid o es (w_trace w).
Proof.
  intros Hsid. unfold tele_session_delete, wfb_logger_open. destruct path as [|c p]; cbn [nonempty negb].
  { exists DelNoDb, []. split; [done|]. done. }
  unfold io_bind. destruct (ask (TOpen _) te_open w) as [oa w1] eqn:E1.
  apply ask_run in E1 as [E1 _]. destruct oa as [|h].
  2:{ exists DelNoDb. destruct h; cbn.
      - exists [TClose; TOpen (String c p)]. by rewrite E1.
      - exists [TOpen (String c p)]. by rewrite E1. }
  unfold sqlite3_exec at 1. destruct (ask (TExec SQL_PRAGMA) te_exec w1) as [ok w2] eqn:E2.
  apply ask_run in E2 as [E2 _]. cbn [io_ret negb]. unfold with_rows, io_bind.
  destruct (ask (TPrepare SQL_ACTIVE) te_prepare w2) as [pr w3] eqn:E3. apply ask_run in E3 as [E3 _].
  rewrite E1 in E2. rewrite E2 in E3.
  destruct pr; cbn [io_ret].
  2:{ exists DelNoSession. eexists (TClose :: TPrepare SQL_ACTIVE :: TExec SQL_PRAGMA :: [TOpen _]).
      cbn. by rewrite E3. }
  destruct (ask (TRun [BInt sid]) te_rows w3) as [rows w4] eqn:E4. apply ask_run in E4 as [E4 E4'].
  rewrite E3 in E4. rewrite E4 in E4'. cbn [io_log io_ret].
  set (base := TFinalize :: TRun [BInt sid] :: TPrepare SQL_ACTIVE :: TExec SQL_PRAGMA ::
    [TOpen (String c p)]).
  destruct rows as [|r rows].
  { exists DelNoSession, (TClose :: base). split; [cbn; by rewrite E4|done]. }
  assert (Hread : forall es, row_read sid (es ++ base) (w_trace w) r).
  { intros es. exists [TExec SQL_PRAGMA; TOpen (String c p)], (es ++ [TFinalize]), rows.
    split; [by rewrite <- app_assoc|by rewrite E4']. }
  destruct (is_active r) eqn:Ea.
  { exists DelActive, ([TClose] ++ base).
    split; [cbn; by rewrite E4|]. split; [done|]. exists r. split; [apply Hread|by apply is_active_spec]. }
  assert (Hl : exists r, forall es, row_read sid (es ++ base) (w_trace w) r /\ ~ live_open r).
  { exists r. intros es. split; [done|]. rewrite <- is_active_spec. congruence. }
  destruct Hl as [r' Hl]. rewrite delete_sql_texts by done.
  set (w5 := w4 <| w_trace := TFinalize :: w_trace w4 |>).
  destruct (run_deletions (deletions sid) (fun ok : bool =>
      if ok then send_json 200 ("{'ok':true,'deleted':" ++ pretty sid ++ "}")
      else send_json 500 "{'ok':false,'error':'delete failed'}") base (w_trace w) w5)
    as (ok1 & b & es & v & Hm & Hv & Hb & Hlog); [by subst w5; cbn; rewrite E4|apply deletions_change
      |by cbn; rewrite orb_true_r|].
  unfold io_bind in Hm. rewrite Hm. destruct ok1.
  - destruct Hlog as (He & c1 & Hc & Hk). exists (DelDone b c1), (es ++ base).
    split; [cbn; by rewrite Hv, app_assoc|]. split_and!; [by rewrite He| |done..].
    exists r'. by apply Hl.
  - destruct Hlog as (dn & f & rest & Hd & He & Hf & Hk). exists (DelFailed b), (es ++ base).
    split; [cbn; by rewrite Hv, app_assoc|]. split_and!; [exists r'; by apply Hl|done|].
    exists dn, f, rest. by rewrite He.
Qed.
End Served.

(** ** The documents

    The bodies as trees; the strings of the store stand in them escaped. *)

(** Compute the texts that are known. *)
Ltac literals := repeat match goal with
  |- context [with_quotes ?s] => let r := eval vm_compute in (with_quotes s) in change (with_quotes s) with r
  end.

Section Docs.
Context `{!CAbi}.

Definition col_text_json (c : Col) : json :=
  if cl_null c then JRaw "null"
  else match cl_text c with None => JRaw "null" | Some v => JString (jescape v) end.

Definition col_int_json (c : Col) : json := if cl_null c then JRaw "null" else JNum (cl_int c).

Definition text_json (t : option string) : json := JRaw (default "null"%string t).

Definition session_summary (r : Row) : json := JObj [
  ("id", JNum (cl_int (column r 0))); ("source", col_text_json (column r 1));
  ("started_at", col_text_json (column r 2)); ("ended_at", col_text_json (column r 3));
  ("location", col_text_json (column r 4)); ("scenario", col_text_json (column r 5));
  ("notes", col_text_json (column r 6)); ("n_records", col_int_json (column r 7));
  ("first_ts", col_int_json (column r 8)); ("last_ts", col_int_json (column r 9))].

Definition session_doc (r : Row) : json := JObj [
  ("id", JNum (cl_int (column r 0))); ("source", col_text_json (column r 1));
  ("started_at", col_text_json (column r 2)); ("ended_at", col_text_json (column r 3));
  ("location", col_text_json (column r 4)); ("antenna_cfg", col_text_json (column r 5));
  ("tx_power", col_text_json (column r 6)); ("channel", col_int_json (column r 7));
  ("scenario", col_text_json (column r 8)); ("weather", col_text_json (column r 9));
  ("notes", col_text_json (column r 10))].

Definition label_doc (t0 : Z) (r : Row) : json := JObj [
  ("id", JNum (cl_int (column r 0)));
  ("t0_s", JRaw (printf_f 3 (since t0 (cl_int (column r 1)))));
  ("t1_s", JRaw (printf_f 3 (since t0 (cl_int (column r 2)))));
  ("kind", col_text_json (column r 3)); ("value", col_text_json (column r 4));
  ("author", col_text_json (column r 5))].

Definition overlay_doc (t0 : Z) (r : Row) : json := JObj [
  ("x0", JRaw (printf_f 3 (since t0 (cl_int (column r 0)))));
  ("x1", JRaw (printf_f 3 (since t0 (cl_int (column r 1)))));
  ("kind", col_text_json (column r 2)); ("value", col_text_json (column r 3));
  ("author", col_text_json (column r 4))].

(** The columns of the chart. *)
Definition series_columns (t0 : Z) (rows : list SRow) : list (string * list json) := [
  ("t", map (fun r => JRaw (printf_f 3 (row_seconds t0 r))) rows);
  ("rssi_comb", map (fun r => text_json (g_text (rw_rssi_comb r))) rows);
  ("uplink_rssi", map (fun r => text_json (g_text (rw_uplink_rssi r))) rows);
  ("rssi_spread", map (fun r => text_json (g_text (rw_rssi_spread r))) rows);
  ("snr_avg", map (fun r => text_json (g_text (rw_snr_avg r))) rows);
  ("per", map (fun r => text_json (g_text (rw_per r))) rows);
  ("mcs", map (fun r => text_json (d_text (rw_mcs r))) rows);
  ("pkt_lost", map (fun r => text_json (d_text (rw_pkt_lost r))) rows);
  ("fec_rec", map (fun r => text_json (d_text (rw_fec_rec r))) rows);
  ("tier1_state", map (fun _ => JRaw "null") rows)].

Definition dist_columns (rows : list SRow) : list (string * list json) :=
  map (fun m => (pretty (Z.of_nat m), map (fun r => JNum (nth m (rw_mcs_pkts r) 0)) rows)) (List.seq 0 8).

Definition arrays (cs : list (string * list json)) : json := JObj (map (fun c => (c.1, JArr c.2)) cs).

Definition series_doc (t0 : Z) (rows : list SRow) (labels : list Row) : json := JObj [
  ("series", arrays (series_columns t0 rows)); ("mcs_dist", arrays (dist_columns rows));
  ("overlays", JArr (map (overlay_doc t0) labels)); ("is_vehicle", JBool false);
  ("vehicle_extra", JRaw "null"); ("model_ver", JRaw "null");
  ("n", JNum (Z.of_nat (length rows)))].

Definition capture_doc (s : WfbLogStatus) (path : string) : json := JObj [
  ("running", JBool (ws_running s)); ("started", JBool (ws_started s));
  ("bind_error", JBool (ws_bind_error s)); ("db_error", JBool (ws_db_error s));
  ("session_id", JNum (ws_session_id s)); ("records", JNum (ws_records s));
  ("bad", JNum (ws_bad s)); ("dropped", JNum (ws_dropped s));
  ("age", JRaw (printf_f 1 (ws_age_s s))); ("max_duration", JNum (ws_max_duration s));
  ("listen", JNum (ws_listen_port s)); ("db", JString (jescape path))].

#[local] Arguments pretty : simpl never.
#[local] Arguments printf_f : simpl never.
#[local] Arguments jescape : simpl never.
#[local] Arguments col_text_json : simpl never.
#[local] Arguments col_int_json : simpl never.

Variable alloc : Z -> bool.
Local Abbreviation writes := (GsPage.writes alloc).

Lemma writes_col_text c : writes (sb_col_text alloc c) (print_json (col_text_json c)).
Proof.
  unfold sb_col_text, col_text_json. destruct (cl_null c); [apply writes_puts|].
  destruct (cl_text c) as [v|]; [apply (writes_jstr alloc (Some v))|apply writes_puts].
Qed.

Lemma writes_col_int c : writes (sb_col_int alloc c) (print_json (col_int_json c)).
Proof.
  unfold sb_col_int, col_int_json. destruct (cl_null c); [apply writes_puts|apply writes_printf].
Qed.

Lemma writes_key k : writes (put_key alloc k) (with_quotes (",'" ++ k ++ "':")).
Proof. apply writes_puts. Qed.

Lemma writes_sep (first : bool) :
  writes (if first then fun s => s else sb_putc alloc COMMA) (if first then "" else ",").
Proof. destruct first; [apply writes_id|apply writes_putc]. Qed.

Ltac write_step := first [apply writes_col_text | apply writes_col_int | apply writes_key |
  apply writes_sep | apply writes_puts | apply writes_putc | apply writes_printf | apply writes_jstr].

(** The texts of the pieces, and their sum. *)
Ltac write_all := eapply writes_eq;
  [ repeat (eapply writes_cons; [first [write_step | eassumption]|]); apply writes_nil
  | literals; cbn; repeat (rewrite sapp_assoc; cbn); rewrite ?sapp_nil_r; try reflexivity ].

Lemma writes_session_item first r :
  writes (session_item alloc first r) ((if first then "" else ",") ++ print_json (session_summary r)).
Proof. unfold session_item. write_all. Qed.

Lemma writes_label_item t0 first r :
  writes (label_item alloc t0 first r) ((if first then "" else ",") ++ print_json (label_doc t0 r)).
Proof. unfold label_item. write_all. Qed.

Lemma writes_overlay_item t0 first r :
  writes (overlay_item alloc t0 first r) ((if first then "" else ",") ++ print_json (overlay_doc t0 r)).
Proof. unfold overlay_item. write_all. Qed.

(** A list of documents. *)
Lemma writes_docs {A} (w : bool -> A -> SB -> SB) (doc : A -> json) l :
  (forall first x, writes (w first x) ((if first then "" else ",") ++ print_json (doc x))) ->
  writes (sb_each true w l) (commas (map print_json (map doc l))).
Proof. intros Hw. rewrite map_map. by apply writes_items. Qed.

Lemma writes_emit name text rows : writes (emit alloc name text rows)
  (with_quotes (",'" ++ name ++ "':[") ++
   commas (map print_json (map (fun r => text_json (text r)) rows)) ++ "]").
Proof.
  unfold emit.
  pose proof (writes_docs (fun first r => sb_all [
    (if first then fun s => s else sb_putc alloc COMMA);
    match text r with Some t => sb_printf alloc t | None => sb_puts alloc "null" end])
    (fun r => text_json (text r)) rows) as Hd.
  eapply writes_eq.
  - eapply writes_cons; [apply writes_puts|]. eapply writes_cons; [apply Hd|].
    + intros first r. eapply writes_eq.
      * eapply writes_cons; [apply writes_sep|]. eapply writes_cons; [|apply writes_nil].
        instantiate (1 := print_json (text_json (text r))).
        destruct (text r); [apply writes_printf|apply writes_puts].
      * by rewrite sapp_nil_r.
    + eapply writes_cons; [apply writes_putc|apply writes_nil].
  - by rewrite sapp_nil_r.
Qed.

Lemma writes_rung rows m : writes (dist_rung alloc rows m)
  (comma_if (0 <? m)%nat ++ with_quotes "'" ++ pretty (Z.of_nat m) ++ with_quotes "':[" ++
   commas (map print_json (map (fun r => JNum (nth m (rw_mcs_pkts r) 0)) rows)) ++ "]").
Proof.
  unfold dist_rung.
  pose proof (writes_docs (fun first r => sb_printf alloc (comma_if (negb first) ++
    pretty (nth m (rw_mcs_pkts r) 0))) (fun r => JNum (nth m (rw_mcs_pkts r) 0)) rows) as Hd.
  eapply writes_eq.
  - eapply writes_cons; [apply writes_printf|]. eapply writes_cons; [apply Hd|].
    + intros first r. eapply writes_eq; [apply writes_printf|]. by destruct first.
    + eapply writes_cons; [apply writes_putc|apply writes_nil].
  - by rewrite !sapp_assoc, sapp_nil_r.
Qed.

Lemma writes_rungs rows : writes (sb_all (map (dist_rung alloc rows) (List.seq 0 8)))
  (commas (map (fun kv => quoted kv.1 ++ str1 COLON ++ print_json kv.2)%string
    (map (fun c => (c.1, JArr c.2)) (dist_columns rows)))).
Proof.
  eapply writes_eq.
  - cbn [map List.seq]. repeat (eapply writes_cons; [apply writes_rung|]). apply writes_nil.
  - unfold dist_columns. cbn [map List.seq]. literals. cbn.
    repeat (rewrite sapp_assoc; cbn). by rewrite ?sapp_nil_r.
Qed.

(** A body is the whole document, unless memory was refused. *)
Definition whole (s : SB) (doc : json) : Prop :=
  (sb_err s = true \/ (sb_err s = false /\ sb_cap s <> 0 /\ sb_text s = print_json doc)) /\
  ((forall n, alloc n = true) -> sb_err s = false).

Lemma whole_body ws doc : writes (sb_all ws) (print_json doc) -> print_json doc <> EmptyString ->
  whole (sb_all ws sb_zero) doc.
Proof.
  intros [Hf Ht Hn] Hne. assert (H0 : sb_fits sb_zero) by (by left). split; [|intros Ha; by apply Hn].
  destruct (sb_err (sb_all ws sb_zero)) eqn:E; [by left|right].
  destruct (Ht sb_zero H0 E) as [_ Et]. cbn in Et. split_and!; [done| |done].
  destruct (Hf sb_zero H0) as [[_ Hx]|[]]; [by rewrite Hx in Et|lia].
Qed.

Lemma sessions_whole rows : whole (sessions_body alloc rows) (JArr (map session_summary rows)).
Proof.
  apply whole_body; [|done]. eapply writes_eq.
  - eapply writes_cons; [apply writes_putc|]. eapply writes_cons; [apply writes_docs, writes_session_item|].
    eapply writes_cons; [apply writes_putc|apply writes_nil].
  - cbn. by rewrite ?sapp_nil_r.
Qed.

Lemma session_whole r : whole (session_body alloc r) (session_doc r).
Proof. apply whole_body; [|done]. write_all. Qed.

Lemma labels_whole t0 rows : whole (labels_body alloc t0 rows) (JArr (map (label_doc t0) rows)).
Proof.
  apply whole_body; [|done]. eapply writes_eq.
  - eapply writes_cons; [apply writes_putc|]. eapply writes_cons; [apply writes_docs, writes_label_item|].
    eapply writes_cons; [apply writes_putc|apply writes_nil].
  - cbn. by rewrite ?sapp_nil_r.
Qed.

Lemma capture_whole s path : whole (capture_body alloc s path) (capture_doc s path).
Proof. apply whole_body; [|done]. write_all. Qed.

Lemma nulls_docs (rows : list SRow) :
  writes (sb_each true (fun first (_ : SRow) => sb_puts alloc (if first then "null" else ",null")) rows)
    (commas (map print_json (map (fun _ => JRaw "null") rows))).
Proof.
  apply writes_docs. intros first _. eapply writes_eq; [apply writes_puts|]. by destruct first.
Qed.

Lemma times_docs t0 (rows : list SRow) :
  writes (sb_each true (fun first r =>
    sb_printf alloc (comma_if (negb first) ++ printf_f 3 (row_seconds t0 r))) rows)
    (commas (map print_json (map (fun r => JRaw (printf_f 3 (row_seconds t0 r))) rows))).
Proof.
  apply writes_docs. intros first r. eapply writes_eq; [apply writes_printf|]. by destruct first.
Qed.

Lemma series_whole t0 rows labels :
  whole (series_body alloc t0 rows labels) (series_doc t0 rows labels).
Proof.
  apply whole_body; [|done]. eapply writes_eq.
  - repeat (eapply writes_cons;
      [first [apply nulls_docs | apply times_docs | apply writes_emit | apply writes_rungs
             | apply (writes_docs _ _ _ (writes_overlay_item t0)) | write_step]|]).
    apply writes_nil.
  - unfold series_doc, arrays at 1, series_columns. literals. cbn -[dist_columns].
    repeat (rewrite sapp_assoc; cbn -[dist_columns]). by rewrite ?sapp_nil_r.
Qed.
End Docs.

(** A document with its strings escaped: a reader finds the strings of the store in it. *)
#[warnings="-register-all"]
Inductive escaped : json -> Prop :=
| esc_obj fs : Forall (fun kv => plain kv.1 /\ escaped kv.2) fs -> escaped (JObj fs)
| esc_arr l : Forall escaped l -> escaped (JArr l)
| esc_str v : escaped (JString (jescape v))
| esc_num z : escaped (JNum z)
| esc_bool b : escaped (JBool b)
| esc_raw s : plain_json (JRaw s) = true -> escaped (JRaw s).

Lemma esc_col_text c : escaped (col_text_json c).
Proof.
  unfold col_text_json. destruct (cl_null c); [by constructor|].
  destruct (cl_text c); constructor; done.
Qed.

Lemma esc_col_int c : escaped (col_int_json c).
Proof. unfold col_int_json. destruct (cl_null c); by constructor. Qed.

Lemma esc_f n x : escaped (JRaw (printf_f n x)).
Proof. constructor. apply plain_printf_f. Qed.

Lemma esc_g x : escaped (text_json (g_text x)).
Proof. destruct x as [x|]; constructor; [apply plain_printf_g|done]. Qed.

Lemma esc_d x : escaped (text_json (d_text x)).
Proof.
  destruct x as [x|]; constructor; [|done]. apply plain_raw; [|apply num_chars_int].
  change (pretty x <> EmptyString).
  destruct (pretty_Z_shape x) as (d & -> & Hd & _). by destruct (x <? 0).
Qed.

Lemma esc_map {A} (f : A -> json) l : (forall x, escaped (f x)) -> escaped (JArr (map f l)).
Proof. intros Hf. constructor. apply Forall_map, Forall_forall. auto. Qed.

Create HintDb escaped.
Create HintDb quiet.
#[export] Hint Resolve esc_col_text esc_col_int esc_f esc_g esc_d esc_num esc_bool esc_map : escaped.

Ltac esc_fields := apply esc_obj; repeat (apply Forall_cons; split; [split; [by vm_compute|]|]);
  [..|apply Forall_nil]; cbn [snd]; eauto with escaped.

Lemma esc_summary r : escaped (session_summary r).
Proof. esc_fields. Qed.
Lemma esc_session r : escaped (session_doc r).
Proof. esc_fields. Qed.
Lemma esc_label t0 r : escaped (label_doc t0 r).
Proof. esc_fields. Qed.
Lemma esc_overlay t0 r : escaped (overlay_doc t0 r).
Proof. esc_fields. Qed.
Lemma esc_capture s path : escaped (capture_doc s path).
Proof. esc_fields. by constructor. Qed.

Lemma esc_arrays cs : Forall (fun c => plain c.1 /\ escaped (JArr c.2)) cs -> escaped (arrays cs).
Proof. intros Hc. constructor. apply Forall_map. eapply Forall_impl; [exact Hc|]. by intros c [? ?]. Qed.

Lemma esc_series `{!CAbi} t0 rows labels : escaped (series_doc t0 rows labels).
Proof.
  esc_fields.
  - apply esc_arrays. repeat (apply Forall_cons; split; [split; [by vm_compute|]|]); [..|apply Forall_nil];
      eauto with escaped. apply esc_map. intros _. by constructor.
  - apply esc_arrays. unfold dist_columns. cbn [map List.seq].
    repeat (apply Forall_cons; split; [split; [by vm_compute|]|]); [..|apply Forall_nil];
      eauto with escaped.
  - apply esc_map, esc_overlay.
  - by constructor.
  - by constructor.
Qed.

(** ** Replies *)

Definition reply_whole (e : TEvent) : Prop :=
  match e with
  | TReply _ ty body => ty = JSON_TYPE -> exists doc, escaped doc /\ body = print_json doc
  | _ => True
  end.

Section Replies.
Context {ABI : CAbi} {TE : TeleEnv} {R : Type} {RC : Recorder R}.

Local Abbreviation quiet := (performs reply_whole).

Lemma quiet_ask {A} e (f : list TEvent -> A) :
  match e with TReply _ _ _ => False | _ => True end -> quiet (ask e f).
Proof. intros He. apply performs_ask. by destruct e. Qed.

Lemma quiet_if {A} (b : bool) (m k : TG A) : quiet m -> quiet k -> quiet (if b then m else k).
Proof. by destruct b. Qed.

Lemma quiet_open path : quiet (wfb_logger_open path).
Proof.
  unfold wfb_logger_open. apply quiet_if; [apply performs_ret|].
  apply performs_bind; [by apply quiet_ask|]. intros [|h].
  - apply performs_bind; [by apply quiet_ask|]. intros ?. apply performs_ret.
  - apply performs_bind; [apply quiet_if; [by apply performs_log|apply performs_ret]|].
    intros ?. apply performs_ret.
Qed.

Lemma quiet_rows sql binds : quiet (with_rows sql binds).
Proof.
  apply performs_bind; [by apply quiet_ask|]. intros []; [|apply performs_ret].
  apply performs_bind; [by apply quiet_ask|]. intros ?.
  apply performs_bind; [by apply performs_log|]. intros ?. apply performs_ret.
Qed.

Lemma quiet_done sql binds : quiet (with_done sql binds).
Proof.
  apply performs_bind; [by apply quiet_ask|]. intros []; [|apply performs_ret].
  apply performs_bind; [by apply quiet_ask|]. intros ?.
  apply performs_bind; [by apply performs_log|]. intros ?. apply performs_ret.
Qed.

Lemma quiet_insert sql binds : quiet (insert_row sql binds).
Proof.
  apply performs_bind; [by apply quiet_ask|]. intros []; [|apply performs_ret].
  apply performs_bind; [by apply quiet_ask|]. intros d.
  apply performs_bind; [apply quiet_if; [by apply quiet_ask|apply performs_ret]|]. intros ?.
  apply performs_bind; [by apply performs_log|]. intros ?. apply performs_ret.
Qed.

Lemma quiet_first sid : quiet (first_ts sid).
Proof. apply performs_bind; [apply quiet_rows|]. intros ?. apply performs_ret. Qed.

Lemma quiet_each sqls : quiet (exec_each sqls).
Proof.
  induction sqls as [|s l IH]; [apply performs_ret|]. apply performs_bind; [by apply quiet_ask|].
  intros ?. apply quiet_if; [exact IH|apply performs_ret].
Qed.

Lemma quiet_finish alloc s doc : whole alloc s doc -> escaped doc -> quiet (sb_finish s).
Proof.
  intros [Hw _] He. unfold sb_finish. destruct Hw as [->|(-> & Hc & ->)]; [by apply performs_log|].
  cbn [orb]. destruct (Z.eqb_spec (sb_cap s) 0); [done|]. apply performs_log. intros _. by exists doc.
Qed.

Lemma quiet_json code text doc : escaped doc -> with_quotes text = print_json doc ->
  quiet (send_json code text).
Proof. intros He Ht. apply performs_log. intros _. exists doc. by rewrite Ht. Qed.

(** The constant answers. *)
Lemma quiet_error code x : with_quotes ("{'error':'" ++ x ++ "'}") =
    print_json (JObj [("error"%string, JString (jescape x))]) ->
  quiet (send_json code ("{'error':'" ++ x ++ "'}")).
Proof. apply quiet_json. constructor. repeat constructor. Qed.

Lemma quiet_failed code x : with_quotes ("{'ok':false,'error':'" ++ x ++ "'}") =
    print_json (JObj [("ok"%string, JBool false); ("error"%string, JString (jescape x))]) ->
  quiet (send_json code ("{'ok':false,'error':'" ++ x ++ "'}")).
Proof. apply quiet_json. constructor. repeat constructor. Qed.

Lemma quiet_ok code : quiet (send_json code "{'ok':true}").
Proof. eapply (quiet_json _ _ (JObj [("ok"%string, JBool true)])); [repeat constructor|done]. Qed.

Lemma quiet_not_ok code : quiet (send_json code "{'ok':false}").
Proof. eapply (quiet_json _ _ (JObj [("ok"%string, JBool false)])); [repeat constructor|done]. Qed.

Lemma quiet_empty code : quiet (send_json code "[]").
Proof. eapply (quiet_json _ _ (JArr [])); [repeat constructor|done]. Qed.

Lemma quiet_unchanged code : quiet (send_json code "{'ok':true,'changed':0}").
Proof.
  eapply (quiet_json _ _ (JObj [("ok"%string, JBool true); ("changed"%string, JNum 0)]));
    [repeat constructor|by vm_compute].
Qed.

Lemma with_quotes_app s t : with_quotes (s ++ t) = (with_quotes s ++ with_quotes t)%string.
Proof. induction s as [|c s IH]; [done|]. cbn. by rewrite IH. Qed.

Lemma with_quotes_int (z : Z) : with_quotes (pretty z) = pretty z.
Proof.
  pose proof (pretty_int_chars z) as Hz. revert Hz. generalize (pretty z) as t.
  induction t as [|c t IH]; intros Ht; [done|]. cbn [all_chars] in Ht.
  apply andb_true_iff in Ht as [Hc Ht]. cbn [with_quotes]. rewrite IH by done.
  destruct (aeq c (ch 39)) eqn:E; [|done]. apply Ascii.eqb_eq in E as ->. by vm_compute in Hc.
Qed.

Lemma quiet_id code (lid : Z) : quiet (send_json code ("{'id':" ++ pretty lid ++ "}")).
Proof.
  eapply (quiet_json _ _ (JObj [("id"%string, JNum lid)])); [repeat constructor|].
  rewrite !with_quotes_app, with_quotes_int. literals. cbn. by rewrite ?sapp_assoc.
Qed.

Lemma quiet_deleted code (sid : Z) : quiet (send_json code ("{'ok':true,'deleted':" ++ pretty sid ++ "}")).
Proof.
  eapply (quiet_json _ _ (JObj [("ok"%string, JBool true); ("deleted"%string, JNum sid)]));
    [repeat constructor|].
  rewrite !with_quotes_app, with_quotes_int. literals. cbn. by rewrite ?sapp_assoc.
Qed.

Lemma quiet_opened path (refused k : TG unit) : quiet refused -> quiet k ->
  quiet (let! ok := wfb_logger_open path in if negb ok then refused else k).
Proof. intros H1 H2. apply performs_bind; [apply quiet_open|]. by intros []. Qed.
End Replies.

#[export] Hint Resolve quiet_rows quiet_done quiet_insert quiet_first quiet_each quiet_ok quiet_not_ok
  quiet_empty quiet_unchanged quiet_id quiet_deleted : quiet.

Section Whole.
Context {ABI : CAbi} {TE : TeleEnv} {R : Type} {RC : Recorder R}.
Local Abbreviation quiet := (performs reply_whole).

(** The steps between opening and reply. *)
Ltac hush := repeat first
  [ lazymatch goal with |- performs _ (if _ then _ else _) => apply quiet_if end
  | solve [eauto with quiet]
  | apply performs_bind; [solve [eauto with quiet | by apply performs_silent | by apply quiet_ask
                                | by apply performs_log]|intros ?] ].

Lemma quiet_sessions path : quiet (tele_sessions path).
Proof. apply quiet_opened; hush. eapply quiet_finish; [apply sessions_whole|]. apply esc_map, esc_summary. Qed.

Lemma quiet_session_one path sid : quiet (tele_session_one path sid).
Proof.
  apply quiet_opened; [by apply (quiet_error _ "no db")|]. hush.
  destruct x as [[|r l]|]; try by apply (quiet_error _ "no session").
  eapply quiet_finish; [apply session_whole|apply esc_session].
Qed.

Lemma quiet_labels path sid : quiet (tele_labels path sid).
Proof.
  apply quiet_opened; hush. eapply quiet_finish; [apply labels_whole|]. apply esc_map, esc_label.
Qed.

Lemma quiet_series path sid : quiet (tele_series path sid).
Proof.
  apply quiet_opened; [by apply (quiet_error _ "no db")|]. hush.
  eapply quiet_finish; [apply series_whole|apply esc_series].
Qed.

Lemma quiet_label_add path sid qs : quiet (tele_label_add path sid qs).
Proof.
  apply quiet_opened; [hush|]. apply performs_bind.
  { apply performs_bind; [apply quiet_first|]. intros ?. apply performs_ret. }
  intros t0. cbv zeta. case_match; hush; by apply (quiet_failed _ "insert failed").
Qed.

Lemma quiet_label_del path qs : quiet (tele_label_del path qs).
Proof.
  unfold tele_label_del. pose proof (quiet_failed 400 "missing label_id" ltac:(by vm_compute)).
  destruct (qs_get_int qs "label_id"); [|done]. apply quiet_if; [done|]. apply quiet_opened; hush.
Qed.

Lemma quiet_meta path sid qs : quiet (tele_meta path sid qs).
Proof. unfold tele_meta. apply quiet_if; [hush|]. apply quiet_opened; hush. Qed.

Lemma quiet_delete path sid : quiet (tele_session_delete path sid).
Proof.
  apply quiet_opened; [hush|]. apply performs_bind; [apply quiet_rows|].
  intros [[|r l]|].
  1,3: hush; by apply (quiet_failed _ "no session").
  apply quiet_if.
  - hush. by apply (quiet_failed _ "refusing to delete the active capture — roll a new session first").
  - apply performs_bind; [by apply quiet_ask|]. intros ?.
    apply performs_bind; [apply quiet_each|]. intros ?.
    apply performs_bind; [by apply quiet_ask|]. intros ?. hush.
    by apply (quiet_failed _ "delete failed").
Qed.

Lemma quiet_with_id qs missing (f : Z -> TG unit) :
  (forall code, quiet (send_json code missing)) -> (forall id, quiet (f id)) ->
  quiet (with_id qs missing f).
Proof. intros Hm Hf. unfold with_id. by destruct (query_id qs). Qed.

Lemma quiet_status (r : R) : quiet (tele_capture_status r).
Proof.
  unfold tele_capture_status. destruct (rec_status r) as [s r'].
  apply performs_bind; [by apply performs_silent|]. intros mem.
  apply performs_bind; [|intros ?; apply performs_ret].
  eapply quiet_finish; [apply capture_whole|apply esc_capture].
Qed.

Lemma quiet_roll qs (r : R) : quiet (tele_capture_roll qs r).
Proof. unfold tele_capture_roll. apply performs_bind; [apply quiet_ok|]. intros ?. apply performs_ret. Qed.

Lemma quiet_own {A} (m : TG A) (k : A -> bool * R) : quiet m -> quiet (let! x := m in io_ret (k x)).
Proof. intros H. apply performs_bind; [done|]. intros ?. apply performs_ret. Qed.

(** Every reply with a JSON type is one whole document: never cut off, whatever its length, with
    every string of the store escaped so that a reader finds it again; when memory runs out the reply
    is a text instead. *)
Theorem replies_whole path qs (r : R) : performs reply_whole (tele_route path qs r).
Proof.
  unfold tele_route.
  assert (Hm : forall code, quiet (send_json code MISSING)) by (intros; by apply (quiet_error _ "missing id")).
  assert (Hmo : forall code, quiet (send_json code MISSING_OK)) by (intros; by apply (quiet_failed _ "missing id")).
  do 2 (apply quiet_if; [apply quiet_own; by apply performs_log|]).
  apply quiet_if.
  { apply quiet_own. unfold tele_static. repeat (apply quiet_if; [by apply performs_log|]).
    by apply performs_log. }
  apply quiet_if; [apply quiet_own, quiet_sessions|].
  apply quiet_if.
  { apply quiet_if; [apply quiet_own, quiet_roll|].
    repeat (apply quiet_if; [apply quiet_own, quiet_status|]). apply quiet_own, quiet_status. }
  apply quiet_if.
  { apply quiet_own, quiet_with_id; [done|]. intros id. apply quiet_if;
      [apply quiet_delete|apply quiet_session_one]. }
  apply quiet_if; [apply quiet_own, quiet_with_id; [done|intros; apply quiet_series]|].
  apply quiet_if; [apply quiet_own, quiet_with_id; [done|intros; apply quiet_meta]|].
  apply quiet_if; [|apply performs_ret].
  apply quiet_if; [apply quiet_own, quiet_with_id; [done|intros; apply quiet_label_add]|].
  apply quiet_if; [apply quiet_own, quiet_label_del|].
  apply quiet_own, quiet_with_id; [done|intros; apply quiet_labels].
Qed.
End Whole.

(** ** Connections and statements *)

Section Protocol.
Context {ABI : CAbi} {TE : TeleEnv} {R : Type} {RC : Recorder R}.

(** (C26) Whatever a request asks and whatever SQLite answers, the telemetry pages keep its protocol:
    one connection at a time, closed before the reply; every statement finalized, run only when it
    could be prepared, and with a value for each of its question marks.  The texts are from a fixed
    set, with nothing but the number of a session filled in, so that no text of a request becomes
    SQL.  A path of theirs is answered exactly once, any other is left alone. *)
Theorem pages_in_protocol path qs (r : R) w n :
  served (w_trace w) Closed n ->
  let o := tele_route path qs r w in
  served (w_trace o.2) Closed (if o.1.1 then S n else n).
Proof. exact (route_served n path qs r w). Qed.
End Protocol.

(** ** The chart *)

Section Chart.
Context {ABI : CAbi} {TE : TeleEnv}.

(** Nothing is refused. *)
Record obliging : Prop := {
  ob_open : forall tr, te_open tr = Opened;
  ob_prepare : forall tr, te_prepare tr = true;
  ob_alloc : forall tr n, te_alloc tr n = true;
  ob_rows_alloc : forall tr n, te_rows_alloc tr n = true
}.

(** The rows a statement delivered within the events [es] behind [tr]. *)
Definition delivered (sql : string) (binds : list Bind) (es tr : list TEvent) (rows : list Row) : Prop :=
  exists pre post, es = post ++ TRun binds :: TPrepare sql :: pre /\
    te_rows (TRun binds :: TPrepare sql :: pre ++ tr) = rows.

Lemma collect_all can l : (forall n, can n = true) -> forall cap n, collect_rows can cap n l = l.
Proof.
  intros Hc. induction l as [|r l IH]; intros cap n; cbn [collect_rows]; [done|].
  destruct (n >=? cap); [rewrite Hc|]; by rewrite IH.
Qed.

Lemma with_rows_obliging sql binds w : obliging -> exists w' rows,
  with_rows sql binds w = (Some rows, w') /\
  w_trace w' = TFinalize :: TRun binds :: TPrepare sql :: w_trace w /\
  te_rows (TRun binds :: TPrepare sql :: w_trace w) = rows.
Proof.
  intros Ho. unfold with_rows, io_bind.
  destruct (ask (TPrepare sql) te_prepare w) as [b w1] eqn:E1. apply ask_run in E1 as [E1 ->].
  rewrite (ob_prepare Ho).
  destruct (ask (TRun binds) te_rows w1) as [rows w2] eqn:E2. apply ask_run in E2 as [E2 ->].
  eexists _, _. split; [done|]. cbn. by rewrite E2, E1.
Qed.

Lemma finish_whole alloc s doc w : whole alloc s doc -> (forall n, alloc n = true) ->
  w_trace (sb_finish s w).2 = TReply 200 JSON_TYPE (print_json doc) :: w_trace w.
Proof.
  intros [Hw Hn] Ha. specialize (Hn Ha). destruct Hw as [Hw|(_ & Hc & Ht)]; [congruence|].
  unfold sb_finish. rewrite Hn, Ht. destruct (Z.eqb_spec (sb_cap s) 0); done.
Qed.

(** (C28) The data of the chart is the session's: with nothing refused, the reply is the document of
    exactly the records and labels the store delivered for this session, in their order, with times
    in seconds after the first record; all its columns, those of the rungs included, have an entry
    for every record. *)
Theorem series_shows_session path sid w : obliging -> path <> EmptyString ->
  exists es recs labels,
    let t0 := match recs with r :: _ => cl_int (column r 0) | [] => 0 end in
    let rows := map series_row recs in
    w_trace (tele_series path sid w).2 =
      TReply 200 JSON_TYPE (print_json (series_doc t0 rows labels)) :: es ++ w_trace w /\
    delivered SQL_RECORDS [BInt sid] es (w_trace w) recs /\
    delivered SQL_OVERLAYS [BInt sid] es (w_trace w) labels /\
    Forall (fun c => length c.2 = length recs) (series_columns t0 rows ++ dist_columns rows).
Proof.
  intros Ho Hp. unfold tele_series, wfb_logger_open. destruct path as [|c p]; [done|].
  cbn [nonempty negb]. unfold io_bind.
  destruct (ask (TOpen _) te_open w) as [oa w1] eqn:E1. apply ask_run in E1 as [E1 ->].
  rewrite (ob_open Ho). unfold sqlite3_exec.
  destruct (ask (TExec SQL_PRAGMA) te_exec w1) as [ok w2] eqn:E2. apply ask_run in E2 as [E2 _].
  cbn [io_ret negb]. rewrite E1 in E2.
  destruct (with_rows_obliging SQL_RECORDS [BInt sid] w2 Ho) as (w3 & recs & -> & E3 & R3).
  cbn [rows_allocator default]. rewrite (collect_all _ _ (ob_rows_alloc Ho _)).
  destruct (with_rows_obliging SQL_OVERLAYS [BInt sid] w3 Ho) as (w4 & labels & -> & E4 & R4).
  cbn [allocator sqlite3_close io_log default].
  set (pre := [TExec SQL_PRAGMA; TOpen (String c p)]).
  exists (TClose :: TFinalize :: TRun [BInt sid] :: TPrepare SQL_OVERLAYS :: TFinalize ::
          TRun [BInt sid] :: TPrepare SQL_RECORDS :: pre), recs, labels.
  cbn zeta. split_and!.
  - erewrite finish_whole; [|apply series_whole|apply (ob_alloc Ho)]. cbn. by rewrite E4, E3, E2.
  - exists pre, [TClose; TFinalize; TRun [BInt sid]; TPrepare SQL_OVERLAYS; TFinalize].
    split; [done|]. by rewrite <- R3, E2.
  - exists (TFinalize :: TRun [BInt sid] :: TPrepare SQL_RECORDS :: pre), [TClose; TFinalize].
    split; [done|]. by rewrite <- R4, E3, E2.
  - apply Forall_app. split.
    + repeat (apply Forall_cons; split; [cbn; by rewrite !length_map|]). apply Forall_nil. done.
    + unfold dist_columns. apply Forall_map, Forall_forall. intros m _. cbn. by rewrite !length_map.
Qed.
End Chart.

(** ** Labels *)

Section Labels.
Context {ABI : CAbi} {TE : TeleEnv}.

(** What the insertion of a label binds: an interval in order, a kind and an author. *)
Definition label_bound (sid : Z) (e : TEvent) : Prop :=
  match e with
  | TRun [BInt s] => s = sid
  | TRun [BInt s; BInt t0; BInt t1; BText kind; BText _; BText author; BText _] =>
      s = sid /\ t0 <= t1 /\ kind <> EmptyString /\ author <> EmptyString
  | TRun _ => False
  | _ => True
  end.

Lemma or_else_some s d : d <> EmptyString -> or_else s d <> EmptyString.
Proof. unfold or_else. by destruct s. Qed.

(** A label never ends before it starts and is never without a kind or an author, whatever the
    request says. *)
Theorem label_in_order path sid qs : performs (label_bound sid) (tele_label_add path sid qs).
Proof.
  assert (Hask : forall {A} e (f : list TEvent -> A), label_bound sid e -> performs (label_bound sid) (ask e f)).
  { intros A e f He. by apply performs_ask. }
  apply performs_bind.
  { unfold wfb_logger_open. destruct (negb _); [apply performs_ret|].
    apply performs_bind; [by apply Hask|]. intros [|h].
    - apply performs_bind; [by apply Hask|]. intros ?. apply performs_ret.
    - apply performs_bind; [destruct h; [by apply performs_log|apply performs_ret]|].
      intros ?. apply performs_ret. }
  intros []; [|by apply performs_log]. cbn [negb]. apply performs_bind.
  { apply performs_bind; [|intros ?; apply performs_ret]. apply performs_bind; [|intros ?; apply performs_ret].
    apply performs_bind; [by apply Hask|]. intros []; [|apply performs_ret].
    apply performs_bind; [by apply Hask|]. intros ?.
    apply performs_bind; [by apply performs_log|]. intros ?. apply performs_ret. }
  intros t0. cbv zeta.
  assert (Hins : forall a b now, a <= b -> performs (label_bound sid)
    (insert_row SQL_LABEL_ADD [BInt sid; BInt a; BInt b;
       BText (or_else (default EmptyString (qparam_dec qs "kind" 24)) "event");
       BText (default EmptyString (qparam_dec qs "value" 256));
       BText (or_else (default EmptyString (qparam_dec qs "author" 64)) "human:web");
       BText now])).
  { intros a b now Hab. apply performs_bind; [by apply Hask|]. intros []; [|apply performs_ret].
    apply performs_bind; [apply Hask; split_and!; [done|done|by apply or_else_some..]|]. intros d.
    apply performs_bind; [destruct d; [by apply Hask|apply performs_ret]|]. intros ?.
    apply performs_bind; [by apply performs_log|]. intros ?. apply performs_ret. }
  assert (Hrest : forall lid, performs (label_bound sid) (let! _ := sqlite3_close in
    if lid >=? 0 then send_json 200 ("{'id':" ++ pretty (lid : Z) ++ "}")
    else send_json 500 "{'ok':false,'error':'insert failed'}")).
  { intros lid. apply performs_bind; [by apply performs_log|]. intros ?.
    destruct (lid >=? 0); by apply performs_log. }
  match goal with |- context [if ?x <? ?y then _ else _] => destruct (Z.ltb_spec x y) end;
    (apply performs_bind; [by apply Hask|]; intros now;
     apply performs_bind; [apply Hins; lia|intros ?; apply Hrest]).
Qed.

Lemma swrap_sub w x y : 0 < w -> swrap w (swrap w x - y) = swrap w (x - y).
Proof.
  intros Hw. assert (wrap w (swrap w x - y) = wrap w (x - y)) as E.
  2:{ revert E. generalize (swrap w x - y), (x - y). intros a b E. unfold swrap. by rewrite E. }
  unfold swrap, wrap. destruct (_ <? _).
  - by rewrite Zminus_mod_idemp_l.
  - replace (x mod 2 ^ w - 2 ^ w - y) with (x mod 2 ^ w - y + (-1) * 2 ^ w) by lia.
    rewrite Z.mod_add by (pose proof (Z.pow_pos_nonneg 2 w); lia). by rewrite Zminus_mod_idemp_l.
Qed.

(** The milliseconds a text asks for. *)
Definition asked_ms (s : string) : Z :=
  fp_to_Z (- 2 ^ 63) (2 ^ 63 - 1)
    (F64.add (F64.mul (strtod_or_zero s) (F64.of_Z 1000)) (F64.lit 1 2)).

Lemma asked_ms_range s : - 2 ^ 63 <= asked_ms s <= 2 ^ 63 - 1.
Proof.
  unfold asked_ms. destruct (F64.add _ _) as [|[]| |]; cbn [fp_to_Z]; lia.
Qed.

(** With a [long] of 64 bits, a label put at so many seconds of the chart is shown there. *)
Theorem label_shown_where_put s t0 : long_bits = 64 -> - 2 ^ 63 <= t0 < 2 ^ 63 ->
  since t0 (label_ms s (long_cast t0)) = F64.div (F64.of_Z (asked_ms s)) (F64.of_Z 1000).
Proof.
  intros Hl Ht. unfold since, label_ms, long_cast. fold (asked_ms s). rewrite Hl.
  rewrite (swrap_small 64 t0) by lia. unfold i64. rewrite swrap_sub by lia.
  replace (asked_ms s + t0 - t0) with (asked_ms s) by lia.
  pose proof (asked_ms_range s). rewrite swrap_small by lia. done.
Qed.
End Labels.

(** With one of 32 bits it is not: [tele_first_ts] keeps the low half of the time. *)
Example label_misplaced :
  printf_f 3 (since 1735689600000 (label_ms "1.5" (@long_cast abi_armv7 1735689600000))) <>
  "1.500"%string.
Proof. vm_compute. discriminate. Qed.

(** ** The pages and the logger

    The two threads of [GsStore] as the logger the pages use.  While the HTTP thread waits for the
    capture thread to end, that one takes at most three steps, in which the socket delivers [got1]
    to [got3]. *)

Section Recording.
Context {ABI : CAbi} {EV : LogEnv} {TE : TeleEnv}.
Variables got1 got2 got3 : option string.

Definition act_or_stay (a : Act) (s : Sys) : Sys := default s (sys_act a s).

#[local] Instance sys_recorder : Recorder Sys := {|
  rec_start := act_or_stay AStart;
  rec_stop s := let s := act_or_stay AStop s in default s (stop_run [got1; got2; got3] s);
  rec_roll dur := act_or_stay (ARoll dur);
  rec_status s := let '(x, w) := wfb_logger_status (sy_log s) (sy_world s) in (x, s <| sy_world := w |>);
  rec_path s := lg_db (lo_cfg (sy_log s)) |}.

Definition at_call (s : Sys) : Prop := reachable s /\ sy_joining s = false.

Lemma stop_run_reachable gots : forall s s', reachable s -> stop_run gots s = Some s' -> reachable s'.
Proof.
  induction gots as [|got gots IH]; intros s s' Hs; cbn [stop_run].
  - destruct (sy_thread s); [|done..]. by intros [= <-].
  - destruct (sy_thread s); [by intros [= <-]|..];
      (destruct (sys_act _ s) as [s1|] eqn:E; [|done]; cbn; apply IH; by eapply reach_act).
Qed.

Lemma act_call a s s' : at_call s -> sys_act a s = Some s' -> sy_joining s' = false ->
  act_or_stay a s = s' /\ at_call s'.
Proof.
  intros [Hs Hj] E Hj'. unfold act_or_stay. rewrite E. split; [done|]. split; [|done].
  by eapply reach_act.
Qed.

Lemma start_call s : at_call s -> at_call (rec_start s).
Proof.
  intros Hs. change (rec_start s) with (act_or_stay AStart s).
  destruct (act_call AStart s (on_world s (wfb_logger_runtime_start (sy_log s)) spawned) Hs) as [-> ?];
    [| |done]; destruct Hs as [_ Hj].
  - cbn [sys_act]. by rewrite Hj.
  - unfold on_world, spawned. by destruct (wfb_logger_runtime_start _ _) as [r w].
Qed.

Lemma roll_call dur s : at_call s -> at_call (rec_roll dur s).
Proof.
  intros Hs. change (rec_roll dur s) with (act_or_stay (ARoll dur) s).
  destruct (act_call (ARoll dur) s (s <| sy_log := wfb_logger_roll dur (sy_log s) |>) Hs) as [-> ?];
    [| |done]; destruct Hs as [_ Hj]; [|done]. cbn [sys_act]. by rewrite Hj.
Qed.

Lemma status_call s : at_call s -> at_call (rec_status s).2.
Proof.
  intros Hs.
  assert (E : (rec_status s).2 = on_world s (wfb_logger_status (sy_log s)) (fun _ s => s)).
  { unfold on_world. cbn [rec_status sys_recorder]. by destruct (wfb_logger_status _ _). }
  rewrite E. destruct Hs as [Hs Hj]. split.
  - eapply (reach_act AStatus s); [done|]. cbn [sys_act]. by rewrite Hj.
  - unfold on_world. by destruct (wfb_logger_status _ _).
Qed.

(** What a stop leaves. *)
Definition at_stop (s : Sys) : Prop :=
  at_call s /\ sy_thread s = NoThread /\ lo_started (sy_log s) = false /\
  lo_running (sy_log s) = false /\ lo_session_id (sy_log s) < 0 /\
  holds at_rest (w_trace (sy_world s)).

Lemma stop_call s : at_call s -> at_stop (rec_stop s).
Proof.
  intros [Hs Hj].
  set (s1 := s <| sy_log := stop_request (sy_log s) |> <| sy_joining := lo_started (sy_log s) |>).
  assert (Ea : sys_act AStop s = Some s1) by (cbn [sys_act]; by rewrite Hj).
  assert (R1 : reachable s1) by (by eapply reach_act).
  pose proof (reachable_inv s Hs) as [_ I]. cbn zeta in I.
  destruct (stop_run_ends [got1; got2; got3] s1 (reachable_inv s1 R1)) as (s' & E & T & I').
  { cbn. destruct (sy_thread s); [by left|right; apply I..]. }
  { cbn. destruct (sy_thread s); cbn; lia. }
  assert (Er : rec_stop s = s').
  { change (rec_stop s) with
      (default (act_or_stay AStop s) (stop_run [got1; got2; got3] (act_or_stay AStop s))).
    assert (act_or_stay AStop s = s1) as -> by (unfold act_or_stay; by rewrite Ea). by rewrite E. }
  rewrite Er. destruct I' as [_ I']. rewrite T in I'. destruct I' as (? & ? & []).
  split_and!; try done. split; [by eapply stop_run_reachable|done].
Qed.

(** Behind every request to the telemetry pages, the logger's two threads are in a state they can
    reach by themselves, so that whatever holds of those (its store in protocol, its status true)
    holds with the pages in use; and the HTTP thread is not left waiting. *)
Theorem pages_drive_logger path qs s w : at_call s -> at_call (tele_route path qs s w).1.2.
Proof.
  intros Hs. unfold tele_route.
  assert (Hown : forall (m : TG unit), at_call (io_bind m (fun _ => io_ret (true, s)) w).1.2).
  { intros m. unfold io_bind. by destruct (m w). }
  assert (Hst : forall s w, at_call s ->
    at_call (io_bind (tele_capture_status s) (fun r => io_ret (true, r)) w).1.2).
  { intros s2 w2 H2. pose proof (status_call s2 H2) as K. unfold tele_capture_status, io_bind.
    destruct (rec_status s2) as [x r]. cbn. by destruct (sb_finish _ w2). }
  repeat match goal with |- at_call ((if ?b then _ else _) w).1.2 => destruct b end; try apply Hown.
  - by apply roll_call.
  - apply Hst, start_call, Hs.
  - apply Hst, stop_call, Hs.
  - apply Hst, Hs.
  - exact Hs.
Qed.

(** A stop answers only when everything is sealed: the reply is the status of a logger that is not
    running and has no session. *)
Theorem capture_stop_seals s w : at_call s -> (forall tr n, te_alloc tr n = true) ->
  exists st s', (tele_capture_set false s w).1 = s' /\ at_stop s' /\
    w_trace (tele_capture_set false s w).2 =
      TReply 200 JSON_TYPE (print_json (capture_doc st (lg_db (lo_cfg (sy_log s'))))) :: w_trace w /\
    ws_running st = false /\ ws_started st = false /\ ws_session_id st < 0.
Proof.
  intros Hs Ha. pose proof (stop_call s Hs) as Hst.
  unfold tele_capture_set, tele_capture_status. set (s1 := rec_stop s) in *. clearbody s1. clear s Hs.
  destruct Hst as (Hc & T & Hstart & Hrun & Hid & Hh).
  set (l := sy_log s1) in *.
  set (st := Build_WfbLogStatus (lo_running l) (lo_started l) (lo_bind_error l) (lo_db_error l)
    (lo_session_id l) (lo_records l) (lo_bad l) (lo_dropped l) f0 (lo_max_duration l)
    (lg_listen_port (lo_cfg l))).
  assert (Er : rec_status s1 = (st, s1)).
  { cbn [rec_status sys_recorder]. unfold wfb_logger_status. fold l.
    destruct (Z.geb_spec (lo_session_id l) 0); [lia|]. subst st l. by destruct s1. }
  rewrite Er. unfold allocator, io_bind, io_ret. cbn [fst snd].
  pose proof (finish_whole (te_alloc (w_trace w)) _ _ w
    (capture_whole (te_alloc (w_trace w)) st (rec_path s1)) (Ha _)) as K.
  destruct (sb_finish _ w) as [[] w'] eqn:E. cbn [snd] in K.
  exists st, s1. split_and!; [done|by split_and!|exact K|exact Hrun|exact Hstart|exact Hid].
Qed.
End Recording.

(** ** Deviations *)

(** The guard of a deletion goes by the name: the session the logger is writing is recognised only
    if its configured [source] begins with "live". *)
Theorem active_by_name cfg r :
  cl_text (column r 0) = Some (sr_source (session_row cfg)) -> cl_null (column r 1) = true ->
  is_active r = starts_with "live" (until_nul (sr_source (session_row cfg))).
Proof. intros Hs He. unfold is_active. by rewrite Hs, He, andb_true_r. Qed.

(** ** A store to try the pages on *)

Definition int_col (z : Z) : Col := Build_Col false z (F64.of_Z z) (Some (pretty z)).
Definition text_col (s : string) : Col := Build_Col false 0 f0 (Some s).

Definition demo_record (ts : Z) (mcs : Z) : Row :=
  [int_col ts; int_col (-60); col_none; col_none; col_none; col_none; int_col mcs; int_col 0; int_col 0;
   text_col demo_line].

(** A session of two records and a label; its capture is open and named [source]. *)
Definition demo_rows (source : string) (tr : list TEvent) : list Row :=
  match tr with
  | TRun _ :: TPrepare sql :: _ =>
      if String.eqb sql SQL_RECORDS then [demo_record 5000 3; demo_record 5250 2]
      else if String.eqb sql SQL_FIRST_TS then [[int_col 5000]]
      else if String.eqb sql SQL_OVERLAYS then
        [[int_col 5100; int_col 5200; text_col "event"; text_col (with_quotes "a 'b' c"); text_col "me"]]
      else if String.eqb sql SQL_ACTIVE then [[text_col source; col_none]]
      else []
  | _ => []
  end.

Definition demo_tele (source refuse : string) : TeleEnv := {|
  te_open _ := Opened;
  te_exec tr := match tr with TExec sql :: _ => negb (String.eqb sql refuse) | _ => true end;
  te_prepare _ := true; te_rows := demo_rows source; te_done _ := true; te_rowid _ := 7;
  te_time _ := 0; te_alloc _ _ := true; te_rows_alloc _ _ := true |}.

Definition world0 : GWorld TEvent := Build_World 0 [].

(** The code of the last reply. *)
Definition replied (tr : list TEvent) : option Z :=
  match tr with TReply code _ _ :: _ => Some code | _ => None end.

Example delete_live_refused :
  replied (w_trace (@tele_session_delete (demo_tele "live-gs" "") "wfb.sqlite" 4 world0).2) = Some 409.
Proof. vm_compute. reflexivity. Qed.

(** A capture under another name is deleted while it is written. *)
Example delete_active_capture :
  replied (w_trace (@tele_session_delete (demo_tele "bench-3" "") "wfb.sqlite" 4 world0).2) = Some 200.
Proof. vm_compute. reflexivity. Qed.

(** The answer of [COMMIT] is not looked at: refused, the deletion still counts as done. *)
Example commit_refused :
  replied (w_trace (@tele_session_delete (demo_tele "bench-3" "COMMIT") "wfb.sqlite" 4 world0).2) = Some 200.
Proof. vm_compute. reflexivity. Qed.

(** Without [BEGIN] every deletion stands for itself, and a later failure undoes none. *)
Example begin_refused :
  execs (take 7 (w_trace (@tele_session_delete (demo_tele "bench-3" "BEGIN") "wfb.sqlite" 4 world0).2)) =
    delete_sql 4 ++ ["COMMIT"%string].
Proof. vm_compute. reflexivity. Qed.

Lemma session_delete_outcome_witness : exists o es,
  w_trace (@tele_session_delete (demo_tele "bench-3" "COMMIT") "wfb.sqlite" 4 world0).2 =
    deletion_reply 4 o :: es ++ [] /\
  @deletion_log (demo_tele "bench-3" "COMMIT") 4 o es [].
Proof.
  apply (@session_delete_outcome (demo_tele "bench-3" "COMMIT") "wfb.sqlite" 4 world0).
  unfold INT_MAX. lia.
Defined.

#[local] Existing Instance demo_abi.
#[local] Existing Instance demo_env.

Lemma series_shows_session_witness : exists es recs labels,
  w_trace (@tele_series _ (demo_tele "live-gs" "") "wfb.sqlite" 4 world0).2 =
    TReply 200 JSON_TYPE (print_json (series_doc
      match recs with r :: _ => cl_int (column r 0) | [] => 0 end (map series_row recs) labels)) :: es ++ [] /\
  length recs = 2%nat.
Proof.
  destruct (@series_shows_session _ (demo_tele "live-gs" "") "wfb.sqlite" 4 world0)
    as (es & recs & labels & E & (pre & post & _ & Hr) & _).
  - by split.
  - discriminate.
  - exists es, recs, labels. split; [exact E|]. rewrite <- Hr. vm_compute. reflexivity.
Defined.

Lemma pages_in_protocol_witness :
  let o := @tele_route _ (demo_tele "live-gs" "") _ (sys_recorder None None None)
             "/api/v1/telemetry/sessions" None (demo_sys 0 []) world0 in
  o.1.1 = true /\ @served (demo_tele "live-gs" "") (w_trace o.2) Closed 1.
Proof.
  intros o. assert (Ho : o.1.1 = true) by (vm_compute; reflexivity). split; [exact Ho|].
  pose proof (@pages_in_protocol _ (demo_tele "live-gs" "") _ (sys_recorder None None None)
           "/api/v1/telemetry/sessions" None (demo_sys 0 []) world0 0 served_start) as K.
  cbn zeta in K. fold o in K. rewrite Ho in K. exact K.
Defined.

Lemma pages_drive_logger_witness :
  let s := (@tele_route _ (demo_tele "live-gs" "") _ (sys_recorder None None None)
             "/api/v1/telemetry/capture" (Some "action=stop"%string)
             (demo_sys 0 [ABegin; ATurn (Some demo_line)]) world0).1.2 in
  at_call s /\ lo_started (sy_log s) = false.
Proof.
  split.
  - apply (@pages_drive_logger _ _ (demo_tele "live-gs" "") None None None). split; [apply demo_reachable|].
    vm_compute. reflexivity.
  - vm_compute. reflexivity.
Defined.
