(* ===== verification/GsTime.v ===== *)
(** * The loops that wait end

    Every loop of the supervisor that waits for a child, an adapter or a deadline ends: under
    [time_passes] no computation records [GStuck]. *)

From S2P Require Import Prelude CString Io Net GsText GsNet GsConfig GsProc.
From S2P Require Import GsState GsStats GsEmit GsRadio GsTunnel GsJson GsApi GsLoop.

Local Open Scope list_scope.

Definition ends {A} (m : GS A) : Prop := performs (fun e => e <> GStuck) m.

Section Time.
Context {EV : GsEnv} {ABI : CAbi}.
Hypothesis HT : time_passes.

(** The millisecond clock at a history. *)
Definition ms_at (h : list GEvent) : Z := ge_clock_us h `quot` 1000.

Lemma patience_pos : (0 < ge_patience)%nat.
Proof. destruct ge_patience eqn:E; [|lia]. pose proof (clock_advances HT [] []). cbn in *. lia. Qed.

Lemma clock_after k : forall h es, (k * ge_patience <= length es)%nat ->
  ge_clock_us h + 1000 * Z.of_nat k <= ge_clock_us (es ++ h).
Proof.
  induction k as [|k IH]; intros h es Hl.
  { pose proof (clock_monotone HT h es). lia. }
  assert (es = take (length es - ge_patience) es ++ drop (length es - ge_patience) es) as E
    by (by rewrite take_drop).
  set (old := drop _ es) in E. set (new := take _ es) in E.
  assert (length old = ge_patience) as Ho by (subst old; rewrite length_drop; lia).
  assert (length new = (length es - ge_patience)%nat) as Hn
    by (subst new; rewrite length_take; lia).
  rewrite E, <- app_assoc. pose proof (clock_advances HT h old ltac:(lia)) as H1.
  pose proof (IH (old ++ h) new ltac:(lia)) as H2. lia.
Qed.

Lemma ms_overdue h es d : 0 <= d -> (turns d <= length es)%nat -> ms_at h + d <= ms_at (es ++ h).
Proof.
  intros Hd Hl. unfold turns in Hl.
  pose proof (clock_after (Z.to_nat (d + 2)) h es ltac:(lia)) as Hc.
  pose proof (clock_range HT h) as H1. pose proof (clock_range HT (es ++ h)) as H2.
  unfold ms_at. rewrite !Z.quot_div_nonneg by lia.
  assert (ge_clock_us (es ++ h) / 1000 >= (ge_clock_us h + (d + 2) * 1000) / 1000).
  { apply Z.le_ge, Z.div_le_mono; lia. }
  rewrite Z.div_add in * by lia. lia.
Qed.

Lemma ms_range h : 0 <= ms_at h.
Proof.
  pose proof (clock_range HT h). unfold ms_at. rewrite Z.quot_div_nonneg by lia.
  apply Z.div_pos; lia.
Qed.

(** *** Rules *)

Lemma ends_ret {A} (x : A) : ends (io_ret x).
Proof. apply performs_ret. Qed.

Lemma ends_call {A} e (f : list GEvent -> A) : e <> GStuck -> ends (call e f).
Proof. intros He w. exists [e]. split; [done|]. by repeat constructor. Qed.

Lemma ends_log e : e <> GStuck -> ends (io_log e).
Proof. intros He. by apply performs_log. Qed.

Lemma ends_bind {A B} (m : GS A) (f : A -> GS B) : ends m -> (forall x, ends (f x)) -> ends (io_bind m f).
Proof. apply performs_bind. Qed.

(** The form in which timed loops are run: the events added to a history. *)
Definition ran {A} (m : GS A) (w : GW) : Prop :=
  exists es, w_trace (m w).2 = es ++ w_trace w /\ Forall (fun e => e <> GStuck) es.

Lemma ran_ret {A} (x : A) w : ran (io_ret x) w.
Proof. exists []. by split. Qed.

Lemma ran_bind {A B} (m : GS A) (f : A -> GS B) w :
  ran m w -> ran (f (m w).1) (m w).2 -> ran (io_bind m f) w.
Proof.
  intros (es & E & H) (fs & F & K). unfold ran, io_bind in *. destruct (m w) as [x w1].
  exists (fs ++ es). cbn [fst snd] in *. rewrite F, E. split; [by rewrite app_assoc|].
  by apply Forall_app.
Qed.

Lemma ran_ends {A} (m : GS A) w : ends m -> ran m w.
Proof. intros H. apply H. Qed.

Lemma grows {A} (m : GS A) w : ends m -> exists es, w_trace (m w).2 = es ++ w_trace w.
Proof. intros H. destruct (H w) as (es & E & _). by exists es. Qed.

(** [within d fin h n w]: [w] has run on from the history [h], the deadline [fin] is at most
    [d] after it, and the [n] turns left are enough. *)
Definition within (d fin : Z) (h : list GEvent) (n : nat) (w : GW) : Prop :=
  0 <= d /\ fin <= ms_at h + d /\
  exists es, w_trace w = es ++ h /\ (turns d <= length es + n)%nat /\ (1 <= n)%nat.

(** A turn that read a time before the deadline leaves enough turns. *)
Lemma within_step d fin h n w es1 w' es2 :
  within d fin h (S n) w -> w_trace w' = es2 ++ GNow :: es1 ++ w_trace w ->
  ms_at (GNow :: es1 ++ w_trace w) < fin -> within d fin h n w'.
Proof.
  intros (Hd & Hf & es & E & Hl & _) E' Ht. split; [done|]. split; [done|].
  exists (es2 ++ GNow :: es1 ++ es). rewrite E', E. split; [by rewrite <- !app_assoc, <- app_comm_cons, <- app_assoc|].
  assert (~ (turns d <= length (GNow :: es1 ++ es))%nat) as Hn.
  { intros Hge. pose proof (ms_overdue h (GNow :: es1 ++ es) d Hd Hge) as Hm.
    rewrite E, app_assoc in Ht. change ((GNow :: es1 ++ es) ++ h) with (GNow :: (es1 ++ es) ++ h) in Hm.
    lia. }
  rewrite !length_app in *. cbn [length] in *. rewrite length_app in *. lia.
Qed.

Lemma within_start d fin h w : 0 <= d -> fin <= ms_at h + d -> w_trace w = h -> within d fin h (turns d) w.
Proof.
  intros Hd Hf E. split; [done|]. split; [done|]. exists []. split; [done|].
  split; [cbn; lia|]. unfold turns. pose proof patience_pos. nia.
Qed.

Lemma reap_killed_ends n pid : ends (reap_killed n pid).
Proof.
  induction n as [|n IH]; [apply ends_ret|]. cbn [reap_killed].
  apply ends_bind; [by apply ends_call|]. intros r. destruct (_ || _); [apply ends_ret|].
  apply ends_bind; [by apply ends_log|done].
Qed.

Lemma wait_loop_ran d fin h pid fuel : forall w, within d fin h fuel w -> ran (wait_loop fuel pid fin) w.
Proof.
  induction fuel as [|fuel IH]; intros w Hw; [destruct Hw as (_ & _ & es & _ & _ & H); lia|].
  cbn [wait_loop]. apply ran_bind; [by apply ran_ends, ends_call|].
  destruct (_ =? pid); [apply ran_ret|]. destruct (_ <? 0); [apply ran_ret|].
  apply ran_bind.
  { apply ran_ends, ends_bind; [by apply ends_call|]. intros; apply ends_ret. }
  destruct (Z.leb_spec fin (now_ms (waitpid_nohang pid w).2).1) as [Hle|Hlt].
  { apply ran_ends. apply ends_bind; [by apply ends_call|]. intros _.
    apply ends_bind; [apply reap_killed_ends|intros; apply ends_ret]. }
  apply ran_bind; [by apply ran_ends, ends_log|]. apply IH.
  eapply (within_step _ _ _ _ _ [GWait pid] _ [GSleepMs 5]); [exact Hw|reflexivity|exact Hlt].
Qed.

(** The reading of the clock that starts a deadline. *)
Lemma now_ms_eq w : now_ms w = (ms_at (GNow :: w_trace w), w <| w_trace := GNow :: w_trace w |>).
Proof. reflexivity. Qed.

(** Run the clock reading at the head of a computation. *)
Lemma ran_now {B} (f : Z -> GS B) w :
  ran (f (ms_at (GNow :: w_trace w))) (w <| w_trace := GNow :: w_trace w |>) ->
  ran (io_bind now_ms f) w.
Proof.
  intros H. apply ran_bind; [|by rewrite now_ms_eq].
  apply ran_ends, ends_bind; [by apply ends_call|]. intros; apply ends_ret.
Qed.

Lemma waitpid_deadline_ends pid d : 0 <= d -> ends (waitpid_deadline pid d).
Proof.
  intros Hd w. apply ran_now. eapply wait_loop_ran.
  apply within_start; [done|apply Z.le_refl|reflexivity].
Qed.

Lemma capture_loop_ran d fin h cap fuel : forall out w, within d fin h fuel w ->
  ran (capture_loop fuel cap fin out) w.
Proof.
  induction fuel as [|fuel IH]; intros out w Hw; [destruct Hw as (_ & _ & es & _ & _ & H); lia|].
  cbn [capture_loop]. destruct (_ <? cap); [|apply ran_ret]. apply ran_now.
  destruct (Z.leb_spec fin (ms_at (GNow :: w_trace w))) as [Hle|Hlt]; [apply ran_ret|].
  apply ran_bind; [by apply ran_ends, ends_call|].
  destruct (call _ ge_poll _).1; try apply ran_ret.
  - apply IH. eapply (within_step _ _ _ _ _ [] _ [_]); [exact Hw|reflexivity|exact Hlt].
  - apply ran_bind; [by apply ran_ends, ends_call|].
    destruct (call _ ge_read _).1; try apply ran_ret;
      (apply IH; eapply (within_step _ _ _ _ _ [] _ [_; _]); [exact Hw|reflexivity|exact Hlt]).
Qed.

Lemma fork_ends argv : ends (fork_exec argv).
Proof. by apply ends_call. Qed.

Lemma run_capture_ends argv cap : ends (run_capture argv cap).
Proof.
  intros w. unfold run_capture. apply ran_bind; [by apply ran_ends, ends_call|].
  destruct (negb _); [apply ran_ret|]. apply ran_bind; [apply ran_ends, fork_ends|].
  destruct (fork_exec _ _).1 as [pid|]; [|apply ran_ret]. apply ran_now. apply ran_bind.
  { eapply capture_loop_ran, within_start; [|apply Z.le_refl|reflexivity]. done. }
  apply ran_ends. destruct (capture_loop _ _ _ _ _).1 as [late out]. cbn [fst snd].
  destruct late.
  - apply ends_bind; [by apply ends_call|]. intros _.
    apply ends_bind; [by apply waitpid_deadline_ends|intros; apply ends_ret].
  - apply ends_bind; [by apply waitpid_deadline_ends|intros; apply ends_ret].
Qed.

Lemma iface_bad_ends n : ends (iface_bad n).
Proof.
  unfold iface_bad, iface_is_admin_up, iface_is_monitor.
  apply ends_bind; [destruct (_ >=? 128)|].
  - apply ends_ret.
  - apply ends_bind; [by apply ends_call|intros; apply ends_ret].
  - intros up. destruct (negb _); [apply ends_ret|].
    apply ends_bind; [|intros; apply ends_ret].
    apply ends_bind; [apply run_capture_ends|intros; apply ends_ret].
Qed.

Lemma count_bad_ends names : ends (count_bad names).
Proof.
  induction names as [|n names IH]; [apply ends_ret|]. cbn [count_bad].
  apply ends_bind; [apply iface_bad_ends|]. intros b.
  apply ends_bind; [done|intros; apply ends_ret].
Qed.

Lemma ready_loop_ran d fin h names ms fuel : forall w, within d fin h fuel w ->
  ran (ready_loop fuel names fin ms) w.
Proof.
  induction fuel as [|fuel IH]; intros w Hw; [destruct Hw as (_ & _ & es & _ & _ & H); lia|].
  cbn [ready_loop]. apply ran_bind; [apply ran_ends, count_bad_ends|].
  destruct (_ =? 0); [apply ran_ret|].
  destruct (grows _ w (count_bad_ends names)) as [es E]. apply ran_now. rewrite E.
  destruct (Z.leb_spec fin (ms_at (GNow :: es ++ w_trace w))) as [Hle|Hlt].
  { apply ran_ends, ends_bind; [apply count_bad_ends|intros; apply ends_ret]. }
  apply ran_bind; [by apply ran_ends, ends_log|]. apply IH.
  eapply (within_step _ _ _ _ _ es _ [GSleepMs ms]); [exact Hw| |exact Hlt].
  rewrite <- E. reflexivity.
Qed.

Lemma wait_iface_state_ends c timeout ms : 0 <= timeout -> ends (wait_iface_state c timeout ms).
Proof.
  intros Ht w. apply ran_now. eapply ready_loop_ran, within_start; [done|apply Z.le_refl|reflexivity].
Qed.

(** *** Stopping everything *)

Lemma on_exit_ends st t : ends (tunnel_on_exit st t).
Proof.
  unfold tunnel_on_exit. apply ends_bind; [by apply ends_call|]. intros now.
  destruct (negb _); [apply ends_ret|]. apply ends_bind; [|intros; apply ends_ret].
  apply ends_bind; [by apply ends_call|intros; apply ends_ret].
Qed.

Lemma update_at_ends {A} i (f : A -> GS A) l : (forall x, ends (f x)) -> ends (update_at i f l).
Proof.
  intros Hf. unfold update_at. destruct (l !! i); [|apply ends_ret].
  apply ends_bind; [done|intros; apply ends_ret].
Qed.

Lemma reap_ends ts : ends (supervisor_reap ts).
Proof.
  unfold supervisor_reap. apply ends_bind; [by apply ends_call|]. intros l. revert ts.
  induction l as [|[pid st] l IH]; intros ts; [apply ends_ret|]. cbn [reap_list].
  destruct (pid <=? 0); [apply ends_ret|]. apply ends_bind; [|done].
  unfold reap_one. destruct (list_find _ _) as [[i t]|]; [|apply ends_ret].
  apply update_at_ends, on_exit_ends.
Qed.

Lemma stop_wait_ran d fin h fuel : forall ts w, within d fin h fuel w ->
  ran (stop_wait fuel fin ts) w.
Proof.
  induction fuel as [|fuel IH]; intros ts w Hw; [destruct Hw as (_ & _ & es & _ & _ & H); lia|].
  cbn [stop_wait]. apply ran_now.
  destruct (Z.ltb_spec (ms_at (GNow :: w_trace w)) fin) as [Hlt|Hge]; [|apply ran_ret].
  destruct (existsb _ ts); [|apply ran_ret]. apply ran_bind; [apply ran_ends, reap_ends|].
  set (w1 := w <| w_trace := GNow :: w_trace w |>).
  destruct (grows _ w1 (reap_ends ts)) as [es E].
  apply ran_bind; [by apply ran_ends, ends_log|]. apply IH.
  eapply (within_step _ _ _ _ _ [] _ (GSleepMs 50 :: es)); [exact Hw| |exact Hlt].
  cbn [app]. change (GNow :: w_trace w) with (w_trace w1). rewrite <- E. reflexivity.
Qed.

Lemma map_io_ends {A} (f : A -> GS A) l : (forall x, ends (f x)) -> ends (map_io f l).
Proof.
  intros Hf. induction l as [|x l IH]; [apply ends_ret|]. cbn [map_io].
  apply ends_bind; [done|]. intros y. apply ends_bind; [done|intros; apply ends_ret].
Qed.

Lemma term_ends t : ends (term_tunnel t).
Proof.
  unfold term_tunnel. destruct (0 <? t_pid t); [|apply ends_ret].
  apply ends_bind; [by apply ends_call|]. intros r. destruct r; try apply ends_ret.
  apply ends_bind; [|intros; apply ends_ret].
  apply ends_bind; [by apply ends_call|intros; apply ends_ret].
Qed.

Lemma kill_survivor_ends t : ends (kill_survivor t).
Proof.
  unfold kill_survivor. destruct (0 <? t_pid t); [|apply ends_ret].
  apply ends_bind; [by apply ends_call|]. intros _.
  apply ends_bind; [by apply ends_log|intros; apply ends_ret].
Qed.

Lemma u64_le x : 0 <= x -> u64 x <= x.
Proof. intros. unfold u64, wrap. by apply Z.mod_le. Qed.

Lemma stop_all_ends c : ends (supervisor_stop_all_tunnels c).
Proof.
  intros w. apply ran_bind; [apply ran_ends, map_io_ends, term_ends|]. apply ran_now.
  apply ran_bind; [|apply ran_ends, ends_bind; [apply map_io_ends, kill_survivor_ends|intros; apply ends_ret]].
  eapply stop_wait_ran, within_start; [done| |reflexivity].
  apply u64_le. unfold GS_STOP_GRACE_MS.
  match goal with |- context [ms_at ?h] => pose proof (ms_range h) end. lia.
Qed.

(** *** The rest follows the structure *)

(** Follow a computation; named parts are found among the hypotheses and the lemmas above. *)
Ltac ends_step :=
  lazymatch goal with
  | |- ends (io_ret _) => apply ends_ret
  | |- ends (io_bind _ _) => apply ends_bind; [|intros ?]
  | |- ends (call _ _) => by apply ends_call
  | |- ends (io_log _) => by apply ends_log
  | |- ends (if ?b then _ else _) => destruct b
  | |- ends (match ?x with _ => _ end) => destruct x
  | |- ends (let '(_, _) := ?x in _) => destruct x
  end.

(** Forget what a local definition is. *)
Ltac ends_let :=
  lazymatch goal with
  | |- ends (let x := ?v in @?b x) => change (ends (b v)); generalize v; intros ?; cbv beta
  end.

Ltac ends := repeat first [ ends_let | ends_step | solve [auto] ].

Lemma run_iw_ends i chan ht : ends (run_iw_set_channel i chan ht).
Proof. unfold run_iw_set_channel, fork_exec. ends. by apply waitpid_deadline_ends. Qed.

Lemma system_cmd_ends c : ends (run_system_cmd c).
Proof. unfold run_system_cmd, fork_exec. ends. by apply waitpid_deadline_ends. Qed.

Lemma system_block_ends l : ends (run_system_block l).
Proof. pose proof system_cmd_ends. induction l; cbn [run_system_block]; ends. Qed.

Lemma query_ends st : ends (iface_state_query st).
Proof. pose proof run_capture_ends. unfold iface_state_query, now_us. ends. Qed.

Lemma query_at_ends i c : ends (iface_query_at i c).
Proof. pose proof query_ends. unfold iface_query_at. ends. Qed.

Lemma requery_ends n c : ends (iface_requery n c).
Proof. pose proof query_at_ends. unfold iface_requery. ends. Qed.

Lemma iface_init_ends names : forall c, ends (iface_init_names names c).
Proof.
  pose proof query_at_ends. induction names as [|n names IH]; intros c; cbn [iface_init_names]; ends.
Qed.

Lemma refresh_ends now c : ends (iface_state_refresh_one now c).
Proof.
  pose proof query_at_ends. unfold iface_state_refresh_one. generalize (length (ic_states c)) as n.
  intros n. revert c. induction n as [|n IH]; intros c; cbn [refresh_loop]; ends.
Qed.

Lemma spawn_ends key t : ends (tunnel_spawn key t).
Proof. unfold tunnel_spawn, stats_listener_open, fork_exec, now_us. ends. Qed.

Lemma request_stop_ends t : ends (tunnel_request_stop t).
Proof. unfold tunnel_request_stop, now_ms, now_us, kill. ends. Qed.

Lemma bring_up_ends c ic : ends (supervisor_bring_up c ic).
Proof.
  pose proof system_block_ends. pose proof iface_init_ends.
  pose proof (wait_iface_state_ends c 5000 100 ltac:(done)).
  unfold supervisor_bring_up, iface_state_init. ends.
Qed.

Lemma round_trip_ends port id c cap : ends (wfb_cmd_round_trip port id c cap).
Proof. unfold wfb_cmd_round_trip, open_socket. ends. Qed.

Lemma req_id_ends : ends wfb_cmd_next_req_id.
Proof. intros w. exists []. by split. Qed.

Lemma refresh_radio_ends t : ends (wfb_cmd_refresh_radio t).
Proof.
  pose proof round_trip_ends. pose proof req_id_ends. unfold wfb_cmd_refresh_radio, now_us. ends.
Qed.

Lemma refresh_fec_ends t : ends (wfb_cmd_refresh_fec t).
Proof. pose proof round_trip_ends. pose proof req_id_ends. unfold wfb_cmd_refresh_fec. ends. Qed.

Lemma tick_tunnel_ends key t_ms t_us t : ends (tick_tunnel key t_ms t_us t).
Proof.
  pose proof spawn_ends. pose proof refresh_radio_ends. pose proof refresh_fec_ends.
  unfold tick_tunnel, tick_kill, tick_respawn, tick_query, kill. ends.
Qed.

Lemma forward_ends d s : ends (forward d s).
Proof. unfold forward, send_text. ends. Qed.

Lemma flush_ends now t : ends (probe_window_flush now t).
Proof.
  assert (forall ts win m bs e, ends (flush_buckets ts win t m bs e)) as Hf.
  { intros ts win m bs. pose proof forward_ends. revert m.
    induction bs as [|b bs IH]; intros m e; cbn [flush_buckets]; ends. }
  unfold probe_window_flush, realtime_ms. ends.
Qed.

Lemma drain_rx_ends buf t sc : ends (drain_rx_ant buf t sc).
Proof.
  assert (forall t u sc, ends (scan_note t u sc)) by (intros; unfold scan_note, now_us; ends).
  assert (forall u l m r n t, ends (probe_accumulate u l m r n t)).
  { pose proof flush_ends. intros. unfold probe_accumulate. ends. }
  unfold drain_rx_ant, now_us. ends.
Qed.

Lemma drain_one_ends got t sc : ends (drain_one got t sc).
Proof.
  pose proof forward_ends. pose proof drain_rx_ends.
  assert (forall b t, ends (drain_tx_stats b t)) by (intros; unfold drain_tx_stats, now_us; ends).
  unfold drain_one, now_us. ends.
Qed.

Lemma stats_drain_ends t sc : ends (stats_drain t sc).
Proof.
  assert (forall l t sc, ends (drain_list l t sc)) as Hl.
  { pose proof drain_one_ends. induction l as [|x l IH]; intros; cbn [drain_list]; ends. }
  unfold stats_drain, drain_fd. ends.
Qed.

Lemma burst_ends n d f s e : ends (send_burst n d f s e).
Proof. revert s e. induction n as [|n IH]; intros; cbn [send_burst]; unfold send_bytes; ends. Qed.

Lemma wcmd_emit_ends c k v e : ends (wcmd_emit c k v e).
Proof. pose proof burst_ends. unfold wcmd_emit, open_socket. ends. Qed.

Lemma recovery_emit_ends c e : ends (recovery_emit c e).
Proof. pose proof burst_ends. unfold recovery_emit, open_socket. ends. Qed.

Lemma logsync_ends c e : ends (logsync_emit c e).
Proof. pose proof burst_ends. unfold logsync_emit, open_socket, realtime_ms. ends. Qed.

Lemma csa_tick_ends t_us g : ends (csa_tick t_us g).
Proof.
  assert (forall l ch ht ic, ends (hop_all l ch ht ic)) as Hh.
  { pose proof run_iw_ends. pose proof requery_ends.
    induction l as [|x l IH]; intros; cbn [hop_all]; ends. }
  unfold csa_tick, csa_burst, csa_switch, csa_verify, csa_send_commit_frame, now_us, open_socket,
    send_text. ends.
Qed.

Lemma scan_apply_ends c i s : ends (scan_apply_step_drained c i s).
Proof.
  assert (forall l ch ht, ends (hop_quiet l ch ht)) as Hh.
  { pose proof run_iw_ends. induction l as [|x l IH]; intros; cbn [hop_quiet]; ends. }
  assert (forall d l, ends (forward_all d l)) as Hf.
  { pose proof forward_ends. induction l as [|x l IH]; cbn [forward_all]; ends. }
  unfold scan_apply_step_drained, scan_drain, drain_fd, now_us. ends.
Qed.

Lemma scan_tick_ends t_us g : ends (scan_tick t_us g).
Proof.
  assert (forall l ic, ends (requery_all l ic)) as Hr.
  { pose proof requery_ends. induction l as [|x l IH]; intros; cbn [requery_all]; ends. }
  pose proof scan_apply_ends. unfold scan_tick. ends.
Qed.

Lemma supervisor_tick_ends g : ends (supervisor_tick g).
Proof.
  pose proof refresh_ends. pose proof csa_tick_ends. pose proof scan_tick_ends.
  pose proof logsync_ends.
  assert (forall key a b ts, ends (map_io (tick_tunnel key a b) ts))
    by (intros; apply map_io_ends, tick_tunnel_ends).
  unfold supervisor_tick, logsync_tick, now_ms, now_us. ends.
Qed.

Lemma bring_up_and_spawn_ends c g : ends (bring_up_and_spawn c g).
Proof.
  pose proof spawn_ends. pose proof bring_up_ends.
  assert (forall key ts, ends (spawn_autostart key ts)) as Hs.
  { intros key ts. induction ts as [|t ts IH]; cbn [spawn_autostart]; ends. }
  unfold bring_up_and_spawn. ends.
Qed.

Lemma emit_tunnel_ends cap t full : ends (json_emit_tunnel cap t full).
Proof. unfold json_emit_tunnel, uptime_us, age_ms, now_us. ends. Qed.

Lemma emit_tunnels_ends full ts : forall room first, ends (emit_tunnels room first full ts).
Proof.
  pose proof emit_tunnel_ends. induction ts as [|t ts IH]; intros; cbn [emit_tunnels]; ends.
Qed.

Lemma route_cmd_ends qs g : ends (route_cmd qs g).
Proof.
  pose proof wcmd_emit_ends. unfold route_cmd, rate_limited, now_ms, now_us. ends.
Qed.

Lemma control_ends qs t : ends (tunnel_control qs t).
Proof.
  pose proof round_trip_ends. pose proof req_id_ends. pose proof refresh_radio_ends.
  assert (ends (control_set_fec qs t)) by (unfold control_set_fec; ends).
  assert (ends (control_set_radio qs t)) by (unfold control_set_radio, now_us; ends).
  assert (ends (control_get_fec t)) by (unfold control_get_fec; ends).
  assert (ends (control_get_radio t)) by (unfold control_get_radio, now_us; ends).
  unfold tunnel_control. ends.
Qed.

Lemma tunnel_action_ends key a qs t : ends (tunnel_action key a qs t).
Proof.
  pose proof spawn_ends. pose proof request_stop_ends. pose proof control_ends.
  pose proof emit_tunnel_ends.
  unfold tunnel_action, tunnel_start, tunnel_stop, tunnel_restart, show_tunnel, now_ms, now_us. ends.
Qed.

Lemma route_scan_ends qs g : ends (route_scan qs g).
Proof. pose proof scan_apply_ends. unfold route_scan. ends. Qed.

Lemma route_txpower_ends qs g : ends (route_txpower qs g).
Proof.
  pose proof requery_ends.
  assert (forall pid, ends (waitpid_deadline pid GS_FORK_DEADLINE_MS))
    by (intros; by apply waitpid_deadline_ends).
  unfold route_txpower, fork_exec. ends.
Qed.

Lemma api_route_ends tele up path qs g : ends (api_route tele up path qs g).
Proof.
  pose proof stop_all_ends. pose proof system_block_ends. pose proof bring_up_and_spawn_ends.
  pose proof wcmd_emit_ends. pose proof recovery_emit_ends. pose proof emit_tunnels_ends.
  pose proof route_cmd_ends. pose proof route_scan_ends. pose proof route_txpower_ends.
  pose proof tunnel_action_ends.
  assert (ends (tele_answer tele path qs)) by (by apply performs_silent).
  assert (forall qs g, ends (route_csa qs g)) by (intros; unfold route_csa, now_us; ends).
  assert (forall r qs g, ends (route_tunnel r qs g)) by (intros; unfold route_tunnel; ends).
  assert (forall g, ends (route_reinit g)) by (intros; unfold route_reinit; ends).
  assert (forall g, ends (route_system_down g))
    by (intros; unfold route_system_down, supervisor_take_down; ends).
  unfold api_route, route_system_up, route_logctl, route_recovery, route_scan_cancel,
    show_status, show_tunnels, show_scan, show_csa, json_emit_status, now_us. ends.
Qed.

Lemma on_all_ends tele rs : forall m, ends (on_all tele rs m).
Proof.
  pose proof api_route_ends. pose proof stats_drain_ends.
  assert (forall r m, ends (on_ready tele r m)).
  { intros. unfold on_ready, on_client, on_stats, api_handle, reply. ends. }
  induction rs as [|r rs IH]; intros m; cbn [on_all]; ends.
Qed.

(** (C6) The supervisor never hangs in a wait: if time passes, [main]'s start-up, every turn
    of the loop with any input, and the shutdown come to an end, whatever the children,
    drivers and peers answer. *)
Theorem supervisor_never_stuck tele :
  (forall content overlay port ok, ends (main_start content overlay port ok)) /\
  (forall p sigchld m, ends (loop_turn tele p sigchld m)) /\
  (forall m, ends (main_end m)).
Proof.
  pose proof bring_up_ends. pose proof spawn_ends. pose proof stop_all_ends.
  pose proof system_block_ends. split; [|split].
  - intros. unfold main_start, now_us. ends. apply map_io_ends. intros t. ends.
  - pose proof reap_ends. pose proof supervisor_tick_ends. pose proof (on_all_ends tele).
    intros. unfold loop_turn, accept_client, poll_timeout, now_us. ends.
  - intros. unfold main_end. ends.
Qed.
End Time.

(** ** An environment in which time passes *)

(** Every call takes a quarter of a millisecond, every child exits at once, and all adapters
    are up. *)
Definition calm : GsEnv := {|
  ge_clock_us h := 250 * Z.of_nat (length h); ge_realtime_ms h := 1700000000000;
  ge_pipe h := true; ge_fork h := Some (100 + Z.of_nat (length h)); ge_reap h := [];
  ge_wait h := match h with GWait pid :: _ => (pid, WExited 0) | _ => (0, WOther) end;
  ge_kill h := KillOk; ge_poll h := PollReady;
  ge_read h := match h with GRead 1023 :: _ => ReadData "type monitor" | _ => ReadEof end;
  ge_file h := Some "0x1003"%string; ge_open_stats h := Some (5, 40001);
  ge_socket h := None; ge_send h := None; ge_drain h := []; ge_ctl_sent h := true;
  ge_ctl_reply h := None; ge_patience := 4 |}.

Lemma calm_time : @time_passes calm.
Proof.
  constructor; cbn [ge_clock_us ge_patience calm].
  - intros h. lia.
  - intros h es. rewrite length_app. lia.
  - intros h es. rewrite length_app. lia.
Qed.

Lemma supervisor_never_stuck_witness :
  exists es, w_trace (main_end (EV := calm) (Build_Main (gs_start config_zero) [] 0)
                        (Build_World 0 [])).2 = es ++ [] /\ Forall (fun e => e <> GStuck) es.
Proof.
  exact (proj2 (proj2 (supervisor_never_stuck (EV := calm) (ABI := abi_lp64) calm_time (fun _ _ _ => None)))
           (Build_Main (gs_start config_zero) [] 0) (Build_World 0 [])).
Defined.
