(* ===== verification/GsInv.v ===== *)
(** * What the ground supervisor keeps, and what it runs

    The invariant of the whole supervisor over every turn of its loop, and the processes it
    may start.  Both are proved together, as [ensures confined gs_inv], following the
    structure of the computations. *)

From S2P Require Import Prelude CString WfbJson Io Net GsText GsNet GsConfig GsProc.
From S2P Require Import GsState GsStats GsEmit GsRadio GsTunnel GsJson GsApi GsLoop GsLoad GsTime.

Local Open Scope list_scope.

(** ** Rules for one step more *)

Lemma ensures_ext {E A} (P : E -> Prop) (Q Q' : A -> Prop) (m : GIO E A) :
  ensures P Q m -> (forall x, Q x -> Q' x) -> ensures P Q' m.
Proof. intros H HQ. by eapply ensures_weaken. Qed.

Lemma ensures_map_io {A C} (P : GEvent -> Prop) (R Q : C -> A -> Prop) (f : A -> GS A) cs l :
  Forall2 R cs l -> (forall c x, R c x -> ensures P (Q c) (f x)) ->
  ensures P (Forall2 Q cs) (map_io f l).
Proof.
  intros Hl Hf. induction Hl as [|c x cs l Hx Hl IH]; [apply ensures_ret; constructor|].
  cbn [map_io]. eapply ensures_bind; [by apply Hf|]. intros y Hy.
  eapply ensures_bind; [exact IH|]. intros l' Hl'. apply ensures_ret. by constructor.
Qed.

Lemma ensures_update_at {A C} (P : GEvent -> Prop) (Q : C -> A -> Prop) (f : A -> GS A) cs l i :
  Forall2 Q cs l -> (forall c x, Q c x -> ensures P (Q c) (f x)) ->
  ensures P (Forall2 Q cs) (update_at i f l).
Proof.
  intros Hl Hf. unfold update_at. destruct (l !! i) as [x|] eqn:E; [|by apply ensures_ret].
  destruct (Forall2_lookup_r _ _ _ _ _ Hl E) as (c & Ec & Hx).
  eapply ensures_bind; [by apply Hf|]. intros y Hy. apply ensures_ret.
  rewrite <- (list_insert_id cs i c Ec). by apply Forall2_insert.
Qed.

(** ** Events *)

(** Nothing is executed. *)
Definition forkless (e : GEvent) : Prop := match e with GFork _ => False | _ => True end.
Abbreviation free := (performs forkless).

Section Calls.
Context {EV : GsEnv}.

Lemma perf_call {A} (P : GEvent -> Prop) e (f : list GEvent -> A) : P e -> performs P (call e f).
Proof. intros He w. exists [e]. split; [done|]. by repeat constructor. Qed.

Lemma perf_bind {A B} (P : GEvent -> Prop) (m : GS A) (f : A -> GS B) :
  performs P m -> (forall x, performs P (f x)) -> performs P (io_bind m f).
Proof. apply performs_bind. Qed.

End Calls.

(** Follow a computation whose result does not matter. *)
Ltac perf_let :=
  lazymatch goal with
  | |- performs ?P (let x := ?v in @?b x) =>
      change (performs P (b v)); generalize v; intros ?; cbv beta
  end.

Ltac perf_step :=
  lazymatch goal with
  | |- performs _ (io_ret _) => apply performs_ret
  | |- performs _ (io_bind _ _) => apply perf_bind; [|intros ?]
  | |- performs _ (call _ _) => apply perf_call; cbn; auto
  | |- performs _ (io_log _) => apply performs_log; cbn; auto
  | |- performs _ (if ?b then _ else _) => destruct b eqn:?
  | |- performs _ (match ?x with _ => _ end) => destruct x eqn:?
  | |- performs _ (let '(_, _) := ?x in _) => destruct x eqn:?
  end.

Ltac perf_calls :=
  progress unfold now_ms, now_us, realtime_ms, fork_exec, kill, waitpid_nohang, waitpid_blocking,
    sleep_ms, open_socket, send_bytes, send_text, drain_fd, read_file, reply.

Ltac perf := repeat first [ perf_let | perf_step | perf_calls | solve [eauto] ].

(** The call of a part whose result is only read. *)
Ltac ens_read := eapply ensures_read; [solve [perf]|intros ?].

Section Inv.
Context {EV : GsEnv} {ABI : CAbi}.

(** The configuration the supervisor was started with. *)
Variable c0 : GConfig.

(** ** The processes *)

Definition the_ifaces : list string := all_ifaces c0.

Definition hop_ok (chan : Z) (ht : string) : Prop := 1 <= chan <= 200 /\ is_ht ht = true.

(** What may be executed: the declared vector of a configured tunnel, the tokens of a
    configured system command, and [iw] on a configured adapter.  The channel a switch goes
    back to is the operator's word. *)
Inductive allowed_argv : list string -> Prop :=
| allow_tunnel t argv :
    t_cfg t ∈ map t_cfg (gc_tunnels c0) -> build_argv t (gc_key_file c0) = Some argv ->
    allowed_argv argv
| allow_system cmd argv :
    cmd ∈ gc_system_up c0 ++ gc_system_down c0 ->
    tokenize_argv (take_chars 255 cmd) GS_SYSTEM_CMD_MAX_ARGV = inl argv -> allowed_argv argv
| allow_info i : i ∈ the_ifaces -> allowed_argv (iw_info_argv i)
| allow_channel i chan ht : i ∈ the_ifaces -> strlen ht < 8 -> allowed_argv (iw_channel_argv i chan ht)
| allow_power i mbm : i ∈ the_ifaces -> 50 <= mbm <= 3000 -> allowed_argv (iw_txpower_argv i mbm).

Definition confined (e : GEvent) : Prop :=
  match e with GFork argv => allowed_argv argv | _ => True end.

(** ** The invariant *)

Definition acc_ok (a : ProbeAcc) : Prop := length (probe_bucket a) = 16%nat.
Definition win_ok (s : RxStats) : Prop :=
  length (st_mcs_win s) = 10%nat /\ Forall (fun row => length row = 16%nat) (st_mcs_win s) /\
  length (st_mcs_win_sec s) = 10%nat.

(** A tunnel of configuration [cfg]: a live process is a running one, a tunnel waiting to be
    restarted has none and means to restart, the backoff index is an index. *)
Record tunnel_inv (cfg : TunnelCfg) (t : Tunnel) : Prop := {
  ti_cfg : t_cfg t = cfg;
  ti_live : 0 < t_pid t -> t_state t = TS_RUNNING;
  ti_backoff : t_state t = TS_BACKOFF -> t_autostart_on_exit t = true /\ t_pid t <= 0;
  ti_started : t_state t <> TS_STARTING;
  ti_idx : 0 <= t_backoff_idx t < GS_BACKOFF_LEN;
  ti_acc : acc_ok (t_probe_acc t);
  ti_win : win_ok (t_rx_stats t)
}.

Record cache_ok (ic : IfaceCache) : Prop := {
  co_known : Forall (fun s => if_name s ∈ the_ifaces) (ic_states ic);
  co_count : Z.of_nat (length (ic_states ic)) <= GS_MAX_GLOBAL_IFACES;
  co_distinct : NoDup (map if_name (ic_states ic))
}.

(** What the reports of a switch and of a scan show has the size of its fields. *)
Definition names_short (l : list string) : Prop :=
  (length l <= 4)%nat /\ Forall (fun i => strlen i < IFNAMSIZ) l.

Definition csa_shape (s : CsaState) : Prop :=
  names_short (cs_ifaces s) /\ 0 <= cs_sess s < 2 ^ 32 /\ cs_frames_total s <= 5 /\
  INT_MIN <= cs_target_chan s <= INT_MAX /\ strlen (cs_target_ht s) < 8 /\
  INT_MIN <= cs_prev_chan s <= INT_MAX.

Definition scan_shape (s : ScanState) : Prop :=
  names_short (sc_ifaces s) /\ 0 <= sc_sess s <= 1 /\ -1 <= sc_found_chan s <= 200 /\
  strlen (sc_found_ht s) < 8 /\ 0 <= sc_hops_done s <= 32 /\ 0 <= sc_cur_step s <= 32 /\
  (sc_phase s = SCAN_RUNNING -> sc_hops_done s <= sc_cur_step s).

(** An armed switch has checked targets and counts its frames. *)
Record csa_ok (s : CsaState) : Prop := {
  cso_ifaces : Forall (fun i => i ∈ the_ifaces) (cs_ifaces s);
  cso_target : cs_phase s <> CSA_IDLE -> hop_ok (cs_target_chan s) (cs_target_ht s);
  cso_prev : strlen (cs_prev_ht s) < 8;
  cso_frames : 0 <= cs_frames_sent s <= cs_frames_total s;
  cso_burst : cs_phase s = CSA_BURST -> cs_frames_sent s < cs_frames_total s;
  cso_shape : csa_shape s
}.

Record scan_ok (s : ScanState) : Prop := {
  sco_ifaces : Forall (fun i => i ∈ the_ifaces) (sc_ifaces s);
  sco_steps : Forall (fun st => hop_ok st.1 st.2) (sc_steps s);
  sco_count : (length (sc_steps s) <= SCAN_MAX_STEPS)%nat;
  sco_cur : sc_phase s = SCAN_RUNNING -> 0 <= sc_cur_step s < Z.of_nat (length (sc_steps s));
  sco_shape : scan_shape s
}.

Definition same_config (c : GConfig) : Prop :=
  gc_key_file c = gc_key_file c0 /\ gc_system_up c = gc_system_up c0 /\
  gc_system_down c = gc_system_down c0.

(** The two owners of the radio exclude each other. *)
Definition radio_exclusive (g : Gs) : Prop :=
  cs_phase (gs_csa g) = CSA_IDLE \/ sc_phase (gs_scan g) <> SCAN_RUNNING.

Record gs_inv (g : Gs) : Prop := {
  gi_config : same_config (gs_cfg g);
  gi_tunnels : Forall2 tunnel_inv (map t_cfg (gc_tunnels c0)) (gs_tunnels g);
  gi_cache : cache_ok (gs_ifaces g);
  gi_csa : csa_ok (gs_csa g);
  gi_scan : scan_ok (gs_scan g);
  gi_exclusive : radio_exclusive g;
  gi_last : length (em_last_send_ms (gs_emit g)) = 17%nat
}.

Definition client_ok (c : option ApiClient) : Prop :=
  match c with Some cl => strlen (cl_buf cl) < API_BUF_BYTES | None => True end.

Record main_inv (m : Main) : Prop := {
  mi_gs : gs_inv (mn_gs m);
  mi_slots : length (mn_clients m) = API_MAX_CLIENTS;
  mi_clients : Forall client_ok (mn_clients m)
}.

(** ** Computations that only execute what is allowed *)

Abbreviation calls := (performs confined).

Lemma free_calls {A} (m : GS A) : free m -> calls m.
Proof. intros H. eapply performs_weaken; [exact H|]. by intros []. Qed.

Lemma wait_free pid d : free (waitpid_deadline pid d).
Proof.
  assert (forall n, free (reap_killed n pid)) as Hk.
  { induction n; cbn [reap_killed]; unfold waitpid_nohang, sleep_ms; perf. }
  assert (forall fuel fin, free (wait_loop fuel pid fin)) as Hw.
  { induction fuel; intros; cbn [wait_loop]; unfold waitpid_nohang, sleep_ms, kill, now_ms, now_us; perf. }
  unfold waitpid_deadline, now_ms, now_us. perf.
Qed.

Lemma iw_channel_calls i chan ht : i ∈ the_ifaces -> strlen ht < 8 ->
  calls (run_iw_set_channel i chan ht).
Proof.
  intros Hi Hh. pose proof (fun pid d => free_calls _ (wait_free pid d)).
  pose proof (allow_channel i chan ht Hi Hh).
  unfold run_iw_set_channel, fork_exec. perf.
Qed.

Lemma system_block_calls l : Forall (fun c => c ∈ gc_system_up c0 ++ gc_system_down c0) l ->
  calls (run_system_block l).
Proof.
  pose proof (fun pid d => free_calls _ (wait_free pid d)).
  induction 1 as [|c l Hc _ IH]; cbn [run_system_block]; unfold run_system_cmd, fork_exec; perf.
  eapply allow_system; [exact Hc|]. match goal with H : tokenize_argv _ _ = _ |- _ => exact H end.
Qed.

Lemma capture_calls argv cap : allowed_argv argv -> calls (run_capture argv cap).
Proof.
  intros Ha. pose proof (fun pid d => free_calls _ (wait_free pid d)).
  assert (forall fuel cap fin out, calls (capture_loop fuel cap fin out)) as Hc.
  { induction fuel; intros; cbn [capture_loop]; unfold now_ms, now_us; perf. }
  unfold run_capture, fork_exec, now_ms, now_us, kill. perf.
Qed.

Lemma iface_bad_calls i : i ∈ the_ifaces -> calls (iface_bad i).
Proof.
  intros Hi. pose proof (capture_calls (iw_info_argv i) 1024 (allow_info i Hi)).
  unfold iface_bad, iface_is_admin_up, iface_is_monitor, read_file. perf.
Qed.

Lemma wait_ready_calls c timeout ms : all_ifaces c = the_ifaces -> calls (wait_iface_state c timeout ms).
Proof.
  intros E. assert (forall names, Forall (fun i => i ∈ the_ifaces) names -> calls (count_bad names)) as Hc.
  { induction 1 as [|i names Hi _ IH]; cbn [count_bad]; pose proof iface_bad_calls; perf. }
  assert (calls (count_bad the_ifaces)) as Hb by (apply Hc, Forall_forall; auto).
  assert (forall fuel fin, calls (ready_loop fuel the_ifaces fin ms)) as Hr.
  { induction fuel; intros; cbn [ready_loop]; unfold now_ms, now_us, sleep_ms; perf. }
  unfold wait_iface_state, now_ms, now_us. rewrite E. perf.
Qed.

Lemma query_calls st : if_name st ∈ the_ifaces -> calls (iface_state_query st).
Proof.
  intros Hn. pose proof (capture_calls (iw_info_argv (if_name st)) 1024 (allow_info _ Hn)).
  unfold iface_state_query, now_us. perf.
Qed.

(** ** The adapter cache *)

Hypothesis Hwf : gconfig_ok c0.

Lemma the_ifaces_fit i : i ∈ the_ifaces -> strlen i < 16.
Proof.
  unfold the_ifaces, all_ifaces. rewrite list_elem_of_In, in_concat.
  intros (l & Hl & Hi). apply in_map_iff in Hl as (t & <- & Ht).
  pose proof (ok_tunnels _ Hwf) as Hts. rewrite Forall_forall in Hts.
  apply list_elem_of_In in Ht, Hi. pose proof (ok_ifaces _ (ok_cfg _ (Hts t Ht))) as Hf.
  rewrite Forall_forall in Hf. by apply Hf.
Qed.

Lemma is_ht_short ht : is_ht ht = true -> strlen ht < 8.
Proof.
  unfold is_ht. intros H. apply orb_true_iff in H as [H|H]; [apply orb_true_iff in H as [H|H]|];
    apply String.eqb_eq in H as ->; vm_compute; reflexivity.
Qed.

Lemma ensures_calls {A} (m : GS A) : calls m -> ensures confined (fun _ => True) m.
Proof. by split. Qed.

(** A computation that keeps what its result depends on. *)
Lemma ensures_by {A} (Q : A -> Prop) (m : GS A) : calls m -> (forall w, Q (m w).1) ->
  ensures confined Q m.
Proof. by split. Qed.

Lemma query_name st w : if_name (iface_state_query st w).1 = if_name st.
Proof.
  unfold iface_state_query, io_bind. destruct (now_us w) as [t w1]. cbn zeta.
  set (st1 := st <| if_last_query_us := t |> <| if_chan := -1 |> <| if_freq_mhz := -1 |>
    <| if_ht := EmptyString |> <| if_txpower_mbm := -1 |>).
  destruct (run_capture _ _ w1) as [[rc out] w2]. cbn [fst snd].
  assert (forall s line, if_name (iface_state_absorb_line s line) = if_name s) as Hl.
  { intros s line. unfold iface_state_absorb_line, absorb_channel.
    repeat (case_match; try done); cbn; done. }
  assert (forall fuel s p, if_name (absorb_lines fuel s p) = if_name s) as Hls.
  { induction fuel as [|fuel IH]; intros s p; [done|]. cbn [absorb_lines].
    destruct p; [done|]. destruct (span_until _ _) as [line rest].
    destruct rest; [apply Hl|]. rewrite IH. apply Hl. }
  unfold io_ret. cbn [fst]. destruct (negb _); [done|]. by rewrite Hls.
Qed.

Lemma query_at_ok i ic : cache_ok ic -> ensures confined cache_ok (iface_query_at i ic).
Proof.
  intros [Hk Hc Hd]. unfold iface_query_at. destruct (ic_states ic !! i) as [st|] eqn:E.
  2:{ by apply ensures_ret. }
  assert (if_name st ∈ the_ifaces) as Hn.
  { rewrite Forall_forall in Hk. apply Hk. by apply list_elem_of_lookup_2 in E. }
  eapply (ensures_bind _ (fun st' => if_name st' = if_name st)).
  { split; [by apply query_calls|]. apply query_name. }
  intros st' En. apply ensures_ret. constructor; cbn.
  - apply Forall_insert; [done|]. by rewrite En.
  - by rewrite length_insert.
  - rewrite list_fmap_insert. rewrite list_insert_id; [done|].
    rewrite list_lookup_fmap, E, En. done.
Qed.

Lemma requery_ok n ic : cache_ok ic -> ensures confined cache_ok (iface_requery n ic).
Proof.
  intros H. unfold iface_requery. destruct (iface_state_find _ _); [by apply query_at_ok|].
  by apply ensures_ret.
Qed.

Lemma intern_ok n ic : n ∈ the_ifaces -> cache_ok ic ->
  cache_ok (ic <| ic_states := (iface_state_intern n (ic_states ic)).2 |>).
Proof.
  intros Hn [Hk Hc Hd]. unfold iface_state_intern.
  destruct (iface_state_find n (ic_states ic)) as [i|] eqn:E; [by constructor|].
  destruct (_ >=? _) eqn:Ec; [by constructor|]. cbn [snd].
  rewrite take_chars_all by (pose proof (the_ifaces_fit n Hn); rewrite strlen_length in *; lia).
  constructor; cbn.
  - apply Forall_app. split; [done|]. by constructor.
  - rewrite length_app. cbn. lia.
  - rewrite map_app. cbn. apply NoDup_app. split; [done|]. split; [|apply NoDup_singleton].
    intros x Hx ->%list_elem_of_singleton. apply list_elem_of_fmap in Hx as (s & Es & Hs).
    unfold iface_state_find in E. apply fmap_None, list_find_None in E.
    rewrite Forall_forall in E. by apply (E s Hs).
Qed.

Lemma init_ok names : forall ic, Forall (fun i => i ∈ the_ifaces) names -> cache_ok ic ->
  ensures confined cache_ok (iface_init_names names ic).
Proof.
  induction names as [|n names IH]; intros ic Hn Hc; cbn [iface_init_names]; [by apply ensures_ret|].
  inversion_clear Hn as [|? ? Hi Hn']. pose proof (intern_ok n ic Hi Hc) as H1.
  destruct (iface_state_intern n (ic_states ic)) as [i l]. cbn [snd] in H1.
  eapply ensures_bind; [|intros ic' H'; by apply IH].
  destruct i; [by apply query_at_ok|by apply ensures_ret].
Qed.

Lemma refresh_ok now ic : cache_ok ic -> ensures confined cache_ok (iface_state_refresh_one now ic).
Proof.
  unfold iface_state_refresh_one. generalize (length (ic_states ic)) as n. intros n.
  revert ic. induction n as [|n IH]; intros ic H; cbn [refresh_loop]; [by apply ensures_ret|].
  cbn zeta. set (ic1 := ic <| ic_rr := _ |>). assert (cache_ok ic1) as H1 by (by destruct H).
  destruct (ic_states ic1 !! _); [|by apply ensures_ret].
  destruct (_ <=? _); [by apply query_at_ok|by apply IH].
Qed.

(** ** Tunnels *)

Ltac solve_tunnel := intros []; constructor; cbn in *; auto; try congruence; try lia.

Lemma inv_tx cfg f t : tunnel_inv cfg t -> tunnel_inv cfg (on_tx f t).
Proof. solve_tunnel. Qed.

Lemma inv_query cfg n t : tunnel_inv cfg t -> tunnel_inv cfg (t <| t_tx_init_query_after_us := n |>).
Proof. solve_tunnel. Qed.

Lemma inv_deadline cfg n t : tunnel_inv cfg t -> tunnel_inv cfg (t <| t_stop_deadline_ms := n |>).
Proof. solve_tunnel. Qed.

Lemma win_zero : win_ok rx_stats_zero.
Proof. split; [done|]. split; [|done]. by repeat constructor. Qed.

Lemma listener_ok cfg t : tunnel_inv cfg t ->
  ensures confined (fun t' => tunnel_inv cfg t' /\ t_pid t' = t_pid t /\ t_state t' = t_state t)
    (stats_listener_open t).
Proof.
  intros H. unfold stats_listener_open. destruct (0 <=? _); [by apply ensures_ret|].
  ens_read. destruct x as [[fd port]|]; apply ensures_ret; [|done].
  split; [|done]. revert H. solve_tunnel.
Qed.

Lemma spawn_ok cfg t : cfg ∈ map t_cfg (gc_tunnels c0) -> tunnel_inv cfg t -> t_pid t <= 0 ->
  ensures confined (fun r => tunnel_inv cfg r.2) (tunnel_spawn (gc_key_file c0) t).
Proof.
  intros Hc Ht Hp. unfold tunnel_spawn. eapply ensures_bind; [by apply listener_ok|].
  intros t1 (H1 & Hp1 & _).
  assert (tunnel_inv cfg (t1 <| t_state := TS_FAILED |>)) as Hf.
  { revert H1. intros []. constructor; cbn; auto; try done. intros; lia. }
  destruct (build_argv t1 (gc_key_file c0)) as [argv|] eqn:Eb; [|by apply ensures_ret].
  eapply ensures_read.
  { apply perf_call. apply (allow_tunnel t1 argv); [by rewrite (ti_cfg _ _ H1)|done]. }
  intros [pid|]; [|by apply ensures_ret]. ens_read. apply ensures_ret. cbn [snd].
  destruct H1 as [Hcf _ _ _ Hi Ha Hw]. unfold tunnel_started, reset_counters.
  pose proof win_zero.
  repeat case_match; constructor; cbn; auto; done.
Qed.

Lemma request_stop_ok cfg t : tunnel_inv cfg t ->
  ensures confined (fun t' => tunnel_inv cfg t' /\ t_pid t' = t_pid t /\ t_state t' <> TS_BACKOFF)
    (tunnel_request_stop t).
Proof.
  intros H. unfold tunnel_request_stop, now_ms, now_us, kill. destruct (Z.leb_spec (t_pid t) 0) as [Hp|Hp].
  - apply ensures_ret. split; [|done]. revert H. intros []. constructor; cbn; auto; try done. intros; lia.
  - eapply ensures_read; [perf|]. intros now. ens_read. apply ensures_ret.
    pose proof (ti_live _ _ H Hp) as Hr. split; [|split; [done|cbn; by rewrite Hr]].
    revert H. intros []. constructor; cbn; auto. rewrite Hr. done.
Qed.

Lemma on_exit_ok cfg st t : tunnel_inv cfg t -> ensures confined (tunnel_inv cfg) (tunnel_on_exit st t).
Proof.
  intros H. unfold tunnel_on_exit, now_ms, now_us. ens_read. cbn [t_autostart_on_exit].
  destruct (negb _) eqn:E.
  - apply ensures_ret. revert H. intros []. constructor; cbn; auto; done.
  - eapply ensures_read; [perf|]. intros now. apply ensures_ret. cbn in E. apply negb_false_iff in E.
    revert H. intros [H1 H2 H3 H4 H5 H6 H7]. unfold GS_BACKOFF_LEN in *.
    repeat case_bool; constructor; cbn in *; unfold GS_BACKOFF_LEN; auto; try done; lia.
Qed.

Lemma reap_ok cfgs ts : Forall2 tunnel_inv cfgs ts ->
  ensures confined (Forall2 tunnel_inv cfgs) (supervisor_reap ts).
Proof.
  intros H. unfold supervisor_reap. ens_read. revert ts H.
  induction x as [|[pid st] l IH]; intros ts H; cbn [reap_list]; [by apply ensures_ret|].
  destruct (pid <=? 0); [by apply ensures_ret|]. eapply ensures_bind; [|intros ts' H'; by apply IH].
  unfold reap_one. destruct (list_find _ _) as [[i t]|]; [|by apply ensures_ret].
  apply ensures_update_at; [done|]. intros c x. apply on_exit_ok.
Qed.

Lemma term_ok cfg t : tunnel_inv cfg t -> ensures confined (tunnel_inv cfg) (term_tunnel t).
Proof.
  intros H. unfold term_tunnel, kill, now_ms, now_us. destruct (Z.ltb_spec 0 (t_pid t)) as [Hp|Hp]; [|by apply ensures_ret].
  assert (tunnel_inv cfg (t <| t_autostart_on_exit := false |>)) as H1.
  { pose proof (ti_live _ _ H Hp). revert H. intros []. constructor; cbn; auto. congruence. }
  ens_read. destruct x; try by apply ensures_ret.
  eapply ensures_read; [perf|]. intros now. apply ensures_ret. by apply inv_deadline.
Qed.

Lemma survivor_ok cfg t : tunnel_inv cfg t -> ensures confined (tunnel_inv cfg) (kill_survivor t).
Proof.
  intros H. unfold kill_survivor, kill, waitpid_blocking. destruct (0 <? t_pid t) eqn:Hp; [|by apply ensures_ret].
  ens_read. ens_read. apply ensures_ret. revert H. intros []. constructor; cbn; auto; try done.
  intros Hb. split; [|lia]. by apply ti_backoff0.
Qed.

Lemma stop_wait_ok cfgs fin fuel : forall ts, Forall2 tunnel_inv cfgs ts ->
  ensures confined (Forall2 tunnel_inv cfgs) (stop_wait fuel fin ts).
Proof.
  induction fuel as [|fuel IH]; intros ts H; cbn [stop_wait]; unfold now_ms, now_us, sleep_ms.
  { ens_read. by apply ensures_ret. }
  eapply ensures_read; [perf|]. intros t. destruct (_ <? _); [|by apply ensures_ret].
  destruct (existsb _ _); [|by apply ensures_ret]. eapply ensures_bind; [by apply reap_ok|].
  intros ts' H'. ens_read. by apply IH.
Qed.

Definition cfgs : list TunnelCfg := map t_cfg (gc_tunnels c0).

(** The configuration with its tunnels. *)
Definition conf_ok (c : GConfig) : Prop := same_config c /\ Forall2 tunnel_inv cfgs (gc_tunnels c).

Lemma stop_all_ok c : conf_ok c -> ensures confined conf_ok (supervisor_stop_all_tunnels c).
Proof.
  intros [Hs Ht]. unfold supervisor_stop_all_tunnels, now_ms, now_us.
  eapply ensures_bind; [eapply ensures_map_io; [exact Ht|apply term_ok]|]. intros ts H1.
  eapply ensures_read; [perf|]. intros now.
  eapply ensures_bind; [by apply stop_wait_ok|]. intros ts2 H2.
  eapply ensures_bind; [eapply ensures_map_io; [exact H2|apply survivor_ok]|]. intros ts3 H3.
  apply ensures_ret. by split.
Qed.

Lemma map_cfg ts : Forall2 tunnel_inv cfgs ts -> map t_cfg ts = cfgs.
Proof.
  intros H. induction H as [|c t cs ts Hx H IH]; [done|]. cbn. by rewrite (ti_cfg _ _ Hx), IH.
Qed.

Lemma conf_ifaces c : conf_ok c -> all_ifaces c = the_ifaces.
Proof.
  intros [_ H]. apply map_cfg in H. unfold the_ifaces, all_ifaces.
  assert (forall ts, map (fun t => tc_ifaces (t_cfg t)) ts = map tc_ifaces (map t_cfg ts)) as E
    by (intros; by rewrite map_map).
  by rewrite !E, H.
Qed.

Lemma block_calls c (b : bool) : conf_ok c ->
  calls (run_system_block (if b then gc_system_up c else gc_system_down c)).
Proof.
  intros [(_ & Eu & Ed) _]. apply system_block_calls, Forall_forall.
  intros x. destruct b; rewrite ?Eu, ?Ed; intros; apply elem_of_app; auto.
Qed.

Lemma bring_up_ok c ic : conf_ok c -> cache_ok ic ->
  ensures confined (fun r => conf_ok r.1.2 /\ gc_tunnels r.1.2 = gc_tunnels c /\ cache_ok r.2)
    (supervisor_bring_up c ic).
Proof.
  intros Hc Hi. pose proof (block_calls c true Hc). pose proof (block_calls c false Hc).
  pose proof (wait_ready_calls c 5000 100 (conf_ifaces c Hc)).
  unfold supervisor_bring_up. ens_read. ens_read. destruct (negb _).
  - ens_read. apply ensures_ret. by destruct Hc.
  - eapply ensures_bind; [apply init_ok; [|exact Hi]|].
    + apply Forall_forall. rewrite (conf_ifaces c Hc). auto.
    + intros ic' H'. apply ensures_ret. by destruct Hc.
Qed.

(** *** One turn of a tunnel *)

Lemma round_trip_calls port id c cap : calls (wfb_cmd_round_trip port id c cap).
Proof. unfold wfb_cmd_round_trip. perf. Qed.

Lemma req_id_calls : calls wfb_cmd_next_req_id.
Proof. intros w. exists []. by split. Qed.

Lemma refresh_radio_ok cfg t : tunnel_inv cfg t ->
  ensures confined (fun r => tunnel_inv cfg r.2) (wfb_cmd_refresh_radio t).
Proof.
  intros H. pose proof round_trip_calls. pose proof req_id_calls.
  unfold wfb_cmd_refresh_radio. destruct (_ <=? 0); [by apply ensures_ret|].
  ens_read. ens_read. destruct x0 as [[n bs] rc]. destruct (_ || _); [by apply ensures_ret|].
  cbn zeta. ens_read. apply ensures_ret. by apply inv_tx.
Qed.

Lemma refresh_fec_ok cfg t : tunnel_inv cfg t ->
  ensures confined (fun r => tunnel_inv cfg r.2) (wfb_cmd_refresh_fec t).
Proof.
  intros H. pose proof round_trip_calls. pose proof req_id_calls.
  unfold wfb_cmd_refresh_fec. destruct (_ <=? 0); [by apply ensures_ret|].
  ens_read. ens_read. destruct x0 as [[n bs] rc]. destruct (_ || _); [by apply ensures_ret|].
  apply ensures_ret. by apply inv_tx.
Qed.

Lemma tick_kill_ok cfg t_ms t : tunnel_inv cfg t -> ensures confined (tunnel_inv cfg) (tick_kill t_ms t).
Proof.
  intros H. unfold tick_kill. destruct (_ && _); [|by apply ensures_ret].
  ens_read. apply ensures_ret. by apply inv_deadline.
Qed.

Lemma tick_tunnel_ok cfg t_ms t_us t : cfg ∈ cfgs -> tunnel_inv cfg t ->
  ensures confined (tunnel_inv cfg) (tick_tunnel (gc_key_file c0) t_ms t_us t).
Proof.
  intros Hc H. unfold tick_tunnel. eapply ensures_bind; [by apply tick_kill_ok|]. intros t1 H1.
  eapply (ensures_bind _ (tunnel_inv cfg)).
  { unfold tick_respawn. destruct (_ && _) eqn:E; [|by apply ensures_ret].
    apply andb_true_iff in E as [Eb _]. apply bool_decide_eq_true in Eb.
    destruct (ti_backoff _ _ H1 Eb) as [_ Hp]. eapply ensures_bind; [by apply spawn_ok|].
    intros r Hr. by apply ensures_ret. }
  intros t2 H2. unfold tick_query. destruct (_ && _); [|by apply ensures_ret]. cbn zeta.
  eapply ensures_bind; [by apply refresh_radio_ok, inv_query|]. intros [rc t3] H3. cbn [fst snd] in *.
  eapply (ensures_bind _ (fun r => tunnel_inv cfg r.2)).
  { apply refresh_fec_ok. destruct (rc =? 0); [done|by apply inv_query]. }
  intros [rc' t4] H4. by apply ensures_ret.
Qed.

(** A list of tunnels, each beside the configuration it belongs to. *)
Definition known_inv (cfg : TunnelCfg) (t : Tunnel) : Prop := cfg ∈ cfgs /\ tunnel_inv cfg t.

Lemma known_tunnels ts : Forall2 tunnel_inv cfgs ts -> Forall2 known_inv cfgs ts.
Proof.
  intros H. apply Forall2_same_length_lookup_2; [by eapply Forall2_length|].
  intros i c t Hc Ht. split; [by eapply list_elem_of_lookup_2|]. by eapply Forall2_lookup_lr.
Qed.


Lemma ticks_ok ts t_ms t_us : Forall2 tunnel_inv cfgs ts ->
  ensures confined (Forall2 tunnel_inv cfgs) (map_io (tick_tunnel (gc_key_file c0) t_ms t_us) ts).
Proof.
  intros H%known_tunnels. eapply ensures_map_io; [exact H|].
  intros c t [Hc Ht]. by apply tick_tunnel_ok.
Qed.

(** *** Statistics *)

Lemma inv_rx cfg f t : (forall s, win_ok s -> win_ok (f s)) -> tunnel_inv cfg t ->
  tunnel_inv cfg (on_rx f t).
Proof. intros Hf []. constructor; cbn; auto. Qed.

Lemma pick_pkt_win p s : win_ok s -> win_ok (pick_pkt p s).
Proof.
  intros H. unfold pick_pkt, pick_to.
  repeat match goal with |- context [match ?x with Some _ => _ | None => _ end] => destruct x end; exact H.
Qed.

Lemma mcs_window_win nsec hist s : length hist = 16%nat -> win_ok s -> win_ok (mcs_window nsec hist s).
Proof.
  intros Hh (H1 & H2 & H3). unfold mcs_window. cbn zeta.
  match goal with |- win_ok (?r <| st_mcs_win := _ |>) => set (s1 := r) end.
  pose proof (Z.mod_pos_bound nsec 10 ltac:(lia)) as Hw.
  assert (win_ok s1) as (K1 & K2 & K3).
  { subst s1. destruct (_ =? nsec); [done|]. split; [by cbn; rewrite length_array_write by lia|].
    split; [|by cbn; rewrite length_array_write by lia]. cbn. by apply Forall_array_write. }
  split; [by cbn; rewrite length_array_write by lia|]. split; [|done]. cbn.
  apply Forall_array_write; [|done]. intros row Hr. rewrite length_zip_with. lia.
Qed.

Lemma ant_walk_hist a : length (aw_hist (ant_walk a)) = 16%nat.
Proof.
  unfold ant_walk. generalize (match a with Some s => if 2 <=? strlen s then ant_objects 0 s 0 s else [] | None => [] end).
  intros objs. cut (forall w, length (aw_hist w) = 16%nat -> length (aw_hist (fold_left ant_step objs w)) = 16%nat).
  { intros H. by apply H. }
  induction objs as [|o objs IH]; intros w Hw; [done|]. cbn [fold_left]. apply IH.
  unfold ant_step. repeat (case_match; try done); cbn; rewrite ?length_array_write by lia; done.
Qed.

Lemma fold_acc win u l m r now a : acc_ok a -> acc_ok (probe_fold win u l m r now a).
Proof.
  unfold acc_ok, probe_fold. intros H. cbn zeta.
  repeat case_bool; cbn; bool_hyps; rewrite ?length_array_write by (rewrite ?H; cbn; lia); done.
Qed.

Lemma flush_ok cfg now t : tunnel_inv cfg t -> ensures confined (tunnel_inv cfg) (probe_window_flush now t).
Proof.
  intros H. assert (forall ts win t m bs e, calls (flush_buckets ts win t m bs e)) as Hf.
  { intros ts win t' m bs. revert m. induction bs as [|b bs IH]; intros m e; cbn [flush_buckets];
      unfold forward; perf. }
  unfold probe_window_flush. cbn zeta. ens_read. ens_read. apply ensures_ret.
  revert H. intros []. by constructor.
Qed.

Lemma accumulate_ok cfg u l m r now t : tunnel_inv cfg t ->
  ensures confined (tunnel_inv cfg) (probe_accumulate u l m r now t).
Proof.
  intros H. unfold probe_accumulate. cbn zeta.
  match goal with |- context [probe_window_flush now ?x] => assert (tunnel_inv cfg x) as H1 end.
  { revert H. intros []. constructor; cbn; auto. by apply fold_acc. }
  destruct (_ <=? _); [by apply flush_ok|by apply ensures_ret].
Qed.

(** The scanner's note changes nothing but the note. *)
Definition noted (sc sc' : ScanState) : Prop := exists b, sc' = sc <| sc_step_saw_traffic := b |>.

Lemma noted_refl sc : noted sc sc.
Proof. exists (sc_step_saw_traffic sc). by destruct sc. Qed.

Lemma scan_note_ok t u sc : ensures confined (noted sc) (scan_note t u sc).
Proof.
  unfold scan_note. destruct u as [u|]; [|apply ensures_ret, noted_refl].
  destruct (_ && _); [|apply ensures_ret, noted_refl]. ens_read. apply ensures_ret.
  destruct (_ <=? _); [by eexists|apply noted_refl].
Qed.

Definition drained (cfg : TunnelCfg) (sc : ScanState) (r : Tunnel * ScanState) : Prop :=
  tunnel_inv cfg r.1 /\ noted sc r.2.

Lemma rx_ant_ok cfg buf t sc : tunnel_inv cfg t ->
  ensures confined (drained cfg sc) (drain_rx_ant buf t sc).
Proof.
  intros H. unfold drain_rx_ant. cbn zeta. eapply ensures_bind; [apply scan_note_ok|].
  intros sc1 Hn. set (a := ant_walk _). ens_read.
  match goal with |- context [io_ret (?x, sc1)] => set (t1 := x); assert (tunnel_inv cfg t1) as H1 end.
  { subst t1. apply inv_rx; [intros s; apply mcs_window_win, ant_walk_hist|].
    assert (forall t, tunnel_inv cfg t -> tunnel_inv cfg (if aw_best_rssi a =? INT_MIN then t
      else on_rx (fun s => s <| st_rssi_best := aw_best_rssi a |>) t)) as Hb.
    { intros u Hu. destruct (_ =? _); [done|]. by apply inv_rx. }
    apply Hb, inv_rx; [done|]. unfold pick_to. destruct (json_slice_object buf "pkt"); [|done].
    apply inv_rx; [apply pick_pkt_win|done]. }
  clearbody t1. destruct (tc_probe _); [|by apply ensures_ret]. ens_read.
  eapply ensures_bind; [by apply accumulate_ok|]. intros t2 H2. by apply ensures_ret.
Qed.

Lemma tx_stats_ok cfg buf t : tunnel_inv cfg t -> ensures confined (tunnel_inv cfg) (drain_tx_stats buf t).
Proof.
  intros H. unfold drain_tx_stats. cbn zeta.
  match goal with |- context [io_ret ?x] => assert (tunnel_inv cfg x) as H1 end.
  { unfold pick_to. destruct (json_slice_object _ _); [|done]. apply inv_tx. by constructor; destruct H. }
  destruct (json_slice_object buf "radio"); [|by apply ensures_ret]. ens_read.
  apply ensures_ret. by apply inv_tx.
Qed.

Lemma drain_one_ok cfg got t sc : tunnel_inv cfg t ->
  ensures confined (drained cfg sc) (drain_one got t sc).
Proof.
  intros H. unfold drain_one. cbn zeta. pose proof (noted_refl sc) as Hr.
  destruct (nonempty _); [|by apply ensures_ret].
  assert (forall d s, calls (forward d s)) as Hfw by (intros; unfold forward; perf).
  ens_read. ens_read.
  match goal with |- context [io_ret (?x, sc)] => set (t1 := x); assert (tunnel_inv cfg t1) as K1 end.
  { subst t1. unfold pick_to. destruct (json_pick_u32 _ _); [|done]. by constructor; destruct H. }
  clearbody t1. destruct (_ && _); [by apply ensures_ret|].
  eapply (ensures_bind _ (drained cfg sc)).
  { destruct (contains _ _); [by apply rx_ant_ok|by apply ensures_ret]. }
  intros [t2 sc2] [H2 Hn]. cbn [fst snd] in *. eapply (ensures_bind _ (tunnel_inv cfg)).
  { destruct (contains _ _); [by apply tx_stats_ok|by apply ensures_ret]. }
  intros t3 H3. ens_read. apply ensures_ret. split; [|done]. cbn.
  destruct (_ =? 0); by constructor; destruct H3.
Qed.

Lemma noted_trans a b c : noted a b -> noted b c -> noted a c.
Proof. intros [x ->] [y ->]. by exists y. Qed.

Lemma drain_list_ok cfg l : forall t sc, tunnel_inv cfg t ->
  ensures confined (drained cfg sc) (drain_list l t sc).
Proof.
  induction l as [|got l IH]; intros t sc H; cbn [drain_list].
  { apply ensures_ret. split; [done|apply noted_refl]. }
  eapply ensures_bind; [by apply drain_one_ok|]. intros [t1 sc1] [H1 Hn].
  eapply ensures_ext; [by apply IH|]. intros [t2 sc2] [H2 Hn2]. split; [done|].
  by eapply noted_trans.
Qed.

Lemma stats_drain_ok cfg t sc : tunnel_inv cfg t -> ensures confined (drained cfg sc) (stats_drain t sc).
Proof. intros H. unfold stats_drain. ens_read. by apply drain_list_ok. Qed.

(** ** The radio *)

Lemma hop_all_ok l chan ht : strlen ht < 8 -> Forall (fun i => i ∈ the_ifaces) l ->
  forall ic, cache_ok ic -> ensures confined cache_ok (hop_all l chan ht ic).
Proof.
  intros Hh. induction 1 as [|i l Hi _ IH]; intros ic Hc; cbn [hop_all]; [by apply ensures_ret|].
  pose proof (iw_channel_calls i chan ht Hi Hh). ens_read.
  eapply ensures_bind; [by apply requery_ok|]. intros ic' H'. by apply IH.
Qed.

Lemma hop_quiet_calls l chan ht : strlen ht < 8 -> Forall (fun i => i ∈ the_ifaces) l ->
  calls (hop_quiet l chan ht).
Proof.
  intros Hh. induction 1 as [|i l Hi _ IH]; cbn [hop_quiet]; [apply performs_ret|].
  pose proof (iw_channel_calls i chan ht Hi Hh). perf.
Qed.

Lemma requery_all_ok l : forall ic, cache_ok ic -> ensures confined cache_ok (requery_all l ic).
Proof.
  induction l as [|i l IH]; intros ic H; cbn [requery_all]; [by apply ensures_ret|].
  eapply ensures_bind; [by apply requery_ok|]. auto.
Qed.

(** A switch that ticks: it stays well formed, and does not start again. *)
Definition csa_next (s s' : CsaState) : Prop :=
  csa_ok s' /\ (cs_phase s = CSA_IDLE -> cs_phase s' = CSA_IDLE).

Lemma send_commit_ok c s : csa_ok s ->
  ensures confined (fun r => csa_ok r.2 /\ cs_phase r.2 = cs_phase s /\
    cs_frames_sent r.2 = cs_frames_sent s /\ cs_frames_total r.2 = cs_frames_total s)
    (csa_send_commit_frame c s).
Proof.
  intros H. unfold csa_send_commit_frame. destruct (tx_port _ _) as [port|]; [|by apply ensures_ret].
  ens_read. cbn zeta. set (s1 := s <| cs_seq_in_burst := _ |>).
  assert (csa_ok s1) as H1 by (by constructor; destruct H).
  destruct (_ >=? _); [by apply ensures_ret|]. ens_read.
  destruct x0; [by apply ensures_ret|]. ens_read. apply ensures_ret. cbn [snd].
  split; [|done]. by constructor; destruct H1.
Qed.

Lemma csa_burst_ok t_us c s : csa_ok s -> ensures confined (csa_next s) (csa_burst t_us c s).
Proof.
  intros H. unfold csa_burst. destruct (_ && _) eqn:E; [|by apply ensures_ret].
  apply andb_true_iff in E as [[Eb Ef]%andb_true_iff Ec]. apply bool_decide_eq_true in Eb as Hb.
  eapply ensures_bind; [by apply send_commit_ok|]. intros [rc s1] (H1 & Hp & Hs & Ht). cbn [snd] in *.
  destruct (negb _).
  - apply ensures_ret. split; [|done]. destruct H1. constructor; cbn; auto; done.
  - apply ensures_ret. cbn zeta. split; [|congruence].
    destruct H1 as [K1 K2 K3 K4 K5 K6]. specialize (K2 ltac:(congruence)).
    match goal with |- csa_ok (if ?b then _ else _) => destruct b eqn:Ev end;
      constructor; cbn in *; auto; try done; lia.
Qed.

Lemma gs_csa_tick_ok t_us g : gs_inv g -> ensures confined gs_inv (csa_tick t_us g).
Proof.
  intros []. unfold csa_tick. cbn zeta. eapply ensures_bind; [by apply csa_burst_ok|].
  intros s1 [H1 N1]. eapply (ensures_bind _ (fun r => csa_next s1 r.1 /\ cache_ok r.2)).
  { unfold csa_switch. destruct (_ && _) eqn:E; [|by apply ensures_ret].
    apply andb_true_iff in E as [Eb _]. apply bool_decide_eq_true in Eb as Hb. cbn zeta. destruct H1 as [K1 K2 K3 K4 K5 K6]. specialize (K2 ltac:(congruence)).
    eapply ensures_bind; [apply hop_all_ok; [|exact K1|done]; apply is_ht_short; by destruct K2|].
    intros ic Hi. apply ensures_ret. split; [|done]. split; [|cbn; congruence].
    constructor; cbn; auto. done. }
  intros [s2 ic2] [[H2 N2] Hi2]. cbn [fst snd] in *.
  eapply (ensures_bind _ (fun r => csa_next s2 r.1 /\ cache_ok r.2)).
  { unfold csa_verify. destruct (_ && _) eqn:E; [|by apply ensures_ret].
    eapply (ensures_bind _ cache_ok).
    - destruct (_ || _); [by apply ensures_ret|]. apply hop_all_ok; [by destruct H2|by destruct H2|done].
    - intros ic Hi. apply ensures_ret. split; [|done]. split; [|done]. destruct H2. by constructor. }
  intros [s3 ic3] [[H3 N3] Hi3]. apply ensures_ret. cbn [fst snd] in *. constructor; cbn; auto.
  destruct gi_exclusive0 as [Hx|Hx]; [left; cbn; auto|by right].
Qed.

Lemma scan_apply_ok c i h s : scan_ok s -> 0 <= i < Z.of_nat (length (sc_steps s)) -> 0 <= h <= i ->
  ensures confined scan_ok (scan_apply_step_drained c i (s <| sc_hops_done := h |>)).
Proof.
  intros [H1 H2 H3 H4 H5] Hi Hc. unfold scan_apply_step_drained. cbn [sc_steps sc_ifaces set_field].
  destruct (_ <? 0) eqn:E0; [lia|].
  destruct (lookup_lt_is_Some_2 (sc_steps s) (Z.to_nat i) ltac:(lia)) as [[chan ht] E]. rewrite E.
  assert (hop_ok chan ht) as [_ Hh].
  { rewrite Forall_forall in H2. apply (H2 (chan, ht)). by eapply list_elem_of_lookup_2. }
  pose proof (hop_quiet_calls (sc_ifaces s) chan ht (is_ht_short _ Hh) H1).
  assert (forall d l, calls (forward_all d l)) as Hf.
  { intros d l. induction l as [|x l IH]; cbn [forward_all]; unfold forward; perf. }
  assert (forall idx, calls (scan_drain c idx)) by (intros; unfold scan_drain; perf).
  cbn zeta. ens_read. ens_read. ens_read. apply ensures_ret. constructor; cbn; auto.
  unfold SCAN_MAX_STEPS in H3. destruct H5 as (? & ? & ? & ? & ? & ? & ?). split_and!; cbn; auto; lia.
Qed.

Lemma scan_tick_ok t_us g : gs_inv g -> ensures confined gs_inv (scan_tick t_us g).
Proof.
  intros H. pose proof H as []. unfold scan_tick. cbn zeta.
  destruct (negb _) eqn:Er; [by apply ensures_ret|]. destruct (_ <? _); [by apply ensures_ret|].
  apply negb_false_iff, bool_decide_eq_true in Er.
  destruct gi_scan0 as [H1 H2 H3 H4 H5]. specialize (H4 Er).
  pose proof H5 as (S1 & S2 & S3 & S4 & S5 & S6 & S7). specialize (S7 Er).
  assert (Hmax : Z.of_nat (length (sc_steps (gs_scan g))) <= 32) by (unfold SCAN_MAX_STEPS in H3; lia).
  destruct (sc_step_saw_traffic _) eqn:Et.
  - eapply ensures_bind; [by apply requery_all_ok|]. intros ic Hi. apply ensures_ret.
    constructor; cbn; auto; [|by right]. constructor; cbn; auto.
    destruct (lookup_lt_is_Some_2 (sc_steps (gs_scan g)) (Z.to_nat (sc_cur_step (gs_scan g))) ltac:(lia))
      as [[chan ht] E].
    assert (hop_ok chan ht) as [Hc Hh] by (rewrite Forall_lookup in H2; by apply (H2 _ _ E)).
    pose proof (is_ht_short _ Hh). split_and!; cbn; rewrite ?E; cbn; auto; try lia; done.
  - destruct (_ <=? _) eqn:En.
    + eapply ensures_bind; [by apply requery_all_ok|]. intros ic Hi. apply ensures_ret.
      constructor; cbn; auto; [|by right]. constructor; cbn; auto.
      split_and!; cbn; auto; try lia; done.
    + cbn in En. eapply ensures_bind; [apply (scan_apply_ok _ _ (sc_hops_done (gs_scan g) + 1) (gs_scan g));
        [by constructor|cbn; lia|cbn; lia]|].
      intros s Hs. apply ensures_ret. constructor; cbn; auto.
      * destruct Hs. by constructor.
      * destruct gi_exclusive0 as [Hx|Hx]; [by left|]. done.
Qed.

(** ** The command uplink *)

Definition last_ok (e : Emit) : Prop := length (em_last_send_ms e) = 17%nat.

Lemma burst_calls n d f s e : calls (send_burst n d f s e).
Proof. revert s e. induction n as [|n IH]; intros; cbn [send_burst]; perf. Qed.

Lemma wcmd_emit_ok c k v e : last_ok e -> ensures confined (fun r => last_ok r.2) (wcmd_emit c k v e).
Proof.
  intros H. pose proof burst_calls. unfold wcmd_emit. destruct (negb _); [by apply ensures_ret|].
  destruct (tx_port _ _); [|by apply ensures_ret]. ens_read. destruct x; [by apply ensures_ret|].
  cbn zeta. ens_read. destruct x as [sent err]. destruct (0 <? sent); by apply ensures_ret.
Qed.

Lemma recovery_emit_ok c e : last_ok e -> ensures confined (fun r => last_ok r.2) (recovery_emit c e).
Proof.
  intros H. pose proof burst_calls. unfold recovery_emit. destruct (negb _); [by apply ensures_ret|].
  destruct (tx_port _ _); [|by apply ensures_ret]. ens_read. destruct x; [by apply ensures_ret|].
  cbn zeta. ens_read. destruct x as [sent err]. destruct (0 <? sent); by apply ensures_ret.
Qed.

Lemma logsync_ok c e : last_ok e -> ensures confined last_ok (logsync_emit c e).
Proof.
  intros H. pose proof burst_calls. unfold logsync_emit. destruct (negb _); [by apply ensures_ret|].
  destruct (tx_port _ _); [|by apply ensures_ret]. ens_read. destruct x; [by apply ensures_ret|].
  cbn zeta. ens_read. ens_read. destruct (0 <? _); by apply ensures_ret.
Qed.

Lemma set_tunnels_inv g ts : gs_inv g -> Forall2 tunnel_inv cfgs ts -> gs_inv (set_tunnels ts g).
Proof. intros [] H. by constructor. Qed.

Lemma key_file_eq g : gs_inv g -> gc_key_file (gs_cfg g) = gc_key_file c0.
Proof. by intros [(? & _) _ _ _ _ _ _]. Qed.

Lemma gs_tick_ok g : gs_inv g -> ensures confined gs_inv (supervisor_tick g).
Proof.
  intros H. unfold supervisor_tick. ens_read. ens_read.
  eapply ensures_bind; [apply refresh_ok; by destruct H|]. intros ic Hi. cbn zeta.
  set (g1 := g <| gs_ifaces := ic |>). assert (gs_inv g1) as H1 by (destruct H; by constructor).
  rewrite (key_file_eq g1 H1). eapply ensures_bind; [apply ticks_ok; by destruct H1|].
  intros ts Ht. eapply ensures_bind; [by apply gs_csa_tick_ok, set_tunnels_inv|]. intros g2 H2.
  eapply ensures_bind; [by apply scan_tick_ok|]. intros g3 H3.
  unfold logsync_tick. destruct (_ <=? _); [|by apply ensures_ret]. cbn zeta.
  eapply ensures_bind; [apply logsync_ok; by destruct H3|]. intros e He. apply ensures_ret.
  destruct H3. by constructor.
Qed.

(** ** The routes *)

Definition route_ok (r : Z * Gs) : Prop := gs_inv r.2.

Lemma same_code g (code : Z) : gs_inv g -> ensures confined route_ok (io_ret (code, g)).
Proof. intros H. by apply ensures_ret. Qed.

Lemma conf_of g : gs_inv g -> conf_ok (gs_cfg g).
Proof. intros []. by split. Qed.

Lemma with_conf c ic g : gs_inv g -> conf_ok c -> cache_ok ic ->
  gs_inv (g <| gs_cfg := c |> <| gs_ifaces := ic |>).
Proof. intros [] [Hc Ht] Hi. by constructor. Qed.

Lemma autostart_ok cs ts : Forall2 known_inv cs ts ->
  ensures confined (fun r => Forall2 tunnel_inv cs r.2) (spawn_autostart (gc_key_file c0) ts).
Proof.
  induction 1 as [|c t cs ts [Hc Ht] H IH]; cbn [spawn_autostart]; [by apply ensures_ret|].
  eapply (ensures_bind _ (fun r => tunnel_inv c r.2)).
  - destruct (_ && _) eqn:E; [|by apply ensures_ret]. apply spawn_ok; [done| |cbn; lia].
    revert Ht. intros []. constructor; cbn; auto. done.
  - intros r Hr. eapply ensures_bind; [exact IH|]. intros rs Hrs. apply ensures_ret. by constructor.
Qed.

Lemma bring_up_spawn_ok c g : gs_inv g -> conf_ok c ->
  ensures confined route_ok (bring_up_and_spawn c g).
Proof.
  intros H Hc. unfold bring_up_and_spawn. eapply ensures_bind; [apply bring_up_ok; [done|by destruct H]|].
  intros [[rc c1] ic] (H1 & _ & Hi). cbn [fst snd] in *. cbn zeta.
  pose proof (with_conf c1 ic g H H1 Hi) as Hg. destruct (negb _); [by apply ensures_ret|].
  destruct H1 as [(Ek & H1) Ht]. rewrite Ek.
  eapply ensures_bind; [by apply autostart_ok, known_tunnels|]. intros s Hs.
  apply ensures_ret. by apply set_tunnels_inv.
Qed.

Lemma reinit_ok g : gs_inv g -> ensures confined route_ok (route_reinit g).
Proof.
  intros H. unfold route_reinit. eapply ensures_bind; [by apply stop_all_ok, conf_of|].
  intros c Hc. pose proof (block_calls c false Hc). ens_read. by apply bring_up_spawn_ok.
Qed.

Lemma system_up_ok g : gs_inv g -> ensures confined route_ok (route_system_up g).
Proof.
  intros H. unfold route_system_up. destruct (bool_decide _); [by apply ensures_ret|].
  by apply bring_up_spawn_ok, conf_of.
Qed.

Lemma take_down_ok c : conf_ok c -> ensures confined conf_ok (supervisor_take_down c).
Proof.
  intros H. unfold supervisor_take_down. eapply ensures_bind; [by apply stop_all_ok|].
  intros c1 H1. pose proof (block_calls c1 false H1). ens_read. apply ensures_ret. exact H1.
Qed.

Lemma system_down_ok g : gs_inv g -> ensures confined route_ok (route_system_down g).
Proof.
  intros H. unfold route_system_down. eapply ensures_bind; [by apply take_down_ok, conf_of|].
  intros c [Hc Ht]. apply ensures_ret. destruct H. by constructor.
Qed.

(** *** Commands *)

Lemma with_emit e g : gs_inv g -> last_ok e -> gs_inv (g <| gs_emit := e |>).
Proof. intros [] He. by constructor. Qed.

Lemma store_last_ok k t e : last_ok e -> last_ok (store_last k t e).
Proof. unfold last_ok, store_last. intros H. destruct (_ <=? _); [|done]. cbn. by rewrite length_insert. Qed.

Lemma emit_of g : gs_inv g -> last_ok (gs_emit g).
Proof. by intros []. Qed.

Lemma cmd_ok qs g : gs_inv g -> ensures confined route_ok (route_cmd qs g).
Proof.
  intros H. pose proof (emit_of g H) as He. unfold route_cmd.
  destruct (qs_get _ _) as [[k kl]|]; [|by apply same_code]. cbn zeta.
  destruct (_ <? 0); [by apply same_code|]. destruct (cmd_value _ _); [|by apply same_code].
  assert (calls (rate_limited (gs_cfg g) (wcmd_key_from_str k kl) (gs_emit g)))
    by (unfold rate_limited; perf).
  eapply ensures_read; [done|]. intros [|]; [apply same_code, with_emit; done|].
  eapply ensures_bind; [by apply wcmd_emit_ok|]. intros [[rc n] e] H1. cbn [snd] in H1.
  destruct (rc =? 0); [|by apply same_code, with_emit]. ens_read.
  by apply same_code, with_emit, store_last_ok.
Qed.

Lemma logctl_ok qs g : gs_inv g -> ensures confined route_ok (route_logctl qs g).
Proof.
  intros H. unfold route_logctl. cbn zeta.
  eapply ensures_bind; [by apply wcmd_emit_ok, emit_of|]. intros [[rc n] e] H1.
  by apply same_code, with_emit.
Qed.

Lemma recovery_route_ok g : gs_inv g -> ensures confined route_ok (route_recovery g).
Proof.
  intros H. unfold route_recovery.
  eapply ensures_bind; [by apply recovery_emit_ok, emit_of|]. intros [[rc n] e] H1.
  by apply same_code, with_emit.
Qed.

(** *** What a scan and a switch are asked to do *)

#[local] Opaque qs_pct_decode.

Lemma known_iface_in g i : gs_inv g -> known_iface (gs_cfg g) i = true -> i ∈ the_ifaces.
Proof.
  intros H Hk. rewrite <- (conf_ifaces _ (conf_of g H)). unfold known_iface, all_ifaces in *.
  apply existsb_exists in Hk as (t & Ht & Hb). apply bool_decide_eq_true in Hb.
  apply list_elem_of_In, in_concat. exists (tc_ifaces (t_cfg t)). split.
  - apply in_map_iff. by exists t.
  - by apply list_elem_of_In.
Qed.

Lemma known_ifaces_in g l : gs_inv g -> forallb (known_iface (gs_cfg g)) l = true ->
  Forall (fun i => i ∈ the_ifaces) l.
Proof.
  intros H Hl. rewrite forallb_forall in Hl. apply Forall_forall. intros i Hi.
  apply (known_iface_in g); [done|]. by apply Hl, list_elem_of_In.
Qed.

Lemma chan_list_ok n : forall s l, chan_list n s = Some l ->
  (length l <= n)%nat /\ Forall (fun c => 1 <= c <= 200) l.
Proof.
  induction n as [|n IH]; intros s l; destruct s as [|a s]; cbn [chan_list];
    try (intros [= <-]; split; [cbn; lia|constructor]); [done|].
  cbn zeta. destruct (strtol _) as [[v rest]|]; [|done]. destruct (_ || _) eqn:E; [done|].
  intros (l' & Hl & [= <-])%bind_Some. apply IH in Hl as [H1 H2].
  split; [cbn [length]; lia|]. constructor; [|done].
  rewrite i32_small by (unfold INT_MIN, INT_MAX; lia). lia.
Qed.

Lemma scan_hts_ok qs n hts : scan_hts qs n = Some hts ->
  length hts = n /\ Forall (fun h => is_ht h = true) hts.
Proof.
  unfold scan_hts. intros (l & Hl & H)%bind_Some. destruct (forallb _ _) eqn:E; [|done].
  injection H as <-. split; [|by apply Forall_forall; intros h Hh; rewrite forallb_forall in E;
    apply E, list_elem_of_In].
  destruct (qs_text qs "hts").
  - apply bind_Some in Hl as (l1 & _ & Hl). cbn zeta in Hl.
    generalize dependent (map (qs_pct_decode 8) l1). intros l2 Hl. destruct (_ && _); [injection Hl as <-; apply length_replicate|].
    destruct (length _ =? n)%nat eqn:En; [|done]. injection Hl as <-. by apply Nat.eqb_eq.
  - destruct (qs_text qs "ht"); injection Hl as <-; apply length_replicate.
Qed.

Lemma zip_hops chans : forall hts, Forall (fun c => 1 <= c <= 200) chans ->
  Forall (fun h => is_ht h = true) hts -> Forall (fun st => hop_ok st.1 st.2) (zip chans hts).
Proof.
  induction chans as [|c chans IH]; intros [|h hts] Hc Hh; cbn; try constructor.
  - split; [by inversion Hc|by inversion Hh].
  - apply IH; [by inversion Hc|by inversion Hh].
Qed.

Lemma split_commas_short n cap : forall s l, split_commas n (bad_len cap) s = Some l ->
  (length l <= n)%nat /\ Forall (fun i => strlen i < cap) l.
Proof.
  induction n as [|n IH]; intros [|a s] l; cbn [split_commas];
    try (intros [= <-]; split; [cbn; lia|constructor]); [done|].
  destruct (span_until _ _) as [w rest]. destruct (bad_len cap w) eqn:E; [done|].
  intros (l' & Hl & [= <-])%bind_Some. apply IH in Hl as [H1 H2].
  unfold bad_len in E. split; [cbn [length]; lia|]. constructor; [lia|done].
Qed.

Lemma iface_list_short s l : iface_list s = Some l -> names_short l.
Proof. apply split_commas_short. Qed.

Lemma qs_int_range d qs key : INT_MIN <= d <= INT_MAX -> INT_MIN <= qs_int_or d qs key <= INT_MAX.
Proof.
  intros Hd. unfold qs_int_or, qs_get_int. destruct (qs_get qs key) as [v|]; cbn; [|done].
  destruct (_ || _); [done|]. destruct (strtol _) as [[iv [|]]|]; cbn; [|done..]. apply i32_range.
Qed.

Lemma scan_route_ok qs g : gs_inv g -> ensures confined route_ok (route_scan qs g).
Proof.
  intros H. unfold route_scan. destruct (negb _) eqn:Ei; [by apply same_code|].
  destruct (bool_decide (sc_phase _ = _)); [by apply same_code|].
  destruct (qs_text qs "iface"); [|by apply same_code].
  destruct (qs_text qs "chans") as [cs|]; [|by apply same_code].
  destruct (iface_list _) as [[|i ifs]|] eqn:El; [by apply same_code| |by apply same_code].
  apply iface_list_short in El.
  destruct (forallb _ _) eqn:Ek; cbn [negb]; [|by apply same_code].
  destruct (chan_list _ _) as [[|c chans]|] eqn:Ec; [by apply same_code| |by apply same_code].
  destruct (scan_hts _ _) as [hts|] eqn:Eh; [|by apply same_code].
  cbn zeta. apply chan_list_ok in Ec as [Hn Hc]. apply scan_hts_ok in Eh as [Hl Hh].
  assert (length (zip (c :: chans) hts) = length (c :: chans)) as Ez by (rewrite length_zip_with; lia).
  pose proof (zip_hops _ _ Hc Hh) as Hst. set (steps := zip (c :: chans) hts) in *.
  clearbody steps. cbn [length] in Ez, Hn.
  set (armed := scan_armed _ _ _ _). change armed with (armed <| sc_hops_done := 0 |>).
  eapply ensures_bind; [apply scan_apply_ok|].
  - constructor; cbn; auto; [by eapply known_ifaces_in|lia|lia|]. by split_and!; cbn; try lia.
  - cbn. lia.
  - lia.
  - intros sc Hs. apply same_code. apply negb_false_iff, bool_decide_eq_true in Ei.
    destruct H. constructor; cbn; auto. by left.
Qed.

Lemma prev_ht_fits qs : strlen (csa_prev_ht qs) < 8.
Proof.
  unfold csa_prev_ht. destruct (qs_text qs _) as [s|]; [|done]. destruct (_ <? _); [|done].
  rewrite strlen_length. pose proof (pct_decode_bounded 8 s ltac:(lia)). lia.
Qed.

Lemma csa_armed_shape now chan ht ifs qs s : names_short ifs -> hop_ok chan ht ->
  csa_shape (csa_armed now chan ht ifs qs s).
Proof.
  intros Hn [Hc Hh]. apply is_ht_short in Hh.
  pose proof (qs_int_range chan qs "prev_chan" ltac:(unfold INT_MIN, INT_MAX; lia)) as Hp.
  change (names_short ifs /\ 0 <= u32 (cs_sess s + 1) < 2 ^ 32 /\ 5 <= 5 /\
    INT_MIN <= chan <= INT_MAX /\ strlen ht < 8 /\
    INT_MIN <= qs_int_or chan qs "prev_chan" <= INT_MAX).
  split_and!; try apply Hn; try apply Hp; try lia; try (unfold INT_MIN, INT_MAX; lia);
    unfold u32, wrap; apply Z.mod_pos_bound; lia.
Qed.

Lemma csa_armed_ok now chan ht ifs qs s : Forall (fun i => i ∈ the_ifaces) ifs -> names_short ifs ->
  hop_ok chan ht -> csa_ok (csa_armed now chan ht ifs qs s).
Proof.
  intros Hi Hn Hh. pose proof (csa_armed_shape now chan ht ifs qs s Hn Hh) as Hs.
  pose proof (prev_ht_fits qs) as Hp.
  constructor; [| | | | |exact Hs]; clear Hs; unfold csa_armed;
    generalize dependent (csa_prev_ht qs); intros prev Hp;
    cbn [cs_phase cs_ifaces cs_target_chan cs_target_ht cs_prev_ht cs_frames_sent
         cs_frames_total set_field].
  - exact Hi.
  - by intros _.
  - exact Hp.
  - cbn. lia.
  - cbn. lia.
Qed.

Lemma csa_route_ok qs g : gs_inv g -> ensures confined route_ok (route_csa qs g).
Proof.
  intros H. unfold route_csa. destruct (negb _) eqn:Ei; [by apply same_code|].
  destruct (bool_decide (sc_phase _ = _)) eqn:Es; [by apply same_code|].
  destruct (qs_get_int _ _) as [chan|]; [|by apply same_code].
  destruct (_ || _) eqn:Ec; [by apply same_code|].
  destruct (qs_text qs "iface"); [|by apply same_code].
  destruct (qs_text qs "ht"); [|by apply same_code]. destruct (_ >=? 8); [by apply same_code|].
  destruct (iface_list _) as [[|i ifs]|] eqn:El; [by apply same_code| |by apply same_code].
  apply iface_list_short in El.
  destruct (forallb _ _) eqn:Ek; cbn [negb]; [|by apply same_code]. cbn zeta.
  destruct (is_ht _) eqn:Eh; cbn [negb]; [|by apply same_code].
  destruct (tx_port _ _); [|by apply same_code]. ens_read. apply same_code.
  apply bool_decide_eq_false in Es. apply (known_ifaces_in g _ H) in Ek.
  generalize dependent (qs_pct_decode 8 s0). intros ht Eh. destruct H.
  constructor; cbn [gs_cfg gs_ifaces gs_csa gs_scan gs_emit]; auto; [|by right].
  apply csa_armed_ok; [done|done|split; [lia|done]].
Qed.

Lemma gs_txpower_ok qs g : gs_inv g -> ensures confined route_ok (route_txpower qs g).
Proof.
  intros H. unfold route_txpower. destruct (qs_get qs "iface") as [[i n]|]; [|by apply same_code].
  destruct (qs_get qs "mbm"); [|by apply same_code]. cbn zeta.
  destruct (_ || _); [by apply same_code|].
  destruct (known_iface _ _) eqn:Ek; cbn [negb]; [|by apply same_code].
  apply (known_iface_in g _ H) in Ek. destruct (qs_get_int _ _) as [mbm|]; [|by apply same_code].
  destruct (_ || _) eqn:Em; [by apply same_code|].
  pose proof (allow_power _ mbm Ek ltac:(lia)). pose proof (fun pid d => free_calls _ (wait_free pid d)).
  unfold fork_exec. ens_read. ens_read. eapply ensures_bind; [apply requery_ok; by destruct H|].
  intros ic Hi. apply same_code. destruct H. by constructor.
Qed.
(** *** One tunnel *)

Lemma inv_backoff_zero cfg t : tunnel_inv cfg t ->
  tunnel_inv cfg (t <| t_backoff_idx := 0 |> <| t_next_start_ms := 0 |>).
Proof. intros []. constructor; cbn; auto. done. Qed.

Lemma start_ok cfg t : cfg ∈ cfgs -> tunnel_inv cfg t ->
  ensures confined (fun r => tunnel_inv cfg r.2) (tunnel_start (gc_key_file c0) t).
Proof.
  intros Hc Ht. unfold tunnel_start. destruct (0 <? _) eqn:E; [by apply ensures_ret|].
  eapply ensures_bind; [apply spawn_ok; [done|by apply inv_backoff_zero|cbn; lia]|].
  intros r Hr. by apply ensures_ret.
Qed.

Lemma stop_ok cfg t : tunnel_inv cfg t -> ensures confined (fun r => tunnel_inv cfg r.2) (tunnel_stop t).
Proof.
  intros H. unfold tunnel_stop. eapply ensures_bind; [by apply request_stop_ok|].
  intros t' (H' & _). by apply ensures_ret.
Qed.

Lemma restart_ok cfg t : tunnel_inv cfg t ->
  ensures confined (fun r => tunnel_inv cfg r.2) (tunnel_restart t).
Proof.
  intros H. unfold tunnel_restart. eapply ensures_bind; [by apply request_stop_ok|].
  intros t1 (H1 & _ & Hb). cbn zeta.
  destruct H1 as [H1 H2 H3 H4 H5 H6 H7]. destruct (_ <=? 0) eqn:E.
  - ens_read. apply ensures_ret. cbn in E. constructor; cbn; auto; try done; intros; lia.
  - apply ensures_ret. constructor; cbn; auto; done.
Qed.

Lemma control_ok cfg qs t : tunnel_inv cfg t ->
  ensures confined (fun r => tunnel_inv cfg r.2) (tunnel_control qs t).
Proof.
  intros H. pose proof round_trip_calls. pose proof req_id_calls. pose proof (inv_tx cfg).
  unfold tunnel_control. destruct (negb _); [by apply ensures_ret|].
  destruct (_ <=? 0); [by apply ensures_ret|]. destruct (qs_get _ _) as [[cmd cl]|]; [|by apply ensures_ret].
  destruct (is_key "set_fec" _ _).
  { unfold control_set_fec. destruct (qs_get_int qs "k"); [|by apply ensures_ret].
    destruct (qs_get_int qs "n"); [|by apply ensures_ret]. destruct (_ || _); [by apply ensures_ret|].
    cbn zeta. match goal with |- context [if ?b then _ else _] => destruct b end; [by apply ensures_ret|].
    ens_read. ens_read. destruct x0 as [[rlen bs] rc]. apply ensures_ret. cbn [snd].
    destruct (_ && _); auto. }
  destruct (is_key "set_radio" _ _).
  { unfold control_set_radio. eapply ensures_bind; [by apply refresh_radio_ok|]. intros [got t1] H1'.
    cbn zeta. ens_read. ens_read. destruct x0 as [[rlen bs] rc]. destruct (_ && _); [|by apply ensures_ret].
    ens_read. apply ensures_ret. cbn [snd] in *. auto. }
  destruct (is_key "get_fec" _ _).
  { unfold control_get_fec. ens_read. ens_read. destruct x0 as [[rlen bs] rc]. cbn zeta.
    apply ensures_ret. cbn [snd]. destruct (_ && _); auto. }
  destruct (is_key "get_radio" _ _); [|by apply ensures_ret].
  unfold control_get_radio. ens_read. ens_read. destruct x0 as [[rlen bs] rc].
  destruct (_ && _); [|by apply ensures_ret]. cbn zeta. ens_read. apply ensures_ret. cbn [snd]. auto.
Qed.

Lemma show_tunnel_calls t : calls (show_tunnel t).
Proof. unfold show_tunnel, json_emit_tunnel, uptime_us, age_ms. perf. Qed.

Lemma gs_action_ok cfg action qs t : cfg ∈ cfgs -> tunnel_inv cfg t ->
  ensures confined (fun r => tunnel_inv cfg r.2) (tunnel_action (gc_key_file c0) action qs t).
Proof.
  intros Hc H. pose proof show_tunnel_calls. unfold tunnel_action.
  destruct (String.eqb _ _); [ens_read; by apply ensures_ret|].
  destruct (String.eqb _ _); [by apply start_ok|]. destruct (String.eqb _ _); [by apply stop_ok|].
  destruct (String.eqb _ _); [by apply restart_ok|]. destruct (String.eqb _ _); [by apply control_ok|].
  by apply ensures_ret.
Qed.

Lemma put_tunnel_inv g i t t' cfg : gs_inv g -> gs_tunnels g !! i = Some t ->
  cfgs !! i = Some cfg -> tunnel_inv cfg t' -> gs_inv (set_tunnels (<[i := t']> (gs_tunnels g)) g).
Proof.
  intros H Ei Ec Ht. apply set_tunnels_inv; [done|]. rewrite <- (list_insert_id cfgs i cfg Ec).
  apply Forall2_insert; [by destruct H|done].
Qed.

Lemma tunnel_at g i t : gs_inv g -> gs_tunnels g !! i = Some t ->
  exists cfg, cfgs !! i = Some cfg /\ cfg ∈ cfgs /\ tunnel_inv cfg t.
Proof.
  intros H Ei. destruct (Forall2_lookup_r _ _ _ _ _ (gi_tunnels _ H) Ei) as (cfg & Ec & Ht).
  exists cfg. split; [done|]. split; [by eapply list_elem_of_lookup_2|done].
Qed.

Lemma route_tunnel_ok rest qs g : gs_inv g -> ensures confined route_ok (route_tunnel rest qs g).
Proof.
  intros H. unfold route_tunnel. destruct (span_until _ _) as [name slash].
  destruct (bad_len _ _); [by apply same_code|].
  destruct (cfg_find_tunnel _ _) as [i|]; [|by apply same_code].
  destruct (gs_tunnels g !! i) as [t|] eqn:E; [|by apply same_code].
  destruct (tunnel_at g i t H E) as (cfg & Ec & Hc & Ht). rewrite (key_file_eq g H).
  eapply ensures_bind; [by apply gs_action_ok|]. intros r Hr. apply ensures_ret.
  by eapply put_tunnel_inv.
Qed.

(** ** The dispatcher and the loop *)

Lemma emit_tunnels_calls ts room first full : calls (emit_tunnels room first full ts).
Proof.
  revert room first full. induction ts as [|t ts IH]; intros; cbn [emit_tunnels]; unfold json_emit_tunnel, uptime_us, age_ms; perf.
Qed.

Lemma show_ok g (m : GS Z) : gs_inv g -> calls m ->
  ensures confined route_ok (let! code := m in io_ret (code, g)).
Proof. intros H Hm. eapply ensures_read; [exact Hm|]. intros code. by apply same_code. Qed.

Variable tele : TelePages.

Ltac route_step :=
  destruct (String.eqb _ _); [first
    [ by apply same_code | by apply reinit_ok | by apply system_up_ok | by apply system_down_ok
    | by apply cmd_ok | by apply logctl_ok | by apply recovery_route_ok | by apply scan_route_ok
    | by apply csa_route_ok | by apply gs_txpower_ok
    | apply show_ok; [done|unfold show_status, show_tunnels, show_scan, show_csa, json_emit_status; perf; done]]|].

Lemma scan_stopped_ok s : scan_ok s -> scan_ok (s <| sc_phase := SCAN_STOPPED |>).
Proof.
  intros [S1 S2 S3 S4 (? & ? & ? & ? & ? & ? & ?)].
  constructor; cbn [sc_ifaces sc_steps sc_cur_step sc_phase set_field]; auto; [done|].
  by split_and!; cbn; try lia; auto.
Qed.

Lemma api_route_ok up path qs g : gs_inv g -> ensures confined route_ok (api_route tele up path qs g).
Proof.
  intros H. pose proof emit_tunnels_calls. unfold api_route. cbn zeta. route_step.
  apply ensures_read; [by apply performs_silent|]. intros [code|]; [by apply same_code|].
  assert (ensures confined route_ok (route_scan_cancel g)) as Hcancel.
  { unfold route_scan_cancel. apply same_code. destruct (bool_decide _); [|done].
    destruct H as [H1 H2 H3 H4 [S1 S2 S3 S4 S5] H6 H7]. constructor; cbn; auto; [|by right].
    apply scan_stopped_ok. by constructor. }
  do 18 first [route_step | destruct (String.eqb _ _); [exact Hcancel|]
    | destruct (scan_lit _ _); [by apply route_tunnel_ok|] ].
  by apply same_code.
Qed.

Lemma api_handle_ok up buf g : gs_inv g -> ensures confined route_ok (api_handle tele up buf g).
Proof.
  intros H. unfold api_handle. destruct (parse_request _) as [[path qs]|]; [by apply api_route_ok|].
  by apply same_code.
Qed.

Lemma with_gs g m : main_inv m -> gs_inv g -> main_inv (m <| mn_gs := g |>).
Proof. intros [] Hg. by constructor. Qed.

Lemma close_inv slot m : main_inv m -> main_inv (close_client slot m).
Proof.
  intros []. constructor; cbn; [done|by rewrite length_insert|]. by apply Forall_insert.
Qed.

Lemma recv_inside buf got : strlen buf < API_BUF_BYTES ->
  exists buf', recv_at buf (API_BUF_BYTES - strlen buf - 1) got = Some buf'.
Proof.
  intros H. unfold recv_at. eexists. rewrite (proj2 (Z.ltb_lt _ _)); [done|].
  rewrite strlen_app. rewrite (strlen_length (take_chars _ _)).
  pose proof (take_chars_length (Z.to_nat (API_BUF_BYTES - strlen buf - 1)) got). lia.
Qed.

Lemma client_at m slot cl : main_inv m -> mn_clients m !! slot = Some (Some cl) ->
  strlen (cl_buf cl) < API_BUF_BYTES.
Proof. intros [_ _ H] E. rewrite Forall_forall in H. by apply list_elem_of_lookup_2, H in E. Qed.

Lemma on_client_ok slot data m : main_inv m -> ensures confined main_inv (on_client tele slot data m).
Proof.
  intros H. unfold on_client. destruct (mn_clients m !! slot) as [[cl|]|] eqn:E; [|by apply ensures_ret..].
  destruct data as [[|a got]|]; [by apply ensures_ret, close_inv| |by apply ensures_ret].
  destruct (recv_inside _ (String a got) (client_at _ _ _ H E)) as [buf ->]. destruct (complete _).
  { eapply ensures_bind; [apply api_handle_ok; by destruct H|]. intros r Hr. ens_read.
    by apply ensures_ret, close_inv, with_gs. }
  match goal with |- context [API_BUF_BYTES - 1 <=? ?x] => destruct (Z.leb_spec (API_BUF_BYTES - 1) x) end.
  { ens_read. by apply ensures_ret, close_inv. }
  apply ensures_ret. destruct H. constructor; cbn; [done|by rewrite length_insert|].
  apply Forall_insert; [done|]. cbn [client_ok cl_buf]. lia.
Qed.

Lemma on_stats_ok i m : main_inv m -> ensures confined main_inv (on_stats i m).
Proof.
  intros H. unfold on_stats. cbn zeta. destruct (gs_tunnels (mn_gs m) !! i) as [t|] eqn:E; [|by apply ensures_ret].
  destruct (_ <? 0); [by apply ensures_ret|]. pose proof (mi_gs _ H) as Hg.
  destruct (tunnel_at _ i t Hg E) as (cfg & Ec & _ & Ht).
  eapply ensures_bind; [by apply stats_drain_ok|]. intros [t' sc] [Ht' [b ->]]. cbn [fst snd] in *.
  apply ensures_ret, with_gs; [done|]. pose proof (put_tunnel_inv _ i t t' cfg Hg E Ec Ht') as H1.
  destruct H1 as [K1 K2 K3 K4 K5 K6 K7]. cbn in K5, K6. constructor; cbn; auto.
  destruct K5. by constructor.
Qed.

Lemma on_all_ok rs : forall m, main_inv m -> ensures confined main_inv (on_all tele rs m).
Proof.
  induction rs as [|r rs IH]; intros m H; cbn [on_all]; [by apply ensures_ret|].
  eapply (ensures_bind _ main_inv); [|auto].
  destruct r; [by apply on_client_ok|by apply on_stats_ok].
Qed.

Lemma accept_ok fd m : main_inv m -> ensures confined main_inv (accept_client fd m).
Proof.
  intros H. unfold accept_client. destruct (list_find _ _) as [[slot c]|]; [|by apply ensures_ret].
  ens_read. apply ensures_ret. destruct H. constructor; cbn; [done|by rewrite length_insert|].
  by apply Forall_insert.
Qed.

Lemma idle_inv now m : main_inv m -> main_inv (m <| mn_clients := map (drop_idle now) (mn_clients m) |>).
Proof.
  intros []. constructor; cbn; [done|by rewrite length_map|]. apply Forall_map.
  eapply Forall_impl; [done|]. intros [cl|]; [|done]. cbn. by destruct (_ >? _).
Qed.

Lemma turn_ok p sigchld m : main_inv m ->
  ensures confined (fun r => main_inv r.2) (loop_turn tele p sigchld m).
Proof.
  intros H. pose proof (mi_gs _ H) as Hg. unfold loop_turn.
  assert (calls (poll_timeout (mn_gs m))) by (unfold poll_timeout; perf).
  ens_read. ens_read. eapply (ensures_bind _ (Forall2 tunnel_inv cfgs)).
  { destruct sigchld; [apply reap_ok|apply ensures_ret]; by destruct Hg. }
  intros ts Hts. eapply ensures_bind; [by apply gs_tick_ok, set_tunnels_inv|]. intros g H1. ens_read.
  cbn zeta. pose proof (idle_inv x1 _ (with_gs g m H H1)) as H2. cbn in H2.
  match goal with |- context [PErr] => idtac | _ => idtac end.
  destruct p as [intr| |acc rd]; [by apply ensures_ret|by apply ensures_ret|].
  eapply (ensures_bind _ main_inv).
  { destruct acc; [by apply accept_ok|by apply ensures_ret]. }
  intros m2 H3. eapply ensures_bind; [by apply on_all_ok|]. intros m3 H4. by apply ensures_ret.
Qed.

Lemma end_ok m : main_inv m -> ensures confined (fun _ => True) (main_end m).
Proof.
  intros H. pose proof (conf_of _ (mi_gs _ H)) as Hc. unfold main_end. cbn zeta.
  eapply ensures_bind; [by apply stop_all_ok|]. intros c H1.
  assert (conf_ok (c <| gc_tunnels := map stats_listener_close (gc_tunnels c) |>)) as H2.
  { destruct H1 as [H1 Ht]. split; [done|]. cbn. apply Forall2_fmap_r.
    eapply Forall2_impl; [exact Ht|]. intros cf t. unfold stats_listener_close.
    intros Hcf. unfold compose. destruct (0 <=? t_stats_fd t); [|exact Hcf]. destruct Hcf. by constructor. }
  pose proof (block_calls _ false H2). eapply ensures_read; [|intros; by apply ensures_ret].
  destruct (bool_decide _); [done|apply performs_ret].
Qed.
End Inv.

(** ** From the start *)

Lemma forall2_map_self {A B} (f : A -> B) (P : B -> A -> Prop) l :
  Forall (fun x => P (f x) x) l -> Forall2 P (map f l) l.
Proof. induction 1; cbn; by constructor. Qed.

Lemma fresh_inv t : fresh t -> tunnel_inv (t_cfg t) t.
Proof.
  pose proof win_zero. intros [Hp Ht]. constructor; [done| | | | | |]; rewrite Ht; cbn; try done; lia.
Qed.

Lemma conf_start c : gconfig_ok c -> conf_ok c c.
Proof.
  intros H. split; [done|]. apply forall2_map_self. eapply Forall_impl; [apply (ok_tunnels _ H)|].
  intros t Ht. by apply fresh_inv, ok_idle.
Qed.

Section Run.
Context {EV : GsEnv} {ABI : CAbi}.
Variable tele : TelePages.

Lemma main_config_ok content overlay port c :
  main_config content overlay port = Some c -> gconfig_ok c.
Proof.
  unfold main_config. intros (c1 & Hl & [= <-])%bind_Some.
  pose proof (gconfig_overlay overlay c1 (cfg_load_ok _ _ Hl)) as H.
  destruct (_ && _) eqn:E; [|done]. destruct H. constructor; cbn; auto. lia.
Qed.

Definition started (c : GConfig) (r : option Main) : Prop :=
  match r with Some m => main_inv c m | None => True end.

Lemma fresh_known c : gconfig_ok c ->
  Forall2 (fun cfg t => known_inv c cfg t /\ t_pid t <= 0) (cfgs c) (gc_tunnels c).
Proof.
  intros H. apply forall2_map_self, Forall_forall. intros t Ht.
  pose proof (ok_tunnels _ H) as Hts. rewrite Forall_forall in Hts.
  pose proof (ok_idle _ (Hts t Ht)) as Hf. split; [|by destruct Hf].
  split; [by apply list_elem_of_fmap_2|by apply fresh_inv].
Qed.

Lemma csa_zero_ok c : csa_ok c csa_zero.
Proof.
  constructor; [by constructor|done|done|done|done|].
  split; [split; [cbn; lia|constructor]|]. by vm_compute.
Qed.

Lemma scan_zero_ok c : scan_ok c scan_zero.
Proof.
  constructor; [by constructor|by constructor|cbn; lia|done|].
  split; [split; [cbn; lia|constructor]|]. by vm_compute.
Qed.

Lemma start_main_ok content overlay port ok c : main_config content overlay port = Some c ->
  ensures (confined c) (started c) (main_start content overlay port ok).
Proof.
  intros Hm. pose proof (main_config_ok _ _ _ _ Hm) as Hc. pose proof (conf_start c Hc) as Hs.
  unfold main_start. rewrite Hm.
  eapply ensures_bind; [apply (bring_up_ok c Hc c iface_cache_zero Hs); by constructor; [constructor| |constructor]|]. intros [[rc c1] ic] (H1 & Et & Hi).
  cbn [fst snd] in *. destruct (negb ok); [by apply ensures_ret|].
  eapply ensures_read; [by apply perf_call|]. intros up.
  eapply (ensures_bind _ (Forall2 tunnel_inv (cfgs c))).
  { destruct H1 as [(Ek & _) Ht]. destruct (rc =? 0); [|by apply ensures_ret]. rewrite Ek, Et.
    eapply ensures_map_io; [by apply fresh_known|]. intros cfg t [[Hk Hi2] Hp].
    destruct (tc_autostart _); [|by apply ensures_ret].
    eapply ensures_bind; [by apply spawn_ok|]. intros r Hr. by apply ensures_ret. }
  intros ts Hts. apply ensures_ret. destruct H1 as [H1 _].
  constructor; cbn; [|done|by repeat constructor].
  constructor; cbn [gs_cfg gs_tunnels gs_ifaces gs_csa gs_scan gs_emit]; auto;
    [exact (csa_zero_ok c)|exact (scan_zero_ok c)|by left].
Qed.

(** ** Every state the supervisor reaches *)

(** The program as a transition system: the start-up, then turns of the loop with any answer
    of [poll] and any pending [SIGCHLD]. *)
Inductive reaches (content overlay : option string) (port : Z) : GWorld GEvent -> Main -> Prop :=
| reach_start ok m w : main_start content overlay port ok (Build_World 0 []) = (Some m, w) ->
    reaches content overlay port w m
| reach_turn w m p sigchld b m' w' : reaches content overlay port w m ->
    loop_turn tele p sigchld m w = ((b, m'), w') -> reaches content overlay port w' m'.

Lemma nested_pair {A B W} (r : (A * B) * W) : r = ((r.1.1, r.1.2), r.2).
Proof. by destruct r as [[a b] w]. Qed.

Lemma reaches_start content overlay port ok d :
  (if (main_start content overlay port ok (Build_World 0 [])).1 is Some _ then true else false) = true ->
  reaches content overlay port (main_start content overlay port ok (Build_World 0 [])).2
    (default d (main_start content overlay port ok (Build_World 0 [])).1).
Proof.
  intros H. apply (reach_start _ _ _ ok). revert H. by destruct (main_start _ _ _ _ _) as [[m|] w].
Qed.

Lemma reaches_turn content overlay port w m p sigchld : reaches content overlay port w m ->
  reaches content overlay port (loop_turn tele p sigchld m w).2 (loop_turn tele p sigchld m w).1.2.
Proof.
  intros H. eapply (reach_turn _ _ _ w m p sigchld); [exact H|].
  apply nested_pair.
Qed.

Lemma reaches_config content overlay port w m : reaches content overlay port w m ->
  is_Some (main_config content overlay port).
Proof.
  induction 1 as [ok m w H|]; [|done]. unfold main_start in H.
  destruct (main_config _ _ _); [done|]. by injection H.
Qed.

Lemma performed {A} P (m : GS A) w x w' : performs P m -> m w = (x, w') ->
  Forall P (w_trace w) -> Forall P (w_trace w').
Proof.
  intros H E Hw. destruct (H w) as (es & Et & He). rewrite E in Et. cbn in Et. rewrite Et.
  by apply Forall_app.
Qed.

Lemma reaches_ok content overlay port c w m : main_config content overlay port = Some c ->
  reaches content overlay port w m -> main_inv c m /\ Forall (confined c) (w_trace w).
Proof.
  intros Hm. pose proof (main_config_ok _ _ _ _ Hm) as Hc.
  induction 1 as [ok m w E|w m p sg b m' w' _ [IH1 IH2] E].
  - destruct (start_main_ok content overlay port ok c Hm) as [Hp Hq].
    specialize (Hq (Build_World 0 [])). rewrite E in Hq. split; [exact Hq|].
    by eapply performed.
  - destruct (turn_ok c Hc tele p sg m IH1) as [Hp Hq]. specialize (Hq w). rewrite E in Hq.
    split; [exact Hq|]. by eapply performed.
Qed.

(** (C2) The invariant of the whole ground supervisor holds in every state it reaches, for
    any two configuration files, any requests, reports and signals, and any behaviour of the
    kernel, the drivers and the children: a live process belongs to a running tunnel and a
    tunnel waiting for its restart has none; the backoff index and the adapter cache stay in
    their arrays, and no count for a rung is written outside the probe buckets or the
    histograms (such a write gives the array up in the model); an armed channel switch and a
    running scan name known adapters and valid channels; the two never own the radio together;
    and no piece of a request is received past the end of its buffer.  The one write known to
    leave its array, the time of a return_apfpv command, is taken to hit none of these. *)
Theorem supervisor_invariant content overlay port c w m :
  main_config content overlay port = Some c -> reaches content overlay port w m -> main_inv c m.
Proof. intros Hm Hr. by eapply reaches_ok. Qed.

(** (C4) The supervisor, run as root, executes nothing but what its configuration declares:
    in every reachable state every process it ever started is the declared vector of a
    configured tunnel, a configured system command, or [iw] on a configured adapter with a
    power in range; and shutting down keeps to that. *)
Theorem only_declared_processes content overlay port c w m :
  main_config content overlay port = Some c -> reaches content overlay port w m ->
  Forall (confined c) (w_trace w) /\ Forall (confined c) (w_trace (main_end m w).2).
Proof.
  intros Hm Hr. destruct (reaches_ok _ _ _ _ _ _ Hm Hr) as [Hi Hw]. split; [done|].
  destruct (end_ok c m Hi) as [Hp _]. eapply performed; [exact Hp|apply surjective_pairing|exact Hw].
Qed.
End Run.

(** ** A run *)

#[local] Existing Instance calm.
#[local] Existing Instance abi_lp64.

Definition no_pages : TelePages := fun _ _ _ => None.

(** The sample configuration starts, and turns once. *)
Definition sample_start : option Main * GWorld GEvent :=
  main_start (Some sample_text) None 0 true (Build_World 0 []).

Definition sample_main : Main := default (Build_Main (gs_start config_zero) [] 0) sample_start.1.

Definition sample_turn : (bool * Main) * GWorld GEvent :=
  loop_turn no_pages (PSome (Some 7) [RStats 0]) true sample_main sample_start.2.

#[local] Strategy expand [sample_start sample_main sample_turn].

Lemma sample_reaches : reaches no_pages (Some sample_text) None 0 sample_turn.2 sample_turn.1.2.
Proof.
  unfold sample_turn. apply reaches_turn. unfold sample_main, sample_start. apply reaches_start.
  vm_compute. reflexivity.
Qed.

Lemma sample_config_some : main_config (Some sample_text) None 0 = Some sample.
Proof. vm_compute. reflexivity. Qed.

Lemma supervisor_invariant_witness :
  main_config (Some sample_text) None 0 = Some sample /\
  main_inv sample sample_turn.1.2.
Proof.
  split; [exact sample_config_some|].
  exact (supervisor_invariant no_pages (Some sample_text) None 0 sample _ _
           sample_config_some sample_reaches).
Defined.

Lemma only_declared_processes_witness :
  length (List.filter (fun e => match e with GFork _ => true | _ => false end)
            (w_trace sample_turn.2)) = 25%nat /\
  Forall (confined sample) (w_trace sample_turn.2) /\
  Forall (confined sample) (w_trace (main_end sample_turn.1.2 sample_turn.2).2).
Proof.
  split; [vm_compute; reflexivity|].
  exact (only_declared_processes no_pages (Some sample_text) None 0 sample _ _
           sample_config_some sample_reaches).
Defined.
