(* ===== verification/GsReports.v ===== *)
(** * The reports of a scan and of a channel switch fit their buffers

    [/api/v1/scan], [/api/v1/csa] and the answer to [/api/v1/system/csa] append their pieces
    without a check of what is left.  The sizes of the fields, which the invariant of the
    supervisor keeps, are the reason that no report reaches the end of its buffer. *)

From S2P Require Import Prelude CFloat CString Strtod Decimal NumText Io Net GsText GsNet GsConfig.
From S2P Require Import GsProc GsState GsStats GsEmit GsRadio GsTunnel GsJson GsApi GsLoop GsLoad.
From S2P Require Import GsTime GsInv.

Local Open Scope list_scope.

(** ** Lengths of the pieces *)

Lemma strlen_quoted s : strlen (quoted s) = strlen s + 2.
Proof. unfold quoted. rewrite !strlen_app. change (strlen (str1 DQ)) with 1. lia. Qed.

Lemma strlen_key_is k v : strlen (key_is k v) = strlen k + 3 + strlen v.
Proof. unfold key_is. rewrite !strlen_app, strlen_quoted. change (strlen ":") with 1. lia. Qed.

Lemma strlen_key_str k v : strlen (key_str k v) = strlen k + 5 + strlen v.
Proof. unfold key_str. rewrite strlen_key_is, strlen_quoted. lia. Qed.

Lemma strlen_key_int k v : strlen (key_int k v) = strlen k + 3 + strlen (pretty v).
Proof. apply strlen_key_is. Qed.

Lemma strlen_commas_le n l : Forall (fun s => strlen s <= n) l ->
  strlen (commas l) <= Z.of_nat (length l) * (n + 1).
Proof.
  induction 1 as [|s l Hs Hl IH]; [done|]. cbn [commas]. destruct l as [|s' l].
  - cbn [length]. lia.
  - rewrite !strlen_app. change (strlen ",") with 1. cbn [length] in *. lia.
Qed.

Lemma strlen_commas_cons s s' l : strlen (commas (s :: s' :: l)) = strlen s + 1 + strlen (commas (s' :: l)).
Proof. cbn [commas]. rewrite !strlen_app. change (strlen ",") with 1. lia. Qed.

Lemma strlen_obj l : strlen (obj l) = 2 + strlen (commas l).
Proof.
  unfold obj. rewrite !strlen_app. change (strlen "{") with 1. change (strlen "}") with 1. lia.
Qed.

Lemma strlen_arr l : strlen (arr l) = 2 + strlen (commas l).
Proof.
  unfold arr. rewrite !strlen_app. change (strlen "[") with 1. change (strlen "]") with 1. lia.
Qed.

Lemma arr_le n k l : 0 <= n -> (length l <= k)%nat -> Forall (fun s => strlen s <= n) l ->
  strlen (arr l) <= 2 + Z.of_nat k * (n + 1).
Proof. intros Hn Hk Hl. rewrite strlen_arr. apply strlen_commas_le in Hl. nia. Qed.

Lemma ifaces_size l : names_short l -> strlen (arr (map quoted l)) <= 74.
Proof.
  intros [Hn Hl]. apply (arr_le 17 4); [done|by rewrite length_map|]. apply List.Forall_map.
  eapply List.Forall_impl; [|apply Hl]. intros s Hs. rewrite strlen_quoted. unfold IFNAMSIZ in Hs. lia.
Qed.

Lemma i64_range x : - 2 ^ 63 <= i64 x < 2 ^ 63.
Proof.
  unfold i64, swrap, wrap. pose proof (Z.mod_pos_bound x (2 ^ 64)) as H.
  change (64 - 1) with 63. destruct (Z.ltb_spec (x mod 2 ^ 64) (2 ^ 63)); lia.
Qed.

Lemma left_size n until now : strlen (printf_f n (ms_left until now)) <= 20 + Z.of_nat n.
Proof.
  apply (printf_f_length n _ 57 18); [lia..|]. apply millis_size.
  pose proof (i64_range (i64 until - i64 now)). lia.
Qed.

Lemma no_time_size n : strlen (printf_f n f0) <= 20 + Z.of_nat n.
Proof. by apply (printf_f_length n _ 57 18); [lia..|]. Qed.

Lemma bool_text_size b : strlen (bool_text b) <= 5.
Proof. by destruct b. Qed.

(** What a bounded number takes, as facts for [lia]. *)
Ltac digits v n := pose proof (pretty_length_nonneg v n ltac:(lia) ltac:(lia)).
Ltac signed v n := pose proof (pretty_length v n ltac:(lia) ltac:(lia)).
Ltac measure :=
  rewrite strlen_obj, !strlen_commas_cons; cbn [commas];
  rewrite ?strlen_key_str, ?strlen_key_int, ?strlen_key_is;
  repeat match goal with |- context [strlen (String ?a ?t)] =>
    let n := eval vm_compute in (strlen (String a t)) in change (strlen (String a t)) with n end.

(** ** The reports *)

Section Reports.
Context {EV : GsEnv} {ABI : CAbi} (tele : TelePages).

Lemma scan_report_size c now s : scan_ok c s -> strlen (scan_report now s) < SCAN_BODY.
Proof.
  intros [_ Hst Hn _ (Hi & Hs & Hf & Hh & Hd & Hc & _)]. unfold scan_report. cbn zeta.
  assert (exists ch ht, default (-1, EmptyString) (sc_steps s !! Z.to_nat (sc_cur_step s)) = (ch, ht) /\
    -1 <= ch <= 200 /\ strlen ht < 8) as (ch & ht & -> & Hch & Hht).
  { destruct (sc_steps s !! _) as [[ch ht]|] eqn:E; cbn; eexists _, _; (split; [done|]); [|done].
    rewrite Forall_forall in Hst. apply list_elem_of_lookup_2, Hst in E as [H1 H2].
    apply is_ht_short in H2. cbn in *. lia. }
  assert (0 <= scan_phase_num (sc_phase s) <= 3) as Hp by (by destruct (sc_phase s)).
  pose proof (ifaces_size _ Hi) as Hia.
  assert (strlen (arr (map (fun st : Z * string => pretty st.1) (sc_steps s))) <= 2 + Z.of_nat 32 * 4) as Hca.
  { apply (arr_le 3 32); [done|by rewrite length_map|]. apply List.Forall_map.
    eapply List.Forall_impl; [|exact Hst]. intros [a b] [Ha _]. cbn in *. digits a 3. lia. }
  match goal with |- context [printf_f 0 ?l] => assert (strlen (printf_f 0 l) <= 20) as Hl end.
  { destruct (bool_decide _); [apply (left_size 0)|apply (no_time_size 0)]. }
  unfold SCAN_MAX_STEPS in Hn. unfold SCAN_BODY. measure.
  digits (scan_phase_num (sc_phase s)) 1. digits (sc_sess s) 1. digits (sc_cur_step s) 2.
  digits (Z.of_nat (length (sc_steps s))) 2. digits (sc_hops_done s) 2. signed ch 3.
  signed (sc_found_chan s) 3. cbn [fst snd]. lia.
Qed.

Lemma csa_report_size c now s : csa_ok c s -> strlen (csa_report now s) < CSA_BODY.
Proof.
  intros [_ _ Hph Hfr _ (Hi & Hs & Ht & Htc & Hth & Hpc)]. unfold csa_report. cbn zeta.
  assert (0 <= csa_phase_num (cs_phase s) <= 3) as Hp by (by destruct (cs_phase s)).
  pose proof (ifaces_size _ Hi) as Hia. unfold INT_MIN, INT_MAX in *.
  match goal with |- context [printf_f 1 (if ?b || ?b' then ?l else f0)] =>
    assert (strlen (printf_f 1 (if b || b' then l else f0)) <= 21) as Hl
      by (destruct (b || b'); [apply (left_size 1)|apply (no_time_size 1)]);
    set (switch := if b || b' then l else f0) in * end.
  match goal with |- context [printf_f 1 (if ?b then ?l else f0)] =>
    assert (strlen (printf_f 1 (if b then l else f0)) <= 21) as Hr
      by (destruct b; [apply (left_size 1)|apply (no_time_size 1)]);
    set (revert := if b then l else f0) in * end.
  pose proof (bool_text_size (cs_no_revert s)). unfold CSA_BODY. measure.
  digits (csa_phase_num (cs_phase s)) 1. digits (cs_sess s) 10. digits (cs_frames_sent s) 1.
  digits (cs_frames_total s) 1. signed (cs_target_chan s) 10. signed (cs_prev_chan s) 10. lia.
Qed.

Lemma csa_answer_size c lead revert s : csa_ok c s -> 0 <= lead <= 5000 -> 0 <= revert <= 30000 ->
  strlen (csa_answer lead revert s) < CSA_BODY.
Proof.
  intros [_ _ Hph _ _ (Hi & Hs & _ & Htc & Hth & Hpc)] Hl Hr. unfold csa_answer.
  pose proof (ifaces_size _ Hi) as Hia. unfold INT_MIN, INT_MAX in *.
  pose proof (bool_text_size (cs_no_revert s)). unfold CSA_BODY. measure.
  digits (cs_sess s) 10. signed (cs_target_chan s) 10. signed (cs_prev_chan s) 10.
  digits lead 4. digits revert 5. lia.
Qed.

Lemma reported_fits cap s : strlen s < cap -> reported cap s = 200.
Proof. intros H. unfold reported. by rewrite (proj2 (Z.ltb_lt _ _) H). Qed.

(** In every state the supervisor reaches, both reports are answered whole, whatever the clock. *)
Theorem reports_fit content overlay port w m now : reaches tele content overlay port w m ->
  reported SCAN_BODY (scan_report now (gs_scan (mn_gs m))) = 200 /\
  reported CSA_BODY (csa_report now (gs_csa (mn_gs m))) = 200.
Proof.
  intros Hr. destruct (reaches_config _ _ _ _ _ _ Hr) as [c Hm].
  destruct (reaches_ok _ _ _ _ _ _ _ Hm Hr) as [[[] _ _] _].
  split; apply reported_fits; [by eapply scan_report_size|by eapply csa_report_size].
Qed.

(** The channel width to go back to is not checked: a quote is kept and printed. *)
Example prev_ht_quote : csa_prev_ht (Some "prev_ht=%22"%string) = str1 DQ.
Proof. reflexivity. Qed.

Lemma clamp_int_range lo hi v : lo <= hi -> lo <= clamp_int lo hi v <= hi.
Proof.
  intros H. unfold clamp_int. cbn zeta. destruct (Z.ltb_spec v lo).
  - destruct (Z.gtb_spec lo hi); lia.
  - destruct (Z.gtb_spec v hi); lia.
Qed.

(** A request for a switch is answered with one of the five codes: its own report, of the
    switch it armed from a query of any text, fits as well. *)
Theorem csa_answer_fits c qs g w : gs_inv c g ->
  In (route_csa qs g w).1.1 [200; 400; 404; 409; 503].
Proof.
  intros H. unfold route_csa.
  repeat match goal with
    | |- In (io_ret (_, _) _).1.1 _ => cbn; tauto
    | |- context [iface_list ?x] => destruct (iface_list x) as [[|i ifs]|] eqn:El
    | |- context [qs_text qs ?k] => destruct (qs_text qs k)
    | |- context [qs_get_int qs ?k] => destruct (qs_get_int qs k) as [chan|]
    | |- context [tx_port ?x ?y] => destruct (tx_port x y)
    | |- context [if ?b then _ else _] => destruct b eqn:?; cbn zeta
    end.
  unfold io_bind. destruct (now_us w) as [now w']. cbn [io_ret fst].
  rewrite reported_fits; [left; done|].
  pose proof (clamp_int_range 100 5000 (qs_int_or 500 qs "lead_ms") ltac:(lia)).
  pose proof (clamp_int_range 500 30000 (qs_int_or 3000 qs "t_revert_ms") ltac:(lia)).
  apply (csa_answer_size c); [|unfold csa_lead; lia|unfold csa_revert; lia].
  apply csa_armed_ok; [by eapply known_ifaces_in; [|apply negb_false_iff]|by eapply iface_list_short|].
  split; [lia|by apply negb_false_iff].
Qed.

End Reports.
