(* ===== verification/GsLife.v ===== *)
(** * Lives of tunnels, switches and scans

    What the supervisor promises over many turns: a stopped tunnel stays down and is killed if
    it will not go; a crashed one comes back after its backoff; a channel switch and a scan
    come to an end. *)

From S2P Require Import Prelude CString Io Net GsText GsNet GsConfig GsProc GsState GsStats.
From S2P Require Import GsEmit GsRadio GsTunnel GsJson GsApi GsLoop GsTime GsInv.

Local Open Scope list_scope.

Section Life.
Context {EV : GsEnv} {ABI : CAbi}.

(** ** A stopped tunnel *)

(** What the supervisor does to a tunnel on its own. *)
Inductive Upkeep := UTick (t_ms t_us : Z) | UExit (st : WStatus) | UDrain (sc : ScanState).

Definition upkeep_one (key_file : string) (u : Upkeep) (t : Tunnel) : GS Tunnel :=
  match u with
  | UTick t_ms t_us => tick_tunnel key_file t_ms t_us t
  | UExit st => tunnel_on_exit st t
  | UDrain sc => let! r := stats_drain t sc in io_ret r.1
  end.

Fixpoint upkeep (key_file : string) (us : list Upkeep) (t : Tunnel) : GS Tunnel :=
  match us with
  | [] => io_ret t
  | u :: us => let! t := upkeep_one key_file u t in upkeep key_file us t
  end.

(** Not to come back. *)
Definition parked (t : Tunnel) : Prop :=
  t_autostart_on_exit t = false /\ t_state t <> TS_BACKOFF.

Lemma refresh_radio_keeps (P : Tunnel -> Prop) t : (forall f u, P u -> P (on_tx f u)) -> P t ->
  ensures forkless (fun r => P r.2) (wfb_cmd_refresh_radio t).
Proof.
  intros Hf H. assert (forall port id c cap, free (wfb_cmd_round_trip port id c cap)) as Hr
    by (intros; unfold wfb_cmd_round_trip; perf).
  assert (free wfb_cmd_next_req_id) by (intros w; exists []; by split).
  unfold wfb_cmd_refresh_radio. destruct (_ <=? 0); [by apply ensures_ret|].
  ens_read. ens_read. destruct x0 as [[n bs] rc]. destruct (_ || _); [by apply ensures_ret|].
  cbn zeta. ens_read. apply ensures_ret. by apply Hf.
Qed.

Lemma refresh_fec_keeps (P : Tunnel -> Prop) t : (forall f u, P u -> P (on_tx f u)) -> P t ->
  ensures forkless (fun r => P r.2) (wfb_cmd_refresh_fec t).
Proof.
  intros Hf H. assert (forall port id c cap, free (wfb_cmd_round_trip port id c cap)) as Hr
    by (intros; unfold wfb_cmd_round_trip; perf).
  assert (free wfb_cmd_next_req_id) by (intros w; exists []; by split).
  unfold wfb_cmd_refresh_fec. destruct (_ <=? 0); [by apply ensures_ret|].
  ens_read. ens_read. destruct x0 as [[n bs] rc]. destruct (_ || _); [by apply ensures_ret|].
  apply ensures_ret. by apply Hf.
Qed.

Lemma query_keeps (P : Tunnel -> Prop) t_us t : (forall f u, P u -> P (on_tx f u)) ->
  (forall n u, P u -> P (u <| t_tx_init_query_after_us := n |>)) -> P t ->
  ensures forkless P (tick_query t_us t).
Proof.
  intros Hf Hq H. unfold tick_query. destruct (_ && _); [|by apply ensures_ret]. cbn zeta.
  eapply ensures_bind; [apply refresh_radio_keeps; [done|by apply Hq]|]. intros [rc t3] H3. cbn [fst snd] in *.
  eapply (ensures_bind _ (fun r => P r.2)).
  { apply refresh_fec_keeps; [done|]. destruct (rc =? 0); [done|by apply Hq]. }
  intros [rc' t4] H4. by apply ensures_ret.
Qed.

Lemma parked_tick key_file t_ms t_us t : parked t ->
  ensures forkless parked (tick_tunnel key_file t_ms t_us t).
Proof.
  intros H. unfold tick_tunnel. eapply (ensures_bind _ parked).
  { unfold tick_kill, kill. destruct (_ && _); [|by apply ensures_ret]. ens_read. by apply ensures_ret. }
  intros t1 H1. eapply (ensures_bind _ parked).
  { unfold tick_respawn. destruct (bool_decide _) eqn:E; [|by apply ensures_ret].
    apply bool_decide_eq_true in E. by destruct H1. }
  intros t2 H2. by apply query_keeps.
Qed.

Lemma parked_exit st t : parked t -> ensures forkless parked (tunnel_on_exit st t).
Proof.
  intros [Ha Hs]. unfold tunnel_on_exit, now_us. ens_read. cbn zeta.
  match goal with |- context [negb (t_autostart_on_exit ?u)] =>
    change (t_autostart_on_exit u) with (t_autostart_on_exit t) end.
  rewrite Ha. cbn [negb]. apply ensures_ret. by split.
Qed.

(** *** Reports do not touch the lifecycle *)

Definition life (t : Tunnel) : TunnelCfg * TunnelState * Z * bool * Z * Z * Z :=
  (t_cfg t, t_state t, t_pid t, t_autostart_on_exit t, t_backoff_idx t, t_next_start_ms t,
   t_stop_deadline_ms t).

Lemma probe_life u l m r now t : ensures forkless (fun t' => life t' = life t) (probe_accumulate u l m r now t).
Proof.
  assert (forall ts win t m bs e, free (flush_buckets ts win t m bs e)) as Hf.
  { intros ts win t' m' bs. revert m'. induction bs as [|b bs IH]; intros m' e; cbn [flush_buckets];
      unfold forward; perf. }
  unfold probe_accumulate. cbn zeta. destruct (_ <=? _); [|by apply ensures_ret].
  unfold probe_window_flush. cbn zeta. ens_read. ens_read. by apply ensures_ret.
Qed.

Lemma rx_life buf t sc : ensures forkless (fun r => life r.1 = life t) (drain_rx_ant buf t sc).
Proof.
  unfold drain_rx_ant, scan_note. cbn zeta.
  eapply ensures_read; [perf|]. intros sc1. ens_read.
  match goal with |- context [tc_probe (t_cfg ?x)] => assert (life x = life t) as E; [|set (t1 := x) in *] end.
  { destruct (_ =? INT_MIN); unfold pick_to; by destruct (json_slice_object buf "pkt"). }
  clearbody t1. destruct (tc_probe _); [|by apply ensures_ret]. ens_read.
  eapply ensures_bind; [apply probe_life|]. intros t2 H2. apply ensures_ret. cbn. congruence.
Qed.

Lemma drain_one_life got t sc : ensures forkless (fun r => life r.1 = life t) (drain_one got t sc).
Proof.
  unfold drain_one. cbn zeta. destruct (nonempty _); [|by apply ensures_ret].
  assert (forall d s, free (forward d s)) as Hfw by (intros; unfold forward; perf).
  ens_read. ens_read.
  match goal with |- context [io_ret (?x, sc)] => assert (life x = life t) as E; [|set (t1 := x) in *] end.
  { unfold pick_to. by destruct (json_pick_u32 _ _). }
  clearbody t1. destruct (_ && _); [by apply ensures_ret|].
  eapply (ensures_bind _ (fun r => life r.1 = life t)).
  { destruct (contains _ _); [|by apply ensures_ret]. rewrite <- E. apply rx_life. }
  intros [t2 sc2] H2. cbn [fst] in H2. eapply (ensures_bind _ (fun t' => life t' = life t)).
  { destruct (contains _ _); [|by apply ensures_ret]. unfold drain_tx_stats, pick_to. cbn zeta.
    destruct (json_slice_object _ "radio"); [ens_read|]; apply ensures_ret;
      by destruct (json_slice_object _ "tx"). }
  intros t3 H3. ens_read. apply ensures_ret. cbn [fst]. by destruct (_ =? 0).
Qed.

Lemma drain_life t sc : ensures forkless (fun r => life r.1 = life t) (stats_drain t sc).
Proof.
  unfold stats_drain. ens_read. revert t sc. induction x as [|got l IH]; intros t sc; cbn [drain_list].
  { by apply ensures_ret. }
  eapply ensures_bind; [apply drain_one_life|]. intros [t1 sc1] E. cbn [fst snd] in *. rewrite <- E. apply IH.
Qed.

Lemma parked_life t t' : life t' = life t -> parked t -> parked t'.
Proof. intros [= _ E1 _ E2 _ _ _]. unfold parked. by rewrite E1, E2. Qed.

Lemma parked_upkeep key_file us : forall t, parked t -> ensures forkless parked (upkeep key_file us t).
Proof.
  induction us as [|u us IH]; intros t H; cbn [upkeep]; [by apply ensures_ret|].
  eapply ensures_bind; [|exact IH]. destruct u as [t_ms t_us|st|sc]; cbn [upkeep_one].
  - by apply parked_tick.
  - by apply parked_exit.
  - eapply ensures_bind; [apply drain_life|]. intros [t1 sc1] E. apply ensures_ret. by eapply parked_life.
Qed.

(** (C19) Stop is final: a tunnel the operator has stopped is never started again by the
    supervisor itself, through any sequence of ticks, exits of its process and reports, at any
    times and however the process ended; nothing is executed for it. *)
Theorem stop_is_final cfg key_file us t : tunnel_inv cfg t ->
  ensures forkless parked (let! t := tunnel_request_stop t in upkeep key_file us t).
Proof.
  intros H. eapply ensures_bind; [|apply parked_upkeep].
  unfold tunnel_request_stop, now_ms, now_us, kill. destruct (Z.leb_spec (t_pid t) 0) as [Hp|Hp].
  - by apply ensures_ret.
  - eapply ensures_read; [perf|]. intros now. ens_read. apply ensures_ret. split; [done|].
    cbn. by rewrite (ti_live _ _ H Hp).
Qed.

(** ** A crashed tunnel *)

(** The clock as the next call reads it. *)
Definition now_after (w : GW) : Z := ge_clock_us (GNow :: w_trace w).

Lemma backoff_law i : 0 <= i < GS_BACKOFF_LEN -> backoff_ms i = Z.min (500 * 2 ^ i) 30000.
Proof.
  unfold GS_BACKOFF_LEN. intros H.
  assert (i = 0 \/ i = 1 \/ i = 2 \/ i = 3 \/ i = 4 \/ i = 5 \/ i = 6) as Hi by lia.
  by repeat destruct Hi as [->|Hi]; [..|rewrite Hi].
Qed.

(** The state after an exit that is to be followed by a restart. *)
Definition crashed (t : Tunnel) (now_ms : Z) (t' : Tunnel) : Prop :=
  t_state t' = TS_BACKOFF /\ t_pid t' = -1 /\ t_stats_fd t' = t_stats_fd t /\
  (forall key_file, build_argv t' key_file = build_argv t key_file) /\
  t_next_start_ms t' = u64 (now_ms + Z.min (500 * 2 ^ t_backoff_idx t) 30000) /\
  t_backoff_idx t' = Z.min (t_backoff_idx t + 1) (GS_BACKOFF_LEN - 1).

Lemma exit_crashed st t w : t_autostart_on_exit t = true -> 0 <= t_backoff_idx t < GS_BACKOFF_LEN ->
  exists t' now, tunnel_on_exit st t w = (t', Build_World (w_req_id w) (GNow :: GNow :: w_trace w)) /\
    now = ge_clock_us (GNow :: GNow :: w_trace w) `quot` 1000 /\ crashed t now t'.
Proof.
  intros Ha Hi. unfold tunnel_on_exit, io_bind at 1, now_us, call. cbn [fst snd].
  match goal with |- context [negb (t_autostart_on_exit ?u)] =>
    change (t_autostart_on_exit u) with (t_autostart_on_exit t) end.
  rewrite Ha. cbn [negb]. unfold now_ms, now_us, call, io_bind, io_ret. cbn [fst snd].
  eexists _, _. split; [reflexivity|]. split; [reflexivity|]. unfold crashed.
  match goal with |- context [t_backoff_idx ?u >=? GS_BACKOFF_LEN] =>
    change (t_backoff_idx u) with (t_backoff_idx t) end.
  replace (t_backoff_idx t >=? GS_BACKOFF_LEN) with false by lia.
  rewrite backoff_law by done.
  match goal with |- context [t_backoff_idx ?u <? GS_BACKOFF_LEN - 1] =>
    change (t_backoff_idx u) with (t_backoff_idx t) end.
  unfold GS_BACKOFF_LEN in *. destruct (Z.ltb_spec (t_backoff_idx t) (7 - 1)); cbn; split_and!; try done; lia.
Qed.

Lemma waiting_tick key_file t_ms t_us t : t_state t = TS_BACKOFF -> t_ms < t_next_start_ms t ->
  performs forkless (tick_tunnel key_file t_ms t_us t).
Proof.
  intros Hs Hn. set (P := fun u => t_next_start_ms u = t_next_start_ms t).
  cut (ensures forkless P (tick_tunnel key_file t_ms t_us t)); [by intros []|].
  unfold tick_tunnel. eapply (ensures_bind _ P).
  { unfold tick_kill, kill. destruct (_ && _); [ens_read|]; by apply ensures_ret. }
  intros t1 H1. eapply (ensures_bind _ P).
  { unfold tick_respawn. unfold P in H1. rewrite H1. replace (t_next_start_ms t <=? t_ms) with false by lia.
    rewrite andb_false_r. by apply ensures_ret. }
  intros t2 H2. by apply query_keeps.
Qed.

Lemma spawn_run key_file t argv w : 0 <= t_stats_fd t -> build_argv t key_file = Some argv ->
  tunnel_spawn key_file t w =
  match ge_fork (GFork argv :: w_trace w) with
  | Some pid => (0, tunnel_started pid (ge_clock_us (GNow :: GFork argv :: w_trace w)) t,
                 Build_World (w_req_id w) (GNow :: GFork argv :: w_trace w))
  | None => (-1, t <| t_state := TS_FAILED |>, Build_World (w_req_id w) (GFork argv :: w_trace w))
  end.
Proof.
  intros Hfd Hb. unfold tunnel_spawn, stats_listener_open. replace (0 <=? t_stats_fd t) with true by lia.
  unfold io_bind, io_ret. rewrite Hb. destruct w as [rid tr]. unfold fork_exec, call, now_us.
  cbn -[tunnel_started]. by destruct (ge_fork (GFork argv :: tr)).
Qed.

Lemma started_running pid now t :
  t_state (tunnel_started pid now t) = TS_RUNNING /\ t_pid (tunnel_started pid now t) = pid.
Proof.
  unfold tunnel_started, reset_counters. cbn zeta.
  destruct (is_tx _ && _); match goal with |- context [is_rx ?x] => destruct (is_rx x) end; by split.
Qed.

(** What a tick does for a tunnel whose time has come. *)
Lemma due_respawn key_file t_ms t w : t_state t = TS_BACKOFF -> t_next_start_ms t <= t_ms ->
  tick_respawn key_file t_ms t w =
  ((tunnel_spawn key_file t w).1.2, (tunnel_spawn key_file t w).2).
Proof.
  intros Hs Hn. unfold tick_respawn. rewrite Hs.
  replace (bool_decide (TS_BACKOFF = TS_BACKOFF) && (t_next_start_ms t <=? t_ms)) with true
    by (rewrite bool_decide_true by done; lia).
  unfold io_bind, io_ret. by destruct (tunnel_spawn key_file t w).
Qed.

(** (C20) A crash is answered by a restart, at the time of the code's own table and with the
    right command: when the process of a tunnel ends unasked, whatever its status, the tunnel
    waits 500 ms doubled for every exit before this one that the backoff index counts, up to
    30 s ([GS_BACKOFF_MS]; the delays 1 s, 2 s, 4 s of the design document are not those of the
    code), and the index counts this exit; no tick before that time starts anything for it; the
    first tick at or after it forks for exactly the tunnel's declared vector, after which the
    tunnel runs with the new process or, when the fork was refused, has failed. *)
Theorem crash_is_restarted st key_file argv t w :
  t_autostart_on_exit t = true -> 0 <= t_backoff_idx t < GS_BACKOFF_LEN -> 0 <= t_stats_fd t ->
  build_argv t key_file = Some argv ->
  let '(t1, w1) := tunnel_on_exit st t w in
  crashed t (ge_clock_us (w_trace w1) `quot` 1000) t1 /\
  (forall t_ms t_us, t_ms < t_next_start_ms t1 -> performs forkless (tick_tunnel key_file t_ms t_us t1)) /\
  (forall t_ms w2, t_next_start_ms t1 <= t_ms ->
     let '(t2, w3) := tick_respawn key_file t_ms t1 w2 in
     GFork argv ∈ w_trace w3 /\
     match ge_fork (GFork argv :: w_trace w2) with
     | Some pid => t_state t2 = TS_RUNNING /\ t_pid t2 = pid
     | None => t_state t2 = TS_FAILED
     end).
Proof.
  intros Ha Hi Hfd Hb. destruct (exit_crashed st t w Ha Hi) as (t1 & now & E & -> & Hc).
  rewrite E. cbn [w_trace]. split; [exact Hc|].
  destruct Hc as (Hs & _ & Efd & Eb & _). split; [intros; by apply waiting_tick|].
  intros t_ms w2 Hn. rewrite (due_respawn key_file t_ms t1 w2 Hs Hn).
  rewrite (spawn_run key_file t1 argv w2); [|by rewrite Efd|by rewrite Eb].
  destruct (ge_fork _) as [pid|]; cbn -[tunnel_started].
  - split; [right; left|]. apply started_running.
  - split; [left|done].
Qed.

(** ** A channel switch *)

(** *** Results alone *)

Definition results {A} (Q : A -> Prop) (m : GS A) : Prop := forall w, Q (m w).1.

Lemma results_ret {A} (Q : A -> Prop) x : Q x -> results Q (io_ret x).
Proof. by intros H w. Qed.

Lemma results_bind {A B} (Q : A -> Prop) (R : B -> Prop) (m : GS A) (f : A -> GS B) :
  results Q m -> (forall x, Q x -> results R (f x)) -> results R (io_bind m f).
Proof. intros Hm Hf w. unfold io_bind. specialize (Hm w). destruct (m w) as [x w']. by apply Hf. Qed.

Lemma results_any {A B} (R : B -> Prop) (m : GS A) (f : A -> GS B) :
  (forall x, results R (f x)) -> results R (io_bind m f).
Proof. intros Hf. by apply (results_bind (fun _ => True)). Qed.

(** *** The orchestrator *)

(** What its progress depends on. *)
Definition view (s : CsaState) : CsaPhase * Z * Z * Z * Z :=
  (cs_phase s, cs_frames_sent s, cs_frames_total s, cs_t_switch_us s, cs_t_revert_us s).

Lemma send_keeps c s : results (fun r => view r.2 = view s) (csa_send_commit_frame c s).
Proof.
  unfold csa_send_commit_frame. destruct (tx_port _ _) as [port|]; [|by apply results_ret].
  apply results_any. intros now. cbn zeta. destruct (_ >=? _); [by apply results_ret|].
  apply results_any. intros [err|]; [by apply results_ret|]. apply results_any. intros w.
  by apply results_ret.
Qed.

(** A tick after both deadlines ends the switch, unless it only sends one more frame. *)
Definition one_more (t : Z) (s s' : CsaState) : Prop :=
  view s' = (CSA_BURST, cs_frames_sent s + 1, cs_frames_total s, cs_t_switch_us s, cs_t_revert_us s) /\
  cs_frames_sent s + 1 < cs_frames_total s /\ cs_next_frame_us s' = u64 (t + 20000).

Definition late (t : Z) (s : CsaState) : Prop := cs_t_switch_us s <= t /\ cs_t_revert_us s <= t.

Lemma late_burst t c s : late t s -> cs_next_frame_us s <= t ->
  (cs_phase s = CSA_BURST -> cs_frames_sent s < cs_frames_total s) ->
  results (fun s' => late t s' /\ (cs_phase s' <> CSA_BURST \/ cs_phase s = CSA_BURST /\ one_more t s s'))
    (csa_burst t c s).
Proof.
  intros Hl Hn Hb. unfold csa_burst. destruct (decide (cs_phase s = CSA_BURST)) as [E|E].
  2:{ rewrite bool_decide_false by done. apply results_ret. auto. }
  rewrite bool_decide_true by done.
  replace (true && (cs_next_frame_us s <=? t) && (cs_frames_sent s <? cs_frames_total s)) with true
    by (specialize (Hb E); lia).
  eapply results_bind; [apply send_keeps|]. intros [rc s1] Hv. cbn [fst snd] in *.
  injection Hv as V1 V2 V3 V4 V5.
  assert (late t s1) as L1 by (unfold late; rewrite V4, V5; exact Hl).
  destruct (negb _); apply results_ret; [split; [exact L1|by left]|]. cbn zeta.
  match goal with |- context [if ?b then _ else _] => destruct b eqn:Ev end.
  { split; [exact L1|by left]. }
  split; [exact L1|]. right. split; [done|]. split; [|split; [|reflexivity]].
  - change (view (s1 <| cs_frames_sent := cs_frames_sent s1 + 1 |> <| cs_next_frame_us := u64 (t + 20000) |>))
      with (cs_phase s1, cs_frames_sent s1 + 1, cs_frames_total s1, cs_t_switch_us s1, cs_t_revert_us s1).
    by rewrite V1, V2, V3, V4, V5, E.
  - rewrite <- V2, <- V3. apply Z.leb_gt in Ev. exact Ev.
Qed.

(** After the burst part, the other two follow in the same tick. *)
Lemma late_rest t c s ic : late t s ->
  results (fun r => cs_phase s <> CSA_BURST -> cs_phase r.1 = CSA_IDLE)
    (let! r := csa_switch t c s ic in csa_verify t c r.1 r.2) /\
  (cs_phase s = CSA_BURST -> results (fun r => r.1 = s) (let! r := csa_switch t c s ic in csa_verify t c r.1 r.2)).
Proof.
  intros [H1 H2]. split.
  - eapply (results_bind (fun r => late t r.1 /\
      (cs_phase s <> CSA_BURST -> cs_phase r.1 = CSA_IDLE \/ cs_phase r.1 = CSA_VERIFY))).
    { unfold csa_switch. destruct (cs_phase s) eqn:E; cbn [bool_decide].
      all: try (rewrite bool_decide_false by done; apply results_ret; split; [by split|]; intros; cbn; auto; done).
      rewrite bool_decide_true by done. rewrite (proj2 (Z.leb_le _ _)) by done. cbn [andb]. cbn zeta.
      apply results_any. intros ic'. apply results_ret. cbn. split; [by split|auto]. }
    intros [s1 ic1] [[L1 L2] H]. cbn [fst snd] in *. unfold csa_verify.
    destruct (bool_decide _ && _) eqn:E.
    + apply results_any. intros ic'. by apply results_ret.
    + apply results_ret. cbn. intros Hs. destruct (H Hs) as [|Ev]; [done|].
      rewrite Ev, (proj2 (Z.leb_le _ _)) in E by done. by rewrite bool_decide_true in E.
  - intros E. unfold csa_switch. rewrite E. rewrite bool_decide_false by done. cbn [andb].
    intros w. unfold io_bind, io_ret, csa_verify. cbn [fst snd]. by rewrite E, bool_decide_false.
Qed.

Lemma late_tick t g : late t (gs_csa g) -> cs_next_frame_us (gs_csa g) <= t ->
  (cs_phase (gs_csa g) = CSA_BURST -> cs_frames_sent (gs_csa g) < cs_frames_total (gs_csa g)) ->
  results (fun g' => cs_phase (gs_csa g') = CSA_IDLE \/
    cs_phase (gs_csa g) = CSA_BURST /\ one_more t (gs_csa g) (gs_csa g')) (csa_tick t g).
Proof.
  intros Hl Hn Hb. unfold csa_tick. cbn zeta.
  eapply results_bind; [by apply late_burst|]. intros s1 [L1 H1].
  destruct (late_rest t (gs_cfg g) s1 (gs_ifaces g) L1) as [R1 R2].
  intros w. unfold results, io_bind in *.
  destruct (csa_switch t (gs_cfg g) s1 (gs_ifaces g) w) as [[s2 ic2] w2] eqn:E1. cbn [fst snd].
  destruct (csa_verify t (gs_cfg g) s2 ic2 w2) as [[s3 ic3] w3] eqn:E2. cbn [fst snd io_ret].
  specialize (R1 w). rewrite E1 in R1. cbn [fst snd] in R1. rewrite E2 in R1.
  destruct H1 as [H1|[H1 H2]]; [left; by apply R1|].
  assert (cs_phase s1 = CSA_BURST) as E by (by destruct H2 as [[= ? _ _ _ _] _]).
  specialize (R2 E w). rewrite E1 in R2. cbn [fst snd] in R2. rewrite E2 in R2. cbn in R2. subst s3.
  by right.
Qed.

Fixpoint csa_ticks (ts : list Z) (g : Gs) : GS Gs :=
  match ts with [] => io_ret g | t :: ts => let! g := csa_tick t g in csa_ticks ts g end.

(** Times at least [d] apart, from [t0] on. *)
Fixpoint every (d t0 : Z) (ts : list Z) : Prop :=
  match ts with [] => True | t :: ts => t0 <= t < 2 ^ 63 /\ every d (t + d) ts end.

Lemma idle_tick t g : cs_phase (gs_csa g) = CSA_IDLE ->
  results (fun g' => cs_phase (gs_csa g') = CSA_IDLE) (csa_tick t g).
Proof.
  intros H w. unfold csa_tick, io_bind. cbn zeta.
  assert (csa_burst t (gs_cfg g) (gs_csa g) w = (gs_csa g, w)) as ->
    by (unfold csa_burst; by rewrite H).
  assert (csa_switch t (gs_cfg g) (gs_csa g) (gs_ifaces g) w = ((gs_csa g, gs_ifaces g), w)) as ->
    by (unfold csa_switch; by rewrite H). cbn [fst snd].
  assert (csa_verify t (gs_cfg g) (gs_csa g) (gs_ifaces g) w = ((gs_csa g, gs_ifaces g), w)) as ->
    by (unfold csa_verify; by rewrite H). exact H.
Qed.

Lemma idle_ticks ts : forall g, cs_phase (gs_csa g) = CSA_IDLE ->
  results (fun g' => cs_phase (gs_csa g') = CSA_IDLE) (csa_ticks ts g).
Proof.
  induction ts as [|t ts IH]; intros g H; cbn [csa_ticks]; [by apply results_ret|].
  eapply results_bind; [by apply idle_tick|exact IH].
Qed.

(** (C21) Every channel switch comes to an end: once both deadlines have passed, as many ticks
    as there are frames left to send, at least 20 ms apart, bring the orchestrator back to
    idle, so that it can be asked again, whatever the sockets, [iw] and the counters do. *)
Theorem switch_completes ts : forall g,
  (cs_phase (gs_csa g) = CSA_BURST -> cs_frames_sent (gs_csa g) < cs_frames_total (gs_csa g)) ->
  Forall (fun t => late t (gs_csa g)) ts -> every 20000 (cs_next_frame_us (gs_csa g)) ts ->
  0 <= cs_next_frame_us (gs_csa g) -> ts <> [] ->
  cs_frames_total (gs_csa g) - cs_frames_sent (gs_csa g) <= Z.of_nat (length ts) ->
  results (fun g' => cs_phase (gs_csa g') = CSA_IDLE) (csa_ticks ts g).
Proof.
  induction ts as [|t ts IH]; intros g Hb Hl He H0 Hne Hn; [done|]. cbn [csa_ticks].
  apply Forall_cons in Hl as [Ht Hl]. destruct He as [Hd He].
  eapply results_bind; [apply late_tick; [done|lia|done]|]. intros g1 [H|(Hp & Hv & Hlt & Hx)].
  { by apply idle_ticks. }
  injection Hv as V1 V2 V3 V4 V5. specialize (Hb Hp). cbn [length] in Hn. apply IH.
  - intros _. rewrite V2, V3. exact Hlt.
  - eapply Forall_impl; [exact Hl|]. intros u. unfold late. by rewrite V4, V5.
  - rewrite Hx, u64_small by lia. exact He.
  - rewrite Hx, u64_small by lia. lia.
  - intros ->. cbn [length] in Hn. lia.
  - rewrite V2, V3. lia.
Qed.

(** ** A scan *)

(** The channels still to be tried. *)
Definition to_try (s : ScanState) : Z :=
  if bool_decide (sc_phase s = SCAN_RUNNING) then Z.of_nat (length (sc_steps s)) - sc_cur_step s else 0.

Lemma to_try_done s : sc_phase s <> SCAN_RUNNING -> to_try s = 0.
Proof. intros H. unfold to_try. by rewrite bool_decide_false. Qed.

Lemma apply_keeps c i s : 0 <= i < Z.of_nat (length (sc_steps s)) ->
  results (fun s' => sc_phase s' = sc_phase s /\ sc_steps s' = sc_steps s /\ sc_cur_step s' = i)
    (scan_apply_step_drained c i s).
Proof.
  intros Hi. unfold scan_apply_step_drained. rewrite (proj2 (Z.ltb_ge i 0)) by lia.
  destruct (lookup_lt_is_Some_2 (sc_steps s) (Z.to_nat i) ltac:(lia)) as [[chan ht] ->].
  apply results_any. intros _. cbn zeta. apply results_any. intros _. apply results_any. intros now.
  by apply results_ret.
Qed.

(** The dwell of the current step is over. *)
Definition due (t : Z) (s : ScanState) : bool :=
  bool_decide (sc_phase s = SCAN_RUNNING) &&
  negb (t <? u64 (sc_step_started_us s + sc_step_dwell_us s)).

Lemma scan_tick_progress t g : 
  (sc_phase (gs_scan g) = SCAN_RUNNING -> 0 <= sc_cur_step (gs_scan g) < Z.of_nat (length (sc_steps (gs_scan g)))) ->
  results (fun g' =>
    (sc_phase (gs_scan g') = SCAN_RUNNING ->
       0 <= sc_cur_step (gs_scan g') < Z.of_nat (length (sc_steps (gs_scan g')))) /\
    to_try (gs_scan g') + (if due t (gs_scan g) then 1 else 0) <= to_try (gs_scan g))
    (scan_tick t g).
Proof.
  intros Hc. unfold scan_tick, due. cbn zeta. set (s := gs_scan g) in *.
  destruct (bool_decide (sc_phase s = SCAN_RUNNING)) eqn:Er; cbn [negb andb].
  2:{ apply results_ret. split; [done|]. fold s. lia. }
  apply bool_decide_eq_true in Er. specialize (Hc Er).
  destruct (t <? _); cbn [negb]; [apply results_ret; split; [done|fold s; lia]|].
  assert (to_try s = Z.of_nat (length (sc_steps s)) - sc_cur_step s) as Et
    by (unfold to_try; by rewrite bool_decide_true).
  destruct (sc_step_saw_traffic _).
  - apply results_any. intros ic. apply results_ret. split; [done|]. rewrite Et, to_try_done by done. lia.
  - destruct (_ <=? _) eqn:En.
    + apply results_any. intros ic. apply results_ret. split; [done|]. rewrite Et, to_try_done by done. lia.
    + eapply results_bind; [apply apply_keeps; cbn in *; lia|]. intros s' (E1 & E2 & E3).
      apply results_ret. cbn in E1, E2, E3. cbn [gs_scan]. unfold to_try. 
      change (sc_phase (s' <| sc_step_saw_traffic := false |>)) with (sc_phase s').
      cbn in En |- *. rewrite E1, Er, E2, E3. rewrite !bool_decide_true by done.
      split; [intros _|]; lia.
Qed.

Fixpoint scan_ticks (ts : list Z) (g : Gs) : GS (Z * Gs) :=
  match ts with
  | [] => io_ret (0, g)
  | t :: ts =>
      let! g' := scan_tick t g in
      let! r := scan_ticks ts g' in
      io_ret ((if due t (gs_scan g) then 1 else 0) + r.1, r.2)
  end.

(** A scan comes to an end: in any sequence of ticks the number of dwells that run out is
    at most the number of channels to be tried, and a scan that still runs has that many
    fewer left; so a scan of [n] channels has stopped, or found its channel, after [n] of
    them, whatever the radio reports. *)
Theorem scan_ends ts : forall g,
  (sc_phase (gs_scan g) = SCAN_RUNNING ->
   0 <= sc_cur_step (gs_scan g) < Z.of_nat (length (sc_steps (gs_scan g)))) ->
  results (fun r => r.1 + to_try (gs_scan r.2) <= to_try (gs_scan g) /\
    (r.1 = to_try (gs_scan g) -> sc_phase (gs_scan r.2) <> SCAN_RUNNING)) (scan_ticks ts g).
Proof.
  intros g Hc.
  cut (results (fun r => r.1 + to_try (gs_scan r.2) <= to_try (gs_scan g) /\
    (sc_phase (gs_scan r.2) = SCAN_RUNNING -> 1 <= to_try (gs_scan r.2))) (scan_ticks ts g)).
  { intros H w. specialize (H w). cbn in *. split; [tauto|]. intros E Hr. destruct H as [H1 H2].
    specialize (H2 Hr). lia. }
  revert g Hc. induction ts as [|t ts IH]; intros g Hc; cbn [scan_ticks].
  - apply results_ret. cbn [fst snd]. split; [lia|]. intros Hr. specialize (Hc Hr).
    unfold to_try. rewrite bool_decide_true by done. lia.
  - eapply results_bind; [by apply scan_tick_progress|]. intros g1 [Hc1 Hp].
    eapply results_bind; [by apply IH|]. intros r [Hr1 Hr2]. apply results_ret. cbn [fst snd].
    split; [lia|done].
Qed.

(** ** The record of the last commands *)

Lemma emit_keeps c key value e :
  results (fun r => em_oob r.2 = em_oob e /\ em_last_send_ms r.2 = em_last_send_ms e) (wcmd_emit c key value e).
Proof.
  unfold wcmd_emit. destruct (negb _); [by apply results_ret|].
  destruct (tx_port _ _); [|by apply results_ret]. apply results_any. intros [err|]; [by apply results_ret|].
  cbn zeta. apply results_any. intros [sent err]. destruct (0 <? sent); by apply results_ret.
Qed.

Lemma key_table k n : wcmd_key_from_str k n <= WCMD_KEY_MAX \/
  wcmd_key_from_str k n = WCMD_KEY_RETURN_APFPV.
Proof.
  unfold wcmd_key_from_str.
  repeat match goal with |- context [if is_key ?x k n then _ else _] => destruct (is_key x k n) end;
    (by right) || (left; vm_compute; discriminate).
Qed.

(** The key a request names. *)
Definition names_key (qs : option string) (key : Z) : Prop :=
  exists k n, qs_get qs "key" = Some (k, n) /\ wcmd_key_from_str k n = key.

(** [/api/v1/cmd] writes [g_wcmd_last_send_ms] outside its 17 entries exactly when it
    answers 200 to [return_apfpv]: every other request, accepted or not, stores inside or not
    at all. *)
Theorem cmd_store_bounds qs g : results (fun r =>
    (names_key qs WCMD_KEY_RETURN_APFPV /\ r.1 = 200 -> em_oob (gs_emit r.2) = true) /\
    (~ (names_key qs WCMD_KEY_RETURN_APFPV /\ r.1 = 200) ->
       em_oob (gs_emit r.2) = em_oob (gs_emit g))) (route_cmd qs g).
Proof.
  assert (forall code g', code <> 200 -> em_oob (gs_emit g') = em_oob (gs_emit g) ->
    results (fun r : Z * Gs => (names_key qs WCMD_KEY_RETURN_APFPV /\ r.1 = 200 ->
      em_oob (gs_emit r.2) = true) /\ (~ (names_key qs WCMD_KEY_RETURN_APFPV /\ r.1 = 200) ->
      em_oob (gs_emit r.2) = em_oob (gs_emit g))) (io_ret (code, g'))) as Hno.
  { intros code g' Hc Hg. apply results_ret. cbn [fst snd]. split; [by intros []|done]. }
  unfold route_cmd. destruct (qs_get qs "key") as [[k n]|] eqn:Eq; [|by apply Hno].
  cbn zeta. destruct (_ <? 0); [by apply Hno|]. destruct (cmd_value _ _); [|by apply Hno].
  apply results_any. intros [|]; [by apply Hno|].
  eapply results_bind; [apply emit_keeps|]. intros [[rc sq] e] [H1 H2]. cbn [fst snd] in *.
  destruct (Z.eqb_spec rc 0) as [->|Hrc].
  - apply results_any. intros t. apply results_ret. cbn [fst snd gs_emit]. unfold store_last.
    change (gs_emit (g <| gs_emit := ?e |>)) with e. split.
    + intros [(k' & n' & E & Ek) _]. rewrite E in Eq. injection Eq as -> ->. by rewrite Ek.
    + intros Hn. destruct (Z.leb_spec (wcmd_key_from_str k n) WCMD_KEY_MAX) as [Hk|Hk]; [exact H1|].
      destruct Hn. split; [|done]. exists k, n. split; [done|].
      destruct (key_table k n); [lia|done].
  - apply Hno; [|exact H1]. unfold emit_code. rewrite (proj2 (Z.eqb_neq rc 0) Hrc).
    by destruct (rc =? -1).
Qed.
End Life.

(** ** Examples *)

#[local] Existing Instance calm.
#[local] Existing Instance abi_lp64.

(** The video tunnel of the sample configuration, running. *)
Definition video_cfg : TunnelCfg := t_cfg (default tunnel_init_defaults (gc_tunnels sample !! 0%nat)).

Definition video_running : Tunnel :=
  tunnel_init_defaults <| t_cfg := video_cfg |> <| t_pid := 42 |> <| t_state := TS_RUNNING |>
    <| t_autostart_on_exit := true |> <| t_stats_fd := 5 |> <| t_backoff_idx := 2 |>.

Lemma video_inv : tunnel_inv video_cfg video_running.
Proof. constructor; cbn; try done. split; [done|split; [|done]]. by repeat constructor. Qed.

Lemma stop_is_final_witness :
  ensures forkless parked (let! t := tunnel_request_stop video_running in
    upkeep "/etc/drone.key" [UTick 1 1000; UTick 2000 2000000; UExit (WSignaled 9); UTick 40000 40000000] t).
Proof. exact (stop_is_final video_cfg _ _ video_running video_inv). Defined.

Definition video_argv : list string := default [] (build_argv video_running "/etc/drone.key").

Lemma crash_is_restarted_witness :
  t_next_start_ms (tunnel_on_exit (WExited 1) video_running (Build_World 0 [])).1 = 2000.
Proof.
  pose proof (crash_is_restarted (WExited 1) "/etc/drone.key" video_argv video_running (Build_World 0 [])
    eq_refl ltac:(cbn; unfold GS_BACKOFF_LEN; lia) ltac:(cbn; lia) ltac:(vm_compute; reflexivity)) as H.
  destruct (tunnel_on_exit _ _ _) as [t1 w1] eqn:E.
  assert (w1 = Build_World 0 [GNow; GNow]) as ->
    by (change w1 with (t1, w1).2; rewrite <- E; vm_compute; reflexivity).
  destruct H as ((_ & _ & _ & _ & H & _) & _). cbn [fst]. etransitivity; [exact H|].
  vm_compute. reflexivity.
Defined.

Definition late_switch : Gs := gs_start sample <| gs_csa := csa_zero <| cs_phase := CSA_BURST |>
  <| cs_frames_total := 5 |> <| cs_t_switch_us := 1000 |> <| cs_t_revert_us := 2000 |> |>.

Definition late_ticks : list Z := [100000; 120000; 140000; 160000; 180000].

Lemma switch_completes_witness :
  cs_phase (gs_csa (csa_ticks late_ticks late_switch (Build_World 0 [])).1) = CSA_IDLE.
Proof.
  refine (switch_completes late_ticks late_switch _ _ _ _ _ _ (Build_World 0 [])).
  - intros _. reflexivity.
  - unfold late_ticks, late. repeat constructor; vm_compute; discriminate.
  - cbn. lia.
  - cbn. lia.
  - discriminate.
  - cbn. lia.
Defined.

Definition scanning : Gs := gs_start sample <| gs_scan := scan_zero <| sc_phase := SCAN_RUNNING |>
  <| sc_steps := [(36, "HT20"); (149, "HT20")]%string |> <| sc_ifaces := ["wlan0"%string] |>
  <| sc_step_dwell_us := 1000 |> |>.

Lemma scan_ends_witness :
  (scan_ticks [500000; 900000] scanning (Build_World 0 [])).1.1 = 2 /\
  sc_phase (gs_scan (scan_ticks [500000; 900000] scanning (Build_World 0 [])).1.2) <> SCAN_RUNNING.
Proof.
  assert ((scan_ticks [500000; 900000] scanning (Build_World 0 [])).1.1 = 2) as H
    by (vm_compute; reflexivity).
  split; [exact H|].
  apply (scan_ends [500000; 900000] scanning ltac:(cbn; lia) (Build_World 0 [])). exact H.
Defined.
