(* ===== verification/AirText.v ===== *)
(** * Flat JSON objects, as the two parsers of the vehicle see them

    The ground station sends the vehicle one-line JSON objects: channel-switch announcements
    and probe records.  The vehicle does not parse them; [find_key] of [csa/csa.c] and
    [json_get_int] of [link_controller.c] search the text for a quoted key.  This file says
    what the two searches find in an object of known fields, whatever the values are. *)

From S2P Require Import Prelude CString Decimal Csa GsStats Net Strtod.

#[local] Arguments String.append !_ _ /.

Definition not_dq (a : ascii) : bool := negb (aeq a DQ).
Definition no_dq (s : string) : bool := all_chars not_dq s.

Lemma dq_not : not_dq DQ = true -> False.
Proof. unfold not_dq. by rewrite aeq_refl. Qed.

(** ** Segments between quotes *)

Lemma starts_quote key s : no_dq key = true -> key <> EmptyString ->
  starts_with key (String DQ s) = false.
Proof.
  destruct key as [|a key]; [done|]. cbn. intros Hk _. apply andb_true_iff in Hk as [Hk _].
  unfold not_dq in Hk. by destruct (aeq a DQ).
Qed.

(** A key at the head of a segment followed by a quote lies inside the segment. *)
Lemma starts_segment key : forall seg rest, no_dq key = true ->
  starts_with key (seg ++ String DQ rest) = true -> exists x, seg = (key ++ x)%string.
Proof.
  induction key as [|a key IH]; intros seg rest Hk H; [by exists seg|].
  cbn in Hk. apply andb_true_iff in Hk as [Ha Hk]. destruct seg as [|b seg]; cbn in H.
  - apply andb_true_iff in H as [H _]. unfold not_dq in Ha. by rewrite H in Ha.
  - apply andb_true_iff in H as [E%aeq_eq H]. destruct (IH seg rest Hk H) as [x ->].
    exists x. by rewrite E.
Qed.

(** *** [find_key] *)

Definition fk (prev : option ascii) (s key : string) : option string :=
  find_key_from (S (String.length s)) prev s key.

(** The fuel is enough. *)
Lemma find_key_fuel key : key <> EmptyString -> forall fuel fuel' prev s,
  (String.length s < fuel)%nat -> (String.length s < fuel')%nat ->
  find_key_from fuel prev s key = find_key_from fuel' prev s key.
Proof.
  intros Hk fuel. induction fuel as [|fuel IH]; intros [|fuel'] prev s H H'; [lia..|].
  cbn [find_key_from]. destruct (starts_with key s) eqn:E.
  - apply starts_with_split in E as [t ->]. rewrite drop_chars_app.
    rewrite length_append in H, H'.
    assert (0 < String.length key)%nat by (destruct key; [done|cbn; lia]).
    rewrite (IH fuel' (last (list_ascii_of_string key)) t) by lia.
    done.
  - destruct s as [|a s]; [done|]. cbn in H, H'. apply IH; lia.
Qed.

Lemma fk_fuel key fuel prev s : key <> EmptyString -> (String.length s < fuel)%nat ->
  find_key_from fuel prev s key = fk prev s key.
Proof. intros Hk H. apply find_key_fuel; [done|lia|lia]. Qed.

(** The steps of the search. *)
Lemma fk_step key prev a s : key <> EmptyString -> starts_with key (String a s) = false ->
  fk prev (String a s) key = fk (Some a) s key.
Proof.
  intros Hk H. unfold fk at 1. cbn [find_key_from]. rewrite H. apply fk_fuel; [done|]. cbn. lia.
Qed.

Definition colon_next (s : string) : option string :=
  match skip_while (fun c => aeq c SP) s with
  | String c rest => if aeq c COLON then Some rest else None
  | EmptyString => None
  end.

Definition last_of (key : string) : option ascii := last (list_ascii_of_string key).

Lemma fk_candidate key prev t : key <> EmptyString ->
  fk prev (key ++ t) key =
  match prev, t with
  | Some a, String b t' =>
      if aeq a DQ && aeq b DQ then
        match colon_next t' with Some rest => Some rest | None => fk (last_of key) t key end
      else fk (last_of key) t key
  | _, _ => fk (last_of key) t key
  end.
Proof.
  intros Hk. unfold fk at 1. cbn [find_key_from]. rewrite starts_with_app, drop_chars_app.
  rewrite (fk_fuel key (String.length (key ++ t)) (last (list_ascii_of_string key)) t); [|done|].
  2:{ rewrite length_append. destruct key; [done|]. cbn. lia. }
  unfold colon_next, last_of. destruct prev as [a|]; [|done]. destruct t as [|b t']; [done|].
  destruct (_ && _); [|done]. by repeat case_match.
Qed.

Lemma last_not_dq key : no_dq key = true -> last_of key <> Some DQ.
Proof.
  unfold last_of. intros Hd Hl. apply last_Some_elem_of in Hl.
  induction key as [|a key IHk]; [by apply not_elem_of_nil in Hl|].
  cbn in Hd. apply andb_true_iff in Hd as [Ha Hd]. cbn in Hl.
  apply elem_of_cons in Hl as [<-|Hl]; [by apply dq_not in Ha|auto].
Qed.

Lemma fk_segment_far key prev seg rest : key <> EmptyString -> no_dq key = true ->
  no_dq seg = true -> prev <> Some DQ ->
  fk prev (seg ++ String DQ rest) key = fk (Some DQ) rest key.
Proof.
  intros Hk Hd. remember (String.length seg) as n eqn:En.
  revert seg prev En. induction (lt_wf n) as [n _ IH]. intros seg prev -> Hs Hp.
  destruct (starts_with key (seg ++ String DQ rest)) eqn:E.
  - destruct (starts_segment key seg rest Hd E) as [x ->].
    unfold no_dq in Hs. rewrite all_chars_app in Hs. apply andb_true_iff in Hs as [_ Hs].
    rewrite sapp_assoc, fk_candidate by done.
    pose proof (last_not_dq key Hd) as Hl.
    assert (fk (last_of key) (x ++ String DQ rest) key = fk (Some DQ) rest key) as Hr.
    { eapply IH; [|done|exact Hs|exact Hl]. rewrite length_append. destruct key; [done|cbn; lia]. }
    destruct prev as [p|]; [|exact Hr].
    destruct (x ++ String DQ rest)%string as [|b t]; [exact Hr|].
    destruct (aeq p DQ) eqn:Ep; [|exact Hr]. apply aeq_eq in Ep. congruence.
  - destruct seg as [|a seg]; cbn [String.append] in *; [by apply fk_step|].
    rewrite fk_step by done. cbn in Hs. apply andb_true_iff in Hs as [Ha Hs].
    eapply (IH (String.length seg)); [cbn; lia|done|exact Hs|].
    intros [= ->]. by apply dq_not in Ha.
Qed.

(** After a quote: the segment is the key, or it is passed. *)
Lemma fk_segment_miss key seg rest : key <> EmptyString -> no_dq key = true ->
  no_dq seg = true -> (seg = key -> colon_next rest = None) ->
  fk (Some DQ) (seg ++ String DQ rest) key = fk (Some DQ) rest key.
Proof.
  intros Hk Hd Hs Hn. destruct (starts_with key (seg ++ String DQ rest)) eqn:E.
  - destruct (starts_segment key seg rest Hd E) as [x ->].
    rewrite sapp_assoc, fk_candidate by done. unfold no_dq in Hs.
    rewrite all_chars_app in Hs. apply andb_true_iff in Hs as [_ Hs].
    assert (fk (last_of key) (x ++ String DQ rest) key = fk (Some DQ) rest key) as Hr.
    { apply fk_segment_far; [done..|]. by apply last_not_dq. }
    destruct x as [|b x]; cbn [String.append] in *.
    + rewrite aeq_refl. cbn [andb]. rewrite Hn by by rewrite sapp_nil_r. exact Hr.
    + cbn in Hs. apply andb_true_iff in Hs as [Hb _]. unfold not_dq in Hb.
      destruct (aeq b DQ); [done|]. rewrite andb_false_r. exact Hr.
  - destruct seg as [|a seg]; cbn [String.append] in *; [by apply fk_step|].
    rewrite fk_step by done. cbn in Hs. apply andb_true_iff in Hs as [Ha Hs].
    apply fk_segment_far; [done..|]. intros [= ->]. by apply dq_not in Ha.
Qed.

Lemma fk_segment_hit key rest p : key <> EmptyString -> colon_next rest = Some p ->
  fk (Some DQ) (key ++ String DQ rest) key = Some p.
Proof.
  intros Hk Hp. rewrite fk_candidate by done. rewrite aeq_refl. cbn [andb]. by rewrite Hp.
Qed.

(** *** [json_get_int] *)

(** Outside of a quoted text, [strstr] of a quoted key goes on to the next quote. *)
Lemma strstr_outside key seg rest : no_dq seg = true ->
  strstr (seg ++ String DQ rest) (quoted key) = strstr (String DQ rest) (quoted key).
Proof.
  induction seg as [|a seg IH]; intros Hs; [done|]. cbn in Hs. apply andb_true_iff in Hs as [Ha Hs].
  cbn [String.append strstr]. unfold not_dq in Ha.
  replace (starts_with (quoted key) (String a (seg ++ String DQ rest))) with false; [by apply IH|].
  cbn. symmetry. apply andb_false_iff. left. destruct (aeq DQ a) eqn:E; [|done].
  apply aeq_eq in E. subst a. by rewrite aeq_refl in Ha.
Qed.

(** At an opening quote. *)
Lemma starts_quoted key seg rest : no_dq key = true -> no_dq seg = true ->
  starts_with (quoted key) (String DQ (seg ++ String DQ rest)) = String.eqb seg key.
Proof.
  intros Hd Hs. unfold quoted. change (str1 DQ ++ key ++ str1 DQ)%string with (String DQ (key ++ str1 DQ)).
  cbn [starts_with]. rewrite aeq_refl. cbn [andb].
  revert key Hd. induction seg as [|a seg IH]; intros [|b key] Hd; cbn in *.
  - by rewrite aeq_refl.
  - apply andb_true_iff in Hd as [Hb _]. unfold not_dq in Hb. by destruct (aeq b DQ).
  - apply andb_true_iff in Hs as [Ha _]. unfold not_dq in Ha.
    destruct (aeq DQ a) eqn:E; [|done]. apply aeq_eq in E. subst a. by rewrite aeq_refl in Ha.
  - apply andb_true_iff in Hs as [Ha Hs]. apply andb_true_iff in Hd as [Hb Hd].
    rewrite IH by done. unfold aeq. rewrite Ascii.eqb_sym. by destruct (Ascii.eqb a b).
Qed.

Lemma strstr_segment key seg rest : no_dq key = true -> no_dq seg = true ->
  strstr (String DQ (seg ++ String DQ rest)) (quoted key) =
  if String.eqb seg key then Some (String DQ (seg ++ String DQ rest))
  else strstr (String DQ rest) (quoted key).
Proof.
  intros Hd Hs. rewrite <- (strstr_outside key seg rest Hs).
  rewrite <- (starts_quoted key seg rest Hd Hs). cbn [strstr].
  by destruct (starts_with (quoted key) _).
Qed.

(** ** Objects *)

(** A value: a text without quotes (a number, [null]), or a quoted text. *)
Inductive FVal := FRaw (s : string) | FStr (s : string).

Definition vtext (v : FVal) : string := match v with FRaw s => s | FStr s => quoted s end.
Definition vtext_ok (v : FVal) : bool := match v with FRaw s | FStr s => no_dq s end.

Definition Fields : Type := list (string * FVal).
Definition fields_text (fs : Fields) : list string := map (fun f => key_is f.1 (vtext f.2)) fs.

(** What follows the fields. *)
Definition closing (tail : string) : string := ("}" ++ tail)%string.

Fixpoint members (fs : Fields) (tail : string) : string :=
  match fs with
  | [] => tail
  | [(k, v)] => (quoted k ++ ":" ++ vtext v ++ tail)%string
  | (k, v) :: fs => (quoted k ++ ":" ++ vtext v ++ "," ++ members fs tail)%string
  end.

Lemma members_text fs tail : (commas (fields_text fs) ++ tail)%string = members fs tail.
Proof.
  induction fs as [|[k v] fs IH]; [done|]. destruct fs as [|f fs].
  - cbn -[quoted vtext String.append]. unfold key_is. by rewrite !sapp_assoc.
  - change (commas (fields_text ((k, v) :: f :: fs))) with
      (key_is k (vtext v) ++ "," ++ commas (fields_text (f :: fs)))%string.
    change (members ((k, v) :: f :: fs) tail) with
      (quoted k ++ ":" ++ vtext v ++ "," ++ members (f :: fs) tail)%string.
    rewrite <- IH. unfold key_is. by rewrite !sapp_assoc.
Qed.

(** A key holds no quote, and is not taken for punctuation. *)
Definition name_ok (key : string) : bool :=
  match key with
  | String a _ => no_dq key && negb (aeq a COLON) && negb (aeq a COMMA) && negb (aeq a (ch 123))
  | EmptyString => false
  end.

Definition fields_ok (fs : Fields) : bool :=
  forallb (fun f => name_ok f.1 && vtext_ok f.2) fs.

(** The first field of that name. *)
Fixpoint field_of (key : string) (fs : Fields) : option FVal :=
  match fs with
  | [] => None
  | (k, v) :: fs => if String.eqb k key then Some v else field_of key fs
  end.

(** A text that a number does not go on into. *)
Definition ends_number (s : string) : Prop :=
  match s with String a _ => isdigit a = false | EmptyString => True end.

Definition after_value (tail t : string) : Prop := t = tail \/ exists u, t = String COMMA u.

Lemma quoted_app s t : (quoted s ++ t)%string = String DQ (s ++ String DQ t).
Proof. unfold quoted. cbn. by rewrite sapp_assoc. Qed.

Lemma members_quote f fs tail : exists x, members (f :: fs) tail = String DQ x.
Proof.
  destruct f as [k v]. destruct fs as [|f' fs]; unfold members, quoted; fold members;
    cbn [String.append str1]; by eexists.
Qed.

Lemma members_cons k v fs tail : exists t, after_value tail t /\
  members ((k, v) :: fs) tail = String DQ (k ++ String DQ (String COLON (vtext v ++ t)))%string /\
  (fs <> [] -> t = String COMMA (members fs tail)).
Proof.
  assert (forall t, quoted k ++ ":" ++ vtext v ++ t =
    String DQ (k ++ String DQ (String COLON (vtext v ++ t))))%string as E.
  { intros t. unfold quoted. cbn [String.append str1]. by rewrite sapp_assoc. }
  destruct fs as [|f fs].
  - exists tail. split; [by left|]. split; [apply E|done].
  - exists (String COMMA (members (f :: fs) tail)). split; [right; by eexists|].
    split; [|done]. rewrite <- E. done.
Qed.

Lemma name_ok_facts key : name_ok key = true ->
  key <> EmptyString /\ no_dq key = true /\
  (forall s, String COLON s <> key) /\ (forall s, String COMMA s <> key) /\
  (forall s, starts_with key (String (ch 123) s) = false).
Proof.
  destruct key as [|a key]; [done|]. cbn [name_ok]. intros [[[H1 H2]%andb_true_iff H3]%andb_true_iff H4]%andb_true_iff.
  do 2 (split; [done|]). split; [|split].
  1-2: intros s [= <- _]; by rewrite aeq_refl in *.
  intros s. cbn [starts_with]. by destruct (aeq a (ch 123)).
Qed.

Lemma no_dq_app s t : no_dq (s ++ t) = no_dq s && no_dq t.
Proof. apply all_chars_app. Qed.

Lemma find_members key tail fs : name_ok key = true -> fields_ok fs = true -> forall prev v,
  prev <> Some DQ -> field_of key fs = Some v ->
  exists t, after_value tail t /\ fk prev (members fs tail) key = Some (vtext v ++ t)%string.
Proof.
  intros Hkey. destruct (name_ok_facts key Hkey) as (Hne & Hd & Hc1 & Hc2 & _).
  induction fs as [|[k w] fs IH]; intros Hok prev v Hp Hf; [done|].
  cbn in Hok. apply andb_true_iff in Hok as [[Hk Hw]%andb_true_iff Hok].
  destruct (name_ok_facts k Hk) as (_ & Hkd & _).
  destruct (members_cons k w fs tail) as (t & Ht & -> & Hnext).
  rewrite fk_step by (done || by apply starts_quote). cbn in Hf.
  destruct (String.eqb_spec k key) as [->|Hkk].
  { injection Hf as ->. exists t. split; [done|]. by apply fk_segment_hit. }
  rewrite fk_segment_miss by done.
  assert (fs <> []) as Hfs by (intros ->; done). rewrite (Hnext Hfs).
  destruct fs as [|f fs]; [done|]. destruct (members_quote f fs tail) as [x Ex].
  destruct (IH Hok (Some COMMA) v) as (t' & Ht' & E); [done|done|].
  exists t'. split; [done|]. rewrite <- E, Ex. rewrite (fk_step key (Some COMMA)) by (done || by apply starts_quote).
  destruct w as [s|s]; cbn [vtext vtext_ok] in *.
  - change (String COLON (s ++ String COMMA (String DQ x)))%string with
      ((String COLON s) ++ String COMMA (String DQ x))%string.
    replace (String COLON s ++ String COMMA (String DQ x))%string with
      ((String COLON s ++ str1 COMMA) ++ String DQ x)%string by (rewrite sapp_assoc; done).
    apply fk_segment_miss; [done..| |].
    + unfold no_dq in *. rewrite all_chars_app. cbn. by rewrite Hw.
    + intros E1. cbn in E1. by apply Hc1 in E1.
  - rewrite quoted_app.
    change (String COLON (String DQ (s ++ String DQ (String COMMA (String DQ x)))))%string with
      (str1 COLON ++ String DQ (s ++ String DQ (str1 COMMA ++ String DQ x)))%string.
    rewrite fk_segment_miss; [|done..|intros E1; by apply Hc1 in E1].
    rewrite fk_segment_miss; [|done..|done].
    apply fk_segment_miss; [done..|]. intros E1. by apply Hc2 in E1.
Qed.

(** The quoted texts of the object are not the key. *)
Definition plain (key : string) (fs : Fields) : bool :=
  forallb (fun f => match f.2 with FStr s => negb (String.eqb s key) | FRaw _ => true end) fs.

Lemma strstr_members key tail fs : name_ok key = true -> fields_ok fs = true ->
  plain key fs = true -> forall v, field_of key fs = Some v ->
  exists t, after_value tail t /\
    strstr (members fs tail) (quoted key) = Some (quoted key ++ ":" ++ vtext v ++ t)%string.
Proof.
  intros Hkey. destruct (name_ok_facts key Hkey) as (Hne & Hd & Hc1 & Hc2 & _).
  induction fs as [|[k w] fs IH]; intros Hok Hpl v Hf; [done|].
  cbn in Hok, Hpl. apply andb_true_iff in Hok as [[Hk Hw]%andb_true_iff Hok].
  apply andb_true_iff in Hpl as [Hpw Hpl].
  destruct (name_ok_facts k Hk) as (_ & Hkd & _).
  destruct (members_cons k w fs tail) as (t & Ht & -> & Hnext).
  rewrite strstr_segment by done. cbn in Hf.
  destruct (String.eqb_spec k key) as [->|Hkk].
  { injection Hf as ->. exists t. split; [done|]. unfold quoted. cbn [String.append str1].
    by rewrite sapp_assoc. }
  assert (fs <> []) as Hfs by (intros ->; done). rewrite (Hnext Hfs).
  destruct fs as [|f fs]; [done|]. destruct (members_quote f fs tail) as [x Ex].
  destruct (IH Hok Hpl v Hf) as (t' & Ht' & E). exists t'. split; [done|]. rewrite <- E, Ex.
  assert (forall s y, String COLON s <> key -> no_dq s = true ->
    strstr (String DQ (String COLON (s ++ String DQ y))) (quoted key) =
    strstr (String DQ y) (quoted key)) as Hgap.
  { intros s y Hs1 Hs2.
    change (String COLON (s ++ String DQ y))%string with (String COLON s ++ String DQ y)%string.
    rewrite strstr_segment by done. by rewrite (proj2 (String.eqb_neq _ _) Hs1). }
  destruct w as [s|s]; cbn [vtext vtext_ok] in *.
  - replace (s ++ String COMMA (String DQ x))%string with ((s ++ str1 COMMA) ++ String DQ x)%string
      by (rewrite sapp_assoc; done).
    apply Hgap; [apply Hc1|]. rewrite no_dq_app. by rewrite Hw.
  - rewrite quoted_app.
    rewrite (Hgap EmptyString _ (Hc1 _) eq_refl : strstr (String DQ (String COLON (String DQ _))) _ = _).
    rewrite strstr_segment by done. apply negb_true_iff in Hpw. rewrite Hpw.
    change (String COMMA (String DQ x)) with (str1 COMMA ++ String DQ x)%string.
    rewrite strstr_segment by done.
    by rewrite (proj2 (String.eqb_neq (str1 COMMA) key) (Hc2 EmptyString)).
Qed.

(** ** What the vehicle reads *)

Definition object_text (fs : Fields) (tail : string) : string :=
  ("{" ++ commas (fields_text fs) ++ "}" ++ tail)%string.

Lemma object_members fs tail :
  object_text fs tail = String (ch 123) (members fs (String (ch 125) tail)).
Proof. unfold object_text. by rewrite members_text. Qed.

Lemma after_ends tail t : ends_number tail -> after_value tail t -> ends_number t.
Proof. intros H [->|[u ->]]; done. Qed.

Lemma find_object key fs tail v : name_ok key = true -> fields_ok fs = true ->
  field_of key fs = Some v ->
  exists t, after_value (String (ch 125) tail) t /\
    find_key (object_text fs tail) key = Some (vtext v ++ t)%string.
Proof.
  intros Hk Hok Hf. change (find_key (object_text fs tail) key) with (fk None (object_text fs tail) key).
  destruct (name_ok_facts key Hk) as (Hne & _ & _ & _ & Hs).
  rewrite object_members. rewrite fk_step by auto. by apply find_members.
Qed.

Lemma skip_spaces_pretty (f : ascii -> bool) (z : Z) t : (forall a, int_char a = true -> f a = false) ->
  skip_while f (pretty z ++ t) = (pretty z ++ t)%string.
Proof.
  intros Hf. destruct (pretty_nonempty z) as (a & s & -> & Ha). cbn [String.append skip_while].
  by rewrite (Hf a Ha).
Qed.

Lemma int_char_not a c : int_char c = false -> int_char a = true -> aeq a c = false.
Proof. intros Hc Ha. destruct (aeq a c) eqn:E; [|done]. apply aeq_eq in E. congruence. Qed.

(** A number, by the announcement parser. *)
Lemma get_int_object key fs tail z : name_ok key = true -> fields_ok fs = true ->
  field_of key fs = Some (FRaw (pretty z)) -> - 2 ^ 63 <= z < 2 ^ 63 ->
  get_int (object_text fs tail) key = Some z.
Proof.
  intros Hk Hok Hf Hz. destruct (find_object key fs tail _ Hk Hok Hf) as (t & Ht & E).
  unfold get_int. rewrite E. cbn [mbind option_bind vtext].
  rewrite skip_spaces_pretty by (intros a; by apply int_char_not).
  rewrite strtoll_pretty; [done| |done]. destruct Ht as [->|[u ->]]; done.
Qed.

(** A text, cut to its buffer. *)
Lemma get_str_object key fs tail s n : name_ok key = true -> fields_ok fs = true ->
  field_of key fs = Some (FStr s) -> no_dq s = true ->
  get_str (object_text fs tail) key n = Some (take_chars (n - 1) s).
Proof.
  intros Hk Hok Hf Hs. destruct (find_object key fs tail _ Hk Hok Hf) as (t & Ht & E).
  unfold get_str. rewrite E. cbn [mbind option_bind vtext]. rewrite quoted_app.
  cbn [skip_while]. change (aeq DQ SP) with false. cbn iota. rewrite aeq_refl.
  by rewrite span_until_all by done.
Qed.

(** A number, by the report parser. *)
Lemma json_get_int_object {ABI : CAbi} key fs tail z : name_ok key = true -> fields_ok fs = true ->
  plain key fs = true -> strlen key < 62 ->
  field_of key fs = Some (FRaw (pretty z)) ->
  json_get_int (object_text fs tail) key = Some (clampZ LONG_MIN LONG_MAX z).
Proof.
  intros Hk Hok Hp Hl Hf. destruct (name_ok_facts key Hk) as (Hne & Hd & _).
  unfold json_get_int. cbn zeta. destruct (_ >=? 64) eqn:El.
  { unfold quoted in El. rewrite !strlen_app in El. change (strlen (str1 DQ)) with 1 in El. lia. }
  destruct (strstr_members key (String (ch 125) tail) fs Hk Hok Hp _ Hf) as (t & Ht & E).
  rewrite object_members.
  assert (strstr (String (ch 123) (members fs (String (ch 125) tail))) (quoted key) =
    strstr (members fs (String (ch 125) tail)) (quoted key)) as -> by done.
  rewrite E. cbn [mbind option_bind]. rewrite drop_chars_app. cbn [vtext].
  change (":" ++ pretty z ++ t)%string with (String COLON (pretty z ++ t)).
  cbn [skip_while]. change (aeq COLON SP || aeq COLON TAB || aeq COLON COLON) with true. cbn iota.
  rewrite skip_spaces_pretty.
  2:{ intros a Ha. by rewrite !int_char_not. }
  unfold strtol. rewrite strtoZ_pretty; [done|]. destruct Ht as [->|[u ->]]; done.
Qed.

(** Numbers with decimals hold no quote either. *)
Lemma pretty_no_dq (z : Z) : no_dq (pretty z) = true.
Proof.
  eapply all_chars_impl; [|apply pretty_int_chars]. intros a Ha. unfold not_dq.
  by rewrite (int_char_not a DQ).
Qed.

Lemma fixed_no_dq n q : no_dq (fixed_text n q) = true.
Proof.
  unfold fixed_text. cbn zeta. destruct n as [|n]; [apply pretty_no_dq|].
  rewrite !no_dq_app, pretty_no_dq. cbn [andb].
  change (no_dq ".") with true. cbn [andb]. match goal with |- context [pad_zeros ?k _] => generalize k end.
  intros k. induction k as [|k IH]; [apply pretty_no_dq|exact IH].
Qed.

Lemma printf_no_dq n x : no_dq (printf_f n x) = true.
Proof.
  destruct x as [s|s| |s m e]; [..|]; cbn [printf_f]; try (by destruct s); try done.
  - rewrite no_dq_app, fixed_no_dq. by destruct s.
  - cbn zeta. rewrite no_dq_app, fixed_no_dq. by destruct s.
Qed.
