(* ===== verification/GsAir.v ===== *)
(** * From the ground station to the vehicle

    The two programs meet on the air: the command frames, the recovery burst, the channel
    switch announcements and the probe records that [GsEmit], [GsRadio] and [GsStats] send are
    what [Wcmd], [Recovery], [Csa] and [Inputs] receive.  Any of them may be lost; what
    arrives is unchanged. *)

From S2P Require Import Prelude CFloat Config CString Decimal Strtod Io Net Wcmd Recovery Csa.
From Stdlib Require Import Sorting.Sorted.
From S2P Require Import Scorer Selector Api Daemon Inputs GsText GsNet GsConfig GsProc GsState.
From S2P Require Import GsStats GsEmit GsRadio GsTime AirText.

Local Open Scope list_scope.

(** ** Command frames *)

Lemma wrap_shiftr_low v n : 0 <= n <= 24 -> u8 (Z.shiftr (u32 v) n) = u8 (Z.shiftr v n).
Proof.
  intros Hn. unfold u8, u32, wrap. rewrite <- !Z.land_ones by lia. apply Z.bits_inj'. intros i Hi.
  rewrite !Z.land_spec, !Z.shiftr_spec, Z.land_spec by lia.
  destruct (Z.ltb_spec i 8).
  - rewrite !Z.ones_spec_low by lia. by rewrite !andb_true_r.
  - rewrite (Z.ones_spec_high 8) by lia. by rewrite !andb_false_r.
Qed.

Lemma be32_bytes_u32 v : be32_bytes (u32 v) = be32_bytes v.
Proof.
  unfold be32_bytes. rewrite !wrap_shiftr_low by lia. do 3 f_equal.
  rewrite <- (Z.shiftr_0_r (u32 v)), <- (Z.shiftr_0_r v). f_equal. by apply wrap_shiftr_low.
Qed.

(** The ground station's frame is the request the vehicle decodes. *)
Lemma frame_is_request seq key value : 0 <= key < 256 ->
  wcmd_frame seq key value = req_encode (wcmd_req seq key value).
Proof.
  intros Hk. unfold wcmd_frame, req_encode. cbn [rq_magic rq_version rq_msg_type rq_seq rq_key
    rq_flags rq_pad rq_value wcmd_req]. rewrite u8_small by lia. by rewrite be32_bytes_u32.
Qed.

Lemma frame_decoded seq key value from : 0 <= seq < 2 ^ 16 -> 0 <= key < 256 ->
  - 2 ^ 31 <= value < 2 ^ 31 ->
  command_of (Build_Dgram from (wcmd_frame seq key value)) = Some (wcmd_req seq key value).
Proof.
  intros Hs Hk Hv. rewrite frame_is_request by done. unfold command_of. cbn [dg_bytes].
  assert (req_decode (req_encode (wcmd_req seq key value)) = Some (wcmd_req seq key value)) as ->;
    [|done].
  unfold req_decode, req_encode, wcmd_req. cbn [length app be32_bytes be16_bytes Nat.ltb Nat.leb
    rq_magic rq_version rq_msg_type rq_seq rq_key rq_flags rq_pad rq_value].
  do 2 f_equal; try done.
  - by apply be16_roundtrip.
  - etrans; [|apply i32_small; unfold INT_MIN, INT_MAX; lia]. unfold be32_at.
    cbn -[Z.shiftl Z.lor u8 i32]. by rewrite be32_wrap, i32_u32.
Qed.

(** ** What an accepted request leaves behind *)

Section Marks.
Context {EV : Env}.

(** The stamps by which a repeat is recognised. *)
Definition stamped (req : WcmdReq) (now : Z) (st : WcmdState) : Prop :=
  ws_last_seq st !!! Z.to_nat (rq_key req) = rq_seq req /\
  ws_last_seq_us st !!! Z.to_nat (rq_key req) = now.

Definition sized (st : WcmdState) : Prop :=
  length (ws_last_seq st) = 21%nat /\ length (ws_last_seq_us st) = 21%nat.

(** A handler that says OK has stamped the request. *)
Definition stamps {A} (req : WcmdReq) (now : Z) (resp : A -> WcmdResp) (st : A -> WcmdState)
    (m : IO A) : Prop :=
  forall w, rs_status (resp (m w).1) = ST_OK -> stamped req now (st (m w).1).

Lemma stamps_bind {A B} req now resp st (m : IO B) (f : B -> IO A) :
  (forall x, stamps req now resp st (f x)) -> stamps req now resp st (io_bind m f).
Proof. intros H w. unfold io_bind. destruct (m w) as [x w']. apply H. Qed.

Lemma stamps_ret {A} req now resp st (x : A) :
  (rs_status (resp x) = ST_OK -> stamped req now (st x)) -> stamps req now resp st (io_ret x).
Proof. by intros H w. Qed.

Lemma applied_stamped resp st req now v h lh : 0 < rq_key req <= WCMD_NUM_KEYS -> sized st ->
  stamped req now (applied resp st req now v h lh).2.
Proof.
  unfold WCMD_NUM_KEYS. intros Hk [H1 H2]. unfold stamped. cbn.
  rewrite !list_lookup_total_insert_eq by lia. done.
Qed.

Lemma marked_stamped st req now : 0 < rq_key req <= WCMD_NUM_KEYS -> sized st ->
  stamped req now (wcmd_mark_applied st (rq_key req) (rq_seq req) now).
Proof.
  unfold WCMD_NUM_KEYS. intros Hk [H1 H2]. unfold stamped. cbn.
  rewrite !list_lookup_total_insert_eq by lia. done.
Qed.

Lemma stamps_map {A B} req now resp st resp' st' (m : IO B) (f : B -> IO A) :
  stamps req now resp' st' m ->
  (forall x, exists y, f x = io_ret y /\ resp y = resp' x /\ st y = st' x) ->
  stamps req now resp st (io_bind m f).
Proof.
  intros H Hf w. unfold io_bind. specialize (H w). destruct (m w) as [x w']. cbn [fst] in *.
  destruct (Hf x) as (y & -> & E1 & E2). cbn [io_ret fst]. by rewrite E1, E2.
Qed.

(** The handlers of the operator keys. *)
Section Handlers.
Variables (req : WcmdReq) (now : Z).
Hypothesis Hkey : 0 < rq_key req <= WCMD_NUM_KEYS.

Abbreviation stamps2 := (stamps req now fst snd).

Lemma applied_ret resp st v h lh : sized st -> stamps2 (io_ret (applied resp st req now v h lh)).
Proof. intros H. apply stamps_ret. intros _. by apply applied_stamped. Qed.

Lemma refuse_ret resp st s p {S : Setter p} : s <> ST_OK -> stamps2 (io_ret (refuse resp st s p)).
Proof. intros H. apply stamps_ret. intros E. by destruct H. Qed.

Ltac stamps_step :=
  lazymatch goal with
  | |- stamps _ _ _ _ (io_ret (if ?b then _ else _)) => destruct b
  | |- stamps _ _ _ _ (io_ret (applied _ _ _ _ _ _ _)) => apply applied_ret; assumption
  | |- stamps _ _ _ _ (io_ret (refuse _ _ _ _)) => by apply refuse_ret
  | |- stamps _ _ _ _ (io_ret _) => apply stamps_ret; discriminate
  | |- stamps _ _ _ _ (io_bind _ _) => apply stamps_bind; intros ?
  | |- stamps _ _ _ _ (if ?b then _ else _) => destruct b
  | |- stamps _ _ _ _ (match ?x with _ => _ end) => destruct x
  end.

Lemma peek_stamps cfg st resp v : sized st -> stamps2 (dispatch_peek cfg st req resp now v).
Proof. intros Hs. unfold dispatch_peek. repeat stamps_step. Qed.

Lemma txpower_stamps cfg st resp v : sized st -> stamps2 (dispatch_txpower cfg st req resp now v).
Proof. intros Hs. unfold dispatch_txpower. repeat stamps_step. Qed.

Lemma wfb_stamps cfg st resp v : sized st -> stamps2 (dispatch_wfb cfg st req resp now v).
Proof.
  intros Hs. unfold dispatch_wfb, dispatch_wfb_fec, dispatch_wfb_radio. cbn zeta.
  assert (forall b, sized (st <| ws_radio_written := true |> <| ws_radio_written_body := b |>)) by done.
  repeat stamps_step.
Qed.

Lemma apfpv_stamps cfg st resp : sized st -> stamps2 (dispatch_return_apfpv cfg st req resp now).
Proof. intros Hs. unfold dispatch_return_apfpv. cbn zeta. repeat stamps_step. Qed.

Lemma venc_stamps cfg st resp v : sized st ->
  stamps req now (fun r => r.2.1) (fun r => r.2.2) (dispatch_venc cfg st req resp now v).
Proof.
  intros Hs. unfold dispatch_venc. destruct (wcmd_build_path _ _); [|by apply stamps_ret].
  destruct (dry_run cfg); [apply stamps_ret; intros _; by apply applied_stamped|].
  apply stamps_bind. intros [got http]. cbn zeta. apply stamps_ret. cbn [snd].
  destruct (negb _); [done|]. intros _. by apply applied_stamped.
Qed.

Abbreviation stamps_px := (stamps req now (fun r => r.1.2) (fun r => px_st r.2)).

Lemma action_stamps px resp v : sized (px_st px) -> stamps_px (dispatch_action px req resp now v).
Proof.
  intros Hs. unfold dispatch_action, dispatch_toggle. cbn zeta.
  destruct (_ || _); [apply stamps_ret; intros _; exact (marked_stamped _ req now Hkey Hs)|].
  destruct (_ =? _); [eapply stamps_map; [by apply peek_stamps|intros []; by eexists]|].
  destruct (_ =? _); [eapply stamps_map; [by apply txpower_stamps|intros []; by eexists]|].
  destruct (_ && _); [eapply stamps_map; [by apply wfb_stamps|intros []; by eexists]|].
  eapply stamps_map; [by apply venc_stamps|intros [? []]; by eexists].
Qed.

Lemma dispatch_stamps start px peer w : sized (px_st px) -> is_burst_dup (px_st px) req now = false ->
  rs_status (wcmd_dispatch start px req peer now w).1.1.2 = ST_OK ->
  stamped req now (px_st (wcmd_dispatch start px req peer now w).1.2).
Proof.
  intros Hs Hd. revert w. change (stamps_px (wcmd_dispatch start px req peer now)).
  assert (is_burst_dup (wcmd_receive (px_st px) req now) req now = false) as Hd' by exact Hd.
  assert (sized (wcmd_receive (px_st px) req now)) as Hs' by exact Hs.
  unfold wcmd_dispatch. cbn zeta.
  destruct (negb _); [by apply stamps_ret|]. destruct (_ && _); [by apply stamps_ret|].
  destruct (_ || _); [by apply stamps_ret|].
  destruct (_ =? Wcmd.WCMD_KEY_LOG_SYNC).
  { unfold dispatch_log_sync. cbn zeta.
    change (px_st (px <| px_st := _ |>)) with (wcmd_receive (px_st px) req now). rewrite Hd'.
    clear Hs Hd Hd'. generalize dependent (wcmd_receive (px_st px) req now). intros st Hs.
    eapply (stamps_map _ _ _ _ fst (fun r => px_st r.2)); [|intros []; by eexists].
    apply stamps_bind. intros up. apply stamps_ret. intros _.
    exact (marked_stamped st req now Hkey Hs). }
  destruct (_ =? Wcmd.WCMD_KEY_LOG_CONTROL).
  { unfold dispatch_log_control. cbn zeta.
    change (px_st (px <| px_st := _ |>)) with (wcmd_receive (px_st px) req now). rewrite Hd'.
    clear Hs Hd Hd'. generalize dependent (wcmd_receive (px_st px) req now). intros st Hs.
    eapply (stamps_map _ _ _ _ fst (fun r => px_st r.2)); [|intros []; by eexists].
    apply stamps_bind. intros up. apply stamps_ret. intros _.
    exact (marked_stamped st req now Hkey Hs). }
  destruct (negb _); [by apply stamps_ret|]. rewrite Hd'.
  destruct (_ =? _); [eapply stamps_map; [by apply apfpv_stamps|intros []; by eexists]|].
  unfold dispatch_operator. cbn zeta. destruct (_ && _); [by apply stamps_ret|].
  destruct (wcmd_clamp_value _ _ _) as [rc v]. destruct (_ <? 0); [by apply stamps_ret|].
  destruct (_ && _); [by apply stamps_ret|]. by apply action_stamps.
Qed.
End Handlers.
End Marks.

(** ** A command burst *)

(** The copies of one request that arrive, each at its time. *)
Fixpoint deliver {EV : Env} (start : Z) (px : Proxy) (req : WcmdReq) (peer : Z) (times : list Z)
    (w : World) : Proxy * World :=
  match times with
  | [] => (px, w)
  | t :: times =>
      let '((_, _, px), w) := wcmd_dispatch start px req peer t w in
      deliver start px req peer times w
  end.

Section Burst.
Context {EV : Env}.

Lemma stamped_dup req now t st : 0 < now <= t -> t < 2 ^ 64 -> t - now < WCMD_BURST_DEDUP_US ->
  stamped req now st -> is_burst_dup st req t = true.
Proof.
  intros Hn Ht Hw [E1 E2]. unfold is_burst_dup. rewrite E1, E2, Z.eqb_refl, u64_small by lia. lia.
Qed.

(** A duplicate leaves world, configuration, marker and stamps alone. *)
Lemma duplicate_quiet start px req peer now w : is_burst_dup (px_st px) req now = true ->
  let '((_, _, px'), w') := wcmd_dispatch start px req peer now w in
  w' = w /\ px_cfg px' = px_cfg px /\ px_sync px' = px_sync px /\
  ws_last_seq (px_st px') = ws_last_seq (px_st px) /\
  ws_last_seq_us (px_st px') = ws_last_seq_us (px_st px).
Proof.
  intros Hd. unfold wcmd_dispatch. cbv zeta.
  assert (is_burst_dup (wcmd_receive (px_st px) req now) req now = true) as Hd' by exact Hd.
  destruct (negb (cmd_enabled _)); [by cbn|]. destruct (_ && _); [by cbn|].
  destruct (_ || _); [by cbn|]. destruct (_ =? Wcmd.WCMD_KEY_LOG_SYNC).
  { unfold dispatch_log_sync, io_bind. cbv zeta.
    change (px_st (px <| px_st := _ |>)) with (wcmd_receive (px_st px) req now). by rewrite Hd'. }
  destruct (_ =? Wcmd.WCMD_KEY_LOG_CONTROL).
  { unfold dispatch_log_control, io_bind. cbv zeta.
    change (px_st (px <| px_st := _ |>)) with (wcmd_receive (px_st px) req now). by rewrite Hd'. }
  destruct (negb (Z.testbit _ _)); [by cbn|]. by rewrite Hd'.
Qed.

Lemma deliver_quiet start req peer now : 0 < now -> forall times px w,
  stamped req now (px_st px) ->
  Forall (fun t => now <= t < 2 ^ 64 /\ t - now < WCMD_BURST_DEDUP_US) times ->
  (deliver start px req peer times w).2 = w /\
  px_cfg (deliver start px req peer times w).1 = px_cfg px /\
  px_sync (deliver start px req peer times w).1 = px_sync px.
Proof.
  intros Hn times. induction times as [|t times IH]; intros px w Hs Ht; [done|].
  inversion_clear Ht as [|? ? (H1 & H2) Ht']. cbn [deliver].
  assert (is_burst_dup (px_st px) req t = true) as Hd by (apply (stamped_dup req now); [lia|lia|done|done]).
  pose proof (duplicate_quiet start px req peer t w Hd) as H.
  destruct (wcmd_dispatch start px req peer t w) as [[[rc resp] px'] w'].
  destruct H as (-> & <- & <- & E1 & E2). apply IH; [|done]. unfold stamped. by rewrite E1, E2.
Qed.

(** What [wcmd_emit] puts on the air. *)
Lemma burst_sends {GE : GsEnv} n dst frame : forall sent err,
  performs (fun e => e = GSend dst frame) (send_burst n dst frame sent err).
Proof.
  induction n as [|n IH]; intros sent err; cbn [send_burst]; [apply performs_ret|].
  apply performs_bind; [|intros [?|]; apply IH]. intros w. exists [GSend dst frame].
  split; [done|]. by repeat constructor.
Qed.

(** The input of the transmitter tunnel the configuration names as the uplink. *)
Definition to_uplink (c : GConfig) (dst : Addr) : Prop :=
  exists t, In t (gc_tunnels c) /\ tc_name (t_cfg t) = gc_venc_uplink c /\ is_tx t = true /\
    0 < tc_udp_in_port (t_cfg t) /\ dst = (0x7F000001, u16 (tc_udp_in_port (t_cfg t))).

Lemma tx_port_uplink c port : tx_port (gc_venc_uplink c) (gc_tunnels c) = Some port ->
  to_uplink c (loopback port).
Proof.
  unfold tx_port. destruct (list_find _ _) as [[i t]|] eqn:E; [|done].
  apply list_find_Some in E as (Ht & [Hn Hr] & _). cbn zeta. destruct (_ <=? 0) eqn:Ep; [done|].
  intros [= <-]. exists t. split_and!; try done; [|lia].
  eapply list_elem_of_In, list_elem_of_lookup_2, Ht.
Qed.

Lemma emit_sends {GE : GsEnv} c key value e :
  performs (fun ev => match ev with
    | GSend dst frame => to_uplink c dst /\ frame = wcmd_frame (em_seq (next_seq e)) key value
    | GSocket => True | _ => False end)
    (wcmd_emit c key value e).
Proof.
  unfold wcmd_emit. destruct (negb _); [apply performs_ret|].
  destruct (tx_port _ _) as [port|] eqn:E; [|apply performs_ret]. apply tx_port_uplink in E.
  apply performs_bind; [intros w; exists [GSocket]; split; [done|by repeat constructor]|].
  intros [err|]; [apply performs_ret|]. cbn zeta. apply performs_bind.
  - eapply performs_weaken; [apply burst_sends|]. by intros ev ->.
  - intros [sent err]. destruct (0 <? sent); apply performs_ret.
Qed.

(** (C10) One operator command, one effect on the vehicle.  All that [wcmd_emit] puts on the
    wire for it are datagrams of the same bytes, addressed to the input port of the transmitter
    tunnel the configuration names as the uplink, and the vehicle decodes them to the request
    that was meant.  And when the vehicle takes a copy that is no repetition of an earlier
    request and answers OK, any number of further copies within half a second of it, however
    many were lost or repeated, change nothing at all: no request to [wfb_tx], the encoder or a
    child process, the configuration and the logging marker untouched. *)
Theorem command_burst_once {GE : GsEnv} c key value e start px peer from now later w :
  0 < key <= WCMD_NUM_KEYS -> - 2 ^ 31 <= value < 2 ^ 31 -> 0 < now ->
  let seq := em_seq (next_seq e) in
  let req := wcmd_req seq key value in
  sized (px_st px) -> is_burst_dup (px_st px) req now = false ->
  Forall (fun t => now <= t < 2 ^ 64 /\ t - now < WCMD_BURST_DEDUP_US) later ->
  performs (fun ev => match ev with
    | GSend dst frame => to_uplink c dst /\ command_of (Build_Dgram from frame) = Some req
    | GSocket => True
    | _ => False end)
    (wcmd_emit c key value e) /\
  let '((_, resp, px1), w1) := wcmd_dispatch start px req peer now w in
  rs_status resp = ST_OK ->
  let '(px2, w2) := deliver start px1 req peer later w1 in
  w2 = w1 /\ px_cfg px2 = px_cfg px1 /\ px_sync px2 = px_sync px1.
Proof.
  intros Hk Hv Hn seq req Hs Hd Hl. unfold WCMD_NUM_KEYS in Hk. split.
  - eapply performs_weaken; [apply emit_sends|]. intros [] H; try done. destruct H as [Ha ->].
    split; [exact Ha|]. apply frame_decoded; [|lia|done]. subst seq. unfold next_seq. cbn.
    unfold u16, wrap. apply Z.mod_pos_bound. lia.
  - pose proof (dispatch_stamps req now ltac:(cbn; unfold WCMD_NUM_KEYS; lia) start px peer w Hs Hd) as Hst.
    destruct (wcmd_dispatch start px req peer now w) as [[[rc resp] px1] w1]. cbn [fst snd] in Hst.
    intros Hok. pose proof (deliver_quiet start req peer now Hn later px1 w1 (Hst Hok) Hl) as H.
    by destruct (deliver start px1 req peer later w1) as [px2 w2].
Qed.
End Burst.

(** ** The recovery burst *)

Section RecoveryBurst.
Context {EV : Env}.

Definition recovery_req (seq : Z) : WcmdReq := wcmd_req seq Wcmd.WCMD_KEY_RECOVERY_APFPV 0.

Lemma recovery_emit_sends {GE : GsEnv} c e :
  performs (fun ev => match ev with
    | GSend _ frame => frame = wcmd_frame (em_seq (next_seq e)) Wcmd.WCMD_KEY_RECOVERY_APFPV 0
    | _ => True end) (recovery_emit c e).
Proof.
  unfold recovery_emit. destruct (negb _); [apply performs_ret|].
  destruct (tx_port _ _) as [port|]; [|apply performs_ret].
  apply performs_bind; [intros w; exists [GSocket]; split; [done|by repeat constructor]|].
  intros [err|]; [apply performs_ret|]. cbn zeta. apply performs_bind.
  - eapply performs_weaken; [apply burst_sends|]. by intros ev ->.
  - intros [sent err]. destruct (0 <? sent); apply performs_ret.
Qed.

(** After a run of the hook, frames within the cool-down run nothing. *)
Lemma cooling_quiet cfg req t0 : 0 < t0 -> forall times st w,
  rv_last_exec_us st = t0 -> 0 <= rv_arm_hits st ->
  Forall (fun t => t0 <= t < 2 ^ 64 /\ t - t0 < recovery_cooldown_us cfg) times ->
  (recovery_run cfg (map (fun t => (req, t)) times) st w).1.1 = [].
Proof.
  intros H0 times. induction times as [|t times IH]; intros st w Hl Hh Ht; [done|].
  inversion_clear Ht as [|? ? (H1 & H2) Ht']. cbn [map recovery_run].
  pose proof (recovery_dispatch_cases cfg st req t w Hh) as H.
  assert (fires cfg st req t = false) as Ef.
  { unfold fires. rewrite Hl. rewrite (u64_small (t - t0)) by lia.
    replace ((t0 =? 0) || (recovery_cooldown_us cfg <=? t - t0)) with false by lia.
    by rewrite andb_false_r. }
  destruct (recovery_dispatch cfg st req t w) as [[resp st'] w']. rewrite Ef in H.
  destruct H as (_ & E1 & _ & E2 & _).
  specialize (IH st' w' ltac:(by rewrite E1) E2 Ht'). rewrite Ef.
  by destruct (recovery_run cfg (map (fun t => (req, t)) times) st' w') as [[ts st''] w''].
Qed.
(** The hook may run again. *)
Definition cooled (cfg : Config) (st : RecoveryState) (t : Z) : Prop :=
  rv_last_exec_us st = 0 \/ recovery_cooldown_us cfg <= t - rv_last_exec_us st /\ 0 <= rv_last_exec_us st.

Lemma cooled_test cfg st t : cooled cfg st t -> t < 2 ^ 64 ->
  (rv_last_exec_us st =? 0) || (recovery_cooldown_us cfg <=? u64 (t - rv_last_exec_us st)) = true.
Proof.
  intros [->|[H1 H2]] Ht; [done|]. assert (0 <= recovery_cooldown_us cfg) by apply u64_bound.
  rewrite u64_small by lia. lia.
Qed.

(** A frame that arms, but not yet enough. *)
Lemma dispatch_arms cfg st seq t w : recovery_enabled (cfg_recovery cfg) = true ->
  cooled cfg st t -> t < 2 ^ 64 -> 
  let a := recovery_arm cfg st seq t in
  rv_arm_hits a < recovery_arm_need cfg ->
  let '((_, st'), w') := recovery_dispatch cfg st (recovery_req seq) t w in
  rv_arm_hits st' = rv_arm_hits a /\ rv_arm_seq st' = rv_arm_seq a /\
  rv_arm_first_us st' = rv_arm_first_us a /\ rv_last_exec_us st' = rv_last_exec_us st.
Proof.
  intros He Hc Ht a Ha. unfold recovery_dispatch. cbv zeta. rewrite He. cbn [negb].
  change (rq_key (recovery_req seq) =? Wcmd.WCMD_KEY_RECOVERY_APFPV) with true. cbn [negb].
  pose proof (cooled_test cfg st t Hc Ht) as Hct.
  set (st1 := bump rv_recv_total st <| rv_last_recv_us := t |>).
  change (rv_last_exec_us st1) with (rv_last_exec_us st).
  replace (negb (rv_last_exec_us st =? 0) && (u64 (t - rv_last_exec_us st) <? recovery_cooldown_us cfg))
    with false by lia.
  change (rq_seq (recovery_req seq)) with seq.
  assert (rv_arm_hits (recovery_arm cfg st1 seq t) = rv_arm_hits a /\
    rv_arm_seq (recovery_arm cfg st1 seq t) = rv_arm_seq a /\
    rv_arm_first_us (recovery_arm cfg st1 seq t) = rv_arm_first_us a /\
    rv_last_exec_us (recovery_arm cfg st1 seq t) = rv_last_exec_us st) as (E1 & E2 & E3 & E4).
  { subst a st1. unfold recovery_arm, bump.
    cbn. destruct (_ || (u64 _ >? _)); done. }
  rewrite E1. rewrite (proj2 (Z.ltb_lt _ _) Ha). by cbn.
Qed.

Lemma fires_iff cfg st seq t : recovery_enabled (cfg_recovery cfg) = true -> cooled cfg st t ->
  t < 2 ^ 64 ->
  fires cfg st (recovery_req seq) t =
  (recovery_arm_need cfg <=? rv_arm_hits (recovery_arm cfg st seq t)).
Proof.
  intros He Hc Ht. unfold fires. rewrite He, (cooled_test cfg st t Hc Ht).
  by change (rq_key (recovery_req seq) =? Wcmd.WCMD_KEY_RECOVERY_APFPV) with true.
Qed.

Lemma arming cfg seq t0 : recovery_enabled (cfg_recovery cfg) = true ->
  forall times st w, 0 < t0 -> 1 <= rv_arm_hits st < recovery_arm_need cfg -> rv_arm_seq st = seq ->
  rv_arm_first_us st = t0 -> StronglySorted Z.le times ->
  Forall (fun t => t0 <= t < 2 ^ 64 /\ t - t0 <= recovery_window_us cfg /\
                   t - t0 < recovery_cooldown_us cfg /\ cooled cfg st t) times ->
  (recovery_run cfg (map (fun t => (recovery_req seq, t)) times) st w).1.1 =
  match times !! Z.to_nat (recovery_arm_need cfg - rv_arm_hits st - 1) with
  | Some t => [t] | None => [] end.
Proof.
  intros He times. induction times as [|t times IH]; intros st w H0 Hh Hs Hf Hsort Ht.
  { by rewrite lookup_nil. }
  apply Forall_cons in Ht as [(H1 & H2 & H3 & Hc) Ht']. inversion_clear Hsort as [|? ? Hsort' Hle].
  cbn [map recovery_run].
  assert (recovery_arm cfg st seq t = st <| rv_arm_hits := rv_arm_hits st + 1 |>) as Ea.
  { unfold recovery_arm. rewrite Hs, Hf, Z.eqb_refl, (u64_small (t - t0)) by lia.
    replace (rv_arm_hits st =? 0) with false by lia.
    by replace (t - t0 >? recovery_window_us cfg) with false by lia. }
  pose proof (fires_iff cfg st seq t He Hc ltac:(lia)) as Ef. rewrite Ea in Ef. cbn in Ef.
  destruct (Z.leb_spec (recovery_arm_need cfg) (rv_arm_hits st + 1)) as [Hn|Hn].
  - replace (Z.to_nat _) with 0%nat by lia. cbn [lookup list_lookup].
    pose proof (recovery_dispatch_cases cfg st (recovery_req seq) t w ltac:(lia)) as H.
    destruct (recovery_dispatch cfg st (recovery_req seq) t w) as [[resp st'] w']. rewrite Ef in H |- *.
    destruct H as (E1 & E2 & _).
    pose proof (cooling_quiet cfg (recovery_req seq) t ltac:(lia) times st' w' E1 ltac:(lia)) as Hq.
    destruct (recovery_run cfg _ st' w') as [[ts st''] w'']. cbn in *. rewrite Hq; [done|].
    rewrite Forall_forall in *. intros u Hu. specialize (Ht' u Hu). specialize (Hle u Hu). lia.
  - pose proof (dispatch_arms cfg st seq t w He Hc ltac:(lia)) as H. cbn zeta in H. rewrite Ea in H.
    specialize (H ltac:(cbn; lia)).
    destruct (recovery_dispatch cfg st (recovery_req seq) t w) as [[resp st'] w'].
    cbn in H. destruct H as (E1 & E2 & E3 & E4). rewrite Ef.
    specialize (IH st' w'). rewrite E1, E2, E3 in IH. specialize (IH H0 ltac:(lia) Hs Hf Hsort').
    destruct (recovery_run cfg _ st' w') as [[ts st''] w'']. cbn in IH |- *. rewrite IH.
    + replace (Z.to_nat (recovery_arm_need cfg - rv_arm_hits st - 1)) with
        (S (Z.to_nat (recovery_arm_need cfg - (rv_arm_hits st + 1) - 1))) by lia. done.
    + eapply Forall_impl; [exact Ht'|]. unfold cooled. by rewrite E4.
Qed.

(** One press of the recovery button runs the vehicle's hook exactly once, and only if
    enough of its frames arrive: of the burst that [recovery_emit] sends, whichever frames
    survive, the hook runs at the frame that completes the arming count and at no other, as
    long as the burst fits the arming window and the cool-down. *)
Theorem recovery_burst_once {GE : GsEnv} c e cfg st w t0 times from :
  let seq := em_seq (next_seq e) in
  recovery_enabled (cfg_recovery cfg) = true -> 0 <= rv_arm_hits st ->
  rv_arm_hits st = 0 \/ rv_arm_seq st <> seq -> 0 < t0 ->
  StronglySorted Z.le (t0 :: times) ->
  Forall (fun t => t0 <= t < 2 ^ 64 /\ t - t0 <= recovery_window_us cfg /\
                   t - t0 < recovery_cooldown_us cfg /\ cooled cfg st t) (t0 :: times) ->
  performs (fun ev => match ev with
    | GSend _ frame => command_of (Build_Dgram from frame) = Some (recovery_req seq)
    | _ => True end) (recovery_emit c e) /\
  (recovery_run cfg (map (fun t => (recovery_req seq, t)) (t0 :: times)) st w).1.1 =
  match (t0 :: times) !! Z.to_nat (recovery_arm_need cfg - 1) with Some t => [t] | None => [] end.
Proof.
  intros seq He Hh Hseq H0 Hsort Ht. split.
  { eapply performs_weaken; [apply recovery_emit_sends|]. intros [] H; try done. rewrite H.
    apply frame_decoded; [|done|done]. subst seq. unfold next_seq. cbn. unfold u16, wrap.
    apply Z.mod_pos_bound. lia. }
  clearbody seq. apply Forall_cons in Ht as [(H1 & H2 & H3 & Hc) Ht']. inversion_clear Hsort as [|? ? Hsort' Hle].
  assert (1 <= recovery_arm_need cfg) as Hneed by (unfold recovery_arm_need; cbv zeta; case_bool; lia).
  cbn [map recovery_run].
  assert (recovery_arm cfg st seq t0 = st <| rv_arm_seq := seq |> <| rv_arm_hits := 1 |>
    <| rv_arm_first_us := t0 |>) as Ea.
  { unfold recovery_arm. replace ((rv_arm_hits st =? 0) || negb (rv_arm_seq st =? seq)) with true by lia.
    done. }
  pose proof (fires_iff cfg st seq t0 He Hc ltac:(lia)) as Ef. rewrite Ea in Ef. cbn in Ef.
  destruct (Z.leb_spec (recovery_arm_need cfg) 1) as [Hn|Hn].
  - replace (Z.to_nat _) with 0%nat by lia. cbn [lookup list_lookup].
    pose proof (recovery_dispatch_cases cfg st (recovery_req seq) t0 w ltac:(lia)) as H.
    destruct (recovery_dispatch cfg st (recovery_req seq) t0 w) as [[resp st'] w']. rewrite Ef in H |- *.
    destruct H as (E1 & E2 & _).
    pose proof (cooling_quiet cfg (recovery_req seq) t0 H0 times st' w' E1 ltac:(lia)) as Hq.
    destruct (recovery_run cfg _ st' w') as [[ts st''] w'']. cbn in *. rewrite Hq; [done|].
    eapply Forall_impl; [exact Ht'|]. cbn. lia.
  - pose proof (dispatch_arms cfg st seq t0 w He Hc ltac:(lia)) as H. cbn zeta in H. rewrite Ea in H.
    specialize (H ltac:(cbn; lia)).
    destruct (recovery_dispatch cfg st (recovery_req seq) t0 w) as [[resp st'] w'].
    cbn in H. destruct H as (E1 & E2 & E3 & E4). rewrite Ef.
    pose proof (arming cfg seq t0 He times st' w' H0) as IH. rewrite E1, E2, E3 in IH.
    specialize (IH ltac:(lia) eq_refl eq_refl Hsort').
    destruct (recovery_run cfg _ st' w') as [[ts st''] w'']. cbn in IH |- *. rewrite IH.
    + replace (Z.to_nat (recovery_arm_need cfg - 1)) with
        (S (Z.to_nat (recovery_arm_need cfg - 1 - 1))) by lia. done.
    + eapply Forall_impl; [exact Ht'|]. unfold cooled. by rewrite E4.
Qed.
End RecoveryBurst.

(** ** The channel switch *)

Definition commit_fields (s : GsState.CsaState) (dt_ms t_revert_ms : Z) : Fields :=
  [("type", FStr "csa_commit"); ("ver", FRaw "1"); ("sess", FRaw (pretty (GsState.cs_sess s)));
   ("seq", FRaw (pretty (cs_seq_in_burst s))); ("src", FStr "ground");
   ("target_chan", FRaw (pretty (GsState.cs_target_chan s)));
   ("target_ht", FStr (GsState.cs_target_ht s)); ("dt_to_switch_ms", FRaw (pretty dt_ms));
   ("t_revert_ms", FRaw (pretty t_revert_ms));
   ("prev_chan", FRaw (pretty (GsState.cs_prev_chan s)));
   ("prev_ht", FStr (GsState.cs_prev_ht s))]%string.

Lemma commit_text_object s dt rv :
  csa_commit_text s dt rv = object_text (commit_fields s dt rv) (str1 LF).
Proof. reflexivity. Qed.

Definition int64 (z : Z) : Prop := - 2 ^ 63 <= z < 2 ^ 63.

(** What an armed orchestrator announces: numbers of their C types, widths without quotes. *)
Record announceable (s : GsState.CsaState) (dt_ms t_revert_ms : Z) : Prop := {
  an_sess : int64 (GsState.cs_sess s); an_seq : int64 (cs_seq_in_burst s);
  an_chan : int64 (GsState.cs_target_chan s); an_prev : int64 (GsState.cs_prev_chan s);
  an_dt : int64 dt_ms; an_revert : int64 t_revert_ms;
  an_ht : no_dq (GsState.cs_target_ht s) = true /\ strlen (GsState.cs_target_ht s) < 8;
  an_prev_ht : no_dq (GsState.cs_prev_ht s) = true /\ strlen (GsState.cs_prev_ht s) < 8
}.

Definition announced (s : GsState.CsaState) (dt_ms t_revert_ms : Z) : CsaCommit :=
  Build_CsaCommit (GsState.cs_sess s) (cs_seq_in_burst s) dt_ms t_revert_ms
    (GsState.cs_target_chan s) (GsState.cs_prev_chan s) (GsState.cs_target_ht s)
    (GsState.cs_prev_ht s).

Lemma take_chars_short n s : strlen s < Z.of_nat n + 1 -> take_chars n s = s.
Proof.
  revert s. induction n as [|n IH]; intros [|a s] H; cbn [take_chars strlen] in *; try done.
  - rewrite strlen_length in H. lia.
  - rewrite IH; [done|lia].
Qed.

Lemma commit_fields_ok s dt rv : announceable s dt rv -> fields_ok (commit_fields s dt rv) = true.
Proof.
  intros [_ _ _ _ _ _ [Ht _] [Hp _]]. unfold fields_ok, commit_fields. cbn [forallb fst snd vtext_ok].
  rewrite !pretty_no_dq, Ht, Hp. reflexivity.
Qed.

Lemma commit_parsed s dt rv : announceable s dt rv ->
  parse_commit (csa_commit_text s dt rv) = Some (announced s dt rv).
Proof.
  intros H. pose proof (commit_fields_ok s dt rv H) as Hok.
  destruct H as [H1 H2 H3 H4 H5 H6 [H7 H8] [H9 H10]]. rewrite commit_text_object.
  pose proof (fun key z Hk Hf Hz => get_int_object key _ (str1 LF) z Hk Hok Hf Hz) as Hi.
  pose proof (fun key s n Hk Hf Hs => get_str_object key _ (str1 LF) s n Hk Hok Hf Hs) as Hg.
  unfold parse_commit.
  rewrite (Hi "sess"%string _ eq_refl eq_refl H1), (Hi "dt_to_switch_ms"%string _ eq_refl eq_refl H5),
    (Hi "target_chan"%string _ eq_refl eq_refl H3), (Hi "seq"%string _ eq_refl eq_refl H2),
    (Hi "t_revert_ms"%string _ eq_refl eq_refl H6), (Hi "prev_chan"%string _ eq_refl eq_refl H4),
    (Hg "target_ht"%string _ CSA_HT_LEN eq_refl eq_refl H7),
    (Hg "prev_ht"%string _ CSA_HT_LEN eq_refl eq_refl H9).
  cbn [mbind option_bind default]. rewrite !take_chars_short by (unfold CSA_HT_LEN; cbn; lia).
  reflexivity.
Qed.

Lemma commit_type s dt rv : announceable s dt rv ->
  get_str (csa_commit_text s dt rv) "type" 32 = Some "csa_commit"%string.
Proof.
  intros H. rewrite commit_text_object.
  by rewrite (get_str_object "type" _ (str1 LF) "csa_commit" 32 eq_refl (commit_fields_ok s dt rv H)).
Qed.

Lemma feed_announcement v cfg s dt rv now : announceable s dt rv ->
  csa_feed v cfg (csa_commit_text s dt rv) now =
  (true, if target_ok cfg (GsState.cs_target_chan s) (GsState.cs_target_ht s)
         then commit_step v cfg (announced s dt rv) now else v).
Proof.
  intros H. unfold csa_feed. rewrite (commit_type s dt rv H). cbn [starts_with negb].
  unfold on_commit. rewrite (commit_parsed s dt rv H). cbn [announced cm_target_chan cm_target_ht].
  change (starts_with "csa_" "csa_commit") with true.
  change (starts_with "csa_commit" "csa_commit") with true. cbn [negb].
  by destruct (target_ok _ _ _).
Qed.

(** The announcements of one switch that arrive: sequence number and remaining time as sent,
    and the vehicle's clock. *)
Definition Heard : Type := list (Z * Z * Z).

Definition hear (cfg : CsaCfg) (s : GsState.CsaState) (rv : Z) (h : Heard) (v : Csa.CsaState)
    : Csa.CsaState :=
  fold_left (fun v '(seq, dt, now) =>
    (csa_feed v cfg (csa_commit_text (s <| cs_seq_in_burst := seq |>) dt rv) now).2) h v.

(** The vehicle's state after the first one. *)
Definition armed_by (s : GsState.CsaState) (dt rv now : Z) (v : Csa.CsaState) : Csa.CsaState :=
  Csa.Build_CsaState CSA_ST_ARMED (GsState.cs_sess s) (i64 (now + dt)) rv
    (i32 (GsState.cs_target_chan s)) (i32 (GsState.cs_prev_chan s)) (GsState.cs_target_ht s)
    (GsState.cs_prev_ht s) (cs_last_switch_ms v).

Lemma hear_armed cfg s rv v h :
  Forall (fun '(seq, dt, now) => announceable (s <| cs_seq_in_burst := seq |>) dt rv) h ->
  cs_st v = CSA_ST_ARMED -> Csa.cs_sess v = GsState.cs_sess s -> hear cfg s rv h v = v.
Proof.
  intros Hh Hv Hs. induction Hh as [|[[seq dt] now] h Ha Hh IH]; [done|].
  cbn [hear fold_left]. rewrite feed_announcement by exact Ha. cbn [snd].
  match goal with |- fold_left _ _ ?x = _ => assert (x = v) as -> end; [|exact IH].
  destruct (target_ok _ _ _); [|done]. unfold commit_step. rewrite Hv. cbn [bool_decide].
  change (cm_sess (announced (s <| cs_seq_in_burst := seq |>) dt rv)) with (GsState.cs_sess s).
  rewrite Hs. case_bool; [done|]. replace (_ || (_ >? _)) with false; [done|].
  rewrite Z.gtb_ltb, Z.ltb_irrefl. done.
Qed.

(** What goes out names the time left by the clock read for it; it goes to the uplink. *)
Lemma commit_sends {GE : GsEnv} c s w :
  let text := csa_commit_text s (csa_dt_ms s (now_us w).1) (csa_revert_ms s) in
  let '((rc, _), w') := csa_send_commit_frame c s w in
  exists es, w_trace w' = es ++ w_trace w /\
    Forall (fun ev => match ev with
      | GSendText dst t => to_uplink c dst /\ t = text | GSend _ _ => False | _ => True end) es /\
    ((forall h, ge_socket h <> Some 0) -> rc = 0 -> exists dst, In (GSendText dst text) es).
Proof.
  cbn zeta. unfold csa_send_commit_frame. destruct (tx_port _ _) as [port|] eqn:E.
  2:{ exists []. by split_and!. }
  apply tx_port_uplink in E. unfold io_bind at 1.
  change (now_us w) with ((now_us w).1, w <| w_trace := GNow :: w_trace w |>) at 1. cbn beta iota zeta.
  generalize (csa_commit_text s (csa_dt_ms s (now_us w).1) (csa_revert_ms s)) as text. intros text.
  destruct (strlen text >=? 320); [exists [GNow]; by split_and!; [|repeat constructor|]|].
  destruct (cs_send_open _).
  - unfold io_bind, io_ret, send_text, call. cbn.
    exists [GSendText (loopback port) text; GNow]. split_and!; [done|by repeat constructor|].
    intros _ _. eexists. by left.
  - unfold io_bind, io_ret, open_socket, send_text, call. cbn.
    destruct (ge_socket _) as [err|] eqn:Es; cbn.
    + exists [GSocket; GNow]. split_and!; [done|by repeat constructor|].
      intros Hs ->. by destruct (Hs _ Es).
    + exists [GSendText (loopback port) text; GSocket; GNow]. split_and!; [done|by repeat constructor|].
      intros _ _. eexists. by left.
Qed.

Lemma dt_close s now : now < cs_t_switch_us s -> cs_t_switch_us s - now < 2 ^ 31 * 1000 ->
  cs_t_switch_us s - now - 1000 < 1000 * csa_dt_ms s now <= cs_t_switch_us s - now /\
  0 <= csa_dt_ms s now < 2 ^ 31.
Proof.
  intros Hn Hs. unfold csa_dt_ms. rewrite (proj2 (Z.gtb_lt _ _)) by lia.
  rewrite u64_small by lia. rewrite Z.quot_div_nonneg by lia.
  pose proof (Z.div_mod (cs_t_switch_us s - now) 1000). pose proof (Z.mod_pos_bound (cs_t_switch_us s - now) 1000).
  rewrite i32_small by (unfold INT_MIN, INT_MAX; lia). lia.
Qed.

Lemma revert_close s : cs_t_switch_us s <= cs_t_revert_us s < cs_t_switch_us s + 2 ^ 31 * 1000 ->
  cs_t_revert_us s - cs_t_switch_us s - 1000 < 1000 * csa_revert_ms s <=
    cs_t_revert_us s - cs_t_switch_us s.
Proof.
  intros H. unfold csa_revert_ms. rewrite u64_small by lia. rewrite Z.quot_div_nonneg by lia.
  set (d := cs_t_revert_us s - cs_t_switch_us s) in *.
  pose proof (Z.div_mod d 1000). pose proof (Z.mod_pos_bound d 1000).
  rewrite i32_small by (unfold INT_MIN, INT_MAX; lia). lia.
Qed.


(** ** Probe records *)

Definition probe_fields (ts port m u l rssi win : Z) : Fields :=
  let acc := u32 (u + l) in
  [("type", FStr "probe"); ("ts_ms", FRaw (pretty ts)); ("radio_port", FRaw (pretty port));
   ("mcs", FRaw (pretty m)); ("per", FRaw (printf_f 4 (F64.div (F64.of_Z l) (F64.of_Z acc))));
   ("recv", FRaw (pretty u)); ("lost", FRaw (pretty l)); ("accounted", FRaw (pretty acc));
   ("rssi", FRaw (if (rssi =? INT_MIN)%Z then "null" else pretty rssi));
   ("window_s", FRaw (printf_f 3 (F64.div (F64.of_Z win) (F64.of_Z 1000000))))]%string.

Lemma probe_record_object ts port m u l rssi win :
  probe_record ts port m u l rssi win = object_text (probe_fields ts port m u l rssi win) (str1 LF).
Proof. reflexivity. Qed.

Lemma probe_fields_ok ts port m u l rssi win : fields_ok (probe_fields ts port m u l rssi win) = true.
Proof.
  unfold fields_ok, probe_fields. cbn zeta. cbn [forallb fst snd vtext_ok].
  rewrite !pretty_no_dq, !printf_no_dq. destruct (rssi =? INT_MIN); [reflexivity|].
  rewrite pretty_no_dq. reflexivity.
Qed.

Section Probe.
Context {ABI : CAbi}.

(** What the vehicle knows about a rung after a record. *)
Definition rung_of (ts u l now : Z) (old : ProbeRung) : ProbeRung :=
  Build_ProbeRung (u + l) l (per_milli (u + l) l) now ts (u32 (pr_records old + 1)) true.

(** Counters that [long] holds on the vehicle. *)
Definition counted_ok (u l : Z) : Prop := 0 <= u /\ 0 <= l /\ u + l < 2 ^ 31.

Lemma clamp_id z : INT_MIN <= z <= INT_MAX -> clampZ LONG_MIN LONG_MAX z = z.
Proof. intros Hz. pose proof LONG_MAX_ge. pose proof LONG_MIN_le. unfold clampZ. lia. Qed.

Lemma clamp_nonneg z : 0 <= z -> (clampZ LONG_MIN LONG_MAX z >=? 0) = true.
Proof.
  intros Hz. pose proof LONG_MAX_ge. pose proof LONG_MIN_le.
  unfold clampZ, INT_MAX, INT_MIN in *. lia.
Qed.

Lemma ingest_record p ts port m u l rssi win now : 0 <= m < 16 -> counted_ok u l -> 0 <= ts ->
  ingest_probe p (probe_record ts port m u l rssi win) now =
  p <| ps_rung := <[Z.to_nat m := rung_of (clampZ LONG_MIN LONG_MAX ts) u l now
                                    (ps_rung p !!! Z.to_nat m)]> (ps_rung p) |>
    <| ps_last_any_us := now |> <| ps_total_records := u32 (ps_total_records p + 1) |>.
Proof.
  intros Hm (Hu & Hl & Hul) Hts.
  pose proof (fun key z Hk Hp Hlen Hf => json_get_int_object key _ (str1 LF) z Hk
    (probe_fields_ok ts port m u l rssi win) Hp Hlen Hf) as Hg.
  unfold ingest_probe, get_int_or. rewrite probe_record_object. cbn zeta.
  rewrite (Hg "mcs"%string m eq_refl eq_refl eq_refl eq_refl),
    (Hg "accounted"%string (u32 (u + l)) eq_refl eq_refl eq_refl eq_refl),
    (Hg "lost"%string l eq_refl eq_refl eq_refl eq_refl),
    (Hg "ts_ms"%string ts eq_refl eq_refl eq_refl eq_refl).
  cbn [default]. unfold id. rewrite (u32_small (u + l)) by lia.
  rewrite !(clamp_id m), !(clamp_id l), !(clamp_id (u + l)) by (unfold INT_MIN, INT_MAX; lia).
  replace ((m >=? 0) && (m <? PROBE_MCS_MAX)) with true by (unfold PROBE_MCS_MAX; lia).
  by rewrite (clamp_nonneg ts Hts).
Qed.

Lemma record_is_probe ts port m u l rssi win :
  contains (probe_record ts port m u l rssi win) (field "type" (quoted "probe")) = true.
Proof. reflexivity. Qed.
(** *** A whole window *)

Fixpoint window_records (ts port win m : Z) (bs : list ProbeBucket) : list string :=
  match bs with
  | [] => []
  | b :: bs =>
      (if u32 (pb_uniq b + pb_lost b) =? 0 then []
       else [probe_record ts port m (pb_uniq b) (pb_lost b) (pb_rssi b) win]) ++
      window_records ts port win (m + 1) bs
  end.

Lemma flush_sends {GE : GsEnv} ts win t bs : forall m emitted,
  performs (fun ev => match ev with
    | GSendText a text => t_fwd t = Some a /\ text ∈ window_records ts (tc_radio_port (t_cfg t)) win m bs
    | _ => True end) (flush_buckets ts win t m bs emitted).
Proof.
  induction bs as [|b bs IH]; intros m emitted; cbn [flush_buckets window_records]; [apply performs_ret|].
  destruct (_ =? 0); [apply IH|]. cbn zeta. apply performs_bind.
  - destruct (_ <? _); [|apply performs_ret]. unfold forward. destruct (t_fwd t) as [a|] eqn:Ef; [|apply performs_ret].
    apply performs_bind; [|intros; apply performs_ret]. intros w. eexists [GSendText _ _].
    split; [done|]. constructor; [|constructor]. split; [done|]. by left.
  - intros _. eapply performs_weaken; [apply IH|]. intros [] H; try done. destruct H as [H1 H2].
    split; [done|]. by right.
Qed.

Definition learn (now : Z) (p : ProbeState) (records : list string) : ProbeState :=
  fold_left (fun p text => ingest_probe p text now) records p.

(** A bucket seen through its record. *)
Definition rung_after (ts now : Z) (b : ProbeBucket) (old : ProbeRung) : ProbeRung :=
  if pb_uniq b + pb_lost b =? 0 then old else rung_of ts (pb_uniq b) (pb_lost b) now old.

Lemma learn_window ts port win now bs : 0 <= ts -> forall m p,
  0 <= m -> m + Z.of_nat (length bs) <= 16 -> length (ps_rung p) = 16%nat ->
  Forall (fun b => counted_ok (pb_uniq b) (pb_lost b)) bs ->
  forall i : nat, (i < 16)%nat ->
  ps_rung (learn now p (window_records ts port win m bs)) !!! i =
  match (if Z.of_nat i <? m then None else bs !! (i - Z.to_nat m)%nat) with
  | Some b => rung_after (clampZ LONG_MIN LONG_MAX ts) now b (ps_rung p !!! i)
  | None => ps_rung p !!! i
  end.
Proof.
  intros Hts. induction bs as [|b bs IH]; intros m p Hm Hlen Hp Hb i Hi.
  { cbn [window_records learn fold_left]. rewrite lookup_nil. by destruct (_ <? _). }
  apply Forall_cons in Hb as [Hb Hbs]. cbn [length] in Hlen. cbn [window_records].
  destruct Hb as (Hu & Hl & Hul). rewrite (u32_small (pb_uniq b + pb_lost b)) by lia.
  destruct (Z.eqb_spec (pb_uniq b + pb_lost b) 0) as [E0|E0].
  - cbn [app]. rewrite IH by (done || lia). destruct (Z.ltb_spec (Z.of_nat i) m).
    + by replace (Z.of_nat i <? m + 1) with true by lia.
    + destruct (Z.ltb_spec (Z.of_nat i) (m + 1)).
      * replace (i - Z.to_nat m)%nat with 0%nat by lia. cbn. unfold rung_after.
        by rewrite E0.
      * by replace (i - Z.to_nat m)%nat with (S (i - Z.to_nat (m + 1))) by lia.
  - cbn [app learn fold_left]. rewrite ingest_record by (done || lia).
    set (p1 := p <| ps_rung := _ |> <| ps_last_any_us := _ |> <| ps_total_records := _ |>).
    change (fold_left _ ?l p1) with (learn now p1 l).
    rewrite IH; [|lia|lia|by cbn; rewrite length_insert|done|done].
    change (ps_rung p1) with (<[Z.to_nat m := rung_of (clampZ LONG_MIN LONG_MAX ts) (pb_uniq b)
      (pb_lost b) now (ps_rung p !!! Z.to_nat m)]> (ps_rung p)).
    destruct (Z.ltb_spec (Z.of_nat i) m).
    + replace (Z.of_nat i <? m + 1) with true by lia. by rewrite list_lookup_total_insert_ne by lia.
    + destruct (Z.ltb_spec (Z.of_nat i) (m + 1)).
      * replace i with (Z.to_nat m) by lia. replace (Z.to_nat m - Z.to_nat m)%nat with 0%nat by lia.
        rewrite list_lookup_total_insert_eq by lia. cbn. unfold rung_after.
        by rewrite (proj2 (Z.eqb_neq _ _) E0).
      * replace (i - Z.to_nat m)%nat with (S (i - Z.to_nat (m + 1))) by lia.
        by rewrite list_lookup_total_insert_ne by lia.
Qed.

(** What the ground station measured is what the vehicle decides by: every record a probe
    window sends is recognised as one, passes the channel-switch receiver, and once the
    records of a window have arrived, each rung with traffic holds exactly the window's
    counts, and every other rung what it held before. *)
Theorem probe_window_learned {GE : GsEnv} t ts win emitted p now v cfg text :
  let port := tc_radio_port (t_cfg t) in
  let bs := probe_bucket (t_probe_acc t) in
  0 <= ts -> length bs = 16%nat -> length (ps_rung p) = 16%nat ->
  Forall (fun b => counted_ok (pb_uniq b) (pb_lost b)) bs ->
  performs (fun ev => match ev with
    | GSendText _ text => text ∈ window_records ts port win 0 bs | _ => True end)
    (flush_buckets ts win t 0 bs emitted) /\
  (text ∈ window_records ts port win 0 bs ->
     contains text (field "type" (quoted "probe")) = true /\ csa_feed v cfg text now = (false, v)) /\
  forall i b, bs !! i = Some b ->
    ps_rung (learn now p (window_records ts port win 0 bs)) !!! i =
    rung_after (clampZ LONG_MIN LONG_MAX ts) now b (ps_rung p !!! i).
Proof.
  intros port bs Hts Hbs Hp Hc. split; [|split].
  - eapply performs_weaken; [apply flush_sends|]. intros [] H; try done. by destruct H.
  - generalize 0 at 1. clear. subst bs. generalize (probe_bucket (t_probe_acc t)).
    intros bs. induction bs as [|b bs IH]; intros m H; [by apply not_elem_of_nil in H|].
    cbn [window_records] in H. apply elem_of_app in H as [H|H]; [|by apply (IH (m + 1))].
    destruct (_ =? 0); [by apply not_elem_of_nil in H|]. apply list_elem_of_singleton in H as ->.
    split; [apply record_is_probe|]. unfold csa_feed. rewrite probe_record_object.
    by rewrite (get_str_object "type" _ (str1 LF) "probe" 32 eq_refl (probe_fields_ok _ _ _ _ _ _ _)).
  - intros i b Hi. pose proof (lookup_lt_Some _ _ _ Hi). rewrite learn_window by (done || lia).
    replace (Z.of_nat i <? 0) with false by lia. rewrite Nat.sub_0_r. by rewrite Hi.
Qed.
End Probe.

(** ** A flight *)

#[local] Existing Instance calm.
#[local] Existing Instance peer_ok.
#[local] Existing Instance abi_lp64.

(** The operator asks for 60 frames a second; the second and third copy follow. *)
Definition fps_first : Z * WcmdResp * Proxy * World :=
  wcmd_dispatch 0 px_sample (wcmd_req 1 Wcmd.WCMD_KEY_FPS 60) INADDR_LOOPBACK 1000000 world_init.

#[local] Strategy expand [fps_first].

Lemma command_burst_once_witness :
  rs_status fps_first.1.1.2 = ST_OK /\
  (deliver 0 fps_first.1.2 (wcmd_req 1 Wcmd.WCMD_KEY_FPS 60) INADDR_LOOPBACK [1001000; 1002000]
     fps_first.2).2 = fps_first.2.
Proof.
  assert (rs_status fps_first.1.1.2 = ST_OK) as Hok by (vm_compute; reflexivity). split; [exact Hok|].
  destruct (command_burst_once sample Wcmd.WCMD_KEY_FPS 60 emit_zero 0 px_sample INADDR_LOOPBACK 0
    1000000 [1001000; 1002000] world_init) as [_ H].
  - vm_compute. intuition discriminate.
  - lia.
  - lia.
  - by split.
  - reflexivity.
  - repeat constructor; unfold WCMD_BURST_DEDUP_US; lia.
  - unfold fps_first in *. revert H Hok.
    change (em_seq (next_seq emit_zero)) with 1.
    destruct (wcmd_dispatch _ _ _ _ _ _) as [[[rc resp] px1] w1]. cbn [fst snd]. intros H Hok.
    specialize (H Hok). destruct (deliver _ _ _ _ _ _) as [px2 w2]. apply H.
Defined.

Definition cfg_arm3 : Config :=
  config_defaults <| cfg_recovery := ((cfg_recovery config_defaults) <| recovery_arm_count := 3 |>) |>.

Lemma recovery_burst_once_witness :
  (recovery_run cfg_arm3 (map (fun t => (recovery_req 1, t)) [5000; 6000; 8000; 9000; 12000])
     recovery_zero world_init).1.1 = [8000].
Proof.
  destruct (recovery_burst_once sample emit_zero cfg_arm3 recovery_zero world_init 5000
    [6000; 8000; 9000; 12000] 0) as [_ H].
  - reflexivity.
  - cbn. lia.
  - by left.
  - lia.
  - repeat constructor; lia.
  - repeat constructor; vm_compute; intuition discriminate.
  - exact H.
Defined.

Definition csa_sample : GsState.CsaState :=
  GsState.csa_zero <| GsState.cs_sess := 1 |> <| cs_t_switch_us := 1500000 |>
    <| cs_t_revert_us := 4500000 |> <| GsState.cs_target_chan := 161 |>
    <| GsState.cs_target_ht := "HT20"%string |> <| GsState.cs_prev_chan := 149 |>
    <| GsState.cs_prev_ht := "HT20"%string |>.

Definition csa_any : CsaCfg := Build_CsaCfg "wlan0" [] [] 5000 false.

(** The ground station at its first clock reading. *)
Definition ground_at : GWorld GEvent := Build_World 0 [].


Definition probe_tunnel : Tunnel :=
  tunnel_init_defaults <| t_probe_acc := probe_acc_zero <| probe_bucket :=
    <[4%nat := Build_ProbeBucket 190 10 (-60)]> (replicate 16 (Build_ProbeBucket 0 0 0)) |> |>.

Definition probe_known : ProbeState := Build_ProbeState (replicate 16 probe_rung_zero) 0 0 0 0.

Lemma probe_window_learned_witness :
  pr_per_milli (ps_rung (learn 9 probe_known
    (window_records 1700000000000 0 500000 0 (probe_bucket (t_probe_acc probe_tunnel)))) !!! 4%nat) = 50.
Proof.
  destruct (probe_window_learned probe_tunnel 1700000000000 500000 0 probe_known 9 csa_init csa_any
    EmptyString) as (_ & _ & H).
  - lia.
  - reflexivity.
  - reflexivity.
  - repeat constructor; cbn; lia.
  - specialize (H 4%nat (Build_ProbeBucket 190 10 (-60)) eq_refl).
    etransitivity; [exact (f_equal pr_per_milli H)|]. vm_compute. reflexivity.
Defined.
